(* ===== verification/_CoqProject ===== *)
-Q . S2P
Prelude.v
Riscv.v
Memory.v
CString.v
Kalloc.v
Vm.v
PageTable.v
Mapping.v
UserCopy.v
Uvm.v
UvmFree.v
VmExamples.v
Spinlock.v
State.v
Bytes.v
Printf.v
PrintfSpec.v
Sched.v
Bio.v
BioSpec.v
Cache.v
Log.v
LogSpec.v
Crash.v
Txn.v
Fs.v
FsBlock.v
FsFile.v
FsInode.v
FsWrite.v
FsDir.v
FsPath.v
FsExamples.v
Mkfs.v
MkfsSpec.v
MkfsTree.v
MkfsThm.v
MkfsBoot.v
Virtio.v
VirtioSpec.v
VirtioProof.v
VirtioSteps.v
VirtioThm.v
VirtioExamples.v
Console.v
Pipe.v
PipeSpec.v
PipeThm.v
ConsSpec.v
ConsThm.v
PipeExamples.v
File.v
Proc.v
ProcMem.v
ForkSpec.v
ForkThm.v
Exec.v
Sysfile.v
Syscall.v
Trap.v
Mmap.v
MmapExamples.v
ForkExamples.v
Ulib.v
Umalloc.v
Grep.v
Uprintf.v
Sh.v
ShGrammar.v
ShParse.v
ShTree.v
ShThm.v
ShPrint.v
ShRun.v
ShProc.v
ShMain.v
Uprogs.v
Uls.v
