(* ===== verification/Prelude.v ===== *)
(** * Verification of the xv6 kernel with file mappings

    The program is xv6 for RISC-V with the system calls [mmap] and [munmap]: the
    kernel of [src/kernel], the program [src/mkfs/mkfs.c] that writes the image of
    the file system, and the user programs of [src/user].

    ** The parts of the program and how they interact

    The kernel is layers.  Physical pages come from the allocator of [kalloc.c];
    [vm.c] builds the page tables of the processes in them; [proc.c] gives each
    process such a table, a trapframe and a slot of the process table, and
    provides [sleep] and [wakeup], with which every other part waits.  Disk blocks
    come from [virtio_disk.c], which talks to the device through rings in shared
    memory and an interrupt; [bio.c] caches them, [log.c] groups their writes into
    transactions, and [fs.c] makes inodes, files, directories and paths of them.
    [file.c], [pipe.c] and [console.c] are the things behind a file descriptor.
    [trap.c] is entered from user space: for a system call it dispatches through
    [syscall.c] to [sysproc.c] and [sysfile.c]; for a load fault inside a mapping
    it brings in a page of the file.  [mkfs] writes the disk that [fs.c] later
    mounts.  The user programs see only system calls; the shell builds its
    pipelines and redirections out of [fork], [exec], [pipe], [dup] and [close].

    ** How code becomes definitions

    A routine is a function in the monad [M S A], from a state [S] to an
    [outcome]: it returns, panics, goes to sleep with the rest of its work as a
    continuation, leaves for ever, commits undefined behaviour ([Fault]: a wild or
    null pointer, an index out of an array), or uses up the fuel of a loop.
    Theorems of the form [wp m Q s] are total: [m] returns from [s], and the value
    and the state satisfy [Q].  A routine that may sleep is treated as steps: one
    turn of a thread is one step, and between the turns other threads run.

    Integers are in [Z]; the conversions [u8] to [u64], [s8] to [s32] stand where
    C converts, so arithmetic wraps where the code wraps.  Memory is a map from
    addresses to bytes with little-endian accesses; page tables, the free list and
    trapframes are bytes in it.  Tables of structures in the kernel are lists, and
    a pointer into one is an index, with [None] for the null pointer.  The record
    [kernel] of [State] is all data of the kernel; [machine] of [Kalloc] is the
    memory with the head of the free list.

    Spinlocks are not part of the state.  [Spinlock] proves, for any number of
    harts and any interleaving, that a critical section is exclusive and runs with
    interrupts off; this is why a critical section is one step everywhere else.
    [myproc()] is the argument [me] of a routine.

    ** Files of the development

    Shared: [Prelude] (integers, the monad, [wp], tactics, the hint database
    [xv6]), [Riscv] ([riscv.h], [memlayout.h]), [Memory], [Bytes] (structures in
    byte arrays), [CString] ([string.c]), [State] (the data of the kernel).

    Memory: [Kalloc] ([kalloc.c]); [Vm] (the routines of [vm.c]); [PageTable],
    [Mapping], [UserCopy], [Uvm], [UvmFree] prove them against [lookup_pte], the
    meaning of a page table, and [aspace], the address space of a process.

    Processes: [Spinlock] ([spinlock.c]), [Sched] (the part of [proc.c] that
    sleeps and wakes, [sleeplock.c]), [Proc] (the rest of [proc.c]), [ProcMem],
    [ForkSpec], [ForkThm] (the memory of a process, [fork], [wait]), [Exec]
    ([exec.c]), [Sysfile], [Syscall] ([syscall.c], [sysfile.c],
    [sysproc.c]), [Trap] ([trap.c], [main.c]), [Mmap] (mappings and page faults).

    Disk: [Virtio] ([virtio_disk.c]), [VirtioSpec], [VirtioProof], [VirtioSteps],
    [VirtioThm]; [Bio] ([bio.c]), [BioSpec], [Cache]; [Log] ([log.c]), [LogSpec],
    [Crash], [Txn]; [Fs] ([fs.c]), [FsBlock], [FsFile], [FsInode], [FsWrite],
    [FsDir], [FsPath]; [Mkfs] ([mkfs.c]), [MkfsSpec], [MkfsTree],
    [MkfsThm], [MkfsBoot].

    Devices: [Printf], [PrintfSpec] ([printf.c]), [Console] ([uart.c],
    [console.c]), [ConsSpec], [ConsThm]; [Pipe] ([pipe.c]), [PipeSpec], [PipeThm];
    [File] ([file.c]).

    User programs: [Ulib], [Umalloc], [Uprintf] ([ulib.c], [umalloc.c],
    [user/printf.c]), [Grep], [Uprogs] (the small programs), [Uls] ([ls.c],
    [init.c]); the shell [sh.c] in [Sh] (the parser), [ShGrammar], [ShParse],
    [ShTree], [ShThm], [ShPrint], [ShRun] ([runcmd]), [ShProc], [ShMain].

    [VmExamples], [FsExamples] (also the directories), [VirtioExamples],
    [PipeExamples] (also the console), [MmapExamples] and [ForkExamples] build
    concrete machines, by running the modelled routines, and apply the theorems to
    them; the other files do so at their end.

    ** What the theorems show

    - Disk and log: the driver, its callers, the interrupt handler and the device
      together refine a disk on which each request happens at one instant; no wakeup
      is lost, and nothing panics but the handler's check of the status byte, after
      the device has reported an error ([VirtioThm]).  On a disk without errors a file system call is
      atomic: after a crash at any write, recovery gives the state before it or
      the state after it ([Txn.transaction_atomic]).
    - Files: [writei] and [readi] are writing and reading bytes, with the block
      map, the bitmap and all other inodes and files kept ([FsWrite]); directories are finite
      maps and [namei] walks them ([FsDir], [FsPath]); a file given to [mkfs] is
      read back after the first boot ([MkfsBoot]).
    - Memory: pages are neither lost nor handed out twice ([Kalloc]); each page has
      one role and each user page one process ([pt_inv]); mapping, copying and
      freeing change what they should and nothing else.
    - Processes: [fork] makes a copy with exact reference counts, or fails and has
      taken nothing; [wait] gives back exactly the pages of a child ([ForkThm]).
    - Mappings: what [mmap], a page fault and [munmap] do, with the cases in which
      they do not do what they mean to ([Mmap]).
    - Communication: a pipe is a queue and never deadlocks ([PipeThm]); the console
      delivers the lines that were typed, as edited ([ConsThm]).
    - User programs: [malloc] gives disjoint blocks and loses none, for requests
      below 2 GB; [grep] prints
      the lines that match; [cat], [wc], [printf] and [atoi] compute what they
      should.  The shell takes its input line by line, parses exactly its grammar, the tree it builds is well
      typed, its processes start the programs that the command means, with the
      right files, in every schedule and whatever fails, and they end ([ShThm],
      [ShProc], [ShMain]).

    ** Interfaces and parameters

    What the sources do not define is a class with the facts that are relied on,
    and each of those with facts is instantiated in a witness: [Image] (addresses from the linker),
    [Text] (addresses of code), [SleepFuel], [Device] (what the virtio standard
    says of the device), [Reads] (how [read] cuts its input), [Sbrk], [Malloc],
    [Calls], [Kernel], [Stats] (results of system calls, as user programs see
    them).  [BlockReader] is an interface inside the development: reading files is
    proved once for any way of reading blocks, and used inside a transaction and
    at boot.

    ** Bounds and fuel

    A loop over memory or a table has fuel from its own bound (bytes to copy,
    entries of the table, pages of a range), and its theorem shows that the loop
    ends within it.  The loops that wait for a condition go round once for each
    wakeup: [sleep_fuel] bounds how often and is arbitrary, so the theorems about
    threads hold for any number of wakeups; a thread that has used it up has no
    further turn.  The parser of the shell has fuel [4 n + 4] for a line of [n]
    characters, [runcmd] one more than the length of the line, and the main loop
    one round for each byte of the input; [ShTree], [ShProc] and [ShMain] show that
    these are enough.

    ** Not modelled

    - [swtch.S], [trampoline.S], [kernelvec.S], [entry.S] and [start.c]: saving and
      loading of registers in assembly and in machine mode.  Their effect is the
      trapframe and the context that the C code reads and writes.
    - [scheduler] and [sched]: they switch stacks.  A thread that gives up the
      processor is a [Sleep] outcome, and the systems of steps let any thread that
      can run be the next.
    - [plic.c], [uartinit], [trapinit], [kvminithart] and the like: stores of
      constants to device or control registers.  Which interrupt is pending is an
      argument of the trap handlers.
    - [ramdisk.c]: not compiled, it uses fields that [struct buf] has not.
    - [usertests.c], [mmaptest.c], [forktest.c], [grind.c], [stressfs.c],
      [zombie.c]: tests and loads of the system; [usys.pl] generates the stubs of
      the system calls, [initcode.S] is a constant of [userinit].
    - [exit], [exec] and the dispatch of system calls are modelled as they are
      written and are executable; there is no theorem about [exec] as a whole. *)

From stdpp Require Export functions base gmap numbers strings tactics list.
From Stdlib Require Export ZArith Lia.

Global Set Default Goal Selector "!".

Declare Scope xv6_scope.
Delimit Scope xv6_scope with xv6.
Global Open Scope Z_scope.

(** ** Machine integers

    A C integer is a [Z] kept inside the range of its type; the conversions
    below are the ones C applies on assignment and after arithmetic. *)

Definition u8 (x : Z) : Z := x mod 2 ^ 8.
Definition u16 (x : Z) : Z := x mod 2 ^ 16.
Definition u32 (x : Z) : Z := x mod 2 ^ 32.
Definition u64 (x : Z) : Z := x mod 2 ^ 64.
Definition s8 (x : Z) : Z := (x + 2 ^ 7) mod 2 ^ 8 - 2 ^ 7.
Definition s16 (x : Z) : Z := (x + 2 ^ 15) mod 2 ^ 16 - 2 ^ 15.
Definition s32 (x : Z) : Z := (x + 2 ^ 31) mod 2 ^ 32 - 2 ^ 31.

Lemma u8_bound x : 0 ≤ u8 x < 256.
Proof. apply Z.mod_pos_bound. lia. Qed.
Lemma u32_bound x : 0 ≤ u32 x < 2 ^ 32.
Proof. apply Z.mod_pos_bound. lia. Qed.
Lemma u64_bound x : 0 ≤ u64 x < 2 ^ 64.
Proof. apply Z.mod_pos_bound. lia. Qed.
Lemma s32_bound x : - 2 ^ 31 ≤ s32 x < 2 ^ 31.
Proof. unfold s32. pose proof (Z.mod_pos_bound (x + 2 ^ 31) (2 ^ 32)). lia. Qed.
Lemma u8_id x : 0 ≤ x < 256 → u8 x = x.
Proof. intros. by apply Z.mod_small. Qed.
Lemma u32_id x : 0 ≤ x < 2 ^ 32 → u32 x = x.
Proof. intros. by apply Z.mod_small. Qed.
Lemma u64_id x : 0 ≤ x < 2 ^ 64 → u64 x = x.
Proof. intros. by apply Z.mod_small. Qed.
Lemma s32_id x : - 2 ^ 31 ≤ x < 2 ^ 31 → s32 x = x.
Proof. intros. unfold s32. rewrite Z.mod_small; lia. Qed.

(** ** Lists *)

Lemma alter_Some {A} (f : A → A) (l : list A) i x : l !! i = Some x → alter f i l = <[i := f x]> l.
Proof. revert i. induction l as [|y l IH]; intros [|i] E; cbn in *; simplify_eq; [done|]. f_equal. by apply IH. Qed.

(** ** Sleep channels

    The addresses that the kernel passes to [sleep] and [wakeup], one
    constructor per kind of object; the argument tells the objects of a kind
    apart. *)

Inductive chan :=
| ChNull
| ChPipeRead (pi : Z)
| ChPipeWrite (pi : Z)
| ChLog
| ChTicks
| ChConsR
| ChUartTx
| ChDiskFree
| ChBuf (b : nat)
| ChBufLock (b : nat)
| ChInodeLock (i : nat)
| ChProc (p : nat).

#[global] Instance chan_eq_dec : EqDecision chan.
Proof. solve_decision. Defined.

(** ** The kernel monad

    A kernel routine maps a state to an outcome.  [Sleep ch s k] says that the
    thread went to sleep on [ch] leaving state [s]; [k] is what it does when it
    is run again, in whatever state the other threads have left by then.
    [Fault] is undefined behaviour of C (a null or wild dereference), [Exited]
    a thread that never returns, [OutOfFuel] a loop that did not finish within
    the bound it was given. *)

Inductive outcome (S A : Type) : Type :=
| Done (a : A) (s : S)
| Panic (msg : string) (s : S)
| Sleep (ch : chan) (s : S) (k : S → outcome S A)
| Exited (s : S)
| Fault (why : string) (s : S)
| OutOfFuel.
Arguments Done {S A} a s.
Arguments Panic {S A} msg s.
Arguments Sleep {S A} ch s k.
Arguments Exited {S A} s.
Arguments Fault {S A} why s.
Arguments OutOfFuel {S A}.

Definition M (S A : Type) : Type := S → outcome S A.

Fixpoint obind {S A B} (f : A → M S B) (o : outcome S A) : outcome S B :=
  match o with
  | Done a s => f a s
  | Panic m s => Panic m s
  | Sleep c s k => Sleep c s (λ s', obind f (k s'))
  | Exited s => Exited s
  | Fault w s => Fault w s
  | OutOfFuel => OutOfFuel
  end.

#[global] Instance M_ret S : MRet (M S) := λ A a s, Done a s.
#[global] Instance M_bind S : MBind (M S) := λ A B f m s, obind f (m s).

Section ops.
Context {S : Type}.

Definition get : M S S := λ s, Done s s.
Definition put (s : S) : M S unit := λ _, Done tt s.
Definition gets {A} (f : S → A) : M S A := λ s, Done (f s) s.
Definition modify (f : S → S) : M S unit := λ s, Done tt (f s).
Definition panic {A} (msg : string) : M S A := λ s, Panic msg s.
Definition fault {A} (why : string) : M S A := λ s, Fault why s.
(** [sleep(chan, lk)]: the lock is released while asleep and held again on
    return, so the continuation starts a new critical section. *)
Definition sleep_on (ch : chan) : M S unit := λ s, Sleep ch s (λ s', Done tt s').
Definition out_of_fuel {A} : M S A := λ _, OutOfFuel.

(** A C loop: [body] either goes round again with new values of the loop
    variables ([inl]) or leaves the loop ([inr]). *)
Fixpoint loopM {A B} (fuel : nat) (body : A → M S (A + B)) (a : A) : M S B :=
  match fuel with
  | O => out_of_fuel
  | Datatypes.S f =>
      r ← body a;
      match r with inl a' => loopM f body a' | inr b => mret b end
  end.

Fixpoint forM {A} (l : list A) (body : A → M S unit) : M S unit :=
  match l with
  | [] => mret tt
  | x :: l => body x ;; forM l body
  end.
End ops.

(** A routine of a component used on a larger state through a getter and a
    setter of the component's part. *)
Fixpoint ozoom {S T A} (g : T → S) (p : S → T → T) (o : outcome S A) (t : T) : outcome T A :=
  match o with
  | Done a s => Done a (p s t)
  | Panic m s => Panic m (p s t)
  | Sleep c s k => Sleep c (p s t) (λ t', ozoom g p (k (g t')) t')
  | Exited s => Exited (p s t)
  | Fault w s => Fault w (p s t)
  | OutOfFuel => OutOfFuel
  end.
Definition zoom {S T A} (g : T → S) (p : S → T → T) (m : M S A) : M T A :=
  λ t, ozoom g p (m (g t)) t.

(** What a run that returns returns, and where it ends. *)
Definition final_value {S A} (o : outcome S A) (d : A) : A :=
  match o with Done a _ => a | _ => d end.
Definition final_state {S A} (o : outcome S A) (d : S) : S :=
  match o with Done _ s => s | _ => d end.
Definition returns {S A} (o : outcome S A) : bool :=
  match o with Done _ _ => true | _ => false end.

(** [while(cond) sleep(ch, lk)]: a thread that other threads keep waiting goes
    round this loop once per wakeup; [sleep_fuel] bounds the number of times. *)
Class SleepFuel := sleep_fuel : nat.

(** ** A small program logic

    [wp m Q s]: run from [s], [m] returns (it neither panics, faults, sleeps
    nor runs out of fuel) and its value and final state satisfy [Q]. *)

Definition wp {S A} (m : M S A) (Q : A → S → Prop) (s : S) : Prop :=
  match m s with Done a s' => Q a s' | _ => False end.

Section wp.
Context {S : Type}.
Implicit Types s : S.

Lemma wp_intro {A} (m : M S A) Q s a s' : m s = Done a s' → Q a s' → wp m Q s.
Proof. unfold wp. by intros ->. Qed.
Lemma wp_eq {A} (m m' : M S A) Q s : m s = m' s → wp m' Q s → wp m Q s.
Proof. unfold wp. by intros ->. Qed.
Lemma wp_elim {A} (m : M S A) Q s :
  wp m Q s → ∃ a s', m s = Done a s' ∧ Q a s'.
Proof. unfold wp. destruct (m s); naive_solver. Qed.
Lemma wp_final {A} (m : M S A) Q s a0 s0 :
  wp m Q s → Q (final_value (m s) a0) (final_state (m s) s0).
Proof. unfold wp. by destruct (m s). Qed.
Lemma wp_ret {A} (a : A) Q s : Q a s → wp (mret a) Q s.
Proof. done. Qed.
Lemma wp_bind {A B} (m : M S A) (f : A → M S B) Q s :
  wp m (λ a s', wp (f a) Q s') s → wp (m ≫= f) Q s.
Proof. unfold wp, mbind, M_bind. destruct (m s); naive_solver. Qed.
Lemma wp_bind_inv {A B} (m : M S A) (f : A → M S B) Q s :
  wp (m ≫= f) Q s → wp m (λ a s', wp (f a) Q s') s.
Proof. unfold wp, mbind, M_bind. destruct (m s); naive_solver. Qed.
Lemma wp_get Q s : Q s s → wp get Q s.
Proof. done. Qed.
Lemma wp_put s' Q s : Q tt s' → wp (put s') Q s.
Proof. done. Qed.
Lemma wp_gets {A} (f : S → A) Q s : Q (f s) s → wp (gets f) Q s.
Proof. done. Qed.
Lemma wp_modify f Q s : Q tt (f s) → wp (modify f) Q s.
Proof. done. Qed.
Lemma wp_mono {A} (m : M S A) (Q Q' : A → S → Prop) s :
  wp m Q s → (∀ a s', Q a s' → Q' a s') → wp m Q' s.
Proof. unfold wp. destruct (m s); naive_solver. Qed.
Lemma wp_and {A} (m : M S A) (Q Q' : A → S → Prop) s :
  wp m Q s → wp m Q' s → wp m (λ a s', Q a s' ∧ Q' a s') s.
Proof. unfold wp. destruct (m s); naive_solver. Qed.

(** Loops: an invariant over the loop variables and the state, and a measure
    that the fuel bounds. *)
Lemma wp_loop {A B} (body : A → M S (A + B)) (I : A → S → Prop)
    (meas : A → nat) (Q : B → S → Prop) fuel a s :
  (meas a < fuel)%nat →
  I a s →
  (∀ a s, I a s →
     wp (body a) (λ r s', match r with
                          | inl a' => I a' s' ∧ (meas a' < meas a)%nat
                          | inr b => Q b s' end) s) →
  wp (loopM fuel body a) Q s.
Proof.
  intros Hf HI Hbody. revert a s Hf HI.
  induction fuel as [|fuel IH]; intros a s Hf HI; [lia|].
  simpl. apply wp_bind. eapply wp_mono; [by apply Hbody|].
  intros [a'|b] s'; simpl; [|by apply wp_ret].
  intros [HI' Hm]. apply IH; [lia|done].
Qed.

Lemma wp_forM {A} (l : list A) (body : A → M S unit) (I : list A → S → Prop) s :
  I l s →
  (∀ x l s, I (x :: l) s → wp (body x) (λ _ s', I l s') s) →
  wp (forM l body) (λ _ s', I [] s') s.
Proof.
  intros HI Hb. revert s HI. induction l as [|x l IH]; intros s HI; simpl.
  - by apply wp_ret.
  - apply wp_bind. eapply wp_mono; [by apply Hb|]. intros u s' HI'. by apply IH.
Qed.
End wp.

Lemma wp_zoom {S T A} (g : T → S) (p : S → T → T) (m : M S A) (Q : A → T → Prop) t :
  wp m (λ a s', Q a (p s' t)) (g t) → wp (zoom g p m) Q t.
Proof. unfold wp, zoom. destruct (m (g t)); naive_solver. Qed.

(** ** Runs

    What a sequence does after a first part that returned or went to sleep. *)

Lemma bind_done {S A B} (m : M S A) (f : A → M S B) s x s' : m s = Done x s' → (m ≫= f) s = f x s'.
Proof. unfold mbind, M_bind. by intros ->. Qed.
Lemma bind_sleep {S A B} (m : M S A) (f : A → M S B) s ch s' c : m s = Sleep ch s' c → (m ≫= f) s = Sleep ch s' (λ s2, obind f (c s2)).
Proof. unfold mbind, M_bind. by intros ->. Qed.
Lemma loop_eq {S A B} f (body : A → M S (A + B)) x s r s' : body x s = Done r s' →
  loopM (Datatypes.S f) body x s = match r with inl y => loopM f body y s' | inr z => Done z s' end.
Proof. intros Hb. cbn [loopM]. rewrite (bind_done _ _ _ _ _ Hb). by destruct r. Qed.

Create HintDb xv6.
#[export] Hint Resolve wp_ret wp_get wp_put wp_gets wp_modify : xv6.

(** One symbolic step of a routine. *)
Ltac wp_step :=
  lazymatch goal with
  | |- wp (_ ≫= _) _ _ => apply wp_bind
  | |- wp (mret _) _ _ => apply wp_ret
  | |- wp get _ _ => apply wp_get
  | |- wp (put _) _ _ => apply wp_put
  | |- wp (gets _) _ _ => apply wp_gets
  | |- wp (modify _) _ _ => apply wp_modify
  end; cbn beta.
Ltac wp_steps := repeat wp_step.

(** Conditions of the source, as booleans of the model. *)
Ltac bsimpl :=
  repeat match goal with
  | H : (_ && _) = true |- _ => apply andb_prop in H as [??]
  | H : (_ || _) = false |- _ => apply orb_false_elim in H as [??]
  | H : (_ =? _) = true |- _ => apply Z.eqb_eq in H
  | H : (_ =? _) = false |- _ => apply Z.eqb_neq in H
  | H : (_ <? _) = true |- _ => apply Z.ltb_lt in H
  | H : (_ <? _) = false |- _ => apply Z.ltb_ge in H
  | H : (_ <=? _) = true |- _ => apply Z.leb_le in H
  | H : (_ <=? _) = false |- _ => apply Z.leb_gt in H
  | H : negb _ = true |- _ => apply negb_true_iff in H
  | H : negb _ = false |- _ => apply negb_false_iff in H
  end.
Ltac case_if H :=
  lazymatch goal with
  | |- context [if ?b then _ else _] => destruct b eqn:H; bsimpl
  end.

(** ** Threads that sleep

    [rg R G m Q s]: [m] run from [s] neither panics nor faults; whenever it goes
    to sleep, the state it leaves is related by [G] to the one it found when it
    last started running, and it may find any state related by [R] to that when
    it is woken; when it returns [a] the last of these stretches, from [s0] to
    [s'], satisfies [Q a s0 s']. *)
Fixpoint rgo {S A} (R G : S → S → Prop) (Q : A → S → S → Prop) (s0 : S) (o : outcome S A) : Prop :=
  match o with
  | Done a s => Q a s0 s
  | Sleep _ s k => G s0 s ∧ ∀ s', R s s' → rgo R G Q s' (k s')
  | Exited s => G s0 s
  | _ => False
  end.
Definition rg {S A} (R G : S → S → Prop) (m : M S A) (Q : A → S → S → Prop) (s : S) : Prop :=
  rgo R G Q s (m s).

Section rg.
Context {S : Type} (R G : S → S → Prop).

Lemma rgo_mono {A} (Q Q' : A → S → S → Prop) s0 o :
  (∀ a s s', Q a s s' → Q' a s s') → rgo R G Q s0 o → rgo R G Q' s0 o.
Proof.
  intros HQ. revert s0. induction o as [a s|msg s|ch s k IH|s|why s|]; intros s0; cbn; auto.
  intros [HG Hk]. split; auto.
Qed.
Lemma rgo_bind {A B} (f : A → M S B) (Q : B → S → S → Prop) s0 o :
  rgo R G (λ a s s', rgo R G Q s (f a s')) s0 o → rgo R G Q s0 (obind f o).
Proof.
  revert s0. induction o as [a s|msg s|ch s k IH|s|why s|]; intros s0; cbn; auto.
  intros [HG Hk]. split; auto.
Qed.
Lemma rgo_wp {A} (m : M S A) (P : A → S → Prop) (Q : A → S → S → Prop) s0 s :
  wp m P s → (∀ a s', P a s' → Q a s0 s') → rgo R G Q s0 (m s).
Proof. unfold wp. destruct (m s); cbn; naive_solver. Qed.
End rg.
