(* ===== verification/Riscv.v ===== *)
(** * RISC-V page-table arithmetic and the physical memory layout

    The macros of [kernel/riscv.h] and [kernel/memlayout.h] that the memory
    code computes with, as functions on [Z], and what they mean in terms of
    quotients and remainders. *)

From S2P Require Import Prelude.

Definition PGSIZE : Z := 4096.
Definition PGSHIFT : Z := 12.

Definition PGROUNDUP (sz : Z) : Z := Z.land (u64 (sz + PGSIZE - 1)) (Z.lnot (PGSIZE - 1)).
Definition PGROUNDDOWN (a : Z) : Z := Z.land a (Z.lnot (PGSIZE - 1)).

Definition PTE_V : Z := Z.shiftl 1 0.
Definition PTE_R : Z := Z.shiftl 1 1.
Definition PTE_W : Z := Z.shiftl 1 2.
Definition PTE_X : Z := Z.shiftl 1 3.
Definition PTE_U : Z := Z.shiftl 1 4.

Definition PA2PTE (pa : Z) : Z := u64 (Z.shiftl (Z.shiftr pa 12) 10).
Definition PTE2PA (pte : Z) : Z := u64 (Z.shiftl (Z.shiftr pte 10) 12).
Definition PTE_FLAGS (pte : Z) : Z := Z.land pte 0x3FF.

Definition PXMASK : Z := 0x1FF.
Definition PXSHIFT (level : Z) : Z := PGSHIFT + 9 * level.
Definition PX (level va : Z) : Z := Z.land (Z.shiftr va (PXSHIFT level)) PXMASK.

Definition MAXVA : Z := Z.shiftl 1 (9 + 9 + 9 + 12 - 1).

Definition KERNBASE : Z := 0x80000000.
Definition PHYSTOP : Z := KERNBASE + 128 * 1024 * 1024.
Definition UART0 : Z := 0x10000000.
Definition VIRTIO0 : Z := 0x10001000.
Definition PLIC : Z := 0x0c000000.
Definition TRAMPOLINE : Z := MAXVA - PGSIZE.
Definition TRAPFRAME : Z := TRAMPOLINE - PGSIZE.
Definition KSTACK (p : Z) : Z := TRAMPOLINE - (p + 1) * 2 * PGSIZE.

Definition SATP_SV39 : Z := Z.shiftl 8 60.
Definition MAKE_SATP (pagetable : Z) : Z := Z.lor SATP_SV39 (Z.shiftr pagetable 12).

(** ** Arithmetic readings of the macros *)

Lemma land_lnot_low (x n : Z) : 0 ≤ n → Z.land x (Z.lnot (2 ^ n - 1)) = x - x mod 2 ^ n.
Proof.
  intros Hn. replace (2 ^ n - 1) with (Z.ones n) by (rewrite Z.ones_equiv; lia).
  rewrite <-Z.ldiff_land, Z.ldiff_ones_r by lia.
  rewrite Z.shiftl_mul_pow2, Z.shiftr_div_pow2 by lia.
  pose proof (Z.div_mod x (2 ^ n)). lia.
Qed.

Lemma PGROUNDDOWN_mod a : PGROUNDDOWN a = a - a mod 4096.
Proof. apply (land_lnot_low a 12). lia. Qed.

Lemma PGROUNDUP_mod sz :
  PGROUNDUP sz = u64 (sz + 4095) - u64 (sz + 4095) mod 4096.
Proof.
  unfold PGROUNDUP. replace (sz + PGSIZE - 1) with (sz + 4095) by (unfold PGSIZE; lia).
  apply (land_lnot_low _ 12). lia.
Qed.

Lemma PGROUNDUP_spec sz :
  0 ≤ sz ≤ 2 ^ 64 - 4096 →
  PGROUNDUP sz mod 4096 = 0 ∧ sz ≤ PGROUNDUP sz < sz + 4096.
Proof.
  intros. rewrite PGROUNDUP_mod, u64_id by lia.
  pose proof (Z.mod_pos_bound (sz + 4095) 4096).
  split; [|lia]. rewrite Zminus_mod_idemp_r, Z.sub_diag. done.
Qed.

Lemma PGROUNDUP_aligned sz : 0 ≤ sz ≤ 2 ^ 64 - 4096 → sz mod 4096 = 0 → PGROUNDUP sz = sz.
Proof. intros ? ?. pose proof (PGROUNDUP_spec sz). Z.div_mod_to_equations. lia. Qed.

Lemma PGROUNDDOWN_aligned a : a mod 4096 = 0 → PGROUNDDOWN a = a.
Proof. rewrite PGROUNDDOWN_mod. lia. Qed.

Lemma PA2PTE_div pa : 0 ≤ pa < 2 ^ 64 → PA2PTE pa = pa / 4096 * 1024.
Proof.
  intros. unfold PA2PTE. rewrite Z.shiftl_mul_pow2, Z.shiftr_div_pow2 by lia.
  change (2 ^ 12) with 4096. change (2 ^ 10) with 1024. apply u64_id.
  Z.div_mod_to_equations. lia.
Qed.

Lemma PTE2PA_div pte : 0 ≤ pte < 2 ^ 62 → PTE2PA pte = pte / 1024 * 4096.
Proof.
  intros. unfold PTE2PA. rewrite Z.shiftl_mul_pow2, Z.shiftr_div_pow2 by lia.
  change (2 ^ 12) with 4096. change (2 ^ 10) with 1024. apply u64_id.
  Z.div_mod_to_equations. lia.
Qed.

Lemma PTE_FLAGS_mod pte : PTE_FLAGS pte = pte mod 1024.
Proof. apply (Z.land_ones pte 10). lia. Qed.

Lemma PX_div level va : 0 ≤ level → PX level va = va / 2 ^ (12 + 9 * level) mod 512.
Proof.
  intros. unfold PX, PXSHIFT, PGSHIFT. rewrite Z.shiftr_div_pow2 by lia.
  apply (Z.land_ones _ 9). lia.
Qed.

Lemma PX_bound level va : 0 ≤ level → 0 ≤ PX level va < 512.
Proof. intros. rewrite PX_div by done. apply Z.mod_pos_bound. lia. Qed.

(** The bits above the flags and the flags of an entry do not overlap. *)
Lemma lor_disjoint_add (hi lo n : Z) :
  0 ≤ n → 0 ≤ lo < 2 ^ n → Z.lor (hi * 2 ^ n) lo = hi * 2 ^ n + lo.
Proof.
  intros Hn Hlo.
  assert (Z.land (hi * 2 ^ n) lo = 0) as H0.
  { apply Z.bits_inj'. intros i Hi. rewrite Z.land_spec, Z.bits_0, <-Z.shiftl_mul_pow2 by lia.
    destruct (Z.lt_ge_cases i n); [by rewrite Z.shiftl_spec_low by lia|].
    rewrite <-(Z.mod_small lo (2 ^ n)), Z.mod_pow2_bits_high by lia. apply andb_false_r. }
  by rewrite Z.add_nocarry_lxor, Z.lxor_lor.
Qed.

Lemma lor_bound a b n : 0 ≤ n → 0 ≤ a < 2 ^ n → 0 ≤ b < 2 ^ n → 0 ≤ Z.lor a b < 2 ^ n.
Proof.
  intros Hn [Ha Ha'] [Hb Hb']. split; [by apply Z.lor_nonneg|].
  destruct (Z.eq_dec (Z.lor a b) 0) as [->|Hne]; [lia|].
  assert (0 ≤ Z.lor a b) by by apply Z.lor_nonneg.
  apply Z.log2_lt_pow2; [lia|]. rewrite Z.log2_lor by lia.
  destruct (Z.eq_dec n 0) as [->|].
  { exfalso. apply Hne. by replace a with 0 by lia; replace b with 0 by lia. }
  assert (∀ x, 0 ≤ x < 2 ^ n → Z.log2 x < n) as Hlog.
  { intros x [??]. destruct (Z.eq_dec x 0) as [->|]; [simpl; lia|].
    apply Z.log2_lt_pow2; lia. }
  pose proof (Hlog a). pose proof (Hlog b). lia.
Qed.

(** The leaf entry that maps a page to [pa] with permissions [perm]. *)
Definition mk_pte (pa perm : Z) : Z := Z.lor (Z.lor (PA2PTE pa) perm) PTE_V.

Section pte.
Context (pa perm : Z).
Hypothesis Hpa : 0 ≤ pa < 2 ^ 56.
Hypothesis Hal : pa mod 4096 = 0.
Hypothesis Hperm : 0 ≤ perm < 1024.

Lemma mk_pte_add : mk_pte pa perm = pa / 4 + Z.lor perm PTE_V.
Proof using Hpa Hal Hperm.
  unfold mk_pte. rewrite <-Z.lor_assoc, PA2PTE_div by lia. change 1024 with (2 ^ 10).
  rewrite (lor_disjoint_add (pa / 4096) (Z.lor perm PTE_V) 10);
    [Z.div_mod_to_equations; lia|lia|].
  apply lor_bound; [lia|lia|]. change PTE_V with 1. lia.
Qed.

Lemma mk_pte_bound : 0 ≤ mk_pte pa perm < 2 ^ 55.
Proof using Hpa Hal Hperm.
  rewrite mk_pte_add. assert (0 ≤ Z.lor perm PTE_V < 2 ^ 10).
  { apply lor_bound; [lia|lia|]. change PTE_V with 1. lia. }
  Z.div_mod_to_equations. lia.
Qed.

Lemma mk_pte_pa : PTE2PA (mk_pte pa perm) = pa.
Proof using Hpa Hal Hperm.
  pose proof mk_pte_bound. rewrite PTE2PA_div by lia. rewrite mk_pte_add.
  assert (0 ≤ Z.lor perm PTE_V < 2 ^ 10).
  { apply lor_bound; [lia|lia|]. change PTE_V with 1. lia. }
  Z.div_mod_to_equations. lia.
Qed.

Lemma mk_pte_flags :
  PTE_FLAGS (mk_pte pa perm) = Z.lor perm PTE_V.
Proof using Hpa Hal Hperm.
  rewrite PTE_FLAGS_mod, mk_pte_add.
  assert (0 ≤ Z.lor perm PTE_V < 2 ^ 10).
  { apply lor_bound; [lia|lia|]. change PTE_V with 1. lia. }
  Z.div_mod_to_equations. lia.
Qed.
End pte.

(** A flag of an entry only depends on the flag bits of the entry. *)
Lemma land_flags pte f : 0 ≤ f < 1024 → Z.land pte f = Z.land (PTE_FLAGS pte) f.
Proof.
  intros Hf. unfold PTE_FLAGS. rewrite <-Z.land_assoc. f_equal.
  rewrite Z.land_comm. change 0x3FF with (Z.ones 10). rewrite Z.land_ones by lia.
  rewrite Z.mod_small; lia.
Qed.

(** The virtual page number is the three indices put together. *)
Lemma vpn_split va :
  0 ≤ va < 2 ^ 39 → va / 4096 = (PX 2 va * 512 + PX 1 va) * 512 + PX 0 va.
Proof.
  intros. rewrite !PX_div by lia.
  change (2 ^ (12 + 9 * 2)) with 1073741824.
  change (2 ^ (12 + 9 * 1)) with 2097152.
  change (2 ^ (12 + 9 * 0)) with 4096.
  Z.div_mod_to_equations. lia.
Qed.
