(* ===== verification/Memory.v ===== *)
(** * Byte-addressed memory

    What the C code reads and writes through pointers: a finite map from
    addresses to bytes, with little-endian multi-byte accesses as on RISC-V.
    An address that was never written reads as 0; the statements below quantify
    over the whole memory, so nothing depends on that choice. *)

From S2P Require Import Prelude.

Abbreviation mem := (gmap Z Z).

Definition load8 (m : mem) (a : Z) : Z := default 0 (m !! a).
Definition store8 (m : mem) (a v : Z) : mem := <[a := u8 v]> m.

Fixpoint load_le (m : mem) (a : Z) (n : nat) : Z :=
  match n with
  | O => 0
  | S n => load8 m a + 256 * load_le m (a + 1) n
  end.
Fixpoint store_le (m : mem) (a : Z) (n : nat) (v : Z) : mem :=
  match n with
  | O => m
  | S n => store_le (store8 m a v) (a + 1) n (v / 256)
  end.

Definition load32 (m : mem) (a : Z) : Z := load_le m a 4.
Definition store32 (m : mem) (a v : Z) : mem := store_le m a 4 v.
Definition load64 (m : mem) (a : Z) : Z := load_le m a 8.
Definition store64 (m : mem) (a v : Z) : mem := store_le m a 8 v.

(** Arrays of bytes in memory. *)
Fixpoint store_bytes (m : mem) (a : Z) (l : list Z) : mem :=
  match l with
  | [] => m
  | b :: l => store_bytes (store8 m a b) (a + 1) l
  end.
Fixpoint load_bytes (m : mem) (a : Z) (n : nat) : list Z :=
  match n with
  | O => []
  | S n => load8 m a :: load_bytes m (a + 1) n
  end.

(** Every byte of the memory is a byte. *)
Definition bytes_ok (m : mem) : Prop := ∀ a, 0 ≤ load8 m a < 256.

(** Two memories that agree on [n] bytes from [a]. *)
Definition agree (m m' : mem) (a n : Z) : Prop :=
  ∀ x, a ≤ x < a + n → load8 m' x = load8 m x.

Lemma load8_store8 m a v x :
  load8 (store8 m a v) x = if decide (a = x) then u8 v else load8 m x.
Proof. unfold load8, store8. rewrite lookup_insert. by case_decide. Qed.

Lemma bytes_ok_empty : bytes_ok ∅.
Proof. intros a. unfold load8. rewrite lookup_empty. cbn. lia. Qed.

Lemma store8_ok m a v : bytes_ok m → bytes_ok (store8 m a v).
Proof. intros H x. rewrite load8_store8. case_decide; [apply u8_bound|apply H]. Qed.

Lemma load8_store_le m a n v x :
  load8 (store_le m a n v) x =
  if decide (a ≤ x < a + Z.of_nat n) then u8 (v / 256 ^ (x - a)) else load8 m x.
Proof.
  revert m a v. induction n as [|n IH]; intros m a v; cbn [store_le].
  { case_decide; [lia|done]. }
  rewrite IH, load8_store8. destruct (decide (a = x)) as [<-|Hne].
  - rewrite decide_False by lia. rewrite decide_True by lia.
    replace (a - a) with 0 by lia. by rewrite Z.pow_0_r, Z.div_1_r.
  - repeat case_decide; try lia.
    replace (x - a) with (Z.succ (x - (a + 1))) by lia.
    rewrite Z.pow_succ_r, Z.div_div by lia. done.
Qed.

Lemma store_le_ok m a n v : bytes_ok m → bytes_ok (store_le m a n v).
Proof. intros H x. rewrite load8_store_le. case_decide; [apply u8_bound|apply H]. Qed.

Lemma load_le_agree m m' a n : agree m m' a (Z.of_nat n) → load_le m' a n = load_le m a n.
Proof.
  revert a. induction n as [|n IH]; intros a H; [done|]. cbn [load_le].
  rewrite (H a) by lia. rewrite IH; [done|]. intros x Hx. apply H. lia.
Qed.

Lemma load_le_bound m a n : bytes_ok m → 0 ≤ load_le m a n < 256 ^ Z.of_nat n.
Proof.
  intros H. revert a. induction n as [|n IH]; intros a; [done|]. cbn [load_le].
  rewrite Nat2Z.inj_succ, Z.pow_succ_r by lia. specialize (H a). specialize (IH (a + 1)). lia.
Qed.

Lemma load_store_le m a n v : load_le (store_le m a n v) a n = v mod 256 ^ Z.of_nat n.
Proof.
  revert m a v. induction n as [|n IH]; intros m a v; [by rewrite Z.mod_1_r|].
  cbn [load_le store_le]. rewrite IH, load8_store_le, decide_False by lia.
  rewrite load8_store8, decide_True by done.
  rewrite Nat2Z.inj_succ, Z.pow_succ_r by lia.
  rewrite Z.rem_mul_r by lia. done.
Qed.

Lemma load_store_le_disj m a n v b k :
  a + Z.of_nat n ≤ b ∨ b + Z.of_nat k ≤ a → load_le (store_le m a n v) b k = load_le m b k.
Proof.
  intros H. apply load_le_agree. intros x Hx. rewrite load8_store_le, decide_False; [done|lia].
Qed.

Lemma load64_store64 m a v : 0 ≤ v < 2 ^ 64 → load64 (store64 m a v) a = v.
Proof. intros. unfold load64, store64. rewrite load_store_le. by apply Z.mod_small. Qed.
Lemma load64_store64_disj m a v b :
  a + 8 ≤ b ∨ b + 8 ≤ a → load64 (store64 m a v) b = load64 m b.
Proof. intros. unfold load64, store64. apply load_store_le_disj. lia. Qed.
Lemma load8_store64 m a v x :
  load8 (store64 m a v) x = if decide (a ≤ x < a + 8) then u8 (v / 256 ^ (x - a)) else load8 m x.
Proof. apply (load8_store_le m a 8). Qed.
Lemma load8_store64_ne m a v x :
  x < a ∨ a + 8 ≤ x → load8 (store64 m a v) x = load8 m x.
Proof. intros. unfold store64. rewrite load8_store_le, decide_False; [done|lia]. Qed.
Lemma load64_bound m a : bytes_ok m → 0 ≤ load64 m a < 2 ^ 64.
Proof. intros. by apply (load_le_bound m a 8). Qed.
Lemma load64_agree m m' a : agree m m' a 8 → load64 m' a = load64 m a.
Proof. apply (load_le_agree m m' a 8). Qed.
Lemma load64_zero m a : (∀ x, a ≤ x < a + 8 → load8 m x = 0) → load64 m a = 0.
Proof.
  intros H. unfold load64. cbn [load_le]. rewrite !H by lia. done.
Qed.

Lemma store64_ok m a v : bytes_ok m → bytes_ok (store64 m a v).
Proof. apply store_le_ok. Qed.

Lemma load8_store_bytes m a l x :
  load8 (store_bytes m a l) x =
  if decide (a ≤ x < a + Z.of_nat (length l))
  then u8 (default 0 (l !! Z.to_nat (x - a))) else load8 m x.
Proof.
  revert m a. induction l as [|b l IH]; intros m a; cbn [store_bytes length].
  { case_decide; [lia|done]. }
  rewrite IH, load8_store8. destruct (decide (a = x)) as [->|].
  - rewrite decide_False, decide_True by lia. by rewrite Z.sub_diag.
  - repeat case_decide; try lia.
    replace (Z.to_nat (x - a)) with (S (Z.to_nat (x - (a + 1)))) by lia. done.
Qed.
Lemma store_bytes_ok m a l : bytes_ok m → bytes_ok (store_bytes m a l).
Proof. intros H x. rewrite load8_store_bytes. case_decide; [apply u8_bound|apply H]. Qed.
Lemma length_load_bytes m a n : length (load_bytes m a n) = n.
Proof. revert a. induction n as [|n IH]; intros a; cbn; by rewrite ?IH. Qed.
Lemma load_bytes_lookup m a n i :
  (i < n)%nat → load_bytes m a n !! i = Some (load8 m (a + Z.of_nat i)).
Proof.
  revert a i. induction n as [|n IH]; intros a i Hi; [lia|].
  destruct i as [|i]; cbn [load_bytes]; [cbn; by rewrite Z.add_0_r|].
  rewrite lookup_cons, IH by lia. do 2 f_equal. lia.
Qed.

Lemma agree_refl m a n : agree m m a n.
Proof. done. Qed.
Lemma agree_trans m1 m2 m3 a n : agree m1 m2 a n → agree m2 m3 a n → agree m1 m3 a n.
Proof. intros H1 H2 x Hx. by rewrite H2, H1. Qed.
Lemma agree_sub m m' a n b k : agree m m' a n → a ≤ b → b + k ≤ a + n → agree m m' b k.
Proof. intros H ?? x Hx. apply H. lia. Qed.
#[export] Hint Resolve bytes_ok_empty store8_ok store_le_ok store64_ok store_bytes_ok agree_refl : xv6.
