(* ===== verification/CString.v ===== *)
(** * Kernel string and memory routines ([kernel/string.c])

    [memset], [memcmp] and [memmove] work on the byte memory.  A [char *] into
    an array is the list of the array's bytes from that position on; [None] is
    an access beyond the end of the array. *)

From S2P Require Import Prelude Memory.

(** ** Memory *)

Fixpoint memset_loop (k : nat) (p c : Z) (m : mem) : mem :=
  match k with
  | O => m
  | S k => memset_loop k (p + 1) c (store8 m p c)
  end.
Definition memset (dst c n : Z) (m : mem) : mem := memset_loop (Z.to_nat n) dst c m.

Fixpoint memcmp_loop (k : nat) (s1 s2 : Z) (m : mem) : Z :=
  match k with
  | O => 0
  | S k =>
      if negb (load8 m s1 =? load8 m s2) then load8 m s1 - load8 m s2
      else memcmp_loop k (s1 + 1) (s2 + 1) m
  end.
Definition memcmp (v1 v2 n : Z) (m : mem) : Z := memcmp_loop (Z.to_nat n) v1 v2 m.

Fixpoint memmove_bwd (k : nat) (d s : Z) (m : mem) : mem :=
  match k with
  | O => m
  | S k => memmove_bwd k (d - 1) (s - 1) (store8 m (d - 1) (load8 m (s - 1)))
  end.
Fixpoint memmove_fwd (k : nat) (d s : Z) (m : mem) : mem :=
  match k with
  | O => m
  | S k => memmove_fwd k (d + 1) (s + 1) (store8 m d (load8 m s))
  end.
Definition memmove (dst src n : Z) (m : mem) : mem :=
  if n =? 0 then m
  else if (src <? dst) && (dst <? src + n)
  then memmove_bwd (Z.to_nat n) (dst + n) (src + n) m
  else memmove_fwd (Z.to_nat n) dst src m.

(** [memcpy exists to placate GCC.  Use memmove.] *)
Definition memcpy (dst src n : Z) (m : mem) : mem := memmove dst src n m.

(** ** Strings *)

Fixpoint strncmp (p q : list Z) (n : nat) {struct n} : option Z :=
  match n with
  | O => Some 0
  | S n' =>
      match p, q with
      | a :: p', b :: q' =>
          if negb (a =? 0) && (a =? b) then strncmp p' q' n' else Some (a - b)
      | _, _ => None
      end
  end.

Fixpoint zero_fill (n : nat) (s : list Z) {struct n} : option (list Z) :=
  match n with
  | O => Some s
  | S n' => match s with [] => None | _ :: s' => cons 0 <$> zero_fill n' s' end
  end.
Fixpoint strncpy (s t : list Z) (n : nat) {struct n} : option (list Z) :=
  match n with
  | O => Some s
  | S n' =>
      match s, t with
      | _ :: s', c :: t' =>
          if c =? 0 then cons 0 <$> zero_fill n' s' else cons c <$> strncpy s' t' n'
      | _, _ => None
      end
  end.

Definition put_nul (s : list Z) : option (list Z) :=
  match s with [] => None | _ :: s' => Some (0 :: s') end.
Fixpoint safestrcpy_loop (k : nat) (s t : list Z) {struct k} : option (list Z) :=
  match k with
  | O => put_nul s
  | S k' =>
      match s, t with
      | _ :: s', c :: t' =>
          if c =? 0 then cons 0 <$> put_nul s' else cons c <$> safestrcpy_loop k' s' t'
      | _, _ => None
      end
  end.
Definition safestrcpy (s t : list Z) (n : Z) : option (list Z) :=
  if n <=? 0 then Some s else safestrcpy_loop (Z.to_nat (n - 1)) s t.

Fixpoint strlen (s : list Z) : option Z :=
  match s with
  | [] => None
  | c :: s' => if c =? 0 then Some 0 else Z.succ <$> strlen s'
  end.

(** ** The memory routines, byte by byte *)

Lemma memset_loop_load8 k p c m x :
  load8 (memset_loop k p c m) x =
  if decide (p ≤ x < p + Z.of_nat k) then u8 c else load8 m x.
Proof.
  revert p m. induction k as [|k IH]; intros p m; cbn [memset_loop].
  { case_decide; [lia|done]. }
  rewrite IH, load8_store8. repeat case_decide; try lia; done.
Qed.

Lemma load8_memset dst c n m x :
  0 ≤ n →
  load8 (memset dst c n m) x = if decide (dst ≤ x < dst + n) then u8 c else load8 m x.
Proof. intros. unfold memset. rewrite memset_loop_load8, Z2Nat.id by done. done. Qed.

Lemma memset_ok dst c n m : bytes_ok m → bytes_ok (memset dst c n m).
Proof.
  intros H x. unfold memset. rewrite memset_loop_load8. case_decide; [apply u8_bound|apply H].
Qed.

Lemma memmove_fwd_load8 k d s m x :
  bytes_ok m → d ≤ s ∨ s + Z.of_nat k ≤ d →
  load8 (memmove_fwd k d s m) x =
  if decide (d ≤ x < d + Z.of_nat k) then load8 m (s + (x - d)) else load8 m x.
Proof.
  revert d s m. induction k as [|k IH]; intros d s m Hm Hov; cbn [memmove_fwd].
  { case_decide; [lia|done]. }
  rewrite IH by (auto with xv6; lia). rewrite !load8_store8, u8_id by apply Hm.
  repeat case_decide; try lia; f_equal; lia.
Qed.

Lemma memmove_bwd_load8 k d s m x :
  bytes_ok m → s ≤ d →
  load8 (memmove_bwd k d s m) x =
  if decide (d - Z.of_nat k ≤ x < d) then load8 m (s + (x - d)) else load8 m x.
Proof.
  revert d s m. induction k as [|k IH]; intros d s m Hm Hov; cbn [memmove_bwd].
  { case_decide; [lia|done]. }
  rewrite IH by (auto with xv6; lia). rewrite !load8_store8, u8_id by apply Hm.
  repeat case_decide; try lia; f_equal; lia.
Qed.

Lemma load8_memmove dst src n m x :
  bytes_ok m → 0 ≤ n →
  load8 (memmove dst src n m) x =
  if decide (dst ≤ x < dst + n) then load8 m (src + (x - dst)) else load8 m x.
Proof.
  intros Hm Hn. unfold memmove. case_if E.
  { subst n. case_decide; [lia|done]. }
  destruct ((src <? dst) && (dst <? src + n)) eqn:E2.
  - bsimpl. rewrite memmove_bwd_load8, Z2Nat.id by (done || lia).
    repeat case_decide; try lia; f_equal; lia.
  - apply andb_false_iff in E2. rewrite memmove_fwd_load8, Z2Nat.id; [done|done|done|].
    rewrite !Z.ltb_ge in E2. lia.
Qed.

Lemma memmove_ok dst src n m : bytes_ok m → 0 ≤ n → bytes_ok (memmove dst src n m).
Proof. intros H Hn x. rewrite load8_memmove by done. case_decide; apply H. Qed.
#[export] Hint Resolve memset_ok memmove_ok : xv6.

(** [memmove] copies correctly whatever the overlap of the two buffers:
    afterwards the [n] destination bytes are the source bytes as they were
    before the call, and every other byte is unchanged. *)
Theorem memmove_correct dst src n m :
  bytes_ok m → 0 ≤ n →
  (∀ i, 0 ≤ i < n → load8 (memmove dst src n m) (dst + i) = load8 m (src + i)) ∧
  (∀ x, x < dst ∨ dst + n ≤ x → load8 (memmove dst src n m) x = load8 m x).
Proof.
  intros Hm Hn. split; intros z Hz; rewrite load8_memmove by done.
  - rewrite decide_True by lia. f_equal. lia.
  - rewrite decide_False by lia. done.
Qed.
Lemma memmove_correct_witness :
  load8 (memmove 1 0 3 (store8 (store8 (store8 ∅ 0 7) 1 8) 2 9)) 3 = 9.
Proof.
  pose proof (memmove_correct 1 0 3 (store8 (store8 (store8 ∅ 0 7) 1 8) 2 9)) as H.
  destruct H as [H _].
  - repeat apply store8_ok. intros a. vm_compute. split; congruence.
  - lia.
  - apply (H 2). lia.
Defined.

Lemma memcmp_loop_zero k s1 s2 m :
  memcmp_loop k s1 s2 m = 0 ↔
  ∀ i, 0 ≤ i < Z.of_nat k → load8 m (s1 + i) = load8 m (s2 + i).
Proof.
  revert s1 s2. induction k as [|k IH]; intros s1 s2; cbn [memcmp_loop]; [naive_solver lia|].
  case_if E.
  - split; [lia|]. intros H. specialize (H 0). rewrite !Z.add_0_r in H. lia.
  - rewrite IH. split; intros H i Hi.
    + destruct (decide (i = 0)) as [->|]; [by rewrite !Z.add_0_r|].
      specialize (H (i - 1)). replace (s1 + 1 + (i - 1)) with (s1 + i) in H by lia.
      replace (s2 + 1 + (i - 1)) with (s2 + i) in H by lia. apply H. lia.
    + replace (s1 + 1 + i) with (s1 + (i + 1)) by lia.
      replace (s2 + 1 + i) with (s2 + (i + 1)) by lia. apply H. lia.
Qed.

(** ** C strings

    The characters of the string at the head of an array. *)
Fixpoint cstr (l : list Z) : list Z :=
  match l with [] => [] | c :: l' => if c =? 0 then [] else c :: cstr l' end.

Lemma cstr_nonzero l c : c ∈ cstr l → c ≠ 0.
Proof.
  induction l as [|a l IH]; cbn [cstr]; [set_solver|]. case_if E; set_solver.
Qed.

Lemma strlen_spec s : 0 ∈ s → strlen s = Some (Z.of_nat (length (cstr s))).
Proof.
  induction s as [|c s IH]; cbn [strlen cstr]; [set_solver|].
  case_if E; [done|]. intros [?|?]%elem_of_cons; [lia|].
  rewrite IH by done. cbn [fmap option_fmap option_map length]. f_equal. lia.
Qed.

(** An array that [n] reads from do not leave, reading up to its NUL. *)
Definition readable (n : nat) (l : list Z) : Prop := (n ≤ length l)%nat ∨ 0 ∈ l.
Lemma readable_cons n c l : readable (S n) (c :: l) → c ≠ 0 → readable n l.
Proof. unfold readable. cbn [length]. set_solver by lia. Qed.

Lemma strncmp_spec n p q :
  readable n p → readable n q →
  ∃ r, strncmp p q n = Some r ∧ (r = 0 ↔ take n (cstr p) = take n (cstr q)).
Proof.
  revert p q. induction n as [|n IH]; intros p q Hp Hq; cbn [strncmp]; [by exists 0; split_and!|].
  destruct p as [|a p]; [destruct Hp; [cbn [length] in *; lia|set_solver]|].
  destruct q as [|b q]; [destruct Hq; [cbn [length] in *; lia|set_solver]|].
  cbn [cstr]. destruct (a =? 0) eqn:Ea, (b =? 0) eqn:Eb, (a =? b) eqn:Eab;
    bsimpl; cbn [negb andb]; try lia; cbn [take];
    try (eexists; split; [done|]; split; [lia|congruence]).
  - eexists; split; [done|]. split; [done|lia].
  - destruct (IH p q) as (r & -> & Hr).
    { by eapply readable_cons. } { by eapply readable_cons. }
    eexists; split; [done|]. rewrite Hr. subst b. split; [congruence|]. by intros [= ->].
Qed.

Lemma zero_fill_spec n s :
  (n ≤ length s)%nat → zero_fill n s = Some (replicate n 0 ++ drop n s).
Proof.
  revert s. induction n as [|n IH]; intros s Hs; cbn [zero_fill]; [done|].
  destruct s as [|c s]; cbn [length] in *; [lia|]. rewrite IH by lia. done.
Qed.

(** [strncpy(s, t, n)] writes exactly [n] bytes: the characters of [t] cut
    at [n], then NULs up to [n]; the rest of the array is unchanged.  The
    result is NUL-terminated only when [t] is shorter than [n]. *)
Theorem strncpy_spec n s t :
  (n ≤ length s)%nat → readable n t →
  strncpy s t n =
  Some (take n (cstr t) ++ replicate (n - length (cstr t)) 0 ++ drop n s).
Proof.
  revert s t. induction n as [|n IH]; intros s t Hs Ht; cbn [strncpy]; [done|].
  destruct s as [|c s]; cbn [length] in *; [lia|].
  destruct t as [|a t]; [destruct Ht; [cbn [length] in *; lia|set_solver]|].
  cbn [cstr]. case_if E.
  - rewrite zero_fill_spec by lia. done.
  - rewrite IH; [done|lia|by eapply readable_cons].
Qed.
Lemma strncpy_spec_witness : strncpy [9; 9; 9; 9; 9] [97; 98; 0] 4 = Some [97; 98; 0; 0; 9].
Proof. rewrite (strncpy_spec 4); [done|cbn; lia|right; set_solver]. Defined.

Lemma cstr_app_nul l r : (∀ c, c ∈ l → c ≠ 0) → cstr (l ++ 0 :: r) = l.
Proof.
  induction l as [|c l IH]; intros H; [done|]. cbn [app cstr].
  rewrite (proj2 (Z.eqb_neq c 0)) by (apply H; set_solver). f_equal. apply IH. set_solver.
Qed.

Lemma safestrcpy_loop_spec k s t :
  (k < length s)%nat → readable k t →
  ∃ r, safestrcpy_loop k s t = Some (take k (cstr t) ++ 0 :: r) ∧
       length (take k (cstr t) ++ 0 :: r) = length s.
Proof.
  revert s t. induction k as [|k IH]; intros s t Hs Ht; cbn [safestrcpy_loop].
  { destruct s as [|c s]; cbn [length] in *; [lia|]. eexists. split; [done|]. done. }
  destruct s as [|c s]; cbn [length] in *; [lia|].
  destruct t as [|a t]; [destruct Ht; [cbn [length] in *; lia|set_solver]|].
  cbn [cstr]. case_if E.
  - destruct s as [|c' s]; cbn [length put_nul] in *; [lia|].
    eexists. split; [done|]. done.
  - destruct (IH s t) as (r & -> & Hr); [lia|by eapply readable_cons|].
    exists r. split; [done|]. cbn [take app length] in *. lia.
Qed.

(** [safestrcpy(s, t, n)] with [n > 0] leaves in [s] a NUL-terminated
    string, the first [n - 1] characters of [t], and never writes outside the
    array: its length does not change. *)
Theorem safestrcpy_spec s t n :
  0 < n ≤ Z.of_nat (length s) → readable (Z.to_nat n) t →
  ∃ r, safestrcpy s t n = Some r ∧ length r = length s ∧ 0 ∈ r ∧
       cstr r = take (Z.to_nat (n - 1)) (cstr t).
Proof.
  intros Hn Ht. unfold safestrcpy. case_if E; [lia|].
  destruct (safestrcpy_loop_spec (Z.to_nat (n - 1)) s t) as (r & -> & Hr); [lia| |].
  { destruct Ht; [left; lia|by right]. }
  eexists. split; [done|]. split; [done|]. split; [set_solver|].
  apply cstr_app_nul. intros c Hc. eapply cstr_nonzero. by apply subseteq_take in Hc.
Qed.
Lemma safestrcpy_spec_witness :
  ∃ r, safestrcpy [9; 9; 9] [97; 98; 99; 100; 0] 3 = Some r ∧ cstr r = [97; 98].
Proof.
  destruct (safestrcpy_spec [9; 9; 9] [97; 98; 99; 100; 0] 3) as (r & H & _ & _ & Hr).
  - cbn. lia.
  - left. cbn. lia.
  - exists r. split; [exact H|exact Hr].
Defined.

(** From here on these are used through their lemmas. *)
#[global] Opaque memset memmove load64 store64.
