(* ===== verification/Kalloc.v ===== *)
(** * Physical page allocator ([kernel/kalloc.c])

    The free pages form a linked list threaded through the pages themselves:
    the first eight bytes of a free page hold the address of the next one.
    [kfree], [kalloc], [freerange] and [kinit] are the four routines of the
    file; the critical section of [kmem.lock] is one step of the model. *)

From S2P Require Import Prelude Riscv Memory CString.

(** ** State *)

(** Addresses that the linker script [kernel/kernel.ld] fixes: the end of the
    kernel text, the first address after the kernel, and the page that holds
    the trampoline code. *)
Class Image := {
  etext : Z;
  end_ : Z;
  trampoline : Z;
  image_etext : KERNBASE < etext ∧ etext mod 4096 = 0;
  image_end : etext ≤ end_ ≤ PHYSTOP - 4096;
  image_trampoline : KERNBASE ≤ trampoline < etext ∧ trampoline mod 4096 = 0;
}.

Record machine := Machine {
  ram : mem;        (** physical memory *)
  freelist : Z;     (** [kmem.freelist] *)
}.
Definition set_ram (f : mem → mem) (s : machine) : machine := Machine (f (ram s)) (freelist s).
Definition set_freelist (p : Z) (s : machine) : machine := Machine (ram s) p.

Section kalloc.
Context {I : Image}.

(** ** Operations *)

Definition kfree (pa : Z) : M machine unit :=
  if negb (pa mod PGSIZE =? 0) || (pa <? end_) || (PHYSTOP <=? pa)
  then panic "kfree"
  else
    modify (set_ram (memset pa 1 PGSIZE)) ;;
    fl ← gets freelist;
    modify (set_ram (λ m, store64 m pa fl)) ;;
    modify (set_freelist pa).

Definition kalloc : M machine Z :=
  r ← gets freelist;
  (if negb (r =? 0)
   then m ← gets ram; modify (set_freelist (load64 m r))
   else mret tt) ;;
  (if negb (r =? 0) then modify (set_ram (memset r 5 PGSIZE)) else mret tt) ;;
  mret r.

(** The loop runs once per whole page between the bounds. *)
Definition freerange_body (pa_end p : Z) : M machine (Z + unit) :=
  if p + PGSIZE <=? pa_end
  then kfree p ;; mret (inl (p + PGSIZE))
  else mret (inr tt).
Definition freerange (pa_start pa_end : Z) : M machine unit :=
  let p := PGROUNDUP pa_start in
  loopM (S (Z.to_nat ((pa_end - p) / PGSIZE))) (freerange_body pa_end) p.

Definition kinit : M machine unit := freerange end_ PHYSTOP.

(** ** Invariant *)

(** The chain of pages that starts at [p]. *)
Fixpoint fl_rep (m : mem) (p : Z) (l : list Z) : Prop :=
  match l with
  | [] => p = 0
  | x :: l' => p = x ∧ fl_rep m (load64 m x) l'
  end.

(** What [kfree] accepts. *)
Definition page_ok (p : Z) : Prop := p mod 4096 = 0 ∧ end_ ≤ p < PHYSTOP.
#[global] Instance page_ok_dec p : Decision (page_ok p).
Proof. unfold page_ok. apply _. Defined.

Record kmem_inv (s : machine) (l : list Z) : Prop := {
  ki_bytes : bytes_ok (ram s);
  ki_list : fl_rep (ram s) (freelist s) l;
  ki_nodup : NoDup l;
  ki_pages : Forall page_ok l;
}.

(** Memory outside the page [p] is the same. *)
Definition same_outside (p : Z) (m m' : mem) : Prop :=
  ∀ x, x < p ∨ p + 4096 ≤ x → load8 m' x = load8 m x.

Lemma page_ok_pos p : page_ok p → KERNBASE < p ∧ p + 4096 ≤ PHYSTOP.
Proof using Type.
  intros [Hal Hp]. pose proof image_etext. pose proof image_end.
  unfold PHYSTOP, KERNBASE in *. Z.div_mod_to_equations. lia.
Qed.
Lemma page_disj p q : p mod 4096 = 0 → q mod 4096 = 0 → p ≠ q → p + 4096 ≤ q ∨ q + 4096 ≤ p.
Proof using Type. intros. Z.div_mod_to_equations. lia. Qed.

Lemma same_outside_page p q m m' :
  same_outside p m m' → p mod 4096 = 0 → q mod 4096 = 0 → p ≠ q → agree m m' q 4096.
Proof using Type. intros H ??? x Hx. apply H. destruct (page_disj p q); auto; lia. Qed.

Lemma fl_rep_agree m m' p l :
  fl_rep m p l → (∀ x, x ∈ l → agree m m' x 8) → fl_rep m' p l.
Proof using Type.
  revert p. induction l as [|x l IH]; intros p Hl H; [done|].
  destruct Hl as [-> Hl]. split; [done|].
  rewrite (load64_agree m m') by (apply H; set_solver). apply IH; [done|set_solver].
Qed.

Lemma fl_rep_outside p m m' q l :
  fl_rep m q l → same_outside p m m' → p mod 4096 = 0 → Forall page_ok l → p ∉ l →
  fl_rep m' q l.
Proof using Type.
  intros Hl Hs Hp Hok Hnin. eapply fl_rep_agree; [done|]. intros x Hx.
  apply (agree_sub _ _ x 4096); [|lia..]. apply (same_outside_page p); try done; [|by intros ->].
  rewrite Forall_forall in Hok. by destruct (Hok x Hx).
Qed.

(** ** Correctness *)

Lemma kfree_wp s l p :
  kmem_inv s l → page_ok p → p ∉ l →
  wp (kfree p) (λ _ s', kmem_inv s' (p :: l) ∧ same_outside p (ram s) (ram s')) s.
Proof using Type.
  intros [Hb Hl Hnd Hok] Hp Hnin. unfold kfree. pose proof (page_ok_pos p Hp) as Hpos.
  destruct Hp as [Hal Hrange]. case_if E.
  { rewrite !orb_true_iff, negb_true_iff, Z.eqb_neq, Z.ltb_lt, Z.leb_le in E.
    unfold PGSIZE in E. lia. }
  wp_steps. unfold set_ram, set_freelist; cbn [ram freelist].
  assert (same_outside p (ram s) (store64 (memset p 1 PGSIZE (ram s)) p (freelist s))) as Hs.
  { intros x Hx. rewrite load8_store64_ne by lia. unfold PGSIZE.
    rewrite load8_memset, decide_False by lia. done. }
  split; [|done]. split; cbn [ram freelist].
  - auto with xv6.
  - split; [done|]. rewrite load64_store64.
    + by eapply fl_rep_outside.
    + destruct l as [|q l]; cbn in Hl; [lia|]. destruct Hl as [-> _].
      apply Forall_cons in Hok as [Hq _]. apply page_ok_pos in Hq.
      unfold PHYSTOP, KERNBASE in *. lia.
  - by constructor.
  - by constructor.
Qed.

Lemma kalloc_wp_some s p l :
  kmem_inv s (p :: l) →
  wp kalloc (λ r s', r = p ∧ kmem_inv s' l ∧ same_outside p (ram s) (ram s') ∧
                     ∀ x, p ≤ x < p + 4096 → load8 (ram s') x = 5) s.
Proof using Type.
  intros [Hb Hl Hnd Hok]. destruct Hl as [Hp Hl].
  apply Forall_cons in Hok as [Hpok Hok]. apply NoDup_cons in Hnd as [Hnin Hnd].
  pose proof (page_ok_pos p Hpok). unfold kalloc. wp_steps. rewrite Hp.
  destruct (p =? 0) eqn:E; bsimpl; [unfold KERNBASE in *; lia|].
  cbn [negb]. wp_steps. unfold set_ram, set_freelist; cbn [ram freelist].
  assert (same_outside p (ram s) (memset p 5 PGSIZE (ram s))) as Hs.
  { intros x Hx. unfold PGSIZE. rewrite load8_memset, decide_False by lia. done. }
  split; [done|]. split; [|split; [done|]].
  - split; cbn [ram freelist]; auto with xv6. eapply fl_rep_outside; try done. apply Hpok.
  - intros x Hx. unfold PGSIZE. by rewrite load8_memset, decide_True by lia.
Qed.

Lemma kalloc_none s : kmem_inv s [] → kalloc s = Done 0 s.
Proof using Type. intros [_ Hl _ _]. unfold kalloc, mbind, M_bind, gets. cbn [obind]. by rewrite Hl. Qed.
(** ** The two operations, on every branch *)

Lemma kalloc_wp s l :
  kmem_inv s l →
  wp kalloc (λ r s',
    match l with
    | [] => r = 0 ∧ s' = s
    | p :: l' => r = p ∧ kmem_inv s' l' ∧ same_outside p (ram s) (ram s') ∧
                 ∀ x, p ≤ x < p + 4096 → load8 (ram s') x = 5
    end) s.
Proof using Type.
  intros Hs. destruct l as [|p l]; [|by apply kalloc_wp_some].
  eapply wp_intro; [by apply kalloc_none|done].
Qed.

(** [kalloc] takes the first page of the free list: it returns that page,
    filled with 5s, leaves the other free pages free and every byte outside the
    page unchanged; with no free page it returns 0 and changes nothing. *)
Theorem kalloc_spec s l :
  kmem_inv s l →
  wp kalloc (λ r s',
    match l with
    | [] => r = 0 ∧ s' = s
    | p :: l' => r = p ∧ kmem_inv s' l' ∧ same_outside p (ram s) (ram s') ∧
                 ∀ x, p ≤ x < p + 4096 → load8 (ram s') x = 5
    end) s.
Proof using Type. apply kalloc_wp. Qed.

(** [kfree] puts a page that is not already free at the head of the free
    list and touches no other byte; it panics exactly on an address that is
    not page-aligned or lies outside the memory the allocator manages, and then
    changes nothing. *)
Theorem kfree_spec s l p :
  kmem_inv s l → p ∉ l →
  if decide (page_ok p)
  then wp (kfree p) (λ _ s', kmem_inv s' (p :: l) ∧ same_outside p (ram s) (ram s')) s
  else kfree p s = Panic "kfree" s.
Proof using Type.
  intros Hs Hnin. case_decide as Hp; [by apply kfree_wp|].
  unfold kfree. case_if E; [done|]. destruct Hp. split; [done|]. unfold PGSIZE in *. lia.
Qed.

Lemma freerange_loop s l lo n :
  kmem_inv s l → lo mod 4096 = 0 → end_ ≤ lo →
  lo + 4096 * Z.of_nat n ≤ PHYSTOP → (∀ x, x ∈ l → x < lo) →
  ∀ hi, lo + 4096 * Z.of_nat n ≤ hi < lo + 4096 * Z.of_nat n + 4096 →
  wp (loopM (S n) (freerange_body hi) lo)
     (λ _ s', ∃ l', kmem_inv s' l' ∧
        (∀ x, x ∈ l' ↔ x ∈ l ∨ (lo ≤ x < lo + 4096 * Z.of_nat n ∧ x mod 4096 = 0)) ∧
        length l' = (n + length l)%nat) s.
Proof using Type.
  revert s l lo. induction n as [|n IH]; intros s l lo Hs Hal Hlo Hhi Hl hi Hr.
  - cbn [loopM]. apply wp_bind. unfold freerange_body, PGSIZE. case_if E; [lia|].
    apply wp_ret, wp_ret. exists l. split; [done|]. split; [|done]. intros x. split; [auto|].
    intros [?|?]; [done|lia].
  - replace (loopM (S (S n)) (freerange_body hi) lo) with
      (freerange_body hi lo ≫= λ r, match r with
         inl a => loopM (S n) (freerange_body hi) a | inr b => mret b end) by done.
    apply wp_bind. unfold freerange_body at 1, PGSIZE. case_if E; [|lia].
    apply wp_bind. eapply wp_mono; [apply (kfree_wp s l)|]; try done.
    { split; [done|lia]. } { intros Hin. specialize (Hl _ Hin). lia. }
    intros _ s' [Hs' _]. apply wp_ret.
    eapply wp_mono; [apply (IH s' (lo :: l))|].
    + done.
    + by rewrite <-Z.add_mod_idemp_r, Z.add_0_r by lia.
    + lia.
    + lia.
    + intros x [->|Hx]%elem_of_cons; [lia|]. specialize (Hl _ Hx). lia.
    + lia.
    + intros [] s'' (l' & Hs'' & Hmem & Hlen). exists l'. split; [done|].
      split; [|cbn [length] in *; lia]. intros x. rewrite Hmem, elem_of_cons.
      split; [intros [[->|?]|?]; auto; right; lia|]. intros [?|[??]]; [auto|].
      destruct (decide (x = lo)); [auto|]. right. Z.div_mod_to_equations. lia.
Qed.

(** [kinit] on an empty free list makes exactly the whole pages between
    the end of the kernel and [PHYSTOP] free, each once; in particular its loop
    terminates and never panics. *)
Theorem kinit_spec s :
  bytes_ok (ram s) → freelist s = 0 →
  wp kinit (λ _ s', ∃ l, kmem_inv s' l ∧ (∀ p, p ∈ l ↔ page_ok p) ∧
       Z.of_nat (length l) = (PHYSTOP - PGROUNDUP end_) / 4096) s.
Proof using Type.
  intros Hb Hf. unfold kinit, freerange.
  pose proof image_etext. pose proof image_end.
  assert (0 ≤ end_ ≤ 2 ^ 64 - 4096) as Hend by (unfold PHYSTOP, KERNBASE in *; lia).
  pose proof (PGROUNDUP_spec end_ Hend) as [Hal Hup].
  set (lo := PGROUNDUP end_) in *. set (n := Z.to_nat ((PHYSTOP - lo) / PGSIZE)).
  assert (PHYSTOP = lo + 4096 * Z.of_nat n) as HP.
  { unfold n, PGSIZE, PHYSTOP, KERNBASE in *. Z.div_mod_to_equations. lia. }
  eapply wp_mono; [apply (freerange_loop s [] lo n)|]; try lia; try set_solver.
  { split; cbn; [done|done|constructor|constructor]. }
  intros [] s' (l & Hs & Hmem & Hlen). exists l. split; [done|]. split.
  - intros p. rewrite Hmem. unfold page_ok. split; [intros [?|?]; [set_solver|lia]|].
    intros [??]. right. Z.div_mod_to_equations. lia.
  - rewrite Hlen, HP. cbn [length]. rewrite Nat.add_0_r.
    replace (lo + 4096 * Z.of_nat n - lo) with (Z.of_nat n * 4096) by lia.
    by rewrite Z.div_mul.
Qed.

(** ** Clients

    A client allocates pages and frees the ones it holds, in any order. *)
Inductive kop := KAlloc | KFree (i : nat).

Fixpoint run_kops (ops : list kop) (held : list Z) : M machine (list Z) :=
  match ops with
  | [] => mret held
  | KAlloc :: ops => p ← kalloc; run_kops ops (if p =? 0 then held else p :: held)
  | KFree i :: ops =>
      match held !! i with
      | Some p => kfree p ;; run_kops ops (delete i held)
      | None => run_kops ops held
      end
  end.

(** C34: Whatever sequence of [kalloc] and [kfree] a client issues on the pages
    it holds, the allocator never panics, the pages held and the pages free
    stay the same collection of pages, and no page is ever in it twice: a page
    is never handed out while it is held, and none is lost. *)
Theorem kalloc_partition ops held s l :
  kmem_inv s l → NoDup (held ++ l) → Forall page_ok held →
  wp (run_kops ops held) (λ held' s', ∃ l',
    kmem_inv s' l' ∧ held' ++ l' ≡ₚ held ++ l ∧ NoDup (held' ++ l')) s.
Proof using Type.
  revert held s l. induction ops as [|[|i] ops IH]; intros held s l Hs Hnd Hok; cbn [run_kops].
  - apply wp_ret. eauto.
  - apply wp_bind. eapply wp_mono; [by apply (kalloc_wp s l)|]. intros r s'.
    destruct l as [|p l].
    + intros [-> ->]. by apply IH.
    + intros (-> & Hs' & _). destruct Hs as [_ _ _ Hl]. apply Forall_cons in Hl as [Hp _].
      pose proof (page_ok_pos p Hp). destruct (p =? 0) eqn:E; bsimpl; [unfold KERNBASE in *; lia|].
      assert (p :: held ++ l ≡ₚ held ++ p :: l) as Hperm by apply Permutation_middle.
      eapply wp_mono; [apply (IH (p :: held) s' l)|]; [done|by rewrite Hperm|by constructor|].
      intros held' s'' (l' & ? & Hq & ?). exists l'. by rewrite <-Hperm.
  - destruct (held !! i) as [p|] eqn:Hi; [|by apply IH].
    pose proof (delete_Permutation _ _ _ Hi) as Hd.
    assert (page_ok p) as Hp by by eapply Forall_lookup_1.
    rewrite Hd in Hnd. cbn in Hnd. apply NoDup_cons in Hnd as [Hnin Hnd].
    apply wp_bind. eapply wp_mono; [apply (kfree_wp s l p)|]; [done|done|set_solver|].
    intros [] s' [Hs' _].
    assert (delete i held ++ p :: l ≡ₚ held ++ l) as Hperm.
    { rewrite Hd at 2. by rewrite <-Permutation_middle. }
    eapply wp_mono; [apply (IH (delete i held) s' (p :: l))|].
    + done.
    + rewrite <-Permutation_middle. by constructor.
    + by apply Forall_delete.
    + intros held' s'' (l' & ? & Hq & ?). exists l'. by rewrite <-Hperm.
Qed.
End kalloc.

(** ** A concrete machine

    A kernel image that leaves sixteen pages of memory, one of which is free. *)
Definition demo_etext : Z := 0x80008000.
Definition demo_end : Z := 0x87FF0000.
#[global] Instance demo_image : Image.
Proof.
  refine {| etext := demo_etext; end_ := demo_end; trampoline := 0x80007000 |};
    vm_compute; split_and!; congruence.
Defined.
Definition demo_machine : machine := Machine (store64 ∅ 0x87FFE000 0) 0x87FFE000.

Lemma demo_page_ok : page_ok 0x87FFE000.
Proof. vm_compute. split_and!; congruence. Qed.
Lemma demo_kmem_inv : kmem_inv demo_machine [0x87FFE000].
Proof.
  split; cbn [ram freelist demo_machine].
  - auto with xv6.
  - split; [done|]. apply load64_store64. lia.
  - apply NoDup_singleton.
  - apply Forall_singleton, demo_page_ok.
Qed.

Lemma kalloc_spec_witness : wp kalloc (λ r s', r = 0x87FFE000 ∧ freelist s' = 0) demo_machine.
Proof.
  eapply wp_mono; [exact (kalloc_spec demo_machine [0x87FFE000] demo_kmem_inv)|].
  intros r s' (-> & [_ Hl _ _] & _). split; [reflexivity|exact Hl].
Defined.
Lemma kfree_spec_witness :
  kfree 0x87FFE008 demo_machine = Panic "kfree" demo_machine ∧
  wp (kfree 0x87FFF000) (λ _ s', kmem_inv s' [0x87FFF000; 0x87FFE000]) demo_machine.
Proof.
  split.
  - pose proof (kfree_spec demo_machine [0x87FFE000] 0x87FFE008 demo_kmem_inv) as H.
    rewrite decide_False in H.
    + apply H. set_solver.
    + vm_compute. intros [? _]. congruence.
  - pose proof (kfree_spec demo_machine [0x87FFE000] 0x87FFF000 demo_kmem_inv) as H.
    rewrite decide_True in H by (vm_compute; split_and!; congruence).
    eapply wp_mono; [apply H; set_solver|]. intros a s' [Hs _]. exact Hs.
Defined.
Lemma kinit_spec_witness :
  wp kinit (λ _ s', ∃ l, kmem_inv s' l ∧ length l = 16%nat) (Machine ∅ 0).
Proof.
  eapply wp_mono; [apply (kinit_spec (Machine ∅ 0)); [apply bytes_ok_empty|reflexivity]|].
  intros a s' (l & Hs & _ & Hlen). exists l. split; [exact Hs|].
  change ((PHYSTOP - PGROUNDUP end_) / 4096) with 16 in Hlen. lia.
Defined.
Lemma kalloc_partition_witness :
  wp (run_kops [KAlloc; KAlloc; KFree 0] []) (λ held' s', ∃ l',
    kmem_inv s' l' ∧ held' ++ l' ≡ₚ [0x87FFE000]) demo_machine.
Proof.
  eapply wp_mono; [apply (kalloc_partition [KAlloc; KAlloc; KFree 0] [] _ [0x87FFE000])|].
  - exact demo_kmem_inv.
  - apply NoDup_singleton.
  - constructor.
  - intros held' s' (l' & H1 & H2 & _). exists l'. split; [exact H1|exact H2].
Defined.
