(* ===== verification/Vm.v ===== *)
(** * Virtual memory ([kernel/vm.c])

    The Sv39 page tables of the kernel and of the processes, as the C code
    keeps them: three levels of pages of 512 entries in physical memory.  This
    file holds the routines of [vm.c]; [PageTable] and [Uvm] prove them. *)

From S2P Require Import Prelude Riscv Memory CString Kalloc.

Definition NPROC : Z := 64.

(** ** Access to page-table entries *)

Definition load_pte (a : Z) : M machine Z := gets (λ s, load64 (ram s) a).
Definition store_pte (a e : Z) : M machine unit := modify (set_ram (λ m, store64 m a e)).
Definition bit (e f : Z) : bool := negb (Z.land e f =? 0).

Section vm.
Context {I : Image}.

(** ** Walking *)

(** One round of the loop of [walk]: the page table of the level below, or
    [None] for the early return. *)
Definition walk_level (level pagetable va : Z) (alloc : bool) : M machine (option Z) :=
  let pte := pagetable + 8 * PX level va in
  e ← load_pte pte;
  if bit e PTE_V then mret (Some (PTE2PA e))
  else if negb alloc then mret None
  else
    p ← kalloc;
    if p =? 0 then mret None
    else
      modify (set_ram (memset p 0 PGSIZE)) ;;
      store_pte pte (Z.lor (PA2PTE p) PTE_V) ;;
      mret (Some p).

Fixpoint walk_loop (level : nat) (pagetable va : Z) (alloc : bool) : M machine Z :=
  match level with
  | O => mret (pagetable + 8 * PX 0 va)
  | S l =>
      r ← walk_level (Z.of_nat level) pagetable va alloc;
      match r with
      | None => mret 0
      | Some p => walk_loop l p va alloc
      end
  end.

(** A null pointer is returned as 0. *)
Definition walk (pagetable va : Z) (alloc : bool) : M machine Z :=
  if MAXVA <=? va then panic "walk" else walk_loop 2 pagetable va alloc.

Definition walkaddr (pagetable va : Z) : M machine Z :=
  if MAXVA <=? va then mret 0
  else
    pte ← walk pagetable va false;
    if pte =? 0 then mret 0
    else
      e ← load_pte pte;
      if negb (bit e PTE_V) then mret 0
      else if negb (bit e PTE_U) then mret 0
      else mret (PTE2PA e).

(** ** Mapping and unmapping *)

Definition mappages_body (pagetable last perm : Z) (x : Z * Z) : M machine (Z * Z + Z) :=
  let '(a, pa) := x in
  pte ← walk pagetable a true;
  if pte =? 0 then mret (inr (-1))
  else
    e ← load_pte pte;
    if bit e PTE_V then panic "mappages: remap"
    else
      store_pte pte (Z.lor (Z.lor (PA2PTE pa) perm) PTE_V) ;;
      if a =? last then mret (inr 0)
      else mret (inl (u64 (a + PGSIZE), u64 (pa + PGSIZE))).

Definition mappages (pagetable va size pa perm : Z) : M machine Z :=
  if negb (va mod PGSIZE =? 0) then panic "mappages: va not aligned"
  else if negb (size mod PGSIZE =? 0) then panic "mappages: size not aligned"
  else if size =? 0 then panic "mappages: size"
  else
    let last := u64 (va + size - PGSIZE) in
    loopM (Z.to_nat (size / PGSIZE)) (mappages_body pagetable last perm) (va, pa).

Definition kvmmap (kpgtbl va pa sz perm : Z) : M machine unit :=
  r ← mappages kpgtbl va sz pa perm;
  if negb (r =? 0) then panic "kvmmap" else mret tt.

Definition uvmunmap_body (pagetable stop : Z) (do_free : bool) (a : Z) : M machine (Z + unit) :=
  if a <? stop then
    pte ← walk pagetable a false;
    if pte =? 0 then panic "uvmunmap: walk"
    else
      e ← load_pte pte;
      if Z.land e PTE_V =? 0 then panic "uvmunmap: not mapped"
      else if PTE_FLAGS e =? PTE_V then panic "uvmunmap: not a leaf"
      else
        (if do_free then kfree (PTE2PA e) else mret tt) ;;
        store_pte pte 0 ;;
        mret (inl (u64 (a + PGSIZE)))
  else mret (inr tt).

Definition uvmunmap (pagetable va npages : Z) (do_free : bool) : M machine unit :=
  if negb (va mod PGSIZE =? 0) then panic "uvmunmap: not aligned"
  else
    loopM (S (Z.to_nat npages))
      (uvmunmap_body pagetable (u64 (va + u64 (npages * PGSIZE))) do_free) va.

(** ** User address spaces *)

Definition uvmcreate : M machine Z :=
  pagetable ← kalloc;
  if pagetable =? 0 then mret 0
  else modify (set_ram (memset pagetable 0 PGSIZE)) ;; mret pagetable.

(** [src] is the initial program, [sz] its size. *)
Definition uvmfirst (pagetable : Z) (src : list Z) : M machine unit :=
  if PGSIZE <=? Z.of_nat (length src) then panic "uvmfirst: more than a page"
  else
    mem ← kalloc;
    modify (set_ram (memset mem 0 PGSIZE)) ;;
    mappages pagetable 0 PGSIZE mem (Z.lor (Z.lor (Z.lor PTE_W PTE_R) PTE_X) PTE_U) ;;
    modify (set_ram (λ m, store_bytes m mem src)).

Definition uvmdealloc (pagetable oldsz newsz : Z) : M machine Z :=
  if oldsz <=? newsz then mret oldsz
  else
    (if PGROUNDUP newsz <? PGROUNDUP oldsz then
       let npages := s32 ((PGROUNDUP oldsz - PGROUNDUP newsz) / PGSIZE) in
       uvmunmap pagetable (PGROUNDUP newsz) (u64 npages) true
     else mret tt) ;;
    mret newsz.

Definition uvmalloc_body (pagetable oldsz newsz xperm a : Z) : M machine (Z + Z) :=
  if a <? newsz then
    mem ← kalloc;
    if mem =? 0 then uvmdealloc pagetable a oldsz ;; mret (inr 0)
    else
      modify (set_ram (memset mem 0 PGSIZE)) ;;
      r ← mappages pagetable a PGSIZE mem (Z.lor (Z.lor PTE_R PTE_U) xperm);
      if negb (r =? 0) then
        kfree mem ;; uvmdealloc pagetable a oldsz ;; mret (inr 0)
      else mret (inl (u64 (a + PGSIZE)))
  else mret (inr newsz).

Definition uvmalloc (pagetable oldsz newsz xperm : Z) : M machine Z :=
  if newsz <? oldsz then mret oldsz
  else
    let oldsz := PGROUNDUP oldsz in
    loopM (S (Z.to_nat ((newsz - oldsz + PGSIZE - 1) / PGSIZE)))
      (uvmalloc_body pagetable oldsz newsz xperm) oldsz.

(** The recursion of [freewalk] follows page-table pointers; [depth] bounds
    the number of levels. *)
Fixpoint freewalk (depth : nat) (pagetable : Z) : M machine unit :=
  match depth with
  | O => out_of_fuel
  | S depth =>
      forM (seqZ 0 512) (λ i,
        pte ← load_pte (pagetable + 8 * i);
        if bit pte PTE_V && (Z.land pte (Z.lor (Z.lor PTE_R PTE_W) PTE_X) =? 0) then
          let child := PTE2PA pte in
          freewalk depth child ;;
          store_pte (pagetable + 8 * i) 0
        else if bit pte PTE_V then panic "freewalk: leaf"
        else mret tt) ;;
      kfree pagetable
  end.

Definition uvmfree (pagetable sz : Z) : M machine unit :=
  (if 0 <? sz then uvmunmap pagetable 0 (PGROUNDUP sz / PGSIZE) true else mret tt) ;;
  freewalk 3 pagetable.

Definition uvmcopy_body (old new sz i : Z) : M machine (Z + Z) :=
  if i <? sz then
    pte ← walk old i false;
    if pte =? 0 then panic "uvmcopy: pte should exist"
    else
      e ← load_pte pte;
      if Z.land e PTE_V =? 0 then panic "uvmcopy: page not present"
      else
        let pa := PTE2PA e in
        let flags := PTE_FLAGS e in
        mem ← kalloc;
        if mem =? 0 then
          uvmunmap new 0 (i / PGSIZE) true ;; mret (inr (-1))
        else
          modify (set_ram (memmove mem pa PGSIZE)) ;;
          r ← mappages new i PGSIZE mem flags;
          if negb (r =? 0) then
            kfree mem ;; uvmunmap new 0 (i / PGSIZE) true ;; mret (inr (-1))
          else mret (inl (u64 (i + PGSIZE)))
  else mret (inr 0).

Definition uvmcopy (old new sz : Z) : M machine Z :=
  loopM (S (Z.to_nat ((sz + PGSIZE - 1) / PGSIZE))) (uvmcopy_body old new sz) 0.

Definition uvmclear (pagetable va : Z) : M machine unit :=
  pte ← walk pagetable va false;
  if pte =? 0 then panic "uvmclear"
  else e ← load_pte pte; store_pte pte (Z.land e (Z.lnot PTE_U)).

(** ** Copying between kernel and user

    A kernel buffer is the list of its bytes.  [copyin] and [copyinstr] return
    their status and what they have written to the buffer. *)

Definition copyout_body (pagetable : Z) (x : Z * list Z * Z) : M machine (Z * list Z * Z + Z) :=
  let '(dstva, src, len) := x in
  if 0 <? len then
    let va0 := PGROUNDDOWN dstva in
    if MAXVA <=? va0 then mret (inr (-1))
    else
      pte ← walk pagetable va0 false;
      if pte =? 0 then mret (inr (-1))
      else
        e ← load_pte pte;
        if (Z.land e PTE_V =? 0) || (Z.land e PTE_U =? 0) || (Z.land e PTE_W =? 0)
        then mret (inr (-1))
        else
          let pa0 := PTE2PA e in
          let n := PGSIZE - (dstva - va0) in
          let n := if len <? n then len else n in
          if Z.of_nat (length src) <? n then fault "read beyond the source buffer"
          else
            modify (set_ram (λ m, store_bytes m (pa0 + (dstva - va0)) (take (Z.to_nat n) src))) ;;
            mret (inl (u64 (va0 + PGSIZE), drop (Z.to_nat n) src, len - n))
  else mret (inr 0).
Definition copyout (pagetable dstva : Z) (src : list Z) (len : Z) : M machine Z :=
  loopM (S (Z.to_nat len)) (copyout_body pagetable) (dstva, src, len).

Definition copyin_body (pagetable : Z) (x : Z * list Z * Z) :
    M machine (Z * list Z * Z + Z * list Z) :=
  let '(srcva, dst, len) := x in
  if 0 <? len then
    let va0 := PGROUNDDOWN srcva in
    pa0 ← walkaddr pagetable va0;
    if pa0 =? 0 then mret (inr (-1, dst))
    else
      let n := PGSIZE - (srcva - va0) in
      let n := if len <? n then len else n in
      m ← gets ram;
      mret (inl (u64 (va0 + PGSIZE),
                 dst ++ load_bytes m (pa0 + (srcva - va0)) (Z.to_nat n), len - n))
  else mret (inr (0, dst)).
Definition copyin (pagetable srcva len : Z) : M machine (Z * list Z) :=
  loopM (S (Z.to_nat len)) (copyin_body pagetable) (srcva, [], len).

(** The inner loop of [copyinstr] over the [n] bytes left in a page: the bytes
    it writes to [dst] and whether it met the NUL. *)
Fixpoint copyinstr_page (m : mem) (p : Z) (n : nat) : list Z * bool :=
  match n with
  | O => ([], false)
  | S n =>
      if load8 m p =? 0 then ([0], true)
      else let '(l, got_null) := copyinstr_page m (p + 1) n in (load8 m p :: l, got_null)
  end.
Definition copyinstr_body (pagetable : Z) (x : Z * list Z * Z * bool) :
    M machine (Z * list Z * Z * bool + Z * list Z) :=
  let '(srcva, dst, max, got_null) := x in
  if negb got_null && (0 <? max) then
    let va0 := PGROUNDDOWN srcva in
    pa0 ← walkaddr pagetable va0;
    if pa0 =? 0 then mret (inr (-1, dst))
    else
      let n := PGSIZE - (srcva - va0) in
      let n := if max <? n then max else n in
      m ← gets ram;
      let '(l, got_null) := copyinstr_page m (pa0 + (srcva - va0)) (Z.to_nat n) in
      mret (inl (u64 (va0 + PGSIZE), dst ++ l, max - n, got_null))
  else mret (inr (if got_null then 0 else -1, dst)).
Definition copyinstr (pagetable srcva max : Z) : M machine (Z * list Z) :=
  loopM (S (S (Z.to_nat max))) (copyinstr_body pagetable) (srcva, [], max, false).

(** ** The kernel's own page table *)

Definition proc_mapstacks (kpgtbl : Z) : M machine unit :=
  forM (seqZ 0 NPROC) (λ p,
    pa ← kalloc;
    if pa =? 0 then panic "kalloc"
    else kvmmap kpgtbl (KSTACK p) pa PGSIZE (Z.lor PTE_R PTE_W)).

Definition kvmmake : M machine Z :=
  kpgtbl ← kalloc;
  modify (set_ram (memset kpgtbl 0 PGSIZE)) ;;
  kvmmap kpgtbl UART0 UART0 PGSIZE (Z.lor PTE_R PTE_W) ;;
  kvmmap kpgtbl VIRTIO0 VIRTIO0 PGSIZE (Z.lor PTE_R PTE_W) ;;
  kvmmap kpgtbl PLIC PLIC 0x400000 (Z.lor PTE_R PTE_W) ;;
  kvmmap kpgtbl KERNBASE KERNBASE (etext - KERNBASE) (Z.lor PTE_R PTE_X) ;;
  kvmmap kpgtbl etext etext (PHYSTOP - etext) (Z.lor PTE_R PTE_W) ;;
  kvmmap kpgtbl TRAMPOLINE trampoline PGSIZE (Z.lor PTE_R PTE_X) ;;
  proc_mapstacks kpgtbl ;;
  mret kpgtbl.
End vm.
