(* ===== verification/PageTable.v ===== *)
(** * Page tables as mappings

    What the page-table pages in memory mean: [lookup_pte m root va] is the leaf
    entry that the three-level table at [root] holds for [va], 0 when a level is
    missing.  The invariant [pt_inv] records what every allocated page is used
    for (its [role]); a page-table page knows its root, its level and the
    virtual addresses it serves, so that two walks can meet only when they are
    walks of the same address. *)

From S2P Require Import Prelude Riscv Memory CString Kalloc Vm.

(** ** The meaning of a page table *)

Fixpoint lookup_lvl (m : mem) (level : nat) (pt va : Z) : Z :=
  let e := load64 m (pt + 8 * PX (Z.of_nat level) va) in
  match level with
  | O => e
  | S l => if bit e PTE_V then lookup_lvl m l (PTE2PA e) va else 0
  end.
Definition lookup_pte (m : mem) (root va : Z) : Z := lookup_lvl m 2 root va.

(** The address of the leaf entry, 0 when a level is missing. *)
Fixpoint walk_lvl (m : mem) (level : nat) (pt va : Z) : Z :=
  let a := pt + 8 * PX (Z.of_nat level) va in
  match level with
  | O => a
  | S l => if bit (load64 m a) PTE_V then walk_lvl m l (PTE2PA (load64 m a)) va else 0
  end.

(** ** Page roles and the invariant *)

Inductive role :=
| PT (root level prefix : Z)   (** page-table page *)
| UPage (root vpn : Z)         (** user page mapped at [vpn] by the table at [root] *)
| OtherPage.                   (** any other allocated page *)

#[global] Instance role_eq_dec : EqDecision role.
Proof. solve_decision. Defined.

Section pagetable.
Context {I : Image}.

Record pt_inv (s : machine) (l : list Z) (own : gmap Z role) : Prop := {
  pt_kmem : kmem_inv s l;
  pt_free : ∀ p, p ∈ l → own !! p = None;
  pt_page : ∀ p r, own !! p = Some r → page_ok p;
  pt_level : ∀ p root lvl pre, own !! p = Some (PT root lvl pre) → 0 ≤ lvl ≤ 2;
  pt_ptr : ∀ p root lvl pre i,
    own !! p = Some (PT root lvl pre) → 0 ≤ i < 512 → 0 < lvl →
    bit (load64 (ram s) (p + 8 * i)) PTE_V = true →
    own !! PTE2PA (load64 (ram s) (p + 8 * i)) = Some (PT root (lvl - 1) (pre * 512 + i)) ∧
    PTE_FLAGS (load64 (ram s) (p + 8 * i)) = PTE_V;
  pt_top : ∀ p root pre, own !! p = Some (PT root 2 pre) → p = root ∧ pre = 0;
  pt_half : ∀ p root pre i, own !! p = Some (PT root 2 pre) → 256 ≤ i < 512 →
    bit (load64 (ram s) (p + 8 * i)) PTE_V = false;
  pt_up : ∀ q root lvl pre, own !! q = Some (PT root lvl pre) → lvl < 2 → ∃ p,
    own !! p = Some (PT root (lvl + 1) (pre / 512)) ∧
    bit (load64 (ram s) (p + 8 * (pre mod 512))) PTE_V = true ∧
    PTE2PA (load64 (ram s) (p + 8 * (pre mod 512))) = q;
}.

Definition is_root (own : gmap Z role) (root : Z) : Prop := own !! root = Some (PT root 2 0).

(** Page-table page [p] is on the path of [va]. *)
Definition on_path (own : gmap Z role) (p root : Z) (lvl : nat) (va : Z) : Prop :=
  own !! p = Some (PT root (Z.of_nat lvl) (va / 2 ^ (12 + 9 * (Z.of_nat lvl + 1)))).

Lemma prefix_step va (lvl : nat) :
  0 ≤ va →
  va / 2 ^ (12 + 9 * (Z.of_nat (S lvl) + 1)) * 512 + PX (Z.of_nat (S lvl)) va =
  va / 2 ^ (12 + 9 * (Z.of_nat lvl + 1)).
Proof using Type.
  intros Hva. rewrite PX_div by lia.
  replace (12 + 9 * Z.of_nat (S lvl)) with (12 + 9 * (Z.of_nat lvl + 1)) by lia.
  replace (12 + 9 * (Z.of_nat (S lvl) + 1)) with (12 + 9 * (Z.of_nat lvl + 1) + 9) by lia.
  rewrite Z.pow_add_r, <-Z.div_div by lia. change (2 ^ 9) with 512.
  pose proof (Z.div_mod (va / 2 ^ (12 + 9 * (Z.of_nat lvl + 1))) 512). lia.
Qed.

Lemma on_path_step s l own p root lvl va :
  pt_inv s l own → 0 ≤ va → on_path own p root (S lvl) va →
  bit (load64 (ram s) (p + 8 * PX (Z.of_nat (S lvl)) va)) PTE_V = true →
  on_path own (PTE2PA (load64 (ram s) (p + 8 * PX (Z.of_nat (S lvl)) va))) root lvl va.
Proof using Type.
  intros Hs Hva Hp Hv. unfold on_path in *.
  destruct (pt_ptr _ _ _ Hs p root _ _ (PX (Z.of_nat (S lvl)) va) Hp) as [-> _];
    [by apply PX_bound; lia|lia|done|].
  rewrite prefix_step by done. repeat f_equal. lia.
Qed.

Lemma is_root_path own root va : is_root own root → 0 ≤ va < 2 ^ 39 → on_path own root root 2 va.
Proof using Type.
  intros Hr Hva. unfold on_path. rewrite Hr. repeat f_equal.
  change (12 + 9 * (Z.of_nat 2 + 1)) with 39. symmetry. by apply Z.div_small.
Qed.

Lemma MAXVA_val : MAXVA = 2 ^ 38.
Proof using Type. done. Qed.

Lemma pte_disj p q i j :
  p mod 4096 = 0 → q mod 4096 = 0 → 0 ≤ i < 512 → 0 ≤ j < 512 → p + 8 * i ≠ q + 8 * j →
  p + 8 * i + 8 ≤ q + 8 * j ∨ q + 8 * j + 8 ≤ p + 8 * i.
Proof using Type. intros. Z.div_mod_to_equations. lia. Qed.

Lemma pte_same p q i j :
  p mod 4096 = 0 → q mod 4096 = 0 → 0 ≤ i < 512 → 0 ≤ j < 512 → p + 8 * i = q + 8 * j →
  p = q ∧ i = j.
Proof using Type. intros. Z.div_mod_to_equations. lia. Qed.

(** ** Walks that do not allocate *)

Lemma walk_loop_noalloc level pt va s :
  walk_loop level pt va false s = Done (walk_lvl (ram s) level pt va) s.
Proof using Type.
  revert pt. induction level as [|level IH]; intros pt; [done|].
  cbn [walk_loop walk_lvl]. unfold walk_level, load_pte, mbind, M_bind, gets. cbn [obind].
  destruct (bit _ PTE_V); cbn [obind mret M_ret negb]; [apply IH|done].
Qed.

Lemma walk_noalloc pt va s :
  va < MAXVA → walk pt va false s = Done (walk_lvl (ram s) 2 pt va) s.
Proof using Type. intros. unfold walk. case_if E; [lia|]. apply walk_loop_noalloc. Qed.

Lemma walk_lvl_path s l own level pt root va :
  pt_inv s l own → 0 ≤ va → on_path own pt root level va →
  walk_lvl (ram s) level pt va = 0 ∧ lookup_lvl (ram s) level pt va = 0 ∨
  ∃ p, on_path own p root 0 va ∧
       walk_lvl (ram s) level pt va = p + 8 * PX 0 va ∧
       lookup_lvl (ram s) level pt va = load64 (ram s) (p + 8 * PX 0 va).
Proof using Type.
  intros Hs Hva. revert pt. induction level as [|level IH]; intros pt Hp.
  - right. exists pt. done.
  - cbn [walk_lvl lookup_lvl].
    destruct (bit (load64 (ram s) (pt + 8 * PX (Z.of_nat (S level)) va)) PTE_V) eqn:E; [|by left].
    apply IH. by eapply on_path_step.
Qed.

Lemma on_path_page s l own p root lvl va :
  pt_inv s l own → on_path own p root lvl va → page_ok p.
Proof using Type. intros Hs Hp. by eapply pt_page. Qed.

(** The leaf entry of [va], and where it is. *)
Lemma walk_root s l own root va :
  pt_inv s l own → is_root own root → 0 ≤ va < MAXVA →
  walk_lvl (ram s) 2 root va = 0 ∧ lookup_pte (ram s) root va = 0 ∨
  ∃ p, on_path own p root 0 va ∧ walk_lvl (ram s) 2 root va = p + 8 * PX 0 va ∧
       p + 8 * PX 0 va ≠ 0 ∧
       lookup_pte (ram s) root va = load64 (ram s) (p + 8 * PX 0 va).
Proof using Type.
  intros Hs Hr Hva. rewrite MAXVA_val in Hva.
  destruct (walk_lvl_path s l own 2 root root va) as [?|(p & Hp & Ha & Hl)];
    [done|lia|apply is_root_path; [done|lia]|by left|].
  right. exists p. split_and!; try done.
  pose proof (page_ok_pos p (on_path_page _ _ _ _ _ _ _ Hs Hp)).
  pose proof (PX_bound 0 va). unfold KERNBASE in *. lia.
Qed.

(** ** Allocating a table

    [q] is a fresh, zeroed page and entry [i] of the table page [pt], invalid
    so far, now points to it. *)
Section new_table.
Context (s s' : machine) (l l' : list Z) (own : gmap Z role) (q pt root lvl pre i : Z).
Let m := ram s.
Let m' := ram s'.
Hypothesis Hs : pt_inv s l own.
Hypothesis Hq : page_ok q.
Hypothesis Hfresh : own !! q = None.
Hypothesis Hpt : own !! pt = Some (PT root lvl pre).
Hypothesis Hlvl : 0 < lvl.
Hypothesis Hi : 0 ≤ i < 512.
Hypothesis Hhalf : lvl = 2 → i < 256.
Hypothesis Hold : bit (load64 m (pt + 8 * i)) PTE_V = false.
Hypothesis Hsame : ∀ x, (x < q ∨ q + 4096 ≤ x) → (x < pt + 8 * i ∨ pt + 8 * i + 8 ≤ x) →
  load8 m' x = load8 m x.
Hypothesis Hzero : ∀ x, q ≤ x < q + 4096 → load8 m' x = 0.
Hypothesis Hnewv : bit (load64 m' (pt + 8 * i)) PTE_V = true.
Hypothesis Hnewp : PTE2PA (load64 m' (pt + 8 * i)) = q.
Hypothesis Hnewf : PTE_FLAGS (load64 m' (pt + 8 * i)) = PTE_V.

Lemma new_table_zero j : 0 ≤ j < 512 → load64 m' (q + 8 * j) = 0.
Proof using Hzero. intros. apply load64_zero. intros x Hx. apply Hzero. lia. Qed.

Lemma new_table_entry p r j :
  own !! p = Some r → 0 ≤ j < 512 → p + 8 * j ≠ pt + 8 * i →
  load64 m' (p + 8 * j) = load64 m (p + 8 * j).
Proof using Hs Hpt Hi Hsame Hq Hfresh.
  intros Hp Hj Hne. assert (page_ok p) as [Hpa _] by by eapply pt_page.
  assert (page_ok pt) as [Hpta _] by by eapply pt_page.
  assert (p ≠ q) as Hpq by congruence. destruct Hq as [Hqa _].
  apply load64_agree. intros x Hx. apply Hsame.
  - destruct (page_disj p q); auto; lia.
  - destruct (pte_disj p pt j i); auto; lia.
Qed.

Lemma new_table_lookup (lv : nat) p r0 pre0 va :
  own !! p = Some (PT r0 (Z.of_nat lv) pre0) →
  lookup_lvl m' lv p va = lookup_lvl m lv p va.
Proof using All.
  revert p pre0. induction lv as [|lv IH]; intros p pre0 Hp; cbn [lookup_lvl].
  - eapply new_table_entry; [done|by apply PX_bound|]. intros Heq.
    assert (page_ok p) as [Hpa _] by by eapply pt_page.
    assert (page_ok pt) as [Hpta _] by by eapply pt_page.
    apply pte_same in Heq as [-> _]; auto using PX_bound; [|by apply PX_bound].
    rewrite Hpt in Hp. injection Hp as ? ? ?. lia.
  - set (j := PX (Z.of_nat (S lv)) va). assert (0 ≤ j < 512) as Hj by (apply PX_bound; lia).
    destruct (decide (p + 8 * j = pt + 8 * i)) as [Heq|Hne].
    + rewrite Heq. fold m in Hold. rewrite Hold, Hnewv, Hnewp.
      destruct lv; cbn [lookup_lvl]; rewrite new_table_zero by (apply PX_bound; lia); done.
    + rewrite (new_table_entry p _ j) by done.
      destruct (bit (load64 m (p + 8 * j)) PTE_V) eqn:E; [|done].
      destruct (pt_ptr _ _ _ Hs p r0 _ pre0 j Hp Hj) as [Hc _]; [lia|done|].
      apply (IH _ (pre0 * 512 + j)). fold m in Hc. rewrite Hc. repeat f_equal. lia.
Qed.

Lemma new_table_inv :
  kmem_inv s' l' → (∀ p, p ∈ l' → p ∈ l ∧ p ≠ q) →
  pt_inv s' l' (<[q := PT root (lvl - 1) (pre * 512 + i)]> own).
Proof using All.
  intros Hk Hl. destruct (pt_level _ _ _ Hs _ _ _ _ Hpt) as [_ Hle]. split.
  - done.
  - intros p [Hp Hne]%Hl. rewrite lookup_insert_ne by done. by eapply pt_free.
  - intros p r. rewrite lookup_insert. case_decide as E; [by subst|]. by eapply pt_page.
  - intros p r0 lv0 pre0. rewrite lookup_insert. case_decide; [intros [= <- <- <-]; lia|].
    by eapply pt_level.
  - intros p r0 lv0 pre0 j Hp Hj Hlv Hv. rewrite lookup_insert in Hp. case_decide as E.
    { subst p. fold m' in Hv. rewrite new_table_zero in Hv by done. done. }
    destruct (decide (p + 8 * j = pt + 8 * i)) as [Heq|Hne].
    + fold m'. rewrite Heq, Hnewp, Hnewf, lookup_insert_eq. split; [|done].
      assert (page_ok p) as [Hpa _] by by eapply pt_page.
      assert (page_ok pt) as [Hpta _] by by eapply pt_page.
      apply pte_same in Heq as [-> ->]; try done. rewrite Hpt in Hp. by injection Hp as -> -> ->.
    + fold m' in Hv |- *. rewrite (new_table_entry p _ j) in Hv |- * by done.
      destruct (pt_ptr _ _ _ Hs p r0 lv0 pre0 j) as [Hc Hf]; try done.
      fold m in Hc, Hf. rewrite Hf. split; [|done].
      rewrite lookup_insert_ne; [done|]. intros Heq. rewrite <-Heq, Hfresh in Hc. done.
  - intros p r0 pre0. rewrite lookup_insert. case_decide; [intros [= _ ? _]; lia|]. by apply Hs.
  - intros p r0 pre0 j Hp Hj. rewrite lookup_insert in Hp. case_decide as E.
    { injection Hp as _ ? _. lia. }
    fold m'. rewrite (new_table_entry p _ j Hp); [by eapply (pt_half _ _ _ Hs)|lia|].
    intros Heq. assert (page_ok p) as [Hpa _] by by eapply pt_page.
    assert (page_ok pt) as [Hpta _] by by eapply pt_page.
    apply pte_same in Heq as [-> ->]; [|done|done|lia|done].
    rewrite Hpt in Hp. injection Hp as _ ? _. lia.
  - intros p r0 lv0 pre0 Hp Hlv. rewrite lookup_insert in Hp. case_decide as E.
    + subst p. injection Hp as <- <- <-. exists pt.
      rewrite lookup_insert_ne by congruence.
      replace ((pre * 512 + i) / 512) with pre by (Z.div_mod_to_equations; lia).
      replace ((pre * 512 + i) mod 512) with i by (Z.div_mod_to_equations; lia).
      replace (lvl - 1 + 1) with lvl by lia. done.
    + destruct (pt_up _ _ _ Hs p r0 lv0 pre0 Hp Hlv) as (p' & Hp' & Hv & Hpa). exists p'.
      rewrite lookup_insert_ne by congruence. fold m in Hv, Hpa. fold m'.
      rewrite (new_table_entry p' _ (pre0 mod 512) Hp');
        [done|by apply Z.mod_pos_bound|]. intros Heq. rewrite Heq in Hv. congruence.
Qed.
End new_table.

(** ** Walks that allocate

    What the page-table routines may do to the rest of the system: take pages of
    the table at [root] from the free list.  A page with any other role keeps its
    bytes. *)
Record pt_frame (root : Z) (s : machine) (l : list Z) (own : gmap Z role)
    (s' : machine) (l' : list Z) (own' : gmap Z role) : Prop := {
  pf_own : own ⊆ own';
  pf_data : ∀ p r, own !! p = Some r → (∀ a b c, r ≠ PT a b c) → agree (ram s) (ram s') p 4096;
  pf_free : ∀ p, p ∈ l' → p ∈ l;
  pf_new : ∀ p r, own' !! p = Some r →
    own !! p = Some r ∨ p ∈ l ∧ ∃ lv pre, r = PT root lv pre;
  pf_all : ∀ p, p ∈ l → p ∈ l' ∨ is_Some (own' !! p);
}.

(** A walk changes no mapping at all. *)
Record pt_ext (root : Z) (s : machine) (l : list Z) (own : gmap Z role)
    (s' : machine) (l' : list Z) (own' : gmap Z role) : Prop := {
  pe_frame : pt_frame root s l own s' l' own';
  pe_lookup : ∀ p r (lv : nat) pre va, own !! p = Some (PT r (Z.of_nat lv) pre) →
    lookup_lvl (ram s') lv p va = lookup_lvl (ram s) lv p va;
  pe_valid : ∀ p r lv pre i, own !! p = Some (PT r lv pre) → 0 < lv → 0 ≤ i < 512 →
    bit (load64 (ram s) (p + 8 * i)) PTE_V = true →
    load64 (ram s') (p + 8 * i) = load64 (ram s) (p + 8 * i);
}.

Lemma pt_frame_refl root s l own : pt_frame root s l own s l own.
Proof using Type. split; try done; auto. Qed.
Lemma pt_ext_refl root s l own : pt_ext root s l own s l own.
Proof using Type. split; [apply pt_frame_refl|done|done]. Qed.

Lemma pt_frame_trans root s1 l1 o1 s2 l2 o2 s3 l3 o3 :
  pt_frame root s1 l1 o1 s2 l2 o2 → pt_frame root s2 l2 o2 s3 l3 o3 → pt_frame root s1 l1 o1 s3 l3 o3.
Proof using Type.
  intros [Ho D Fr N A] [Ho' D' Fr' N' A']. split.
  - by etrans.
  - intros p r Hp Hr. eapply agree_trans; [by eapply D|]. eapply D'; [|done].
    by eapply lookup_weaken.
  - auto.
  - intros p r [Hp|[Hp ?]]%N'; [by apply N|]. right. auto.
  - intros p [?%A'|[r Hr]]%A; [done|]. right. exists r. by eapply lookup_weaken.
Qed.
Lemma pt_ext_trans root s1 l1 o1 s2 l2 o2 s3 l3 o3 :
  pt_ext root s1 l1 o1 s2 l2 o2 → pt_ext root s2 l2 o2 s3 l3 o3 → pt_ext root s1 l1 o1 s3 l3 o3.
Proof using Type.
  intros [F L V] [F' L' V']. split; [by eapply pt_frame_trans| |].
  - intros p r lv pre va Hp. erewrite L', L; [done|done|].
    eapply lookup_weaken; [done|apply F].
  - intros p r lv pre i Hp Hlv Hi Hv. erewrite V', V; try done.
    + eapply lookup_weaken; [done|apply F].
    + by erewrite V.
Qed.

Lemma pte_ptr_facts q :
  page_ok q →
  let e := Z.lor (PA2PTE q) PTE_V in
  0 ≤ e < 2 ^ 64 ∧ bit e PTE_V = true ∧ PTE2PA e = q ∧ PTE_FLAGS e = PTE_V.
Proof using Type.
  intros Hq e. pose proof (page_ok_pos q Hq). destruct Hq as [Hal _].
  unfold PHYSTOP, KERNBASE in *.
  replace e with (mk_pte q 0) by (unfold mk_pte; by rewrite Z.lor_0_r).
  assert (0 ≤ q < 2 ^ 56) by lia.
  pose proof (mk_pte_bound q 0). pose proof (mk_pte_pa q 0) as Hpa.
  pose proof (mk_pte_flags q 0) as Hf. split_and!; [lia|lia| |by apply Hpa; lia|by rewrite Hf by lia].
  unfold bit. rewrite land_flags, Hf by (done || lia). done.
Qed.

(** The state in which [walk] has linked the new page [q] into the table page
    [pt]: [s1] is the state after [kalloc]. *)
Section link_table.
Context (s s1 : machine) (l : list Z) (own : gmap Z role) (q pt root va : Z) (lv : nat).
Let i := PX (Z.of_nat (S lv)) va.
Let e := Z.lor (PA2PTE q) PTE_V.
Let s' := set_ram (λ m, store64 m (pt + 8 * i) e) (set_ram (memset q 0 PGSIZE) s1).
Hypothesis Hs : pt_inv s (q :: l) own.
Hypothesis Hp : on_path own pt root (S lv) va.
Hypothesis Hk : kmem_inv s1 l.
Hypothesis Hout : same_outside q (ram s) (ram s1).

Lemma link_fresh : page_ok q ∧ own !! q = None ∧ q ∉ l.
Proof using Hs.
  destruct Hs as [[_ _ Hnd Hpg] Hfree _ _ _ _ _ _]. apply Forall_cons in Hpg as [? _].
  apply NoDup_cons in Hnd as [? _]. split_and!; [done| |done]. apply Hfree. left.
Qed.
Lemma link_table_page : page_ok pt ∧ pt ∉ l ∧ (q + 4096 ≤ pt ∨ pt + 4096 ≤ q).
Proof using Hs Hp.
  destruct link_fresh as ([Hqa _] & Hq & _). assert (page_ok pt) as Hpt by by eapply on_path_page.
  unfold on_path in Hp. split_and!; [done| |].
  - intros Hin. rewrite (pt_free _ _ _ Hs pt) in Hp; [done|by right].
  - apply page_disj; [done|apply Hpt|congruence].
Qed.

Lemma link_index : 0 ≤ i < 512.
Proof using Type. apply PX_bound, Nat2Z.is_nonneg. Qed.

Lemma link_same x :
  (x < q ∨ q + 4096 ≤ x) → (x < pt + 8 * i ∨ pt + 8 * i + 8 ≤ x) →
  load8 (ram s') x = load8 (ram s) x.
Proof using Hout.
  intros Hx1 Hx2. unfold s', set_ram; cbn [ram]. unfold PGSIZE.
  rewrite load8_store64_ne, load8_memset, decide_False by lia. by apply Hout.
Qed.
Lemma link_zero x : q ≤ x < q + 4096 → load8 (ram s') x = 0.
Proof using Hs Hp.
  intros Hx. pose proof link_index. destruct link_table_page as (_ & _ & Hd).
  unfold s', set_ram; cbn [ram]. unfold PGSIZE.
  by rewrite load8_store64_ne, load8_memset, decide_True by lia.
Qed.
Lemma link_entry : load64 (ram s') (pt + 8 * i) = e.
Proof using Hs.
  destruct link_fresh as [Hq _]. destruct (pte_ptr_facts q Hq) as [He _].
  apply load64_store64. exact He.
Qed.

Lemma link_kmem : kmem_inv s' l.
Proof using Hs Hp Hk.
  pose proof link_index. destruct link_fresh as (Hq & _ & Hql).
  destruct link_table_page as (Hpt & Hptl & Hd). destruct Hk as [Hkb Hkl Hkn Hkp].
  split; [apply store64_ok, memset_ok, Hkb| |assumption|assumption].
  apply (fl_rep_outside pt (memset q 0 PGSIZE (ram s1))); [| |apply Hpt|done|done].
  - apply (fl_rep_outside q (ram s1)); [exact Hkl| |apply Hq|done|done].
    intros x Hx. unfold PGSIZE. by rewrite load8_memset, decide_False by lia.
  - intros x Hx. apply load8_store64_ne. lia.
Qed.

End link_table.

Lemma link_spec s s' l own q pt root va (lv : nat) i :
  pt_inv s (q :: l) own → on_path own pt root (S lv) va → 0 ≤ va < MAXVA →
  i = PX (Z.of_nat (S lv)) va → bit (load64 (ram s) (pt + 8 * i)) PTE_V = false →
  kmem_inv s' l →
  (∀ x, (x < q ∨ q + 4096 ≤ x) → (x < pt + 8 * i ∨ pt + 8 * i + 8 ≤ x) →
     load8 (ram s') x = load8 (ram s) x) →
  (∀ x, q ≤ x < q + 4096 → load8 (ram s') x = 0) →
  bit (load64 (ram s') (pt + 8 * i)) PTE_V = true →
  PTE2PA (load64 (ram s') (pt + 8 * i)) = q →
  PTE_FLAGS (load64 (ram s') (pt + 8 * i)) = PTE_V →
  ∃ own', pt_inv s' l own' ∧ pt_ext root s (q :: l) own s' l own' ∧ on_path own' q root lv va.
Proof using Type.
  intros Hs Hp [Hva Hvam] Hi Hold Hkm Hsame Hzero Hev Hep Hef.
  destruct (link_fresh s l own q Hs) as (Hq & Hfresh & Hql).
  destruct (link_table_page s l own q pt root va lv Hs Hp) as (Hpt & Hptl & Hd).
  assert (0 ≤ i < 512) as Hir by (subst i; apply PX_bound; lia).
  assert (0 < Z.of_nat (S lv)) as Hlv by lia. unfold on_path in Hp.
  assert (Z.of_nat (S lv) = 2 → i < 256) as Hhalf.
  { intros Hl2. subst i. rewrite Hl2. rewrite PX_div by lia. rewrite MAXVA_val in Hvam.
    change (2 ^ (12 + 9 * 2)) with (2 ^ 30). clear - Hva Hvam. Z.div_mod_to_equations. lia. }
  exists (<[q := PT root (Z.of_nat (S lv) - 1)
    (va / 2 ^ (12 + 9 * (Z.of_nat (S lv) + 1)) * 512 + i)]> own).
  split; [|split; [split; [split| |]|]].
  - apply (new_table_inv s s' (q :: l) l own q pt root _ _ i); try assumption.
    intros p Hpl. split; [by right|by intros ->].
  - by apply insert_subseteq.
  - intros p r Hp' Hr x Hx. assert (page_ok p) as [Hpa _] by by eapply pt_page.
    assert (p ≠ q) by congruence.
    assert (p ≠ pt) by (intros ->; rewrite Hp in Hp'; injection Hp' as <-; by eapply Hr).
    apply Hsame.
    + destruct (page_disj p q); [done|apply Hq|done|lia|lia].
    + destruct (page_disj p pt); [done|apply Hpt|done|lia|lia].
  - intros p Hpl. by right.
  - intros p r. rewrite lookup_insert. case_decide as Hqp; [|auto]. intros [= <-]. right.
    subst p. split; [left|eauto].
  - intros p [->|Hpl]%elem_of_cons; [right|by left]. rewrite lookup_insert_eq. by eexists.
  - intros. by apply (new_table_lookup s s' (q :: l) l own q pt root
      (Z.of_nat (S lv)) (va / 2 ^ (12 + 9 * (Z.of_nat (S lv) + 1))) i) with r pre.
  - intros p r lv' pre j Hp' _ Hj Hv.
    apply (new_table_entry s s' (q :: l) own q pt root (Z.of_nat (S lv))
      (va / 2 ^ (12 + 9 * (Z.of_nat (S lv) + 1))) i) with (PT r lv' pre); try assumption.
    intros Heq. rewrite Heq in Hv. congruence.
  - unfold on_path. rewrite lookup_insert_eq. subst i. rewrite prefix_step by done.
    repeat f_equal. lia.
Qed.

Lemma walk_level_wp s l own pt root (lv : nat) va :
  pt_inv s l own → 0 ≤ va < MAXVA → on_path own pt root (S lv) va →
  wp (walk_level (Z.of_nat (S lv)) pt va true) (λ r s', ∃ l' own',
    pt_inv s' l' own' ∧ pt_ext root s l own s' l' own' ∧
    match r with
    | None => l' = [] ∧ l = []
    | Some c => (length l ≤ S (length l'))%nat ∧ on_path own' c root lv va ∧
        bit (load64 (ram s') (pt + 8 * PX (Z.of_nat (S lv)) va)) PTE_V = true ∧
        PTE2PA (load64 (ram s') (pt + 8 * PX (Z.of_nat (S lv)) va)) = c
    end) s.
Proof using Type.
  intros Hs Hva Hp. unfold walk_level, load_pte. wp_steps.
  destruct (bit (load64 (ram s) (pt + 8 * PX (Z.of_nat (S lv)) va)) PTE_V) eqn:E.
  { wp_steps. exists l, own. split_and!; auto using pt_ext_refl. eapply on_path_step; [done|lia|done|done]. }
  cbn [negb]. wp_steps.
  destruct l as [|q l].
  { eapply wp_intro; [apply kalloc_none, Hs|]. cbn. exists [], own. auto using pt_ext_refl. }
  eapply wp_mono; [apply (kalloc_wp_some s q l), Hs|].
  intros r s1 (-> & Hk & Hout & _).
  destruct (link_fresh s l own q Hs) as (Hq & _). pose proof (page_ok_pos q Hq) as Hqpos.
  destruct (q =? 0) eqn:Eq; bsimpl; [unfold KERNBASE in *; lia|].
  unfold store_pte. wp_steps.
  pose proof (link_entry s s1 l own q pt va lv Hs) as Hent.
  destruct (pte_ptr_facts q Hq) as (_ & Hev & Hep & Hef). cbv zeta in Hev, Hep, Hef.
  rewrite <-Hent in Hev at 1. rewrite <-Hent in Hep at 1. rewrite <-Hent in Hef at 1.
  destruct (link_spec s _ l own q pt root va lv _ Hs Hp Hva eq_refl E
    (link_kmem s s1 l own q pt root va lv Hs Hp Hk)
    (link_same s s1 q pt va lv Hout) (link_zero s s1 l own q pt root va lv Hs Hp) Hev Hep Hef)
    as (own' & Hs' & Hext & Hpath).
  exists l, own'. split; [exact Hs'|]. split; [exact Hext|]. split; [done|]. split; [exact Hpath|].
  split; assumption.
Qed.

Lemma walk_loop_wp (lv : nat) s l own pt root va :
  pt_inv s l own → 0 ≤ va < MAXVA → on_path own pt root lv va →
  wp (walk_loop lv pt va true) (λ a s', ∃ l' own',
    pt_inv s' l' own' ∧ pt_ext root s l own s' l' own' ∧
    (a = 0 ∧ l' = [] ∧ (length l < lv)%nat ∨
     (length l ≤ lv + length l')%nat ∧ ∃ p, on_path own' p root 0 va ∧ a = p + 8 * PX 0 va ∧
          walk_lvl (ram s') lv pt va = a)) s.
Proof using Type.
  revert s l own pt. induction lv as [|lv IH]; intros s l own pt Hs Hva Hp.
  { cbn [walk_loop]. apply wp_ret. exists l, own. split_and!; auto using pt_ext_refl.
    right. split; [lia|]. by exists pt. }
  cbn [walk_loop]. apply wp_bind. eapply wp_mono; [by apply walk_level_wp|].
  intros [c|] s1 (l1 & own1 & Hs1 & Hext & Hr); cbn beta iota.
  - destruct Hr as (Hlen & Hc & Hv & Hpa).
    eapply wp_mono; [by apply (IH s1 l1 own1 c)|].
    intros a s2 (l2 & own2 & Hs2 & Hext2 & Ha). exists l2, own2.
    split; [done|]. split; [by eapply pt_ext_trans|].
    destruct Ha as [(? & ? & ?)|(Hlen2 & p & Hp0 & -> & Hl)]; [left; split_and!; [done|done|lia]|right].
    split; [lia|].
    exists p. split_and!; try done. cbn [walk_lvl].
    rewrite (pe_valid _ _ _ _ _ _ _ Hext2 pt root (Z.of_nat (S lv))
      (va / 2 ^ (12 + 9 * (Z.of_nat (S lv) + 1)))); [by rewrite Hv, Hpa| |lia| |done].
    + eapply lookup_weaken; [exact Hp|apply Hext].
    + apply PX_bound. lia.
  - destruct Hr as [-> ->]. apply wp_ret. exists [], own1. split_and!; [done|done|left]. split_and!; [done|done|cbn; lia].
Qed.

Lemma is_root_frame s l own s' l' own' root :
  pt_frame root s l own s' l' own' → is_root own root → is_root own' root.
Proof using Type. intros Hf Hr. eapply lookup_weaken; [exact Hr|apply Hf]. Qed.

Lemma walk_alloc_wp s l own root va :
  pt_inv s l own → is_root own root → 0 ≤ va < MAXVA →
  wp (walk root va true) (λ a s', ∃ l' own',
    pt_inv s' l' own' ∧ pt_ext root s l own s' l' own' ∧
    (a = 0 ∧ l' = [] ∧ (length l < 2)%nat ∨
     a ≠ 0 ∧ (length l ≤ 2 + length l')%nat ∧ ∃ p, on_path own' p root 0 va ∧ a = p + 8 * PX 0 va ∧
          walk_lvl (ram s') 2 root va = a)) s.
Proof using Type.
  intros Hs Hr Hva. unfold walk. case_if E; [lia|].
  eapply wp_mono; [apply (walk_loop_wp 2 s l own root root va); [done|lia|]|].
  { rewrite MAXVA_val in Hva. apply is_root_path; [done|lia]. }
  intros a s' (l' & own' & Hs' & He & Ha). exists l', own'. split; [done|]. split; [done|].
  destruct Ha as [?|(Hlen & p & Hp & -> & Hl)]; [by left|right].
  split; [|split; [done|by exists p]]. pose proof (page_ok_pos p (on_path_page _ _ _ _ _ _ _ Hs' Hp)).
  pose proof (PX_bound 0 va). unfold KERNBASE in *. lia.
Qed.

(** ** Writing a leaf entry *)

Lemma PX_page level va va' : 0 ≤ level → va / 4096 = va' / 4096 → PX level va = PX level va'.
Proof using Type.
  intros Hl Heq. rewrite !PX_div, !Z.pow_add_r, <-!Z.div_div by lia.
  change (2 ^ 12) with 4096. by rewrite Heq.
Qed.
Lemma lookup_page m (lv : nat) pt va va' :
  va / 4096 = va' / 4096 → lookup_lvl m lv pt va = lookup_lvl m lv pt va'.
Proof using Type.
  intros Heq. revert pt. induction lv as [|lv IH]; intros pt; cbn [lookup_lvl];
    rewrite (PX_page _ va va') by (done || lia); [done|]. by rewrite IH.
Qed.

Lemma path0_vpn own p root va :
  on_path own p root 0 va → ∀ root' va', on_path own p root' 0 va' →
  PX 0 va = PX 0 va' → 0 ≤ va → 0 ≤ va' → root = root' ∧ va / 4096 = va' / 4096.
Proof using Type.
  unfold on_path. intros Hp root' va' Hp' HPX ??. rewrite Hp in Hp'.
  injection Hp' as -> Hpre. split; [done|]. rewrite !PX_div in HPX by lia.
  change (12 + 9 * (Z.of_nat 0 + 1)) with (12 + 9) in Hpre. change (12 + 9 * 0) with 12 in HPX.
  rewrite Z.pow_add_r, <-!Z.div_div in Hpre by lia.
  change (2 ^ 12) with 4096 in *. change (2 ^ 9) with 512 in *.
  rewrite (Z.div_mod (va / 4096) 512), (Z.div_mod (va' / 4096) 512) by lia. by rewrite Hpre, HPX.
Qed.

Section set_leaf.
Context (s : machine) (l : list Z) (own : gmap Z role) (p root va e : Z).
Let a := p + 8 * PX 0 va.
Let s' := set_ram (λ m, store64 m a e) s.
Hypothesis Hs : pt_inv s l own.
Hypothesis Hva : 0 ≤ va.
Hypothesis Hp : on_path own p root 0 va.
Hypothesis He : 0 ≤ e < 2 ^ 64.

Lemma set_leaf_other q r i :
  own !! q = Some r → 0 ≤ i < 512 → q + 8 * i ≠ a →
  load64 (ram s') (q + 8 * i) = load64 (ram s) (q + 8 * i).
Proof using Hs Hp.
  intros Hq Hi Hne. assert (page_ok q) as [Hqa _] by by eapply pt_page.
  assert (page_ok p) as [Hpa _] by by eapply on_path_page.
  unfold s', set_ram; cbn [ram]. apply load64_store64_disj. unfold a in *.
  destruct (pte_disj p q (PX 0 va) i); auto; by apply PX_bound.
Qed.
Lemma set_leaf_upper q r lv pre i :
  own !! q = Some (PT r lv pre) → lv ≠ 0 → 0 ≤ i < 512 →
  load64 (ram s') (q + 8 * i) = load64 (ram s) (q + 8 * i).
Proof using Hs Hp.
  intros Hq Hlv Hi. eapply set_leaf_other; [done|done|]. intros Heq.
  assert (page_ok q) as [Hqa _] by by eapply pt_page.
  assert (page_ok p) as [Hpa _] by by eapply on_path_page.
  apply pte_same in Heq as [-> _]; auto; [|by apply PX_bound].
  unfold on_path in Hp. rewrite Hq in Hp. injection Hp as ? ? ?. lia.
Qed.

Lemma set_leaf_inv : pt_inv s' l own.
Proof using Hs Hp.
  assert (page_ok p) as Hpok by by eapply on_path_page.
  pose proof (PX_bound 0 va) as Hpx. destruct (pt_kmem _ _ _ Hs) as [Hkb Hkl Hkn Hkp].
  split; try apply Hs.
  - split; [unfold s', set_ram; cbn [ram]; auto with xv6| |done|done].
    eapply (fl_rep_outside p); [done| |apply Hpok|done|].
    + intros x Hx. apply load8_store64_ne. unfold a. lia.
    + intros Hin. unfold on_path in Hp. by rewrite (pt_free _ _ _ Hs p) in Hp.
  - intros q r lv pre i Hq Hi Hlv. rewrite (set_leaf_upper q r lv pre i) by (done || lia).
    by apply Hs.
  - intros q r pre i Hq Hi. rewrite (set_leaf_upper q r 2 pre i) by (done || lia). by eapply (pt_half _ _ _ Hs).
  - intros q r lv pre Hq Hlv. destruct (pt_up _ _ _ Hs q r lv pre Hq Hlv) as (p' & Hp' & Hv).
    pose proof (pt_level _ _ _ Hs _ _ _ _ Hq). exists p'. split; [done|].
    by rewrite (set_leaf_upper p' r (lv + 1) (pre / 512)) by (done || lia || by apply Z.mod_pos_bound).
Qed.

Lemma set_leaf_frame : pt_frame root s l own s' l own.
Proof using Hs Hp.
  split; try done; auto. intros q r Hq Hr x Hx.
  assert (page_ok q) as [Hqa _] by by eapply pt_page.
  assert (page_ok p) as [Hpa _] by by eapply on_path_page.
  assert (p ≠ q) by (intros ->; unfold on_path in Hp; rewrite Hq in Hp;
    injection Hp as ->; by eapply Hr).
  pose proof (PX_bound 0 va). apply load8_store64_ne. unfold a.
  destruct (page_disj p q); auto; lia.
Qed.

Lemma set_leaf_walk (lv : nat) q r0 va0 :
  on_path own q r0 lv va0 → 0 ≤ va0 →
  walk_lvl (ram s') lv q va0 = walk_lvl (ram s) lv q va0.
Proof using Hs Hp.
  revert q. induction lv as [|lv IH]; intros q Hq Hva0; cbn [walk_lvl]; [done|].
  rewrite (set_leaf_upper q r0 _ _ _ Hq) by (lia || by apply PX_bound; lia).
  destruct (bit _ PTE_V) eqn:E; [|done]. apply IH; [|done]. by eapply on_path_step.
Qed.

Lemma set_leaf_lookup_ne (lv : nat) q r0 va0 :
  on_path own q r0 lv va0 → 0 ≤ va0 → ¬ (r0 = root ∧ va0 / 4096 = va / 4096) →
  lookup_lvl (ram s') lv q va0 = lookup_lvl (ram s) lv q va0.
Proof using Hs Hp Hva.
  intros Hq Hva0 Hne. revert q Hq. induction lv as [|lv IH]; intros q Hq; cbn [lookup_lvl].
  - eapply set_leaf_other; [done|by apply PX_bound|]. intros Heq.
    assert (page_ok q) as [Hqa _] by by eapply on_path_page.
    assert (page_ok p) as [Hpa _] by by eapply on_path_page.
    apply pte_same in Heq as [-> HPX]; auto; [|by apply PX_bound|by apply PX_bound].
    destruct (path0_vpn own p r0 va0 Hq root va Hp HPX) as [-> ?]; auto.
  - rewrite (set_leaf_upper q r0 _ _ _ Hq) by (lia || by apply PX_bound; lia).
    destruct (bit _ PTE_V) eqn:E; [|done]. apply IH. by eapply on_path_step.
Qed.
End set_leaf.

(** The table of every process after entry [e] is stored as the leaf entry of
    [va] in the table at [root]. *)
Definition upd_lookup (m m' : mem) (own : gmap Z role) (root va e : Z) : Prop :=
  ∀ r0 va0, is_root own r0 → 0 ≤ va0 < MAXVA →
    lookup_pte m' r0 va0 =
    if decide (r0 = root ∧ va0 / 4096 = va / 4096) then e else lookup_pte m r0 va0.

Lemma lookup_of_walk s l own root va p :
  pt_inv s l own → is_root own root → 0 ≤ va < MAXVA → on_path own p root 0 va →
  walk_lvl (ram s) 2 root va = p + 8 * PX 0 va →
  lookup_pte (ram s) root va = load64 (ram s) (p + 8 * PX 0 va).
Proof using Type.
  intros Hs Hr Hva Hp Hw. pose proof (page_ok_pos p (on_path_page _ _ _ _ _ _ _ Hs Hp)).
  pose proof (PX_bound 0 va). unfold KERNBASE in *.
  destruct (walk_root s l own root va) as [[Hw0 _]|(p' & _ & Hw1 & _ & ->)]; try done; [lia|].
  congruence.
Qed.

Lemma store_leaf s l own root va p e :
  pt_inv s l own → is_root own root → 0 ≤ va < MAXVA → on_path own p root 0 va →
  walk_lvl (ram s) 2 root va = p + 8 * PX 0 va → 0 ≤ e < 2 ^ 64 →
  let s' := set_ram (λ m, store64 m (p + 8 * PX 0 va) e) s in
  pt_inv s' l own ∧ pt_frame root s l own s' l own ∧ upd_lookup (ram s) (ram s') own root va e.
Proof using Type.
  intros Hs Hr Hva Hp Hw He s'.
  assert (pt_inv s' l own) as Hs' by by apply (set_leaf_inv s l own p root).
  split; [done|]. split; [by apply (set_leaf_frame s l own p root)|].
  rewrite MAXVA_val in Hva. intros r0 va0 Hr0 Hva0. case_decide as Hd.
  - destruct Hd as [-> Heq]. unfold lookup_pte. rewrite (lookup_page _ 2 root va0 va) by done.
    change (lookup_pte (ram s') root va = e). erewrite lookup_of_walk; try done.
    + by apply load64_store64.
    + rewrite <-Hw. apply (set_leaf_walk s l own p root va e Hs Hp 2 root root); [|lia].
      apply is_root_path; [done|lia].
  - unfold lookup_pte. eapply (set_leaf_lookup_ne s l own p root); try done; [lia| |lia].
    apply is_root_path; [done|]. rewrite MAXVA_val in Hva0. lia.
Qed.
End pagetable.
