(* ===== verification/Mapping.v ===== *)
(** * Mapping and unmapping pages

    [mappages], [walkaddr] and [uvmunmap] of [kernel/vm.c] against the meaning
    of page tables of [PageTable]: which entries change, to what, and that
    nothing else does. *)

From S2P Require Import Prelude Riscv Memory CString Kalloc Vm PageTable.

Section mapping.
Context {I : Image}.

(** ** Reading *)

(** What [walkaddr] makes of a leaf entry. *)
Definition leaf_pa (e : Z) : Z := if bit e PTE_V && bit e PTE_U then PTE2PA e else 0.

Lemma walkaddr_eq s l own root va :
  pt_inv s l own → is_root own root → 0 ≤ va →
  walkaddr root va s =
  Done (if MAXVA <=? va then 0 else leaf_pa (lookup_pte (ram s) root va)) s.
Proof using Type.
  intros Hs Hr Hva. unfold walkaddr. case_if E; [done|].
  unfold mbind, M_bind. rewrite walk_noalloc by lia. cbn [obind].
  destruct (walk_root s l own root va) as [[-> ->]|(p & Hp & -> & Hne & ->)]; try done.
  rewrite (proj2 (Z.eqb_neq _ _) Hne). unfold load_pte, gets. cbn [obind]. unfold leaf_pa.
  destruct (bit _ PTE_V); cbn [negb andb]; [|done]. destruct (bit _ PTE_U); done.
Qed.

(** ** Mapping a range *)

(** How many pages are free. *)
Definition free_pages (l : list Z) : Z := Z.of_nat (length l).

(** In [m'] the table at [root] maps the [n] pages from [va] to the pages from
    [pa]; every other mapping of every table is as in [m]. *)
Definition map_range (m m' : mem) (own : gmap Z role) (root va n pa perm : Z) : Prop :=
  ∀ r0 va0, is_root own r0 → 0 ≤ va0 < MAXVA →
    lookup_pte m' r0 va0 =
    if decide (r0 = root ∧ va ≤ va0 < va + 4096 * n)
    then mk_pte (pa + (va0 - va) / 4096 * 4096) perm
    else lookup_pte m r0 va0.

Lemma map_range_0 m m' own root va pa perm :
  (∀ r0 va0, is_root own r0 → 0 ≤ va0 < MAXVA → lookup_pte m' r0 va0 = lookup_pte m r0 va0) →
  map_range m m' own root va 0 pa perm.
Proof using Type. intros H r0 va0 ??. rewrite decide_False by lia. by apply H. Qed.

Lemma map_range_cons m m1 m' own root va n pa perm :
  va mod 4096 = 0 → 0 ≤ n →
  upd_lookup m m1 own root va (mk_pte pa perm) →
  map_range m1 m' own root (va + 4096) n (pa + 4096) perm →
  map_range m m' own root va (n + 1) pa perm.
Proof using Type.
  intros Hal Hn H1 H2 r0 va0 Hr0 Hva0. rewrite H2, H1 by done.
  destruct (decide (r0 = root)) as [->|]; [|repeat case_decide; naive_solver].
  destruct (decide (va0 / 4096 = va / 4096)) as [Heq|Hne].
  - rewrite (decide_False (P := _ ∧ va + 4096 ≤ _ < _)) by (Z.div_mod_to_equations; lia).
    rewrite (decide_True (P := _ ∧ va0 / 4096 = _)) by done.
    rewrite decide_True by (split; [done|]; Z.div_mod_to_equations; lia).
    f_equal. Z.div_mod_to_equations. lia.
  - rewrite (decide_False (P := _ ∧ va0 / 4096 = _)) by naive_solver.
    destruct (decide (va + 4096 ≤ va0 < va + 4096 + 4096 * n)).
    + rewrite !decide_True by (split; [done|lia]). f_equal. Z.div_mod_to_equations. lia.
    + rewrite !decide_False; [done| |]; intros [_ ?]; Z.div_mod_to_equations; lia.
Qed.

Lemma upd_lookup_sub m m' own own' root va e :
  own ⊆ own' → upd_lookup m m' own' root va e → upd_lookup m m' own root va e.
Proof using Type. intros Ho H r0 va0 Hr0. apply H. by eapply lookup_weaken. Qed.
Lemma map_range_sub m m' own own' root va n pa perm :
  own ⊆ own' → map_range m m' own' root va n pa perm → map_range m m' own root va n pa perm.
Proof using Type. intros Ho H r0 va0 Hr0. apply H. by eapply lookup_weaken. Qed.

Lemma pt_ext_lookup root s l own s' l' own' r0 va0 :
  pt_ext root s l own s' l' own' → is_root own r0 →
  lookup_pte (ram s') r0 va0 = lookup_pte (ram s) r0 va0.
Proof using Type. intros He Hr. by apply (pe_lookup _ _ _ _ _ _ _ He r0 r0 2 0). Qed.

Lemma u64_page a : 0 ≤ a < 2 ^ 56 → u64 (a + PGSIZE) = a + 4096.
Proof using Type. intros. unfold PGSIZE. apply u64_id. lia. Qed.

(** One round of the loop. *)
Lemma mappages_body_wp s l own root last va pa perm :
  pt_inv s l own → is_root own root → 0 ≤ va < MAXVA →
  pa mod 4096 = 0 → 0 ≤ pa < 2 ^ 56 → 0 ≤ perm < 1024 →
  bit (lookup_pte (ram s) root va) PTE_V = false →
  wp (mappages_body root last perm (va, pa)) (λ r s', ∃ l' own',
    pt_inv s' l' own' ∧ pt_frame root s l own s' l' own' ∧
    (r = inr (-1) ∧ l' = [] ∧ (length l < 2)%nat ∧ pt_ext root s l own s' l' own' ∨
     r = (if va =? last then inr 0 else inl (va + 4096, pa + 4096)) ∧ (length l ≤ 2 + length l')%nat ∧
     upd_lookup (ram s) (ram s') own root va (mk_pte pa perm))) s.
Proof using Type.
  intros Hs Hr Hva Hpa Hpar Hperm Hfree. unfold mappages_body. apply wp_bind.
  eapply wp_mono; [by apply walk_alloc_wp|].
  intros a s1 (l1 & own1 & Hs1 & Hext & [(-> & -> & Hlen)|(Hne & Hlen & p & Hp & -> & Hw)]).
  { cbn. exists [], own1. split_and!; [done|apply Hext|by left]. }
  rewrite (proj2 (Z.eqb_neq _ _) Hne). unfold load_pte. wp_steps.
  assert (is_root own1 root) as Hr1 by (eapply is_root_frame; [apply Hext|done]).
  rewrite <-(lookup_of_walk s1 l1 own1 root va p), (pt_ext_lookup _ _ _ _ _ _ _ _ _ Hext) by done.
  rewrite Hfree. unfold store_pte. wp_steps.
  pose proof (mk_pte_bound pa perm Hpar Hpa Hperm) as He.
  destruct (store_leaf s1 l1 own1 root va p (mk_pte pa perm)) as (Hs2 & Hf2 & Hu2);
    try done; [lia|].
  assert (upd_lookup (ram s) (ram (set_ram (λ m, store64 m (p + 8 * PX 0 va) (mk_pte pa perm)) s1))
    own root va (mk_pte pa perm)) as Hu.
  { intros r0 va0 Hr0 Hva0. rewrite Hu2; [|by eapply lookup_weaken, Hext|done].
    by rewrite (pt_ext_lookup _ _ _ _ _ _ _ _ _ Hext). }
  assert (va < 2 ^ 56) by (rewrite MAXVA_val in Hva; lia).
  rewrite !u64_page by lia.
  destruct (va =? last); apply wp_ret; exists l1, own1;
    (split_and!; [done|eapply pt_frame_trans; [apply Hext|done]|right; done]).
Qed.

Lemma mappages_loop n s l own root va pa perm :
  pt_inv s l own → is_root own root → va mod 4096 = 0 → 0 ≤ va →
  va + 4096 * (Z.of_nat n + 1) ≤ MAXVA → pa mod 4096 = 0 → 0 ≤ pa →
  pa + 4096 * (Z.of_nat n + 1) ≤ 2 ^ 56 → 0 ≤ perm < 1024 →
  (∀ va0, va ≤ va0 < va + 4096 * (Z.of_nat n + 1) →
     bit (lookup_pte (ram s) root va0) PTE_V = false) →
  wp (loopM (S n) (mappages_body root (va + 4096 * Z.of_nat n) perm) (va, pa))
     (λ r s', ∃ l' own' k, pt_inv s' l' own' ∧ pt_frame root s l own s' l' own' ∧
        map_range (ram s) (ram s') own root va k pa perm ∧
        (r = 0 ∧ k = Z.of_nat n + 1 ∧ free_pages l ≤ 2 * k + free_pages l' ∨
         r = -1 ∧ 0 ≤ k < Z.of_nat n + 1 ∧ l' = [] ∧ free_pages l < 2 * (k + 1))) s.
Proof using Type.
  revert s l own va pa. induction n as [|n IH];
    intros s l own va pa Hs Hr Hal Hva Hmax Hpal Hpa Hpam Hperm Hfree.
  all: cbn [loopM]; apply wp_bind; (eapply wp_mono; [apply (mappages_body_wp s l own root)|]);
    try done; try lia; [apply Hfree; lia|].
  all: intros r s1 (l1 & own1 & Hs1 & Hf1 & [(-> & -> & Hlen & Hext)|(-> & Hlen & Hu)]); cbn beta iota.
  1, 3: apply wp_ret; exists [], own1, 0; split_and!; try done; [|right; unfold free_pages; split_and!; (done || lia)];
    apply map_range_0; intros; by eapply pt_ext_lookup.
  - rewrite (proj2 (Z.eqb_eq _ _)) by lia. apply wp_ret. exists l1, own1, (0 + 1).
    split_and!; try done; [|left; unfold free_pages; lia].
    eapply map_range_cons; [done|lia|done|by apply map_range_0].
  - rewrite (proj2 (Z.eqb_neq _ _)) by lia.
    replace (va + 4096 * Z.of_nat (S n)) with (va + 4096 + 4096 * Z.of_nat n) by lia.
    assert (is_root own1 root) as Hr1 by by eapply is_root_frame.
    eapply wp_mono; [apply (IH s1 l1 own1)|]; try done; try lia.
    { by rewrite <-Z.add_mod_idemp_r, Z.add_0_r by lia. }
    { by rewrite <-Z.add_mod_idemp_r, Z.add_0_r by lia. }
    { intros va0 Hva0. rewrite Hu by (done || lia).
      rewrite decide_False by (intros [_ ?]; Z.div_mod_to_equations; lia). apply Hfree. lia. }
    intros r s2 (l2 & own2 & k & Hs2 & Hf2 & Hm & Hk). exists l2, own2, (k + 1).
    split_and!; [done|by eapply pt_frame_trans| |].
    + eapply map_range_cons; [done|lia|done|]. eapply map_range_sub; [apply Hf1|done].
    + unfold free_pages in *. destruct Hk as [(-> & -> & ?)|(-> & ? & -> & ?)]; [left|right]; split_and!; lia || done.
Qed.

Lemma mappages_wp s l own root va size pa perm :
  pt_inv s l own → is_root own root → va mod 4096 = 0 → 0 ≤ va →
  size mod 4096 = 0 → 0 < size → va + size ≤ MAXVA →
  pa mod 4096 = 0 → 0 ≤ pa → pa + size ≤ 2 ^ 56 → 0 ≤ perm < 1024 →
  (∀ va0, va ≤ va0 < va + size → bit (lookup_pte (ram s) root va0) PTE_V = false) →
  wp (mappages root va size pa perm) (λ r s', ∃ l' own' k,
    pt_inv s' l' own' ∧ pt_frame root s l own s' l' own' ∧
    map_range (ram s) (ram s') own root va k pa perm ∧
    (r = 0 ∧ k = size / 4096 ∧ free_pages l ≤ 2 * k + free_pages l' ∨
     r = -1 ∧ 0 ≤ k < size / 4096 ∧ l' = [] ∧ free_pages l < 2 * (k + 1))) s.
Proof using Type.
  intros Hs Hr Hal Hva Hsz Hsz0 Hmax Hpal Hpa Hpam Hperm Hfree. unfold mappages, PGSIZE.
  rewrite Hal, Hsz. cbn [negb Z.eqb]. rewrite (proj2 (Z.eqb_neq _ _)) by lia.
  assert (0 < size / 4096) by (Z.div_mod_to_equations; lia).
  destruct (Z.to_nat (size / 4096)) as [|n] eqn:En; [lia|].
  assert (size = 4096 * (Z.of_nat n + 1)) as Hn by (Z.div_mod_to_equations; lia).
  rewrite MAXVA_val in Hmax.
  rewrite u64_id by lia. replace (va + size - 4096) with (va + 4096 * Z.of_nat n) by lia.
  replace (size / 4096) with (Z.of_nat n + 1) by lia. rewrite Hn in *.
  by apply mappages_loop.
Qed.

(** ** Changes outside the page tables *)

Lemma agree_entry m m' q i : agree m m' q 4096 → 0 ≤ i < 512 →
  load64 m' (q + 8 * i) = load64 m (q + 8 * i).
Proof using Type. intros H Hi. apply load64_agree. apply (agree_sub _ _ q 4096); [done|lia..]. Qed.

Definition tables_agree (own : gmap Z role) (m m' : mem) : Prop :=
  ∀ q a b c, own !! q = Some (PT a b c) → agree m m' q 4096.

Lemma tables_agree_walk s l own m' (lv : nat) p root va :
  pt_inv s l own → tables_agree own (ram s) m' → 0 ≤ va → on_path own p root lv va →
  walk_lvl m' lv p va = walk_lvl (ram s) lv p va ∧
  lookup_lvl m' lv p va = lookup_lvl (ram s) lv p va.
Proof using Type.
  intros Hs Ht Hva. revert p. induction lv as [|lv IH]; intros p Hp; cbn [walk_lvl lookup_lvl];
    rewrite (agree_entry (ram s) m' p) by first [by eapply Ht|apply PX_bound; lia]; [done|].
  destruct (bit _ PTE_V) eqn:E; [|done]. apply IH. by eapply on_path_step.
Qed.

Lemma tables_agree_lookup s l own m' root va :
  pt_inv s l own → tables_agree own (ram s) m' → is_root own root → 0 ≤ va < MAXVA →
  walk_lvl m' 2 root va = walk_lvl (ram s) 2 root va ∧
  lookup_pte m' root va = lookup_pte (ram s) root va.
Proof using Type.
  intros Hs Ht Hr Hva. rewrite MAXVA_val in Hva.
  eapply tables_agree_walk; [done|done|lia|]. apply is_root_path; [done|lia].
Qed.

Lemma pt_inv_pres s l own s' l' own' :
  pt_inv s l own → kmem_inv s' l' → (∀ p, p ∈ l' → own' !! p = None) →
  (∀ p r, own' !! p = Some r → page_ok p) →
  (∀ p a b c, own' !! p = Some (PT a b c) ↔ own !! p = Some (PT a b c)) →
  tables_agree own (ram s) (ram s') → pt_inv s' l' own'.
Proof using Type.
  intros Hs Hk Hfree Hpage Hrole Ht. split; try done.
  - intros p a b c Hp. by eapply (pt_level _ _ _ Hs), Hrole.
  - intros p a b c i Hp Hi Hb. apply Hrole in Hp.
    rewrite (agree_entry (ram s)) by first [by eapply Ht|done]. intros Hv.
    destruct (pt_ptr _ _ _ Hs p a b c i) as [Hc Hf]; try done. split; [|done]. by apply Hrole.
  - intros p a c Hp%Hrole. by eapply pt_top.
  - intros p a c i Hp%Hrole Hi.
    rewrite (agree_entry (ram s)) by first [by eapply Ht|lia]. by eapply (pt_half _ _ _ Hs).
  - intros q a b c Hq%Hrole Hb. destruct (pt_up _ _ _ Hs q a b c Hq Hb) as (p & Hp & Hv).
    exists p. split; [by apply Hrole|].
    by rewrite (agree_entry (ram s)) by first [by eapply Ht|by apply Z.mod_pos_bound].
Qed.

(** Freeing a page that is not a page-table page. *)
Lemma kfree_role s l own p r :
  pt_inv s l own → own !! p = Some r → (∀ a b c, r ≠ PT a b c) →
  wp (kfree p) (λ _ s', pt_inv s' (p :: l) (delete p own) ∧
    same_outside p (ram s) (ram s') ∧ tables_agree own (ram s) (ram s')) s.
Proof using Type.
  intros Hs Hp Hr. assert (page_ok p) as Hpok by by eapply pt_page.
  eapply wp_mono; [apply (kfree_wp s l p); [apply Hs|done|]|].
  { intros Hin. by rewrite (pt_free _ _ _ Hs p Hin) in Hp. }
  intros _ s' [Hk Hout].
  assert (tables_agree own (ram s) (ram s')) as Ht.
  { intros q a b c Hq. assert (page_ok q) as [Hqa _] by by eapply pt_page.
    eapply same_outside_page; [done|apply Hpok|done|]. intros ->. rewrite Hp in Hq. injection Hq as ->. by eapply Hr. }
  split; [|done]. eapply pt_inv_pres; [done|done| | | |done].
  - intros q [->|Hq]%elem_of_cons; [apply lookup_delete_eq|].
    rewrite lookup_delete. case_decide; [done|]. by eapply pt_free.
  - intros q r'. rewrite lookup_delete. case_decide; [done|]. by eapply pt_page.
  - intros q a b c. rewrite lookup_delete. case_decide; [subst|done]. naive_solver.
Qed.

(** ** Unmapping *)

Definition unmap_range (m m' : mem) (own : gmap Z role) (root va n : Z) : Prop :=
  ∀ r0 va0, is_root own r0 → 0 ≤ va0 < MAXVA →
    lookup_pte m' r0 va0 =
    if decide (r0 = root ∧ va ≤ va0 < va + 4096 * n) then 0 else lookup_pte m r0 va0.

(** A page of a user address space: a leaf entry and a page that only this
    entry refers to. *)
Definition mapped_user (s : machine) (own : gmap Z role) (root va : Z) : Prop :=
  let e := lookup_pte (ram s) root va in
  bit e PTE_V = true ∧ PTE_FLAGS e ≠ PTE_V ∧ own !! PTE2PA e = Some (UPage root (va / 4096)).

Lemma unmap_range_cons m m1 m' own root va n :
  va mod 4096 = 0 → 0 ≤ n →
  upd_lookup m m1 own root va 0 → unmap_range m1 m' own root (va + 4096) n →
  unmap_range m m' own root va (n + 1).
Proof using Type.
  intros Hal Hn H1 H2 r0 va0 Hr0 Hva0. rewrite H2, H1 by done.
  destruct (decide (r0 = root)) as [->|]; [|repeat case_decide; naive_solver].
  repeat case_decide; try done; exfalso;
    repeat match goal with H : _ ∧ _ |- _ => destruct H | H : ¬ (_ ∧ _) |- _ =>
      apply not_and_l_alt in H as [?|[? ?]] end;
    try done; Z.div_mod_to_equations; lia.
Qed.

Fixpoint del_all (ps : list Z) (own : gmap Z role) : gmap Z role :=
  match ps with [] => own | p :: ps => del_all ps (delete p own) end.
Lemma lookup_del_all ps own q :
  del_all ps own !! q = if decide (q ∈ ps) then None else own !! q.
Proof using Type.
  revert own. induction ps as [|p ps IH]; intros own; cbn [del_all].
  { by rewrite decide_False by set_solver. }
  rewrite IH, lookup_delete. repeat case_decide; set_solver.
Qed.

(** The leaf entry of a mapped page, as the walk finds it. *)
Lemma walk_mapped s l own root va :
  pt_inv s l own → is_root own root → 0 ≤ va < MAXVA → bit (lookup_pte (ram s) root va) PTE_V →
  ∃ p, on_path own p root 0 va ∧ walk_lvl (ram s) 2 root va = p + 8 * PX 0 va ∧
       p + 8 * PX 0 va ≠ 0 ∧ load64 (ram s) (p + 8 * PX 0 va) = lookup_pte (ram s) root va.
Proof using Type.
  intros Hs Hr Hva Hv. destruct (walk_root s l own root va) as [[_ H0]|(p & ? & ? & ? & ?)];
    [done|done|done| |by exists p]. by rewrite H0 in Hv.
Qed.

Lemma uvmunmap_body_wp s l own root stop va :
  pt_inv s l own → is_root own root → 0 ≤ va < MAXVA → va < stop →
  mapped_user s own root va →
  let pa := PTE2PA (lookup_pte (ram s) root va) in
  wp (uvmunmap_body root stop true va) (λ r s',
    r = inl (va + 4096) ∧ pt_inv s' (pa :: l) (delete pa own) ∧
    upd_lookup (ram s) (ram s') own root va 0 ∧
    ∀ q r, own !! q = Some r → (∀ a b c, r ≠ PT a b c) → q ≠ pa →
           agree (ram s) (ram s') q 4096) s.
Proof using Type.
  intros Hs Hr Hva Hstop (Hv & Hleaf & Hown) pa. unfold uvmunmap_body. case_if E; [|lia].
  apply wp_bind. eapply wp_intro; [apply walk_noalloc; lia|].
  destruct (walk_mapped s l own root va) as (p & Hp & Hw & Hne & Hl); try done; [by rewrite Hv|].
  rewrite Hw, (proj2 (Z.eqb_neq _ _) Hne). unfold load_pte. wp_steps. rewrite Hl.
  unfold bit in Hv. apply negb_true_iff in Hv. rewrite Hv, (proj2 (Z.eqb_neq _ _) Hleaf).
  wp_steps. eapply wp_mono; [by apply (kfree_role s l own _ _ Hs Hown)|].
  fold pa. intros _ s1 (Hs1 & Hout & Ht). unfold store_pte. wp_steps.
  assert (∀ x a b c, own !! x = Some (PT a b c) → delete pa own !! x = Some (PT a b c)) as Hdel.
  { intros x a b c Hx. rewrite lookup_delete_ne; [done|]. intros <-. unfold pa in Hx. congruence. }
  destruct (store_leaf s1 (pa :: l) (delete pa own) root va p 0) as (Hs2 & Hf2 & Hu2);
    [done|by apply Hdel|done|by apply Hdel| |lia|].
  { rewrite <-Hw. by apply (tables_agree_lookup s l own). }
  rewrite MAXVA_val in Hva. split_and!; [by rewrite u64_page by lia|done| |].
  - intros r0 va0 Hr0 Hva0. rewrite Hu2 by first [done|by apply Hdel].
    by rewrite (proj2 (tables_agree_lookup s l own (ram s1) r0 va0 Hs Ht Hr0 Hva0)).
  - intros q r Hq Hnpt Hqpa. eapply agree_trans; [|eapply (pf_data _ _ _ _ _ _ _ Hf2 q r);
      [by rewrite lookup_delete_ne|done]].
    apply (same_outside_page pa); [done|by destruct (pt_page _ _ _ Hs _ _ Hown)|
      by destruct (pt_page _ _ _ Hs _ _ Hq)|congruence].
Qed.

(** What a run of [uvmunmap] that frees [ps] leaves of the rest. *)
Definition data_kept (own : gmap Z role) (ps : list Z) (m m' : mem) : Prop :=
  ∀ q r, own !! q = Some r → (∀ a b c, r ≠ PT a b c) → q ∉ ps → agree m m' q 4096.

Definition leaf_pages (m : mem) (root va : Z) (n : nat) : list Z :=
  (λ j, PTE2PA (lookup_pte m root (va + 4096 * Z.of_nat j))) <$> seq 0 n.

Lemma leaf_pages_S m m1 own root va n :
  is_root own root → va mod 4096 = 0 → 0 ≤ va → va + 4096 * Z.of_nat (S n) ≤ MAXVA →
  upd_lookup m m1 own root va 0 →
  leaf_pages m root va (S n) =
  PTE2PA (lookup_pte m root va) :: leaf_pages m1 root (va + 4096) n.
Proof using Type.
  intros Hr Hal Hva Hmax Hu. unfold leaf_pages. cbn [seq fmap list_fmap].
  f_equal; [by rewrite Z.add_0_r|]. rewrite <-fmap_S_seq, <-list_fmap_compose.
  apply list_fmap_ext. intros i j [Hj Hi]%lookup_seq. cbn [compose]. rewrite Hu; [|done|lia].
  rewrite decide_False by (intros [_ ?]; Z.div_mod_to_equations; lia). do 2 f_equal. lia.
Qed.

Lemma uvmunmap_loop n s l own root va :
  pt_inv s l own → is_root own root → va mod 4096 = 0 → 0 ≤ va →
  va + 4096 * Z.of_nat n ≤ MAXVA →
  (∀ va0, va ≤ va0 < va + 4096 * Z.of_nat n → mapped_user s own root va0) →
  wp (loopM (S n) (uvmunmap_body root (va + 4096 * Z.of_nat n) true) va)
     (λ _ s', let ps := leaf_pages (ram s) root va n in
        pt_inv s' (reverse ps ++ l) (del_all ps own) ∧
        unmap_range (ram s) (ram s') own root va (Z.of_nat n) ∧
        data_kept own ps (ram s) (ram s')) s.
Proof using Type.
  revert s l own va. induction n as [|n IH]; intros s l own va Hs Hr Hal Hva Hmax Hmap.
  { cbn [loopM]. apply wp_bind. unfold uvmunmap_body. case_if E; [lia|].
    apply wp_ret, wp_ret. split_and!; [done| |by intros ???].
    intros r0 va0 _ _. by rewrite decide_False by lia. }
  remember (S n) as k eqn:Hk. cbn [loopM]. subst k. apply wp_bind.
  eapply wp_mono; [apply (uvmunmap_body_wp s l own root); try done; [lia|lia|]|].
  { apply Hmap. lia. }
  intros r s1 (-> & Hs1 & Hu & Hd). cbn beta iota.
  set (pa := PTE2PA (lookup_pte (ram s) root va)) in *.
  destruct (Hmap va) as (_ & _ & Hown); [lia|]. fold pa in Hown.
  assert (is_root (delete pa own) root) as Hr1.
  { unfold is_root in *. rewrite lookup_delete_ne; congruence. }
  replace (va + 4096 * Z.of_nat (S n)) with (va + 4096 + 4096 * Z.of_nat n) by lia.
  eapply wp_mono; [apply (IH s1 (pa :: l) (delete pa own))|]; try done; try lia.
  { by rewrite <-Z.add_mod_idemp_r, Z.add_0_r by lia. }
  { intros va0 Hva0. destruct (Hmap va0) as (Hv & Hl & Ho); [lia|]. unfold mapped_user.
    assert (va0 / 4096 ≠ va / 4096) as Hne by (Z.div_mod_to_equations; lia).
    rewrite Hu, decide_False by first [done|lia|naive_solver]. split_and!; try done.
    rewrite lookup_delete_ne; [done|]. intros Heq. rewrite Heq in Hown. congruence. }
  intros u s2 (Hs2 & Hum & Hd2). rewrite (leaf_pages_S (ram s) (ram s1) own) by (done || lia).
  fold pa. cbn [del_all]. rewrite reverse_cons, <-app_assoc. cbn [app]. split_and!; [done| |].
  - rewrite Nat2Z.inj_succ. eapply unmap_range_cons; [done|lia|done|].
    intros r0 va0 Hr0 Hva0. apply Hum; [|done]. unfold is_root in *.
    rewrite lookup_delete_ne; [done|]. congruence.
  - intros q r Hq Hnpt [Hqpa Hqps]%not_elem_of_cons. eapply agree_trans; [by eapply Hd|].
    eapply Hd2; [by rewrite lookup_delete_ne by congruence|done|done].
Qed.

Lemma uvmunmap_wp s l own root va npages :
  pt_inv s l own → is_root own root → va mod 4096 = 0 → 0 ≤ va → 0 ≤ npages →
  va + 4096 * npages ≤ MAXVA →
  (∀ va0, va ≤ va0 < va + 4096 * npages → mapped_user s own root va0) →
  wp (uvmunmap root va npages true) (λ _ s',
    let ps := leaf_pages (ram s) root va (Z.to_nat npages) in
    pt_inv s' (reverse ps ++ l) (del_all ps own) ∧
    unmap_range (ram s) (ram s') own root va npages ∧ data_kept own ps (ram s) (ram s')) s.
Proof using Type.
  intros Hs Hr Hal Hva Hn Hmax Hmap. unfold uvmunmap, PGSIZE. rewrite Hal. cbn [negb Z.eqb].
  rewrite MAXVA_val in Hmax. rewrite (u64_id (npages * 4096)), u64_id by lia.
  rewrite (Z.mul_comm npages). rewrite <-(Z2Nat.id npages) in Hmap, Hmax |- * by done.
  rewrite !Nat2Z.id. apply uvmunmap_loop; try done.
Qed.

(** Unmapping one page without freeing what it maps: the trampoline and the
    trapframe of a process. *)
Lemma uvmunmap_nofree_wp s l own root va :
  pt_inv s l own → is_root own root → va mod 4096 = 0 → 0 ≤ va → va + 4096 ≤ MAXVA →
  bit (lookup_pte (ram s) root va) PTE_V = true →
  PTE_FLAGS (lookup_pte (ram s) root va) ≠ PTE_V →
  wp (uvmunmap root va 1 false) (λ _ s', pt_inv s' l own ∧ pt_frame root s l own s' l own ∧
    upd_lookup (ram s) (ram s') own root va 0) s.
Proof using Type.
  intros Hs Hr Hal Hva Hmax Hv Hleaf. unfold uvmunmap, PGSIZE. rewrite Hal. cbn [negb Z.eqb].
  assert (va < 2 ^ 56) by (rewrite MAXVA_val in Hmax; lia).
  change (u64 (1 * 4096)) with 4096. rewrite (u64_id (va + 4096)) by lia.
  change (Z.to_nat 1) with 1%nat. cbn [loopM]. apply wp_bind. unfold uvmunmap_body at 1.
  case_if E; [|lia]. apply wp_bind. eapply wp_intro; [apply walk_noalloc; lia|].
  destruct (walk_mapped s l own root va) as (p & Hp & Hw & Hne & Hl); try done;
    [lia|by rewrite Hv|].
  rewrite Hw, (proj2 (Z.eqb_neq _ _) Hne). unfold load_pte. wp_steps. rewrite Hl.
  unfold bit in Hv. apply negb_true_iff in Hv. rewrite Hv, (proj2 (Z.eqb_neq _ _) Hleaf).
  unfold store_pte. wp_steps. rewrite u64_page by lia. unfold uvmunmap_body.
  case_if E2; [lia|]. wp_steps. apply store_leaf; done || lia.
Qed.

(** ** Theorems *)

(** C35: [mappages] maps exactly the pages it is asked to map, to exactly the
    physical pages and permissions given, and changes no other entry of any
    page table and no page that is not a page table.  It fails, with -1, only
    when the allocator is empty, and has then mapped a proper prefix; it takes at
    most two pages for tables for each page it maps. *)
Theorem mappages_spec s l own root va size pa perm :
  pt_inv s l own → is_root own root → va mod 4096 = 0 → 0 ≤ va →
  size mod 4096 = 0 → 0 < size → va + size ≤ MAXVA →
  pa mod 4096 = 0 → 0 ≤ pa → pa + size ≤ 2 ^ 56 → 0 ≤ perm < 1024 →
  (∀ va0, va ≤ va0 < va + size → bit (lookup_pte (ram s) root va0) PTE_V = false) →
  wp (mappages root va size pa perm) (λ r s', ∃ l' own' k,
    pt_inv s' l' own' ∧ pt_frame root s l own s' l' own' ∧
    map_range (ram s) (ram s') own root va k pa perm ∧
    (r = 0 ∧ k = size / 4096 ∧ free_pages l ≤ 2 * k + free_pages l' ∨
     r = -1 ∧ 0 ≤ k < size / 4096 ∧ l' = [] ∧ free_pages l < 2 * (k + 1))) s.
Proof using Type. apply mappages_wp. Qed.

Lemma walk_loop_valid level pt va alloc s :
  walk_lvl (ram s) level pt va ≠ 0 →
  walk_loop level pt va alloc s = Done (walk_lvl (ram s) level pt va) s.
Proof using Type.
  revert pt. induction level as [|level IH]; intros pt Hne; [done|].
  cbn [walk_loop walk_lvl] in *. unfold walk_level, load_pte, mbind, M_bind, gets. cbn [obind].
  destruct (bit _ PTE_V); cbn [obind mret M_ret]; [by apply IH|done].
Qed.

(** Mapping a page that is already mapped panics, and nothing has changed. *)
Theorem mappages_remap s l own root va size pa perm :
  pt_inv s l own → is_root own root → va mod 4096 = 0 → 0 ≤ va < MAXVA →
  size mod 4096 = 0 → 0 < size → bit (lookup_pte (ram s) root va) PTE_V = true →
  mappages root va size pa perm s = Panic "mappages: remap" s.
Proof using Type.
  intros Hs Hr Hal Hva Hsz Hsz0 Hv. unfold mappages, PGSIZE. rewrite Hal, Hsz. cbn [negb Z.eqb].
  rewrite (proj2 (Z.eqb_neq _ _)) by lia.
  assert (0 < size / 4096) by (Z.div_mod_to_equations; lia).
  destruct (Z.to_nat (size / 4096)) as [|n] eqn:En; [lia|]. cbn [loopM].
  unfold mappages_body, mbind, M_bind.
  destruct (walk_mapped s l own root va) as (p & Hp & Hw & Hne & Hl); try done; [by rewrite Hv|].
  unfold walk. destruct (MAXVA <=? va) eqn:E; [bsimpl; lia|].
  rewrite walk_loop_valid by (by rewrite Hw). rewrite Hw. cbn [obind].
  rewrite (proj2 (Z.eqb_neq _ _) Hne). unfold load_pte, gets. cbn [obind]. by rewrite Hl, Hv.
Qed.

(** After a successful [mappages] of user pages, [walkaddr] translates every
    address of the range to the page it was mapped to. *)
Theorem mappages_walkaddr s l own root va size pa perm :
  pt_inv s l own → is_root own root → va mod 4096 = 0 → 0 ≤ va →
  size mod 4096 = 0 → 0 < size → va + size ≤ MAXVA →
  pa mod 4096 = 0 → 0 ≤ pa → pa + size ≤ 2 ^ 56 → 0 ≤ perm < 1024 → Z.testbit perm 4 = true →
  (∀ va0, va ≤ va0 < va + size → bit (lookup_pte (ram s) root va0) PTE_V = false) →
  ∀ va0, va ≤ va0 < va + size →
  wp (r ← mappages root va size pa perm; if r =? 0 then walkaddr root va0 else mret 0)
     (λ a s', a = pa + (va0 - va) / 4096 * 4096 ∨ a = 0 ∧ freelist s' = 0) s.
Proof using Type.
  intros Hs Hr Hal Hva Hsz Hsz0 Hmax Hpal Hpa Hpam Hperm Hu Hfree va0 Hva0. apply wp_bind.
  eapply wp_mono; [by apply (mappages_wp s l own)|].
  intros r s' (l' & own' & k & Hs' & Hf & Hm & [(-> & -> & _)|(-> & _ & -> & _)]); cbn [Z.eqb].
  2:{ apply wp_ret. right. split; [done|]. by destruct (pt_kmem _ _ _ Hs') as [_ ? _ _]. }
  eapply wp_intro; [eapply walkaddr_eq; [exact Hs'|by eapply is_root_frame|lia]|]. left.
  destruct (MAXVA <=? va0) eqn:E; bsimpl; [lia|].
  rewrite Hm, decide_True; [|split; [done|Z.div_mod_to_equations; lia]|done|lia].
  assert (0 ≤ pa + (va0 - va) / 4096 * 4096 < 2 ^ 56 ∧
    (pa + (va0 - va) / 4096 * 4096) mod 4096 = 0) as [Hp1 Hp2].
  { clear - Hpal Hpa Hpam Hva0 Hsz. split; [Z.div_mod_to_equations; lia|]. by rewrite Z.mod_add. }
  unfold leaf_pa. rewrite mk_pte_pa by done. unfold bit.
  rewrite (land_flags _ PTE_V), (land_flags _ PTE_U), mk_pte_flags by done.
  assert (∀ n, 0 ≤ n → Z.testbit (Z.lor perm PTE_V) n = true →
    negb (Z.land (Z.lor perm PTE_V) (2 ^ n) =? 0) = true) as Hbit.
  { intros n Hn Hb. apply negb_true_iff, Z.eqb_neq. intros Hz.
    apply (f_equal (λ x, Z.testbit x n)) in Hz.
    by rewrite Z.land_spec, Hb, Z.pow2_bits_true, Z.bits_0 in Hz. }
  change PTE_V with (2 ^ 0) at 2. change PTE_U with (2 ^ 4).
  rewrite !Hbit; [done|done|by rewrite Z.lor_spec, Hu|done|by rewrite Z.lor_spec, orb_true_r].
Qed.

(** [uvmunmap] with [do_free] removes exactly the mappings of the range and
    gives back exactly the pages they mapped. *)
Theorem uvmunmap_spec s l own root va npages :
  pt_inv s l own → is_root own root → va mod 4096 = 0 → 0 ≤ va → 0 ≤ npages →
  va + 4096 * npages ≤ MAXVA →
  (∀ va0, va ≤ va0 < va + 4096 * npages → mapped_user s own root va0) →
  wp (uvmunmap root va npages true) (λ _ s',
    let ps := leaf_pages (ram s) root va (Z.to_nat npages) in
    pt_inv s' (reverse ps ++ l) (del_all ps own) ∧
    unmap_range (ram s) (ram s') own root va npages ∧ data_kept own ps (ram s) (ram s')) s.
Proof using Type. apply uvmunmap_wp. Qed.

(** Unmapping a page that is not mapped panics: no page of a hole in an
    address space can be released. *)
Theorem uvmunmap_hole s l own root va npages do_free :
  pt_inv s l own → is_root own root → va mod 4096 = 0 → 0 ≤ va < MAXVA →
  0 < npages → va + 4096 * npages < 2 ^ 64 → bit (lookup_pte (ram s) root va) PTE_V = false →
  ∃ why, uvmunmap root va npages do_free s = Panic why s.
Proof using Type.
  intros Hs Hr Hal Hva Hn Hmax Hv. unfold uvmunmap, PGSIZE. rewrite Hal. cbn [negb Z.eqb].
  rewrite (u64_id (npages * 4096)), u64_id by lia. cbn [loopM]. unfold uvmunmap_body, mbind, M_bind.
  destruct (va <? va + npages * 4096) eqn:E; bsimpl; [|lia]. rewrite walk_noalloc by lia. cbn [obind].
  destruct (walk_root s l own root va) as [[-> _]|(p & Hp & -> & Hne & Hl)]; try done; [by eexists|].
  rewrite (proj2 (Z.eqb_neq _ _) Hne). unfold load_pte, gets. cbn [obind]. rewrite <-Hl.
  unfold bit in Hv. apply negb_false_iff in Hv. rewrite Hv. by eexists.
Qed.
End mapping.
