(* ===== verification/UserCopy.v ===== *)
(** * Copying between the kernel and user memory

    [copyout], [copyin] and [copyinstr] of [kernel/vm.c] against the bytes that
    a process sees through its page table. *)

From S2P Require Import Prelude Riscv Memory CString Kalloc Vm PageTable Mapping.

(** The byte a process with the table at [root] sees at [va]. *)
Definition user_load (m : mem) (root va : Z) : Z :=
  load8 m (PTE2PA (lookup_pte m root va) + va mod 4096).

Definition user_readable (m : mem) (root va : Z) : bool :=
  (va <? MAXVA) && bit (lookup_pte m root va) PTE_V && bit (lookup_pte m root va) PTE_U.
Definition user_writable (m : mem) (root va : Z) : bool :=
  user_readable m root va && bit (lookup_pte m root va) PTE_W.

Section copy.
Context {I : Image}.

(** The pages that a process can reach are its own: each belongs to the one
    virtual page that maps it. *)
Definition user_inv (m : mem) (own : gmap Z role) (root : Z) : Prop :=
  ∀ va, 0 ≤ va → user_readable m root va = true →
    own !! PTE2PA (lookup_pte m root va) = Some (UPage root (va / 4096)).

(** The memory of every process after [src] is written at [dstva] of the
    process [root]. *)
Definition user_upd (m m' : mem) (own : gmap Z role) (root dstva : Z) (src : list Z) : Prop :=
  ∀ r0 va0, is_root own r0 → 0 ≤ va0 < MAXVA →
    own !! PTE2PA (lookup_pte m r0 va0) = Some (UPage r0 (va0 / 4096)) →
    user_load m' r0 va0 =
    if decide (r0 = root ∧ dstva ≤ va0 < dstva + Z.of_nat (length src))
    then default 0 (src !! Z.to_nat (va0 - dstva)) else user_load m r0 va0.

(** Everything a write to a user page leaves alone. *)
Record copy_frame (s : machine) (l : list Z) (own : gmap Z role) (root : Z) (s' : machine) : Prop := {
  cf_inv : pt_inv s' l own;
  cf_tables : tables_agree own (ram s) (ram s');
  cf_other : ∀ q r, own !! q = Some r → (∀ vpn, r ≠ UPage root vpn) → agree (ram s) (ram s') q 4096;
}.

Lemma copy_frame_refl s l own root : pt_inv s l own → copy_frame s l own root s.
Proof using Type. by split. Qed.
Lemma copy_frame_trans s1 s2 s3 l own root :
  copy_frame s1 l own root s2 → copy_frame s2 l own root s3 → copy_frame s1 l own root s3.
Proof using Type.
  intros [H1 T1 O1] [H2 T2 O2]. split; [done| |].
  - intros q a b c Hq. eapply agree_trans; [by eapply T1|by eapply T2].
  - intros q r Hq Hr. eapply agree_trans; [by eapply O1|by eapply O2].
Qed.

Lemma readable_max m root va : user_readable m root va = true → va < MAXVA.
Proof using Type. unfold user_readable. intros H. by bsimpl. Qed.

Lemma readable_page m root va va' :
  va / 4096 = va' / 4096 → user_readable m root va = user_readable m root va'.
Proof using Type.
  intros H. unfold user_readable, lookup_pte. rewrite (lookup_page m 2 root va va') by done.
  f_equal. f_equal. rewrite MAXVA_val. apply eq_true_iff_eq. rewrite !Z.ltb_lt.
  Z.div_mod_to_equations. lia.
Qed.
Lemma writable_page m root va va' :
  va / 4096 = va' / 4096 → user_writable m root va = user_writable m root va'.
Proof using Type.
  intros H. unfold user_writable, lookup_pte.
  by rewrite (readable_page m root va va'), (lookup_page m 2 root va va').
Qed.

Lemma user_tables m' s l own root va :
  pt_inv s l own → tables_agree own (ram s) m' → is_root own root → 0 ≤ va →
  user_readable m' root va = user_readable (ram s) root va ∧
  user_writable m' root va = user_writable (ram s) root va.
Proof using Type.
  intros Hs Ht Hr Hva. unfold user_writable, user_readable. destruct (va <? MAXVA) eqn:E; [|done].
  bsimpl. by rewrite (proj2 (tables_agree_lookup s l own m' root va Hs Ht Hr (conj Hva E))).
Qed.

Lemma user_inv_tables s l own m' root :
  pt_inv s l own → tables_agree own (ram s) m' → is_root own root →
  user_inv (ram s) own root → user_inv m' own root.
Proof using Type.
  intros Hs Ht Hr Hu va Hva. rewrite (proj1 (user_tables m' s l own root va Hs Ht Hr Hva)).
  intros Hv. apply readable_max in Hv as Hm.
  rewrite (proj2 (tables_agree_lookup s l own m' root va Hs Ht Hr (conj Hva Hm))). by apply Hu.
Qed.

Lemma page_split va : va = va / 4096 * 4096 + va mod 4096 ∧ 0 ≤ va mod 4096 < 4096.
Proof using Type. pose proof (Z.div_mod va 4096). pose proof (Z.mod_pos_bound va 4096). lia. Qed.

(** One [memmove] of [copyout]: some bytes inside the page that maps [va]. *)
Lemma store_user s l own root va src :
  pt_inv s l own → is_root own root → 0 ≤ va < MAXVA → Forall (λ b, 0 ≤ b < 256) src →
  own !! PTE2PA (lookup_pte (ram s) root va) = Some (UPage root (va / 4096)) →
  va mod 4096 + Z.of_nat (length src) ≤ 4096 →
  let s' := set_ram (λ m, store_bytes m (PTE2PA (lookup_pte (ram s) root va) + va mod 4096) src) s in
  copy_frame s l own root s' ∧ user_upd (ram s) (ram s') own root va src.
Proof using Type.
  intros Hs Hr Hva Hsrc Hown Hlen s'. set (pa := PTE2PA (lookup_pte (ram s) root va)) in *.
  assert (page_ok pa) as Hpa by by eapply pt_page. pose proof (page_split va) as [Hsp Hoff].
  assert (∀ q r, own !! q = Some r → r ≠ UPage root (va / 4096) → agree (ram s) (ram s') q 4096)
    as Hother.
  { intros q r Hq Hne x Hx. unfold s', set_ram; cbn [ram].
    rewrite load8_store_bytes, decide_False; [done|].
    assert (page_ok q) as [Hqa _] by by eapply pt_page. destruct Hpa as [Hpal _].
    destruct (page_disj pa q); [done|done|congruence|lia|lia]. }
  assert (tables_agree own (ram s) (ram s')) as Ht by (intros q a b c Hq; by eapply Hother).
  split; [split; [|done|]|].
  - eapply (pt_inv_pres s l own s' l own); try done; [|apply Hs|apply Hs].
    destruct (pt_kmem _ _ _ Hs) as [Hb Hl Hn Hp]. split; try done.
    + apply store_bytes_ok, Hb.
    + eapply (fl_rep_outside pa); [done| |apply Hpa|done|].
      * intros x Hx. unfold s', set_ram; cbn [ram].
        rewrite load8_store_bytes, decide_False by lia. done.
      * intros Hin. by rewrite (pt_free _ _ _ Hs pa Hin) in Hown.
  - intros q r Hq Hne. eapply Hother; [done|]. by eapply Hne.
  - intros r0 va0 Hr0 Hva0 Hown0. unfold user_load.
    rewrite (proj2 (tables_agree_lookup s l own (ram s') r0 va0 Hs Ht Hr0 Hva0)).
    set (pa0 := PTE2PA (lookup_pte (ram s) r0 va0)) in *.
    unfold s', set_ram; cbn [ram]. rewrite load8_store_bytes.
    pose proof (page_split va0) as [Hsp0 Hoff0].
    assert (page_ok pa0) as [Hp0a _] by by eapply pt_page. destruct Hpa as [Hpal _].
    destruct (decide (pa0 = pa)) as [Heq|Hne].
    + rewrite Heq, Hown in Hown0. injection Hown0 as <- Hvpn. rewrite Heq.
      repeat case_decide; try lia.
      replace (pa + va0 mod 4096 - (pa + va mod 4096)) with (va0 - va) by lia.
      assert (Z.to_nat (va0 - va) < length src)%nat as Hlt by lia.
      apply lookup_lt_is_Some in Hlt as [b Hb]. rewrite Hb. cbn. apply u8_id.
      by eapply Forall_lookup_1 in Hsrc.
    + destruct (page_disj pa0 pa Hp0a Hpal Hne) as [?|?];
        rewrite !decide_False; try done; try lia.
      all: intros [-> Hr']; apply Hne; unfold pa0, pa, lookup_pte; f_equal; apply lookup_page; lia.
Qed.

(** ** copyout *)

Lemma user_upd_app s l own root va n src m1 m2 :
  pt_inv s l own → tables_agree own (ram s) m1 → (n ≤ length src)%nat →
  user_upd (ram s) m1 own root va (take n src) →
  user_upd m1 m2 own root (va + Z.of_nat n) (drop n src) →
  user_upd (ram s) m2 own root va src.
Proof using Type.
  intros Hs Ht Hn H1 H2 r0 va0 Hr0 Hva0 Hown.
  rewrite H2; [|done|done|by rewrite (proj2 (tables_agree_lookup s l own m1 r0 va0 Hs Ht Hr0 Hva0))].
  rewrite H1 by done. rewrite length_drop, length_take_le by done.
  destruct (decide (r0 = root)) as [->|]; [|repeat case_decide; naive_solver].
  repeat case_decide; try lia; try done.
  - rewrite lookup_drop. do 2 f_equal. lia.
  - rewrite lookup_take_lt by lia. done.
Qed.

Lemma user_upd_nil m own root va : user_upd m m own root va [].
Proof using Type. intros r0 va0 _ _ _. rewrite decide_False; [done|]. cbn [length]. lia. Qed.

(** Bytes of the chunk that one round copies. *)
Definition chunk (va len : Z) : Z := Z.min len (4096 - va mod 4096).

Lemma chunk_eq va len :
  (if len <? PGSIZE - (va - PGROUNDDOWN va) then len else PGSIZE - (va - PGROUNDDOWN va))
  = chunk va len.
Proof using Type.
  unfold chunk, PGSIZE. rewrite PGROUNDDOWN_mod. case_if E; lia.
Qed.

Lemma pgdown_page va : 0 ≤ va → PGROUNDDOWN va / 4096 = va / 4096 ∧ va - PGROUNDDOWN va = va mod 4096.
Proof using Type.
  intros. rewrite PGROUNDDOWN_mod. pose proof (page_split va). Z.div_mod_to_equations. lia.
Qed.

Lemma pgdown_max va : 0 ≤ va → (MAXVA <=? PGROUNDDOWN va) = (MAXVA <=? va).
Proof using Type.
  intros. rewrite PGROUNDDOWN_mod, MAXVA_val. apply eq_true_iff_eq. rewrite !Z.leb_le.
  Z.div_mod_to_equations. lia.
Qed.

Lemma copyout_body_fail s l own root dstva src len :
  pt_inv s l own → is_root own root → 0 ≤ dstva → 0 < len →
  user_writable (ram s) root dstva = false →
  copyout_body root (dstva, src, len) s = Done (inr (-1)) s.
Proof using Type.
  intros Hs Hr Hva Hlen Hw. unfold copyout_body. case_if E; [|lia]. rewrite pgdown_max by done.
  case_if Em; [done|]. pose proof (pgdown_page dstva Hva) as [Hpg _].
  assert (0 ≤ PGROUNDDOWN dstva < MAXVA) as Hpd
    by (rewrite PGROUNDDOWN_mod; pose proof (page_split dstva); lia).
  rewrite (writable_page _ _ dstva (PGROUNDDOWN dstva)) in Hw by done.
  unfold user_writable, user_readable in Hw. rewrite (proj2 (Z.ltb_lt _ _)) in Hw by lia.
  unfold mbind, M_bind. rewrite walk_noalloc by lia. cbn [obind].
  destruct (walk_root s l own root (PGROUNDDOWN dstva)) as [[-> _]|(p & _ & -> & Hne & Hl)];
    try done.
  rewrite (proj2 (Z.eqb_neq _ _) Hne). unfold load_pte, gets. cbn [obind]. rewrite <-Hl.
  unfold bit in Hw. cbn [andb] in Hw.
  destruct (Z.land _ PTE_V =? 0), (Z.land _ PTE_U =? 0), (Z.land _ PTE_W =? 0); done.
Qed.

Lemma copyout_body_ok s l own root dstva src len :
  pt_inv s l own → is_root own root → 0 ≤ dstva → 0 < len → Z.of_nat (length src) = len →
  Forall (λ b, 0 ≤ b < 256) src →
  user_inv (ram s) own root → user_writable (ram s) root dstva = true →
  let n := Z.to_nat (chunk dstva len) in
  wp (copyout_body root (dstva, src, len)) (λ r s',
    r = inl (PGROUNDDOWN dstva + 4096, drop n src, len - chunk dstva len) ∧
    copy_frame s l own root s' ∧ user_upd (ram s) (ram s') own root dstva (take n src)) s.
Proof using Type.
  intros Hs Hr Hva Hlen Hsrc Hb Hu Hw n.
  assert (user_readable (ram s) root dstva = true) as Hrd by (unfold user_writable in Hw; by bsimpl).
  assert (dstva < MAXVA) as Hmax by by eapply readable_max.
  pose proof (page_split dstva) as [Hsp Hoff]. pose proof (pgdown_page dstva Hva) as [Hpg Hpo].
  unfold copyout_body. case_if E; [|lia]. rewrite pgdown_max by done.
  case_if Em; [lia|].
  assert (0 ≤ PGROUNDDOWN dstva < MAXVA) as Hpd by (rewrite PGROUNDDOWN_mod; lia).
  apply wp_bind. eapply wp_intro; [apply walk_noalloc; lia|].
  assert (lookup_pte (ram s) root (PGROUNDDOWN dstva) = lookup_pte (ram s) root dstva) as Hlk
    by by apply lookup_page.
  destruct (walk_root s l own root (PGROUNDDOWN dstva)) as [[_ H0]|(p & _ & -> & Hne & Hl)];
    try done.
  { rewrite Hlk in H0. unfold user_readable in Hrd. rewrite H0 in Hrd. bsimpl. done. }
  rewrite (proj2 (Z.eqb_neq _ _) Hne). unfold load_pte. wp_steps. rewrite <-Hl, Hlk.
  unfold user_writable, user_readable, bit in Hw. bsimpl.
  repeat match goal with H : (_ =? 0) = false |- _ => rewrite H; clear H end.
  repeat match goal with H : Z.land _ _ ≠ 0 |- _ => rewrite (proj2 (Z.eqb_neq _ _) H); clear H end.
  cbn [orb]. rewrite chunk_eq, Hpo.
  assert (0 < chunk dstva len ≤ len ∧ dstva mod 4096 + chunk dstva len ≤ 4096) as Hc
    by (unfold chunk; lia).
  case_if Es; [lia|]. wp_steps. fold n. split.
  - rewrite u64_page by (rewrite MAXVA_val in Hpd; lia). done.
  - apply store_user; try done; [by apply Forall_take|by apply Hu|].
    rewrite length_take_le by lia. unfold n. lia.
Qed.

Lemma user_upd_nil_any m m' own root va va' :
  user_upd m m' own root va [] → user_upd m m' own root va' [].
Proof using Type.
  intros H r0 va0 ???. rewrite H by done. cbn [length]. by rewrite !decide_False by lia.
Qed.

Lemma copyout_loop fuel s l own root dstva src :
  pt_inv s l own → is_root own root → 0 ≤ dstva → (length src < fuel)%nat →
  Forall (λ b, 0 ≤ b < 256) src → user_inv (ram s) own root →
  wp (loopM fuel (copyout_body root) (dstva, src, Z.of_nat (length src))) (λ r s', ∃ k,
    copy_frame s l own root s' ∧ user_upd (ram s) (ram s') own root dstva (take k src) ∧
    (∀ va, dstva ≤ va < dstva + Z.of_nat k → user_writable (ram s) root va = true) ∧
    (r = 0 ∧ k = length src ∨
     r = -1 ∧ (k < length src)%nat ∧ user_writable (ram s) root (dstva + Z.of_nat k) = false)) s.
Proof using Type.
  revert s dstva src. induction fuel as [|fuel IH]; intros s dstva src Hs Hr Hva Hf Hb Hu; [lia|].
  cbn [loopM]. apply wp_bind. destruct (decide (length src = 0%nat)) as [E0|E0].
  { destruct src; [|done]. apply wp_ret, wp_ret. exists 0%nat. split_and!; [by apply copy_frame_refl|
      apply user_upd_nil|lia|by left]. }
  destruct (user_writable (ram s) root dstva) eqn:Ew.
  2:{ eapply wp_intro; [eapply copyout_body_fail; try done; lia|]. apply wp_ret. exists 0%nat.
      rewrite take_0, Z.add_0_r. split_and!; [by apply copy_frame_refl|apply user_upd_nil|lia|].
      right. split_and!; [done|lia|done]. }
  eapply wp_mono; [apply (copyout_body_ok s l own); try done; lia|].
  intros r s1 (-> & Hf1 & Hu1). cbn beta iota. pose proof (page_split dstva) as [Hsp Hoff].
  set (c := chunk dstva (Z.of_nat (length src))) in *.
  assert (0 < c ≤ Z.of_nat (length src) ∧ dstva mod 4096 + c ≤ 4096) as Hc
    by (unfold c, chunk; lia).
  set (src' := drop (Z.to_nat c) src).
  replace (Z.of_nat (length src) - c) with (Z.of_nat (length src'))
    by (unfold src'; rewrite length_drop; lia).
  assert (PGROUNDDOWN dstva + 4096 = dstva + c ∨ src' = []) as Hnext.
  { rewrite PGROUNDDOWN_mod. destruct (decide (c = Z.of_nat (length src))) as [Ec|Ec].
    - right. unfold src'. apply drop_ge. lia.
    - left. unfold c, chunk in *. lia. }
  eapply wp_mono; [apply (IH s1)|]; try done.
  { apply Hf1. } { rewrite PGROUNDDOWN_mod. lia. } { unfold src'. rewrite length_drop. lia. }
  { by apply Forall_drop. } { eapply user_inv_tables; [done|apply Hf1|done|done]. }
  intros r s2 (k & Hf2 & Hu2 & Hk & Hres). exists (Z.to_nat c + k)%nat.
  assert (∀ va, dstva ≤ va < dstva + c → user_writable (ram s) root va = true) as Hfirst.
  { intros va Hr'. rewrite (writable_page _ _ va dstva); [done|]. Z.div_mod_to_equations. lia. }
  assert (k ≤ length src')%nat as Hkl by (destruct Hres; lia).
  assert (∀ va, 0 ≤ va → user_writable (ram s1) root va = user_writable (ram s) root va) as Hww
    by (intros va Hv; by apply (user_tables (ram s1) s l own root va Hs (cf_tables _ _ _ _ _ Hf1))).
  split_and!.
  - by eapply copy_frame_trans.
  - eapply (user_upd_app s l own root dstva (Z.to_nat c) _ (ram s1)); [done|apply Hf1| | |].
    + rewrite length_take. lia.
    + rewrite take_take, Nat.min_l by lia. done.
    + rewrite <-take_drop_commute. fold src'. rewrite Z2Nat.id by lia.
      destruct Hnext as [<-|Hnil]; [done|]. rewrite Hnil, take_nil in *. by eapply user_upd_nil_any.
  - intros va Hv. destruct (decide (va < dstva + c)); [apply Hfirst; lia|].
    rewrite <-Hww by lia. apply Hk. destruct Hnext as [->|Hnil]; [lia|].
    rewrite Hnil in Hkl. cbn in Hkl. lia.
  - destruct Hres as [[-> ->]|(-> & Hlt & Hbad)].
    + left. split; [done|]. unfold src'. rewrite length_drop. lia.
    + right. split_and!; [done| |].
      * unfold src' in Hlt. rewrite length_drop in Hlt. lia.
      * rewrite Hww in Hbad by (rewrite PGROUNDDOWN_mod; lia).
        destruct Hnext as [Heq|Hnil]; [|rewrite Hnil in Hlt; cbn in Hlt; lia].
        rewrite <-Hbad. f_equal. lia.
Qed.

(** ** copyin *)

(** The [n] bytes that the process sees from [va] on. *)
Definition user_bytes (m : mem) (root va : Z) (n : nat) : list Z :=
  (λ i : nat, user_load m root (va + Z.of_nat i)) <$> seq 0 n.

Lemma user_bytes_app m root va n k :
  user_bytes m root va (n + k) = user_bytes m root va n ++ user_bytes m root (va + Z.of_nat n) k.
Proof using Type.
  unfold user_bytes. rewrite seq_app, fmap_app. f_equal. cbn [Nat.add].
  rewrite <-(Nat.add_0_r n) at 1. rewrite <-fmap_add_seq, <-list_fmap_compose.
  apply list_fmap_ext. intros i j _. cbn [compose]. f_equal. lia.
Qed.

Lemma user_bytes_page m root va n :
  0 ≤ va → va mod 4096 + Z.of_nat n ≤ 4096 →
  load_bytes m (PTE2PA (lookup_pte m root va) + va mod 4096) n = user_bytes m root va n.
Proof using Type.
  intros Hva Hn. apply list_eq. intros i. unfold user_bytes. rewrite list_lookup_fmap.
  destruct (decide (i < n)%nat).
  - rewrite load_bytes_lookup, lookup_seq_lt by done. cbn [fmap option_fmap option_map Nat.add].
    f_equal. unfold user_load, lookup_pte. rewrite (lookup_page m 2 root (va + Z.of_nat i) va).
    + f_equal. Z.div_mod_to_equations. lia.
    + Z.div_mod_to_equations. lia.
  - rewrite !lookup_ge_None_2; [done| |by rewrite length_load_bytes; lia].
    rewrite length_seq. lia.
Qed.

Lemma walkaddr_page s l own root va :
  pt_inv s l own → is_root own root → 0 ≤ va → user_inv (ram s) own root →
  walkaddr root (PGROUNDDOWN va) s =
    Done (if user_readable (ram s) root va then PTE2PA (lookup_pte (ram s) root va) else 0) s ∧
  (user_readable (ram s) root va = true → PTE2PA (lookup_pte (ram s) root va) ≠ 0).
Proof using Type.
  intros Hs Hr Hva Hu. pose proof (pgdown_page va Hva) as [Hpg _].
  assert (0 ≤ PGROUNDDOWN va) by (rewrite PGROUNDDOWN_mod; Z.div_mod_to_equations; lia).
  rewrite (walkaddr_eq s l own root) by done. rewrite pgdown_max by done. split.
  - unfold user_readable, leaf_pa, lookup_pte. rewrite (lookup_page _ 2 root (PGROUNDDOWN va) va Hpg).
    rewrite Z.leb_antisym. destruct (va <? MAXVA); [|done]. cbn [negb andb]. done.
  - intros Hrd. apply Hu in Hrd; [|done].
    pose proof (page_ok_pos _ (pt_page _ _ _ Hs _ _ Hrd)). unfold KERNBASE in *. lia.
Qed.

Lemma copyin_loop fuel s l own root srcva dst (len : nat) :
  pt_inv s l own → is_root own root → 0 ≤ srcva → (len < fuel)%nat → user_inv (ram s) own root →
  wp (loopM fuel (copyin_body root) (srcva, dst, Z.of_nat len)) (λ r s', s' = s ∧ ∃ k,
    r.2 = dst ++ user_bytes (ram s) root srcva k ∧
    (∀ va, srcva ≤ va < srcva + Z.of_nat k → user_readable (ram s) root va = true) ∧
    (r.1 = 0 ∧ k = len ∨
     r.1 = -1 ∧ (k < len)%nat ∧ user_readable (ram s) root (srcva + Z.of_nat k) = false)) s.
Proof using Type.
  revert srcva dst len. induction fuel as [|fuel IH]; intros srcva dst len Hs Hr Hva Hf Hu; [lia|].
  cbn [loopM]. apply wp_bind. unfold copyin_body at 1. case_if E0.
  2:{ assert (len = 0%nat) as -> by lia. apply wp_ret, wp_ret. split; [done|]. exists 0%nat.
      cbn. rewrite app_nil_r. split_and!; [done|lia|by left]. }
  destruct (walkaddr_page s l own root srcva Hs Hr Hva Hu) as [Hwa Hnz].
  apply wp_bind. eapply wp_intro; [exact Hwa|].
  destruct (user_readable (ram s) root srcva) eqn:Er.
  2:{ apply wp_ret, wp_ret. split; [done|]. exists 0%nat. cbn. rewrite app_nil_r, Z.add_0_r.
      split_and!; [done|lia|]. right. split_and!; [done|lia|done]. }
  rewrite (proj2 (Z.eqb_neq _ _) (Hnz eq_refl)), chunk_eq. wp_steps.
  pose proof (page_split srcva) as [Hsp Hoff]. pose proof (readable_max _ _ _ Er) as Hmax.
  rewrite MAXVA_val in Hmax. set (c := chunk srcva (Z.of_nat len)) in *.
  assert (0 < c ≤ Z.of_nat len ∧ srcva mod 4096 + c ≤ 4096) as Hc by (unfold c, chunk; lia).
  rewrite u64_page by (rewrite PGROUNDDOWN_mod; lia).
  rewrite (proj2 (pgdown_page srcva Hva)), user_bytes_page by lia.
  replace (Z.of_nat len - c) with (Z.of_nat (len - Z.to_nat c)) by lia.
  eapply wp_mono; [apply IH; try done; [rewrite PGROUNDDOWN_mod; lia|lia]|].
  intros [r bytes] s' (-> & k & Hb & Hk & Hres). cbn [fst snd] in *. split; [done|].
  assert (PGROUNDDOWN srcva + 4096 = srcva + c ∨ (len - Z.to_nat c = 0)%nat) as Hnext
    by (rewrite PGROUNDDOWN_mod; unfold c, chunk in *; lia).
  exists (Z.to_nat c + k)%nat. split_and!.
  - rewrite Hb, user_bytes_app, <-app_assoc. do 2 f_equal. rewrite Z2Nat.id by lia.
    destruct Hnext as [->|Hz]; [done|]. assert (k = 0)%nat as -> by lia. done.
  - intros va Hv. destruct (decide (va < srcva + c)).
    + rewrite (readable_page _ _ va srcva); [done|]. Z.div_mod_to_equations. lia.
    + apply Hk. lia.
  - destruct Hres as [[-> ->]|(-> & Hlt & Hbad)]; [left; lia|right].
    split_and!; [done|lia|]. rewrite <-Hbad. f_equal. lia.
Qed.

(** ** copyinstr *)

Lemma copyinstr_page_spec m p n :
  let '(bs, got_null) := copyinstr_page m p n in
  bs = load_bytes m p (length bs) ∧ (length bs ≤ n)%nat ∧
  if got_null then ∃ str, bs = str ++ [0] ∧ Forall (λ c, c ≠ 0) str
  else length bs = n ∧ Forall (λ c, c ≠ 0) bs.
Proof using Type.
  revert p. induction n as [|n IH]; intros p; cbn [copyinstr_page].
  { split_and!; [done|done|done|constructor]. }
  case_if E.
  - split_and!; [cbn; by rewrite E|cbn; lia|]. exists []. split; [done|constructor].
  - specialize (IH (p + 1)). destruct (copyinstr_page m (p + 1) n) as [bs got].
    destruct IH as (Hb & Hl & Hg). cbn [length load_bytes]. split_and!; [by f_equal|lia|].
    destruct got.
    + destruct Hg as (str & -> & Hs). exists (load8 m p :: str). split; [done|by constructor].
    + destruct Hg as [<- Hs]. split; [done|by constructor].
Qed.

(** The result of [copyinstr]: the string up to and with its NUL, or as many
    bytes as could be read within [max]. *)
Definition copyinstr_post (m : mem) (root srcva : Z) (max : nat) (r : Z) (bs : list Z) : Prop :=
  bs = user_bytes m root srcva (length bs) ∧ (length bs ≤ max)%nat ∧
  (r = 0 ∧ (∃ str, bs = str ++ [0] ∧ Forall (λ c, c ≠ 0) str) ∨
   r = -1 ∧ Forall (λ c, c ≠ 0) bs ∧
   (length bs = max ∨ user_readable m root (srcva + Z.of_nat (length bs)) = false)).

Lemma copyinstr_loop fuel s l own root srcva dst (max : nat) :
  pt_inv s l own → is_root own root → 0 ≤ srcva → (S max < fuel)%nat → user_inv (ram s) own root →
  wp (loopM fuel (copyinstr_body root) (srcva, dst, Z.of_nat max, false)) (λ r s', s' = s ∧
    ∃ bs, r.2 = dst ++ bs ∧ copyinstr_post (ram s) root srcva max r.1 bs) s.
Proof using Type.
  revert srcva dst max. induction fuel as [|fuel IH]; intros srcva dst max Hs Hr Hva Hf Hu; [lia|].
  cbn [loopM]. apply wp_bind. unfold copyinstr_body at 1. cbn [negb andb]. case_if E0.
  2:{ assert (max = 0%nat) as -> by lia. apply wp_ret, wp_ret. split; [done|]. exists [].
      cbn. rewrite app_nil_r. split_and!; [done|]. split_and!; [done|done|]. right.
      split_and!; [done|constructor|by left]. }
  destruct (walkaddr_page s l own root srcva Hs Hr Hva Hu) as [Hwa Hnz].
  apply wp_bind. eapply wp_intro; [exact Hwa|].
  destruct (user_readable (ram s) root srcva) eqn:Er.
  2:{ apply wp_ret, wp_ret. split; [done|]. exists []. cbn. rewrite app_nil_r.
      split; [done|]. split_and!; [done|cbn; lia|]. right. split_and!; [done|constructor|].
      right. cbn. by rewrite Z.add_0_r. }
  rewrite (proj2 (Z.eqb_neq _ _) (Hnz eq_refl)), chunk_eq. wp_steps.
  pose proof (page_split srcva) as [Hsp Hoff]. pose proof (readable_max _ _ _ Er) as Hmax.
  rewrite MAXVA_val in Hmax. set (c := chunk srcva (Z.of_nat max)) in *.
  assert (0 < c ≤ Z.of_nat max ∧ srcva mod 4096 + c ≤ 4096) as Hc by (unfold c, chunk; lia).
  rewrite (proj2 (pgdown_page srcva Hva)), u64_page by (rewrite PGROUNDDOWN_mod; lia).
  pose proof (copyinstr_page_spec (ram s)
    (PTE2PA (lookup_pte (ram s) root srcva) + srcva mod 4096) (Z.to_nat c)) as Hpage.
  destruct (copyinstr_page _ _ _) as [bs got]. destruct Hpage as (Hb & Hl & Hg).
  rewrite user_bytes_page in Hb by lia. apply wp_ret. destruct got.
  - destruct fuel as [|fuel]; [lia|]. cbn [loopM]. apply wp_bind, wp_ret, wp_ret.
    split; [done|]. exists bs. split; [done|]. split_and!; [done|lia|by left].
  - destruct Hg as [Hlen Hnz'].
    replace (Z.of_nat max - c) with (Z.of_nat (max - Z.to_nat c)) by lia.
    eapply wp_mono; [apply IH; try done; [rewrite PGROUNDDOWN_mod; lia|lia]|].
    intros [r bytes] s' (-> & bs' & Hb' & Hu' & Hl' & Hres). cbn [fst snd] in *. split; [done|].
    assert (PGROUNDDOWN srcva + 4096 = srcva + c ∨ (max - Z.to_nat c = 0)%nat) as Hnext
      by (rewrite PGROUNDDOWN_mod; unfold c, chunk in *; lia).
    assert (bs' = user_bytes (ram s) root (srcva + c) (length bs')) as Hu2.
    { destruct Hnext as [<-|Hz]; [done|]. by destruct bs'; [|cbn in Hl'; lia]. }
    exists (bs ++ bs'). split; [by rewrite Hb', app_assoc|].
    unfold copyinstr_post. rewrite length_app. split_and!.
    + rewrite user_bytes_app, <-Hb. f_equal. rewrite Hu2 at 1. do 2 f_equal. lia.
    + lia.
    + destruct Hres as [(-> & str & -> & Hstr)|(-> & Hnz2 & Hend)].
      * left. split; [done|]. exists (bs ++ str). split; [by rewrite app_assoc|].
        by apply Forall_app.
      * right. split_and!; [done|by apply Forall_app|].
        destruct Hend as [?|Hbad]; [left; lia|].
        destruct Hnext as [Heq|Hz]; [right; rewrite <-Hbad; f_equal; lia|left; lia].
Qed.

(** ** Theorems *)

(** C36: [copyout] writes the longest prefix of the source that lies in pages
    the process may write: it returns 0 when that is all of it and -1 otherwise,
    and then the first byte left out is at an address the process may not write.
    No other byte of any process and no page table changes. *)
Theorem copyout_spec s l own root dstva src :
  pt_inv s l own → is_root own root → user_inv (ram s) own root →
  0 ≤ dstva → Forall (λ b, 0 ≤ b < 256) src →
  wp (copyout root dstva src (Z.of_nat (length src))) (λ r s', ∃ k,
    copy_frame s l own root s' ∧ user_upd (ram s) (ram s') own root dstva (take k src) ∧
    (∀ va, dstva ≤ va < dstva + Z.of_nat k → user_writable (ram s) root va = true) ∧
    (r = 0 ∧ k = length src ∨
     r = -1 ∧ (k < length src)%nat ∧ user_writable (ram s) root (dstva + Z.of_nat k) = false)) s.
Proof using Type. intros. unfold copyout. rewrite Nat2Z.id. apply copyout_loop; done || lia. Qed.

(** [copyin] returns the bytes the process sees, stopping with -1 at the
    first address it may not read, and changes nothing. *)
Theorem copyin_spec s l own root srcva (len : nat) :
  pt_inv s l own → is_root own root → user_inv (ram s) own root → 0 ≤ srcva →
  wp (copyin root srcva (Z.of_nat len)) (λ r s', s' = s ∧ ∃ k,
    r.2 = user_bytes (ram s) root srcva k ∧
    (∀ va, srcva ≤ va < srcva + Z.of_nat k → user_readable (ram s) root va = true) ∧
    (r.1 = 0 ∧ k = len ∨
     r.1 = -1 ∧ (k < len)%nat ∧ user_readable (ram s) root (srcva + Z.of_nat k) = false)) s.
Proof using Type.
  intros. unfold copyin. rewrite Nat2Z.id.
  eapply wp_mono; [by apply (copyin_loop _ s l own root srcva [] len); try lia|]. done.
Qed.

(** [copyinstr] returns 0 exactly when it has read a NUL within [max]
    readable bytes, and has then copied the string with its NUL; in every case
    what it copied are the bytes the process sees, never more than [max]. *)
Theorem copyinstr_spec s l own root srcva (max : nat) :
  pt_inv s l own → is_root own root → user_inv (ram s) own root → 0 ≤ srcva →
  wp (copyinstr root srcva (Z.of_nat max)) (λ r s', s' = s ∧
    copyinstr_post (ram s) root srcva max r.1 r.2) s.
Proof using Type.
  intros. unfold copyinstr. rewrite Nat2Z.id.
  eapply wp_mono; [by apply (copyinstr_loop _ s l own root srcva [] max); try lia|].
  intros r s' (-> & bs & -> & Hp). done.
Qed.

(** C25: What [copyout] has stored, [copyin] reads back. *)
Theorem copyout_copyin s l own root va src :
  pt_inv s l own → is_root own root → user_inv (ram s) own root →
  0 ≤ va → Forall (λ b, 0 ≤ b < 256) src →
  (∀ va0, va ≤ va0 < va + Z.of_nat (length src) → user_writable (ram s) root va0 = true) →
  wp (r ← copyout root va src (Z.of_nat (length src));
      p ← copyin root va (Z.of_nat (length src)); mret (r, p))
     (λ r _, r = (0, (0, src))) s.
Proof using Type.
  intros Hs Hr Hu Hva Hb Hw. apply wp_bind. unfold copyout. rewrite Nat2Z.id.
  eapply wp_mono; [apply (copyout_loop _ s l own root va src); done || lia|].
  intros r s1 (k & [Hs1 Ht Ho] & Hupd & _ & [[-> ->]|(-> & Hlt & Hbad)]).
  2:{ rewrite Hw in Hbad by lia. done. }
  apply wp_bind. unfold copyin. rewrite Nat2Z.id.
  assert (user_inv (ram s1) own root) as Hu1 by exact (user_inv_tables s l own (ram s1) root Hs Ht Hr Hu).
  eapply wp_mono; [apply (copyin_loop _ s1 l own root va [] (length src)); done || lia|].
  intros [r bs] s2 (-> & k & Hbs & _ & Hres). cbn [fst snd app] in *.
  assert (∀ va0, va ≤ va0 < va + Z.of_nat (length src) → user_readable (ram s) root va0 = true) as Hrd.
  { intros va0 Hv. specialize (Hw va0 Hv). unfold user_writable in Hw. by bsimpl. }
  destruct Hres as [[-> ->]|(_ & Hlt & Hbad)].
  2:{ assert (0 ≤ va + Z.of_nat k) as Hk by lia.
      rewrite (proj1 (user_tables (ram s1) s l own root _ Hs Ht Hr Hk)), Hrd in Hbad by lia. done. }
  apply wp_ret. do 2 f_equal. rewrite Hbs. apply list_eq_same_length with (length src);
    [done|by unfold user_bytes; rewrite length_fmap, length_seq|].
  intros i x y Hi Hx Hy. unfold user_bytes in Hx. rewrite list_lookup_fmap, lookup_seq_lt in Hx by done.
  injection Hx as <-. cbn [Nat.add]. rewrite firstn_all in Hupd.
  assert (user_readable (ram s) root (va + Z.of_nat i) = true) as Hri by (apply Hrd; lia).
  rewrite Hupd; [|done| |by apply Hu; [lia|]].
  2:{ apply readable_max in Hri. lia. }
  rewrite decide_True by lia. replace (Z.to_nat (va + Z.of_nat i - va)) with i by lia. by rewrite Hy.
Qed.
End copy.
