(* ===== verification/Uvm.v ===== *)
(** * User address spaces

    [uvmcreate], [uvmalloc], [uvmdealloc], [uvmcopy], [freewalk] and [uvmfree]
    of [kernel/vm.c] against [aspace], the address space of a process: the
    pages below its size are its own and mapped, those above are not. *)

From S2P Require Import Prelude Riscv Memory CString Kalloc Vm PageTable Mapping UserCopy.

Section uvm.
Context {I : Image}.

(** ** Address spaces *)

Record aspace (s : machine) (own : gmap Z role) (root sz : Z) : Prop := {
  as_root : is_root own root;
  as_mapped : ∀ va, 0 ≤ va < PGROUNDUP sz → mapped_user s own root va;
  as_free : ∀ va, PGROUNDUP sz ≤ va < TRAPFRAME → bit (lookup_pte (ram s) root va) PTE_V = false;
  as_top : ∀ va, TRAPFRAME ≤ va < MAXVA → bit (lookup_pte (ram s) root va) PTE_U = false;
  as_pages : ∀ p vpn, own !! p = Some (UPage root vpn) →
    0 ≤ vpn * 4096 < PGROUNDUP sz ∧ PTE2PA (lookup_pte (ram s) root (vpn * 4096)) = p;
}.

(** ** Frames

    What an operation on the table at [root] that adds pages between [lo] and
    [hi] leaves of the rest of the system. *)
Record vm_frame (root lo hi : Z) (s : machine) (l : list Z) (own : gmap Z role)
    (s' : machine) (l' : list Z) (own' : gmap Z role) : Prop := {
  vf_own : own ⊆ own';
  vf_data : ∀ p r, own !! p = Some r → (∀ a b c, r ≠ PT a b c) → agree (ram s) (ram s') p 4096;
  vf_free : ∀ p, p ∈ l' → p ∈ l;
  vf_new : ∀ p r, own' !! p = Some r → own !! p = Some r ∨
    p ∈ l ∧ ((∃ b c, r = PT root b c) ∨ ∃ vpn, r = UPage root vpn ∧ lo ≤ vpn * 4096 < hi);
  vf_all : ∀ p, p ∈ l → p ∈ l' ∨ is_Some (own' !! p);
  vf_lookup : ∀ r0 va0, is_root own r0 → 0 ≤ va0 < MAXVA → ¬ (r0 = root ∧ lo ≤ va0 < hi) →
    lookup_pte (ram s') r0 va0 = lookup_pte (ram s) r0 va0;
}.

Definition same_lookups (m m' : mem) (own : gmap Z role) : Prop :=
  ∀ r0 va0, is_root own r0 → 0 ≤ va0 < MAXVA → lookup_pte m' r0 va0 = lookup_pte m r0 va0.

Lemma vm_frame_pt root lo s l own s' l' own' :
  pt_frame root s l own s' l' own' → same_lookups (ram s) (ram s') own →
  vm_frame root lo lo s l own s' l' own'.
Proof using Type.
  intros [Ho D Fr N A] Hl. split; try done.
  - intros p r [?|[??]]%N; [by left|right; auto].
  - intros. by apply Hl.
Qed.

Lemma vm_frame_widen root lo hi lo' hi' s l own s' l' own' :
  lo' ≤ lo → hi ≤ hi' →
  vm_frame root lo hi s l own s' l' own' → vm_frame root lo' hi' s l own s' l' own'.
Proof using Type.
  intros Hlo Hhi [Ho D Fr N A L]. split; try done.
  - intros p r [?|[? [?|(vpn & -> & ?)]]]%N; [by left|right; eauto..].
    split; [done|]. right. exists vpn. split; [done|lia].
  - intros r0 va0 Hr0 Hva0 Hn. apply L; [done|done|]. intros [-> ?]. apply Hn. split; [done|lia].
Qed.

Lemma vm_frame_trans root lo hi s1 l1 o1 s2 l2 o2 s3 l3 o3 :
  vm_frame root lo hi s1 l1 o1 s2 l2 o2 → vm_frame root lo hi s2 l2 o2 s3 l3 o3 →
  vm_frame root lo hi s1 l1 o1 s3 l3 o3.
Proof using Type.
  intros [Ho D Fr N A L] [Ho' D' Fr' N' A' L']. split.
  - by etrans.
  - intros p r Hp Hr. eapply agree_trans; [by eapply D|].
    eapply D'; [by eapply lookup_weaken|done].
  - auto.
  - intros p r [Hp|[Hp Hn]]%N'; [by apply N|]. right. auto.
  - intros p [?%A'|[r Hr]]%A; [done|]. right. exists r. by eapply lookup_weaken.
  - intros r0 va0 Hr0 Hva0 Hn. rewrite L', L; try done. by eapply lookup_weaken.
Qed.

Lemma is_root_vm root lo hi s l own s' l' own' r0 :
  vm_frame root lo hi s l own s' l' own' → is_root own r0 → is_root own' r0.
Proof using Type. intros Hf Hr. eapply lookup_weaken; [exact Hr|apply Hf]. Qed.

(** ** A new page *)

Lemma same_outside_tables q m m' s l own :
  pt_inv s l own → page_ok q → own !! q = None →
  same_outside q m m' → tables_agree own m m' ∧
  ∀ p r, own !! p = Some r → agree m m' p 4096.
Proof using Type.
  intros Hs [Hqa _] Hq Ho.
  assert (∀ p r, own !! p = Some r → agree m m' p 4096) as H.
  { intros p r Hp. assert (page_ok p) as [Hpa _] by by eapply pt_page.
    apply (same_outside_page q); try done. congruence. }
  split; [|done]. intros p a b c Hp. by eapply H.
Qed.

Lemma kalloc_role s l own :
  pt_inv s l own →
  wp kalloc (λ q s1, q = 0 ∧ l = [] ∧ s1 = s ∨
    ∃ l1, l = q :: l1 ∧ q ≠ 0 ∧ page_ok q ∧ own !! q = None ∧ q ∉ l1 ∧
      pt_inv s1 l1 own ∧ same_outside q (ram s) (ram s1)) s.
Proof using Type.
  intros Hs. destruct l as [|q l].
  { eapply wp_intro; [apply kalloc_none, Hs|]. by left. }
  eapply wp_mono; [apply (kalloc_wp_some s q l), Hs|]. intros r s1 (-> & Hk & Hout & _).
  destruct (link_fresh s l own q Hs) as (Hq & Hfresh & Hql). right. exists l.
  pose proof (page_ok_pos q Hq) as Hpos.
  split_and!; try done; [unfold KERNBASE in *; lia|].
  destruct (same_outside_tables q (ram s) (ram s1) s (q :: l) own) as [Ht _]; try done.
  eapply pt_inv_pres; [done|done| |apply Hs|done|done].
  intros p Hp. apply (pt_free _ _ _ Hs). by right.
Qed.

(** The page [q] is filled and gets a role. *)
Lemma give_role s l own q r s2 :
  pt_inv s l own → page_ok q → own !! q = None → q ∉ l → (∀ a b c, r ≠ PT a b c) →
  same_outside q (ram s) (ram s2) → bytes_ok (ram s2) → freelist s2 = freelist s →
  pt_inv s2 l (<[q := r]> own).
Proof using Type.
  intros Hs Hq Hfresh Hql Hr Hout Hb Hfl.
  destruct (same_outside_tables q (ram s) (ram s2) s l own) as [Ht _]; try done.
  destruct (pt_kmem _ _ _ Hs) as [_ Hkl Hkn Hkp].
  eapply pt_inv_pres; [done| | | | |done].
  - split; [done| |done|done]. rewrite Hfl. eapply fl_rep_outside; try done. apply Hq.
  - intros p Hp. rewrite lookup_insert_ne by (intros ->; done). by apply Hs.
  - intros p r'. rewrite lookup_insert. case_decide; [by subst|]. apply Hs.
  - intros p a b c. rewrite lookup_insert. case_decide as E; [|done].
    subst p. rewrite Hfresh. split; [|done]. intros [= ->]. by destruct (Hr a b c).
Qed.

(** The state after a new page [q] has been mapped at [va]; [init] is what the
    caller wrote into it before mapping it. *)
Record new_page (init : Z → mem → mem) (s : machine) (l : list Z) (own : gmap Z role)
    (root va perm : Z) (s' : machine) (l' : list Z) (own' : gmap Z role) (q : Z) : Prop := {
  np_inv : pt_inv s' l' own';
  np_frame : vm_frame root va (va + 4096) s l own s' l' own';
  np_role : own' !! q = Some (UPage root (va / 4096));
  np_lookup : upd_lookup (ram s) (ram s') own root va (mk_pte q perm);
  np_page : page_ok q;
  np_new : ∀ p r, own' !! p = Some r → own !! p = Some r ∨ p = q ∨ ∃ b c, r = PT root b c;
  np_len : free_pages l ≤ 3 + free_pages l';
  np_bytes : ∃ m1, bytes_ok m1 ∧ same_outside q (ram s) m1 ∧ agree (init q m1) (ram s') q 4096;
}.

Section new_page.
Context (init : Z → mem → mem).
Hypothesis init_out : ∀ q m, page_ok q → bytes_ok m → same_outside q m (init q m).
Hypothesis init_ok : ∀ q m, bytes_ok m → bytes_ok (init q m).

Lemma new_page_fill s l own q s1 root va :
  pt_inv s (q :: l) own → page_ok q → own !! q = None → q ∉ l →
  pt_inv s1 l own → same_outside q (ram s) (ram s1) → va mod 4096 = 0 →
  let s2 := set_ram (init q) s1 in let own2 := <[q := UPage root (va / 4096)]> own in
  pt_inv s2 l own2 ∧ same_outside q (ram s) (ram s2) ∧ same_lookups (ram s) (ram s2) own ∧
  vm_frame root va (va + 4096) s (q :: l) own s2 l own2.
Proof using init_out init_ok.
  intros Hs Hq Hfresh Hql Hs1 Hout Hal s2 own2.
  assert (bytes_ok (ram s1)) as Hb1 by apply (pt_kmem _ _ _ Hs1).
  assert (same_outside q (ram s) (ram s2)) as Hout2.
  { intros x Hx. unfold s2, set_ram; cbn [ram]. rewrite (init_out q (ram s1) Hq Hb1 x Hx). by apply Hout. }
  assert (pt_inv s2 l own2) as Hs2.
  { apply (give_role s1); try done; [by apply init_out|by apply init_ok]. }
  destruct (same_outside_tables q (ram s) (ram s2) s (q :: l) own) as [Ht Ha]; try done.
  assert (same_lookups (ram s) (ram s2) own) as Hlk.
  { intros r0 va0 Hr0 Hva0. by apply (tables_agree_lookup s (q :: l) own (ram s2) r0 va0). }
  split_and!; try done. split.
  - by apply insert_subseteq.
  - intros p r Hp _. by eapply Ha.
  - intros p Hp. by right.
  - intros p r. unfold own2. rewrite lookup_insert. case_decide as E; [|by left].
    intros [= <-]. right. split; [subst; left|]. right. exists (va / 4096). split; [done|].
    Z.div_mod_to_equations. lia.
  - intros p [->|Hp]%elem_of_cons; [right|by left]. unfold own2. rewrite lookup_insert_eq. eauto.
  - intros r0 va0 Hr0 Hva0 _. by apply Hlk.
Qed.

(** The mapping failed and the page is given back. *)
Lemma new_page_undo s l own q s2 s3 own3 root va :
  pt_inv s (q :: l) own → page_ok q → own !! q = None → q ∉ l → is_root own root →
  same_outside q (ram s) (ram s2) → same_lookups (ram s) (ram s2) own →
  pt_inv s3 [] own3 → pt_frame root s2 l (<[q := UPage root (va / 4096)]> own) s3 [] own3 →
  same_lookups (ram s2) (ram s3) (<[q := UPage root (va / 4096)]> own) →
  wp (kfree q) (λ _ s', ∃ l' own', pt_inv s' l' own' ∧ pt_frame root s (q :: l) own s' l' own' ∧
    same_lookups (ram s) (ram s') own) s3.
Proof using Type.
  intros Hs Hq Hfresh Hql Hroot Hout Hlk Hs3 Hf Hlk3.
  assert (own3 !! q = Some (UPage root (va / 4096))) as Hq3.
  { eapply lookup_weaken; [|apply Hf]. by rewrite lookup_insert_eq. }
  assert (∀ p r, own !! p = Some r → own3 !! p = Some r ∧ p ≠ q) as Hsub.
  { intros p r Hp. assert (p ≠ q) by congruence. split; [|done].
    eapply lookup_weaken; [|apply Hf]. by rewrite lookup_insert_ne. }
  eapply wp_mono; [by apply (kfree_role s3 [] own3 q _ Hs3 Hq3)|].
  intros _ s4 (Hs4 & Hout4 & Ht4). exists [q], (delete q own3). split; [done|]. split; [split|].
  - apply map_subseteq_spec. intros p r Hp. destruct (Hsub p r Hp). by rewrite lookup_delete_ne.
  - intros p r Hp Hr. assert (page_ok p) as [Hpa _] by (by apply (pt_page _ _ _ Hs p r)).
    destruct (Hsub p r Hp) as [Hp3 Hne]. destruct Hq as [Hqa _].
    eapply agree_trans; [apply (same_outside_page q); [exact Hout|done..]|].
    eapply agree_trans; [eapply (pf_data _ _ _ _ _ _ _ Hf p r); [by rewrite lookup_insert_ne|done]|].
    by apply (same_outside_page q).
  - intros p [->|Hp]%elem_of_cons; [left|]. by apply elem_of_nil in Hp.
  - intros p r. rewrite lookup_delete. case_decide as E; [done|]. intros Hp.
    destruct (pf_new _ _ _ _ _ _ _ Hf p r Hp) as [Hp'|[Hp' ?]].
    + left. by rewrite lookup_insert_ne in Hp'.
    + right. split; [by right|done].
  - intros p [->|Hp]%elem_of_cons; [left; left|].
    destruct (pf_all _ _ _ _ _ _ _ Hf p Hp) as [Hn|Hn]; [by apply elem_of_nil in Hn|]. right.
    rewrite lookup_delete_ne; [done|]. by intros ->.
  - intros r0 va0 Hr0 Hva0. destruct (Hsub _ _ Hr0) as [Hr3 Hne].
    rewrite (proj2 (tables_agree_lookup s3 [] own3 (ram s4) r0 va0 Hs3 Ht4 Hr3 Hva0)).
    rewrite Hlk3; [by apply Hlk|unfold is_root; by rewrite lookup_insert_ne|done].
Qed.

(** The mapping succeeded. *)
Lemma new_page_mapped s l own q s1 root va perm s3 l3 own3 :
  let s2 := set_ram (init q) s1 in let own2 := <[q := UPage root (va / 4096)]> own in
  pt_inv s (q :: l) own → is_root own root → va mod 4096 = 0 → 0 ≤ va → va + 4096 ≤ MAXVA → page_ok q → own !! q = None →
  pt_inv s1 l own → same_outside q (ram s) (ram s1) →
  same_lookups (ram s) (ram s2) own → vm_frame root va (va + 4096) s (q :: l) own s2 l own2 →
  pt_inv s3 l3 own3 → pt_frame root s2 l own2 s3 l3 own3 → map_range (ram s2) (ram s3) own2 root va 1 q perm →
  free_pages l ≤ 2 + free_pages l3 → new_page init s (q :: l) own root va perm s3 l3 own3 q.
Proof using Type.
  intros s2 own2 Hs Hr Hal Hva Hmax Hq Hfresh Hs1 Hout Hlk2 Hf2 Hs3 Hf3 Hm Hlen.
  assert (is_root own2 root) as Hr2 by (unfold is_root, own2; rewrite lookup_insert_ne; congruence).
  assert (∀ r0, is_root own r0 → is_root own2 r0) as Hrr.
  { intros r0 Hr0. unfold is_root, own2 in *. rewrite lookup_insert_ne; congruence. }
  split; try done.
  - apply (vm_frame_trans root va (va + 4096) s _ own s2 l own2); [done|].
    destruct Hf3 as [Ho D Fr N A' ]. split; try done.
    + intros p r [?|[??]]%N; [by left|right; auto].
    + intros r0 va0 Hr0 Hva0 Hn. rewrite Hm, decide_False; [done| |done|done].
      intros [-> ?]. apply Hn. split; [done|lia].
  - eapply lookup_weaken; [|apply Hf3]. unfold own2. by rewrite lookup_insert_eq.
  - intros r0 va0 Hr0 Hva0. rewrite Hm, Hlk2 by auto.
    assert (r0 = root ∧ va ≤ va0 < va + 4096 * 1 ↔ r0 = root ∧ va0 / 4096 = va / 4096) as Hiff
      by (Z.div_mod_to_equations; lia).
    destruct (decide (_ ∧ va ≤ va0 < _)) as [Hd|Hd].
    + rewrite decide_True by (by apply Hiff). f_equal. Z.div_mod_to_equations. lia.
    + rewrite decide_False; [done|]. by rewrite <-Hiff.
  - intros p r Hp. destruct (pf_new _ _ _ _ _ _ _ Hf3 p r Hp) as [Hp'|[_ ?]]; [|auto].
    unfold own2 in Hp'. rewrite lookup_insert in Hp'. case_decide; auto.
  - unfold free_pages in *. cbn [length]. lia.
  - exists (ram s1). split; [apply (pt_kmem _ _ _ Hs1)|]. split; [done|].
    apply (pf_data _ _ _ _ _ _ _ Hf3 q (UPage root (va / 4096))); [|done].
    unfold own2. by rewrite lookup_insert_eq.
Qed.

Lemma new_page_wp {A} s l own root va perm (fail ok : M machine A) Q :
  pt_inv s l own → is_root own root → va mod 4096 = 0 → 0 ≤ va → va + 4096 ≤ MAXVA →
  0 ≤ perm < 1024 → bit (lookup_pte (ram s) root va) PTE_V = false →
  (∀ s' l' own', pt_inv s' l' own' → pt_frame root s l own s' l' own' →
     same_lookups (ram s) (ram s') own → free_pages l < 3 → wp fail Q s') →
  (∀ s' l' own' q, new_page init s l own root va perm s' l' own' q → wp ok Q s') →
  wp (mem ← kalloc;
      if mem =? 0 then fail
      else
        modify (set_ram (init mem)) ;;
        r ← mappages root va PGSIZE mem perm;
        if negb (r =? 0) then kfree mem ;; fail else ok) Q s.
Proof using init_out init_ok.
  intros Hs Hr Hal Hva Hmax Hperm Hinv Hfail Hok. apply wp_bind.
  eapply wp_mono; [by apply kalloc_role|].
  intros q s1 [(-> & -> & ->)|(l1 & -> & Hne & Hq & Hfresh & Hql & Hs1 & Hout)].
  { cbn [Z.eqb]. eapply Hfail; [done|apply pt_frame_refl|done|done]. }
  rewrite (proj2 (Z.eqb_neq _ _) Hne). apply wp_bind, wp_modify.
  destruct (new_page_fill s l1 own q s1 root va) as (Hs2 & Hout2 & Hlk2 & Hf2); try done.
  set (s2 := set_ram (init q) s1) in *. set (own2 := <[q := _]> own) in *.
  assert (is_root own2 root) as Hr2 by (unfold is_root, own2; rewrite lookup_insert_ne; congruence).
  pose proof (page_ok_pos q Hq) as Hqpos. unfold PHYSTOP, KERNBASE in Hqpos.
  apply wp_bind. eapply wp_mono; [apply (mappages_wp s2 l1 own2 root va PGSIZE q perm)|];
    try done; unfold PGSIZE in *; try lia; [apply Hq| |].
  { intros va0 Hva0. rewrite Hlk2 by (done || lia). rewrite <-Hinv. f_equal.
    apply lookup_page. Z.div_mod_to_equations. lia. }
  change (4096 / 4096) with 1. intros r s3 (l3 & own3 & k & Hs3 & Hf3 & Hm & Hres).
  destruct Hres as [(-> & -> & Hlen)|(-> & Hk & -> & Hlen)]; cbn [Z.eqb negb].
  2:{ apply wp_bind. assert (k = 0) as -> by lia.
      eapply wp_mono; [apply (new_page_undo s l1 own q s2 s3 own3 root va); try done|].
      - intros r0 va0 Hr0 Hva0. rewrite Hm, decide_False by (done || lia). done.
      - intros _ s4 (l4 & own4 & Hs4 & Hf4 & Hlk4). eapply Hfail; [done..|].
        unfold free_pages in *. cbn [length]. lia. }
  apply (Hok s3 l3 own3 q). by eapply new_page_mapped.
Qed.
End new_page.

(** ** Taking pages away again *)

Definition pages_mapped (m : mem) (own : gmap Z role) (root lo hi : Z) : Prop :=
  ∀ p vpn, own !! p = Some (UPage root vpn) → lo ≤ vpn * 4096 < hi →
    PTE2PA (lookup_pte m root (vpn * 4096)) = p.
Definition no_pages (own : gmap Z role) (root lo hi : Z) : Prop :=
  ∀ p vpn, own !! p = Some (UPage root vpn) → ¬ (lo ≤ vpn * 4096 < hi).

Lemma elem_of_leaf_pages m root va n p :
  p ∈ leaf_pages m root va n ↔
  ∃ j, 0 ≤ j < Z.of_nat n ∧ p = PTE2PA (lookup_pte m root (va + 4096 * j)).
Proof using Type.
  unfold leaf_pages. rewrite list_elem_of_fmap. split.
  - intros (j & -> & Hj%elem_of_seq). exists (Z.of_nat j). split; [lia|done].
  - intros (j & Hj & ->). exists (Z.to_nat j). rewrite Z2Nat.id by lia. split; [done|].
    apply elem_of_seq. lia.
Qed.

Lemma leaf_pages_role s own root lo (n : nat) p :
  lo mod 4096 = 0 →
  (∀ va, lo ≤ va < lo + 4096 * Z.of_nat n → mapped_user s own root va) →
  p ∈ leaf_pages (ram s) root lo n →
  ∃ vpn, own !! p = Some (UPage root vpn) ∧ lo ≤ vpn * 4096 < lo + 4096 * Z.of_nat n.
Proof using Type.
  intros Hal Hmap (j & Hj & ->)%elem_of_leaf_pages. exists ((lo + 4096 * j) / 4096).
  split; [apply Hmap; lia|]. Z.div_mod_to_equations. lia.
Qed.

Lemma leaf_pages_all s own root lo (n : nat) p vpn :
  lo mod 4096 = 0 → pages_mapped (ram s) own root lo (lo + 4096 * Z.of_nat n) →
  own !! p = Some (UPage root vpn) → lo ≤ vpn * 4096 < lo + 4096 * Z.of_nat n →
  p ∈ leaf_pages (ram s) root lo n.
Proof using Type.
  intros Hal Hpm Hp Hv. apply elem_of_leaf_pages. exists (vpn - lo / 4096).
  split; [Z.div_mod_to_equations; lia|].
  replace (lo + 4096 * (vpn - lo / 4096)) with (vpn * 4096) by (Z.div_mod_to_equations; lia).
  by rewrite (Hpm p vpn).
Qed.

Definition clear_range (m m' : mem) (own : gmap Z role) (root lo hi : Z) : Prop :=
  ∀ r0 va0, is_root own r0 → 0 ≤ va0 < MAXVA →
    lookup_pte m' r0 va0 = if decide (r0 = root ∧ lo ≤ va0 < hi) then 0 else lookup_pte m r0 va0.

Lemma unmap_undo s0 l0 own0 s l own root lo (n : Z) :
  pt_inv s l own → vm_frame root lo (lo + 4096 * n) s0 l0 own0 s l own → is_root own0 root →
  lo mod 4096 = 0 → 0 ≤ lo → 0 ≤ n → lo + 4096 * n ≤ MAXVA →
  (∀ va, lo ≤ va < lo + 4096 * n → mapped_user s own root va) →
  pages_mapped (ram s) own root lo (lo + 4096 * n) → no_pages own0 root lo (lo + 4096 * n) →
  wp (uvmunmap root lo n true) (λ _ s', ∃ l' own',
    pt_inv s' l' own' ∧ pt_frame root s0 l0 own0 s' l' own' ∧
    clear_range (ram s0) (ram s') own0 root lo (lo + 4096 * n)) s.
Proof using Type.
  intros Hs [Ho D Fr N A L] Hr Hal Hlo Hn Hmax Hmap Hpm Hno.
  eapply wp_mono; [apply (uvmunmap_wp s l own root lo n); try done; by eapply lookup_weaken|].
  intros _ s' (Hs' & Hum & Hd).
  pose proof (leaf_pages_role s own root lo (Z.to_nat n)) as Hrole.
  pose proof (leaf_pages_all s own root lo (Z.to_nat n)) as Hall.
  rewrite Z2Nat.id in Hrole, Hall by done.
  set (ps := leaf_pages (ram s) root lo (Z.to_nat n)) in *.
  assert (∀ p r, own0 !! p = Some r → own !! p = Some r ∧ p ∉ ps) as Hkeep.
  { intros p r Hp. assert (own !! p = Some r) as Hp' by (by eapply lookup_weaken).
    split; [done|]. intros (vpn & Hv & Hrng)%Hrole; [|done..].
    rewrite Hp' in Hv. injection Hv as ->. by apply (Hno p vpn Hp). }
  exists (reverse ps ++ l), (del_all ps own). split; [done|]. split; [split|].
  - apply map_subseteq_spec. intros p r Hp. destruct (Hkeep p r Hp).
    by rewrite lookup_del_all, decide_False.
  - intros p r Hp Hnpt. destruct (Hkeep p r Hp).
    eapply agree_trans; [by eapply D|]. by eapply Hd.
  - intros p. rewrite elem_of_app, elem_of_reverse. intros [Hp|Hp]; [|auto].
    destruct (Hrole p Hal Hmap Hp) as (vpn & Hv & Hrng).
    destruct (N p _ Hv) as [Hp0|[? _]]; [|done]. by destruct (Hno p vpn Hp0).
  - intros p r. rewrite lookup_del_all. case_decide as Hin; [done|]. intros Hp.
    destruct (N p r Hp) as [?|[? [?|(vpn & -> & Hrng)]]]; [by left|by right; auto|].
    destruct Hin. by eapply Hall.
  - intros p Hp. rewrite elem_of_app, elem_of_reverse, lookup_del_all.
    destruct (A p Hp) as [?|?]; [auto|]. case_decide; auto.
  - intros r0 va0 Hr0 Hva0. rewrite Hum by (done || by apply Hkeep).
    case_decide; [done|]. by apply L.
Qed.

(** ** Growing a range page by page

    The pages from [lo] to [hi] of [root] are new, with entry flags [fl] and
    bytes [by_]. *)
Record grown (fl by_ : Z → Z) (root lo hi : Z) (s0 : machine) (l0 : list Z) (own0 : gmap Z role)
    (s : machine) (l : list Z) (own : gmap Z role) : Prop := {
  gr_inv : pt_inv s l own;
  gr_frame : vm_frame root lo hi s0 l0 own0 s l own;
  gr_pages : ∀ va, lo ≤ va < hi → mapped_user s own root va ∧
    PTE_FLAGS (lookup_pte (ram s) root va) = fl va ∧ user_load (ram s) root va = by_ va;
  gr_mapped : pages_mapped (ram s) own root lo hi;
}.

Lemma bit_V_lor e f : 0 ≤ f → PTE_FLAGS e = Z.lor f PTE_V → bit e PTE_V = true.
Proof using Type.
  intros Hf He. unfold bit. rewrite land_flags, He by done. change PTE_V with (2 ^ 0).
  apply negb_true_iff, Z.eqb_neq. intros Hz. apply (f_equal (λ x, Z.testbit x 0)) in Hz.
  rewrite Z.land_spec, Z.lor_spec, Z.pow2_bits_true, orb_true_r in Hz by lia. done.
Qed.

Lemma page_vpn a va : a mod 4096 = 0 → va / 4096 = a / 4096 ↔ a ≤ va < a + 4096.
Proof using Type. intros. Z.div_mod_to_equations. lia. Qed.

Section grow.
Context (init : Z → mem → mem) (fl by_ : Z → Z) (root lo : Z).
Context (s0 : machine) (l0 : list Z) (own0 : gmap Z role).

Lemma grown_keep a s l own s' l' own' q perm va :
  grown fl by_ root lo a s0 l0 own0 s l own → is_root own root →
  new_page init s l own root a perm s' l' own' q → a mod 4096 = 0 → a + 4096 ≤ MAXVA →
  0 ≤ lo → lo ≤ va < a →
  mapped_user s' own' root va ∧
  PTE_FLAGS (lookup_pte (ram s') root va) = fl va ∧ user_load (ram s') root va = by_ va.
Proof using Type.
  intros [Hs Hf Hp Hm] Hr [Hs' Hf' Hq Hl Hqok Hn Hb] Hal Hmax Hlo Hva.
  destruct (Hp va) as ((Hv & Hfl & Hown) & Hfl' & Hby); [lia|].
  assert (lookup_pte (ram s') root va = lookup_pte (ram s) root va) as Heq.
  { rewrite Hl, decide_False; [done| |done|lia]. rewrite page_vpn by done. lia. }
  unfold mapped_user, user_load. rewrite Heq. split_and!; try done.
  - eapply lookup_weaken; [exact Hown|apply Hf'].
  - rewrite <-Hby. apply (vf_data _ _ _ _ _ _ _ _ _ Hf' _ _ Hown); [done|].
    pose proof (Z.mod_pos_bound va 4096). lia.
Qed.

Lemma grown_step a s l own s' l' own' q perm :
  grown fl by_ root lo a s0 l0 own0 s l own → is_root own root →
  new_page init s l own root a perm s' l' own' q → a mod 4096 = 0 → a + 4096 ≤ MAXVA →
  0 ≤ lo ≤ a → 0 ≤ perm < 1024 → Z.lor perm PTE_V ≠ PTE_V → no_pages own0 root lo (a + 4096) →
  (∀ va, a ≤ va < a + 4096 → fl va = Z.lor perm PTE_V ∧ load8 (ram s') (q + va mod 4096) = by_ va) →
  grown fl by_ root lo (a + 4096) s0 l0 own0 s' l' own'.
Proof using Type.
  intros Hg Hr Hnp Hal Hmax Hlo Hperm Hleaf Hno Hnew.
  pose proof (grown_keep a s l own s' l' own' q perm) as Hkeep.
  destruct Hnp as [Hs' Hf' Hq Hl Hqok Hn Hb] eqn:Enp.
  pose proof (page_ok_pos q Hqok) as Hpos. unfold PHYSTOP, KERNBASE in Hpos.
  assert (∀ va, a ≤ va < a + 4096 → lookup_pte (ram s') root va = mk_pte q perm) as Heq.
  { intros va Hva. rewrite Hl, decide_True; [done| |done|lia]. by rewrite page_vpn. }
  assert (PTE2PA (mk_pte q perm) = q ∧ PTE_FLAGS (mk_pte q perm) = Z.lor perm PTE_V) as [Hpa Hfl].
  { split; [apply mk_pte_pa|apply mk_pte_flags]; try done; (lia || apply Hqok). }
  split.
  - done.
  - apply (vm_frame_trans _ _ _ _ _ _ s l own);
      eapply vm_frame_widen; try apply Hg; try apply Hf'; lia.
  - intros va Hva. destruct (decide (va < a)); [by eapply Hkeep; (done || lia)|].
    destruct (Hnew va) as [Hfva Hbva]; [lia|]. unfold mapped_user, user_load.
    rewrite Heq, Hpa, Hfl by lia. split_and!; try done.
    + by eapply bit_V_lor; [|done]; lia.
    + rewrite Hq. do 2 f_equal. symmetry. apply page_vpn; [done|lia].
  - intros p vpn Hp Hvpn. destruct (decide (vpn * 4096 < a)) as [Hlt|Hge].
    + destruct (Hn p _ Hp) as [Hp'|[->|(? & ? & ?)]]; [| |done].
      * rewrite Hl, decide_False; [apply (gr_mapped _ _ _ _ _ _ _ _ _ _ _ Hg); [done|lia]| |done|lia].
        rewrite page_vpn by done. lia.
      * rewrite Hq in Hp. injection Hp as <-. clear - Hal Hlt. Z.div_mod_to_equations. lia.
    + rewrite Heq, Hpa by lia. destruct (Hn p _ Hp) as [Hp'|[->|(? & ? & ?)]]; [|done|done].
      destruct (vf_new _ _ _ _ _ _ _ _ _ (gr_frame _ _ _ _ _ _ _ _ _ _ _ Hg) p _ Hp')
        as [Hp0|(_ & [(? & ? & ?)|(v & [= <-] & ?)])]; [|done|lia].
      by destruct (Hno p vpn Hp0).
Qed.

(** Nothing of this is lost when only page-table pages are added. *)
Lemma grown_frame a s l own s' l' own' :
  grown fl by_ root lo a s0 l0 own0 s l own → is_root own root → 0 ≤ lo ≤ a → a ≤ MAXVA →
  pt_inv s' l' own' → pt_frame root s l own s' l' own' → same_lookups (ram s) (ram s') own →
  grown fl by_ root lo a s0 l0 own0 s' l' own'.
Proof using Type.
  intros [Hs Hf Hp Hm] Hr Hlo Hmax Hs' Hf' Hl. split.
  - done.
  - apply (vm_frame_trans _ _ _ _ _ _ s l own); [done|].
    eapply vm_frame_widen; [| |by apply (vm_frame_pt root lo)]; lia.
  - intros va Hva. destruct (Hp va) as ((Hv & Hfl & Hown) & Hfl' & Hby); [lia|].
    unfold mapped_user, user_load. rewrite Hl by (done || lia). split_and!; try done.
    + eapply lookup_weaken; [exact Hown|apply Hf'].
    + rewrite <-Hby. apply (pf_data _ _ _ _ _ _ _ Hf' _ _ Hown); [done|].
      pose proof (Z.mod_pos_bound va 4096). lia.
  - intros p vpn Hp' Hvpn. rewrite Hl by (done || lia).
    destruct (pf_new _ _ _ _ _ _ _ Hf' p _ Hp') as [?|(_ & ? & ? & ?)]; [by apply Hm|done].
Qed.

Lemma grown_undo s l own n :
  grown fl by_ root lo (lo + 4096 * n) s0 l0 own0 s l own → is_root own0 root →
  lo mod 4096 = 0 → 0 ≤ lo → 0 ≤ n → lo + 4096 * n ≤ MAXVA →
  no_pages own0 root lo (lo + 4096 * n) →
  wp (uvmunmap root lo n true) (λ _ s', ∃ l' own',
    pt_inv s' l' own' ∧ pt_frame root s0 l0 own0 s' l' own' ∧
    clear_range (ram s0) (ram s') own0 root lo (lo + 4096 * n)) s.
Proof using Type.
  intros [Hs Hf Hp Hm] Hr Hal Hlo Hn Hmax Hno. apply (unmap_undo s0 l0 own0 s l own); try done.
  intros va Hva. by apply Hp.
Qed.
End grow.

Lemma grown_refl fl by_ root lo s l own :
  pt_inv s l own → grown fl by_ root lo lo s l own s l own.
Proof using Type.
  intros Hs. split; [done| |intros; lia|intros p vpn _ ?; lia].
  apply vm_frame_pt; [apply pt_frame_refl|by intros ????].
Qed.

(** ** uvmdealloc *)

Lemma uvmdealloc_eq pt old new s :
  0 ≤ new → new < old → old ≤ MAXVA →
  uvmdealloc pt old new s =
  (uvmunmap pt (PGROUNDUP new) ((PGROUNDUP old - PGROUNDUP new) / 4096) true ;; mret new) s.
Proof using Type.
  intros Hn Hlt Hmax. rewrite MAXVA_val in Hmax. unfold uvmdealloc, PGSIZE. case_if E; [lia|].
  pose proof (PGROUNDUP_spec new) as [Hn1 Hn2]; [lia|].
  pose proof (PGROUNDUP_spec old) as [Ho1 Ho2]; [lia|].
  assert (PGROUNDUP new ≤ PGROUNDUP old) as Hle by (Z.div_mod_to_equations; lia).
  assert (0 ≤ (PGROUNDUP old - PGROUNDUP new) / 4096 < 2 ^ 31) as Hrng
    by (clear - Hle Hn2 Ho2 Hn Hmax Hlt; Z.div_mod_to_equations; lia).
  case_if E2; [by rewrite s32_id, u64_id by lia|].
  replace (PGROUNDUP old - PGROUNDUP new) with 0 by lia. change (0 / 4096) with 0.
  unfold uvmunmap. change (PGROUNDUP new mod PGSIZE) with (PGROUNDUP new mod 4096). rewrite Hn1.
  cbn [negb Z.eqb]. change (u64 (0 * PGSIZE)) with 0. rewrite u64_id by lia.
  change (Z.to_nat 0) with 0%nat. cbn [loopM]. unfold uvmunmap_body. case_if E3; [lia|]. done.
Qed.

(** ** uvmalloc *)

Lemma memset_page_out q m : same_outside q m (memset q 0 PGSIZE m).
Proof using Type. intros x Hx. rewrite load8_memset, decide_False by (unfold PGSIZE; lia). done. Qed.

Lemma lor_R_leaf f : Z.testbit f 1 = true → Z.lor f PTE_V ≠ PTE_V.
Proof using Type.
  intros Hf Heq. apply (f_equal (λ x, Z.testbit x 1)) in Heq. rewrite Z.lor_spec, Hf in Heq. done.
Qed.

Section uvmalloc.
Context (s0 : machine) (l0 : list Z) (own0 : gmap Z role) (root old new xperm : Z).
Let perm := Z.lor (Z.lor PTE_R PTE_U) xperm.
Let hi := PGROUNDUP new.
Hypothesis Hr0 : is_root own0 root.
Hypothesis Hold : old mod 4096 = 0.
Hypothesis Hrng : 0 ≤ old.
Hypothesis Hnew : 0 ≤ new ≤ TRAPFRAME.
Hypothesis Hx : 0 ≤ xperm < 1024.
Hypothesis Hfree : ∀ va, old ≤ va < hi → bit (lookup_pte (ram s0) root va) PTE_V = false.
Hypothesis Hno : no_pages own0 root old hi.

Let fl : Z → Z := λ _, Z.lor perm PTE_V.
Let zero : Z → Z := λ _, 0.
Definition uvmalloc_post (r : Z) (s' : machine) : Prop := ∃ l' own',
  r = new ∧ grown fl zero root old (Z.max old hi) s0 l0 own0 s' l' own' ∨
  r = 0 ∧ pt_inv s' l' own' ∧ pt_frame root s0 l0 own0 s' l' own' ∧
    free_pages l0 < 3 * ((hi - old) / 4096) ∧ ∃ a, old ≤ a ≤ hi ∧ clear_range (ram s0) (ram s') own0 root old a.

Lemma uvmalloc_top : hi mod 4096 = 0 ∧ new ≤ hi ∧ hi < new + 4096 ∧ hi ≤ TRAPFRAME ∧ TRAPFRAME = 2 ^ 38 - 8192.
Proof using All.
  change TRAPFRAME with (2 ^ 38 - 8192) in *. unfold hi.
  pose proof (PGROUNDUP_spec new) as [? ?]; [lia|]. Z.div_mod_to_equations. lia.
Qed.

Lemma uvmalloc_perm : 0 ≤ perm < 1024 ∧ Z.lor perm PTE_V ≠ PTE_V.
Proof using All.
  split; [apply (lor_bound _ _ 10); [lia|change (Z.lor PTE_R PTE_U) with 18; lia|lia]|].
  apply lor_R_leaf. unfold perm. by rewrite !Z.lor_spec.
Qed.

Lemma uvmalloc_fail a s l own :
  a mod 4096 = 0 → old ≤ a < hi → grown fl zero root old a s0 l0 own0 s l own →
  free_pages l0 < 3 * ((hi - old) / 4096) →
  wp (uvmdealloc root a old ;; mret (inr 0)) (λ r s', ∃ b, r = @inr Z Z b ∧ uvmalloc_post b s') s.
Proof using All.
  intros Hal Ha Hg Hlen. destruct uvmalloc_top as (_ & _ & _ & Htop & Htf). apply wp_bind.
  destruct (decide (a = old)) as [->|Hne].
  - unfold uvmdealloc. case_if E; [|lia]. apply wp_ret, wp_ret. exists 0. split; [done|].
    exists l, own. right. split; [done|]. destruct Hg as [Hs [Ho D Fr N A L] _ _].
    split; [done|]. split; [split; try done|].
    + intros p r [?|[? [?|(v & -> & ?)]]]%N; [by left|by right|lia].
    + split; [done|]. exists old. split; [lia|]. intros r1 va1 Hr1 Hva1. rewrite decide_False by lia.
      apply L; [done|done|lia].
  - eapply wp_eq; [by apply uvmdealloc_eq; rewrite ?MAXVA_val; lia|].
    rewrite !PGROUNDUP_aligned by (done || lia).
    replace a with (old + 4096 * ((a - old) / 4096)) in Hg by (Z.div_mod_to_equations; lia).
    apply wp_bind. eapply wp_mono; [eapply grown_undo; [exact Hg|done..| | |]|].
    + clear - Ha. Z.div_mod_to_equations. lia.
    + rewrite MAXVA_val. Z.div_mod_to_equations. lia.
    + intros p v Hp Hv. apply (Hno p v Hp). clear - Ha Hal Hold Hv. Z.div_mod_to_equations. lia.
    + intros _ s' (l' & own' & Hs' & Hf' & Hc). apply wp_ret, wp_ret. exists 0. split; [done|].
      exists l', own'. right. split_and!; try done. eexists. split; [|exact Hc].
      Z.div_mod_to_equations. lia.
Qed.

Lemma uvmalloc_loop n :
  pt_inv s0 l0 own0 → new ≤ old + 4096 * Z.of_nat n →
  wp (loopM (S n) (uvmalloc_body root old new xperm) old) uvmalloc_post s0.
Proof using All.
  intros Hs0 Hn. destruct uvmalloc_top as (Hhal & Hhi & Hhi' & Htop & Htf).
  destruct uvmalloc_perm as [Hperm Hleaf].
  apply (wp_loop _ (λ a s, a mod 4096 = 0 ∧ old ≤ a ∧ (a = old ∨ a ≤ hi) ∧
    ∃ l own, grown fl zero root old a s0 l0 own0 s l own ∧ free_pages l0 ≤ 3 * ((a - old) / 4096) + free_pages l)
    (λ a, Z.to_nat ((new - a + 4095) / 4096))).
  { Z.div_mod_to_equations. lia. }
  { split_and!; [done|lia|by left|]. exists l0, own0. split; [by apply grown_refl|].
    by rewrite Z.sub_diag. }
  intros a s (Hal & Ha & Ha' & l & own & Hg & Hlen). unfold uvmalloc_body. case_if E.
  2:{ apply wp_ret. exists l, own. left. split; [done|]. replace (Z.max old hi) with a; [done|].
      clear - E Ha Ha' Hhi' Hal Hhal Hold. Z.div_mod_to_equations. lia. }
  assert (a < hi) as Hlt by lia.
  assert (a + 4096 ≤ hi) as Hle by (clear - Hlt Hal Hhal; Z.div_mod_to_equations; lia).
  pose proof (gr_frame _ _ _ _ _ _ _ _ _ _ _ Hg) as Hf.
  assert (is_root own root) as Hr by (by eapply is_root_vm).
  apply (new_page_wp (λ q, memset q 0 PGSIZE)) with (l := l) (own := own).
  - intros q m _ _. apply memset_page_out.
  - intros q m. apply memset_ok.
  - apply Hg.
  - exact Hr.
  - exact Hal.
  - lia.
  - rewrite MAXVA_val. lia.
  - exact Hperm.
  - rewrite (vf_lookup _ _ _ _ _ _ _ _ _ Hf); [apply Hfree; lia|done|rewrite MAXVA_val; lia|lia].
  - intros s1 l1 own1 Hs1 Hf1 Hl1 Hlt3. eapply wp_mono; [apply (uvmalloc_fail a s1 l1 own1); [done|lia| |]|].
    + apply (grown_frame _ _ _ _ _ _ _ a s l own); [done|done|lia|rewrite MAXVA_val; lia|done..].
    + clear - Hlen Hlt3 Hle Hal Hold Hhal. Z.div_mod_to_equations. lia.
    + by intros r s2 (b & -> & Hb).
  - intros s1 l1 own1 q Hnp. apply wp_ret. rewrite u64_page by lia. split_and!.
    + by rewrite <-Z.add_mod_idemp_r, Z.add_0_r.
    + lia.
    + lia.
    + exists l1, own1. split; [|pose proof (np_len _ _ _ _ _ _ _ _ _ _ _ Hnp) as Hq;
        clear - Hlen Hq; Z.div_mod_to_equations; lia].
      apply (grown_step _ _ _ _ _ _ _ _ a s l own s1 l1 own1 q perm Hg Hr Hnp Hal);
        [rewrite MAXVA_val; lia|lia|exact Hperm|exact Hleaf| |].
      * intros p v Hp Hv. apply (Hno p v Hp). lia.
      * intros va Hva. split; [done|]. destruct Hnp as [_ _ _ _ _ _ _ (m1 & _ & _ & Hb)].
        pose proof (Z.mod_pos_bound va 4096). rewrite Hb by lia.
        by rewrite load8_memset, decide_True by (unfold PGSIZE; lia).
    + clear - E. Z.div_mod_to_equations. lia.
Qed.
End uvmalloc.

Lemma pgup_bound sz : 0 ≤ sz ≤ TRAPFRAME → 0 ≤ PGROUNDUP sz ≤ TRAPFRAME ∧ PGROUNDUP sz mod 4096 = 0.
Proof using Type.
  change TRAPFRAME with (2 ^ 38 - 8192). intros Hsz.
  pose proof (PGROUNDUP_spec sz) as [? ?]; [lia|]. Z.div_mod_to_equations. lia.
Qed.
Lemma trapframe_max : TRAPFRAME < MAXVA.
Proof using Type. done. Qed.

Lemma aspace_no_pages s own root sz hi : aspace s own root sz → no_pages own root (PGROUNDUP sz) hi.
Proof using Type. intros Ha p vpn Hp. destruct (as_pages _ _ _ _ Ha p vpn Hp). lia. Qed.

Lemma mapped_user_keep s own s' own' root va :
  own ⊆ own' → lookup_pte (ram s') root va = lookup_pte (ram s) root va →
  mapped_user s own root va → mapped_user s' own' root va.
Proof using Type.
  intros Ho Heq (Hv & Hf & Hp). unfold mapped_user. rewrite Heq. split_and!; try done.
  by eapply lookup_weaken.
Qed.

Lemma aspace_grow fl by_ root old new s l own s' l' own' :
  aspace s own root old → 0 ≤ old ≤ TRAPFRAME → 0 ≤ new ≤ TRAPFRAME → PGROUNDUP old ≤ PGROUNDUP new →
  grown fl by_ root (PGROUNDUP old) (PGROUNDUP new) s l own s' l' own' → aspace s' own' root new.
Proof using Type.
  intros [Hr Hm Hf Ht Hp] Hold Hnew Hle [Hs' Hfr Hpg Hpm].
  destruct (pgup_bound old) as [Hbo _]; [done|]. destruct (pgup_bound new) as [Hbn _]; [done|].
  pose proof trapframe_max as Htf. destruct Hfr as [Ho D Fr N A L]. split.
  - by eapply lookup_weaken.
  - intros va Hva. destruct (decide (va < PGROUNDUP old)); [|apply Hpg; lia].
    eapply mapped_user_keep; [exact Ho| |apply Hm; lia]. apply L; [done|lia|lia].
  - intros va Hva. rewrite L; [apply Hf; lia|done|lia|lia].
  - intros va Hva. rewrite L; [by apply Ht|done|lia|lia].
  - intros p vpn Hvpn. destruct (N p _ Hvpn) as [Hp0|[_ [(? & ? & ?)|(v & [= <-] & Hv)]]]; [|done|].
    + destruct (Hp p vpn Hp0) as [? Heq]. split; [lia|]. rewrite L; [done|done|lia|lia].
    + split; [lia|]. by apply Hpm.
Qed.

Lemma aspace_clear root sz a s l own s' l' own' :
  aspace s own root sz → 0 ≤ sz ≤ TRAPFRAME → a ≤ TRAPFRAME →
  pt_frame root s l own s' l' own' → clear_range (ram s) (ram s') own root (PGROUNDUP sz) a →
  aspace s' own' root sz.
Proof using Type.
  intros [Hr Hm Hf Ht Hp] Hsz Ha [Ho D Fr N A] Hc.
  destruct (pgup_bound sz) as [Hb _]; [done|]. pose proof trapframe_max as Htf. split.
  - by eapply lookup_weaken.
  - intros va Hva. eapply mapped_user_keep; [exact Ho| |by apply Hm].
    rewrite Hc, decide_False by (done || lia). done.
  - intros va Hva. rewrite Hc by (done || lia). case_decide; [done|by apply Hf].
  - intros va Hva. rewrite Hc, decide_False by (done || lia). by apply Ht.
  - intros p vpn Hvpn. destruct (N p _ Hvpn) as [Hp0|(_ & ? & ? & ?)]; [|done].
    destruct (Hp p vpn Hp0) as [? Heq]. split; [done|]. rewrite Hc, decide_False by (done || lia). done.
Qed.

(** The address space of another process does not change. *)
Lemma aspace_other root sz root' lo hi s l own s' l' own' :
  aspace s own root sz → 0 ≤ sz ≤ TRAPFRAME → root ≠ root' →
  vm_frame root' lo hi s l own s' l' own' → aspace s' own' root sz.
Proof using Type.
  intros [Hr Hm Hf Ht Hp] Hsz Hne [Ho D Fr N A L].
  destruct (pgup_bound sz) as [Hb _]; [done|]. pose proof trapframe_max as Htf.
  assert (∀ va, 0 ≤ va < MAXVA → lookup_pte (ram s') root va = lookup_pte (ram s) root va) as HL.
  { intros va Hva. apply L; [done|done|]. by intros [? _]. }
  split.
  - by eapply lookup_weaken.
  - intros va Hva. eapply mapped_user_keep; [exact Ho| |by apply Hm]. apply HL. lia.
  - intros va Hva. rewrite HL by lia. by apply Hf.
  - intros va Hva. rewrite HL by lia. by apply Ht.
  - intros p vpn Hvpn. destruct (N p _ Hvpn) as [Hp0|[_ [(? & ? & ?)|(v & [= ??] & _)]]]; [|done|done].
    destruct (Hp p vpn Hp0) as [? Heq]. split; [done|]. by rewrite HL by lia.
Qed.

Lemma vm_frame_clear root lo hi s l own s' l' own' :
  pt_frame root s l own s' l' own' → clear_range (ram s) (ram s') own root lo hi →
  vm_frame root lo hi s l own s' l' own'.
Proof using Type.
  intros [Ho D Fr N A] Hc. split; try done.
  - intros p r [?|[??]]%N; [by left|right; auto].
  - intros r0 va0 Hr0 Hva0 Hn. by rewrite Hc, decide_False.
Qed.

Lemma aspace_user_inv s own root sz : aspace s own root sz → user_inv (ram s) own root.
Proof using Type.
  intros Ha va Hva Hv. apply readable_max in Hv as Hmax. unfold user_readable in Hv.
  apply andb_true_iff in Hv as [[_ Hv]%andb_true_iff Hu].
  destruct (decide (va < PGROUNDUP sz)); [by apply (as_mapped _ _ _ _ Ha)|].
  destruct (decide (va < TRAPFRAME)).
  - rewrite (as_free _ _ _ _ Ha) in Hv by lia. done.
  - rewrite (as_top _ _ _ _ Ha) in Hu by lia. done.
Qed.

(** ** uvmcopy *)

Lemma flags_lor e : bit e PTE_V = true → Z.lor (PTE_FLAGS e) PTE_V = PTE_FLAGS e.
Proof using Type.
  intros Hv. apply Z.bits_inj'. intros n Hn. rewrite Z.lor_spec.
  destruct (Z.testbit PTE_V n) eqn:E; [|apply orb_false_r]. rewrite orb_true_r.
  change PTE_V with (2 ^ 0) in E. apply Z.pow2_bits_true in Hn as _.
  destruct (decide (n = 0)) as [->|?]; [|by rewrite Z.pow2_bits_false in E by done].
  unfold bit in Hv. rewrite land_flags in Hv by done. apply negb_true_iff, Z.eqb_neq in Hv.
  destruct (Z.testbit (PTE_FLAGS e) 0) eqn:E2; [done|]. destruct Hv. apply Z.bits_inj'.
  intros n Hn. rewrite Z.land_spec, Z.bits_0. change PTE_V with (2 ^ 0).
  destruct (decide (n = 0)) as [->|?]; [by rewrite E2|]. by rewrite Z.pow2_bits_false, andb_false_r.
Qed.
Lemma flags_range e : 0 ≤ PTE_FLAGS e < 1024.
Proof using Type. rewrite PTE_FLAGS_mod. by apply Z.mod_pos_bound. Qed.

Lemma memmove_page_out q pa m : bytes_ok m → same_outside q m (memmove q pa PGSIZE m).
Proof using Type. intros Hm x Hx. rewrite load8_memmove, decide_False by (done || unfold PGSIZE; lia). done. Qed.

Section uvmcopy.
Context (s0 : machine) (l0 : list Z) (own0 : gmap Z role) (old new sz : Z).
Let hi := PGROUNDUP sz.
Hypothesis Hs0 : pt_inv s0 l0 own0.
Hypothesis Hne : old ≠ new.
Hypothesis Hold : is_root own0 old.
Hypothesis Hmap : ∀ va, 0 ≤ va < PGROUNDUP sz → mapped_user s0 own0 old va.
Hypothesis Han : aspace s0 own0 new 0.
Hypothesis Hsz : 0 ≤ sz ≤ TRAPFRAME.

Let fl : Z → Z := λ va, PTE_FLAGS (lookup_pte (ram s0) old va).
Let by_ : Z → Z := λ va, user_load (ram s0) old va.
Definition uvmcopy_post (r : Z) (s' : machine) : Prop := ∃ l' own',
  r = 0 ∧ grown fl by_ new 0 hi s0 l0 own0 s' l' own' ∨
  r = -1 ∧ pt_inv s' l' own' ∧ pt_frame new s0 l0 own0 s' l' own' ∧
    free_pages l0 < 3 * (hi / 4096) ∧ ∃ a, a ≤ hi ∧ clear_range (ram s0) (ram s') own0 new 0 a.

Lemma uvmcopy_fail i s l own :
  i mod 4096 = 0 → 0 ≤ i < hi → grown fl by_ new 0 i s0 l0 own0 s l own → free_pages l0 < 3 * (hi / 4096) →
  wp (uvmunmap new 0 (i / PGSIZE) true ;; mret (inr (-1)))
     (λ r s', ∃ b, r = @inr Z Z b ∧ uvmcopy_post b s') s.
Proof using All.
  intros Hal Hi Hg Hlen. destruct (pgup_bound sz Hsz) as [Hb Hba].
  unfold PGSIZE. replace i with (0 + 4096 * (i / 4096)) in Hg by (Z.div_mod_to_equations; lia).
  pose proof trapframe_max. fold hi in Hb. apply wp_bind.
  eapply wp_mono; [eapply grown_undo; [exact Hg|apply Han|done|done| | |]|].
  - clear - Hi. Z.div_mod_to_equations. lia.
  - clear - Hi Hb H. Z.div_mod_to_equations. lia.
  - apply (aspace_no_pages s0 own0 new 0 _ Han).
  - intros _ s' (l' & own' & Hs' & Hf' & Hc). apply wp_ret. exists (-1). split; [done|].
    exists l', own'. right. split_and!; try done. eexists. split; [|exact Hc].
    clear - Hi. Z.div_mod_to_equations. lia.
Qed.

(** The page of the parent at [i], seen in a later state. *)
Lemma uvmcopy_parent i s l own va :
  grown fl by_ new 0 i s0 l0 own0 s l own → 0 ≤ va < hi →
  lookup_pte (ram s) old va = lookup_pte (ram s0) old va ∧
  own !! PTE2PA (lookup_pte (ram s0) old va) = Some (UPage old (va / 4096)) ∧
  load8 (ram s) (PTE2PA (lookup_pte (ram s0) old va) + va mod 4096) = by_ va.
Proof using All.
  intros [_ [Ho D _ _ _ L] _ _] Hva. destruct (pgup_bound sz Hsz) as [Hb _]. fold hi in Hb.
  pose proof trapframe_max as Htf. destruct (Hmap va Hva) as (_ & _ & Hown).
  split; [|split].
  - apply L; [exact Hold|lia|]. by intros [? _].
  - by eapply lookup_weaken.
  - unfold by_, user_load. apply (D _ _ Hown); [done|]. pose proof (Z.mod_pos_bound va 4096). lia.
Qed.

(** A page that has been copied into the child. *)
Lemma uvmcopy_step i s l own s' l' own' q :
  grown fl by_ new 0 i s0 l0 own0 s l own → is_root own new → i mod 4096 = 0 → 0 ≤ i → i + 4096 ≤ hi →
  new_page (λ q, memmove q (PTE2PA (lookup_pte (ram s0) old i)) PGSIZE) s l own new i
    (PTE_FLAGS (lookup_pte (ram s0) old i)) s' l' own' q →
  grown fl by_ new 0 (i + 4096) s0 l0 own0 s' l' own'.
Proof using All.
  intros Hg Hr Hal Hi Hhi Hnp. destruct (pgup_bound sz Hsz) as [Hb _]. fold hi in Hb.
  pose proof trapframe_max as Htf. destruct (Hmap i) as (Hv & Hleaf & _); [fold hi; lia|].
  assert (∀ va, i ≤ va < i + 4096 → lookup_pte (ram s0) old va = lookup_pte (ram s0) old i) as Hsame.
  { intros va Hva. apply lookup_page. by apply page_vpn. }
  eapply (grown_step _ _ _ _ _ _ _ _ i s l own s' l' own' q _ Hg Hr Hnp Hal); [lia|lia|apply flags_range| | |].
  - by rewrite flags_lor.
  - apply (aspace_no_pages s0 own0 new 0 _ Han).
  - intros va Hva. unfold fl. rewrite (Hsame va Hva), flags_lor by done. split; [done|].
    destruct Hnp as [_ Hfr Hq _ Hqok _ _ (m1 & Hm1 & Hout & Hag)].
    pose proof (Z.mod_pos_bound va 4096). rewrite Hag by lia.
    rewrite load8_memmove, decide_True by (done || unfold PGSIZE; lia).
    destruct (uvmcopy_parent i s l own va Hg) as (_ & Hown & <-); [lia|].
    rewrite (Hsame va Hva) in Hown |- *.
    set (pa := PTE2PA (lookup_pte (ram s0) old i)) in *.
    assert (page_ok pa) as [Hpaal _] by (eapply pt_page; [apply Hg|exact Hown]).
    assert (pa ≠ q) as Hpq.
    { intros ->. apply (lookup_weaken _ own') in Hown; [|apply Hfr]. congruence. }
    replace (pa + (q + va mod 4096 - q)) with (pa + va mod 4096) by lia.
    apply Hout. destruct Hqok as [Hqal _]. destruct (page_disj pa q); [done|done|done|lia|lia].
Qed.

Lemma uvmcopy_loop n :
  sz ≤ 4096 * Z.of_nat n → wp (loopM (S n) (uvmcopy_body old new sz) 0) uvmcopy_post s0.
Proof using All.
  intros Hn. destruct (pgup_bound sz Hsz) as [Hb Hba]. fold hi in Hb, Hba.
  pose proof (PGROUNDUP_spec sz) as [_ Hhi]; [change TRAPFRAME with (2 ^ 38 - 8192) in *; lia|].
  fold hi in Hhi. pose proof trapframe_max as Htf.
  apply (wp_loop _ (λ i s, i mod 4096 = 0 ∧ 0 ≤ i ≤ hi ∧
    ∃ l own, grown fl by_ new 0 i s0 l0 own0 s l own ∧ free_pages l0 ≤ 3 * (i / 4096) + free_pages l) (λ i, Z.to_nat ((sz - i + 4095) / 4096))).
  { clear - Hn Hsz. Z.div_mod_to_equations. lia. }
  { split_and!; [done|lia|lia|]. exists l0, own0. split; [by apply grown_refl|done]. }
  intros i s (Hal & Hi & l & own & Hg & Hlen). unfold uvmcopy_body. case_if E.
  2:{ apply wp_ret. exists l, own. left. split; [done|]. replace hi with i; [done|].
      clear - E Hi Hhi Hal Hba. Z.div_mod_to_equations. lia. }
  assert (i + 4096 ≤ hi) as Hle by (clear - E Hal Hba Hhi; Z.div_mod_to_equations; lia).
  pose proof (gr_frame _ _ _ _ _ _ _ _ _ _ _ Hg) as Hf.
  assert (is_root own new) as Hr by (eapply is_root_vm; [exact Hf|apply Han]).
  assert (is_root own old) as Hro by (eapply is_root_vm; [exact Hf|exact Hold]).
  destruct (uvmcopy_parent i s l own i Hg) as (Hlk & _ & _); [lia|].
  destruct (Hmap i) as (Hv & _ & _); [fold hi; lia|].
  destruct (walk_mapped s l own old i) as (p & Hp & Hw & Hwne & Hl);
    [apply Hg|done|lia|by rewrite Hlk, Hv|].
  apply wp_bind. eapply wp_intro; [apply walk_noalloc; lia|].
  rewrite Hw, (proj2 (Z.eqb_neq _ _) Hwne). unfold load_pte. wp_steps. rewrite Hl, Hlk.
  assert ((Z.land (lookup_pte (ram s0) old i) PTE_V =? 0) = false) as Hv'
    by (unfold bit in Hv; by apply negb_true_iff in Hv).
  rewrite Hv'.
  apply (new_page_wp (λ q, memmove q (PTE2PA (lookup_pte (ram s0) old i)) PGSIZE))
    with (l := l) (own := own).
  - intros q m _ Hm. by apply memmove_page_out.
  - intros q m Hm. by apply memmove_ok.
  - apply Hg.
  - exact Hr.
  - exact Hal.
  - lia.
  - lia.
  - apply flags_range.
  - rewrite (vf_lookup _ _ _ _ _ _ _ _ _ Hf); [|apply Han|lia|lia].
    apply (as_free _ _ _ _ Han). change (PGROUNDUP 0) with 0. lia.
  - intros s1 l1 own1 Hs1 Hf1 Hl1 Hlt3. eapply wp_mono; [apply (uvmcopy_fail i s1 l1 own1); [done|lia| |]|].
    + apply (grown_frame _ _ _ _ _ _ _ i s l own); [done|done|lia|lia|done..].
    + clear - Hlen Hlt3 Hle. Z.div_mod_to_equations. lia.
    + by intros r s2 (b & -> & Hpost).
  - intros s1 l1 own1 q Hnp. apply wp_ret. change TRAPFRAME with (2 ^ 38 - 8192) in *.
    rewrite u64_page by lia. split_and!.
    + by rewrite <-Z.add_mod_idemp_r, Z.add_0_r.
    + lia.
    + lia.
    + exists l1, own1. split; [|pose proof (np_len _ _ _ _ _ _ _ _ _ _ _ Hnp) as Hq;
        clear - Hlen Hq; Z.div_mod_to_equations; lia].
      apply (uvmcopy_step i s l own s1 l1 own1 q); [exact Hg|exact Hr|exact Hal|lia|lia|exact Hnp].
    + clear - E. Z.div_mod_to_equations. lia.
Qed.
End uvmcopy.

(** Of the parent only the part below [sz] matters: it may have files mapped
    above. *)
Lemma uvmcopy_wp s l own old new sz :
  pt_inv s l own → old ≠ new → is_root own old →
  (∀ va, 0 ≤ va < PGROUNDUP sz → mapped_user s own old va) → aspace s own new 0 → 0 ≤ sz ≤ TRAPFRAME →
  wp (uvmcopy old new sz) (λ r s', ∃ l' own', pt_inv s' l' own' ∧
    (r = 0 ∧ aspace s' own' new sz ∧ vm_frame new 0 (PGROUNDUP sz) s l own s' l' own' ∧
     (∀ va, 0 ≤ va < PGROUNDUP sz →
        PTE_FLAGS (lookup_pte (ram s') new va) = PTE_FLAGS (lookup_pte (ram s) old va) ∧
        user_load (ram s') new va = user_load (ram s) old va) ∨
     r = -1 ∧ aspace s' own' new 0 ∧ pt_frame new s l own s' l' own' ∧
       vm_frame new 0 TRAPFRAME s l own s' l' own' ∧ free_pages l < 3 * (PGROUNDUP sz / 4096))) s.
Proof using Type.
  intros Hs Hne Hold Hmap Han Hsz. unfold uvmcopy. destruct (pgup_bound sz Hsz) as [Hb _].
  eapply wp_mono; [apply (uvmcopy_loop s l own old new sz); try done|].
  { clear - Hsz. unfold PGSIZE. Z.div_mod_to_equations. lia. }
  intros r s' (l' & own' & [[-> Hg]|(-> & Hs' & Hf & Hlen & a & Ha & Hc)]); exists l', own'.
  - split; [apply Hg|]. left. split; [done|].
    split; [eapply (aspace_grow _ _ new 0 sz); [exact Han|done|done|apply Hb|exact Hg]|].
    split; [apply Hg|]. intros va Hva. by apply (gr_pages _ _ _ _ _ _ _ _ _ _ _ Hg).
  - split; [done|]. right. split_and!; [done| |done| |done].
    + eapply aspace_clear; [exact Han|done| |exact Hf|exact Hc]. lia.
    + eapply vm_frame_widen; [reflexivity| |by eapply vm_frame_clear]. lia.
Qed.

(** [uvmcopy] gives the child the memory of the parent: the same permissions
    and bytes at every address below [sz], in pages of the child's own, and the
    parent keeps its address space; when memory runs out it returns -1 with the
    child's address space empty again.  With three free pages for each page to
    copy it succeeds. *)
Theorem uvmcopy_spec s l own old new sz :
  pt_inv s l own → old ≠ new → aspace s own old sz → aspace s own new 0 → 0 ≤ sz ≤ TRAPFRAME →
  wp (uvmcopy old new sz) (λ r s', ∃ l' own', pt_inv s' l' own' ∧ aspace s' own' old sz ∧
    (r = 0 ∧ aspace s' own' new sz ∧ vm_frame new 0 (PGROUNDUP sz) s l own s' l' own' ∧
     (∀ va, 0 ≤ va < PGROUNDUP sz →
        PTE_FLAGS (lookup_pte (ram s') new va) = PTE_FLAGS (lookup_pte (ram s) old va) ∧
        user_load (ram s') new va = user_load (ram s) old va) ∨
     r = -1 ∧ aspace s' own' new 0 ∧ pt_frame new s l own s' l' own' ∧
       free_pages l < 3 * (PGROUNDUP sz / 4096))) s.
Proof using Type.
  intros Hs Hne Hao Han Hsz.
  eapply wp_mono; [by apply (uvmcopy_wp s l own old new sz Hs Hne (as_root _ _ _ _ Hao) (as_mapped _ _ _ _ Hao))|].
  intros r s' (l' & own' & Hs' & [(-> & Ha & Hf & Hc)|(-> & Ha & Hf & Hv & Hlen)]); exists l', own';
    (split; [done|]; split; [by eapply aspace_other|]); [left|right]; by split_and!.
Qed.


Lemma uvmalloc_wp s l own root oldsz newsz xperm :
  pt_inv s l own → aspace s own root oldsz → 0 ≤ oldsz ≤ newsz → newsz ≤ TRAPFRAME →
  0 ≤ xperm < 1024 →
  wp (uvmalloc root oldsz newsz xperm) (λ r s', ∃ l' own', pt_inv s' l' own' ∧
    (r = newsz ∧ aspace s' own' root newsz ∧
     vm_frame root (PGROUNDUP oldsz) (PGROUNDUP newsz) s l own s' l' own' ∧
     (∀ va, PGROUNDUP oldsz ≤ va < PGROUNDUP newsz →
        PTE_FLAGS (lookup_pte (ram s') root va) = Z.lor (Z.lor (Z.lor PTE_R PTE_U) xperm) PTE_V ∧
        user_load (ram s') root va = 0) ∨
     r = 0 ∧ aspace s' own' root oldsz ∧ pt_frame root s l own s' l' own' ∧
       free_pages l < 3 * ((PGROUNDUP newsz - PGROUNDUP oldsz) / 4096))) s.
Proof using Type.
  intros Hs Ha Hsz Htop Hx. unfold uvmalloc, PGSIZE. case_if E; [lia|].
  destruct (pgup_bound oldsz) as [Hbo Hao]; [lia|]. destruct (pgup_bound newsz) as [Hbn Han]; [lia|].
  pose proof (PGROUNDUP_spec oldsz) as [_ Ho]; [change TRAPFRAME with (2 ^ 38 - 8192) in *; lia|].
  pose proof (PGROUNDUP_spec newsz) as [_ Hn]; [change TRAPFRAME with (2 ^ 38 - 8192) in *; lia|].
  assert (PGROUNDUP oldsz ≤ PGROUNDUP newsz) as Hle
    by (clear - Hao Han Ho Hn Hsz; Z.div_mod_to_equations; lia).
  eapply wp_mono; [apply (uvmalloc_loop s l own root (PGROUNDUP oldsz) newsz xperm)|].
  - apply Ha.
  - done.
  - lia.
  - lia.
  - done.
  - intros va Hva. apply (as_free _ _ _ _ Ha). lia.
  - by eapply aspace_no_pages.
  - done.
  - clear - Ho Hsz. Z.div_mod_to_equations. lia.
  - intros r s' (l' & own' & Hpost). exists l', own'.
    rewrite Z.max_r in Hpost by done. destruct Hpost as [[-> Hg]|(-> & Hs' & Hf & Hlen & a & Hra & Hc)].
    + split; [apply Hg|]. left. split; [done|].
      split; [eapply aspace_grow; [exact Ha|lia|lia|done|exact Hg]|].
      split; [apply Hg|]. intros va Hva. by apply (gr_pages _ _ _ _ _ _ _ _ _ _ _ Hg).
    + split; [done|]. right. split_and!; [done| |done|done].
      eapply aspace_clear; [exact Ha|lia| |exact Hf|exact Hc]. lia.
Qed.

(** [uvmalloc] grows an address space from [oldsz] to [newsz]: the pages it
    adds belong to this process alone, carry exactly the requested permissions
    and read as zero; when memory runs out it returns 0 and the process has the
    address space it had, every page taken for it back on the free list.  No
    other mapping or page of the system changes.  With three free pages for each
    page to add it succeeds. *)
Theorem uvmalloc_spec s l own root oldsz newsz xperm :
  pt_inv s l own → aspace s own root oldsz → 0 ≤ oldsz ≤ newsz → newsz ≤ TRAPFRAME →
  0 ≤ xperm < 1024 →
  wp (uvmalloc root oldsz newsz xperm) (λ r s', ∃ l' own', pt_inv s' l' own' ∧
    (r = newsz ∧ aspace s' own' root newsz ∧
     vm_frame root (PGROUNDUP oldsz) (PGROUNDUP newsz) s l own s' l' own' ∧
     (∀ va, PGROUNDUP oldsz ≤ va < PGROUNDUP newsz →
        PTE_FLAGS (lookup_pte (ram s') root va) = Z.lor (Z.lor (Z.lor PTE_R PTE_U) xperm) PTE_V ∧
        user_load (ram s') root va = 0) ∨
     r = 0 ∧ aspace s' own' root oldsz ∧ pt_frame root s l own s' l' own' ∧
       free_pages l < 3 * ((PGROUNDUP newsz - PGROUNDUP oldsz) / 4096))) s.
Proof using Type. apply uvmalloc_wp. Qed.

End uvm.
