(* ===== verification/UvmFree.v ===== *)
(** * Freeing address spaces

    [freewalk] and [uvmfree] of [kernel/vm.c]: the pages of a table in the order
    in which they are freed, and that freeing a process returns every page it
    owned to the allocator. *)

From S2P Require Import Prelude Riscv Memory CString Kalloc Vm PageTable Mapping UserCopy Uvm.

Section free.
Context {I : Image}.

Lemma bind_ext_in {A B} (f g : A → list B) l :
  (∀ x, x ∈ l → f x = g x) → l ≫= f = l ≫= g.
Proof using Type.
  intros H. induction l as [|x l IH]; [done|]. cbn. rewrite H by left. f_equal.
  apply IH. intros y Hy. apply H. by right.
Qed.

#[local] Opaque seqZ.

(** ** The pages below a table page, in post-order *)

Fixpoint tree_pages (m : mem) (depth : nat) (p : Z) : list Z :=
  match depth with
  | O => []
  | S d =>
      (seqZ 0 512 ≫= λ i, if bit (load64 m (p + 8 * i)) PTE_V
                          then tree_pages m d (PTE2PA (load64 m (p + 8 * i))) else []) ++ [p]
  end.

(** What [freewalk] expects: entries above the last level point to tables, and
    the last level is empty. *)
Fixpoint tree_ok (m : mem) (depth : nat) (p : Z) : Prop :=
  match depth with
  | O => False
  | S d => page_ok p ∧ ∀ i, 0 ≤ i < 512 → bit (load64 m (p + 8 * i)) PTE_V = true →
      Z.land (load64 m (p + 8 * i)) (Z.lor (Z.lor PTE_R PTE_W) PTE_X) = 0 ∧
      tree_ok m d (PTE2PA (load64 m (p + 8 * i)))
  end.

Definition child_pages (m : mem) (d : nat) (p i : Z) : list Z :=
  if bit (load64 m (p + 8 * i)) PTE_V then tree_pages m d (PTE2PA (load64 m (p + 8 * i))) else [].
Lemma tree_pages_S m d p : tree_pages m (S d) p = (seqZ 0 512 ≫= child_pages m d p) ++ [p].
Proof using Type. done. Qed.

Lemma elem_of_child m d p i q :
  0 ≤ i < 512 → bit (load64 m (p + 8 * i)) PTE_V = true →
  q ∈ tree_pages m d (PTE2PA (load64 m (p + 8 * i))) → q ∈ tree_pages m (S d) p.
Proof using Type.
  intros Hi Hv Hq. rewrite tree_pages_S, elem_of_app. left. apply list_elem_of_bind. exists i.
  split; [|by apply elem_of_seqZ; lia]. unfold child_pages. by rewrite Hv.
Qed.
Lemma elem_of_root m d p : p ∈ tree_pages m (S d) p.
Proof using Type. rewrite tree_pages_S, elem_of_app. right. by apply list_elem_of_singleton. Qed.
Lemma elem_of_tree m d p q :
  q ∈ tree_pages m (S d) p ↔ q = p ∨ ∃ i, 0 ≤ i < 512 ∧
    bit (load64 m (p + 8 * i)) PTE_V = true ∧ q ∈ tree_pages m d (PTE2PA (load64 m (p + 8 * i))).
Proof using Type.
  rewrite tree_pages_S, elem_of_app, list_elem_of_singleton, list_elem_of_bind. split.
  - intros [(i & Hq & Hi%elem_of_seqZ)|?]; [right|by left]. unfold child_pages in Hq.
    destruct (bit _ _) eqn:E; [|by apply elem_of_nil in Hq]. exists i. split_and!; (done || lia).
  - intros [->|(i & Hi & Hv & Hq)]; [by right|left]. exists i. unfold child_pages. rewrite Hv.
    split; [done|]. apply elem_of_seqZ. lia.
Qed.

Lemma tree_ok_pages m d p q : tree_ok m d p → q ∈ tree_pages m d p → page_ok q.
Proof using Type.
  revert p. induction d as [|d IH]; intros p Hok Hq; [done|]. destruct Hok as [Hp Hch].
  apply elem_of_tree in Hq as [->|(i & Hi & Hv & Hq)]; [done|].
  eapply IH; [|exact Hq]. by apply Hch.
Qed.

Lemma tree_agree m m' d p :
  (∀ q, q ∈ tree_pages m d p → agree m m' q 4096) →
  tree_pages m' d p = tree_pages m d p ∧ (tree_ok m d p → tree_ok m' d p).
Proof using Type.
  revert p. induction d as [|d IH]; intros p Hag; [done|].
  assert (∀ i, 0 ≤ i < 512 → load64 m' (p + 8 * i) = load64 m (p + 8 * i)) as He.
  { intros i Hi. apply agree_entry; [|done]. apply Hag, elem_of_root. }
  assert (∀ i, 0 ≤ i < 512 → bit (load64 m (p + 8 * i)) PTE_V = true →
    tree_pages m' d (PTE2PA (load64 m (p + 8 * i))) = tree_pages m d (PTE2PA (load64 m (p + 8 * i))) ∧
    (tree_ok m d (PTE2PA (load64 m (p + 8 * i))) → tree_ok m' d (PTE2PA (load64 m (p + 8 * i))))) as Hc.
  { intros i Hi Hv. apply IH. intros q Hq. apply Hag. by eapply elem_of_child. }
  split.
  - rewrite !tree_pages_S. f_equal. apply bind_ext_in. intros i Hi%elem_of_seqZ.
    unfold child_pages. rewrite He by lia. destruct (bit _ _) eqn:E; [|done]. by apply Hc; [lia|].
  - intros [Hp Hok]. split; [done|]. intros i Hi. rewrite He by done. intros Hv.
    destruct (Hok i Hi Hv). split; [done|]. by apply Hc.
Qed.

(** ** freewalk *)

Definition outside (x q : Z) : Prop := x < q ∨ q + 4096 ≤ x.

Lemma outside_page q r m m' :
  (∀ x, outside x q → load8 m' x = load8 m x) →
  page_ok q → page_ok r → q ≠ r → agree m m' r 4096.
Proof using Type. intros H [Hq _] [Hr _] Hne. by apply (same_outside_page q). Qed.

(** A store into a page that is not free. *)
Lemma kmem_store s l p i v :
  kmem_inv s l → page_ok p → p ∉ l → 0 ≤ i < 512 →
  kmem_inv (set_ram (λ m, store64 m (p + 8 * i) v) s) l.
Proof using Type.
  intros [Hb Hl Hn Hp] Hpok Hnin Hi. split; [by apply store64_ok| |done|done].
  eapply (fl_rep_outside p); [exact Hl| |apply Hpok|done|done].
  intros x Hx. apply load8_store64_ne. lia.
Qed.

Section freewalk.
Context (s : machine) (l : list Z) (d : nat) (p : Z).
Hypothesis IH : ∀ c s l,
  kmem_inv s l → tree_ok (ram s) d c → NoDup (tree_pages (ram s) d c ++ l) →
  wp (freewalk d c) (λ _ s',
    kmem_inv s' (reverse (tree_pages (ram s) d c) ++ l) ∧
    ∀ x, (∀ q, q ∈ tree_pages (ram s) d c → outside x q) → load8 (ram s') x = load8 (ram s) x) s.
Hypothesis Hok : tree_ok (ram s) (S d) p.
Hypothesis Hnd : NoDup (tree_pages (ram s) (S d) p ++ l).

(** After the entries [dn], with the entries [td] to come. *)
Let kids := child_pages (ram s) d p.
Definition fw_inv (td : list Z) (s' : machine) : Prop := ∃ dn,
  seqZ 0 512 = dn ++ td ∧
  kmem_inv s' (reverse (dn ≫= kids) ++ l) ∧
  (∀ x, outside x p → (∀ q, q ∈ dn ≫= kids → outside x q) → load8 (ram s') x = load8 (ram s) x) ∧
  (∀ i, i ∈ td → load64 (ram s') (p + 8 * i) = load64 (ram s) (p + 8 * i)).

Lemma fw_split dn i td :
  seqZ 0 512 = dn ++ i :: td →
  0 ≤ i < 512 ∧ i ∉ td ∧ NoDup ((dn ≫= kids) ++ kids i ++ l) ∧ p ∉ (dn ≫= kids) ++ kids i ++ l.
Proof using Hnd.
  intros Hs. assert (NoDup (seqZ 0 512)) as Hn by apply NoDup_seqZ.
  assert (i ∈ seqZ 0 512) as Hi by (rewrite Hs, elem_of_app; right; left).
  rewrite Hs in Hn. apply NoDup_app in Hn as (_ & _ & Hn). apply NoDup_cons in Hn as [Hn _].
  apply elem_of_seqZ in Hi. rewrite tree_pages_S in Hnd. fold kids in Hnd.
  rewrite Hs, bind_app in Hnd. cbn in Hnd. split_and!; [lia|lia|done| |].
  - eapply sublist_NoDup; [exact Hnd|]. rewrite <-!app_assoc. apply sublist_app; [done|].
    apply sublist_app; [done|]. by apply sublist_inserts_l, sublist_inserts_l.
  - intros Hin. rewrite <-!app_assoc in Hnd. rewrite !elem_of_app in Hin.
    rewrite !NoDup_app in Hnd. destruct Hnd as (_ & H1 & _ & H2 & _ & _ & _ & H3 & _).
    destruct Hin as [Hin|[Hin|Hin]].
    + apply (H1 p Hin). rewrite !elem_of_app. right; right; left. by apply list_elem_of_singleton.
    + apply (H2 p Hin). rewrite !elem_of_app. right; left. by apply list_elem_of_singleton.
    + by apply (H3 p); [apply list_elem_of_singleton|].
Qed.

(** The child below entry [i] is still as it was. *)
Lemma fw_child dn i td s1 c :
  seqZ 0 512 = dn ++ i :: td → bit (load64 (ram s) (p + 8 * i)) PTE_V = true →
  c = PTE2PA (load64 (ram s) (p + 8 * i)) →
  (∀ x, outside x p → (∀ q, q ∈ dn ≫= kids → outside x q) → load8 (ram s1) x = load8 (ram s) x) →
  kids i = tree_pages (ram s) d c ∧ (∀ q, q ∈ kids i → page_ok q) ∧
  tree_pages (ram s1) d c = kids i ∧ tree_ok (ram s1) d c.
Proof using Hok Hnd.
  intros Hs Hv -> Hsame. destruct (fw_split dn i td Hs) as (Hi & _ & Hnd1 & Hp1).
  destruct Hok as [Hpok Hch]. destruct (Hch i Hi Hv) as [_ Hc].
  assert (kids i = tree_pages (ram s) d (PTE2PA (load64 (ram s) (p + 8 * i)))) as Hk
    by (unfold kids, child_pages; by rewrite Hv).
  assert (∀ q, q ∈ kids i → page_ok q) as Hkp by (intros q; rewrite Hk; by apply tree_ok_pages).
  assert (∀ q, q ∈ dn ≫= kids → page_ok q) as Hdp.
  { intros q (j & Hq & Hj)%list_elem_of_bind. eapply (tree_ok_pages _ (S d) p); [by split|].
    rewrite tree_pages_S, elem_of_app. left. apply list_elem_of_bind. exists j. split; [done|].
    rewrite Hs, elem_of_app. by left. }
  destruct (tree_agree (ram s) (ram s1) d (PTE2PA (load64 (ram s) (p + 8 * i)))) as [Heq Hok1].
  { rewrite <-Hk. intros q Hq x Hx. destruct (Hkp q Hq) as [Hqa _].
    rewrite !elem_of_app in Hp1. apply NoDup_app in Hnd1 as (_ & Hnd1 & _).
    apply Hsame.
    - destruct Hpok as [Hpa _]. destruct (page_disj q p) as [?|?]; [done|done|by intros ->; auto|left; lia|right; lia].
    - intros r Hr. destruct (Hdp r Hr) as [Hra _].
      destruct (page_disj q r) as [?|?]; [done|done| |left; lia|right; lia].
      intros ->. apply (Hnd1 r Hr). rewrite elem_of_app. by left. }
  rewrite Heq, Hk. split_and!; auto. by rewrite <-Hk.
Qed.

Lemma fw_step i td s1 :
  fw_inv (i :: td) s1 →
  wp (pte ← load_pte (p + 8 * i);
      if bit pte PTE_V && (Z.land pte (Z.lor (Z.lor PTE_R PTE_W) PTE_X) =? 0) then
        let child := PTE2PA pte in
        freewalk d child ;;
        store_pte (p + 8 * i) 0
      else if bit pte PTE_V then panic "freewalk: leaf"
      else mret tt) (λ _ s2, fw_inv td s2) s1.
Proof using All.
  intros (dn & Hs & Hk1 & Hsame & Hent). destruct (fw_split dn i td Hs) as (Hi & Hitd & Hnd1 & Hp1).
  unfold load_pte. wp_steps. rewrite Hent by left.
  assert (seqZ 0 512 = (dn ++ [i]) ++ td) as Hs' by (by rewrite <-app_assoc).
  destruct (bit (load64 (ram s) (p + 8 * i)) PTE_V) eqn:Hv; cbn [andb].
  2:{ wp_steps. exists (dn ++ [i]).
      assert ((dn ++ [i]) ≫= kids = dn ≫= kids) as ->.
      { rewrite bind_app. cbn. unfold kids at 2, child_pages. by rewrite Hv, !app_nil_r. }
      split_and!; try done. intros j Hj. apply Hent. by right. }
  destruct (proj2 Hok i Hi Hv) as [Hz _]. rewrite Hz. cbn [Z.eqb]. cbv zeta.
  destruct (fw_child dn i td s1 _ Hs Hv eq_refl Hsame) as (Hki & Hkp & Htp & Hto).
  set (c := PTE2PA (load64 (ram s) (p + 8 * i))) in *. apply wp_bind.
  eapply wp_mono; [apply (IH c s1 _ Hk1 Hto)|].
  { rewrite Htp. assert (NoDup (kids i ++ (dn ≫= kids) ++ l)) as Hnd2.
    { rewrite app_assoc, (Permutation_app_comm (kids i)), <-app_assoc. done. }
    by rewrite (reverse_Permutation (dn ≫= kids)). }
  rewrite Htp. intros _ s2 [Hk2 Hsame2]. unfold store_pte. apply wp_modify. exists (dn ++ [i]).
  rewrite bind_app, bind_singleton, reverse_app.
  rewrite !elem_of_app in Hp1. assert (page_ok p) as Hpok by apply Hok.
  split_and!; [done| | |].
  - rewrite <-app_assoc. apply kmem_store; [done|done| |done]. rewrite !elem_of_app, !elem_of_reverse. tauto.
  - intros x Hx Hq. unfold set_ram; cbn [ram].
    rewrite load8_store64_ne by (unfold outside in Hx; lia).
    rewrite Hsame2, Hsame; [done|done| |].
    + intros q Hq'. apply Hq. rewrite elem_of_app. by left.
    + intros q Hq'. apply Hq. rewrite elem_of_app. by right.
  - intros j Hj. assert (0 ≤ j < 512) as Hjr.
    { assert (j ∈ seqZ 0 512) as H by (rewrite Hs', elem_of_app; by right).
      apply elem_of_seqZ in H. lia. }
    assert (j ≠ i) by (by intros ->). unfold set_ram; cbn [ram].
    rewrite load64_store64_disj by lia. rewrite <-Hent by (by right). apply agree_entry; [|done].
    intros x Hx. apply Hsame2. intros q Hq. destruct (Hkp q Hq) as [Hqa _]. destruct Hpok as [Hpa _].
    destruct (page_disj p q) as [?|?]; [done|done|by intros ->; auto|left; lia|right; lia].
Qed.

Lemma freewalk_step :
  kmem_inv s l →
  wp (freewalk (S d) p) (λ _ s',
    kmem_inv s' (reverse (tree_pages (ram s) (S d) p) ++ l) ∧
    ∀ x, (∀ q, q ∈ tree_pages (ram s) (S d) p → outside x q) → load8 (ram s') x = load8 (ram s) x) s.
Proof using All.
  intros Hk. cbn [freewalk]. apply wp_bind. eapply wp_mono; [apply (wp_forM _ _ fw_inv)|].
  - exists []. cbn. split_and!; [done|done|done|done].
  - intros i td s1 H1. by apply fw_step.
  - intros _ s1 (dn & Hs & Hk1 & Hsame & _). rewrite app_nil_r in Hs. subst dn.
    assert (page_ok p) as Hpok by apply Hok. rewrite tree_pages_S in Hnd |- *. fold kids in Hnd |- *.
    rewrite <-app_assoc in Hnd. apply NoDup_app in Hnd as (_ & Hd & Hd2).
    apply NoDup_cons in Hd2 as [Hpl _].
    eapply wp_mono; [apply (kfree_wp s1 _ p Hk1 Hpok)|].
    { rewrite elem_of_app, elem_of_reverse. intros [Hin|?]; [|done].
      apply (Hd p Hin). left. }
    intros _ s2 [Hk2 Hout]. rewrite reverse_app. cbn. split; [done|].
    intros x Hx. rewrite Hout, Hsame; [done| | |].
    + apply Hx. rewrite elem_of_app. right. by apply list_elem_of_singleton.
    + intros q Hq. apply Hx. rewrite elem_of_app. by left.
    + apply Hx. rewrite elem_of_app. right. by apply list_elem_of_singleton.
Qed.
End freewalk.

Lemma freewalk_wp d p s l :
  kmem_inv s l → tree_ok (ram s) d p → NoDup (tree_pages (ram s) d p ++ l) →
  wp (freewalk d p) (λ _ s',
    kmem_inv s' (reverse (tree_pages (ram s) d p) ++ l) ∧
    ∀ x, (∀ q, q ∈ tree_pages (ram s) d p → outside x q) → load8 (ram s') x = load8 (ram s) x) s.
Proof using Type.
  revert p s l. induction d as [|d IH]; intros p s l Hk Hok Hnd; [done|].
  by apply freewalk_step.
Qed.

(** ** The tree of a process *)

Section tree.
Context (s : machine) (l : list Z) (own : gmap Z role) (root : Z).
Hypothesis Hs : pt_inv s l own.
Let m := ram s.

Lemma tree_role (d : nat) p pre q :
  own !! p = Some (PT root (Z.of_nat d) pre) → q ∈ tree_pages m (S d) p →
  ∃ (e : nat) pre', (e ≤ d)%nat ∧ own !! q = Some (PT root (Z.of_nat e) pre') ∧
    pre' / 512 ^ Z.of_nat (d - e) = pre.
Proof using Hs.
  revert p pre. induction d as [|d IH]; intros p pre Hp Hq.
  - apply elem_of_tree in Hq as [->|(i & _ & _ & Hq)]; [|by apply elem_of_nil in Hq].
    exists 0%nat, pre. split_and!; [done|done|]. apply Z.div_1_r.
  - apply elem_of_tree in Hq as [->|(i & Hi & Hv & Hq)].
    { exists (S d), pre. split_and!; [done|done|]. rewrite Nat.sub_diag. apply Z.div_1_r. }
    destruct (pt_ptr _ _ _ Hs p root _ pre i Hp Hi) as [Hc _]; [lia|done|].
    replace (Z.of_nat (S d) - 1) with (Z.of_nat d) in Hc by lia.
    destruct (IH _ _ Hc Hq) as (e & pre' & He & Hq' & Hpre). exists e, pre'.
    split_and!; [lia|done|]. replace (Z.of_nat (S d - e)) with (Z.of_nat (d - e) + 1) by lia.
    rewrite Z.pow_add_r, <-Z.div_div, Hpre by lia. change (512 ^ 1) with 512.
    clear - Hi. Z.div_mod_to_equations. lia.
Qed.

Lemma tree_nodup (d : nat) p pre :
  own !! p = Some (PT root (Z.of_nat d) pre) → NoDup (tree_pages m (S d) p).
Proof using Hs.
  revert p pre. induction d as [|d IH]; intros p pre Hp; rewrite tree_pages_S.
  { assert (∀ i, child_pages m 0 p i = []) as H0 by (intros i; unfold child_pages; by destruct (bit _ _)).
    apply NoDup_app. split_and!; [|intros q (i & Hq & _)%list_elem_of_bind|apply NoDup_singleton].
    - apply NoDup_bind; [|intros x _; rewrite H0; constructor|apply NoDup_seqZ].
      intros x1 x2 y _ _ Hy. rewrite H0 in Hy. by apply elem_of_nil in Hy.
    - rewrite H0 in Hq. by apply elem_of_nil in Hq. }
  assert (∀ i q, i ∈ seqZ 0 512 → q ∈ child_pages m (S d) p i → ∃ (e : nat) pre',
    (e ≤ d)%nat ∧ own !! q = Some (PT root (Z.of_nat e) pre') ∧
    pre' / 512 ^ Z.of_nat (d - e) = pre * 512 + i) as Hch.
  { intros i q Hi%elem_of_seqZ Hq. unfold child_pages in Hq. destruct (bit _ _) eqn:Hv;
      [|by apply elem_of_nil in Hq].
    destruct (pt_ptr _ _ _ Hs p root _ pre i Hp) as [Hc _]; [lia|lia|done|].
    replace (Z.of_nat (S d) - 1) with (Z.of_nat d) in Hc by lia. by eapply tree_role. }
  apply NoDup_app. split_and!; [|intros q Hq|apply NoDup_singleton].
  - apply NoDup_bind; [| |apply NoDup_seqZ].
    + intros i j q Hi Hj Hqi Hqj. destruct (Hch i q Hi Hqi) as (e & pe & He & Hoe & Hpe).
      destruct (Hch j q Hj Hqj) as (f & pf & Hf & Hof & Hpf). rewrite Hoe in Hof.
      injection Hof as <-%Nat2Z.inj <-. lia.
    + intros i Hi%elem_of_seqZ. unfold child_pages. destruct (bit _ _) eqn:Hv; [|constructor].
      destruct (pt_ptr _ _ _ Hs p root _ pre i Hp) as [Hc _]; [lia|lia|done|].
      replace (Z.of_nat (S d) - 1) with (Z.of_nat d) in Hc by lia. by eapply IH.
  - apply list_elem_of_bind in Hq as (i & Hq & Hi).
    destruct (Hch i q Hi Hq) as (e & pe & He & Hoe & _). intros ->%list_elem_of_singleton.
    rewrite Hp in Hoe. injection Hoe as Heq%Nat2Z.inj _. lia.
Qed.

Lemma tree_ok_of (d : nat) p pre :
  own !! p = Some (PT root (Z.of_nat d) pre) → 0 ≤ pre →
  (∀ va, 0 ≤ va → va / 2 ^ (12 + 9 * (Z.of_nat d + 1)) = pre →
     bit (lookup_lvl m d p va) PTE_V = false) →
  tree_ok m (S d) p.
Proof using Hs.
  revert p pre. induction d as [|d IH]; intros p pre Hp Hpre Hno;
    (split; [by eapply pt_page|]); intros i Hi Hv.
  - specialize (Hno ((pre * 512 + i) * 4096)). cbn [lookup_lvl] in Hno.
    rewrite PX_div in Hno by done. change (2 ^ (12 + 9 * Z.of_nat 0)) with 4096 in Hno.
    change (2 ^ (12 + 9 * (Z.of_nat 0 + 1))) with (4096 * 512) in Hno.
    rewrite <-Z.div_div, Z.div_mul, (Z.add_comm (pre * 512)), Z.div_add, Z.mod_add, Z.div_small,
      Z.mod_small in Hno by lia.
    rewrite Hno in Hv by lia. done.
  - destruct (pt_ptr _ _ _ Hs p root _ pre i Hp Hi) as [Hc Hf]; [lia|done|].
    replace (Z.of_nat (S d) - 1) with (Z.of_nat d) in Hc by lia. fold m in Hc, Hf. split.
    { rewrite land_flags by done. by rewrite Hf. }
    apply (IH _ _ Hc); [lia|]. intros va Hva Hvp.
    assert (PX (Z.of_nat (S d)) va = i) as HPX.
    { rewrite PX_div by lia. replace (12 + 9 * Z.of_nat (S d)) with (12 + 9 * (Z.of_nat d + 1)) by lia.
      rewrite Hvp. clear - Hi. Z.div_mod_to_equations. lia. }
    specialize (Hno va Hva). cbn [lookup_lvl] in Hno. rewrite HPX, Hv in Hno. apply Hno.
    replace (12 + 9 * (Z.of_nat (S d) + 1)) with (12 + 9 * (Z.of_nat d + 1) + 9) by lia.
    rewrite Z.pow_add_r, <-Z.div_div, Hvp by lia. change (2 ^ 9) with 512.
    clear - Hi. Z.div_mod_to_equations. lia.
Qed.

Lemma tree_all q lv pre :
  own !! q = Some (PT root lv pre) → q ∈ tree_pages m 3 root.
Proof using Hs.
  assert (∀ q pre, own !! q = Some (PT root 2 pre) → q = root) as H2.
  { intros q' pre' Hq. by destruct (pt_top _ _ _ Hs q' root pre' Hq). }
  assert (∀ q pre, own !! q = Some (PT root 1 pre) → ∃ i, 0 ≤ i < 512 ∧
    bit (load64 m (root + 8 * i)) PTE_V = true ∧ PTE2PA (load64 m (root + 8 * i)) = q) as H1.
  { intros q' pre' Hq. destruct (pt_up _ _ _ Hs q' root 1 pre' Hq) as (p & Hp & Hv & Hpa); [lia|].
    apply H2 in Hp as ->. exists (pre' mod 512). split; [by apply Z.mod_pos_bound|done]. }
  intros Hq. destruct (pt_level _ _ _ Hs _ _ _ _ Hq) as [Hl0 Hl2].
  assert (lv = 2 ∨ lv = 1 ∨ lv = 0) as [->|[->| ->]] by lia.
  - rewrite (H2 q pre Hq). apply elem_of_root.
  - destruct (H1 q pre Hq) as (i & Hi & Hv & <-). eapply elem_of_child; [done|done|]. apply elem_of_root.
  - destruct (pt_up _ _ _ Hs q root 0 pre Hq) as (p & Hp & Hv & <-); [lia|].
    destruct (H1 p _ Hp) as (i & Hi & Hvi & <-). eapply elem_of_child; [done|done|].
    eapply elem_of_child; [by apply Z.mod_pos_bound|done|]. apply elem_of_root.
Qed.
End tree.

(** ** Shrinking *)

(** What is left after the pages of [root] from [lo] up have been freed. *)
Record shrunk (root lo : Z) (s : machine) (l : list Z) (own : gmap Z role)
    (s' : machine) (l' : list Z) (own' : gmap Z role) : Prop := {
  sh_inv : pt_inv s' l' own';
  sh_own : ∀ p r, own' !! p = Some r ↔
    own !! p = Some r ∧ ¬ ∃ vpn, r = UPage root vpn ∧ lo ≤ vpn * 4096;
  sh_free : ∀ p, p ∈ l' ↔ p ∈ l ∨ ∃ vpn, own !! p = Some (UPage root vpn) ∧ lo ≤ vpn * 4096;
  sh_lookup : ∀ r0 va0, is_root own r0 → 0 ≤ va0 < MAXVA →
    lookup_pte (ram s') r0 va0 =
      if decide (r0 = root ∧ lo ≤ va0 ∧ bit (lookup_pte (ram s) root va0) PTE_V = true ∧ va0 < TRAPFRAME)
      then 0 else lookup_pte (ram s) r0 va0;
  sh_data : ∀ p r, own' !! p = Some r → (∀ a b c, r ≠ PT a b c) → agree (ram s) (ram s') p 4096;
}.

Lemma uvmunmap_shrunk s l own root sz lo :
  pt_inv s l own → aspace s own root sz → 0 ≤ sz ≤ TRAPFRAME → lo mod 4096 = 0 →
  0 ≤ lo ≤ PGROUNDUP sz →
  wp (uvmunmap root lo ((PGROUNDUP sz - lo) / 4096) true)
     (λ _ s', ∃ l' own', shrunk root lo s l own s' l' own') s.
Proof using Type.
  intros Hs Ha Hsz Hal Hlo. destruct (pgup_bound sz Hsz) as [Hb Hba]. pose proof trapframe_max as Htf.
  set (n := (PGROUNDUP sz - lo) / 4096).
  assert (0 ≤ n ∧ lo + 4096 * n = PGROUNDUP sz) as [Hn Hln].
  { unfold n. clear - Hal Hba Hlo. Z.div_mod_to_equations. lia. }
  assert (∀ va, lo ≤ va < lo + 4096 * n → mapped_user s own root va) as Hmap.
  { intros va Hva. apply (as_mapped _ _ _ _ Ha). lia. }
  eapply wp_mono; [apply (uvmunmap_wp s l own root lo n); try done; [apply Ha|lia|lia]|].
  intros _ s' (Hs' & Hum & Hd).
  pose proof (leaf_pages_role s own root lo (Z.to_nat n)) as Hrole.
  rewrite Z2Nat.id in Hrole by done.
  assert (∀ p, p ∈ leaf_pages (ram s) root lo (Z.to_nat n) ↔
    ∃ vpn, own !! p = Some (UPage root vpn) ∧ lo ≤ vpn * 4096) as Hps.
  { intros p. split; [intros (v & ? & ?)%Hrole; [|done..]; exists v; split; [done|lia]|].
    intros (v & Hv & Hvlo). destruct (as_pages _ _ _ _ Ha p v Hv) as [? Hpa].
    eapply (leaf_pages_all s own root lo); [done| |exact Hv|rewrite Z2Nat.id by done; lia].
    intros p' v' Hp' _. by apply (as_pages _ _ _ _ Ha). }
  set (ps := leaf_pages (ram s) root lo (Z.to_nat n)) in *.
  exists (reverse ps ++ l), (del_all ps own). split.
  - done.
  - intros p r. rewrite lookup_del_all. case_decide as Hin.
    + apply Hps in Hin as (v & Hv & Hvlo). rewrite Hv. split; [done|].
      intros [[= <-] Hno]. destruct Hno. eauto.
    + split; [intros Hp; split; [done|]|by intros [? _]]. intros (v & -> & Hv).
      apply Hin, Hps. eauto.
  - intros p. rewrite elem_of_app, elem_of_reverse, Hps. tauto.
  - intros r0 va0 Hr0 Hva0. rewrite Hum by done.
    destruct (decide (r0 = root)) as [->|]; [|by rewrite !decide_False by tauto].
    destruct (decide (lo ≤ va0 < lo + 4096 * n)) as [Hin|Hin].
    + rewrite !decide_True; [done| |done]. destruct (Hmap va0 Hin) as (Hv & _ & _). split_and!; (done || lia).
    + rewrite !decide_False; [done| |tauto]. intros (_ & Hlo0 & Hv & Htf0).
      rewrite (as_free _ _ _ _ Ha va0) in Hv; [done|lia].
  - intros p r. rewrite lookup_del_all. case_decide as Hin; [done|]. intros Hp Hr. by eapply Hd.
Qed.

Lemma aspace_shrunk root sz new s l own s' l' own' :
  aspace s own root sz → 0 ≤ sz ≤ TRAPFRAME → 0 ≤ new ≤ TRAPFRAME → PGROUNDUP new ≤ PGROUNDUP sz →
  shrunk root (PGROUNDUP new) s l own s' l' own' → aspace s' own' root new.
Proof using Type.
  intros [Hr Hm Hf Ht Hp] Hsz Hnew Hle [Hs' Ho Hfr L D].
  destruct (pgup_bound sz) as [Hb _]; [done|]. destruct (pgup_bound new) as [Hbn _]; [done|].
  pose proof trapframe_max as Htf. split.
  - apply Ho. split; [done|]. by intros (v & ? & _).
  - intros va Hva. destruct (Hm va) as (Hv & Hfl & Hown); [lia|]. unfold mapped_user.
    rewrite L, decide_False by (done || lia). split_and!; try done. apply Ho. split; [done|].
    intros (v & [= <-] & Hlo). clear - Hlo Hva. Z.div_mod_to_equations. lia.
  - intros va Hva. rewrite L by (done || lia). case_decide as Hd; [done|].
    destruct (bit _ _) eqn:E; [|done]. destruct Hd. split_and!; (done || lia).
  - intros va Hva. rewrite L, decide_False by (done || lia). by apply Ht.
  - intros p vpn [Hvp Hn]%Ho. destruct (Hp p vpn Hvp) as [Hrng Hpa].
    assert (vpn * 4096 < PGROUNDUP new) as Hlt.
    { destruct (decide (vpn * 4096 < PGROUNDUP new)); [done|]. destruct Hn. exists vpn. split; [done|lia]. }
    split; [lia|]. rewrite L, decide_False by (done || lia). done.
Qed.

(** [uvmdealloc] frees exactly the pages of the process above [newsz] and
    keeps everything else; asked to grow, it does nothing. *)
Theorem uvmdealloc_spec s l own root oldsz newsz :
  pt_inv s l own → aspace s own root oldsz → 0 ≤ oldsz ≤ TRAPFRAME → 0 ≤ newsz →
  wp (uvmdealloc root oldsz newsz) (λ r s',
    if oldsz <=? newsz then r = oldsz ∧ s' = s
    else r = newsz ∧ ∃ l' own', aspace s' own' root newsz ∧
         shrunk root (PGROUNDUP newsz) s l own s' l' own') s.
Proof using Type.
  intros Hs Ha Hsz Hn. case_if E.
  { unfold uvmdealloc. rewrite (proj2 (Z.leb_le _ _) E). by apply wp_ret. }
  pose proof trapframe_max as Htf. destruct (pgup_bound newsz) as [Hbn Han]; [lia|].
  destruct (pgup_bound oldsz) as [Hbo Hao]; [lia|].
  assert (PGROUNDUP newsz ≤ PGROUNDUP oldsz) as Hle.
  { change TRAPFRAME with (2 ^ 38 - 8192) in *.
    pose proof (PGROUNDUP_spec newsz) as [_ ?]; [lia|]. pose proof (PGROUNDUP_spec oldsz) as [_ ?]; [lia|].
    clear - Han Hao E H H0. Z.div_mod_to_equations. lia. }
  eapply wp_eq; [apply uvmdealloc_eq; lia|]. apply wp_bind.
  eapply wp_mono; [apply (uvmunmap_shrunk s l own root oldsz (PGROUNDUP newsz)); try done; lia|].
  intros _ s' (l' & own' & Hsh). apply wp_ret. split; [done|]. exists l', own'. split; [|done].
  eapply (aspace_shrunk root oldsz newsz); try done. lia.
Qed.

(** ** uvmfree *)

Definition owner (r : role) : option Z :=
  match r with PT root _ _ => Some root | UPage root _ => Some root | OtherPage => None end.

(** After the process [root] has been freed: its pages, and no others, have
    gone to the free list, and the rest of the system is as before. *)
Record freed (root : Z) (s : machine) (l : list Z) (own : gmap Z role)
    (s' : machine) (l' : list Z) (own' : gmap Z role) : Prop := {
  fd_inv : pt_inv s' l' own';
  fd_own : ∀ p r, own' !! p = Some r ↔ own !! p = Some r ∧ owner r ≠ Some root;
  fd_free : ∀ p, p ∈ l' ↔ p ∈ l ∨ ∃ r, own !! p = Some r ∧ owner r = Some root;
  fd_lookup : ∀ r0 va0, is_root own r0 → r0 ≠ root → 0 ≤ va0 < MAXVA →
    lookup_pte (ram s') r0 va0 = lookup_pte (ram s) r0 va0;
  fd_data : ∀ p r, own' !! p = Some r → (∀ a b c, r ≠ PT a b c) → agree (ram s) (ram s') p 4096;
}.

Section free_tree.
Context (s : machine) (l : list Z) (own : gmap Z role) (root : Z).
Hypothesis Hs : pt_inv s l own.
Hypothesis Hr : is_root own root.
Hypothesis Hno : ∀ p vpn, own !! p ≠ Some (UPage root vpn).
Let ps := tree_pages (ram s) 3 root.

Lemma tree_iff q : q ∈ ps ↔ ∃ r, own !! q = Some r ∧ owner r = Some root.
Proof using All.
  split.
  - intros Hq. destruct (tree_role s l own root Hs 2 root 0 q Hr Hq) as (e & pre & _ & Hq' & _). eauto.
  - intros ([r0 lv pre|r0 vpn|] & Hq & Ho); [| |done]; injection Ho as ->.
    + by eapply tree_all.
    + by destruct (Hno q vpn).
Qed.

Lemma tree_freed s' :
  kmem_inv s' (reverse ps ++ l) →
  (∀ x, (∀ q, q ∈ ps → outside x q) → load8 (ram s') x = load8 (ram s) x) →
  freed root s l own s' (reverse ps ++ l) (filter (λ pr, owner pr.2 ≠ Some root) own).
Proof using All.
  intros Hk Hsame. set (own' := filter _ own).
  assert (∀ p r, own' !! p = Some r ↔ own !! p = Some r ∧ owner r ≠ Some root) as Ho.
  { intros p r. unfold own'. by rewrite map_lookup_filter_Some. }
  assert (∀ q r, own' !! q = Some r → agree (ram s) (ram s') q 4096) as Hag.
  { intros q r [Hq Hnr]%Ho x Hx. apply Hsame. intros p Hp. apply tree_iff in Hp as (r' & Hp & Hr').
    assert (page_ok q) as [Hqa _] by (by eapply pt_page).
    assert (page_ok p) as [Hpa _] by (by eapply pt_page).
    destruct (page_disj q p) as [?|?]; [done|done|congruence|left; lia|right; lia]. }
  assert (∀ q r i, own' !! q = Some r → 0 ≤ i < 512 →
    load64 (ram s') (q + 8 * i) = load64 (ram s) (q + 8 * i)) as He.
  { intros q r i Hq Hi. apply agree_entry; [by eapply Hag|done]. }
  assert (pt_inv s' (reverse ps ++ l) own') as Hs'.
  { split.
    - done.
    - intros p. rewrite elem_of_app, elem_of_reverse. intros Hp.
      destruct (own' !! p) as [r|] eqn:E; [|done]. apply Ho in E as [E Hnr].
      destruct Hp as [(r' & Hr' & Hor)%tree_iff|Hp]; [congruence|].
      by rewrite (pt_free _ _ _ Hs p Hp) in E.
    - intros p r [Hp _]%Ho. by eapply pt_page.
    - intros p a b c [Hp _]%Ho. by eapply pt_level.
    - intros p a b c i Hp Hi Hb. rewrite (He p _ i Hp Hi). intros Hv. apply Ho in Hp as [Hp Hne].
      destruct (pt_ptr _ _ _ Hs p a b c i) as [Hc Hf]; try done. split; [|done]. by apply Ho.
    - intros p a c [Hp _]%Ho. by eapply pt_top.
    - intros p a c i Hp Hi. rewrite (He p _ i Hp) by lia. apply Ho in Hp as [Hp _].
      by eapply (pt_half _ _ _ Hs).
    - intros q a b c [Hq Hne]%Ho Hb. destruct (pt_up _ _ _ Hs q a b c Hq Hb) as (p & Hp & Hv).
      assert (own' !! p = Some (PT a (b + 1) (c / 512))) as Hp' by (by apply Ho).
      exists p. split; [done|]. by rewrite (He p _ _ Hp') by (by apply Z.mod_pos_bound). }
  split.
  - done.
  - done.
  - intros p. rewrite elem_of_app, elem_of_reverse, tree_iff. tauto.
  - intros r0 va0 Hr0 Hne Hva0. symmetry.
    apply (tables_agree_lookup s' (reverse ps ++ l) own' (ram s) r0 va0 Hs'); [| |done].
    + intros q a b c Hq x Hx. symmetry. by eapply Hag.
    + apply Ho. split; [done|]. cbn. congruence.
  - intros p r Hp _. by eapply Hag.
Qed.

Lemma freewalk_freed :
  (∀ va, 0 ≤ va < MAXVA → bit (lookup_pte (ram s) root va) PTE_V = false) →
  wp (freewalk 3 root) (λ _ s', ∃ l' own', freed root s l own s' l' own') s.
Proof using All.
  intros Hleaf. eapply wp_mono; [apply (freewalk_wp 3 root s l)|].
  - apply Hs.
  - apply (tree_ok_of s l own root Hs 2 root 0 Hr); [done|]. intros va Hva Hpre.
    destruct (decide (va < MAXVA)) as [?|Hge]; [by apply Hleaf|].
    rewrite MAXVA_val in Hge. change (2 ^ (12 + 9 * (Z.of_nat 2 + 1))) with (2 ^ 39) in Hpre.
    cbn [lookup_lvl]. rewrite (pt_half _ _ _ Hs root root 0); [done|done|].
    rewrite PX_div by done. change (2 ^ (12 + 9 * Z.of_nat 2)) with (2 ^ 30).
    clear - Hva Hpre Hge. Z.div_mod_to_equations. lia.
  - apply NoDup_app. split_and!.
    + by apply (tree_nodup s l own root Hs 2 root 0).
    + intros q (r & Hq & _)%tree_iff Hql. by rewrite (pt_free _ _ _ Hs q Hql) in Hq.
    + apply (pt_kmem _ _ _ Hs).
  - intros _ s' [Hk Hsame]. exists (reverse ps ++ l), (filter (λ pr, owner pr.2 ≠ Some root) own).
    by apply tree_freed.
Qed.
End free_tree.

Lemma uvmfree_wp s l own root sz :
  pt_inv s l own → aspace s own root sz → 0 ≤ sz ≤ TRAPFRAME →
  (∀ va, TRAPFRAME ≤ va < MAXVA → bit (lookup_pte (ram s) root va) PTE_V = false) →
  wp (uvmfree root sz) (λ _ s', ∃ l' own', freed root s l own s' l' own') s.
Proof using Type.
  intros Hs Ha Hsz Htop. destruct (pgup_bound sz Hsz) as [Hb Hba]. unfold uvmfree, PGSIZE. apply wp_bind.
  apply wp_mono with (λ _ s1, ∃ l1 own1, shrunk root 0 s l own s1 l1 own1).
  { case_if E.
    - rewrite <-(Z.sub_0_r (PGROUNDUP sz)).
      apply (uvmunmap_shrunk s l own root sz 0); (done || lia).
    - apply wp_ret. assert (sz = 0) as -> by lia. exists l, own.
      assert (∀ p vpn, own !! p = Some (UPage root vpn) → False) as Hno.
      { intros p vpn Hp. destruct (as_pages _ _ _ _ Ha p vpn Hp) as [H _].
        change (PGROUNDUP 0) with 0 in H. lia. }
      split; [done| | | |by intros ????].
      + intros p r. split; [intros Hp; split; [done|]|by intros [? _]].
        intros (v & -> & _). by eapply Hno.
      + intros p. split; [by left|]. intros [?|(v & Hv & _)]; [done|]. by destruct (Hno p v).
      + intros r0 va0 Hr0 Hva0. rewrite decide_False; [done|]. intros (_ & _ & Hv & ?).
        rewrite (as_free _ _ _ _ Ha va0) in Hv; [done|]. change (PGROUNDUP 0) with 0. lia. }
  intros _ s1 (l1 & own1 & [Hs1 Ho1 Hf1 L1 D1]).
  assert (∀ p vpn, own1 !! p ≠ Some (UPage root vpn)) as Hno.
  { intros p vpn [Hp Hn]%Ho1. destruct (as_pages _ _ _ _ Ha p vpn Hp). destruct Hn.
    exists vpn. split; [done|lia]. }
  assert (∀ r0, is_root own r0 → is_root own1 r0) as Hroot.
  { intros r0 Hr0. apply Ho1. split; [done|]. by intros (v & ? & _). }
  eapply wp_mono; [apply (freewalk_freed s1 l1 own1 root Hs1); [apply Hroot, Ha|done|]|].
  { intros va Hva. rewrite L1 by (apply Ha || done). case_decide as Hd; [done|].
    destruct (decide (TRAPFRAME ≤ va)); [apply Htop; lia|]. destruct (bit _ _) eqn:E; [|done].
    destruct Hd. split_and!; (done || lia). }
  intros _ s2 (l2 & own2 & [Hs2 Ho2 Hf2 L2 D2]). exists l2, own2. split.
  - done.
  - intros p r. rewrite Ho2, Ho1. split; [tauto|]. intros [Hp Hn]. split_and!; try done.
    intros (v & -> & _). done.
  - intros p. rewrite Hf2, Hf1. split.
    + intros [[?|(v & Hv & _)]|(r & [Hp _]%Ho1 & Hr)]; [by left|right..]; eauto.
    + intros [?|(r & Hp & Hr)]; [by left; left|].
      destruct r as [r0 lv pre|r0 v|]; [| |done]; injection Hr as ->.
      * right. exists (PT root lv pre). split; [|done]. apply Ho1. split; [done|]. by intros (v & ? & _).
      * left. right. exists v. destruct (as_pages _ _ _ _ Ha p v Hp). split; [done|lia].
  - intros r0 va0 Hr0 Hne Hva0. rewrite L2, L1 by auto. by rewrite decide_False by tauto.
  - intros p r Hp Hr. apply Ho2 in Hp as Hp1. destruct Hp1 as [Hp1 _].
    eapply agree_trans; [by eapply D1|]. by eapply D2.
Qed.

(** C26: [uvmfree] leaks nothing and frees nothing else: from an address space
    whose trampoline and trapframe have been unmapped it returns to the free
    list every page the process owned, user pages and page-table pages alike,
    and leaves every other process as it was. *)
Theorem uvmfree_spec s l own root sz :
  pt_inv s l own → aspace s own root sz → 0 ≤ sz ≤ TRAPFRAME →
  (∀ va, TRAPFRAME ≤ va < MAXVA → bit (lookup_pte (ram s) root va) PTE_V = false) →
  wp (uvmfree root sz) (λ _ s', ∃ l' own', freed root s l own s' l' own') s.
Proof using Type. apply uvmfree_wp. Qed.

(** ** uvmcreate *)

Section create.
Context (s s2 : machine) (l : list Z) (own : gmap Z role) (q : Z).
Hypothesis Hs : pt_inv s (q :: l) own.
Hypothesis Hk : kmem_inv s2 l.
Hypothesis Hout : same_outside q (ram s) (ram s2).
Hypothesis Hzero : ∀ x, q ≤ x < q + 4096 → load8 (ram s2) x = 0.
Let own' := <[q := PT q 2 0]> own.

Lemma create_entry i : 0 ≤ i < 512 → load64 (ram s2) (q + 8 * i) = 0.
Proof using Hzero. intros. apply load64_zero. intros x Hx. apply Hzero. lia. Qed.

Lemma create_role p r : p ≠ q → own' !! p = Some r ↔ own !! p = Some r.
Proof using Type. intros. unfold own'. by rewrite lookup_insert_ne. Qed.

Lemma create_inv : pt_inv s2 l own'.
Proof using All.
  destruct (link_fresh s l own q Hs) as (Hq & Hfresh & Hql).
  destruct (same_outside_tables q (ram s) (ram s2) s (q :: l) own) as [Ht _]; try done.
  assert (∀ p a b c i, own !! p = Some (PT a b c) → 0 ≤ i < 512 →
    load64 (ram s2) (p + 8 * i) = load64 (ram s) (p + 8 * i)) as He.
  { intros p a b c i Hp Hi. apply agree_entry; [by eapply Ht|done]. }
  split.
  - done.
  - intros p Hp. unfold own'. rewrite lookup_insert_ne by (intros ->; done).
    apply (pt_free _ _ _ Hs). by right.
  - intros p r. unfold own'. rewrite lookup_insert. case_decide; [by subst|]. by apply Hs.
  - intros p a b c. unfold own'. rewrite lookup_insert. case_decide; [intros [= <- <- <-]; lia|].
    by apply Hs.
  - intros p a b c i Hp Hi Hb Hv. destruct (decide (p = q)) as [->|Hpq].
    { rewrite create_entry in Hv by done. done. }
    apply create_role in Hp; [|done]. rewrite (He p a b c i Hp Hi) in Hv |- *.
    destruct (pt_ptr _ _ _ Hs p a b c i) as [Hc Hf]; try done. split; [|done].
    apply create_role; [congruence|done].
  - intros p a c. unfold own'. rewrite lookup_insert. case_decide; [by intros [= <- <-]|]. by apply Hs.
  - intros p a c i Hp Hi. destruct (decide (p = q)) as [->|Hpq]; [by rewrite create_entry by lia|].
    apply create_role in Hp; [|done]. rewrite (He p a 2 c i Hp) by lia. by eapply (pt_half _ _ _ Hs).
  - intros p a b c Hp Hb. destruct (decide (p = q)) as [->|Hpq].
    { unfold own' in Hp. rewrite lookup_insert_eq in Hp. injection Hp as _ <- _. lia. }
    apply create_role in Hp; [|done]. destruct (pt_up _ _ _ Hs p a b c Hp Hb) as (p' & Hp' & Hv).
    exists p'. rewrite create_role by congruence. split; [done|].
    by rewrite (He _ _ _ _ _ Hp') by (by apply Z.mod_pos_bound).
Qed.

Lemma create_frame : vm_frame q 0 0 s (q :: l) own s2 l own'.
Proof using All.
  destruct (link_fresh s l own q Hs) as (Hq & Hfresh & Hql).
  destruct (same_outside_tables q (ram s) (ram s2) s (q :: l) own) as [Ht Ha]; try done. split.
  - by apply insert_subseteq.
  - intros p r Hp _. by eapply Ha.
  - intros p Hp. by right.
  - intros p r. unfold own'. rewrite lookup_insert. case_decide as E; [|by left].
    intros [= <-]. right. split; [subst; left|]. left. eauto.
  - intros p [->|Hp]%elem_of_cons; [right|by left]. unfold own'. rewrite lookup_insert_eq. eauto.
  - intros r0 va0 Hr0 Hva0 _. by apply (tables_agree_lookup s (q :: l) own (ram s2) r0 va0).
Qed.

Lemma create_lookup va : lookup_pte (ram s2) q va = 0.
Proof using Hzero. unfold lookup_pte. cbn [lookup_lvl]. by rewrite create_entry by (apply PX_bound; lia). Qed.
End create.

Lemma uvmcreate_wp s l own :
  pt_inv s l own → (∀ p root vpn, own !! p = Some (UPage root vpn) → is_root own root) →
  wp uvmcreate (λ r s',
    r = 0 ∧ l = [] ∧ s' = s ∨
    ∃ l', l = r :: l' ∧ let own' := <[r := PT r 2 0]> own in
      pt_inv s' l' own' ∧ aspace s' own' r 0 ∧ vm_frame r 0 0 s l own s' l' own' ∧
      ∀ va, lookup_pte (ram s') r va = 0) s.
Proof using Type.
  intros Hs Hup. unfold uvmcreate. apply wp_bind. eapply wp_mono; [by apply kalloc_role|].
  intros q s1 [(-> & -> & ->)|(l1 & -> & Hne & Hq & Hfresh & Hql & Hs1 & Hout)].
  { cbn [Z.eqb]. apply wp_ret. by left. }
  rewrite (proj2 (Z.eqb_neq _ _) Hne). apply wp_bind, wp_modify, wp_ret. right. exists l1.
  split; [done|]. cbv zeta. destruct (pt_kmem _ _ _ Hs1) as [Hb Hl Hn Hp].
  assert (kmem_inv (set_ram (memset q 0 PGSIZE) s1) l1) as Hk.
  { split; [by apply memset_ok| |done|done].
    eapply (fl_rep_outside q); [exact Hl|apply memset_page_out|apply Hq|done|done]. }
  assert (same_outside q (ram s) (ram (set_ram (memset q 0 PGSIZE) s1))) as Hout2.
  { intros x Hx. unfold set_ram; cbn [ram]. rewrite memset_page_out by done. by apply Hout. }
  assert (∀ x, q ≤ x < q + 4096 → load8 (ram (set_ram (memset q 0 PGSIZE) s1)) x = 0) as Hz.
  { intros x Hx. unfold set_ram; cbn [ram]. by rewrite load8_memset, decide_True by (unfold PGSIZE; lia). }
  pose proof (create_inv s _ l1 own q Hs Hk Hout2 Hz) as Hinv.
  pose proof (create_frame s _ l1 own q Hs Hk Hout2 Hz) as Hfr.
  pose proof (create_lookup _ q Hz) as Hlk.
  split; [exact Hinv|]. split; [|by split]. split.
  - unfold is_root. by rewrite lookup_insert_eq.
  - intros va Hva. change (PGROUNDUP 0) with 0 in Hva. lia.
  - intros va _. by rewrite Hlk.
  - intros va _. by rewrite Hlk.
  - intros p vpn Hpv. rewrite lookup_insert in Hpv. case_decide; [done|].
    apply Hup in Hpv. unfold is_root in Hpv. congruence.
Qed.

(** [uvmcreate] returns the empty address space on a new page, or 0 and an
    unchanged system when there is no page. *)
Theorem uvmcreate_spec s l own :
  pt_inv s l own → (∀ p root vpn, own !! p = Some (UPage root vpn) → is_root own root) →
  wp uvmcreate (λ r s',
    r = 0 ∧ l = [] ∧ s' = s ∨
    ∃ l', l = r :: l' ∧ let own' := <[r := PT r 2 0]> own in
      pt_inv s' l' own' ∧ aspace s' own' r 0 ∧ vm_frame r 0 0 s l own s' l' own' ∧
      ∀ va, lookup_pte (ram s') r va = 0) s.
Proof using Type. apply uvmcreate_wp. Qed.

End free.
