(* ===== verification/VmExamples.v ===== *)
(** * Concrete address spaces

    A machine with one process, built by running the kernel's own routines, on
    which the theorems of [Mapping], [UserCopy], [Uvm] and [UvmFree] are
    applied. *)

From S2P Require Import Prelude Riscv Memory CString Kalloc Vm PageTable Mapping UserCopy Uvm UvmFree.

Definition demo_page (i : Z) : Z := 0x87FF0000 + 4096 * i.
Definition demo_root : Z := demo_page 0.
Definition demo_free : list Z := demo_page <$> [1; 2; 3; 4; 5; 6; 7; 8; 9; 10; 11; 13; 14; 15].

(** Free pages linked into a list. *)
Fixpoint link_pages (l : list Z) (m : mem) : mem :=
  match l with
  | [] => m
  | p :: l => store64 (link_pages l m) p (default 0 (head l))
  end.

(** An empty table at [demo_root] and the free pages. *)
Definition demo_vm : machine := Machine (link_pages demo_free ∅) (demo_page 1).
Definition demo_own : gmap Z role := {[demo_root := PT demo_root 2 0]}.

(** The process after it has been given two writable pages. *)
Definition demo_proc : machine :=
  final_state (uvmalloc demo_root 0 8192 PTE_W demo_vm) demo_vm.
(** ... and after [fork] has made a table for its child. *)
Definition demo_child : Z := final_value (uvmcreate demo_proc) 0.
Definition demo_fork : machine := final_state (uvmcreate demo_proc) demo_vm.

Lemma demo_page_ok_all i : 0 ≤ i < 16 → page_ok (demo_page i).
Proof.
  intros Hi. unfold page_ok, demo_page, PHYSTOP, KERNBASE. change end_ with 0x87FF0000.
  split; [|lia]. rewrite Z.mul_comm, Z.mod_add by done. done.
Qed.

Lemma demo_vm_kmem : kmem_inv demo_vm demo_free.
Proof.
  split.
  - unfold demo_vm, demo_free; cbn [ram fmap list_fmap link_pages]. auto 20 with xv6.
  - vm_compute. split_and!; reflexivity.
  - unfold demo_free. apply NoDup_fmap_2; [|apply (bool_decide_unpack _); by vm_compute].
    intros x y. unfold demo_page. lia.
  - unfold demo_free. apply Forall_fmap, Forall_forall. intros i Hi. apply demo_page_ok_all.
    repeat (apply elem_of_cons in Hi as [->|Hi]; [lia|]). by apply elem_of_nil in Hi.
Qed.

Lemma demo_root_empty i : 0 ≤ i < 512 → load64 (ram demo_vm) (demo_root + 8 * i) = 0.
Proof.
  intros Hi. unfold demo_vm, demo_free; cbn [ram fmap list_fmap link_pages head default].
  unfold demo_root, demo_page.
  rewrite !load64_store64_disj by lia. apply load64_zero. intros x _. done.
Qed.

Lemma demo_vm_inv : pt_inv demo_vm demo_free demo_own.
Proof.
  assert (∀ p r, demo_own !! p = Some r → p = demo_root ∧ r = PT demo_root 2 0) as Ho.
  { unfold demo_own. by intros p r [<- <-]%lookup_singleton_Some. }
  split.
  - exact demo_vm_kmem.
  - intros p Hp. destruct (demo_own !! p) as [r|] eqn:E; [|done]. apply Ho in E as [-> _].
    apply list_elem_of_fmap in Hp as (i & Hp & Hi). unfold demo_root, demo_page in Hp.
    assert (i = 0) as -> by lia. exfalso. revert Hi. apply (bool_decide_unpack _). by vm_compute.
  - intros p r [-> _]%Ho. by apply demo_page_ok_all.
  - intros p a b c [-> [= -> -> ->]]%Ho. lia.
  - intros p a b c i [-> [= -> -> ->]]%Ho Hi _. by rewrite demo_root_empty.
  - by intros p a c [-> [= -> ->]]%Ho.
  - intros p a c i [-> [= -> ->]]%Ho Hi. by rewrite demo_root_empty by lia.
  - intros q a b c [-> [= -> -> ->]]%Ho. lia.
Qed.

Lemma demo_vm_lookup va : lookup_pte (ram demo_vm) demo_root va = 0.
Proof. unfold lookup_pte. cbn [lookup_lvl]. by rewrite demo_root_empty by (apply PX_bound; lia). Qed.

Lemma demo_vm_aspace : aspace demo_vm demo_own demo_root 0.
Proof.
  split.
  - by vm_compute.
  - intros va. change (PGROUNDUP 0) with 0. lia.
  - intros va _. by rewrite demo_vm_lookup.
  - intros va _. by rewrite demo_vm_lookup.
  - unfold demo_own. by intros p vpn [_ ?]%lookup_singleton_Some.
Qed.

Lemma demo_alloc_value : final_value (uvmalloc demo_root 0 8192 PTE_W demo_vm) 0 = 8192.
Proof. by vm_compute. Qed.
Lemma demo_fork_value : final_value (uvmcreate demo_proc) 0 ≠ 0.
Proof. vm_compute. congruence. Qed.

Lemma demo_proc_eq : final_state (uvmalloc demo_root 0 8192 PTE_W demo_vm) demo_vm = demo_proc.
Proof. reflexivity. Qed.
Lemma demo_fork_eq :
  final_value (uvmcreate demo_proc) 0 = demo_child ∧ final_state (uvmcreate demo_proc) demo_vm = demo_fork.
Proof. split; reflexivity. Qed.
#[global] Opaque demo_proc demo_child demo_fork.

Lemma demo_sz : 0 ≤ 8192 ≤ TRAPFRAME.
Proof. by vm_compute. Qed.

Record demo_facts (l : list Z) (own : gmap Z role) : Prop := {
  df_inv : pt_inv demo_proc l own;
  df_aspace : aspace demo_proc own demo_root 8192;
  df_flags : ∀ va, 0 ≤ va < 8192 → PTE_FLAGS (lookup_pte (ram demo_proc) demo_root va) = 23;
  df_top : ∀ va, 8192 ≤ va < MAXVA → lookup_pte (ram demo_proc) demo_root va = 0;
  df_roots : ∀ p root vpn, own !! p = Some (UPage root vpn) → is_root own root;
}.
Lemma demo_proc_facts : ∃ l own, demo_facts l own.
Proof.
  assert (0 ≤ 0 ≤ 8192) as H1 by lia. assert (8192 ≤ TRAPFRAME) as H2 by done.
  assert (0 ≤ PTE_W < 1024) as H3 by done.
  pose proof (wp_final _ _ demo_vm 0 demo_vm (uvmalloc_wp demo_vm demo_free demo_own demo_root 0 8192 PTE_W
    demo_vm_inv demo_vm_aspace H1 H2 H3)) as H.
  rewrite demo_alloc_value, demo_proc_eq in H.
  destruct H as (l & own & Hs & [(_ & Ha & Hf & Hp)|[? _]]); [|done].
  exists l, own. split; [exact Hs|exact Ha| | |].
  - intros va Hva. change (PGROUNDUP 0) with 0 in Hp. change (PGROUNDUP 8192) with 8192 in Hp.
    destruct (Hp va Hva) as [-> _]. reflexivity.
  - intros va Hva. rewrite (vf_lookup _ _ _ _ _ _ _ _ _ Hf); [apply demo_vm_lookup|by vm_compute|lia|].
    change (PGROUNDUP 8192) with 8192. lia.
  - intros p root vpn Hpv. destruct (vf_new _ _ _ _ _ _ _ _ _ Hf p _ Hpv)
      as [Hp0|[_ [(? & ? & ?)|(v & [= -> _] & _)]]]; [|done|].
    + unfold demo_own in Hp0. by apply lookup_singleton_Some in Hp0 as [_ ?].
    + eapply lookup_weaken; [|apply Hf]. by vm_compute.
Qed.

Lemma flags_writable m root va :
  va < MAXVA → PTE_FLAGS (lookup_pte m root va) = 23 → user_writable m root va = true.
Proof.
  intros Hva Hf. unfold user_writable, user_readable, bit.
  rewrite (proj2 (Z.ltb_lt va MAXVA) Hva).
  rewrite !(land_flags (lookup_pte m root va)), Hf by done. done.
Qed.
Lemma demo_writable l own va :
  demo_facts l own → 0 ≤ va < 8192 → user_writable (ram demo_proc) demo_root va = true.
Proof.
  intros Hd Hva. apply flags_writable; [change MAXVA with (2 ^ 38); lia|]. by apply (df_flags _ _ Hd).
Qed.

Lemma demo_fork_facts : ∃ l own,
  pt_inv demo_fork l own ∧ aspace demo_fork own demo_root 8192 ∧
  aspace demo_fork own demo_child 0 ∧ demo_root ≠ demo_child.
Proof.
  destruct demo_proc_facts as (l & own & Hd).
  pose proof (wp_final _ _ demo_proc 0 demo_vm (uvmcreate_wp demo_proc l own (df_inv _ _ Hd) (df_roots _ _ Hd))) as H.
  pose proof demo_fork_value as Hv. destruct demo_fork_eq as [He1 He2]. rewrite He1, He2 in H. rewrite He1 in Hv.
  destruct H as [(Hz & _)|(l' & Hl & Hs & Ha & Hf & _)]; [destruct (Hv Hz)|].
  assert (demo_root ≠ demo_child) as Hne.
  { intros Heq. pose proof (as_root _ _ _ _ (df_aspace _ _ Hd)) as Hr. unfold is_root in Hr.
    rewrite (pt_free _ _ _ (df_inv _ _ Hd) demo_root) in Hr; [discriminate Hr|].
    rewrite Hl, <-Heq. left. }
  exists l', (<[demo_child := PT demo_child 2 0]> own).
  split; [exact Hs|]. split; [|split; [exact Ha|exact Hne]].
  eapply aspace_other; [exact (df_aspace _ _ Hd)|exact demo_sz|exact Hne|exact Hf].
Qed.

(** ** The theorems at work *)

Lemma mappages_spec_witness :
  wp (mappages demo_root 4096 8192 (demo_page 12) (Z.lor PTE_R PTE_U)) (λ r s', ∃ l' own' k,
    pt_inv s' l' own' ∧ map_range (ram demo_vm) (ram s') demo_own demo_root 4096 k (demo_page 12)
      (Z.lor PTE_R PTE_U) ∧ (r = 0 ∧ k = 2 ∨ r = -1 ∧ 0 ≤ k < 2 ∧ l' = [])) demo_vm.
Proof.
  eapply wp_mono; [apply (mappages_spec demo_vm demo_free demo_own demo_root 4096 8192 (demo_page 12))|].
  - exact demo_vm_inv.
  - reflexivity.
  - reflexivity.
  - lia.
  - reflexivity.
  - lia.
  - by vm_compute.
  - reflexivity.
  - by vm_compute.
  - by vm_compute.
  - by vm_compute.
  - intros va0 _. by rewrite demo_vm_lookup.
  - intros r s' (l' & own' & k & H1 & _ & H2 & H3). exists l', own', k. split_and!; [done|done|naive_solver].
Defined.

Lemma mappages_walkaddr_witness :
  wp (r ← mappages demo_root 4096 8192 (demo_page 12) (Z.lor PTE_R PTE_U);
      if r =? 0 then walkaddr demo_root 8200 else mret 0)
     (λ a s', a = demo_page 13 ∨ a = 0 ∧ freelist s' = 0) demo_vm.
Proof.
  eapply wp_mono; [apply (mappages_walkaddr demo_vm demo_free demo_own demo_root 4096 8192
    (demo_page 12) (Z.lor PTE_R PTE_U))|].
  - exact demo_vm_inv.
  - reflexivity.
  - reflexivity.
  - lia.
  - reflexivity.
  - lia.
  - by vm_compute.
  - reflexivity.
  - by vm_compute.
  - by vm_compute.
  - by vm_compute.
  - reflexivity.
  - intros va0 _. by rewrite demo_vm_lookup.
  - lia.
  - intros a s' [->|H]; [left; reflexivity|by right].
Defined.

Lemma mappages_remap_witness :
  mappages demo_root 4096 4096 (demo_page 12) PTE_R demo_proc = Panic "mappages: remap" demo_proc.
Proof.
  destruct demo_proc_facts as (l & own & Hd).
  apply (mappages_remap demo_proc l own demo_root 4096 4096 (demo_page 12) PTE_R).
  - apply Hd.
  - apply (df_aspace _ _ Hd).
  - reflexivity.
  - by vm_compute.
  - reflexivity.
  - lia.
  - by apply (as_mapped _ _ _ _ (df_aspace _ _ Hd)).
Defined.

Lemma uvmunmap_spec_witness :
  wp (uvmunmap demo_root 4096 1 true) (λ _ s',
    ∃ own, unmap_range (ram demo_proc) (ram s') own demo_root 4096 1) demo_proc.
Proof.
  destruct demo_proc_facts as (l & own & Hd).
  eapply wp_mono; [apply (uvmunmap_spec demo_proc l own demo_root 4096 1)|].
  - apply Hd.
  - apply (df_aspace _ _ Hd).
  - reflexivity.
  - lia.
  - lia.
  - by vm_compute.
  - intros va0 Hva0. apply (as_mapped _ _ _ _ (df_aspace _ _ Hd)). change (PGROUNDUP 8192) with 8192. lia.
  - intros u s' (_ & H & _). exists own. exact H.
Defined.

Lemma uvmunmap_hole_witness : ∃ why, uvmunmap demo_root 8192 1 true demo_proc = Panic why demo_proc.
Proof.
  destruct demo_proc_facts as (l & own & Hd).
  apply (uvmunmap_hole demo_proc l own demo_root 8192 1 true).
  - apply Hd.
  - apply (df_aspace _ _ Hd).
  - reflexivity.
  - by vm_compute.
  - lia.
  - lia.
  - by rewrite (df_top _ _ Hd) by by vm_compute.
Defined.

Lemma copyout_spec_witness :
  wp (copyout demo_root 8188 [1; 2; 3; 4; 5; 6; 7; 8] 8) (λ r s', r = -1 ∧
    ∃ own, user_upd (ram demo_proc) (ram s') own demo_root 8188 [1; 2; 3; 4]) demo_proc.
Proof.
  destruct demo_proc_facts as (l & own & Hd).
  eapply wp_mono; [apply (copyout_spec demo_proc l own demo_root 8188 [1; 2; 3; 4; 5; 6; 7; 8])|].
  - apply Hd.
  - apply (df_aspace _ _ Hd).
  - eapply aspace_user_inv, Hd.
  - lia.
  - repeat constructor; lia.
  - intros r s' (k & _ & Hu & Hw & Hres).
    assert (user_writable (ram demo_proc) demo_root 8192 = false) as H8.
    { unfold user_writable, user_readable. rewrite (df_top _ _ Hd) by (vm_compute; split; congruence).
      by rewrite andb_false_r. }
    assert (k = 4)%nat as Hk.
    { cbn [length] in Hres. destruct Hres as [[_ ->]|(_ & Hlt & Hbad)].
      - rewrite Hw in H8 by lia. congruence.
      - assert (4 ≤ k)%nat.
        { destruct (decide (k < 4)%nat); [|lia]. rewrite (demo_writable l own) in Hbad by (exact Hd || lia).
          congruence. }
        destruct (decide (k = 4)%nat); [assumption|]. rewrite Hw in H8 by lia. congruence. }
    subst k. split; [|exists own; exact Hu]. cbn [length] in Hres. lia.
Defined.

Lemma copyin_spec_witness :
  wp (copyin demo_root 4090 12) (λ r s', s' = demo_proc ∧ ∃ k, r.2 = user_bytes (ram demo_proc) demo_root 4090 k)
    demo_proc.
Proof.
  destruct demo_proc_facts as (l & own & Hd).
  eapply wp_mono; [apply (copyin_spec demo_proc l own demo_root 4090 12)|].
  - apply Hd.
  - apply (df_aspace _ _ Hd).
  - eapply aspace_user_inv, Hd.
  - lia.
  - intros r s' (-> & k & H & _). split; [reflexivity|]. exists k. exact H.
Defined.

Lemma copyinstr_spec_witness :
  wp (copyinstr demo_root 4090 128) (λ r s', s' = demo_proc ∧
    copyinstr_post (ram demo_proc) demo_root 4090 128 r.1 r.2) demo_proc.
Proof.
  destruct demo_proc_facts as (l & own & Hd).
  apply (copyinstr_spec demo_proc l own demo_root 4090 128).
  - apply Hd.
  - apply (df_aspace _ _ Hd).
  - eapply aspace_user_inv, Hd.
  - lia.
Defined.

Lemma copyout_copyin_witness :
  wp (r ← copyout demo_root 4094 [10; 20; 30; 40] 4; p ← copyin demo_root 4094 4; mret (r, p))
     (λ r _, r = (0, (0, [10; 20; 30; 40]))) demo_proc.
Proof.
  destruct demo_proc_facts as (l & own & Hd).
  apply (copyout_copyin demo_proc l own demo_root 4094 [10; 20; 30; 40]).
  - apply Hd.
  - apply (df_aspace _ _ Hd).
  - eapply aspace_user_inv, Hd.
  - lia.
  - repeat constructor; lia.
  - cbn [length]. intros va0 Hva0. apply (demo_writable l own); [exact Hd|lia].
Defined.

Lemma uvmalloc_spec_witness :
  wp (uvmalloc demo_root 0 5000 PTE_W) (λ r s', ∃ l' own', pt_inv s' l' own' ∧
    (r = 5000 ∧ aspace s' own' demo_root 5000 ∨ r = 0 ∧ aspace s' own' demo_root 0)) demo_vm.
Proof.
  eapply wp_mono; [apply (uvmalloc_spec demo_vm demo_free demo_own demo_root 0 5000 PTE_W)|].
  - exact demo_vm_inv.
  - exact demo_vm_aspace.
  - lia.
  - vm_compute. congruence.
  - by vm_compute.
  - intros r s' (l' & own' & H & [(-> & Ha & _)|(-> & Ha & _)]); exists l', own'; (split; [exact H|]);
      [left|right]; split; (reflexivity || exact Ha).
Defined.

Lemma uvmdealloc_spec_witness :
  wp (uvmdealloc demo_root 8192 100) (λ r s', r = 100 ∧ ∃ own', aspace s' own' demo_root 100) demo_proc.
Proof.
  destruct demo_proc_facts as (l & own & Hd).
  eapply wp_mono; [apply (uvmdealloc_spec demo_proc l own demo_root 8192 100)|].
  - apply Hd.
  - apply Hd.
  - exact demo_sz.
  - lia.
  - intros r s' (-> & l' & own' & Ha & _). split; [reflexivity|]. exists own'. exact Ha.
Defined.

Lemma uvmcopy_spec_witness :
  wp (uvmcopy demo_root demo_child 8192) (λ r s', ∃ l' own', pt_inv s' l' own' ∧
    aspace s' own' demo_root 8192 ∧
    (r = 0 ∧ aspace s' own' demo_child 8192 ∨ r = -1 ∧ aspace s' own' demo_child 0)) demo_fork.
Proof.
  destruct demo_fork_facts as (l & own & Hs & Ha & Hc & Hne).
  eapply wp_mono; [apply (uvmcopy_spec demo_fork l own demo_root demo_child 8192)|].
  - exact Hs.
  - exact Hne.
  - exact Ha.
  - exact Hc.
  - exact demo_sz.
  - intros r s' (l' & own' & H & Ho & [(-> & Hn & _)|(-> & Hn & _)]); exists l', own';
      (split; [exact H|]); (split; [exact Ho|]); [left|right]; split; (reflexivity || exact Hn).
Defined.

Lemma uvmfree_spec_witness :
  wp (uvmfree demo_root 8192) (λ _ s', ∃ l own l' own', freed demo_root demo_proc l own s' l' own') demo_proc.
Proof.
  destruct demo_proc_facts as (l & own & Hd).
  eapply wp_mono; [apply (uvmfree_spec demo_proc l own demo_root 8192)|].
  - apply Hd.
  - apply Hd.
  - exact demo_sz.
  - intros va Hva. rewrite (df_top _ _ Hd); [reflexivity|].
    change TRAPFRAME with (2 ^ 38 - 8192) in Hva. lia.
  - intros u s' (l' & own' & H). exists l, own, l', own'. exact H.
Defined.

Lemma uvmcreate_spec_witness :
  wp uvmcreate (λ r s', r = 0 ∨ ∃ own', aspace s' own' r 0) demo_proc.
Proof.
  destruct demo_proc_facts as (l & own & Hd).
  eapply wp_mono; [apply (uvmcreate_spec demo_proc l own)|].
  - apply Hd.
  - apply Hd.
  - intros r s' [(-> & _)|(l' & _ & H)]; [left; reflexivity|right]. eexists. apply H.
Defined.
