(* ===== verification/Spinlock.v ===== *)
(** * Spinlocks

    [kernel/spinlock.c], one lock contended for by any number of harts.  The
    state of a hart is its [struct cpu] and a program counter inside [acquire]
    and [release]; every access to the shared fields [lk->locked] and [lk->cpu]
    is a step of its own, and the steps of different harts interleave freely.
    This is what justifies treating a critical section as one step in the rest
    of the development. *)

From S2P Require Import Prelude.

(** ** Interrupt nesting *)

(** [struct cpu] of [kernel/proc.h], as far as locks use it, and the SIE bit of
    [sstatus]. *)
Record cpu := Cpu {
  noff : Z;        (** depth of push_off() nesting *)
  intena : bool;   (** were interrupts enabled before push_off()? *)
  sie : bool;      (** are interrupts enabled now? *)
}.

Definition intr_get : M cpu bool := gets sie.
Definition intr_off : M cpu unit := modify (λ c, Cpu (noff c) (intena c) false).
Definition intr_on : M cpu unit := modify (λ c, Cpu (noff c) (intena c) true).

Definition push_off : M cpu unit :=
  old ← intr_get;
  intr_off ;;
  n ← gets noff;
  (if n =? 0 then modify (λ c, Cpu (noff c) old (sie c)) else mret tt) ;;
  modify (λ c, Cpu (noff c + 1) (intena c) (sie c)).

Definition pop_off : M cpu unit :=
  on ← intr_get;
  if (on : bool) then panic "pop_off - interruptible"
  else
    n ← gets noff;
    if n <? 1 then panic "pop_off"
    else
      modify (λ c, Cpu (noff c - 1) (intena c) (sie c)) ;;
      c ← get;
      if (noff c =? 0) && intena c then intr_on else mret tt.

(** ** The lock and the harts *)

Record spinlock := Spinlock {
  locked : Z;
  lk_cpu : option nat;   (** [lk->cpu]; [None] is the null pointer *)
}.
Definition initlock : spinlock := Spinlock 0 None.

(** Where a hart is.  [held] records, for the code between the call and the
    result of [holding], whether the caller already had the lock. *)
Inductive pc :=
| Idle                      (** outside, without the lock *)
| AcqLocked (held : bool)   (** [acquire]: [holding] is to read [lk->locked] *)
| AcqCpu (held : bool)      (** [acquire]: [holding] is to read [lk->cpu] *)
| Spin                      (** at the atomic swap *)
| SetCpu                    (** the swap returned 0 *)
| Critical                  (** [acquire] has returned *)
| RelLocked (held : bool)   (** [release]: [holding] is to read [lk->locked] *)
| RelCpu (held : bool)      (** [release]: [holding] is to read [lk->cpu] *)
| ClearCpu                  (** at [lk->cpu = 0] *)
| Unlock                    (** at [__sync_lock_release] *)
| PopOff                    (** at [pop_off] *)
| Panicked (msg : string) (held : bool).

Record hart := Hart { at_ : pc; hcpu : cpu }.

(** What the code around the lock does next when it has control. *)
Inductive request := CallAcquire | CallRelease.

Definition finish (o : outcome cpu unit) (p : pc) (held : bool) (c : cpu) : hart :=
  match o with
  | Done _ c => Hart p c
  | Panic msg c => Hart (Panicked msg held) c
  | _ => Hart (Panicked "" held) c
  end.

(** One step of hart [i]: the new lock and hart. *)
Definition hart_step (i : nat) (r : request) (k : spinlock) (h : hart) : option (spinlock * hart) :=
  let c := hcpu h in
  match at_ h with
  | Idle =>
      Some (k, match r with
               | CallAcquire => finish (push_off c) (AcqLocked false) false c
               | CallRelease => Hart (RelLocked false) c end)
  | Critical =>
      Some (k, match r with
               | CallAcquire => finish (push_off c) (AcqLocked true) true c
               | CallRelease => Hart (RelLocked true) c end)
  | AcqLocked held => Some (k, Hart (if locked k =? 0 then Spin else AcqCpu held) c)
  | AcqCpu held =>
      Some (k, Hart (if decide (lk_cpu k = Some i) then Panicked "acquire" held else Spin) c)
  | Spin => Some (Spinlock 1 (lk_cpu k), Hart (if locked k =? 0 then SetCpu else Spin) c)
  | SetCpu => Some (Spinlock (locked k) (Some i), Hart Critical c)
  | RelLocked held =>
      Some (k, Hart (if locked k =? 0 then Panicked "release" held else RelCpu held) c)
  | RelCpu held =>
      Some (k, Hart (if decide (lk_cpu k = Some i) then ClearCpu else Panicked "release" held) c)
  | ClearCpu => Some (Spinlock (locked k) None, Hart Unlock c)
  | Unlock => Some (Spinlock 0 (lk_cpu k), Hart PopOff c)
  | PopOff => Some (k, finish (pop_off c) Idle false c)
  | Panicked _ _ => None
  end.

(** ** Interleavings *)

Record lock_sys := LockSys { the_lock : spinlock; the_harts : list hart }.

Inductive lock_step : lock_sys → lock_sys → Prop :=
| Lock_step i r k k' hs h h' :
    hs !! i = Some h → hart_step i r k h = Some (k', h') →
    lock_step (LockSys k hs) (LockSys k' (<[i := h']> hs)).

(** Harts that have not touched the lock, with interrupts on or off. *)
Definition lock_init (s : lock_sys) : Prop :=
  the_lock s = initlock ∧
  ∀ i h, the_harts s !! i = Some h → at_ h = Idle ∧ noff (hcpu h) = 0.

Definition lock_reachable (s : lock_sys) : Prop := ∃ s0, lock_init s0 ∧ rtc lock_step s0 s.

(** The hart has the lock: it has won the swap and not yet stored the 0. *)
Definition owns (p : pc) : bool :=
  match p with
  | SetCpu | Critical | ClearCpu | Unlock => true
  | AcqLocked held | AcqCpu held | RelLocked held | RelCpu held => held
  | Panicked _ held => held
  | _ => false
  end.

(** [lk->cpu] points to it. *)
Definition marked (p : pc) : bool :=
  match p with SetCpu | Unlock => false | _ => owns p end.

(** How deep it is in [push_off]. *)
Definition depth (p : pc) : Z :=
  match p with
  | Idle => 0
  | AcqLocked true | AcqCpu true => 2
  | RelLocked false | RelCpu false => 0
  | _ => 1
  end.
Definition cpu_ok (p : pc) (c : cpu) : Prop :=
  match p with
  | Panicked _ _ => True
  | _ => noff c = depth p ∧ (0 < depth p → sie c = false)
  end.

Record lock_inv (s : lock_sys) : Prop := {
  li_bit : locked (the_lock s) = 0 ∨ locked (the_lock s) = 1;
  li_owner : ∀ i h, the_harts s !! i = Some h → owns (at_ h) = true → locked (the_lock s) = 1;
  li_unique : ∀ i j h h', the_harts s !! i = Some h → the_harts s !! j = Some h' →
    owns (at_ h) = true → owns (at_ h') = true → i = j;
  li_cpu : ∀ i h, the_harts s !! i = Some h →
    (lk_cpu (the_lock s) = Some i ↔ marked (at_ h) = true);
  li_harts : ∀ i h, the_harts s !! i = Some h → cpu_ok (at_ h) (hcpu h);
  li_panic : ∀ i h msg held, the_harts s !! i = Some h → at_ h = Panicked msg held →
    msg = "acquire" ∧ held = true ∨ msg = "release" ∧ held = false;
}.

(** ** push_off and pop_off *)

Lemma push_off_eq c :
  push_off c = Done tt (Cpu (noff c + 1) (if noff c =? 0 then sie c else intena c) false).
Proof.
  destruct c as [n e b]. unfold push_off, intr_get, intr_off, mbind, M_bind, gets, modify.
  cbn [obind noff intena sie]. by destruct (n =? 0).
Qed.
Lemma pop_off_eq c :
  sie c = false → 1 ≤ noff c →
  pop_off c = Done tt (Cpu (noff c - 1) (intena c) ((noff c =? 1) && intena c)).
Proof.
  destruct c as [n e b]; cbn. intros -> Hn.
  unfold pop_off, intr_get, intr_on, mbind, M_bind, gets, modify, get. cbn [obind noff intena sie].
  destruct (n <? 1) eqn:E; bsimpl; [lia|]. cbn [obind noff intena sie].
  replace (n - 1 =? 0) with (n =? 1) by (destruct (n =? 1) eqn:E1, (n - 1 =? 0) eqn:E2; bsimpl; lia).
  by destruct ((n =? 1) && e).
Qed.

(** Code in which [push_off] and [pop_off] are matched. *)
Inductive nest := Skip | Seq (a b : nest) | Off (a : nest).
Fixpoint run_nest (n : nest) : M cpu unit :=
  match n with
  | Skip => mret tt
  | Seq a b => run_nest a ;; run_nest b
  | Off a => push_off ;; run_nest a ;; pop_off
  end.

(** ** Mutual exclusion *)

(** What one step of a hart does, given the invariant for that hart alone. *)
Record step_ok (i : nat) (k : spinlock) (h : hart) (k' : spinlock) (h' : hart) : Prop := {
  so_bit : locked k' = 0 ∨ locked k' = 1;
  so_owner : owns (at_ h') = true → locked k' = 1;
  so_gain : owns (at_ h') = true → owns (at_ h) = true ∨ locked k = 0;
  so_drop : locked k' = 0 → locked k = 0 ∨ owns (at_ h) = true;
  so_mark : lk_cpu k' = Some i ↔ marked (at_ h') = true;
  so_cpu : lk_cpu k' = lk_cpu k ∨ owns (at_ h) = true ∧ ∀ j, lk_cpu k' = Some j → j = i;
  so_ok : cpu_ok (at_ h') (hcpu h');
  so_panic : ∀ msg held, at_ h' = Panicked msg held →
    msg = "acquire" ∧ held = true ∨ msg = "release" ∧ held = false;
}.

Lemma hart_step_ok i r k h k' h' :
  (locked k = 0 ∨ locked k = 1) → (owns (at_ h) = true → locked k = 1) →
  (lk_cpu k = Some i ↔ marked (at_ h) = true) → cpu_ok (at_ h) (hcpu h) →
  hart_step i r k h = Some (k', h') → step_ok i k h k' h'.
Proof.
  destruct k as [lo lc], h as [p c]. unfold hart_step; cbn [at_ hcpu locked lk_cpu].
  intros Hbit Hown Hmark Hok Hst.
  destruct p as [|held|held| | | |held|held| | | |msg held]; try destruct r; try destruct held;
    rewrite ?push_off_eq, ?pop_off_eq in Hst by (destruct Hok; cbn [depth] in *; first [lia|auto with lia]);
    cbn in Hst; repeat case_decide; try (destruct (lo =? 0) eqn:E; bsimpl);
    simplify_eq; cbn in *; (split; cbn in *);
    try (destruct Hok as [Hd Hi]; rewrite ?Hd in *); naive_solver lia.
Qed.

Lemma lock_inv_step s s' : lock_inv s → lock_step s s' → lock_inv s'.
Proof.
  intros [Hb Ho Hu Hc Hh Hp] Hst. destruct Hst as [i r k k' hs h h' Hi Hst]. cbn in *.
  assert (step_ok i k h k' h') as [B O G D M C K P].
  { eapply hart_step_ok; [exact Hb|by eapply Ho|by apply Hc|by eapply Hh|exact Hst]. }
  assert (i < length hs)%nat as Hlen by (by eapply lookup_lt_Some).
  assert (∀ j h0, <[i := h']> hs !! j = Some h0 → j = i ∧ h0 = h' ∨ j ≠ i ∧ hs !! j = Some h0) as Hlk.
  { intros j h0. destruct (decide (j = i)) as [->|?].
    - rewrite list_lookup_insert_eq by done. intros [= <-]. by left.
    - rewrite list_lookup_insert_ne by done. by right. }
  split; cbn.
  - done.
  - intros j h0 [[-> ->]|[Hne Hj]]%Hlk Hown; [by apply O|].
    pose proof (Ho j h0 Hj Hown) as H1. destruct B as [B0|]; [|done].
    destruct (D B0) as [|Hi0]; [lia|]. by destruct Hne, (Hu j i h0 h).
  - intros j1 j2 h1 h2 [[-> ->]|[Hne1 Hj1]]%Hlk [[-> ->]|[Hne2 Hj2]]%Hlk Ho1 Ho2; [done| | |by eapply Hu].
    + destruct (G Ho1) as [Hi0|H0]; [by eapply Hu|]. rewrite (Ho j2 h2 Hj2 Ho2) in H0. lia.
    + destruct (G Ho2) as [Hi0|H0]; [by eapply Hu|]. rewrite (Ho j1 h1 Hj1 Ho1) in H0. lia.
  - intros j h0 [[-> ->]|[Hne Hj]]%Hlk; [done|].
    destruct C as [->|[Hi0 Hall]]; [by apply Hc|]. split; [intros ?%Hall; done|].
    intros Hm. assert (owns (at_ h0) = true) as Hown by (by destruct (at_ h0)).
    by destruct Hne, (Hu j i h0 h).
  - intros j h0 [[-> ->]|[Hne Hj]]%Hlk; [done|by eapply Hh].
  - intros j h0 msg held [[-> ->]|[Hne Hj]]%Hlk; [by apply P|by eapply Hp].
Qed.

Lemma lock_reachable_inv s : lock_reachable s → lock_inv s.
Proof.
  intros (s0 & [Hk Hh] & Hsteps). assert (lock_inv s0) as Hinv.
  { split; rewrite ?Hk; cbn.
    - by left.
    - intros i h Hi. by destruct (Hh i h Hi) as [-> _].
    - intros i j h h' Hi. by destruct (Hh i h Hi) as [-> _].
    - intros i h Hi. destruct (Hh i h Hi) as [-> _]. done.
    - intros i h Hi. destruct (Hh i h Hi) as [-> Hn]. by split.
    - intros i h msg held Hi. by destruct (Hh i h Hi) as [-> _]. }
  clear Hk Hh. induction Hsteps as [|s1 s2 s3 Hst _ IH]; [done|]. by eapply IH, lock_inv_step.
Qed.

(** C27: Mutual exclusion: in every interleaving of any number of harts, at most
    one is between winning the atomic swap in [acquire] and the store that ends
    [release]; that hart runs with interrupts off, and [holding] is true on it
    and on no other. *)
Theorem mutual_exclusion s i h :
  lock_reachable s → the_harts s !! i = Some h → at_ h = Critical →
  sie (hcpu h) = false ∧ locked (the_lock s) = 1 ∧ lk_cpu (the_lock s) = Some i ∧
  ∀ j h', the_harts s !! j = Some h' → owns (at_ h') = true → j = i.
Proof.
  intros Hs%lock_reachable_inv Hi Hc. destruct Hs as [_ Ho Hu Hcpu Hh _]. split_and!.
  - specialize (Hh i h Hi). rewrite Hc in Hh. apply Hh. cbn. lia.
  - eapply Ho; [exact Hi|by rewrite Hc].
  - eapply Hcpu; [exact Hi|by rewrite Hc].
  - intros j h' Hj Hown. eapply (Hu j i); try done. by rewrite Hc.
Qed.

(** The lock's panics report exactly the two misuses: [acquire] panics only
    on a hart that already holds the lock, [release] only on one that does not;
    and on such a hart they do: it never gets past the check. *)
Theorem lock_panics s i h :
  lock_reachable s → the_harts s !! i = Some h →
  match at_ h with
  | Panicked msg held => msg = (if held then "acquire" else "release")
  | AcqCpu held => hart_step i CallAcquire (the_lock s) h =
      Some (the_lock s, Hart (if held then Panicked "acquire" held else Spin) (hcpu h))
  | RelCpu held => hart_step i CallRelease (the_lock s) h =
      Some (the_lock s, Hart (if held then ClearCpu else Panicked "release" held) (hcpu h))
  | _ => True
  end.
Proof.
  intros Hs%lock_reachable_inv Hi. destruct Hs as [_ _ _ Hcpu _ Hp].
  specialize (Hcpu i h Hi). specialize (Hp i h). unfold hart_step.
  destruct (at_ h) as [| |held| | | | |held| | | |msg held]; try done.
  - destruct held; case_decide as E; [done|..]; naive_solver.
  - destruct held; case_decide as E; [done|..]; naive_solver.
  - destruct (Hp msg held Hi eq_refl) as [[-> ->]|[-> ->]]; done.
Qed.

(** [push_off] and [pop_off] nest: code in which they are matched never
    panics and leaves the interrupt state as it found it, on if it was on and
    off if it was off. *)
Theorem push_pop_nested n c :
  0 ≤ noff c → (0 < noff c → sie c = false) →
  wp (run_nest n) (λ _ c', noff c' = noff c ∧ sie c' = sie c ∧
    (0 < noff c → intena c' = intena c)) c.
Proof.
  revert c. induction n as [|a IHa b IHb|a IH]; intros c Hn Hs; cbn [run_nest].
  - by apply wp_ret.
  - apply wp_bind. eapply wp_mono; [by apply IHa|]. intros _ c1 (H1 & H2 & H3). cbn beta.
    eapply wp_mono; [apply IHb; rewrite H1, ?H2; done|]. intros _ c2 (H4 & H5 & H6). cbn beta.
    rewrite H4, H5, H1, H2. split_and!; [done|done|]. intros Hp. rewrite H6 by lia. auto.
  - apply wp_bind. eapply wp_intro; [apply push_off_eq|]. cbn beta.
    apply wp_bind. eapply wp_mono; [apply IH; cbn; [lia|done]|]. cbn.
    intros _ [n1 e1 b1] (H1 & H2 & H3). cbn in *. subst n1 b1. rewrite H3 by lia.
    eapply wp_intro; [apply pop_off_eq; cbn; [done|lia]|]. cbn.
    split; [lia|]. destruct (noff c =? 0) eqn:E; bsimpl.
    + rewrite E. split; [done|lia].
    + rewrite (proj2 (Z.eqb_neq _ _)) by lia. rewrite Hs by lia. done.
Qed.

(** ** Examples *)

(** Two harts; hart 0 has taken the lock, hart 1 spins. *)
Definition demo_hart (b : bool) : hart := Hart Idle (Cpu 0 false b).
Definition demo_locks : lock_sys := LockSys initlock [demo_hart true; demo_hart true].
Fixpoint run_harts (sch : list (nat * request)) (s : lock_sys) : lock_sys :=
  match sch with
  | [] => s
  | (i, r) :: sch =>
      run_harts sch
        match the_harts s !! i with
        | Some h => match hart_step i r (the_lock s) h with
                    | Some (k', h') => LockSys k' (<[i := h']> (the_harts s))
                    | None => s end
        | None => s end
  end.
Lemma run_harts_steps sch s : rtc lock_step s (run_harts sch s).
Proof.
  revert s. induction sch as [|[i r] sch IH]; intros s; cbn [run_harts]; [apply rtc_refl|].
  destruct (the_harts s !! i) as [h|] eqn:Hi; [|apply IH].
  destruct (hart_step i r (the_lock s) h) as [[k' h']|] eqn:Hst; [|apply IH].
  eapply rtc_l; [|apply IH]. destruct s as [k hs]. by eapply Lock_step.
Qed.
Definition demo_schedule : list (nat * request) :=
  [(0, CallAcquire); (1, CallAcquire); (0, CallAcquire); (1, CallAcquire); (1, CallAcquire);
   (0, CallAcquire); (1, CallAcquire); (0, CallAcquire)]%nat.
Lemma demo_locks_reachable sch : lock_reachable (run_harts sch demo_locks).
Proof.
  exists demo_locks. split; [|apply run_harts_steps]. split; [done|].
  intros [|[|i]] h; [intros [= <-]; done..|]. done.
Qed.

Lemma mutual_exclusion_witness :
  let s := run_harts demo_schedule demo_locks in
  lk_cpu (the_lock s) = Some 1%nat ∧ (at_ <$> the_harts s !! 0%nat) = Some Spin.
Proof.
  split; [|reflexivity].
  apply (mutual_exclusion (run_harts demo_schedule demo_locks) 1 (Hart Critical (Cpu 1 true false))).
  - apply demo_locks_reachable.
  - reflexivity.
  - reflexivity.
Defined.
Lemma lock_panics_witness :
  let s := run_harts (demo_schedule ++ [(1, CallAcquire); (1, CallAcquire)])%nat demo_locks in
  hart_step 1 CallAcquire (the_lock s) (Hart (AcqCpu true) (Cpu 2 true false)) =
  Some (the_lock s, Hart (Panicked "acquire" true) (Cpu 2 true false)).
Proof.
  apply (lock_panics (run_harts (demo_schedule ++ [(1, CallAcquire); (1, CallAcquire)])%nat demo_locks)
           1 (Hart (AcqCpu true) (Cpu 2 true false))).
  - apply demo_locks_reachable.
  - reflexivity.
Defined.
Lemma push_pop_nested_witness :
  wp (run_nest (Seq (Off (Off Skip)) (Off Skip))) (λ _ c', sie c' = true) (Cpu 0 false true).
Proof.
  eapply wp_mono; [apply (push_pop_nested (Seq (Off (Off Skip)) (Off Skip)) (Cpu 0 false true)); cbn; lia|].
  intros u c' (_ & H & _). exact H.
Defined.
