(* ===== verification/State.v ===== *)
(** * The kernel's data

    The structures of [kernel/param.h], [proc.h], [file.h], [buf.h], [fs.h],
    [sleeplock.h] and [stat.h] and the global variables of the kernel, with one
    setter per field.  A pointer into one of the kernel's tables is the index of
    the entry ([None] is the null pointer); spinlocks are not part of the state
    (see [Spinlock]); sleep-locks are. *)

From S2P Require Import Prelude Riscv Memory Kalloc.

(** ** param.h *)
Definition NOFILE : Z := 16.   (** open files per process *)
Definition NFILE : Z := 100.   (** open files per system *)
Definition NINODE : Z := 50.   (** active inodes *)
Definition NDEV : Z := 10.   (** major device numbers *)
Definition ROOTDEV : Z := 1.   (** device of the root file system *)
Definition MAXARG : Z := 32.   (** exec arguments *)
Definition MAXOPBLOCKS : Z := 10.   (** blocks a file system call may write *)
Definition LOGSIZE : Z := MAXOPBLOCKS * 3.
Definition NBUF : Z := MAXOPBLOCKS * 3.
Definition MAXPATH : Z := 128.
Definition VMA_MAX : Z := 16.

(** ** fs.h and stat.h *)
Definition ROOTINO : Z := 1.
Definition BSIZE : Z := 1024.
Definition FSMAGIC : Z := 0x10203040.
Definition NDIRECT : Z := 12.
Definition NINDIRECT : Z := BSIZE / 4.
Definition MAXFILE : Z := NDIRECT + NINDIRECT.
Definition DINODE_SIZE : Z := 64.   (** sizeof(struct dinode) *)
Definition IPB : Z := BSIZE / DINODE_SIZE.
Definition BPB : Z := BSIZE * 8.
Definition DIRSIZ : Z := 14.
Definition DIRENT_SIZE : Z := 16.   (** sizeof(struct dirent) *)
Definition T_DIR : Z := 1.
Definition T_FILE : Z := 2.
Definition T_DEVICE : Z := 3.

(** The super block: the layout of the disk. *)
Record superblock := Superblock {
  magic : Z;
  sb_size : Z;   (** blocks in the file system *)
  nblocks : Z;   (** data blocks *)
  ninodes : Z;
  nlog : Z;   (** log blocks *)
  logstart : Z;
  inodestart : Z;
  bmapstart : Z;
}.
Definition upd_magic (f : Z → Z) (x : superblock) : superblock :=
  Superblock (f (magic x)) (sb_size x) (nblocks x) (ninodes x) (nlog x) (logstart x) (inodestart
    x) (bmapstart x).
Definition upd_sb_size (f : Z → Z) (x : superblock) : superblock :=
  Superblock (magic x) (f (sb_size x)) (nblocks x) (ninodes x) (nlog x) (logstart x) (inodestart
    x) (bmapstart x).
Definition upd_nblocks (f : Z → Z) (x : superblock) : superblock :=
  Superblock (magic x) (sb_size x) (f (nblocks x)) (ninodes x) (nlog x) (logstart x) (inodestart
    x) (bmapstart x).
Definition upd_ninodes (f : Z → Z) (x : superblock) : superblock :=
  Superblock (magic x) (sb_size x) (nblocks x) (f (ninodes x)) (nlog x) (logstart x) (inodestart
    x) (bmapstart x).
Definition upd_nlog (f : Z → Z) (x : superblock) : superblock :=
  Superblock (magic x) (sb_size x) (nblocks x) (ninodes x) (f (nlog x)) (logstart x) (inodestart
    x) (bmapstart x).
Definition upd_logstart (f : Z → Z) (x : superblock) : superblock :=
  Superblock (magic x) (sb_size x) (nblocks x) (ninodes x) (nlog x) (f (logstart x)) (inodestart
    x) (bmapstart x).
Definition upd_inodestart (f : Z → Z) (x : superblock) : superblock :=
  Superblock (magic x) (sb_size x) (nblocks x) (ninodes x) (nlog x) (logstart x) (f (inodestart
    x)) (bmapstart x).
Definition upd_bmapstart (f : Z → Z) (x : superblock) : superblock :=
  Superblock (magic x) (sb_size x) (nblocks x) (ninodes x) (nlog x) (logstart x) (inodestart x)
    (f (bmapstart x)).
Definition IBLOCK (i : Z) (sb : superblock) : Z := u32 (i / IPB + inodestart sb).
Definition BBLOCK (b : Z) (sb : superblock) : Z := u32 (b / BPB + bmapstart sb).

(** ** fcntl.h *)
Definition O_RDONLY : Z := 0x000.
Definition O_WRONLY : Z := 0x001.
Definition O_RDWR : Z := 0x002.
Definition O_CREATE : Z := 0x200.
Definition O_TRUNC : Z := 0x400.
Definition PROT_READ : Z := 0x1.
Definition PROT_WRITE : Z := 0x2.
Definition PROT_EXEC : Z := 0x4.
Definition MAP_SHARED : Z := 0x01.
Definition MAP_PRIVATE : Z := 0x02.

(** ** Sleep-locks and buffers *)

(** [struct sleeplock]: is it held, and by which process. *)
Record sleeplock := Sleeplock {
  sl_locked : bool;
  sl_pid : Z;
}.
Definition upd_sl_locked (f : bool → bool) (x : sleeplock) : sleeplock :=
  Sleeplock (f (sl_locked x)) (sl_pid x).
Definition upd_sl_pid (f : Z → Z) (x : sleeplock) : sleeplock :=
  Sleeplock (sl_locked x) (f (sl_pid x)).

(** [struct buf].  A link to [None] is a link to [bcache.head]. *)
Record buf := Buf {
  b_valid : bool;   (** has data been read from disk? *)
  b_dev : Z;
  b_blockno : Z;
  b_lock : sleeplock;
  b_refcnt : Z;
  b_prev : option nat;
  b_next : option nat;
  b_data : list Z;   (** [BSIZE] bytes *)
}.
Definition upd_b_valid (f : bool → bool) (x : buf) : buf :=
  Buf (f (b_valid x)) (b_dev x) (b_blockno x) (b_lock x) (b_refcnt x) (b_prev x) (b_next x)
    (b_data x).
Definition upd_b_dev (f : Z → Z) (x : buf) : buf :=
  Buf (b_valid x) (f (b_dev x)) (b_blockno x) (b_lock x) (b_refcnt x) (b_prev x) (b_next x)
    (b_data x).
Definition upd_b_blockno (f : Z → Z) (x : buf) : buf :=
  Buf (b_valid x) (b_dev x) (f (b_blockno x)) (b_lock x) (b_refcnt x) (b_prev x) (b_next x)
    (b_data x).
Definition upd_b_lock (f : sleeplock → sleeplock) (x : buf) : buf :=
  Buf (b_valid x) (b_dev x) (b_blockno x) (f (b_lock x)) (b_refcnt x) (b_prev x) (b_next x)
    (b_data x).
Definition upd_b_refcnt (f : Z → Z) (x : buf) : buf :=
  Buf (b_valid x) (b_dev x) (b_blockno x) (b_lock x) (f (b_refcnt x)) (b_prev x) (b_next x)
    (b_data x).
Definition upd_b_prev (f : (option nat) → (option nat)) (x : buf) : buf :=
  Buf (b_valid x) (b_dev x) (b_blockno x) (b_lock x) (b_refcnt x) (f (b_prev x)) (b_next x)
    (b_data x).
Definition upd_b_next (f : (option nat) → (option nat)) (x : buf) : buf :=
  Buf (b_valid x) (b_dev x) (b_blockno x) (b_lock x) (b_refcnt x) (b_prev x) (f (b_next x))
    (b_data x).
Definition upd_b_data (f : (list Z) → (list Z)) (x : buf) : buf :=
  Buf (b_valid x) (b_dev x) (b_blockno x) (b_lock x) (b_refcnt x) (b_prev x) (b_next x) (f
    (b_data x)).

(** [bcache]; of [head] only its links are used. *)
Record buf_cache := BufCache {
  bufs : list buf;
  head_prev : option nat;   (** least recently used *)
  head_next : option nat;   (** most recently used *)
}.
Definition upd_bufs (f : (list buf) → (list buf)) (x : buf_cache) : buf_cache :=
  BufCache (f (bufs x)) (head_prev x) (head_next x).
Definition upd_head_prev (f : (option nat) → (option nat)) (x : buf_cache) : buf_cache :=
  BufCache (bufs x) (f (head_prev x)) (head_next x).
Definition upd_head_next (f : (option nat) → (option nat)) (x : buf_cache) : buf_cache :=
  BufCache (bufs x) (head_prev x) (f (head_next x)).

(** [struct log] of [kernel/log.c], with the [n] and [block] of its [lh]. *)
Record logst := LogSt {
  log_start : Z;
  log_size : Z;
  outstanding : Z;   (** file system calls executing *)
  committing : bool;   (** in commit() *)
  log_dev : Z;
  lh_n : Z;
  lh_block : list Z;   (** [LOGSIZE] block numbers *)
}.
Definition upd_log_start (f : Z → Z) (x : logst) : logst :=
  LogSt (f (log_start x)) (log_size x) (outstanding x) (committing x) (log_dev x) (lh_n x)
    (lh_block x).
Definition upd_log_size (f : Z → Z) (x : logst) : logst :=
  LogSt (log_start x) (f (log_size x)) (outstanding x) (committing x) (log_dev x) (lh_n x)
    (lh_block x).
Definition upd_outstanding (f : Z → Z) (x : logst) : logst :=
  LogSt (log_start x) (log_size x) (f (outstanding x)) (committing x) (log_dev x) (lh_n x)
    (lh_block x).
Definition upd_committing (f : bool → bool) (x : logst) : logst :=
  LogSt (log_start x) (log_size x) (outstanding x) (f (committing x)) (log_dev x) (lh_n x)
    (lh_block x).
Definition upd_log_dev (f : Z → Z) (x : logst) : logst :=
  LogSt (log_start x) (log_size x) (outstanding x) (committing x) (f (log_dev x)) (lh_n x)
    (lh_block x).
Definition upd_lh_n (f : Z → Z) (x : logst) : logst :=
  LogSt (log_start x) (log_size x) (outstanding x) (committing x) (log_dev x) (f (lh_n x))
    (lh_block x).
Definition upd_lh_block (f : (list Z) → (list Z)) (x : logst) : logst :=
  LogSt (log_start x) (log_size x) (outstanding x) (committing x) (log_dev x) (lh_n x) (f
    (lh_block x)).

(** ** The disk

    The blocks and the writes that have reached it, oldest first: what a crash
    leaves is the result of a prefix of them. *)
(** A disk of blocks. *)
Record disk := Disk {
  blocks : gmap Z (list Z);
  writes : list (Z * list Z);
}.
Definition upd_blocks (f : (gmap Z (list Z)) → (gmap Z (list Z))) (x : disk) : disk :=
  Disk (f (blocks x)) (writes x).
Definition upd_writes (f : (list (Z * list Z)) → (list (Z * list Z))) (x : disk) : disk :=
  Disk (blocks x) (f (writes x)).

(** ** Inodes, files and pipes *)

(** [struct inode]: the in-memory copy of an inode. *)
Record inode := Inode {
  i_dev : Z;
  i_inum : Z;
  i_ref : Z;
  i_lock : sleeplock;
  i_valid : bool;   (** has it been read from disk? *)
  i_type : Z;
  i_major : Z;
  i_minor : Z;
  i_nlink : Z;
  i_size : Z;
  i_addrs : list Z;   (** [NDIRECT + 1] block numbers *)
}.
Definition upd_i_dev (f : Z → Z) (x : inode) : inode :=
  Inode (f (i_dev x)) (i_inum x) (i_ref x) (i_lock x) (i_valid x) (i_type x) (i_major x)
    (i_minor x) (i_nlink x) (i_size x) (i_addrs x).
Definition upd_i_inum (f : Z → Z) (x : inode) : inode :=
  Inode (i_dev x) (f (i_inum x)) (i_ref x) (i_lock x) (i_valid x) (i_type x) (i_major x)
    (i_minor x) (i_nlink x) (i_size x) (i_addrs x).
Definition upd_i_ref (f : Z → Z) (x : inode) : inode :=
  Inode (i_dev x) (i_inum x) (f (i_ref x)) (i_lock x) (i_valid x) (i_type x) (i_major x)
    (i_minor x) (i_nlink x) (i_size x) (i_addrs x).
Definition upd_i_lock (f : sleeplock → sleeplock) (x : inode) : inode :=
  Inode (i_dev x) (i_inum x) (i_ref x) (f (i_lock x)) (i_valid x) (i_type x) (i_major x)
    (i_minor x) (i_nlink x) (i_size x) (i_addrs x).
Definition upd_i_valid (f : bool → bool) (x : inode) : inode :=
  Inode (i_dev x) (i_inum x) (i_ref x) (i_lock x) (f (i_valid x)) (i_type x) (i_major x)
    (i_minor x) (i_nlink x) (i_size x) (i_addrs x).
Definition upd_i_type (f : Z → Z) (x : inode) : inode :=
  Inode (i_dev x) (i_inum x) (i_ref x) (i_lock x) (i_valid x) (f (i_type x)) (i_major x)
    (i_minor x) (i_nlink x) (i_size x) (i_addrs x).
Definition upd_i_major (f : Z → Z) (x : inode) : inode :=
  Inode (i_dev x) (i_inum x) (i_ref x) (i_lock x) (i_valid x) (i_type x) (f (i_major x))
    (i_minor x) (i_nlink x) (i_size x) (i_addrs x).
Definition upd_i_minor (f : Z → Z) (x : inode) : inode :=
  Inode (i_dev x) (i_inum x) (i_ref x) (i_lock x) (i_valid x) (i_type x) (i_major x) (f (i_minor
    x)) (i_nlink x) (i_size x) (i_addrs x).
Definition upd_i_nlink (f : Z → Z) (x : inode) : inode :=
  Inode (i_dev x) (i_inum x) (i_ref x) (i_lock x) (i_valid x) (i_type x) (i_major x) (i_minor x)
    (f (i_nlink x)) (i_size x) (i_addrs x).
Definition upd_i_size (f : Z → Z) (x : inode) : inode :=
  Inode (i_dev x) (i_inum x) (i_ref x) (i_lock x) (i_valid x) (i_type x) (i_major x) (i_minor x)
    (i_nlink x) (f (i_size x)) (i_addrs x).
Definition upd_i_addrs (f : (list Z) → (list Z)) (x : inode) : inode :=
  Inode (i_dev x) (i_inum x) (i_ref x) (i_lock x) (i_valid x) (i_type x) (i_major x) (i_minor x)
    (i_nlink x) (i_size x) (f (i_addrs x)).

Inductive ftype := FD_NONE | FD_PIPE | FD_INODE | FD_DEVICE.
#[global] Instance ftype_eq_dec : EqDecision ftype.
Proof. solve_decision. Defined.

(** [struct file]. *)
Record file := File {
  f_type : ftype;
  f_ref : Z;
  f_readable : bool;
  f_writable : bool;
  f_pipe : Z;   (** address of the pipe *)
  f_ip : option nat;
  f_off : Z;
  f_major : Z;
}.
Definition upd_f_type (f : ftype → ftype) (x : file) : file :=
  File (f (f_type x)) (f_ref x) (f_readable x) (f_writable x) (f_pipe x) (f_ip x) (f_off x)
    (f_major x).
Definition upd_f_ref (f : Z → Z) (x : file) : file :=
  File (f_type x) (f (f_ref x)) (f_readable x) (f_writable x) (f_pipe x) (f_ip x) (f_off x)
    (f_major x).
Definition upd_f_readable (f : bool → bool) (x : file) : file :=
  File (f_type x) (f_ref x) (f (f_readable x)) (f_writable x) (f_pipe x) (f_ip x) (f_off x)
    (f_major x).
Definition upd_f_writable (f : bool → bool) (x : file) : file :=
  File (f_type x) (f_ref x) (f_readable x) (f (f_writable x)) (f_pipe x) (f_ip x) (f_off x)
    (f_major x).
Definition upd_f_pipe (f : Z → Z) (x : file) : file :=
  File (f_type x) (f_ref x) (f_readable x) (f_writable x) (f (f_pipe x)) (f_ip x) (f_off x)
    (f_major x).
Definition upd_f_ip (f : (option nat) → (option nat)) (x : file) : file :=
  File (f_type x) (f_ref x) (f_readable x) (f_writable x) (f_pipe x) (f (f_ip x)) (f_off x)
    (f_major x).
Definition upd_f_off (f : Z → Z) (x : file) : file :=
  File (f_type x) (f_ref x) (f_readable x) (f_writable x) (f_pipe x) (f_ip x) (f (f_off x))
    (f_major x).
Definition upd_f_major (f : Z → Z) (x : file) : file :=
  File (f_type x) (f_ref x) (f_readable x) (f_writable x) (f_pipe x) (f_ip x) (f_off x) (f
    (f_major x)).

(** [struct pipe]. *)
Record pipe := Pipe {
  p_data : list Z;   (** [PIPESIZE] bytes *)
  nread : Z;
  nwrite : Z;
  readopen : bool;
  writeopen : bool;
}.
Definition upd_p_data (f : (list Z) → (list Z)) (x : pipe) : pipe :=
  Pipe (f (p_data x)) (nread x) (nwrite x) (readopen x) (writeopen x).
Definition upd_nread (f : Z → Z) (x : pipe) : pipe :=
  Pipe (p_data x) (f (nread x)) (nwrite x) (readopen x) (writeopen x).
Definition upd_nwrite (f : Z → Z) (x : pipe) : pipe :=
  Pipe (p_data x) (nread x) (f (nwrite x)) (readopen x) (writeopen x).
Definition upd_readopen (f : bool → bool) (x : pipe) : pipe :=
  Pipe (p_data x) (nread x) (nwrite x) (f (readopen x)) (writeopen x).
Definition upd_writeopen (f : bool → bool) (x : pipe) : pipe :=
  Pipe (p_data x) (nread x) (nwrite x) (readopen x) (f (writeopen x)).

(** ** Processes *)

Inductive procstate := UNUSED | USED | SLEEPING | RUNNABLE | RUNNING | ZOMBIE.
#[global] Instance procstate_eq_dec : EqDecision procstate.
Proof. solve_decision. Defined.

(** [struct vma]: a file mapped into an address space. *)
Record vma := Vma {
  v_valid : bool;
  v_addr : Z;
  v_len : Z;
  v_prot : Z;
  v_flags : Z;
  v_off : Z;
  v_f : option nat;
  v_refcnt : Z;
}.
Definition upd_v_valid (f : bool → bool) (x : vma) : vma :=
  Vma (f (v_valid x)) (v_addr x) (v_len x) (v_prot x) (v_flags x) (v_off x) (v_f x) (v_refcnt x).
Definition upd_v_addr (f : Z → Z) (x : vma) : vma :=
  Vma (v_valid x) (f (v_addr x)) (v_len x) (v_prot x) (v_flags x) (v_off x) (v_f x) (v_refcnt x).
Definition upd_v_len (f : Z → Z) (x : vma) : vma :=
  Vma (v_valid x) (v_addr x) (f (v_len x)) (v_prot x) (v_flags x) (v_off x) (v_f x) (v_refcnt x).
Definition upd_v_prot (f : Z → Z) (x : vma) : vma :=
  Vma (v_valid x) (v_addr x) (v_len x) (f (v_prot x)) (v_flags x) (v_off x) (v_f x) (v_refcnt x).
Definition upd_v_flags (f : Z → Z) (x : vma) : vma :=
  Vma (v_valid x) (v_addr x) (v_len x) (v_prot x) (f (v_flags x)) (v_off x) (v_f x) (v_refcnt x).
Definition upd_v_off (f : Z → Z) (x : vma) : vma :=
  Vma (v_valid x) (v_addr x) (v_len x) (v_prot x) (v_flags x) (f (v_off x)) (v_f x) (v_refcnt x).
Definition upd_v_f (f : (option nat) → (option nat)) (x : vma) : vma :=
  Vma (v_valid x) (v_addr x) (v_len x) (v_prot x) (v_flags x) (v_off x) (f (v_f x)) (v_refcnt x).
Definition upd_v_refcnt (f : Z → Z) (x : vma) : vma :=
  Vma (v_valid x) (v_addr x) (v_len x) (v_prot x) (v_flags x) (v_off x) (v_f x) (f (v_refcnt x)).

(** [struct proc]; of [context] only what the kernel sets, [ra] and [sp]. *)
Record proc := Proc {
  p_state : procstate;
  p_chan : chan;   (** [ChNull] when not sleeping *)
  p_killed : bool;
  p_xstate : Z;
  p_pid : Z;
  p_parent : option nat;
  p_kstack : Z;
  p_sz : Z;
  p_pagetable : Z;
  p_trapframe : Z;
  ctx_ra : Z;
  ctx_sp : Z;
  p_ofile : list (option nat);
  p_cwd : option nat;
  p_name : list Z;
  p_vma : list vma;
  p_vma_top : Z;
}.
Definition upd_p_state (f : procstate → procstate) (x : proc) : proc :=
  Proc (f (p_state x)) (p_chan x) (p_killed x) (p_xstate x) (p_pid x) (p_parent x) (p_kstack x)
    (p_sz x) (p_pagetable x) (p_trapframe x) (ctx_ra x) (ctx_sp x) (p_ofile x) (p_cwd x) (p_name
    x) (p_vma x) (p_vma_top x).
Definition upd_p_chan (f : chan → chan) (x : proc) : proc :=
  Proc (p_state x) (f (p_chan x)) (p_killed x) (p_xstate x) (p_pid x) (p_parent x) (p_kstack x)
    (p_sz x) (p_pagetable x) (p_trapframe x) (ctx_ra x) (ctx_sp x) (p_ofile x) (p_cwd x) (p_name
    x) (p_vma x) (p_vma_top x).
Definition upd_p_killed (f : bool → bool) (x : proc) : proc :=
  Proc (p_state x) (p_chan x) (f (p_killed x)) (p_xstate x) (p_pid x) (p_parent x) (p_kstack x)
    (p_sz x) (p_pagetable x) (p_trapframe x) (ctx_ra x) (ctx_sp x) (p_ofile x) (p_cwd x) (p_name
    x) (p_vma x) (p_vma_top x).
Definition upd_p_xstate (f : Z → Z) (x : proc) : proc :=
  Proc (p_state x) (p_chan x) (p_killed x) (f (p_xstate x)) (p_pid x) (p_parent x) (p_kstack x)
    (p_sz x) (p_pagetable x) (p_trapframe x) (ctx_ra x) (ctx_sp x) (p_ofile x) (p_cwd x) (p_name
    x) (p_vma x) (p_vma_top x).
Definition upd_p_pid (f : Z → Z) (x : proc) : proc :=
  Proc (p_state x) (p_chan x) (p_killed x) (p_xstate x) (f (p_pid x)) (p_parent x) (p_kstack x)
    (p_sz x) (p_pagetable x) (p_trapframe x) (ctx_ra x) (ctx_sp x) (p_ofile x) (p_cwd x) (p_name
    x) (p_vma x) (p_vma_top x).
Definition upd_p_parent (f : (option nat) → (option nat)) (x : proc) : proc :=
  Proc (p_state x) (p_chan x) (p_killed x) (p_xstate x) (p_pid x) (f (p_parent x)) (p_kstack x)
    (p_sz x) (p_pagetable x) (p_trapframe x) (ctx_ra x) (ctx_sp x) (p_ofile x) (p_cwd x) (p_name
    x) (p_vma x) (p_vma_top x).
Definition upd_p_kstack (f : Z → Z) (x : proc) : proc :=
  Proc (p_state x) (p_chan x) (p_killed x) (p_xstate x) (p_pid x) (p_parent x) (f (p_kstack x))
    (p_sz x) (p_pagetable x) (p_trapframe x) (ctx_ra x) (ctx_sp x) (p_ofile x) (p_cwd x) (p_name
    x) (p_vma x) (p_vma_top x).
Definition upd_p_sz (f : Z → Z) (x : proc) : proc :=
  Proc (p_state x) (p_chan x) (p_killed x) (p_xstate x) (p_pid x) (p_parent x) (p_kstack x) (f
    (p_sz x)) (p_pagetable x) (p_trapframe x) (ctx_ra x) (ctx_sp x) (p_ofile x) (p_cwd x) (p_name
    x) (p_vma x) (p_vma_top x).
Definition upd_p_pagetable (f : Z → Z) (x : proc) : proc :=
  Proc (p_state x) (p_chan x) (p_killed x) (p_xstate x) (p_pid x) (p_parent x) (p_kstack x)
    (p_sz x) (f (p_pagetable x)) (p_trapframe x) (ctx_ra x) (ctx_sp x) (p_ofile x) (p_cwd x)
    (p_name x) (p_vma x) (p_vma_top x).
Definition upd_p_trapframe (f : Z → Z) (x : proc) : proc :=
  Proc (p_state x) (p_chan x) (p_killed x) (p_xstate x) (p_pid x) (p_parent x) (p_kstack x)
    (p_sz x) (p_pagetable x) (f (p_trapframe x)) (ctx_ra x) (ctx_sp x) (p_ofile x) (p_cwd x)
    (p_name x) (p_vma x) (p_vma_top x).
Definition upd_ctx_ra (f : Z → Z) (x : proc) : proc :=
  Proc (p_state x) (p_chan x) (p_killed x) (p_xstate x) (p_pid x) (p_parent x) (p_kstack x)
    (p_sz x) (p_pagetable x) (p_trapframe x) (f (ctx_ra x)) (ctx_sp x) (p_ofile x) (p_cwd x)
    (p_name x) (p_vma x) (p_vma_top x).
Definition upd_ctx_sp (f : Z → Z) (x : proc) : proc :=
  Proc (p_state x) (p_chan x) (p_killed x) (p_xstate x) (p_pid x) (p_parent x) (p_kstack x)
    (p_sz x) (p_pagetable x) (p_trapframe x) (ctx_ra x) (f (ctx_sp x)) (p_ofile x) (p_cwd x)
    (p_name x) (p_vma x) (p_vma_top x).
Definition upd_p_ofile (f : (list (option nat)) → (list (option nat))) (x : proc) : proc :=
  Proc (p_state x) (p_chan x) (p_killed x) (p_xstate x) (p_pid x) (p_parent x) (p_kstack x)
    (p_sz x) (p_pagetable x) (p_trapframe x) (ctx_ra x) (ctx_sp x) (f (p_ofile x)) (p_cwd x)
    (p_name x) (p_vma x) (p_vma_top x).
Definition upd_p_cwd (f : (option nat) → (option nat)) (x : proc) : proc :=
  Proc (p_state x) (p_chan x) (p_killed x) (p_xstate x) (p_pid x) (p_parent x) (p_kstack x)
    (p_sz x) (p_pagetable x) (p_trapframe x) (ctx_ra x) (ctx_sp x) (p_ofile x) (f (p_cwd x))
    (p_name x) (p_vma x) (p_vma_top x).
Definition upd_p_name (f : (list Z) → (list Z)) (x : proc) : proc :=
  Proc (p_state x) (p_chan x) (p_killed x) (p_xstate x) (p_pid x) (p_parent x) (p_kstack x)
    (p_sz x) (p_pagetable x) (p_trapframe x) (ctx_ra x) (ctx_sp x) (p_ofile x) (p_cwd x) (f
    (p_name x)) (p_vma x) (p_vma_top x).
Definition upd_p_vma (f : (list vma) → (list vma)) (x : proc) : proc :=
  Proc (p_state x) (p_chan x) (p_killed x) (p_xstate x) (p_pid x) (p_parent x) (p_kstack x)
    (p_sz x) (p_pagetable x) (p_trapframe x) (ctx_ra x) (ctx_sp x) (p_ofile x) (p_cwd x) (p_name
    x) (f (p_vma x)) (p_vma_top x).
Definition upd_p_vma_top (f : Z → Z) (x : proc) : proc :=
  Proc (p_state x) (p_chan x) (p_killed x) (p_xstate x) (p_pid x) (p_parent x) (p_kstack x)
    (p_sz x) (p_pagetable x) (p_trapframe x) (ctx_ra x) (ctx_sp x) (p_ofile x) (p_cwd x) (p_name
    x) (p_vma x) (f (p_vma_top x)).

(** ** The console *)

(** [cons] of [kernel/console.c]. *)
Record conss := Conss {
  c_buf : list Z;   (** [INPUT_BUF_SIZE] bytes *)
  c_r : Z;   (** read index *)
  c_w : Z;   (** write index *)
  c_e : Z;   (** edit index *)
}.
Definition upd_c_buf (f : (list Z) → (list Z)) (x : conss) : conss :=
  Conss (f (c_buf x)) (c_r x) (c_w x) (c_e x).
Definition upd_c_r (f : Z → Z) (x : conss) : conss :=
  Conss (c_buf x) (f (c_r x)) (c_w x) (c_e x).
Definition upd_c_w (f : Z → Z) (x : conss) : conss :=
  Conss (c_buf x) (c_r x) (f (c_w x)) (c_e x).
Definition upd_c_e (f : Z → Z) (x : conss) : conss :=
  Conss (c_buf x) (c_r x) (c_w x) (f (c_e x)).

(** The transmit buffer of [kernel/uart.c] and the device: is its transmit holding
    register full, what has been stored in it, what is waiting to be read. *)
Record uartst := UartSt {
  tx_buf : list Z;   (** [UART_TX_BUF_SIZE] bytes *)
  tx_w : Z;
  tx_r : Z;
  thr_full : bool;
  thr_sent : list Z;
  rhr : list Z;
}.
Definition upd_tx_buf (f : (list Z) → (list Z)) (x : uartst) : uartst :=
  UartSt (f (tx_buf x)) (tx_w x) (tx_r x) (thr_full x) (thr_sent x) (rhr x).
Definition upd_tx_w (f : Z → Z) (x : uartst) : uartst :=
  UartSt (tx_buf x) (f (tx_w x)) (tx_r x) (thr_full x) (thr_sent x) (rhr x).
Definition upd_tx_r (f : Z → Z) (x : uartst) : uartst :=
  UartSt (tx_buf x) (tx_w x) (f (tx_r x)) (thr_full x) (thr_sent x) (rhr x).
Definition upd_thr_full (f : bool → bool) (x : uartst) : uartst :=
  UartSt (tx_buf x) (tx_w x) (tx_r x) (f (thr_full x)) (thr_sent x) (rhr x).
Definition upd_thr_sent (f : (list Z) → (list Z)) (x : uartst) : uartst :=
  UartSt (tx_buf x) (tx_w x) (tx_r x) (thr_full x) (f (thr_sent x)) (rhr x).
Definition upd_rhr (f : (list Z) → (list Z)) (x : uartst) : uartst :=
  UartSt (tx_buf x) (tx_w x) (tx_r x) (thr_full x) (thr_sent x) (f (rhr x)).

(** ** The whole kernel *)

(** The global variables of the kernel. *)
Record kernel := Kernel {
  mach : machine;   (** physical memory and its allocator *)
  procs : list proc;
  initproc : option nat;
  nextpid : Z;
  ftable : list file;
  pipes : gmap Z pipe;   (** the pipes, by the address of their page *)
  itable : list inode;
  bcache : buf_cache;
  klog : logst;
  sb : superblock;
  kdisk : disk;
  ticks : Z;
  cons : conss;
  uart : uartst;
}.
Definition upd_mach (f : machine → machine) (x : kernel) : kernel :=
  Kernel (f (mach x)) (procs x) (initproc x) (nextpid x) (ftable x) (pipes x) (itable x) (bcache
    x) (klog x) (sb x) (kdisk x) (ticks x) (cons x) (uart x).
Definition upd_procs (f : (list proc) → (list proc)) (x : kernel) : kernel :=
  Kernel (mach x) (f (procs x)) (initproc x) (nextpid x) (ftable x) (pipes x) (itable x) (bcache
    x) (klog x) (sb x) (kdisk x) (ticks x) (cons x) (uart x).
Definition upd_initproc (f : (option nat) → (option nat)) (x : kernel) : kernel :=
  Kernel (mach x) (procs x) (f (initproc x)) (nextpid x) (ftable x) (pipes x) (itable x) (bcache
    x) (klog x) (sb x) (kdisk x) (ticks x) (cons x) (uart x).
Definition upd_nextpid (f : Z → Z) (x : kernel) : kernel :=
  Kernel (mach x) (procs x) (initproc x) (f (nextpid x)) (ftable x) (pipes x) (itable x) (bcache
    x) (klog x) (sb x) (kdisk x) (ticks x) (cons x) (uart x).
Definition upd_ftable (f : (list file) → (list file)) (x : kernel) : kernel :=
  Kernel (mach x) (procs x) (initproc x) (nextpid x) (f (ftable x)) (pipes x) (itable x) (bcache
    x) (klog x) (sb x) (kdisk x) (ticks x) (cons x) (uart x).
Definition upd_pipes (f : (gmap Z pipe) → (gmap Z pipe)) (x : kernel) : kernel :=
  Kernel (mach x) (procs x) (initproc x) (nextpid x) (ftable x) (f (pipes x)) (itable x) (bcache
    x) (klog x) (sb x) (kdisk x) (ticks x) (cons x) (uart x).
Definition upd_itable (f : (list inode) → (list inode)) (x : kernel) : kernel :=
  Kernel (mach x) (procs x) (initproc x) (nextpid x) (ftable x) (pipes x) (f (itable x)) (bcache
    x) (klog x) (sb x) (kdisk x) (ticks x) (cons x) (uart x).
Definition upd_bcache (f : buf_cache → buf_cache) (x : kernel) : kernel :=
  Kernel (mach x) (procs x) (initproc x) (nextpid x) (ftable x) (pipes x) (itable x) (f (bcache
    x)) (klog x) (sb x) (kdisk x) (ticks x) (cons x) (uart x).
Definition upd_klog (f : logst → logst) (x : kernel) : kernel :=
  Kernel (mach x) (procs x) (initproc x) (nextpid x) (ftable x) (pipes x) (itable x) (bcache x)
    (f (klog x)) (sb x) (kdisk x) (ticks x) (cons x) (uart x).
Definition upd_sb (f : superblock → superblock) (x : kernel) : kernel :=
  Kernel (mach x) (procs x) (initproc x) (nextpid x) (ftable x) (pipes x) (itable x) (bcache x)
    (klog x) (f (sb x)) (kdisk x) (ticks x) (cons x) (uart x).
Definition upd_kdisk (f : disk → disk) (x : kernel) : kernel :=
  Kernel (mach x) (procs x) (initproc x) (nextpid x) (ftable x) (pipes x) (itable x) (bcache x)
    (klog x) (sb x) (f (kdisk x)) (ticks x) (cons x) (uart x).
Definition upd_ticks (f : Z → Z) (x : kernel) : kernel :=
  Kernel (mach x) (procs x) (initproc x) (nextpid x) (ftable x) (pipes x) (itable x) (bcache x)
    (klog x) (sb x) (kdisk x) (f (ticks x)) (cons x) (uart x).
Definition upd_cons (f : conss → conss) (x : kernel) : kernel :=
  Kernel (mach x) (procs x) (initproc x) (nextpid x) (ftable x) (pipes x) (itable x) (bcache x)
    (klog x) (sb x) (kdisk x) (ticks x) (f (cons x)) (uart x).
Definition upd_uart (f : uartst → uartst) (x : kernel) : kernel :=
  Kernel (mach x) (procs x) (initproc x) (nextpid x) (ftable x) (pipes x) (itable x) (bcache x)
    (klog x) (sb x) (kdisk x) (ticks x) (cons x) (f (uart x)).

(** ** Access

    Out-of-range pointers are undefined behaviour. *)

Definition vm {A} (m : M machine A) : M kernel A := zoom mach (λ x k, upd_mach (λ _, x) k) m.

Section access.
Context {T : Type} (tbl : kernel → list T) (upd : (list T → list T) → kernel → kernel).

Definition at_idx (i : nat) : M kernel T :=
  l ← gets tbl;
  match l !! i with Some x => mret x | None => fault "bad pointer" end.
Definition set_idx (i : nat) (f : T → T) : M kernel unit :=
  l ← gets tbl;
  match l !! i with Some x => modify (upd (λ _, <[i := f x]> l)) | None => fault "bad pointer" end.
End access.

Definition the_proc : nat → M kernel proc := at_idx procs.
Definition set_proc : nat → (proc → proc) → M kernel unit := set_idx procs upd_procs.
Definition the_file : nat → M kernel file := at_idx ftable.
Definition set_file : nat → (file → file) → M kernel unit := set_idx ftable upd_ftable.
Definition the_inode : nat → M kernel inode := at_idx itable.
Definition set_inode : nat → (inode → inode) → M kernel unit := set_idx itable upd_itable.
Definition all_bufs (k : kernel) : list buf := bufs (bcache k).
Definition upd_all_bufs (f : list buf → list buf) : kernel → kernel := upd_bcache (upd_bufs f).
Definition the_buf : nat → M kernel buf := at_idx all_bufs.
Definition set_buf : nat → (buf → buf) → M kernel unit := set_idx all_bufs upd_all_bufs.
Definition deref {A} (p : option A) : M kernel A :=
  match p with Some x => mret x | None => fault "null pointer" end.
