(* ===== verification/Bytes.v ===== *)
(** * Byte arrays with structure

    The [data] array of a buffer holds C structures; these are the accesses to
    their fields, at byte offsets of a list, little-endian. *)

From S2P Require Import Prelude.

Fixpoint le_get (bs : list Z) : Z :=
  match bs with [] => 0 | b :: bs => b + 256 * le_get bs end.
Fixpoint le_put (n : nat) (v : Z) : list Z :=
  match n with O => [] | S n => v mod 256 :: le_put n (v / 256) end.

(** The [n] bytes at [off], and the array with [bs] stored at [off]. *)
Definition slice (off n : nat) (l : list Z) : list Z := take n (drop off l).
Definition splice (off : nat) (bs l : list Z) : list Z :=
  take off l ++ bs ++ drop (off + length bs) l.

Definition get8 (off : Z) (l : list Z) : Z := le_get (slice (Z.to_nat off) 1 l).
Definition get16 (off : Z) (l : list Z) : Z := le_get (slice (Z.to_nat off) 2 l).
Definition get32 (off : Z) (l : list Z) : Z := le_get (slice (Z.to_nat off) 4 l).
Definition put8 (off v : Z) (l : list Z) : list Z := splice (Z.to_nat off) (le_put 1 v) l.
Definition put16 (off v : Z) (l : list Z) : list Z := splice (Z.to_nat off) (le_put 2 v) l.
Definition put32 (off v : Z) (l : list Z) : list Z := splice (Z.to_nat off) (le_put 4 v) l.

(** Consecutive 32-bit words from [off] on. *)
Fixpoint put_words (off : Z) (ws : list Z) (l : list Z) : list Z :=
  match ws with [] => l | w :: ws => put_words (off + 4) ws (put32 off w l) end.

(** ** Lemmas *)

Lemma length_le_put n v : length (le_put n v) = n.
Proof. revert v. induction n as [|n IH]; intros v; cbn; [done|]. by rewrite IH. Qed.

Lemma le_get_put n v : 0 ≤ v < 256 ^ Z.of_nat n → le_get (le_put n v) = v.
Proof.
  revert v. induction n as [|n IH]; intros v Hv; cbn [le_get le_put].
  { change (256 ^ Z.of_nat 0) with 1 in Hv. lia. }
  rewrite Nat2Z.inj_succ, Z.pow_succ_r in Hv by lia.
  rewrite IH by (Z.div_mod_to_equations; lia). pose proof (Z.div_mod v 256). lia.
Qed.

Lemma le_get_bound bs : Forall (λ b, 0 ≤ b < 256) bs → 0 ≤ le_get bs < 256 ^ Z.of_nat (length bs).
Proof.
  induction 1 as [|b bs Hb _ IH]; cbn [le_get length]; [done|].
  rewrite Nat2Z.inj_succ, Z.pow_succ_r by lia. lia.
Qed.

Lemma length_splice off bs l : (off + length bs ≤ length l)%nat → length (splice off bs l) = length l.
Proof. intros. unfold splice. rewrite !length_app, length_take, length_drop. lia. Qed.

Lemma lookup_splice off bs l i :
  (off + length bs ≤ length l)%nat →
  splice off bs l !! i =
  if decide (off ≤ i < off + length bs)%nat then bs !! (i - off)%nat else l !! i.
Proof.
  intros Hl. unfold splice. case_decide as Hi.
  - rewrite lookup_app_r by (rewrite length_take; lia). rewrite length_take, Nat.min_l by lia.
    by rewrite lookup_app_l by lia.
  - destruct (decide (i < off)%nat).
    + rewrite lookup_app_l by (rewrite length_take; lia). by rewrite lookup_take_lt.
    + rewrite lookup_app_r by (rewrite length_take; lia). rewrite length_take, Nat.min_l by lia.
      rewrite lookup_app_r by lia. rewrite lookup_drop. f_equal. lia.
Qed.

Lemma lookup_slice off n l i : slice off n l !! i = if decide (i < n)%nat then l !! (off + i)%nat else None.
Proof.
  unfold slice. case_decide; [by rewrite lookup_take_lt, lookup_drop|]. rewrite lookup_take_ge; [done|lia].
Qed.

Lemma slice_splice off bs l :
  (off + length bs ≤ length l)%nat → slice off (length bs) (splice off bs l) = bs.
Proof.
  intros Hl. apply list_eq. intros i. rewrite lookup_slice, lookup_splice by done.
  case_decide; [rewrite decide_True by lia; f_equal; lia|]. symmetry. apply lookup_ge_None. lia.
Qed.

Lemma slice_splice_ne off n off' bs l :
  (off' + length bs ≤ length l)%nat → (off + n ≤ off' ∨ off' + length bs ≤ off)%nat →
  slice off n (splice off' bs l) = slice off n l.
Proof.
  intros Hl Hd. apply list_eq. intros i. rewrite !lookup_slice. case_decide; [|done].
  by rewrite lookup_splice, decide_False by lia.
Qed.

Lemma splice_slice off n l : splice off (slice off n l) l = l.
Proof.
  unfold splice, slice. rewrite length_take, length_drop.
  destruct (decide (off + n ≤ length l)%nat).
  - rewrite Nat.min_l by lia. rewrite <-(drop_drop l n off), take_drop. apply take_drop.
  - rewrite Nat.min_r by lia. rewrite (take_ge (drop off l)) by (rewrite length_drop; lia).
    rewrite (drop_ge l (off + (length l - off))) by lia. rewrite app_nil_r. apply take_drop.
Qed.

Lemma splice_ok P off bs l : Forall P bs → Forall P l → Forall P (splice off bs l).
Proof. intros. unfold splice. apply Forall_app_2; [by apply Forall_take|]. apply Forall_app_2; [done|by apply Forall_drop]. Qed.

Lemma le_put_ok n v : Forall (λ b, 0 ≤ b < 256) (le_put n v).
Proof. revert v. induction n as [|n IH]; intros v; constructor; [by apply Z.mod_pos_bound|done]. Qed.

Lemma length_put32 off v l : 0 ≤ off → (off + 4 ≤ Z.of_nat (length l)) → length (put32 off v l) = length l.
Proof. intros. apply length_splice. rewrite length_le_put. lia. Qed.

Lemma get32_put32 off v l :
  0 ≤ off → off + 4 ≤ Z.of_nat (length l) → 0 ≤ v < 2 ^ 32 → get32 off (put32 off v l) = v.
Proof.
  intros Ho Hl Hv. unfold get32, put32.
  rewrite <-(length_le_put 4 v) at 1. rewrite slice_splice by (rewrite length_le_put; lia).
  apply le_get_put. change (256 ^ Z.of_nat 4) with (2 ^ 32). lia.
Qed.

Lemma get32_put32_ne off off' v l :
  0 ≤ off → 0 ≤ off' → off' + 4 ≤ Z.of_nat (length l) → off + 4 ≤ off' ∨ off' + 4 ≤ off →
  get32 off (put32 off' v l) = get32 off l.
Proof.
  intros. unfold get32, put32. rewrite slice_splice_ne; [done|rewrite length_le_put; lia|].
  rewrite length_le_put. lia.
Qed.

Lemma length_put_words ws off l :
  0 ≤ off → off + 4 * Z.of_nat (length ws) ≤ Z.of_nat (length l) → length (put_words off ws l) = length l.
Proof.
  revert off l. induction ws as [|w ws IH]; intros off l Ho Hl; cbn [put_words length] in *; [done|].
  rewrite IH; rewrite ?length_put32; lia.
Qed.

Lemma get32_put_words_ne ws o off l :
  0 ≤ o → o + 4 ≤ off → off + 4 * Z.of_nat (length ws) ≤ Z.of_nat (length l) →
  get32 o (put_words off ws l) = get32 o l.
Proof.
  revert off l. induction ws as [|w ws IH]; intros off l Ho Hd Hl; cbn [put_words length] in *; [done|].
  rewrite IH; rewrite ?length_put32; try lia. apply get32_put32_ne; lia.
Qed.

Lemma get32_put_words ws i w off l :
  0 ≤ off → off + 4 * Z.of_nat (length ws) ≤ Z.of_nat (length l) → ws !! i = Some w → 0 ≤ w < 2 ^ 32 →
  get32 (off + 4 * Z.of_nat i) (put_words off ws l) = w.
Proof.
  revert off l i. induction ws as [|x ws IH]; intros off l i Ho Hl Hi Hw; cbn [put_words length] in *; [done|].
  destruct i as [|i]; cbn in Hi.
  - injection Hi as ->. replace (off + 4 * Z.of_nat 0) with off by lia.
    rewrite get32_put_words_ne; rewrite ?length_put32; try lia. apply get32_put32; lia.
  - replace (off + 4 * Z.of_nat (S i)) with (off + 4 + 4 * Z.of_nat i) by lia.
    apply IH; rewrite ?length_put32; try done; lia.
Qed.

(** A field and the others. *)
Lemma le_get_mod n v : le_get (le_put n v) = v mod 256 ^ Z.of_nat n.
Proof.
  revert v. induction n as [|n IH]; intros v; cbn [le_get le_put]; [by rewrite Z.mod_1_r|].
  rewrite IH, Nat2Z.inj_succ, Z.pow_succ_r by lia. rewrite Z.rem_mul_r by lia. done.
Qed.
Lemma get16_put16 off v l : 0 ≤ off → off + 2 ≤ Z.of_nat (length l) → get16 off (put16 off v l) = v mod 2 ^ 16.
Proof.
  intros. unfold get16, put16. rewrite <-(length_le_put 2 v) at 1.
  rewrite slice_splice by (rewrite length_le_put; lia). apply le_get_mod.
Qed.
Lemma length_put16 off v l : 0 ≤ off → off + 2 ≤ Z.of_nat (length l) → length (put16 off v l) = length l.
Proof. intros. apply length_splice. rewrite length_le_put. lia. Qed.

Lemma slice_put16_ne o n off v l :
  0 ≤ off → off + 2 ≤ Z.of_nat (length l) → Z.of_nat (o + n) ≤ off ∨ off + 2 ≤ Z.of_nat o → slice o n (put16 off v l) = slice o n l.
Proof. intros. apply slice_splice_ne; rewrite length_le_put; lia. Qed.
Lemma slice_put32_ne o n off v l :
  0 ≤ off → off + 4 ≤ Z.of_nat (length l) → Z.of_nat (o + n) ≤ off ∨ off + 4 ≤ Z.of_nat o → slice o n (put32 off v l) = slice o n l.
Proof. intros. apply slice_splice_ne; rewrite length_le_put; lia. Qed.
Lemma slice_put_words_ne ws o n off l :
  0 ≤ off → off + 4 * Z.of_nat (length ws) ≤ Z.of_nat (length l) →
  Z.of_nat (o + n) ≤ off ∨ off + 4 * Z.of_nat (length ws) ≤ Z.of_nat o → slice o n (put_words off ws l) = slice o n l.
Proof.
  revert off l. induction ws as [|w ws IH]; intros off l H1 H2 H3; cbn [put_words length] in *; [done|].
  rewrite IH; [apply slice_put32_ne; lia|lia|rewrite length_put32; lia|lia].
Qed.
