(* ===== verification/Printf.v ===== *)
(** * Kernel output

    [kernel/printf.c] and the polled output of [kernel/uart.c] and
    [kernel/console.c].  What has been printed is the sequence of bytes stored
    in the transmit holding register. *)

From Stdlib Require Import Ascii.
From S2P Require Import Prelude Riscv Memory Kalloc State.

(** The bytes of a string literal. *)
Definition bytes_of (s : string) : list Z :=
  (λ c, Z.of_N (N_of_ascii c)) <$> Strings.String.list_ascii_of_string s.
Definition line (s : string) : string := String.append s (String "010"%char EmptyString).
Definition chr (s : string) : Z := default 0 (head (bytes_of s)).

(** ** uart.c and console.c *)

Definition write_thr (c : Z) : M kernel unit :=
  modify (upd_uart (λ u, upd_thr_full (λ _, true) (upd_thr_sent (λ l, l ++ [u8 c]) u))).
(** The register drains by itself: waiting for it ends with it empty. *)
Definition wait_thr : M kernel unit := modify (upd_uart (upd_thr_full (λ _, false))).

Definition uartputc_sync (c : Z) : M kernel unit := wait_thr ;; write_thr c.

Definition BACKSPACE : Z := 0x100.
Definition consputc (c : Z) : M kernel unit :=
  if c =? BACKSPACE then uartputc_sync 8 ;; uartputc_sync (chr " ") ;; uartputc_sync 8
  else uartputc_sync c.

(** ** printf.c *)

Definition digit (d : Z) : Z := default 0 (bytes_of "0123456789abcdef" !! Z.to_nat d).

(** The digits that [do ... while] stores in [buf], least significant first. *)
Fixpoint digits_of (fuel : nat) (x base : Z) : list Z :=
  match fuel with
  | O => []
  | S f => digit (x mod base) :: (if x / base =? 0 then [] else digits_of f (x / base) base)
  end.
Definition int_digits (xx base : Z) (sign : bool) : list Z :=
  let neg := sign && (xx <? 0) in
  let x := u32 (if neg then - xx else xx) in
  digits_of 32 x base ++ (if neg then [chr "-"] else []).

Definition printint (xx base : Z) (sign : bool) : M kernel unit :=
  let buf := int_digits xx base sign in
  if 16 <? Z.of_nat (length buf) then fault "printint: buf"
  else forM (reverse buf) consputc.

Definition printptr (x : Z) : M kernel unit :=
  consputc (chr "0") ;; consputc (chr "x") ;;
  forM (seqZ 0 16) (λ i, consputc (digit (Z.shiftr (u64 (Z.shiftl x (4 * i))) 60))).

(** The variable arguments: an [int], a [uint64], a string ([None] is null). *)
Inductive parg := PInt (n : Z) | PPtr (n : Z) | PStr (s : option (list Z)).

(** [fmt] without its terminating NUL. *)
Fixpoint printf_loop (fmt : list Z) (args : list parg) : M kernel unit :=
  match fmt with
  | [] => mret tt
  | c :: fmt =>
      if negb (c =? chr "%") then consputc c ;; printf_loop fmt args
      else
        match fmt with
        | [] => mret tt
        | c :: fmt =>
            if c =? chr "d" then
              match args with
              | PInt n :: args => printint n 10 true ;; printf_loop fmt args
              | _ => fault "printf: argument" end
            else if c =? chr "x" then
              match args with
              | PInt n :: args => printint n 16 true ;; printf_loop fmt args
              | _ => fault "printf: argument" end
            else if c =? chr "p" then
              match args with
              | PPtr n :: args => printptr n ;; printf_loop fmt args
              | _ => fault "printf: argument" end
            else if c =? chr "s" then
              match args with
              | PStr s :: args => forM (default (bytes_of "(null)") s) consputc ;; printf_loop fmt args
              | _ => fault "printf: argument" end
            else if c =? chr "%" then consputc (chr "%") ;; printf_loop fmt args
            else consputc (chr "%") ;; consputc c ;; printf_loop fmt args
        end
  end.
Definition printf (fmt : string) (args : list parg) : M kernel unit := printf_loop (bytes_of fmt) args.

(** ** What is printed *)

(** [m] prints [l] and does nothing else. *)
Definition prints (m : M kernel unit) (l : list Z) : Prop :=
  ∀ k, ∃ full, m k = Done tt (upd_uart (λ u,
    upd_thr_full (λ _, full) (upd_thr_sent (λ s, s ++ l) u)) k).

Lemma prints_nil : prints (mret tt) [].
Proof.
  intros k. exists (thr_full (uart k)). unfold mret, M_ret. f_equal.
  destruct k as [? ? ? ? ? ? ? ? ? ? ? ? ? []]; cbn. unfold upd_uart, upd_thr_full, upd_thr_sent; cbn.
  by rewrite app_nil_r.
Qed.
Lemma prints_app (m1 m2 : M kernel unit) l1 l2 :
  prints m1 l1 → prints m2 l2 → prints (m1 ;; m2) (l1 ++ l2).
Proof.
  intros H1 H2 k. destruct (H1 k) as [f1 E1].
  destruct (H2 (upd_uart (λ u, upd_thr_full (λ _, f1) (upd_thr_sent (λ s, s ++ l1) u)) k)) as [f2 E2].
  exists f2. unfold mbind, M_bind. rewrite E1. cbn [obind]. rewrite E2. f_equal.
  destruct k as [? ? ? ? ? ? ? ? ? ? ? ? ? []]; unfold upd_uart, upd_thr_full, upd_thr_sent; cbn.
  by rewrite app_assoc.
Qed.

Lemma prints_wp (m : M kernel unit) l k (Q : unit → kernel → Prop) :
  prints m l → (∀ u, Q tt (upd_uart (λ _, u) k)) → wp m Q k.
Proof. intros Hm HQ. destruct (Hm k) as [full E]. eapply wp_intro; [exact E|]. destruct k; apply HQ. Qed.

Lemma prints_consputc c : c ≠ BACKSPACE → prints (consputc c) [u8 c].
Proof.
  intros Hc k. unfold consputc. rewrite (proj2 (Z.eqb_neq _ _)) by done.
  exists true. destruct k as [? ? ? ? ? ? ? ? ? ? ? ? ? []]. reflexivity.
Qed.

(** A format without directives prints itself. *)
Definition plain (fmt : list Z) : bool := forallb (λ c, negb (c =? chr "%") && (0 <=? c) && (c <? 256)) fmt.
Lemma prints_plain fmt args : plain fmt = true → prints (printf_loop fmt args) fmt.
Proof.
  induction fmt as [|c fmt IH]; intros Hp; [apply prints_nil|]. cbn [plain forallb] in Hp.
  apply andb_prop in Hp as [Hc Hp]. bsimpl. cbn [printf_loop].
  rewrite (proj2 (Z.eqb_neq _ _)) by done. cbn [negb].
  change (c :: fmt) with ([c] ++ fmt). apply prints_app; [|by apply IH].
  rewrite <-(u8_id c) at 2 by lia. apply prints_consputc. change BACKSPACE with 256. lia.
Qed.
