(* ===== verification/PrintfSpec.v ===== *)
(** * What [printf] prints

    [printf] of [kernel/printf.c] against [render], which gives the text of a
    format and its arguments, and the text of a number against its value. *)

From S2P Require Import Prelude Riscv Memory State Printf.

(** ** Numerals *)

Definition int_text (n base : Z) : list Z := reverse (int_digits n base true).
Definition ptr_text (n : Z) : list Z :=
  [chr "0"; chr "x"] ++ ((λ i, digit (Z.shiftr (u64 (Z.shiftl n (4 * i))) 60)) <$> seqZ 0 16).

(** The value of a digit, and of a numeral read from the left. *)
Definition digit_val (c : Z) : Z := if c <? chr "a" then c - chr "0" else c - chr "a" + 10.
Definition numeral (base : Z) (l : list Z) : Z := foldl (λ n c, n * base + digit_val c) 0 l.
Definition read_int (base : Z) (l : list Z) : Z :=
  match l with c :: l' => if c =? chr "-" then - numeral base l' else numeral base l | [] => 0 end.

(** ** Formats *)

(** The text that [fmt] stands for, [None] when an argument is missing or of another type. *)
Fixpoint render (fmt : list Z) (args : list parg) : option (list Z) :=
  match fmt with
  | [] => Some []
  | c :: fmt =>
      if negb (c =? chr "%") then (c ::.) <$> render fmt args
      else
        match fmt with
        | [] => Some []
        | c :: fmt =>
            if c =? chr "d" then
              match args with PInt n :: args => (int_text n 10 ++.) <$> render fmt args | _ => None end
            else if c =? chr "x" then
              match args with PInt n :: args => (int_text n 16 ++.) <$> render fmt args | _ => None end
            else if c =? chr "p" then
              match args with PPtr n :: args => (ptr_text n ++.) <$> render fmt args | _ => None end
            else if c =? chr "s" then
              match args with
              | PStr s :: args => (default (bytes_of "(null)") s ++.) <$> render fmt args | _ => None end
            else if c =? chr "%" then (c ::.) <$> render fmt args
            else (λ l, chr "%" :: c :: l) <$> render fmt args
        end
  end.

Definition is_byte (c : Z) : Prop := 0 ≤ c < 256.
Definition arg_ok (a : parg) : Prop :=
  match a with
  | PInt n => - 2 ^ 31 ≤ n < 2 ^ 31
  | PPtr _ => True
  | PStr s => Forall is_byte (default [] s)
  end.

(** ** Digits *)

Lemma digit_spec d : 0 ≤ d < 16 → digit_val (digit d) = d ∧ is_byte (digit d) ∧ digit d ≠ chr "-".
Proof.
  intros Hd. assert (d = 0 ∨ d = 1 ∨ d = 2 ∨ d = 3 ∨ d = 4 ∨ d = 5 ∨ d = 6 ∨ d = 7 ∨ d = 8 ∨ d = 9 ∨ d = 10 ∨ d = 11 ∨
    d = 12 ∨ d = 13 ∨ d = 14 ∨ d = 15) as Hc by lia. unfold is_byte.
  destruct Hc as [->|[->|[->|[->|[->|[->|[->|[->|[->|[->|[->|[->|[->|[->|[->| ->]]]]]]]]]]]]]]]; by vm_compute.
Qed.

Section digits.
Context (base : Z) (Hbase : 2 ≤ base ≤ 16).

Lemma digits_of_bytes fuel x : Forall (λ c, is_byte c ∧ c ≠ chr "-") (digits_of fuel x base).
Proof using Hbase.
  revert x. induction fuel as [|fuel IH]; intros x; cbn [digits_of]; constructor.
  - pose proof (Z.mod_pos_bound x base ltac:(lia)). by destruct (digit_spec (x mod base)) as (_ & ? & ?); [lia|].
  - by destruct (_ =? 0).
Qed.

(** [n] digits are enough for a number below [base ^ n]. *)
Lemma digits_of_spec (n fuel : nat) x :
  0 ≤ x < base ^ Z.of_nat n → (0 < n ≤ fuel)%nat →
  numeral base (reverse (digits_of fuel x base)) = x ∧ (0 < length (digits_of fuel x base) ≤ n)%nat.
Proof using Hbase.
  revert n x. induction fuel as [|fuel IH]; intros n x Hx Hn; [lia|]. cbn [digits_of].
  pose proof (Z.mod_pos_bound x base ltac:(lia)) as Hm. pose proof (Z.div_mod x base ltac:(lia)) as Hdm.
  destruct (digit_spec (x mod base)) as (Hv & _ & _); [lia|].
  destruct (Z.eqb_spec (x / base) 0) as [E|E]; cbn [length].
  - split; [|lia]. cbn. rewrite Hv. lia.
  - destruct n as [|[|n]]; [lia| |].
    { exfalso. apply E, Z.div_small. rewrite Z.pow_1_r in Hx. lia. }
    assert (0 ≤ x / base < base ^ Z.of_nat (S n)) as Hd.
    { split; [apply Z.div_pos; lia|]. apply Z.div_lt_upper_bound; [lia|]. rewrite <-Z.pow_succ_r by lia.
      replace (Z.succ (Z.of_nat (S n))) with (Z.of_nat (S (S n))) by lia. lia. }
    destruct (IH (S n) (x / base) Hd) as [Hn' Hl]; [lia|]. split; [|lia].
    rewrite reverse_cons. unfold numeral in *. rewrite foldl_app, Hn'. cbn. rewrite Hv. lia.
Qed.
End digits.

Lemma int_text_spec n base :
  (base = 10 ∨ base = 16) → - 2 ^ 31 ≤ n < 2 ^ 31 →
  read_int base (int_text n base) = n ∧ (length (int_digits n base true) ≤ 16)%nat ∧ Forall is_byte (int_text n base).
Proof.
  intros Hb Hn. unfold int_text, int_digits. cbn [andb]. set (x := u32 _).
  assert (2 ≤ base ≤ 16) as Hb16 by (destruct Hb; lia).
  assert (x = Z.abs n) as Hx.
  { unfold x. destruct (Z.ltb_spec n 0); rewrite u32_id by lia; lia. }
  assert (0 ≤ x < base ^ Z.of_nat 10) as Hr.
  { rewrite Hx. destruct Hb as [-> | ->]; change (10 ^ Z.of_nat 10) with 10000000000; change (16 ^ Z.of_nat 10) with 1099511627776; lia. }
  destruct (digits_of_spec base Hb16 10 32 x Hr) as [Hnum Hlen]; [lia|].
  pose proof (digits_of_bytes base Hb16 32 x) as Hby. set (ds := digits_of 32 x base) in *.
  rewrite reverse_app. split_and!.
  - destruct (Z.ltb_spec n 0); cbn [reverse app].
    + change (reverse [chr "-"] ++ reverse ds) with (chr "-" :: reverse ds). cbn [read_int]. rewrite Z.eqb_refl, Hnum. lia.
    + change (reverse [] ++ reverse ds) with (reverse ds). destruct (reverse ds) as [|c l] eqn:E.
      { apply (f_equal length) in E. rewrite length_reverse in E. cbn in E. lia. }
      cbn [read_int]. rewrite (proj2 (Z.eqb_neq c (chr "-"))); [lia|].
      assert (c ∈ ds) as Hc by (rewrite <-elem_of_reverse, E; left). rewrite Forall_forall in Hby. by destruct (Hby c Hc).
  - rewrite length_app. destruct (n <? 0); cbn [length]; lia.
  - apply Forall_app. split; [by destruct (n <? 0); [apply (bool_decide_unpack _); vm_compute|]|].
    apply Forall_reverse. eapply Forall_impl; [exact Hby|]. naive_solver.
Qed.

(** ** Printing *)

(** String literals. *)
Lemma bytes_of_ok s : Forall is_byte (bytes_of s).
Proof.
  unfold bytes_of. apply Forall_fmap, Forall_true. intros c. unfold is_byte, compose. pose proof (Ascii.N_ascii_bounded c). lia.
Qed.
Lemma bytes_of_line s : bytes_of (line s) = bytes_of s ++ [10].
Proof. unfold bytes_of, line. induction s as [|c s IH]; [done|]. cbn. by rewrite <-IH. Qed.
Lemma prints_byte c : is_byte c → prints (consputc c) [c].
Proof. intros Hc. unfold is_byte in Hc. rewrite <-(u8_id c) at 2 by lia. apply prints_consputc. change BACKSPACE with 256. lia. Qed.
Lemma prints_forM {A} (l : list A) (f : A → Z) (m : A → M kernel unit) :
  (∀ x, x ∈ l → prints (m x) [f x]) → prints (forM l m) (f <$> l).
Proof.
  induction l as [|x l IH]; intros Hm; [apply prints_nil|]. cbn [forM fmap list_fmap].
  change (f x :: (f <$> l)) with ([f x] ++ (f <$> l)). apply prints_app; [apply Hm; left|].
  apply IH. intros y Hy. apply Hm. by right.
Qed.
Lemma prints_bytes l : Forall is_byte l → prints (forM l consputc) l.
Proof.
  intros Hl. pose proof (prints_forM l (λ c, c) consputc) as Hp. rewrite list_fmap_id in Hp. apply Hp.
  intros c Hc. rewrite Forall_forall in Hl. by apply prints_byte, Hl.
Qed.
Lemma prints_int n base : (base = 10 ∨ base = 16) → - 2 ^ 31 ≤ n < 2 ^ 31 → prints (printint n base true) (int_text n base).
Proof.
  intros Hb Hn. destruct (int_text_spec n base Hb Hn) as (_ & Hl & Hby). unfold printint.
  destruct (Z.ltb_spec 16 (Z.of_nat (length (int_digits n base true)))); [lia|]. by apply prints_bytes.
Qed.
Lemma prints_ptr n : prints (printptr n) (ptr_text n).
Proof.
  unfold printptr, ptr_text. change ([chr "0"; chr "x"] ++ ?l) with ([chr "0"] ++ [chr "x"] ++ l).
  apply prints_app; [by apply prints_byte|]. apply prints_app; [by apply prints_byte|].
  apply (prints_forM _ (λ i, digit (Z.shiftr (u64 (Z.shiftl n (4 * i))) 60))). intros i _. apply prints_byte.
  pose proof (u64_bound (Z.shiftl n (4 * i))) as Hu. apply digit_spec. rewrite Z.shiftr_div_pow2 by lia.
  split; [apply Z.div_pos; lia|]. apply Z.div_lt_upper_bound; [lia|]. change (2 ^ 60 * 16) with (2 ^ 64). lia.
Qed.

Lemma printf_prints fmt args l :
  Forall is_byte fmt → Forall arg_ok args → render fmt args = Some l → prints (printf_loop fmt args) l.
Proof.
  remember (length fmt) as n eqn:Hn. assert (length fmt ≤ n)%nat as Hle by lia. clear Hn. revert fmt Hle args l.
  induction n as [|n IH]; intros [|c fmt] Hle args l Hf Ha; cbn [length] in Hle; [| lia | |]; [intros [= <-]; apply prints_nil..|].
  apply Forall_cons in Hf as [Hc Hf]. cbn [render printf_loop]. destruct (negb (c =? chr "%")).
  { intros (l' & Hr & ->)%fmap_Some. change (c :: l') with ([c] ++ l'). apply prints_app; [by apply prints_byte|]. apply IH; [lia|done..]. }
  destruct fmt as [|d fmt]; [intros [= <-]; apply prints_nil|]. apply Forall_cons in Hf as [Hd Hf]. cbn [length] in Hle.
  assert (∀ args' l', Forall arg_ok args' → render fmt args' = Some l' → prints (printf_loop fmt args') l') as IH'.
  { intros args' l' Ha' Hr'. apply IH; [lia|done..]. }
  clear IH. destruct (d =? chr "d").
  { destruct args as [|[n0| |] args]; try done. apply Forall_cons in Ha as [Hn Ha]. intros (l' & Hr & ->)%fmap_Some.
    apply prints_app; [apply prints_int; [by left|done]|by apply IH']. }
  destruct (d =? chr "x").
  { destruct args as [|[n0| |] args]; try done. apply Forall_cons in Ha as [Hn Ha]. intros (l' & Hr & ->)%fmap_Some.
    apply prints_app; [apply prints_int; [by right|done]|by apply IH']. }
  destruct (d =? chr "p").
  { destruct args as [|[|n0|] args]; try done. apply Forall_cons in Ha as [Hn Ha]. intros (l' & Hr & ->)%fmap_Some.
    apply prints_app; [apply prints_ptr|by apply IH']. }
  destruct (d =? chr "s").
  { destruct args as [|[| |s0] args]; try done. apply Forall_cons in Ha as [Hn Ha]. intros (l' & Hr & ->)%fmap_Some.
    apply prints_app; [|by apply IH']. apply prints_bytes. destruct s0; [exact Hn|]. by apply (bool_decide_unpack _). }
  destruct (Z.eqb_spec d (chr "%")) as [->|].
  { intros (l' & Hr & ->)%fmap_Some. change (chr "%" :: l') with ([chr "%"] ++ l'). apply prints_app; [by apply prints_byte|by apply IH']. }
  intros (l' & Hr & ->)%fmap_Some. change (chr "%" :: d :: l') with ([chr "%"] ++ [d] ++ l').
  apply prints_app; [by apply prints_byte|]. apply prints_app; [by apply prints_byte|by apply IH'].
Qed.

(** [printf] prints the text of its format and arguments, and changes nothing
    but the serial port; a decimal or hexadecimal [int] is printed as a numeral
    whose value is the number. *)
Theorem printf_spec fmt args l k :
  Forall is_byte (bytes_of fmt) → Forall arg_ok args → render (bytes_of fmt) args = Some l →
  (∃ full, printf fmt args k = Done tt (upd_uart (λ u, upd_thr_full (λ _, full) (upd_thr_sent (λ s, s ++ l) u)) k)) ∧
  ∀ n base, (base = 10 ∨ base = 16) → - 2 ^ 31 ≤ n < 2 ^ 31 → read_int base (int_text n base) = n.
Proof.
  intros Hf Ha Hr. split; [by apply (printf_prints _ _ _ Hf Ha Hr)|]. intros n base Hb Hn. by apply int_text_spec.
Qed.
