(* ===== verification/Sched.v ===== *)
(** * Sleeping and waking

    The part of [kernel/proc.c] that the rest of the kernel blocks with, [sleep],
    [wakeup], [kill] and [killed], the copies between the kernel and either kind
    of address, and the sleep-locks of [kernel/sleeplock.c].  [me] is the process whose kernel thread runs, the
    value of [myproc()]. *)

From S2P Require Import Prelude Riscv Memory Kalloc Vm State.

Definition sleep (me : nat) (ch : chan) : M kernel unit :=
  set_proc me (λ p, upd_p_state (λ _, SLEEPING) (upd_p_chan (λ _, ch) p)) ;;
  sleep_on ch ;;
  set_proc me (upd_p_chan (λ _, ChNull)).

Definition wake (ch : chan) (p : proc) : proc :=
  if decide (p_state p = SLEEPING ∧ p_chan p = ch) then upd_p_state (λ _, RUNNABLE) p else p.
Definition wakeup (me : option nat) (ch : chan) : M kernel unit :=
  modify (upd_procs (imap (λ i p, if decide (me = Some i) then p else wake ch p))).

Definition setkilled (i : nat) : M kernel unit := set_proc i (upd_p_killed (λ _, true)).
Definition killed (i : nat) : M kernel bool := p ← the_proc i; mret (p_killed p).

(** The first process of the table with the given pid. *)
Definition kill (pid : Z) : M kernel Z :=
  l ← gets procs;
  match list_find (λ p, p_pid p = pid) l with
  | Some (i, _) =>
      set_proc i (λ p,
        let p := upd_p_killed (λ _, true) p in
        if decide (p_state p = SLEEPING) then upd_p_state (λ _, RUNNABLE) p else p) ;;
      mret 0
  | None => mret (-1)
  end.

(** ** Sleep-locks *)

Inductive lockref := BufLock (b : nat) | InodeLock (i : nat).

Definition get_lock (r : lockref) : M kernel sleeplock :=
  match r with
  | BufLock b => x ← the_buf b; mret (b_lock x)
  | InodeLock i => x ← the_inode i; mret (i_lock x)
  end.
Definition set_lock (r : lockref) (lk : sleeplock) : M kernel unit :=
  match r with
  | BufLock b => set_buf b (upd_b_lock (λ _, lk))
  | InodeLock i => set_inode i (upd_i_lock (λ _, lk))
  end.
Definition lock_chan (r : lockref) : chan :=
  match r with BufLock b => ChBufLock b | InodeLock i => ChInodeLock i end.

Section sleeplock.
Context `{SleepFuel} (me : nat).

Definition acquiresleep (r : lockref) : M kernel unit :=
  loopM (S sleep_fuel) (λ _,
    lk ← get_lock r;
    if sl_locked lk then sleep me (lock_chan r) ;; mret (inl tt) else mret (inr tt)) tt ;;
  p ← the_proc me;
  set_lock r (Sleeplock true (p_pid p)).

Definition releasesleep (r : lockref) : M kernel unit :=
  get_lock r ;;
  set_lock r (Sleeplock false 0) ;;
  wakeup (Some me) (lock_chan r).

Definition holdingsleep (r : lockref) : M kernel bool :=
  lk ← get_lock r;
  p ← the_proc me;
  mret (sl_locked lk && (sl_pid lk =? p_pid p)).
End sleeplock.

(** ** User or kernel addresses

    The destination of a read and the source of a write: a user virtual address,
    a physical page, or a variable of the caller, which is returned or given as
    the bytes themselves. *)

Inductive dst := DUser (va : Z) | DKern (pa : Z) | DLocal.
Inductive src := SUser (va : Z) | SLocal (bytes : list Z).

Section either.
Context {I : Image} (me : nat).

Definition either_copyout (d : dst) (bytes : list Z) : M kernel Z :=
  match d with
  | DUser va =>
      p ← the_proc me;
      vm (copyout (p_pagetable p) va bytes (Z.of_nat (length bytes)))
  | DKern pa => vm (modify (set_ram (λ m, store_bytes m pa bytes))) ;; mret 0
  | DLocal => mret 0
  end.

(** The status and the bytes written to the destination. *)
Definition either_copyin (s : src) (len : Z) : M kernel (Z * list Z) :=
  match s with
  | SUser va => p ← the_proc me; vm (copyin (p_pagetable p) va len)
  | SLocal bytes =>
      if Z.of_nat (length bytes) <? len then fault "read beyond the source"
      else mret (0, take (Z.to_nat len) bytes)
  end.
End either.

Definition dst_add (d : dst) (n : Z) : dst :=
  match d with DUser va => DUser (u64 (va + n)) | DKern pa => DKern (u64 (pa + n)) | DLocal => DLocal end.
Definition src_add (s : src) (n : Z) : src :=
  match s with SUser va => SUser (u64 (va + n)) | SLocal l => SLocal (drop (Z.to_nat n) l) end.
