(* ===== verification/Bio.v ===== *)
(** * The buffer cache

    [kernel/bio.c]: the buffers, the doubly linked list that orders them by use,
    and reading and writing blocks through them.  [disk_rw] is the driver of
    [kernel/virtio_disk.c] seen from outside: it moves one block between a
    buffer and the disk and returns when the device has finished. *)

From S2P Require Import Prelude Riscv Memory Kalloc State Sched.

(** ** The links *)

Definition next_of (b : option nat) : M kernel (option nat) :=
  match b with Some i => x ← the_buf i; mret (b_next x) | None => gets (λ k, head_next (bcache k)) end.
Definition prev_of (b : option nat) : M kernel (option nat) :=
  match b with Some i => x ← the_buf i; mret (b_prev x) | None => gets (λ k, head_prev (bcache k)) end.
Definition set_next (b v : option nat) : M kernel unit :=
  match b with
  | Some i => set_buf i (upd_b_next (λ _, v))
  | None => modify (upd_bcache (upd_head_next (λ _, v)))
  end.
Definition set_prev (b v : option nat) : M kernel unit :=
  match b with
  | Some i => set_buf i (upd_b_prev (λ _, v))
  | None => modify (upd_bcache (upd_head_prev (λ _, v)))
  end.

(** Take [b] out of the list. *)
Definition unlink (b : nat) : M kernel unit :=
  n ← next_of (Some b);
  p ← prev_of (Some b);
  set_prev n p ;;
  p ← prev_of (Some b);
  n ← next_of (Some b);
  set_next p n.

(** Put [b] right after the head. *)
Definition link_first (b : nat) : M kernel unit :=
  n ← next_of None;
  set_next (Some b) n ;;
  set_prev (Some b) None ;;
  n ← next_of None;
  set_prev n (Some b) ;;
  set_next None (Some b).

Definition binit : M kernel unit :=
  set_prev None None ;;
  set_next None None ;;
  forM (seq 0 (Z.to_nat NBUF)) (λ b,
    n ← next_of None;
    set_next (Some b) n ;;
    set_prev (Some b) None ;;
    set_lock (BufLock b) (Sleeplock false 0) ;;
    n ← next_of None;
    set_prev n (Some b) ;;
    set_next None (Some b)).

(** ** The disk *)

Definition disk_block (d : disk) (bno : Z) : list Z :=
  default (replicate (Z.to_nat BSIZE) 0) (blocks d !! bno).
Definition disk_write (bno : Z) (data : list Z) (d : disk) : disk :=
  Disk (<[bno := data]> (blocks d)) (writes d ++ [(bno, data)]).

Definition disk_rw (b : nat) (write : bool) : M kernel unit :=
  x ← the_buf b;
  if write then modify (upd_kdisk (disk_write (b_blockno x) (b_data x)))
  else d ← gets kdisk; set_buf b (upd_b_data (λ _, disk_block d (b_blockno x))).

(** ** The operations *)

Section bio.
Context `{SleepFuel} (me : nat).

(** The two scans of [bget]. *)
Definition bget_cached (dev blockno : Z) : M kernel (option nat) :=
  b ← next_of None;
  loopM (S (Z.to_nat NBUF)) (λ b,
    match b with
    | None => mret (inr None)
    | Some i =>
        x ← the_buf i;
        if (b_dev x =? dev) && (b_blockno x =? blockno) then mret (inr (Some i))
        else n ← next_of b; mret (inl n)
    end) b.
Definition bget_unused : M kernel (option nat) :=
  b ← prev_of None;
  loopM (S (Z.to_nat NBUF)) (λ b,
    match b with
    | None => mret (inr None)
    | Some i =>
        x ← the_buf i;
        if b_refcnt x =? 0 then mret (inr (Some i)) else n ← prev_of b; mret (inl n)
    end) b.

Definition bget (dev blockno : Z) : M kernel nat :=
  c ← bget_cached dev blockno;
  match c with
  | Some b =>
      set_buf b (upd_b_refcnt (λ n, u32 (n + 1))) ;;
      acquiresleep me (BufLock b) ;;
      mret b
  | None =>
      c ← bget_unused;
      match c with
      | Some b =>
          set_buf b (λ x, upd_b_refcnt (λ _, 1) (upd_b_valid (λ _, false)
            (upd_b_blockno (λ _, blockno) (upd_b_dev (λ _, dev) x)))) ;;
          acquiresleep me (BufLock b) ;;
          mret b
      | None => panic "bget: no buffers"
      end
  end.

Definition bread (dev blockno : Z) : M kernel nat :=
  b ← bget dev blockno;
  x ← the_buf b;
  (if b_valid x then mret tt
   else disk_rw b false ;; set_buf b (upd_b_valid (λ _, true))) ;;
  mret b.

Definition bwrite (b : nat) : M kernel unit :=
  h ← holdingsleep me (BufLock b);
  if negb h then panic "bwrite" else disk_rw b true.

Definition brelse (b : nat) : M kernel unit :=
  h ← holdingsleep me (BufLock b);
  if negb h then panic "brelse"
  else
    releasesleep me (BufLock b) ;;
    set_buf b (upd_b_refcnt (λ n, u32 (n - 1))) ;;
    x ← the_buf b;
    if b_refcnt x =? 0 then unlink b ;; link_first b else mret tt.

Definition bpin (b : nat) : M kernel unit := set_buf b (upd_b_refcnt (λ n, u32 (n + 1))).
Definition bunpin (b : nat) : M kernel unit := set_buf b (upd_b_refcnt (λ n, u32 (n - 1))).
End bio.
