(* ===== verification/BioSpec.v ===== *)
(** * The buffer cache is a cache

    The linked list of [Bio] against a list of buffers ([dll]), the scans of
    [bget] against searches of that list, and [bread], [bwrite] and [brelse]
    against the blocks that the cache and the disk together hold ([bview]). *)

From S2P Require Import Prelude Riscv Memory Kalloc State Sched Bio.

(** ** Doubly linked lists *)

Definition fupd {A} (f : option nat → A) (x : option nat) (y : A) : option nat → A :=
  λ z, if decide (z = x) then y else f z.
Lemma fupd_eq {A} (f : option nat → A) x y : fupd f x y x = y.
Proof. unfold fupd. by rewrite decide_True. Qed.
Lemma fupd_ne {A} (f : option nat → A) x y z : z ≠ x → fupd f x y z = f z.
Proof. intros. unfold fupd. by rewrite decide_False. Qed.

(** [l] are the nodes between [from] and [to]. *)
Fixpoint seg (nx pv : option nat → option nat) (from : option nat) (l : list nat) (to : option nat) : Prop :=
  match l with
  | [] => nx from = to ∧ pv to = from
  | a :: l => nx from = Some a ∧ pv (Some a) = from ∧ seg nx pv (Some a) l to
  end.

Lemma seg_ext nx pv nx' pv' from l to :
  seg nx pv from l to →
  nx' from = nx from → (∀ a, a ∈ l → nx' (Some a) = nx (Some a)) →
  pv' to = pv to → (∀ a, a ∈ l → pv' (Some a) = pv (Some a)) →
  seg nx' pv' from l to.
Proof.
  revert from. induction l as [|a l IH]; intros from Hs Hf Hn Ht Hp; cbn in *.
  - destruct Hs. split; congruence.
  - destruct Hs as (H1 & H2 & H3). rewrite Hf, (Hp a) by left. split_and!; [done|done|].
    apply IH; [done|apply Hn; left| |done|]; intros b Hb; [apply Hn|apply Hp]; by right.
Qed.

Lemma seg_app nx pv from l1 b l2 to :
  seg nx pv from (l1 ++ b :: l2) to ↔ seg nx pv from l1 (Some b) ∧ seg nx pv (Some b) l2 to.
Proof. revert from. induction l1 as [|a l1 IH]; intros from; cbn; [tauto|]. rewrite IH. tauto. Qed.

Lemma seg_link nx pv b l :
  seg nx pv None l None → NoDup (b :: l) →
  let n := nx None in
  seg (fupd (fupd nx (Some b) n) None (Some b)) (fupd (fupd pv (Some b) None) n (Some b)) None (b :: l) None.
Proof.
  intros Hs [Hb Hnd]%NoDup_cons n. cbn [seg]. rewrite fupd_eq. split; [done|].
  destruct l as [|a l]; cbn in Hs.
  - destruct Hs as [Hn Hp]. unfold n. rewrite Hn. split; [by rewrite fupd_ne, fupd_eq|].
    cbn. by rewrite fupd_ne, !fupd_eq.
  - destruct Hs as (Hn & Hp & Hs). unfold n. rewrite Hn. apply not_elem_of_cons in Hb as [Hab Hb].
    apply NoDup_cons in Hnd as [Ha _].
    split; [rewrite fupd_ne, fupd_eq by congruence; done|].
    cbn. rewrite (fupd_ne _ None), !fupd_eq by done. split; [done|]. split; [done|].
    eapply seg_ext; [exact Hs| | | |].
    + rewrite !fupd_ne; congruence.
    + intros c Hc. rewrite !fupd_ne; [done|by intros [= ->]|done].
    + by rewrite !fupd_ne.
    + intros c Hc. rewrite !fupd_ne; [done|by intros [= ->]..].
Qed.

Lemma seg_unlink nx pv from l1 b l2 to :
  seg nx pv from (l1 ++ b :: l2) to → NoDup (l1 ++ b :: l2) →
  (∀ a, a ∈ l1 ++ b :: l2 → from ≠ Some a ∧ to ≠ Some a) →
  let n := nx (Some b) in let p := pv (Some b) in
  seg (fupd nx p n) (fupd pv n p) from (l1 ++ l2) to.
Proof.
  revert from. induction l1 as [|a l1 IH]; intros from Hs Hnd Hne n p; cbn in Hs, Hnd.
  - destruct Hs as (Hn & Hp & Hs). subst p. rewrite Hp. apply NoDup_cons in Hnd as [Hb Hnd].
    destruct l2 as [|c l2]; cbn in *.
    + destruct Hs as [Hn' Hp']. subst n. rewrite Hn'. by rewrite !fupd_eq.
    + destruct Hs as (Hn' & Hp' & Hs). subst n. rewrite Hn', !fupd_eq. split_and!; [done|done|].
      apply NoDup_cons in Hnd as [Hc Hnd].
      eapply seg_ext; [exact Hs| | | |].
      * apply fupd_ne. intros Heq. destruct (Hne c) as [? _]; [set_solver|]. congruence.
      * intros d Hd. apply fupd_ne. intros Heq. destruct (Hne d) as [? _]; [set_solver|]. congruence.
      * apply fupd_ne. apply Hne. set_solver.
      * intros d Hd. apply fupd_ne. intros [= ->]. done.
  - destruct Hs as (Hn & Hp & Hs). apply NoDup_cons in Hnd as [Ha Hnd].
    assert (p ≠ from ∧ n ≠ Some a) as [Hpf Hna].
    { apply seg_app in Hs as [Hs1 Hs2]. split.
      - subst p. destruct (decide (l1 = [])) as [->|Hl1].
        + destruct Hs1 as [_ ->]. intros Heq. destruct (Hne a) as [? _]; [set_solver|]. congruence.
        + destruct (exists_last Hl1) as (l1' & z & ->).
          apply seg_app in Hs1 as [_ [_ ->]]. intros Heq. destruct (Hne z) as [? _]; [set_solver|]. congruence.
      - subst n. destruct l2 as [|c l2]; cbn in Hs2.
        + destruct Hs2 as [-> _]. apply Hne. left.
        + destruct Hs2 as (-> & _). intros [= ->]. set_solver. }
    cbn. rewrite (fupd_ne _ _ _ from), (fupd_ne _ _ _ (Some a)) by done. split_and!; [done|done|].
    apply IH; [done|done|]. intros c Hc. split; [intros [= ->]; done|]. apply Hne. by right.
Qed.

(** ** The list of the cache *)

Definition nx_of (k : kernel) (b : option nat) : option nat :=
  match b with Some i => default None (b_next <$> all_bufs k !! i) | None => head_next (bcache k) end.
Definition pv_of (k : kernel) (b : option nat) : option nat :=
  match b with Some i => default None (b_prev <$> all_bufs k !! i) | None => head_prev (bcache k) end.

(** The buffers of the cache, most recently used first. *)
Record dll (k : kernel) (l : list nat) : Prop := {
  dll_seg : seg (nx_of k) (pv_of k) None l None;
  dll_perm : l ≡ₚ seq 0 (Z.to_nat NBUF);
  dll_len : length (all_bufs k) = Z.to_nat NBUF;
}.

Lemma dll_elem k l i : dll k l → i ∈ l ↔ is_Some (all_bufs k !! i).
Proof.
  intros [_ Hp Hl]. rewrite Hp, lookup_lt_is_Some, Hl, elem_of_seq. lia.
Qed.
Lemma dll_nodup k l : dll k l → NoDup l.
Proof. intros [_ Hp _]. rewrite Hp. apply NoDup_seq. Qed.

(** Following one kind of link: [l] is what is met from [b] on. *)
Fixpoint nexts (nx : option nat → option nat) (b : option nat) (l : list nat) : Prop :=
  match l with [] => b = None | a :: l => b = Some a ∧ nexts nx (nx (Some a)) l end.

Lemma seg_nexts nx pv from l : seg nx pv from l None → nexts nx (nx from) l.
Proof.
  revert from. induction l as [|a l IH]; intros from; cbn; [tauto|].
  intros (H1 & _ & H3). split; [done|]. by apply IH.
Qed.
Lemma nexts_app nx b l1 a l2 : nexts nx b (l1 ++ a :: l2) → nexts nx (nx (Some a)) l2.
Proof. revert b. induction l1 as [|c l1 IH]; intros b; cbn; intros [_ H]; [done|]. eauto. Qed.
Lemma seg_prevs nx pv l to : seg nx pv None l to → nexts pv (pv to) (reverse l).
Proof.
  revert to. induction l as [|a l IH] using rev_ind; intros to Hs.
  - by destruct Hs.
  - apply seg_app in Hs as [H1 [_ H2]]. rewrite reverse_snoc. cbn. auto.
Qed.

Section wp_tables.
Context {T : Type} (tbl : kernel → list T) (upd : (list T → list T) → kernel → kernel).
Lemma wp_at_idx i x (Q : T → kernel → Prop) k : tbl k !! i = Some x → Q x k → wp (at_idx tbl i) Q k.
Proof. intros Hx HQ. unfold at_idx. wp_steps. rewrite Hx. by wp_step. Qed.
Lemma wp_set_idx i x f (Q : unit → kernel → Prop) k :
  tbl k !! i = Some x → Q tt (upd (λ _, <[i := f x]> (tbl k)) k) → wp (set_idx tbl upd i f) Q k.
Proof. intros Hx HQ. unfold set_idx. wp_steps. rewrite Hx. by wp_step. Qed.
End wp_tables.

Lemma wp_next_of b (Q : option nat → kernel → Prop) k :
  (∀ i, b = Some i → is_Some (all_bufs k !! i)) → Q (nx_of k b) k → wp (next_of b) Q k.
Proof.
  intros Hb HQ. destruct b as [i|]; unfold next_of; [|by wp_step]. destruct (Hb i) as [x Hx]; [done|].
  wp_steps. eapply wp_at_idx; [exact Hx|]. wp_step. unfold nx_of in HQ. by rewrite Hx in HQ.
Qed.
Lemma wp_prev_of b (Q : option nat → kernel → Prop) k :
  (∀ i, b = Some i → is_Some (all_bufs k !! i)) → Q (pv_of k b) k → wp (prev_of b) Q k.
Proof.
  intros Hb HQ. destruct b as [i|]; unfold prev_of; [|by wp_step]. destruct (Hb i) as [x Hx]; [done|].
  wp_steps. eapply wp_at_idx; [exact Hx|]. wp_step. unfold pv_of in HQ. by rewrite Hx in HQ.
Qed.

(** The scans of [bget]: the first buffer that passes [test], following the links. *)
Lemma scan_wp (test : buf → bool) (nf : option nat → M kernel (option nat)) (nx : option nat → option nat)
    k l fuel b (Q : option nat → kernel → Prop) :
  (∀ i (Q : option nat → kernel → Prop), is_Some (all_bufs k !! i) → Q (nx (Some i)) k → wp (nf (Some i)) Q k) →
  nexts nx b l → (∀ a, a ∈ l → is_Some (all_bufs k !! a)) → (length l < fuel)%nat →
  (∀ l1 a x l2, l = l1 ++ a :: l2 → all_bufs k !! a = Some x → test x = true →
    (∀ c y, c ∈ l1 → all_bufs k !! c = Some y → test y = false) → Q (Some a) k) →
  ((∀ a x, a ∈ l → all_bufs k !! a = Some x → test x = false) → Q None k) →
  wp (loopM fuel (λ b, match b with
    | None => mret (inr None)
    | Some i => x ← the_buf i; if test x then mret (inr (Some i)) else n ← nf b; mret (inl n)
    end) b) Q k.
Proof.
  intros Hnf. revert fuel b Q. induction l as [|a l IH]; intros fuel b Q Hn Hb Hf Hs HN.
  - cbn in Hn. subst b. destruct fuel; [lia|]. cbn [loopM]. wp_steps. apply HN. set_solver.
  - destruct Hn as [-> Hn]. destruct fuel; [cbn in Hf; lia|]. cbn [loopM]. wp_steps.
    destruct (Hb a) as [x Hx]; [left|]. eapply wp_at_idx; [exact Hx|]. destruct (test x) eqn:Ht.
    + wp_steps. by eapply (Hs [] a x l); [..|set_solver].
    + wp_step. apply Hnf; [by eexists|]. wp_steps.
      apply IH; [done|set_solver|cbn in Hf; lia| |].
      * intros l1 c y l2 -> Hc Hy H1. eapply (Hs (a :: l1)); [done..|].
        intros e z [->|He]%elem_of_cons; [congruence|eauto].
      * intros H1. apply HN. intros c y [->|Hc]%elem_of_cons; [congruence|eauto].
Qed.

(** ** Moving a buffer to the front *)

(** A buffer without its links. *)
Definition core (x : buf) : buf := upd_b_prev (λ _, None) (upd_b_next (λ _, None) x).

(** Only links have changed. *)
Record links (k k' : kernel) : Prop := {
  links_rest : k' = upd_bcache (λ _, bcache k') k;
  links_core : ∀ i, core <$> all_bufs k' !! i = core <$> all_bufs k !! i;
}.
#[global] Instance links_refl : Reflexive links.
Proof. intros k. split; [by destruct k|done]. Qed.
#[global] Instance links_trans : Transitive links.
Proof.
  intros k1 k2 k3 [R1 C1] [R2 C2]. split; [|intros i; by rewrite C2].
  rewrite R2, R1. by destruct k1.
Qed.

Lemma links_is_Some k k' i : links k k' → is_Some (all_bufs k' !! i) ↔ is_Some (all_bufs k !! i).
Proof. intros [_ H]. rewrite <-(fmap_is_Some core), H. by rewrite fmap_is_Some. Qed.
Lemma links_lookup k k' i x :
  links k k' → all_bufs k !! i = Some x → ∃ y, all_bufs k' !! i = Some y ∧ core y = core x.
Proof.
  intros [_ H] Hx. specialize (H i). rewrite Hx in H.
  destruct (all_bufs k' !! i) as [y|]; [|done]. exists y. split; [done|]. exact (inj Some _ _ H).
Qed.
Lemma links_length k k' : links k k' → length (all_bufs k') = length (all_bufs k).
Proof.
  intros Hl. apply Nat.le_antisymm; apply Nat.nlt_ge; intros Hlt.
  - apply lookup_lt_is_Some_2 in Hlt. rewrite links_is_Some in Hlt by done.
    apply lookup_lt_is_Some in Hlt. lia.
  - apply lookup_lt_is_Some_2 in Hlt. rewrite <-links_is_Some in Hlt by done.
    apply lookup_lt_is_Some in Hlt. lia.
Qed.

Definition valid_ref (k : kernel) (b : option nat) : Prop := ∀ i, b = Some i → is_Some (all_bufs k !! i).
Lemma valid_ref_links k k' b : links k k' → valid_ref k b → valid_ref k' b.
Proof. intros Hl Hb i Hi. rewrite links_is_Some by done. by apply Hb. Qed.

Lemma links_set_buf k i x f :
  all_bufs k !! i = Some x → core (f x) = core x →
  links k (upd_all_bufs (λ _, <[i := f x]> (all_bufs k)) k).
Proof.
  intros Hx Hf. split; [by destruct k as [? ? ? ? ? ? ? []]|]. intros j.
  change (all_bufs (upd_all_bufs (λ _, <[i:=f x]> (all_bufs k)) k)) with (<[i:=f x]> (all_bufs k)).
  destruct (decide (i = j)) as [<-|Hij].
  - rewrite list_lookup_insert_eq by (by eapply lookup_lt_Some). rewrite Hx. cbn. by rewrite Hf.
  - by rewrite list_lookup_insert_ne.
Qed.

Lemma wp_set_next b v (Q : unit → kernel → Prop) k :
  valid_ref k b →
  (∀ k', links k k' → (∀ z, nx_of k' z = fupd (nx_of k) b v z) → (∀ z, pv_of k' z = pv_of k z) → Q tt k') →
  wp (set_next b v) Q k.
Proof.
  intros Hb HQ. destruct b as [i|]; unfold set_next.
  - destruct (Hb i) as [x Hx]; [done|]. eapply wp_set_idx; [exact Hx|].
    set (k' := upd_all_bufs _ k). assert (all_bufs k' = <[i := upd_b_next (λ _, v) x]> (all_bufs k)) as Hk by done.
    apply HQ; [by apply links_set_buf|..]; intros [j|]; unfold nx_of, pv_of; rewrite ?Hk.
    + destruct (decide (i = j)) as [<-|Hij].
      * rewrite fupd_eq, list_lookup_insert_eq by (by eapply lookup_lt_Some). done.
      * rewrite fupd_ne, list_lookup_insert_ne by congruence. done.
    + by rewrite fupd_ne.
    + destruct (decide (i = j)) as [<-|Hij].
      * rewrite list_lookup_insert_eq by (by eapply lookup_lt_Some). by rewrite Hx.
      * by rewrite list_lookup_insert_ne.
    + done.
  - apply wp_modify. apply HQ; [split; [by destruct k|done]|..]; intros [j|]; unfold nx_of, pv_of; cbn.
    + by rewrite fupd_ne.
    + by rewrite fupd_eq.
    + done.
    + done.
Qed.
Lemma wp_set_prev b v (Q : unit → kernel → Prop) k :
  valid_ref k b →
  (∀ k', links k k' → (∀ z, pv_of k' z = fupd (pv_of k) b v z) → (∀ z, nx_of k' z = nx_of k z) → Q tt k') →
  wp (set_prev b v) Q k.
Proof.
  intros Hb HQ. destruct b as [i|]; unfold set_prev.
  - destruct (Hb i) as [x Hx]; [done|]. eapply wp_set_idx; [exact Hx|].
    set (k' := upd_all_bufs _ k). assert (all_bufs k' = <[i := upd_b_prev (λ _, v) x]> (all_bufs k)) as Hk by done.
    apply HQ; [by apply links_set_buf|..]; intros [j|]; unfold nx_of, pv_of; rewrite ?Hk.
    + destruct (decide (i = j)) as [<-|Hij].
      * rewrite fupd_eq, list_lookup_insert_eq by (by eapply lookup_lt_Some). done.
      * rewrite fupd_ne, list_lookup_insert_ne by congruence. done.
    + by rewrite fupd_ne.
    + destruct (decide (i = j)) as [<-|Hij].
      * rewrite list_lookup_insert_eq by (by eapply lookup_lt_Some). by rewrite Hx.
      * by rewrite list_lookup_insert_ne.
    + done.
  - apply wp_modify. apply HQ; [split; [by destruct k|done]|..]; intros [j|]; unfold nx_of, pv_of; cbn.
    + by rewrite fupd_ne.
    + by rewrite fupd_eq.
    + done.
    + done.
Qed.

Lemma seg_funext nx pv nx' pv' from l to :
  (∀ z, nx' z = nx z) → (∀ z, pv' z = pv z) → seg nx pv from l to → seg nx' pv' from l to.
Proof. intros Hn Hp Hs. eapply seg_ext; [exact Hs|auto..]. Qed.

Lemma seg_valid k l : dll k l → valid_ref k (nx_of k None) ∧ ∀ b, b ∈ l → valid_ref k (nx_of k (Some b)) ∧ valid_ref k (pv_of k (Some b)).
Proof.
  intros Hd. pose proof (dll_seg _ _ Hd) as Hs.
  assert (∀ a, a ∈ l → is_Some (all_bufs k !! a)) as Hin by (intros a; by rewrite dll_elem).
  split.
  { destruct l as [|a l]; cbn [seg] in Hs.
    - destruct Hs as [-> _]. done.
    - destruct Hs as [-> _]. intros i [= <-]. apply Hin. left. }
  intros b (l1 & l2 & ->)%list_elem_of_split. apply seg_app in Hs as [H1 H2]. split.
  - destruct l2 as [|c l2]; cbn [seg] in H2; destruct H2 as [-> _]; [done|]. intros i [= <-]. apply Hin. set_solver.
  - destruct (decide (l1 = [])) as [->|Hl1]; [by destruct H1 as [_ ->]|].
    destruct (exists_last Hl1) as (l1' & z & ->). apply seg_app in H1 as [_ [_ ->]].
    intros i [= <-]. apply Hin. set_solver.
Qed.

Lemma seg_next_ne nx pv b l : seg nx pv (Some b) l None → b ∉ l → nx (Some b) ≠ Some b.
Proof. destruct l as [|c l]; cbn; [by intros [-> _]|]. intros [-> _] Hb [= ->]. set_solver. Qed.

Lemma unlink_wp k l1 b l2 (Q : unit → kernel → Prop) :
  dll k (l1 ++ b :: l2) →
  (∀ k', links k k' → seg (nx_of k') (pv_of k') None (l1 ++ l2) None → Q tt k') →
  wp (unlink b) Q k.
Proof.
  intros Hd HQ. pose proof (dll_nodup _ _ Hd) as Hnd. pose proof (dll_seg _ _ Hd) as Hs.
  assert (b ∈ l1 ++ b :: l2) as Hb by set_solver. assert (is_Some (all_bufs k !! b)) as Hx by (by rewrite <-dll_elem).
  destruct (seg_valid _ _ Hd) as [_ Hv]. destruct (Hv b Hb) as [Hvn Hvp].
  assert (nx_of k (Some b) ≠ Some b) as Hne.
  { apply seg_app in Hs as [_ Hs]. apply (seg_next_ne _ _ _ _ Hs). apply NoDup_app in Hnd as (_ & _ & Hnd).
    by apply NoDup_cons in Hnd as [??]. }
  unfold unlink. wp_step. apply wp_next_of; [by intros ? [= <-]|]. wp_step. apply wp_prev_of; [by intros ? [= <-]|].
  wp_step. apply wp_set_prev; [done|]. intros k1 L1 P1 N1.
  wp_step. apply wp_prev_of; [intros ? [= <-]; by rewrite links_is_Some|].
  wp_step. apply wp_next_of; [intros ? [= <-]; by rewrite links_is_Some|].
  rewrite N1, P1, fupd_ne by done.
  apply wp_set_next; [by eapply valid_ref_links|]. intros k2 L2 N2 P2. apply HQ; [by etrans|].
  eapply seg_funext; [| |eapply (seg_unlink (nx_of k) (pv_of k)); [exact Hs|done|]]; [intros z..|].
  - rewrite N2. unfold fupd. by rewrite N1.
  - rewrite P2, P1. done.
  - done.
Qed.

Lemma link_first_wp k b l (Q : unit → kernel → Prop) :
  seg (nx_of k) (pv_of k) None l None → NoDup (b :: l) → (∀ a, a ∈ b :: l → is_Some (all_bufs k !! a)) →
  (∀ k', links k k' → seg (nx_of k') (pv_of k') None (b :: l) None → Q tt k') →
  wp (link_first b) Q k.
Proof.
  intros Hs Hnd Hin HQ. unfold link_first.
  assert (valid_ref k (nx_of k None)) as Hv.
  { destruct l as [|a l]; cbn [seg] in Hs; destruct Hs as [-> _]; [done|]. intros i [= <-]. apply Hin. set_solver. }
  assert (valid_ref k (Some b)) as Hvb by (intros i [= <-]; apply Hin; left).
  wp_step. apply wp_next_of; [done|]. wp_step. apply wp_set_next; [done|]. intros k1 L1 N1 P1.
  wp_step. apply wp_set_prev; [by eapply valid_ref_links|]. intros k2 L2 P2 N2.
  wp_step. apply wp_next_of; [done|]. rewrite N2, N1, fupd_ne by done.
  wp_step. apply wp_set_prev; [by eapply valid_ref_links; [|eapply valid_ref_links]|]. intros k3 L3 P3 N3.
  apply wp_set_next; [done|]. intros k4 L4 N4 P4.
  apply HQ; [by etrans; [|etrans; [|etrans]]|].
  eapply seg_funext; [| |apply (seg_link (nx_of k) (pv_of k)); done]; intros z.
  - rewrite N4. unfold fupd. rewrite N3, N2, N1. done.
  - rewrite P4, P3. unfold fupd. rewrite P2. unfold fupd. by rewrite P1.
Qed.

(** Moving a buffer of the list to its front. *)
Lemma relink_wp k l1 b l2 (Q : unit → kernel → Prop) :
  dll k (l1 ++ b :: l2) →
  (∀ k', links k k' → dll k' (b :: l1 ++ l2) → Q tt k') →
  wp (unlink b ;; link_first b) Q k.
Proof.
  intros Hd HQ. wp_step. eapply unlink_wp; [done|]. intros k1 L1 S1.
  pose proof (dll_nodup _ _ Hd) as Hnd. rewrite <-Permutation_middle in Hnd.
  eapply link_first_wp; [exact S1|done| |].
  - intros a Ha. rewrite links_is_Some by done. apply (dll_elem _ _ _ Hd). by rewrite <-Permutation_middle.
  - intros k2 L2 S2. apply HQ; [by etrans|]. assert (links k k2) as L by by etrans. split; [done| |].
    + rewrite <-(dll_perm _ _ Hd). by rewrite Permutation_middle.
    + rewrite (links_length k) by done. apply Hd.
Qed.
