(* ===== verification/Cache.v ===== *)
(** * The buffer cache and the disk hold one value per block

    [cache k pin held V]: the buffers and the disk of [k] together represent the
    block contents [V]; [pin] are the blocks whose buffers the log has pinned
    and [held] the buffers the running process has locked, by block.  Each
    operation of [Bio] is specified by what it does to [pin], [held], [V] and
    the disk. *)

From S2P Require Import Prelude Riscv Memory Kalloc State Sched Bio BioSpec.

(** ** Buffers *)

Section cinv.
Context (pid : Z).

Definition refs (i : nat) (x : buf) (pin : gset Z) (held : gmap Z nat) : Z :=
  if decide (b_dev x = ROOTDEV) then
    (if decide (b_blockno x ∈ pin) then 1 else 0) + (if decide (held !! b_blockno x = Some i) then 1 else 0)
  else 0.

Record cinv (bs : list buf) (D : disk) (pin : gset Z) (held : gmap Z nat) (V : Z → list Z) : Prop := {
  ci_dev : ∀ i x, bs !! i = Some x →
    b_dev x = ROOTDEV ∧ b_valid x = true ∨ b_dev x = 0 ∧ b_valid x = false;
  ci_uniq : ∀ i j x y, bs !! i = Some x → bs !! j = Some y →
    b_dev x = ROOTDEV → b_dev y = ROOTDEV → b_blockno x = b_blockno y → i = j;
  ci_ref : ∀ i x, bs !! i = Some x → b_refcnt x = refs i x pin held;
  ci_pin : ∀ bno, bno ∈ pin → ∃ i x, bs !! i = Some x ∧ b_dev x = ROOTDEV ∧ b_blockno x = bno;
  ci_held : ∀ bno i, held !! bno = Some i → ∃ x, bs !! i = Some x ∧
    b_dev x = ROOTDEV ∧ b_blockno x = bno ∧ b_lock x = Sleeplock true pid;
  ci_lock : ∀ i x, bs !! i = Some x → (∀ bno, held !! bno ≠ Some i) → sl_locked (b_lock x) = false;
  ci_data : ∀ i x, bs !! i = Some x → b_dev x = ROOTDEV → b_data x = V (b_blockno x);
  ci_disk : ∀ bno, bno ∉ pin → held !! bno = None → V bno = disk_block D bno;
  ci_size : ∀ bno, length (V bno) = Z.to_nat BSIZE;
}.

Context (bs : list buf) (D : disk) (pin : gset Z) (held : gmap Z nat) (V : Z → list Z).
Hypothesis C : cinv bs D pin held V.

(** One buffer replaced. *)
Lemma lookup_upd b (y : buf) i x :
  <[b := y]> bs !! i = Some x → (b < length bs)%nat → i = b ∧ x = y ∨ i ≠ b ∧ bs !! i = Some x.
Proof using. intros [(-> & -> & _)|[? ?]]%list_lookup_insert_Some; auto. Qed.

Lemma cinv_dev_valid i x : bs !! i = Some x → b_dev x = ROOTDEV → b_valid x = true.
Proof using All. intros Hx Hd. destruct (ci_dev _ _ _ _ _ C i x Hx) as [[_ ?]|[H0 _]]; [done|]. by rewrite H0 in Hd. Qed.

Lemma held_index i j x bno :
  bs !! i = Some x → b_dev x = ROOTDEV → held !! b_blockno x = Some j → held !! bno = Some i →
  bno = b_blockno x ∧ i = j.
Proof using All.
  intros Hx Hd Hj Hi. destruct (ci_held _ _ _ _ _ C _ _ Hi) as (x' & Hx' & _ & Hb & _).
  assert (x' = x) as -> by congruence. split; [done|]. congruence.
Qed.

(** Some buffer is free when fewer blocks than buffers are in use. *)
Lemma free_buf : (size pin + size held < length bs)%nat → ∃ i x, bs !! i = Some x ∧ b_refcnt x = 0.
Proof using All.
  intros Hlt. destruct (decide (Exists (λ x, b_refcnt x = 0) bs)) as [(x & Hx & H0)%Exists_exists|Hn].
  { apply list_elem_of_lookup in Hx as [i Hi]. eauto. }
  exfalso. rewrite <-Forall_Exists_neg, Forall_lookup in Hn.
  assert (∀ i x, bs !! i = Some x → b_dev x = ROOTDEV ∧ b_blockno x ∈ pin ∪ dom held) as Hin.
  { intros i x Hx. specialize (Hn i x Hx). cbn in Hn. rewrite (ci_ref _ _ _ _ _ C i x Hx) in Hn.
    unfold refs in Hn. repeat case_decide; try done; (split; [done|]); [set_solver..|].
    apply elem_of_union_r, elem_of_dom. by eexists. }
  assert (NoDup (b_blockno <$> bs)) as Hnd.
  { apply NoDup_alt. intros i j b Hi Hj. apply list_lookup_fmap_Some in Hi as (x & -> & Hi).
    apply list_lookup_fmap_Some in Hj as (y & Hxy & Hj).
    eapply (ci_uniq _ _ _ _ _ C i j); [done|done|by eapply Hin|by eapply Hin|done]. }
  assert (size (list_to_set (b_blockno <$> bs) : gset Z) ≤ size (pin ∪ dom held))%nat as Hsz.
  { apply subseteq_size. intros b. rewrite elem_of_list_to_set, list_elem_of_fmap. intros (x & -> & Hx).
    apply list_elem_of_lookup in Hx as [i Hi]. by eapply Hin. }
  rewrite size_list_to_set, length_fmap in Hsz by done.
  assert (size (pin ∪ dom held) ≤ size pin + size (dom held))%nat as Hu.
  { rewrite size_union_alt.
    assert (size (dom held ∖ pin) ≤ size (dom held))%nat by (apply subseteq_size; set_solver). lia. }
  rewrite size_dom in Hu. lia.
Qed.

(** The buffer [b] is replaced by [y], which holds block [bno]: it held that
    block before or was free. *)
Lemma cinv_replace b x y bno D' pin' held' V' :
  bs !! b = Some x →
  (b_dev x = ROOTDEV ∧ b_blockno x = bno ∨
   b_refcnt x = 0 ∧ ∀ i z, bs !! i = Some z → b_dev z = ROOTDEV → b_blockno z ≠ bno) →
  b_dev y = ROOTDEV → b_valid y = true → b_blockno y = bno → b_data y = V' bno →
  b_refcnt y = refs b y pin' held' →
  (held' !! bno = None ∧ sl_locked (b_lock y) = false ∨
   held' !! bno = Some b ∧ b_lock y = Sleeplock true pid) →
  (bno ∉ pin' → held' !! bno = None → V' bno = disk_block D' bno) →
  length (V' bno) = Z.to_nat BSIZE →
  (∀ n, n ≠ bno → (n ∈ pin' ↔ n ∈ pin) ∧ held' !! n = held !! n ∧ V' n = V n ∧
    disk_block D' n = disk_block D n) →
  cinv (<[b := y]> bs) D' pin' held' V'.
Proof using All.
  intros Hx Hold Hdev Hval Hbno Hdata Href Hheld Hdisk Hlen Hoff.
  assert (b < length bs)%nat as Hb by (by eapply lookup_lt_Some).
  assert (∀ i z, i ≠ b → bs !! i = Some z → b_dev z = ROOTDEV → b_blockno z ≠ bno) as Hother.
  { intros i z Hi Hz Hd Heq. destruct Hold as [[Hdx Hbx]|[_ Hno]]; [|by eapply Hno].
    apply Hi. eapply (ci_uniq _ _ _ _ _ C i b); eauto; congruence. }
  assert (∀ n, n ≠ bno → b_dev x = ROOTDEV → b_blockno x = n → n ∉ pin ∧ held !! n ≠ Some b) as Hfree.
  { intros n Hn Hdx Hbx. destruct Hold as [[_ ?]|[H0 _]]; [congruence|].
    rewrite (ci_ref _ _ _ _ _ C b x Hx) in H0. unfold refs in H0. rewrite decide_True, Hbx in H0 by done.
    repeat case_decide; done. }
  assert (∀ i, <[b := y]> bs !! i = if decide (i = b) then Some y else bs !! i) as Hl.
  { intros i. case_decide; [subst; by apply list_lookup_insert_eq|by apply list_lookup_insert_ne]. }
  split.
  - intros i z. rewrite Hl. case_decide; [intros [= <-]; auto|apply C].
  - intros i j z w. rewrite !Hl. repeat case_decide; subst; intros Hz Hw Hdz Hdw Hzw; simplify_eq; try done.
    + by destruct (Hother _ _ H0 Hw Hdw).
    + by destruct (Hother _ _ H Hz Hdz).
    + by eapply (ci_uniq _ _ _ _ _ C).
  - intros i z. rewrite Hl. case_decide; [intros [= <-]; by subst|]. intros Hz.
    rewrite (ci_ref _ _ _ _ _ C i z Hz). unfold refs. case_decide as Hd; [|done].
    destruct (Hoff (b_blockno z)) as (Hp & -> & _); [by eapply Hother|].
    f_equal. by apply decide_ext.
  - intros n Hn. destruct (decide (n = bno)) as [->|Hne].
    { exists b, y. rewrite Hl, decide_True by done. done. }
    destruct (Hoff n Hne) as (Hp & _). destruct (ci_pin _ _ _ _ _ C n) as (i & z & Hz & Hd & Hbz); [by apply Hp|].
    exists i, z. rewrite Hl, decide_False; [done|]. intros ->. assert (z = x) as -> by congruence.
    destruct (Hfree n); [done..|]. apply H, Hp, Hn.
  - intros n i Hn. destruct (decide (n = bno)) as [->|Hne].
    { destruct Hheld as [[? _]|[Hh Hk]]; [congruence|]. assert (i = b) as -> by congruence.
      exists y. rewrite Hl, decide_True by done. done. }
    destruct (Hoff n Hne) as (_ & Hh & _). rewrite Hh in Hn.
    destruct (ci_held _ _ _ _ _ C n i Hn) as (z & Hz & Hd & Hbz & Hk).
    exists z. rewrite Hl, decide_False; [done|]. intros ->. assert (z = x) as -> by congruence.
    by destruct (Hfree n).
  - intros i z. rewrite Hl. case_decide as Hi.
    + intros [= <-] Hn. subst i. destruct Hheld as [[_ ?]|[Hh _]]; [done|]. by destruct (Hn bno).
    + intros Hz Hn. apply (ci_lock _ _ _ _ _ C i z Hz). intros n Hni.
      destruct (decide (n = bno)) as [->|Hne].
      * destruct (ci_held _ _ _ _ _ C _ _ Hni) as (w & Hw & Hd & Hbw & _). by eapply (Hother i w).
      * destruct (Hoff n Hne) as (_ & Hh & _). apply (Hn n). by rewrite Hh.
  - intros i z. rewrite Hl. case_decide as Hi; [intros [= <-]; by rewrite Hbno|].
    intros Hz Hd. destruct (Hoff (b_blockno z)) as (_ & _ & -> & _); [by eapply Hother|]. by apply (ci_data _ _ _ _ _ C i).
  - intros n. destruct (decide (n = bno)) as [->|Hne]; [done|].
    destruct (Hoff n Hne) as (Hp & Hh & -> & ->). rewrite Hp, Hh. apply C.
  - intros n. destruct (decide (n = bno)) as [->|Hne]; [done|]. destruct (Hoff n Hne) as (_ & _ & -> & _). apply C.
Qed.
End cinv.

(** ** What the operations leave alone *)

(** [q] is [p], perhaps woken up. *)
Definition woken (p q : proc) : Prop :=
  q = p ∨ p_state p = SLEEPING ∧ q = upd_p_state (λ _, RUNNABLE) p.

(** Only the cache, the disk and the states of sleeping processes change. *)
Record bframe (k k' : kernel) : Prop := {
  bf_rest : k' = upd_procs (λ _, procs k') (upd_bcache (λ _, bcache k') (upd_kdisk (λ _, kdisk k') k));
  bf_procs : Forall2 woken (procs k) (procs k');
}.
#[global] Instance woken_refl : Reflexive woken.
Proof. by left. Qed.
#[global] Instance woken_trans : Transitive woken.
Proof. intros p q r [->|[Hs ->]] [->|[Hs' ->]]; [by left|by right|by right|by cbn in Hs']. Qed.
#[global] Instance bframe_refl : Reflexive bframe.
Proof. intros k. split; [by destruct k|done]. Qed.
#[global] Instance bframe_trans : Transitive bframe.
Proof.
  intros k1 k2 k3 [R1 P1] [R2 P2]. split; [|by etrans]. rewrite R2, R1. by destruct k1.
Qed.

Lemma bframe_klog k k' : bframe k k' → klog k' = klog k.
Proof. by intros [-> _]. Qed.
Lemma bframe_sb k k' : bframe k k' → sb k' = sb k.
Proof. by intros [-> _]. Qed.
Lemma bframe_itable k k' : bframe k k' → itable k' = itable k.
Proof. by intros [-> _]. Qed.
Lemma bframe_mach k k' : bframe k k' → mach k' = mach k.
Proof. by intros [-> _]. Qed.
Lemma bframe_links k k' : links k k' → bframe k k'.
Proof.
  intros [R _]. split; [rewrite R; by destruct k|]. rewrite R. done.
Qed.
Lemma bframe_bufs k l : bframe k (upd_all_bufs (λ _, l) k).
Proof. split; [by destruct k|done]. Qed.
Lemma bframe_me k k' i p : bframe k k' → procs k !! i = Some p → ∃ q, procs k' !! i = Some q ∧ woken p q.
Proof. intros [_ H] Hp. by eapply Forall2_lookup_l. Qed.
Lemma woken_pid p q : woken p q → p_pid q = p_pid p.
Proof. by intros [->|[_ ->]]. Qed.

Definition setb (b : nat) (y : buf) (k : kernel) : kernel := upd_all_bufs (λ _, <[b := y]> (all_bufs k)) k.

(** ** The invariant *)

Section cache.
Context `{SleepFuel} (me : nat) (pid : Z).

Record cache (k : kernel) (pin : gset Z) (held : gmap Z nat) (V : Z → list Z) : Prop := {
  ca_dll : ∃ l, dll k l;
  ca_inv : cinv pid (all_bufs k) (kdisk k) pin held V;
  ca_me : ∃ p, procs k !! me = Some p ∧ p_pid p = pid;
}.

(** A buffer changed in place. *)
Lemma wp_set_buf k b x f (Q : unit → kernel → Prop) :
  all_bufs k !! b = Some x → Q tt (setb b (f x) k) → wp (set_buf b f) Q k.
Proof. apply wp_set_idx. Qed.
Lemma lookup_setb k b x y : all_bufs k !! b = Some x → all_bufs (setb b y k) !! b = Some y.
Proof. intros Hx. apply list_lookup_insert_eq. by eapply lookup_lt_Some. Qed.
Lemma setb_setb k b x y : setb b y (setb b x k) = setb b y k.
Proof. unfold setb, upd_all_bufs, upd_bcache, upd_bufs. cbn. by rewrite list_insert_insert_eq. Qed.

Lemma dll_bcache k k' l : bcache k' = bcache k → dll k l → dll k' l.
Proof. intros E [Hs Hp Hl]. unfold nx_of, pv_of, all_bufs in *. split; unfold nx_of, pv_of, all_bufs; by rewrite ?E. Qed.
Lemma dll_set k b x y l :
  all_bufs k !! b = Some x → b_next y = b_next x → b_prev y = b_prev x → dll k l →
  dll (setb b y k) l.
Proof.
  intros Hx Hn Hp [Hs Hl Hlen]. set (k' := setb b y k).
  assert (all_bufs k' = <[b := y]> (all_bufs k)) as Hk by done.
  split; [|done|by rewrite Hk, length_insert].
  eapply seg_funext; [| |exact Hs]; intros [i|]; unfold nx_of, pv_of; rewrite ?Hk; try done.
  - destruct (decide (b = i)) as [<-|Hne]; [|by rewrite list_lookup_insert_ne].
    rewrite list_lookup_insert_eq, Hx by (by eapply lookup_lt_Some). cbn. by rewrite Hn.
  - destruct (decide (b = i)) as [<-|Hne]; [|by rewrite list_lookup_insert_ne].
    rewrite list_lookup_insert_eq, Hx by (by eapply lookup_lt_Some). cbn. by rewrite Hp.
Qed.

Lemma cinv_links k k' D pin held V :
  links k k' → cinv pid (all_bufs k) D pin held V → cinv pid (all_bufs k') D pin held V.
Proof.
  intros [_ Hc] C.
  assert (∀ i x, all_bufs k' !! i = Some x → ∃ y, all_bufs k !! i = Some y ∧ core x = core y) as Hl.
  { intros i x Hx. specialize (Hc i). rewrite Hx in Hc. destruct (all_bufs k !! i) as [y|]; [|done].
    exists y. split; [done|]. exact (inj Some _ _ Hc). }
  assert (∀ i x, all_bufs k !! i = Some x → ∃ y, all_bufs k' !! i = Some y ∧ core x = core y) as Hr.
  { intros i x Hx. specialize (Hc i). rewrite Hx in Hc. destruct (all_bufs k' !! i) as [y|]; [|done].
    exists y. split; [done|]. symmetry. exact (inj Some _ _ Hc). }
  assert (∀ x y, core x = core y → b_dev x = b_dev y ∧ b_valid x = b_valid y ∧ b_blockno x = b_blockno y ∧
    b_refcnt x = b_refcnt y ∧ b_lock x = b_lock y ∧ b_data x = b_data y) as Hco.
  { intros [] []. unfold core, upd_b_prev, upd_b_next. cbn. intros E. injection E. intros. by subst. }
  destruct C as [C1 C2 C3 C4 C5 C6 C7 C8 C9]. split; [| | | | | | |done|done].
  - intros i x Hx. destruct (Hl i x Hx) as (y & Hy & (-> & -> & _)%Hco). eauto.
  - intros i j x y Hx Hy. destruct (Hl i x Hx) as (x' & Hx' & (-> & _ & -> & _)%Hco).
    destruct (Hl j y Hy) as (y' & Hy' & (-> & _ & -> & _)%Hco). eauto.
  - intros i x Hx. destruct (Hl i x Hx) as (y & Hy & (E1 & _ & E2 & -> & _)%Hco). unfold refs. rewrite E1, E2. by apply C3.
  - intros n Hn. destruct (C4 n Hn) as (i & x & Hx & E1 & E2). destruct (Hr i x Hx) as (y & Hy & (F1 & _ & F2 & _)%Hco).
    exists i, y. split_and!; congruence.
  - intros n i Hn. destruct (C5 n i Hn) as (x & Hx & E1 & E2 & E3).
    destruct (Hr i x Hx) as (y & Hy & (F1 & _ & F2 & _ & F3 & _)%Hco). exists y. split_and!; congruence.
  - intros i x Hx. destruct (Hl i x Hx) as (y & Hy & (_ & _ & _ & _ & -> & _)%Hco). eauto.
  - intros i x Hx. destruct (Hl i x Hx) as (y & Hy & (-> & _ & -> & _ & _ & ->)%Hco). eauto.
Qed.

Lemma cache_held k pin held V bno b :
  cache k pin held V → held !! bno = Some b →
  ∃ x, all_bufs k !! b = Some x ∧ b_dev x = ROOTDEV ∧ b_blockno x = bno ∧ b_data x = V bno ∧
       b_lock x = Sleeplock true pid ∧ b_refcnt x = refs b x pin held ∧ b_valid x = true.
Proof.
  intros [_ C _] Hh. destruct (ci_held _ _ _ _ _ _ C _ _ Hh) as (x & Hx & Hd & Hb & Hk).
  exists x. split_and!; [done..|by rewrite <-Hb; apply (ci_data _ _ _ _ _ _ C b)|done|by apply C|].
  by eapply cinv_dev_valid.
Qed.

(** ** Locks *)

Lemma acquiresleep_wp k b x p (Q : unit → kernel → Prop) :
  all_bufs k !! b = Some x → sl_locked (b_lock x) = false → procs k !! me = Some p →
  Q tt (setb b (upd_b_lock (λ _, Sleeplock true (p_pid p)) x) k) →
  wp (acquiresleep me (BufLock b)) Q k.
Proof.
  intros Hx Hl Hp HQ. unfold acquiresleep. wp_step. cbn [loopM]. wp_steps. unfold get_lock. wp_step.
  eapply wp_at_idx; [exact Hx|]. wp_step. rewrite Hl. wp_steps. eapply wp_at_idx; [exact Hp|].
  unfold set_lock. eapply wp_set_idx; [exact Hx|]. exact HQ.
Qed.

Lemma wakeup_wp k ch (Q : unit → kernel → Prop) :
  (∀ ps, Forall2 woken (procs k) ps → Q tt (upd_procs (λ _, ps) k)) →
  wp (wakeup (Some me) ch) Q k.
Proof.
  intros HQ. unfold wakeup. apply wp_modify.
  specialize (HQ (imap (λ i p, if decide (Some me = Some i) then p else wake ch p) (procs k))).
  replace (upd_procs _ k) with (upd_procs (λ _, imap (λ i p, if decide (Some me = Some i) then p else wake ch p) (procs k)) k)
    by (by destruct k).
  apply HQ. clear HQ. apply Forall2_same_length_lookup_2; [by rewrite length_imap|].
  intros i p q Hp. rewrite list_lookup_imap, Hp. intros [= <-]. case_decide; [done|].
  unfold wake. case_decide as Hs; [|done]. right. by destruct Hs.
Qed.

(** ** The scans of [bget] *)

Lemma bget_cached_wp k l dev bno (Q : option nat → kernel → Prop) :
  dll k l →
  (∀ b x, all_bufs k !! b = Some x → b_dev x = dev → b_blockno x = bno → Q (Some b) k) →
  ((∀ i x, all_bufs k !! i = Some x → b_dev x = dev → b_blockno x ≠ bno) → Q None k) →
  wp (bget_cached dev bno) Q k.
Proof.
  intros Hd Hhit Hmiss. unfold bget_cached. wp_step. apply wp_next_of; [done|].
  apply (scan_wp (λ x, (b_dev x =? dev) && (b_blockno x =? bno)) next_of (nx_of k) k l).
  - intros i Q' Hi. apply wp_next_of. by intros ? [= <-].
  - eapply seg_nexts, Hd.
  - intros a. by rewrite dll_elem.
  - rewrite (dll_perm _ _ Hd), length_seq. lia.
  - intros l1 a x l2 _ Hx Ht _. bsimpl. eauto.
  - intros Hno. apply Hmiss. intros i x Hx Hdev Hb. assert (i ∈ l) as Hi by (rewrite dll_elem; eauto).
    specialize (Hno i x Hi Hx). rewrite Hdev, Hb, !Z.eqb_refl in Hno. done.
Qed.

Lemma bget_unused_wp k l (Q : option nat → kernel → Prop) :
  dll k l → (∃ i x, all_bufs k !! i = Some x ∧ b_refcnt x = 0) →
  (∀ l1 b x l2, l = l1 ++ b :: l2 → all_bufs k !! b = Some x → b_refcnt x = 0 →
    (∀ c y, c ∈ l2 → all_bufs k !! c = Some y → b_refcnt y ≠ 0) → Q (Some b) k) →
  wp bget_unused Q k.
Proof.
  intros Hd (i & x & Hx & H0) Hhit. unfold bget_unused. wp_step. apply wp_prev_of; [done|].
  apply (scan_wp (λ x, b_refcnt x =? 0) prev_of (pv_of k) k (reverse l)).
  - intros j Q' Hj. apply wp_prev_of. by intros ? [= <-].
  - eapply seg_prevs, Hd.
  - intros a. rewrite elem_of_reverse. by rewrite dll_elem.
  - rewrite length_reverse, (dll_perm _ _ Hd), length_seq. lia.
  - intros l1 a y l2 Hl Hy Ht Hn. bsimpl. apply (Hhit (reverse l2) a y (reverse l1)); [|done..|].
    + rewrite <-(reverse_involutive l), Hl, reverse_app, reverse_cons, <-app_assoc. done.
    + intros c z Hc Hz. rewrite elem_of_reverse in Hc. specialize (Hn c z Hc Hz). bsimpl. done.
  - intros Hno. exfalso. assert (i ∈ reverse l) as Hi by (rewrite elem_of_reverse, dll_elem; eauto).
    specialize (Hno i x Hi Hx). by rewrite H0 in Hno.
Qed.

(** ** Reading a block *)

Lemma refs_bound i x pin held : 0 ≤ refs i x pin held ≤ 2.
Proof. unfold refs. repeat case_decide; lia. Qed.

(** A buffer in place replaced by one with the same links. *)
Lemma cache_set k b x y bno pin held V pin' held' V' :
  cache k pin held V → all_bufs k !! b = Some x → b_next y = b_next x → b_prev y = b_prev x →
  (b_dev x = ROOTDEV ∧ b_blockno x = bno ∨
   b_refcnt x = 0 ∧ ∀ i z, all_bufs k !! i = Some z → b_dev z = ROOTDEV → b_blockno z ≠ bno) →
  b_dev y = ROOTDEV → b_valid y = true → b_blockno y = bno → b_data y = V' bno →
  b_refcnt y = refs b y pin' held' →
  (held' !! bno = None ∧ sl_locked (b_lock y) = false ∨
   held' !! bno = Some b ∧ b_lock y = Sleeplock true pid) →
  (bno ∉ pin' → held' !! bno = None → V' bno = disk_block (kdisk k) bno) →
  length (V' bno) = Z.to_nat BSIZE →
  (∀ n, n ≠ bno → (n ∈ pin' ↔ n ∈ pin) ∧ held' !! n = held !! n ∧ V' n = V n) →
  cache (setb b y k) pin' held' V'.
Proof.
  intros [[l Hl] C Hme] Hx Hn Hp H1 H2 H3 H4 H5 H6 H7 H8 H9 Hoff. split; [exists l; by eapply dll_set| |done].
  eapply cinv_replace; eauto. intros n Hne. destruct (Hoff n Hne) as (?&?&?). done.
Qed.

Lemma unheld_unlocked k pin held V b x :
  cache k pin held V → all_bufs k !! b = Some x →
  (b_dev x = ROOTDEV → held !! b_blockno x = None) → sl_locked (b_lock x) = false.
Proof.
  intros [_ C _] Hx Hn. apply (ci_lock _ _ _ _ _ _ C b x Hx). intros n Hh.
  destruct (ci_held _ _ _ _ _ _ C _ _ Hh) as (x' & Hx' & Hd & Hb & _).
  assert (x' = x) as -> by congruence. rewrite <-Hb, Hn in Hh; done.
Qed.

(** A free buffer is not locked. *)
Lemma free_unlocked k pin held V b x :
  cache k pin held V → all_bufs k !! b = Some x → b_refcnt x = 0 → sl_locked (b_lock x) = false.
Proof.
  intros [_ C _] Hx H0. apply (ci_lock _ _ _ _ _ _ C b x Hx). intros n Hh.
  destruct (ci_held _ _ _ _ _ _ C _ _ Hh) as (x' & Hx' & Hd & Hb & _). assert (x' = x) as -> by congruence.
  rewrite (ci_ref _ _ _ _ _ _ C b x Hx) in H0. unfold refs in H0.
  rewrite Hb, (decide_True (P := b_dev x = ROOTDEV)), (decide_True (P := held !! n = Some b)) in H0 by done.
  case_decide; done.
Qed.

Lemma bget_wp k pin held V bno (Q : nat → kernel → Prop) :
  cache k pin held V → held !! bno = None → (bno ∈ pin ∨ (size pin + size held < Z.to_nat NBUF)%nat) →
  (∀ b x, all_bufs k !! b = Some x → b_dev x = ROOTDEV → b_blockno x = bno →
    Q b (setb b (upd_b_lock (λ _, Sleeplock true pid) (upd_b_refcnt (λ n, u32 (n + 1)) x)) k)) →
  (∀ b x, all_bufs k !! b = Some x → b_refcnt x = 0 →
    (∀ i z, all_bufs k !! i = Some z → b_dev z = ROOTDEV → b_blockno z ≠ bno) →
    Q b (setb b (upd_b_lock (λ _, Sleeplock true pid) (upd_b_refcnt (λ _, 1) (upd_b_valid (λ _, false)
            (upd_b_blockno (λ _, bno) (upd_b_dev (λ _, ROOTDEV) x))))) k)) →
  wp (bget me ROOTDEV bno) Q k.
Proof.
  intros Hc Hnh Hsz Hhit Hmiss. pose proof Hc as [[l Hl] C (p & Hp & Hpid)].
  unfold bget. wp_step. eapply bget_cached_wp; [exact Hl|..].
  - intros b x Hx Hd Hb. wp_step. eapply wp_set_buf; [exact Hx|].
    wp_step. eapply acquiresleep_wp; [by eapply lookup_setb| |exact Hp|].
    { change (sl_locked (b_lock x) = false). eapply unheld_unlocked; [done|exact Hx|]. by rewrite Hb. }
    rewrite setb_setb, Hpid. wp_step. by apply Hhit.
  - intros Hno. wp_step. eapply bget_unused_wp; [exact Hl| |].
    { destruct Hsz as [Hpin|Hsz].
      - destruct (ci_pin _ _ _ _ _ _ C _ Hpin) as (i & z & Hz & Hd & Hbz). by destruct (Hno i z).
      - eapply free_buf; [exact C|]. rewrite (dll_len _ _ Hl). lia. }
    intros l1 b x l2 _ Hx H0 _. wp_step. eapply wp_set_buf; [exact Hx|].
    wp_step. eapply acquiresleep_wp; [by eapply lookup_setb| |exact Hp|].
    { change (sl_locked (b_lock x) = false). by eapply (free_unlocked k). }
    rewrite setb_setb, Hpid. wp_step. by apply Hmiss.
Qed.

Lemma bread_wp k pin held V bno (Q : nat → kernel → Prop) :
  cache k pin held V → held !! bno = None → (bno ∈ pin ∨ (size pin + size held < Z.to_nat NBUF)%nat) →
  (∀ b k', bframe k k' → kdisk k' = kdisk k → cache k' pin (<[bno := b]> held) V → Q b k') →
  wp (bread me ROOTDEV bno) Q k.
Proof.
  intros Hc Hnh Hsz HQ. pose proof Hc as [_ C _]. unfold bread. wp_step. eapply bget_wp; [done..| |].
  - intros b x Hx Hd Hb. wp_step. eapply wp_at_idx; [by eapply lookup_setb|]. cbn [b_valid upd_b_lock upd_b_refcnt].
    rewrite (cinv_dev_valid pid _ _ _ _ _ C b x Hx Hd). wp_steps. apply HQ; [apply bframe_bufs|done|].
    eapply (cache_set k b x _ bno); eauto.
    + by eapply (cinv_dev_valid pid _ _ _ _ _ C b x).
    + cbn. rewrite <-Hb. by apply (ci_data _ _ _ _ _ _ C b).
    + cbn. rewrite (ci_ref _ _ _ _ _ _ C b x Hx). unfold refs. cbn.
      rewrite !(decide_True (P := b_dev x = ROOTDEV)) by done. rewrite Hb, Hnh, lookup_insert_eq.
      rewrite (decide_False (P := None = Some b)), (decide_True (P := Some b = Some b)) by done. case_decide; done.
    + right. split; [apply lookup_insert_eq|done].
    + rewrite lookup_insert_eq. done.
    + apply C.
    + intros n Hn. by rewrite lookup_insert_ne.
  - intros b x Hx H0 Hno. wp_step. eapply wp_at_idx; [by eapply lookup_setb|]. cbn [b_valid upd_b_lock upd_b_refcnt upd_b_valid].
    wp_step. unfold disk_rw. wp_step. wp_step. eapply wp_at_idx; [by eapply lookup_setb|]. wp_steps.
    eapply wp_set_buf; [by eapply lookup_setb|]. eapply wp_set_buf; [eapply lookup_setb, lookup_setb, Hx|].
    rewrite !setb_setb. wp_step. apply HQ; [apply bframe_bufs|done|].
    assert (bno ∉ pin) as Hnp. { intros Hp. destruct (ci_pin _ _ _ _ _ _ C _ Hp) as (i & z & Hz & Hd & Hbz). by eapply Hno. }
    eapply (cache_set k b x _ bno); eauto.
    + cbn. symmetry. by apply (ci_disk _ _ _ _ _ _ C).
    + cbn. unfold refs. cbn. rewrite (decide_False (P := bno ∈ pin)) by done. rewrite lookup_insert_eq.
      by rewrite (decide_True (P := Some b = Some b)).
    + right. split; [apply lookup_insert_eq|done].
    + rewrite lookup_insert_eq. done.
    + apply C.
    + intros n Hn. by rewrite lookup_insert_ne.
Qed.

(** ** Operations on a held buffer *)

Lemma the_held_wp k pin held V bno b (Q : buf → kernel → Prop) :
  cache k pin held V → held !! bno = Some b →
  (∀ x, b_dev x = ROOTDEV → b_blockno x = bno → b_data x = V bno → Q x k) → wp (the_buf b) Q k.
Proof.
  intros Hc Hh HQ. destruct (cache_held _ _ _ _ _ _ Hc Hh) as (x & Hx & ? & ? & ? & _).
  eapply wp_at_idx; [exact Hx|]. auto.
Qed.

Lemma held_uniq k pin held V bno b n i :
  cache k pin held V → held !! bno = Some b → held !! n = Some i → n ≠ bno → i ≠ b.
Proof.
  intros Hc Hb Hi Hne ->. destruct (cache_held _ _ _ _ _ _ Hc Hb) as (x & Hx & _ & Ex & _).
  destruct (cache_held _ _ _ _ _ _ Hc Hi) as (y & Hy & _ & Ey & _). congruence.
Qed.

Lemma set_data_wp k pin held V bno b f (Q : unit → kernel → Prop) :
  cache k pin held V → held !! bno = Some b → length (f (V bno)) = Z.to_nat BSIZE →
  (∀ k', bframe k k' → kdisk k' = kdisk k → cache k' pin held (<[bno := f (V bno)]> V) → Q tt k') →
  wp (set_buf b (upd_b_data f)) Q k.
Proof.
  intros Hc Hh Hlen HQ. destruct (cache_held _ _ _ _ _ _ Hc Hh) as (x & Hx & Hd & Hb & Hdat & Hlk & Href & Hv).
  eapply wp_set_buf; [exact Hx|]. apply HQ; [apply bframe_bufs|done|].
  eapply (cache_set k b x _ bno); eauto; rewrite ?fn_lookup_insert; auto.
  - cbn. by rewrite Hdat.
  - congruence.
  - intros n Hn. by rewrite fn_lookup_insert_ne by done.
Qed.

Lemma bpin_wp k pin held V bno b (Q : unit → kernel → Prop) :
  cache k pin held V → held !! bno = Some b → bno ∉ pin →
  (∀ k', bframe k k' → kdisk k' = kdisk k → cache k' ({[bno]} ∪ pin) held V → Q tt k') →
  wp (bpin b) Q k.
Proof.
  intros Hc Hh Hp HQ. destruct (cache_held _ _ _ _ _ _ Hc Hh) as (x & Hx & Hd & Hb & Hdat & Hlk & Href & Hv).
  eapply wp_set_buf; [exact Hx|]. apply HQ; [apply bframe_bufs|done|].
  eapply (cache_set k b x _ bno); eauto.
  - cbn. rewrite Href. unfold refs. cbn. rewrite !(decide_True (P := b_dev x = ROOTDEV)), Hb by done.
    rewrite (decide_False (P := bno ∈ pin)), (decide_True (P := bno ∈ _)) by set_solver. by rewrite decide_True.
  - congruence.
  - apply (ci_size _ _ _ _ _ _ (ca_inv _ _ _ _ Hc)).
  - intros n Hn. split_and!; [set_solver|done..].
Qed.

Lemma bunpin_wp k pin held V bno b (Q : unit → kernel → Prop) :
  cache k pin held V → held !! bno = Some b → bno ∈ pin →
  (∀ k', bframe k k' → kdisk k' = kdisk k → cache k' (pin ∖ {[bno]}) held V → Q tt k') →
  wp (bunpin b) Q k.
Proof.
  intros Hc Hh Hp HQ. destruct (cache_held _ _ _ _ _ _ Hc Hh) as (x & Hx & Hd & Hb & Hdat & Hlk & Href & Hv).
  eapply wp_set_buf; [exact Hx|]. apply HQ; [apply bframe_bufs|done|].
  eapply (cache_set k b x _ bno); eauto.
  - cbn. rewrite Href. unfold refs. cbn. rewrite !(decide_True (P := b_dev x = ROOTDEV)), Hb by done.
    rewrite (decide_True (P := bno ∈ pin)), (decide_False (P := bno ∈ _)) by set_solver. by rewrite decide_True.
  - congruence.
  - apply (ci_size _ _ _ _ _ _ (ca_inv _ _ _ _ Hc)).
  - intros n Hn. split_and!; [set_solver|done..].
Qed.

Lemma holdingsleep_wp k pin held V bno b (Q : bool → kernel → Prop) :
  cache k pin held V → held !! bno = Some b → Q true k → wp (holdingsleep me (BufLock b)) Q k.
Proof.
  intros Hc Hh HQ. destruct (cache_held _ _ _ _ _ _ Hc Hh) as (x & Hx & _ & _ & _ & Hlk & _).
  destruct Hc as [_ _ (p & Hp & Hpid)]. unfold holdingsleep, get_lock. wp_step. wp_step.
  eapply wp_at_idx; [exact Hx|]. wp_steps. eapply wp_at_idx; [exact Hp|]. wp_step.
  rewrite Hlk, Hpid. cbn. by rewrite Z.eqb_refl.
Qed.

Lemma bwrite_wp k pin held V bno b (Q : unit → kernel → Prop) :
  cache k pin held V → held !! bno = Some b →
  (∀ k', bframe k k' → kdisk k' = disk_write bno (V bno) (kdisk k) → cache k' pin held V → Q tt k') →
  wp (bwrite me b) Q k.
Proof.
  intros Hc Hh HQ. unfold bwrite. wp_step. eapply holdingsleep_wp; [done..|]. cbn [negb].
  unfold disk_rw. wp_step. eapply the_held_wp; [done..|]. intros x Hd Hb Hdat. wp_steps. rewrite Hb, Hdat.
  apply HQ; [split; [by destruct k|done]|by destruct k|].
  destruct Hc as [Hl C Hme]. destruct Hl as [l Hl]. split; [exists l; by apply (dll_bcache k)| |exact Hme].
  destruct C. split; try done.
  intros n Hn Hnh. unfold disk_block, disk_write. cbn. rewrite lookup_insert_ne; [by apply ci_disk0|]. congruence.
Qed.

(** [brelse] before it moves the buffer. *)
Lemma release_wp k pin held V bno b (Q : unit → kernel → Prop) :
  cache k pin held V → held !! bno = Some b → (bno ∈ pin ∨ V bno = disk_block (kdisk k) bno) →
  (∀ k', bframe k k' → kdisk k' = kdisk k → cache k' pin (delete bno held) V → Q tt k') →
  wp (releasesleep me (BufLock b) ;; set_buf b (upd_b_refcnt (λ n, u32 (n - 1)))) Q k.
Proof.
  intros Hc Hh Hcl HQ. destruct (cache_held _ _ _ _ _ _ Hc Hh) as (x & Hx & Hd & Hb & Hdat & Hlk & Href & Hv).
  unfold releasesleep, get_lock, set_lock. wp_steps. eapply wp_at_idx; [exact Hx|]. wp_steps.
  eapply wp_set_buf; [exact Hx|]. apply wakeup_wp. intros ps Hps.
  set (k1 := upd_procs _ _). assert (all_bufs k1 !! b = Some (upd_b_lock (λ _, Sleeplock false 0) x)) as Hx1
    by by eapply lookup_setb.
  eapply wp_set_buf; [exact Hx1|]. set (y := upd_b_refcnt _ _).
  assert (setb b y k1 = upd_procs (λ _, ps) (setb b y k)) as ->.
  { unfold k1, setb, upd_all_bufs, upd_bcache, upd_bufs, upd_procs. cbn. by rewrite list_insert_insert_eq. }
  apply HQ; [|done|].
  { split; [by destruct k|]. exact Hps. }
  assert (cache (setb b y k) pin (delete bno held) V) as [Hl' C' _].
  { eapply (cache_set k b x y bno); eauto.
    - cbn. rewrite Href. unfold refs. cbn. rewrite !(decide_True (P := b_dev x = ROOTDEV)), Hb by done.
      rewrite (decide_True (P := held !! bno = Some b)), lookup_delete_eq by done.
      rewrite (decide_False (P := None = Some b)) by done. case_decide; done.
    - left. split; [apply lookup_delete_eq|done].
    - intros Hnp _. by destruct Hcl.
    - apply (ci_size _ _ _ _ _ _ (ca_inv _ _ _ _ Hc)).
    - intros n Hn. by rewrite lookup_delete_ne. }
  destruct Hl' as [l' Hl']. split; [exists l'; by apply (dll_bcache (setb b y k))|exact C'|]. destruct Hc as [_ _ (p & Hp & Hpid)]. cbn.
  destruct (Forall2_lookup_l _ _ _ _ _ Hps Hp) as (q & Hq & Hw). exists q. split; [done|]. by rewrite (woken_pid p).
Qed.

Lemma brelse_wp k pin held V bno b (Q : unit → kernel → Prop) :
  cache k pin held V → held !! bno = Some b → (bno ∈ pin ∨ V bno = disk_block (kdisk k) bno) →
  (∀ k', bframe k k' → kdisk k' = kdisk k → cache k' pin (delete bno held) V → Q tt k') →
  wp (brelse me b) Q k.
Proof.
  intros Hc Hh Hcl HQ. unfold brelse. wp_step. eapply holdingsleep_wp; [done..|]. cbn [negb].
  assert (∀ (m1 m2 : M kernel unit) (f : unit → M kernel unit) Q k, wp ((m1 ;; m2) ≫= f) Q k → wp (m1 ;; (m2 ≫= f)) Q k) as Hassoc.
  { intros m1 m2 f Q' k' Hw. apply wp_bind_inv, wp_bind_inv in Hw. apply wp_bind. eapply wp_mono; [exact Hw|].
    intros [] s' Hs. by apply wp_bind. }
  apply Hassoc. wp_step. eapply release_wp; [done..|]. intros k1 F1 D1 C1.
  pose proof C1 as [[l Hl] Ci _]. destruct (cache_held _ _ _ _ _ _ Hc Hh) as (x0 & Hx0 & _).
  assert (is_Some (all_bufs k1 !! b)) as [x Hx].
  { apply lookup_lt_is_Some. rewrite (dll_len _ _ Hl). destruct Hc as [[l0 Hl0] _ _].
    rewrite <-(dll_len _ _ Hl0). by eapply lookup_lt_Some. }
  wp_step. eapply wp_at_idx; [exact Hx|]. case_if Hr; [|wp_step; by apply HQ].
  assert (b ∈ l) as Hbl by (rewrite dll_elem; eauto). apply list_elem_of_split in Hbl as (l1 & l2 & ->).
  eapply relink_wp; [exact Hl|]. intros k2 L2 Hl2.
  assert (kdisk k2 = kdisk k1) as Hd2 by (by rewrite (links_rest _ _ L2)).
  apply HQ; [etrans; [exact F1|by apply bframe_links]|congruence|].
  split; [by eexists|rewrite Hd2; by eapply cinv_links|]. destruct C1 as [_ _ (p & Hp & Hpid)].
  rewrite (links_rest _ _ L2). eauto.
Qed.
End cache.

(** ** binit *)

Section binit.
(** A buffer that [binit] may find: no block, no reference. *)
Definition fresh_buf (x : buf) : Prop := b_dev x = 0 ∧ b_valid x = false ∧ b_refcnt x = 0.

Definition init_buf (b : nat) : M kernel unit :=
  n ← next_of None;
  set_next (Some b) n ;;
  set_prev (Some b) None ;;
  set_lock (BufLock b) (Sleeplock false 0) ;;
  n ← next_of None;
  set_prev n (Some b) ;;
  set_next None (Some b).

(** [done]: the buffers linked so far. *)
Record linked (k0 k : kernel) (done : list nat) : Prop := {
  li_rest : k = upd_bcache (λ _, bcache k) k0;
  li_seg : seg (nx_of k) (pv_of k) None (reverse done) None;
  li_len : length (all_bufs k) = Z.to_nat NBUF;
  li_fresh : ∀ i x, all_bufs k !! i = Some x → fresh_buf x;
  li_lock : ∀ i x, all_bufs k !! i = Some x → i ∈ done → sl_locked (b_lock x) = false;
}.

Lemma core_fields x y : core x = core y →
  b_dev x = b_dev y ∧ b_valid x = b_valid y ∧ b_refcnt x = b_refcnt y ∧ b_lock x = b_lock y.
Proof. destruct x, y. unfold core, upd_b_prev, upd_b_next. cbn. intros E. injection E. intros. by subst. Qed.

Lemma links_inv k k' i y : links k k' → all_bufs k' !! i = Some y → ∃ x, all_bufs k !! i = Some x ∧ core y = core x.
Proof.
  intros [_ Hc] Hy. specialize (Hc i). rewrite Hy in Hc. destruct (all_bufs k !! i) as [x|]; [|done].
  exists x. split; [done|]. exact (inj Some _ _ Hc).
Qed.

Lemma links_setb k b x f :
  all_bufs k !! b = Some x → (∀ z, nx_of (setb b (upd_b_lock f x) k) z = nx_of k z) ∧
    (∀ z, pv_of (setb b (upd_b_lock f x) k) z = pv_of k z).
Proof.
  intros Hx. assert (all_bufs (setb b (upd_b_lock f x) k) = <[b := upd_b_lock f x]> (all_bufs k)) as Hk by done.
  split; intros [i|]; unfold nx_of, pv_of; rewrite ?Hk; try done;
    (destruct (decide (b = i)) as [<-|Hne]; [|by rewrite list_lookup_insert_ne];
     by rewrite list_lookup_insert_eq, Hx by (by eapply lookup_lt_Some)).
Qed.

Lemma init_buf_wp k0 k done b (Q : unit → kernel → Prop) :
  linked k0 k done → NoDup (b :: done) → (∀ a, a ∈ b :: done → is_Some (all_bufs k !! a)) →
  (∀ k', linked k0 k' (done ++ [b]) → Q tt k') → wp (init_buf b) Q k.
Proof.
  intros [Hrest Hs Hlen Hfr Hlk] Hnd Hin HQ. unfold init_buf.
  assert (valid_ref k (nx_of k None)) as Hv.
  { destruct (reverse done) as [|a l] eqn:El; cbn [seg] in Hs; destruct Hs as [-> _]; [intros ? [=]|].
    intros i [= <-]. apply Hin. right. rewrite <-elem_of_reverse, El. left. }
  assert (valid_ref k (Some b)) as Hvb by (intros i [= <-]; apply Hin; left).
  wp_step. apply wp_next_of; [done|]. wp_step. apply wp_set_next; [done|]. intros k1 L1 N1 P1.
  wp_step. apply wp_set_prev; [by eapply valid_ref_links|]. intros k2 L2 P2 N2. assert (links k k2) as L by by etrans.
  destruct (Hin b) as [x0 Hx0]; [left|]. destruct (links_lookup _ _ _ _ L Hx0) as (x & Hx & _).
  wp_step. unfold set_lock. eapply wp_set_buf; [exact Hx|]. set (k3 := setb b _ k2).
  destruct (links_setb k2 b x (λ _, Sleeplock false 0) Hx) as [N3 P3]. fold k3 in N3, P3.
  assert (∀ r, valid_ref k r → valid_ref k3 r) as Hv3.
  { intros r Hr i Hi. change (all_bufs k3) with (<[b := upd_b_lock (λ _, Sleeplock false 0) x]> (all_bufs k2)).
    apply lookup_lt_is_Some. rewrite length_insert. apply lookup_lt_is_Some. by apply (valid_ref_links _ _ _ L Hr). }
  wp_step. apply wp_next_of; [done|]. rewrite N3, N2, N1, fupd_ne by done.
  wp_step. apply wp_set_prev; [by apply Hv3|]. intros k4 L4 P4 N4.
  apply wp_set_next; [done|]. intros k5 L5 N5 P5. apply HQ. assert (links k3 k5) as L35 by by etrans.
  split.
  - rewrite (links_rest _ _ L35). unfold k3, setb, upd_all_bufs. rewrite (links_rest _ _ L), Hrest. by destruct k0.
  - rewrite reverse_snoc. eapply seg_funext; [| |apply (seg_link (nx_of k) (pv_of k)); [exact Hs|]].
    + intros z. rewrite N5. unfold fupd. by rewrite N4, N3, N2, N1.
    + intros z. rewrite P5, P4. unfold fupd. rewrite P3, P2. unfold fupd. by rewrite P1.
    + by rewrite reverse_Permutation.
  - rewrite (links_length _ _ L35). change (all_bufs k3) with (<[b := upd_b_lock (λ _, Sleeplock false 0) x]> (all_bufs k2)).
    rewrite length_insert, (links_length _ _ L). done.
  - intros i y Hy. destruct (links_inv _ _ _ _ L35 Hy) as (y3 & Hy3 & (E1 & E2 & E3 & _)%core_fields).
    unfold fresh_buf. rewrite E1, E2, E3. apply list_lookup_insert_Some in Hy3 as [(<- & <- & _)|[_ Hy3]];
      [change (fresh_buf x)|change (fresh_buf y3)];
      [destruct (links_inv _ _ _ _ L Hx) as (z & Hz & (F1 & F2 & F3 & _)%core_fields)
      |destruct (links_inv _ _ _ _ L Hy3) as (z & Hz & (F1 & F2 & F3 & _)%core_fields)];
      unfold fresh_buf; rewrite F1, F2, F3; by eapply Hfr.
  - intros i y Hy Hi. destruct (links_inv _ _ _ _ L35 Hy) as (y3 & Hy3 & (_ & _ & _ & ->)%core_fields).
    apply list_lookup_insert_Some in Hy3 as [(<- & <- & _)|[Hne Hy3]]; [done|].
    destruct (links_inv _ _ _ _ L Hy3) as (z & Hz & (_ & _ & _ & ->)%core_fields). eapply Hlk; [done|]. set_solver.
Qed.

Lemma binit_loop_wp k0 todo : ∀ k done (Q : unit → kernel → Prop),
  linked k0 k done → done ++ todo = seq 0 (Z.to_nat NBUF) →
  (∀ k', linked k0 k' (done ++ todo) → Q tt k') → wp (forM todo init_buf) Q k.
Proof.
  induction todo as [|b todo IH]; intros k done Q Hl Hd HQ; cbn [forM].
  - apply wp_ret. apply HQ. by rewrite app_nil_r.
  - assert (NoDup (done ++ b :: todo)) as Hnd by (rewrite Hd; apply NoDup_seq).
    wp_step. eapply init_buf_wp; [exact Hl| | |].
    + rewrite <-Permutation_middle in Hnd. apply NoDup_cons in Hnd as [Hb Hnd]. apply NoDup_app in Hnd as [Hnd _].
      constructor; [set_solver|done].
    + intros a Ha. apply lookup_lt_is_Some. rewrite (li_len _ _ _ Hl). assert (a ∈ done ++ b :: todo) as Hin by set_solver.
      rewrite Hd, elem_of_seq in Hin. lia.
    + intros k' Hl'. eapply IH; [exact Hl'|by rewrite <-app_assoc|by rewrite <-app_assoc].
Qed.

(** [binit] on zeroed buffers makes an empty cache of the disk. *)
Lemma binit_wp me pid k p (Q : unit → kernel → Prop) :
  length (all_bufs k) = Z.to_nat NBUF → Forall fresh_buf (all_bufs k) →
  (∀ n, length (disk_block (kdisk k) n) = Z.to_nat BSIZE) → procs k !! me = Some p → p_pid p = pid →
  (∀ k', k' = upd_bcache (λ _, bcache k') k → cache me pid k' ∅ ∅ (disk_block (kdisk k)) → Q tt k') →
  wp binit Q k.
Proof.
  intros Hlen Hfr Hsz Hp Hpid HQ. rewrite Forall_lookup in Hfr. unfold binit. wp_step.
  apply wp_set_prev; [done|]. intros k1 L1 P1 N1. wp_step. apply wp_set_next; [done|]. intros k2 L2 N2 P2.
  assert (links k k2) as L by by etrans. apply (binit_loop_wp k _ k2 []).
  - split; [apply L| |by rewrite (links_length _ _ L)| |set_solver].
    + cbn [reverse rev_append seg]. by rewrite N2, P2, P1, !fupd_eq.
    + intros i x Hx. destruct (links_inv _ _ _ _ L Hx) as (y & Hy & (F1 & F2 & F3 & _)%core_fields).
      unfold fresh_buf. rewrite F1, F2, F3. by eapply Hfr.
  - done.
  - cbn [app]. intros k' [Hrest Hs Hl Hf Hlk]. apply HQ; [done|]. split.
    + exists (reverse (seq 0 (Z.to_nat NBUF))). split; [done|by rewrite reverse_Permutation|done].
    + assert (kdisk k' = kdisk k) as -> by (by rewrite Hrest). split; try done.
      * intros i x Hx. right. by destruct (Hf i x Hx) as (? & ? & ?).
      * intros i j x y Hx _ Hd _ _. destruct (Hf i x Hx) as (H0 & _). by rewrite H0 in Hd.
      * intros i x Hx. destruct (Hf i x Hx) as (H0 & _ & ->). unfold refs. by rewrite decide_False; [|rewrite H0].
      * intros i x Hx _. eapply Hlk; [done|]. apply elem_of_seq. apply lookup_lt_Some in Hx. lia.
      * intros i x Hx Hd. destruct (Hf i x Hx) as (H0 & _). by rewrite H0 in Hd.
    + exists p. split; [|done]. by rewrite Hrest.
Qed.
End binit.
