(* ===== verification/Log.v ===== *)
(** * The log

    [kernel/log.c]: transactions of block writes. *)

From S2P Require Import Prelude Riscv Memory Kalloc State Bytes Sched Bio.

Section log.
Context `{SleepFuel} (me : nat).

Definition the_log : M kernel logst := gets klog.
Definition set_log (f : logst → logst) : M kernel unit := modify (upd_klog f).

(** Entry [i] of [log.lh.block]. *)
Definition lh_entry (i : Z) : M kernel Z :=
  g ← the_log;
  match lh_block g !! Z.to_nat i with Some b => mret b | None => fault "log.lh.block" end.

(** [to->data := from->data]. *)
Definition copy_data (to from : nat) : M kernel unit :=
  x ← the_buf from; set_buf to (upd_b_data (λ _, b_data x)).

Definition install_trans (recovering : bool) : M kernel unit :=
  g ← the_log;
  forM (seqZ 0 (lh_n g)) (λ tail,
    lbuf ← bread me (log_dev g) (u32 (log_start g + tail + 1));
    home ← lh_entry tail;
    dbuf ← bread me (log_dev g) (u32 home);
    copy_data dbuf lbuf ;;
    bwrite me dbuf ;;
    (if recovering then mret tt else bunpin dbuf) ;;
    brelse me lbuf ;;
    brelse me dbuf).

Definition read_head : M kernel unit :=
  g ← the_log;
  b ← bread me (log_dev g) (u32 (log_start g));
  x ← the_buf b;
  let n := s32 (get32 0 (b_data x)) in
  set_log (upd_lh_n (λ _, n)) ;;
  forM (seqZ 0 n) (λ i,
    if i <? LOGSIZE then
      set_log (upd_lh_block (λ l, <[Z.to_nat i := s32 (get32 (4 + 4 * i) (b_data x))]> l))
    else fault "log.lh.block") ;;
  brelse me b.

Definition write_head : M kernel unit :=
  g ← the_log;
  b ← bread me (log_dev g) (u32 (log_start g));
  set_buf b (upd_b_data (put32 0 (lh_n g))) ;;
  forM (seqZ 0 (lh_n g)) (λ i,
    e ← lh_entry i;
    set_buf b (upd_b_data (put32 (4 + 4 * i) e))) ;;
  bwrite me b ;;
  brelse me b.

Definition recover_from_log : M kernel unit :=
  read_head ;;
  install_trans true ;;
  set_log (upd_lh_n (λ _, 0)) ;;
  write_head.

(** [sizeof(struct logheader)] is 4 + 4 * LOGSIZE. *)
Definition initlog (dev : Z) (sb : superblock) : M kernel unit :=
  if BSIZE <=? 4 + 4 * LOGSIZE then panic "initlog: too big logheader"
  else
    set_log (λ g, upd_log_dev (λ _, dev) (upd_log_size (λ _, s32 (nlog sb))
      (upd_log_start (λ _, s32 (logstart sb)) g))) ;;
    recover_from_log.

Definition begin_op : M kernel unit :=
  loopM (S sleep_fuel) (λ _,
    g ← the_log;
    if committing g then sleep me ChLog ;; mret (inl tt)
    else if LOGSIZE <? lh_n g + (outstanding g + 1) * MAXOPBLOCKS then sleep me ChLog ;; mret (inl tt)
    else set_log (upd_outstanding (λ n, n + 1)) ;; mret (inr tt)) tt.

Definition write_log : M kernel unit :=
  g ← the_log;
  forM (seqZ 0 (lh_n g)) (λ tail,
    to ← bread me (log_dev g) (u32 (log_start g + tail + 1));
    home ← lh_entry tail;
    from ← bread me (log_dev g) (u32 home);
    copy_data to from ;;
    bwrite me to ;;
    brelse me from ;;
    brelse me to).

Definition commit : M kernel unit :=
  g ← the_log;
  if 0 <? lh_n g then
    write_log ;;
    write_head ;;
    install_trans false ;;
    set_log (upd_lh_n (λ _, 0)) ;;
    write_head
  else mret tt.

Definition end_op : M kernel unit :=
  set_log (upd_outstanding (λ n, n - 1)) ;;
  g ← the_log;
  if committing g then panic "log.committing"
  else if outstanding g =? 0 then
    set_log (upd_committing (λ _, true)) ;;
    commit ;;
    set_log (upd_committing (λ _, false)) ;;
    wakeup (Some me) ChLog
  else wakeup (Some me) ChLog.

(** The first [i] below [n] with [block[i] = blockno], or [n]. *)
Definition log_find (blocks : list Z) (n blockno : Z) : Z :=
  match list_find (λ b, u32 b = blockno) (take (Z.to_nat n) blocks) with
  | Some (i, _) => Z.of_nat i
  | None => n
  end.

Definition log_write (b : nat) : M kernel unit :=
  g ← the_log;
  if (LOGSIZE <=? lh_n g) || (log_size g - 1 <=? lh_n g) then panic "too big a transaction"
  else if outstanding g <? 1 then panic "log_write outside of trans"
  else
    x ← the_buf b;
    let i := log_find (lh_block g) (lh_n g) (b_blockno x) in
    set_log (upd_lh_block (λ l, <[Z.to_nat i := s32 (b_blockno x)]> l)) ;;
    if i =? lh_n g then bpin b ;; set_log (upd_lh_n (λ n, n + 1)) else mret tt.
End log.
