(* ===== verification/LogSpec.v ===== *)
(** * Committing a transaction

    [write_log], [write_head], [install_trans] and [commit] against the contents
    of the cache and the writes that reach the disk. *)

From S2P Require Import Prelude Riscv Memory Kalloc State Bytes Sched Bio BioSpec Cache Log.

(** The sizes as numbers, for [lia]. *)
Ltac fs_consts :=
  change (Z.to_nat NBUF) with 30%nat in *; change (Z.to_nat BSIZE) with 1024%nat in *;
  change (Z.to_nat LOGSIZE) with 30%nat in *; change BSIZE with 1024 in *; change LOGSIZE with 30 in *;
  change NBUF with 30 in *.

(** The header block for the home blocks [hs]. *)
Definition header (hs : list Z) (d : list Z) : list Z := put_words 4 hs (put32 0 (Z.of_nat (length hs)) d).

Definition write_all (ws : list (Z * list Z)) (D : disk) : disk :=
  foldl (λ D w, disk_write w.1 w.2 D) D ws.

(** Copying the home blocks [hs] to the blocks from [a] on, and back: the contents
    afterwards and the writes, in order. *)
Fixpoint log_V (a : Z) (hs : list Z) (V : Z → list Z) : Z → list Z :=
  match hs with [] => V | h :: hs => log_V (a + 1) hs (<[a := V h]> V) end.
Fixpoint log_W (a : Z) (hs : list Z) (V : Z → list Z) : list (Z * list Z) :=
  match hs with [] => [] | h :: hs => (a, V h) :: log_W (a + 1) hs (<[a := V h]> V) end.
Fixpoint inst_V (a : Z) (hs : list Z) (V : Z → list Z) : Z → list Z :=
  match hs with [] => V | h :: hs => inst_V (a + 1) hs (<[h := V a]> V) end.
Fixpoint inst_W (a : Z) (hs : list Z) (V : Z → list Z) : list (Z * list Z) :=
  match hs with [] => [] | h :: hs => (h, V a) :: inst_W (a + 1) hs (<[h := V a]> V) end.

Section logspec.
Context `{SleepFuel} (me : nat) (pid : Z) (ls : Z).

(** The home blocks of a transaction: distinct blocks outside the log area. *)
Record log_wf (hs : list Z) : Prop := {
  lw_start : 0 ≤ ls ∧ ls + LOGSIZE < 2 ^ 31;
  lw_len : (length hs < Z.to_nat NBUF)%nat;
  lw_home : ∀ h, h ∈ hs → 0 ≤ h < 2 ^ 31 ∧ (h < ls ∨ ls + LOGSIZE ≤ h);
  lw_nodup : NoDup hs;
}.
Record log_rep (g : logst) (hs : list Z) : Prop := {
  lr_start : log_start g = ls;
  lr_dev : log_dev g = ROOTDEV;
  lr_n : lh_n g = Z.of_nat (length hs);
  lr_block : take (length hs) (lh_block g) = hs;
  lr_len : length (lh_block g) = Z.to_nat LOGSIZE;
}.

Lemma cache_ext k pin held V V' :
  (∀ n, V n = V' n) → cache me pid k pin held V → cache me pid k pin held V'.
Proof.
  intros E [Hl [] Hm]. split; [done| |done]. split; try done; intros; rewrite <-?E; eauto.
Qed.

Lemma lh_entry_wp k hs1 h hs2 (Q : Z → kernel → Prop) :
  log_rep (klog k) (hs1 ++ h :: hs2) → Q h k → wp (lh_entry (Z.of_nat (length hs1))) Q k.
Proof.
  intros Hr HQ. unfold lh_entry, the_log. wp_steps. rewrite Nat2Z.id.
  assert (lh_block (klog k) !! length hs1 = Some h) as ->; [|by wp_step].
  rewrite <-(take_drop (length (hs1 ++ h :: hs2)) (lh_block (klog k))), (lr_block _ _ Hr).
  rewrite lookup_app_l by (rewrite length_app; cbn; lia). rewrite lookup_app_r, Nat.sub_diag by lia. done.
Qed.

Lemma log_rep_frame k k' hs : bframe k k' → log_rep (klog k) hs → log_rep (klog k') hs.
Proof. intros F. by rewrite (bframe_klog _ _ F). Qed.

Lemma seqZ_step i n : 0 < n → seqZ i n = i :: seqZ (i + 1) (n - 1).
Proof. intros. by rewrite seqZ_cons by lia. Qed.

(** ** The header *)

Lemma head_loop_wp hs2 : ∀ hs1 k pin b V (Q : unit → kernel → Prop),
  log_wf (hs1 ++ hs2) → log_rep (klog k) (hs1 ++ hs2) → cache me pid k pin {[ls := b]} V →
  (∀ k', bframe k k' → kdisk k' = kdisk k →
    cache me pid k' pin {[ls := b]} (<[ls := put_words (4 + 4 * Z.of_nat (length hs1)) hs2 (V ls)]> V) → Q tt k') →
  wp (forM (seqZ (Z.of_nat (length hs1)) (Z.of_nat (length hs2)))
        (λ i, e ← lh_entry i; set_buf b (upd_b_data (put32 (4 + 4 * i) e)))) Q k.
Proof.
  induction hs2 as [|h hs2 IH]; intros hs1 k pin b V Q Hw Hr Hc HQ.
  - cbn [length put_words]. rewrite seqZ_nil by lia. apply wp_ret. apply HQ; [done..|].
    eapply cache_ext; [|exact Hc]. intros n. destruct (decide (n = ls)) as [->|Hn];
      [by rewrite fn_lookup_insert|by rewrite fn_lookup_insert_ne].
  - rewrite seqZ_step by (cbn; lia). cbn [forM]. wp_steps. eapply lh_entry_wp; [done|].
    pose proof (ci_size _ _ _ _ _ _ (ca_inv _ _ _ _ _ _ Hc) ls) as Hsz.
    pose proof (lw_len _ Hw) as Hlen. rewrite length_app in Hlen. cbn [length] in Hlen.
        eapply set_data_wp; [exact Hc|apply lookup_singleton_eq|fs_consts; rewrite length_put32; lia|].
    intros k1 F1 D1 C1.
    replace (Z.of_nat (length hs1) + 1) with (Z.of_nat (length (hs1 ++ [h]))) by (rewrite length_app; cbn; lia).
    replace (Z.of_nat (length (h :: hs2)) - 1) with (Z.of_nat (length hs2)) by (cbn; lia).
    eapply IH; [by rewrite <-app_assoc|rewrite <-app_assoc; by eapply log_rep_frame|exact C1|].
    intros k2 F2 D2 C2. apply HQ; [by etrans|congruence|]. eapply cache_ext; [|exact C2]. intros n.
    destruct (decide (n = ls)) as [->|Hn]; [|by rewrite !fn_lookup_insert_ne].
    rewrite !fn_lookup_insert. cbn [put_words]. rewrite length_app. cbn [length].
    f_equal. lia.
Qed.

Lemma length_header hs d :
  (length hs < Z.to_nat NBUF)%nat → length d = Z.to_nat BSIZE → length (header hs d) = Z.to_nat BSIZE.
Proof.
  fs_consts. intros Hl Hd. unfold header.
  rewrite length_put_words; rewrite ?length_put32; lia.
Qed.

Lemma write_head_wp k hs pin V (Q : unit → kernel → Prop) :
  log_wf hs → log_rep (klog k) hs → cache me pid k pin ∅ V → (size pin < Z.to_nat NBUF)%nat → ls ∉ pin →
  (∀ k', bframe k k' → kdisk k' = disk_write ls (header hs (V ls)) (kdisk k) →
    cache me pid k' pin ∅ (<[ls := header hs (V ls)]> V) → Q tt k') →
  wp (write_head me) Q k.
Proof.
  intros Hw Hr Hc Hsz Hnp HQ. unfold write_head, the_log. wp_steps.
  rewrite (lr_n _ _ Hr), (lr_dev _ _ Hr), (lr_start _ _ Hr), u32_id by (pose proof (lw_start _ Hw); fs_consts; lia).
  eapply bread_wp; [exact Hc|done|right; rewrite map_size_empty; lia|]. intros b k1 F1 D1 C1. wp_steps.
  pose proof (ci_size _ _ _ _ _ _ (ca_inv _ _ _ _ _ _ Hc) ls) as Hlen.
  eapply set_data_wp; [exact C1|apply lookup_insert_eq|..].
  { fs_consts. rewrite length_put32; lia. }
  intros k2 F2 D2 C2. wp_step. rewrite insert_empty in C2.
  apply (head_loop_wp hs [] k2 pin b (<[ls := put32 0 (Z.of_nat (length hs)) (V ls)]> V)); [done|
    eapply log_rep_frame; [|exact Hr]; by etrans|exact C2|].
  cbn [length]. intros k3 F3 D3 C3. rewrite fn_lookup_insert in C3.
  change (put_words (4 + 4 * Z.of_nat 0) hs _) with (header hs (V ls)) in C3.
  wp_step. eapply bwrite_wp; [exact C3|apply lookup_singleton_eq|]. rewrite fn_lookup_insert. intros k4 F4 D4 C4.
  eapply brelse_wp; [exact C4|apply lookup_singleton_eq| |].
  { right. rewrite fn_lookup_insert, D4. unfold disk_block. cbn. by rewrite lookup_insert_eq. }
  intros k5 F5 D5 C5. apply HQ; [by repeat (etrans; [eassumption|])|congruence|].
  rewrite delete_singleton_eq in C5. eapply cache_ext; [|exact C5]. intros n.
  destruct (decide (n = ls)) as [->|Hn]; [by rewrite !fn_lookup_insert|by rewrite !fn_lookup_insert_ne].
Qed.

(** ** Copying between the log and the home blocks *)

Lemma copy_data_wp k pin held V to from t f (Q : unit → kernel → Prop) :
  cache me pid k pin held V → held !! t = Some to → held !! f = Some from →
  (∀ k', bframe k k' → kdisk k' = kdisk k → cache me pid k' pin held (<[t := V f]> V) → Q tt k') →
  wp (copy_data to from) Q k.
Proof.
  intros Hc Ht Hf HQ. unfold copy_data. wp_step. eapply the_held_wp; [exact Hc|exact Hf|].
  intros x _ _ Hx. rewrite Hx. eapply (set_data_wp _ _ _ _ _ _ _ _ (λ _, V f)); [exact Hc|exact Ht| |done].
  apply (ci_size _ _ _ _ _ _ (ca_inv _ _ _ _ _ _ Hc)).
Qed.

(** Two different blocks read. *)
Lemma bread2_wp k pin V a h {A} (m : nat → nat → M kernel A) (Q : A → kernel → Prop) (e : M kernel Z) :
  cache me pid k pin ∅ V → (size pin < Z.to_nat NBUF)%nat → a ≠ h → 0 ≤ h < 2 ^ 32 →
  (h ∈ pin ∨ size pin + 1 < Z.to_nat NBUF)%nat →
  (∀ k' (R : Z → kernel → Prop), bframe k k' → R h k' → wp e R k') →
  (∀ b1 b2 k', bframe k k' → kdisk k' = kdisk k → cache me pid k' pin (<[h := b2]> {[a := b1]}) V → wp (m b1 b2) Q k') →
  wp (b1 ← bread me ROOTDEV a; x ← e; b2 ← bread me ROOTDEV (u32 x); m b1 b2) Q k.
Proof.
  intros Hc Hsz Hah Hh Hfit He HQ. wp_step.
  eapply bread_wp; [exact Hc|done|right; rewrite map_size_empty; lia|]. intros b1 k1 F1 D1 C1.
  wp_step. apply He; [done|]. wp_step. rewrite u32_id by lia. rewrite insert_empty in C1.
  eapply bread_wp; [exact C1|by rewrite lookup_singleton_ne|rewrite map_size_singleton; destruct Hfit; [by left|right; lia]|].
  intros b2 k2 F2 D2 C2. apply HQ; [by etrans|congruence|done].
Qed.

(** Both released, [f] unchanged and [t] just written. *)
Lemma brelse2_wp k pin V a b x y (Q : unit → kernel → Prop) :
  a ≠ b → cache me pid k pin (<[a := x]> {[b := y]}) V →
  (a ∈ pin ∨ V a = disk_block (kdisk k) a) → (b ∈ pin ∨ V b = disk_block (kdisk k) b) →
  (∀ k', bframe k k' → kdisk k' = kdisk k → cache me pid k' pin ∅ V → Q tt k') →
  wp (brelse me x ;; brelse me y) Q k.
Proof.
  intros Hab Hc Ha Hb HQ. wp_step. eapply brelse_wp; [exact Hc|apply lookup_insert_eq|done|].
  intros k1 F1 D1 C1. rewrite delete_insert_id in C1 by (by rewrite lookup_singleton_ne).
  eapply brelse_wp; [exact C1|apply lookup_singleton_eq|by rewrite D1|].
  intros k2 F2 D2 C2. rewrite delete_singleton_eq in C2. apply HQ; [by etrans|congruence|done].
Qed.

Lemma wf_index hs1 h hs2 :
  log_wf (hs1 ++ h :: hs2) →
  let a := ls + Z.of_nat (length hs1) + 1 in
  u32 a = a ∧ a ≠ h ∧ 0 ≤ h < 2 ^ 32 ∧ ls < a ∧ a < ls + LOGSIZE.
Proof.
  intros [Hs Hl Hh _] a. rewrite length_app in Hl. cbn in Hl. destruct (Hh h) as [Hr Ho]; [set_solver|].
  fs_consts. rewrite u32_id by lia. lia.
Qed.

Lemma write_log_loop_wp hs2 : ∀ hs1 k pin V (Q : unit → kernel → Prop),
  log_wf (hs1 ++ hs2) → log_rep (klog k) (hs1 ++ hs2) → cache me pid k pin ∅ V →
  (∀ h, h ∈ hs1 ++ hs2 → h ∈ pin) → (size pin < Z.to_nat NBUF)%nat →
  (∀ k', bframe k k' → kdisk k' = write_all (log_W (ls + Z.of_nat (length hs1) + 1) hs2 V) (kdisk k) →
    cache me pid k' pin ∅ (log_V (ls + Z.of_nat (length hs1) + 1) hs2 V) → Q tt k') →
  wp (forM (seqZ (Z.of_nat (length hs1)) (Z.of_nat (length hs2))) (λ tail,
        to ← bread me ROOTDEV (u32 (ls + tail + 1));
        home ← lh_entry tail;
        from ← bread me ROOTDEV (u32 home);
        copy_data to from ;; bwrite me to ;; brelse me from ;; brelse me to)) Q k.
Proof.
  induction hs2 as [|h hs2 IH]; intros hs1 k pin V Q Hw Hr Hc Hpin Hsz HQ.
  - cbn [length]. rewrite seqZ_nil by lia. apply wp_ret. apply HQ; done.
  - rewrite seqZ_step by (cbn; lia). cbn [forM]. wp_step.
    destruct (wf_index _ _ _ Hw) as (-> & Hah & Hh & Ha1 & Ha2). set (a := ls + Z.of_nat (length hs1) + 1) in *.
    eapply bread2_wp; [exact Hc|done|done|done|left; set_solver| |].
    { intros k' R F HR. eapply lh_entry_wp; [by eapply log_rep_frame|done]. }
    intros to from k1 F1 D1 C1. wp_step.
    eapply copy_data_wp; [exact C1|by rewrite lookup_insert_ne, lookup_singleton_eq by done|apply lookup_insert_eq|].
    intros k2 F2 D2 C2. wp_step. eapply bwrite_wp; [exact C2|by rewrite lookup_insert_ne, lookup_singleton_eq by done|].
    rewrite fn_lookup_insert. intros k3 F3 D3 C3.
    eapply brelse2_wp; [|exact C3|left; set_solver|right|]; [done| |].
    { rewrite fn_lookup_insert, D3. unfold disk_block. cbn. by rewrite lookup_insert_eq. }
    intros k4 F4 D4 C4. assert (bframe k k4) as F by (by repeat (etrans; [eassumption|])).
    replace (Z.of_nat (length hs1) + 1) with (Z.of_nat (length (hs1 ++ [h]))) by (rewrite length_app; cbn; lia).
    replace (Z.of_nat (length (h :: hs2)) - 1) with (Z.of_nat (length hs2)) by (cbn; lia).
    eapply IH; [by rewrite <-app_assoc|rewrite <-app_assoc; by eapply log_rep_frame|exact C4|by rewrite <-app_assoc|done|].
    replace (ls + Z.of_nat (length (hs1 ++ [h])) + 1) with (a + 1) by (rewrite length_app; cbn; lia).
    intros k5 F5 D5 C5. apply HQ; [by etrans| |exact C5]. cbn [log_W write_all foldl fst snd].
    rewrite D5, D4, D3, D2, D1. done.
Qed.

(** The blocks still pinned while the transaction is installed. *)
Definition pins (recovering : bool) (hs : list Z) : gset Z := if recovering then ∅ else list_to_set hs.

Lemma unpin_wp k rec h hs held b V (Q : unit → kernel → Prop) :
  cache me pid k (pins rec (h :: hs)) held V → NoDup (h :: hs) → held !! h = Some b →
  (∀ k', bframe k k' → kdisk k' = kdisk k → cache me pid k' (pins rec hs) held V → Q tt k') →
  wp (if rec then mret tt else bunpin b) Q k.
Proof.
  intros Hc [Hnin _]%NoDup_cons Hh HQ. destruct rec; [apply wp_ret; by apply HQ|].
  eapply bunpin_wp; [exact Hc|done|set_solver|]. intros k' F D C. apply HQ; [done..|].
  assert (pins false (h :: hs) ∖ {[h]} = pins false hs) as <-; [|done]. unfold pins. set_solver.
Qed.

Lemma pins_size rec hs : (length hs < Z.to_nat NBUF)%nat → (size (pins rec hs) < Z.to_nat NBUF)%nat.
Proof.
  intros Hl. destruct rec; cbn; [by rewrite size_empty; fs_consts; lia|].
  eapply Nat.le_lt_trans; [|exact Hl].
  clear Hl. induction hs as [|h hs IH]; cbn; [by rewrite size_empty|].
  rewrite size_union_alt, size_singleton.
  assert (size (list_to_set hs ∖ {[h]} : gset Z) ≤ size (list_to_set hs : gset Z))%nat by (apply subseteq_size; set_solver). lia.
Qed.

Lemma install_loop_wp rec hs2 : ∀ hs1 k V (Q : unit → kernel → Prop),
  log_wf (hs1 ++ hs2) → log_rep (klog k) (hs1 ++ hs2) → cache me pid k (pins rec hs2) ∅ V →
  (∀ k', bframe k k' → kdisk k' = write_all (inst_W (ls + Z.of_nat (length hs1) + 1) hs2 V) (kdisk k) →
    cache me pid k' ∅ ∅ (inst_V (ls + Z.of_nat (length hs1) + 1) hs2 V) → Q tt k') →
  wp (forM (seqZ (Z.of_nat (length hs1)) (Z.of_nat (length hs2))) (λ tail,
        lbuf ← bread me ROOTDEV (u32 (ls + tail + 1));
        home ← lh_entry tail;
        dbuf ← bread me ROOTDEV (u32 home);
        copy_data dbuf lbuf ;; bwrite me dbuf ;; (if rec then mret tt else bunpin dbuf) ;;
        brelse me lbuf ;; brelse me dbuf)) Q k.
Proof.
  induction hs2 as [|h hs2 IH]; intros hs1 k V Q Hw Hr Hc HQ.
  - cbn [length]. rewrite seqZ_nil by lia. apply wp_ret. apply HQ; [done..|]. by destruct rec.
  - rewrite seqZ_step by (cbn; lia). cbn [forM]. wp_step.
    destruct (wf_index _ _ _ Hw) as (-> & Hah & Hh & Ha1 & Ha2). set (a := ls + Z.of_nat (length hs1) + 1) in *.
    pose proof (lw_len _ Hw) as Hlen. rewrite length_app in Hlen.
    assert (a ∉ pins rec (h :: hs2)) as Hnp.
    { destruct rec; [set_solver|]. unfold pins. rewrite elem_of_list_to_set. intros Hin.
      destruct (lw_home _ Hw a); [set_solver|lia]. }
    eapply bread2_wp; [exact Hc|apply pins_size; lia|done|done| | |].
    { destruct rec; [right; cbn; rewrite size_empty; fs_consts; lia|left; set_solver]. }
    { intros k' R F HR. eapply lh_entry_wp; [by eapply log_rep_frame|done]. }
    intros lbuf dbuf k1 F1 D1 C1. wp_step.
    eapply copy_data_wp; [exact C1|apply lookup_insert_eq|by rewrite lookup_insert_ne, lookup_singleton_eq by done|].
    intros k2 F2 D2 C2. wp_step. eapply bwrite_wp; [exact C2|apply lookup_insert_eq|].
    rewrite fn_lookup_insert. intros k3 F3 D3 C3. wp_step.
    eapply unpin_wp; [exact C3| |apply lookup_insert_eq|].
    { pose proof (lw_nodup _ Hw) as Hnd. by apply NoDup_app in Hnd as (_ & _ & Hnd). }
    intros k4 F4 D4 C4. rewrite <-(insert_empty a), insert_insert_ne, insert_empty in C4 by done.
    eapply brelse2_wp; [|exact C4|right|right|]; [done| | |].
    { rewrite fn_lookup_insert_ne, D4, D3, D2, D1 by done. unfold disk_block. cbn. rewrite lookup_insert_ne by done.
      by apply (ci_disk _ _ _ _ _ _ (ca_inv _ _ _ _ _ _ Hc)). }
    { rewrite fn_lookup_insert, D4, D3. unfold disk_block. cbn. by rewrite lookup_insert_eq. }
    intros k5 F5 D5 C5. assert (bframe k k5) as F by (by repeat (etrans; [eassumption|])).
    replace (Z.of_nat (length hs1) + 1) with (Z.of_nat (length (hs1 ++ [h]))) by (rewrite length_app; cbn; lia).
    replace (Z.of_nat (length (h :: hs2)) - 1) with (Z.of_nat (length hs2)) by (cbn; lia).
    eapply IH; [by rewrite <-app_assoc|rewrite <-app_assoc; by eapply log_rep_frame|exact C5|].
    replace (ls + Z.of_nat (length (hs1 ++ [h])) + 1) with (a + 1) by (rewrite length_app; cbn; lia).
    intros k6 F6 D6 C6. apply HQ; [by etrans| |exact C6]. cbn [inst_W write_all foldl fst snd].
    rewrite D6, D5, D4, D3, D2, D1. done.
Qed.

(** ** commit *)

Lemma cache_klog k pin held V f : cache me pid k pin held V → cache me pid (upd_klog f k) pin held V.
Proof. intros [[l Hl] C Hm]. split; [exists l; by apply (dll_bcache k)|exact C|exact Hm]. Qed.

Lemma bframe_upd_klog k k' f : bframe k k' → bframe (upd_klog f k) (upd_klog f k').
Proof. intros [R P]. split; [|exact P]. rewrite R. by destruct k. Qed.

Definition V_logged (hs : list Z) (V : Z → list Z) : Z → list Z :=
  let V1 := log_V (ls + 1) hs V in <[ls := header hs (V1 ls)]> V1.
Definition V_committed (hs : list Z) (V : Z → list Z) : Z → list Z :=
  let V3 := inst_V (ls + 1) hs (V_logged hs V) in <[ls := header [] (V3 ls)]> V3.
(** The writes of [commit], in order. *)
Definition commit_W (hs : list Z) (V : Z → list Z) : list (Z * list Z) :=
  log_W (ls + 1) hs V ++ [(ls, V_logged hs V ls)] ++
  inst_W (ls + 1) hs (V_logged hs V) ++ [(ls, V_committed hs V ls)].

Lemma write_all_app w1 w2 D : write_all (w1 ++ w2) D = write_all w2 (write_all w1 D).
Proof. apply foldl_app. Qed.
Lemma write_all_one b d D : write_all [(b, d)] D = disk_write b d D.
Proof. done. Qed.

Lemma log_rep_nil g hs : log_rep g hs → log_rep (upd_lh_n (λ _, 0) g) [].
Proof. by intros []. Qed.
Lemma log_wf_nil hs : log_wf hs → log_wf [].
Proof. intros []. split; [done|fs_consts; cbn; lia|set_solver|constructor]. Qed.
Lemma wf_ls hs : log_wf hs → ls ∉ hs.
Proof. intros Hw Hin. destruct (lw_home _ Hw ls Hin). fs_consts. lia. Qed.

Lemma commit_wp k hs V (Q : unit → kernel → Prop) :
  log_wf hs → hs ≠ [] → log_rep (klog k) hs → cache me pid k (list_to_set hs) ∅ V →
  (∀ k', bframe (upd_klog (upd_lh_n (λ _, 0)) k) k' → kdisk k' = write_all (commit_W hs V) (kdisk k) →
    cache me pid k' ∅ ∅ (V_committed hs V) → Q tt k') →
  wp (commit me) Q k.
Proof.
  intros Hw Hne Hr Hc HQ. unfold commit, the_log. wp_steps.
  rewrite (lr_n _ _ Hr). destruct (Z.ltb_spec 0 (Z.of_nat (length hs))) as [_|Hl]; [|destruct hs; [done|cbn in Hl; lia]].
  assert (size (list_to_set hs : gset Z) < Z.to_nat NBUF)%nat as Hsz by apply (pins_size false), Hw.
  wp_step. unfold write_log, the_log. wp_steps. rewrite (lr_dev _ _ Hr), (lr_start _ _ Hr), (lr_n _ _ Hr).
  apply (write_log_loop_wp hs [] k (list_to_set hs) V); [done|done|done|intros; by apply elem_of_list_to_set|done|]. cbn [length]. rewrite Z.add_0_r.
  intros k1 F1 D1 C1. wp_step.
  eapply (write_head_wp k1 hs); [done|by eapply log_rep_frame|exact C1|done|rewrite elem_of_list_to_set; by apply wf_ls|].
  intros k2 F2 D2 C2. assert (bframe k k2) as F12 by by etrans.
  wp_step. unfold install_trans, the_log. wp_steps. pose proof (log_rep_frame _ _ _ F12 Hr) as Hr2.
  rewrite (lr_dev _ _ Hr2), (lr_start _ _ Hr2), (lr_n _ _ Hr2).
  apply (install_loop_wp false hs [] k2 (V_logged hs V)); [done..|]. cbn [length]. rewrite Z.add_0_r.
  intros k3 F3 D3 C3. unfold set_log. wp_steps. assert (bframe k k3) as F13 by by etrans.
  eapply (write_head_wp _ []); [by eapply log_wf_nil| |by apply cache_klog|rewrite size_empty; fs_consts; lia|set_solver|].
  { eapply (log_rep_nil (klog k3) hs), log_rep_frame; [exact F13|done]. }
  intros k4 F4 D4 C4. apply HQ; [|  |exact C4].
  - etrans; [by apply bframe_upd_klog|exact F4].
  - unfold commit_W. rewrite !write_all_app, !write_all_one, D4. cbn [kdisk upd_klog].
    rewrite D3, D2, D1. unfold V_committed, V_logged. by rewrite !fn_lookup_insert.
Qed.
End logspec.
