(* ===== verification/Crash.v ===== *)
(** * Recovery

    [recover_from_log] and the main property of the log: a crash at any point of
    a commit leaves, after recovery, either no block of the transaction or all
    of them. *)

From S2P Require Import Prelude Riscv Memory Kalloc State Bytes Sched Bio BioSpec Cache Log LogSpec.

(** The home blocks that a header block names. *)
Definition parse_header (d : list Z) : list Z :=
  (λ i, s32 (get32 (4 + 4 * i) d)) <$> seqZ 0 (s32 (get32 0 d)).

(** The block contents after some writes. *)
Definition wr (ws : list (Z * list Z)) (B : Z → list Z) : Z → list Z := foldl (λ B w, <[w.1 := w.2]> B) B ws.

(** ** Contents *)

Lemma log_V_out hs a V n : n < a ∨ a + Z.of_nat (length hs) ≤ n → log_V a hs V n = V n.
Proof.
  revert a V. induction hs as [|h hs IH]; intros a V Hn; cbn [log_V length] in *; [done|].
  rewrite IH by lia. by rewrite fn_lookup_insert_ne by lia.
Qed.
Lemma log_V_in hs a V i h :
  (∀ h, h ∈ hs → h < a ∨ a + Z.of_nat (length hs) ≤ h) → hs !! i = Some h →
  log_V a hs V (a + Z.of_nat i) = V h.
Proof.
  revert a V i. induction hs as [|x hs IH]; intros a V i Ho Hi; cbn [log_V length] in *; [done|].
  destruct i as [|i]; cbn in Hi.
  - injection Hi as ->. rewrite log_V_out by lia. rewrite Z.add_0_r. by rewrite fn_lookup_insert.
  - replace (a + Z.of_nat (S i)) with (a + 1 + Z.of_nat i) by lia. rewrite IH; [|intros y Hy; specialize (Ho y); set_solver by lia|done].
    assert (h ∈ hs) by (by eapply list_elem_of_lookup_2). rewrite fn_lookup_insert_ne; [done|].
    destruct (Ho h); [by right|lia..].
Qed.
Lemma inst_V_out hs a V n : n ∉ hs → inst_V a hs V n = V n.
Proof.
  revert a V. induction hs as [|h hs IH]; intros a V Hn; cbn [inst_V]; [done|].
  rewrite IH by set_solver. rewrite fn_lookup_insert_ne; set_solver.
Qed.
Lemma inst_V_ext hs a V V' n : (∀ n, V n = V' n) → inst_V a hs V n = inst_V a hs V' n.
Proof.
  revert a V V'. induction hs as [|h hs IH]; intros a V V' HV; cbn [inst_V]; [done|]. apply IH. intros m.
  destruct (decide (m = h)) as [->|Hm]; [by rewrite !fn_lookup_insert, HV|by rewrite !fn_lookup_insert_ne, HV].
Qed.
Lemma inst_V_in hs a V i h :
  (∀ h, h ∈ hs → h < a ∨ a + Z.of_nat (length hs) ≤ h) → NoDup hs → hs !! i = Some h →
  inst_V a hs V h = V (a + Z.of_nat i).
Proof.
  revert a V i. induction hs as [|x hs IH]; intros a V i Ho Hnd Hi; cbn [inst_V length] in *; [done|].
  apply NoDup_cons in Hnd as [Hx Hnd].
  destruct i as [|i]; cbn in Hi.
  - injection Hi as ->. rewrite inst_V_out by done. rewrite Z.add_0_r. by rewrite fn_lookup_insert.
  - rewrite (IH _ _ i); [|intros y Hy; specialize (Ho y); set_solver by lia|done|done].
    replace (a + 1 + Z.of_nat i) with (a + Z.of_nat (S i)) by lia. rewrite fn_lookup_insert_ne; [done|].
    assert (i < length hs)%nat by (by eapply lookup_lt_Some). destruct (Ho x); [by left|lia..].
Qed.

Lemma disk_block_write_all ws D n : disk_block (write_all ws D) n = wr ws (disk_block D) n.
Proof.
  revert D. unfold wr. induction ws as [|[b d] ws IH] using rev_ind; intros D; [done|].
  rewrite write_all_app, write_all_one, foldl_app. cbn [foldl fst snd].
  destruct (decide (n = b)) as [->|Hn].
  - rewrite fn_lookup_insert. unfold disk_block. cbn. by rewrite lookup_insert_eq.
  - rewrite fn_lookup_insert_ne by done. rewrite <-IH. unfold disk_block. cbn. by rewrite lookup_insert_ne.
Qed.
Lemma wr_app w1 w2 B : wr (w1 ++ w2) B = wr w2 (wr w1 B).
Proof. apply foldl_app. Qed.
Lemma wr_out ws B n : (∀ w, w ∈ ws → w.1 ≠ n) → wr ws B n = B n.
Proof.
  revert B. induction ws as [|w ws IH]; intros B Hn; [done|]. unfold wr in *. cbn [foldl].
  rewrite IH by set_solver. rewrite fn_lookup_insert_ne; [done|]. apply Hn. left.
Qed.

Lemma log_W_fst hs a V w : w ∈ log_W a hs V → a ≤ w.1 < a + Z.of_nat (length hs).
Proof.
  revert a V. induction hs as [|h hs IH]; intros a V; cbn [log_W length]; [set_solver|].
  intros [->|Hw]%elem_of_cons; [cbn; lia|]. apply IH in Hw. lia.
Qed.
Lemma inst_W_fst hs a V w : w ∈ inst_W a hs V → w.1 ∈ hs.
Proof.
  revert a V. induction hs as [|h hs IH]; intros a V; cbn [inst_W length]; [set_solver|].
  intros [->|Hw]%elem_of_cons; [by left|]. right. by eapply IH.
Qed.

Lemma wr_log_W hs a V B i h :
  (∀ h, h ∈ hs → h < a ∨ a + Z.of_nat (length hs) ≤ h) → hs !! i = Some h →
  wr (log_W a hs V) B (a + Z.of_nat i) = V h.
Proof.
  revert a V B i. induction hs as [|x hs IH]; intros a V B i Ho Hi; cbn [log_W length] in *; [done|].
  unfold wr. cbn [foldl fst snd]. change (foldl _ ?b ?ws) with (wr ws b). destruct i as [|i]; cbn in Hi.
  - injection Hi as ->. rewrite Z.add_0_r, wr_out; [by rewrite fn_lookup_insert|].
    intros w Hw. apply log_W_fst in Hw. lia.
  - replace (a + Z.of_nat (S i)) with (a + 1 + Z.of_nat i) by lia.
    rewrite IH; [|intros y Hy; specialize (Ho y); set_solver by lia|done].
    assert (h ∈ hs) by (by eapply list_elem_of_lookup_2). rewrite fn_lookup_insert_ne; [done|].
    destruct (Ho h); [by right|lia..].
Qed.
Lemma wr_inst_W hs a V B i h :
  (∀ h, h ∈ hs → h < a ∨ a + Z.of_nat (length hs) ≤ h) → NoDup hs → hs !! i = Some h →
  wr (inst_W a hs V) B h = V (a + Z.of_nat i).
Proof.
  revert a V B i. induction hs as [|x hs IH]; intros a V B i Ho Hnd Hi; cbn [inst_W length] in *; [done|].
  apply NoDup_cons in Hnd as [Hx Hnd]. unfold wr. cbn [foldl fst snd]. change (foldl _ ?b ?ws) with (wr ws b).
  destruct i as [|i]; cbn in Hi.
  - injection Hi as ->. rewrite Z.add_0_r, wr_out; [by rewrite fn_lookup_insert|].
    intros w Hw Heq. apply inst_W_fst in Hw. congruence.
  - rewrite (IH _ _ _ i); [|intros y Hy; specialize (Ho y); set_solver by lia|done|done].
    replace (a + 1 + Z.of_nat i) with (a + Z.of_nat (S i)) by lia. rewrite fn_lookup_insert_ne; [done|].
    assert (i < length hs)%nat by (by eapply lookup_lt_Some). destruct (Ho x); [by left|lia..].
Qed.

(** Every block keeps its size. *)
Definition sized (V : Z → list Z) : Prop := ∀ n, length (V n) = Z.to_nat BSIZE.
Lemma sized_insert V a d : sized V → length d = Z.to_nat BSIZE → sized (<[a := d]> V).
Proof.
  intros HV Hd n. destruct (decide (n = a)) as [->|Hn]; [by rewrite fn_lookup_insert|by rewrite fn_lookup_insert_ne].
Qed.
Lemma sized_log_V hs a V : sized V → sized (log_V a hs V).
Proof. revert a V. induction hs as [|h hs IH]; intros a V HV; cbn [log_V]; [done|]. by apply IH, sized_insert. Qed.
Lemma sized_inst_V hs a V : sized V → sized (inst_V a hs V).
Proof. revert a V. induction hs as [|h hs IH]; intros a V HV; cbn [inst_V]; [done|]. by apply IH, sized_insert. Qed.
Lemma sized_V_logged ls hs V : log_wf ls hs → sized V → sized (V_logged ls hs V).
Proof.
  intros Hw HV. apply sized_insert; [by apply sized_log_V|]. apply length_header; [apply Hw|by apply sized_log_V].
Qed.

(** ** Headers *)

Lemma s32_of_u31 x : 0 ≤ x < 2 ^ 31 → s32 x = x.
Proof. intros. apply s32_id. lia. Qed.

Lemma parse_header_header hs d :
  (length hs < Z.to_nat NBUF)%nat → length d = Z.to_nat BSIZE → (∀ h, h ∈ hs → 0 ≤ h < 2 ^ 31) →
  parse_header (header hs d) = hs.
Proof.
  fs_consts. intros Hl Hd Hh. unfold parse_header, header.
  assert (get32 0 (put_words 4 hs (put32 0 (Z.of_nat (length hs)) d)) = Z.of_nat (length hs)) as ->.
  { rewrite get32_put_words_ne; rewrite ?length_put32; try lia. apply get32_put32; lia. }
  rewrite s32_of_u31 by lia. apply list_eq. intros i. rewrite list_lookup_fmap.
  destruct (decide (i < length hs)%nat) as [Hi|Hi].
  - rewrite lookup_seqZ_lt by lia. cbn [fmap option_fmap option_map]. destruct (lookup_lt_is_Some_2 hs i) as [h Hlk]; [done|].
    rewrite Hlk. f_equal. rewrite Z.add_0_l. assert (0 ≤ h < 2 ^ 31) as Hh31 by (by eapply Hh, list_elem_of_lookup_2).
    rewrite (get32_put_words hs i h); rewrite ?length_put32; try done; try lia. by apply s32_of_u31.
  - rewrite lookup_seqZ_ge by lia. cbn. symmetry. apply lookup_ge_None. lia.
Qed.

(** ** Atomicity of the contents *)

Section crash.
Context (ls : Z) (hs : list Z) (V B0 : Z → list Z).
Hypothesis Hwf : log_wf ls hs.
Hypothesis Hsize : sized V.
(** Before the commit the log on disk is empty and the disk has the old contents. *)
Hypothesis Hempty : s32 (get32 0 (B0 ls)) = 0.
Hypothesis Hold : ∀ n, n ∉ hs → V n = B0 n.

Definition recovered (B : Z → list Z) : Z → list Z := inst_V (ls + 1) (parse_header (B ls)) B.
Definition outside (n : Z) : Prop := n < ls ∨ ls + LOGSIZE ≤ n.

Lemma homes_out h : h ∈ hs → h < ls + 1 ∨ ls + 1 + Z.of_nat (length hs) ≤ h.
Proof using Hwf. clear Hold Hempty Hsize. intros Hh. destruct (lw_home _ _ Hwf h Hh) as [_ Ho]. pose proof (lw_len _ _ Hwf). fs_consts. lia. Qed.

Lemma outside_log n : outside n → n ≠ ls ∧ (n < ls + 1 ∨ ls + 1 + Z.of_nat (length hs) ≤ n).
Proof using Hwf. clear Hold Hempty Hsize. unfold outside. pose proof (lw_len _ _ Hwf). fs_consts. lia. Qed.

Lemma V_logged_ls : parse_header (V_logged ls hs V ls) = hs.
Proof using Hwf Hsize.
  unfold V_logged. rewrite fn_lookup_insert. apply parse_header_header; [apply Hwf|by apply sized_log_V|].
  intros h Hh. by destruct (lw_home _ _ Hwf h Hh).
Qed.
Lemma V_logged_in i h : hs !! i = Some h → V_logged ls hs V (ls + 1 + Z.of_nat i) = V h.
Proof using Hwf.
  intros Hi. unfold V_logged. rewrite fn_lookup_insert_ne by lia. apply log_V_in; [apply homes_out|done].
Qed.
Lemma V_committed_ls : parse_header (V_committed ls hs V ls) = [].
Proof using Hwf Hsize.
  clear Hold Hempty. unfold V_committed. rewrite fn_lookup_insert. apply parse_header_header; [fs_consts; cbn; lia| |set_solver].
  by apply sized_inst_V, sized_V_logged.
Qed.

(** Nothing of the transaction is in the header block yet. *)
Lemma crash_before j n :
  outside n → recovered (wr (take j (log_W (ls + 1) hs V)) B0) n = B0 n.
Proof using Hwf Hempty.
  intros Hn. unfold recovered. set (B := wr _ B0).
  assert (∀ m, m < ls + 1 ∨ ls + 1 + Z.of_nat (length hs) ≤ m → B m = B0 m) as HB.
  { intros m Hm. apply wr_out. intros w Hw. apply elem_of_take in Hw as (i & Hw & _).
    apply list_elem_of_lookup_2, log_W_fst in Hw. lia. }
  rewrite (HB ls) by lia. unfold parse_header. rewrite Hempty. cbn. apply HB, outside_log, Hn.
Qed.

(** From the write of the header block on. *)
Lemma crash_after j n :
  outside n →
  recovered (wr (log_W (ls + 1) hs V ++ [(ls, V_logged ls hs V ls)] ++
                 take j (inst_W (ls + 1) hs (V_logged ls hs V))) B0) n = V n.
Proof using All.
  intros Hn. set (B := wr _ B0). unfold recovered.
  assert (∀ w, w ∈ take j (inst_W (ls + 1) hs (V_logged ls hs V)) → w.1 ∈ hs) as Hin.
  { intros w (i & Hw & _)%elem_of_take. by eapply inst_W_fst, list_elem_of_lookup_2. }
  assert (∀ m, ¬ outside m → B m = wr (log_W (ls + 1) hs V ++ [(ls, V_logged ls hs V ls)]) B0 m) as HB.
  { intros m Hm. unfold B. rewrite app_assoc, wr_app, wr_out; [done|]. intros w Hw Heq.
    apply Hin in Hw. rewrite Heq in Hw. apply Hm. by destruct (lw_home _ _ Hwf m Hw). }
  assert (B ls = V_logged ls hs V ls) as Hls.
  { rewrite HB, wr_app by (unfold outside; fs_consts; lia). unfold wr at 1. cbn. by rewrite fn_lookup_insert. }
  rewrite Hls, V_logged_ls. destruct (decide (n ∈ hs)) as [Hh|Hh].
  - apply list_elem_of_lookup in Hh as [i Hi]. rewrite (inst_V_in _ _ _ i); [|apply homes_out|apply Hwf|done].
    assert (i < length hs)%nat by (by eapply lookup_lt_Some). pose proof (lw_len _ _ Hwf).
    rewrite HB, wr_app by (unfold outside; fs_consts; lia). unfold wr at 1. cbn [foldl fst snd].
    rewrite fn_lookup_insert_ne by lia. apply wr_log_W; [apply homes_out|done].
  - rewrite inst_V_out by done. rewrite Hold by done. apply wr_out.
    intros w [Hw|[Hw|Hw]%elem_of_app]%elem_of_app.
    + apply log_W_fst in Hw. apply outside_log in Hn. lia.
    + apply list_elem_of_singleton in Hw as ->. cbn. apply outside_log in Hn. lia.
    + apply Hin in Hw. congruence.
Qed.

Lemma V_committed_out n : outside n → V_committed ls hs V n = V n.
Proof using Hwf.
  intros Hn. destruct (outside_log n Hn) as [Hls Hr]. unfold V_committed. rewrite fn_lookup_insert_ne by done.
  destruct (decide (n ∈ hs)) as [Hh|Hh].
  - apply list_elem_of_lookup in Hh as [i Hi]. rewrite (inst_V_in _ _ _ i); [|apply homes_out|apply Hwf|done].
    by apply V_logged_in.
  - rewrite inst_V_out by done. unfold V_logged. rewrite fn_lookup_insert_ne by done. by apply log_V_out.
Qed.

(** After the last write. *)
Lemma crash_done n : outside n → recovered (wr (commit_W ls hs V) B0) n = V n.
Proof using All.
  intros Hn. destruct (outside_log n Hn) as [Hls Hr]. unfold recovered. set (B := wr _ B0).
  assert (B ls = V_committed ls hs V ls) as Hb.
  { unfold B, commit_W. rewrite !wr_app. unfold wr at 1. cbn. by rewrite fn_lookup_insert. }
  rewrite Hb, V_committed_ls. cbn. unfold B, commit_W. rewrite !app_assoc, wr_app. unfold wr at 1. cbn.
  rewrite fn_lookup_insert_ne by done. rewrite wr_app. destruct (decide (n ∈ hs)) as [Hh|Hh].
  - apply list_elem_of_lookup in Hh as [i Hi]. rewrite (wr_inst_W _ _ _ _ i); [|apply homes_out|apply Hwf|done].
    by apply V_logged_in.
  - rewrite wr_out by (intros w Hw; apply inst_W_fst in Hw; congruence). rewrite wr_app. unfold wr at 1. cbn.
    rewrite fn_lookup_insert_ne by done. rewrite Hold by done. apply wr_out. intros w Hw. apply log_W_fst in Hw. lia.
Qed.

Lemma crash_contents j :
  (∀ n, outside n → recovered (wr (take j (commit_W ls hs V)) B0) n = B0 n) ∨
  (∀ n, outside n → recovered (wr (take j (commit_W ls hs V)) B0) n = V n).
Proof using All.
  unfold commit_W. set (L := log_W (ls + 1) hs V). set (N := inst_W (ls + 1) hs (V_logged ls hs V)).
  destruct (decide (j ≤ length L)%nat) as [Hj|Hj].
  { left. intros n Hn. rewrite take_app_le by done. by apply crash_before. }
  right. intros n Hn. rewrite take_app_ge by lia. destruct (j - length L)%nat as [|i] eqn:Hi; [lia|].
  cbn [app take]. destruct (decide (i ≤ length N)%nat) as [Hl|Hl].
  - rewrite take_app_le by done. by apply crash_after.
  - rewrite (take_ge (N ++ _)) by (rewrite length_app; cbn; lia). by apply crash_done.
Qed.
End crash.

Lemma header_n hs d :
  (length hs < Z.to_nat NBUF)%nat → length d = Z.to_nat BSIZE → s32 (get32 0 (header hs d)) = Z.of_nat (length hs).
Proof.
  fs_consts. intros Hl Hd. unfold header. rewrite get32_put_words_ne; rewrite ?length_put32; try lia.
  rewrite get32_put32 by lia. apply s32_of_u31. lia.
Qed.

(** What a write sequence leaves in a block: the old contents or one of the writes. *)
Lemma wr_or ws B n : wr ws B n = B n ∨ (n, wr ws B n) ∈ ws.
Proof.
  induction ws as [|[b d] ws IH] using rev_ind; [by left|]. rewrite wr_app. unfold wr at 1 3. cbn [foldl fst snd].
  destruct (decide (n = b)) as [->|Hn]; [rewrite fn_lookup_insert; right; set_solver|].
  rewrite fn_lookup_insert_ne by done. destruct IH as [->|IH]; [by left|]. right. set_solver.
Qed.

Lemma commit_W_header ls hs V d :
  log_wf ls hs → (ls, d) ∈ commit_W ls hs V → d = V_logged ls hs V ls ∨ d = V_committed ls hs V ls.
Proof.
  intros Hw. unfold commit_W. intros [Hin|[Hin|[Hin|Hin]%elem_of_app]%elem_of_app]%elem_of_app.
  - apply log_W_fst in Hin. cbn in Hin. lia.
  - apply list_elem_of_singleton in Hin. injection Hin. auto.
  - apply inst_W_fst in Hin. cbn in Hin. by apply wf_ls in Hin.
  - apply list_elem_of_singleton in Hin. injection Hin. auto.
Qed.

(** The header block that recovery finds is well formed. *)
Lemma crash_header ls hs V B0 j :
  log_wf ls hs → sized V → s32 (get32 0 (B0 ls)) = 0 →
  let B := wr (take j (commit_W ls hs V)) B0 in
  0 ≤ s32 (get32 0 (B ls)) ∧ log_wf ls (parse_header (B ls)).
Proof.
  intros Hw Hsz H0 B. assert (log_wf ls []) as Hw0 by by eapply log_wf_nil.
  assert (sized (V_logged ls hs V)) as HszL by by apply sized_V_logged.
  destruct (wr_or (take j (commit_W ls hs V)) B0 ls) as [HB|HB]; fold B in HB.
  - rewrite HB, H0. split; [done|]. unfold parse_header. by rewrite H0.
  - apply elem_of_take in HB as (i & HB%list_elem_of_lookup_2 & _). apply commit_W_header in HB as [->| ->]; [..|done].
    + rewrite V_logged_ls by done. split; [|done]. unfold V_logged. rewrite fn_lookup_insert, header_n; [lia|apply Hw|].
      by apply sized_log_V.
    + rewrite V_committed_ls by done. split; [|done]. unfold V_committed. rewrite fn_lookup_insert, header_n; [done|fs_consts; cbn; lia|].
      by apply sized_inst_V.
Qed.

(** ** recover_from_log *)

Section recover.
Context `{SleepFuel} (me : nat) (pid : Z) (ls : Z).

Lemma parse_header_lookup d hs1 h hs2 :
  parse_header d = hs1 ++ h :: hs2 → s32 (get32 (4 + 4 * Z.of_nat (length hs1)) d) = h.
Proof.
  intros Hp. assert (parse_header d !! length hs1 = Some h) as Hl.
  { rewrite Hp, lookup_app_r, Nat.sub_diag by lia. done. }
  unfold parse_header in Hl. apply list_lookup_fmap_Some in Hl as (i & -> & Hi).
  apply lookup_seqZ in Hi as [-> _]. by rewrite Z.add_0_l.
Qed.

Lemma length_parse_header d : 0 ≤ s32 (get32 0 d) → Z.of_nat (length (parse_header d)) = s32 (get32 0 d).
Proof. intros. unfold parse_header. rewrite length_fmap, length_seqZ. lia. Qed.

Lemma read_head_loop_wp hs2 : ∀ hs1 d k (Q : unit → kernel → Prop),
  parse_header d = hs1 ++ hs2 → (length (hs1 ++ hs2) < Z.to_nat NBUF)%nat →
  length (lh_block (klog k)) = Z.to_nat LOGSIZE → take (length hs1) (lh_block (klog k)) = hs1 →
  (∀ bl, length bl = Z.to_nat LOGSIZE → take (length (hs1 ++ hs2)) bl = hs1 ++ hs2 →
    Q tt (upd_klog (upd_lh_block (λ _, bl)) k)) →
  wp (forM (seqZ (Z.of_nat (length hs1)) (Z.of_nat (length hs2))) (λ i,
        if i <? LOGSIZE then
          set_log (upd_lh_block (λ l, <[Z.to_nat i := s32 (get32 (4 + 4 * i) d)]> l))
        else fault "log.lh.block")) Q k.
Proof.
  induction hs2 as [|h hs2 IH]; intros hs1 d k Q Hp Hlen Hbl Ht HQ.
  - cbn [length]. rewrite seqZ_nil by lia. apply wp_ret. rewrite app_nil_r in HQ.
    replace k with (upd_klog (upd_lh_block (λ _, lh_block (klog k))) k) by (by destruct k as [? ? ? ? ? ? ? ? []]). auto.
  - rewrite seqZ_step by (cbn; lia). cbn [forM]. wp_step. rewrite length_app in Hlen. cbn [length] in Hlen.
    rewrite (proj2 (Z.ltb_lt _ _)) by (fs_consts; lia). unfold set_log. wp_step.
    rewrite (parse_header_lookup _ _ _ _ Hp), Nat2Z.id.
    replace (Z.of_nat (length hs1) + 1) with (Z.of_nat (length (hs1 ++ [h]))) by (rewrite length_app; cbn; lia).
    replace (Z.of_nat (length (h :: hs2)) - 1) with (Z.of_nat (length hs2)) by (cbn; lia).
    apply IH; [by rewrite <-app_assoc|rewrite <-app_assoc, length_app; done|cbn; by rewrite length_insert| |].
    + cbn. rewrite length_app. cbn [length]. rewrite Nat.add_1_r. rewrite (take_S_r _ _ h).
      * rewrite take_insert_ge by lia. by rewrite Ht.
      * apply list_lookup_insert_eq. fs_consts. lia.
    + intros bl Hb1 Hb2. rewrite <-app_assoc in Hb2. specialize (HQ bl Hb1 Hb2).
      by destruct k as [? ? ? ? ? ? ? ? []].
Qed.

(** A log in memory with the right place on disk. *)
Record log_place (g : logst) : Prop := {
  lp_start : log_start g = ls;
  lp_dev : log_dev g = ROOTDEV;
  lp_len : length (lh_block g) = Z.to_nat LOGSIZE;
}.

Lemma read_head_wp k V (Q : unit → kernel → Prop) :
  log_place (klog k) → cache me pid k ∅ ∅ V → 0 ≤ s32 (get32 0 (V ls)) → log_wf ls (parse_header (V ls)) →
  (∀ k' n bl, let g := upd_lh_block (λ _, bl) (upd_lh_n (λ _, n) (klog k)) in
    bframe (upd_klog (λ _, g) k) k' → log_rep ls g (parse_header (V ls)) → kdisk k' = kdisk k →
    cache me pid k' ∅ ∅ V → Q tt k') →
  wp (read_head me) Q k.
Proof.
  intros Hg Hc Hn Hw HQ. unfold read_head, the_log. wp_steps.
  rewrite (lp_start _ Hg), (lp_dev _ Hg), u32_id by (pose proof (lw_start _ _ Hw); fs_consts; lia).
  eapply bread_wp; [exact Hc|done|right; rewrite map_size_empty, size_empty; fs_consts; lia|].
  intros b k1 F1 D1 C1. rewrite insert_empty in C1. wp_step.
  eapply the_held_wp; [exact C1|apply lookup_singleton_eq|]. intros x _ _ Hx. rewrite Hx.
  cbv zeta. wp_step. unfold set_log at 1. wp_step. wp_step. rewrite <-length_parse_header by done.
  apply (read_head_loop_wp (parse_header (V ls)) [] (V ls)); [done|apply Hw|..].
  { cbn. rewrite (bframe_klog _ _ F1). apply Hg. }
  { done. }
  cbn [app]. intros bl Hb1 Hb2. set (g := upd_lh_block (λ _, bl) (upd_lh_n (λ _, Z.of_nat (length (parse_header (V ls)))) (klog k))).
  assert (upd_klog (upd_lh_block (λ _, bl)) (upd_klog (upd_lh_n (λ _, Z.of_nat (length (parse_header (V ls))))) k1) =
    upd_klog (λ _, g) k1) as ->.
  { unfold g. rewrite <-(bframe_klog _ _ F1). by destruct k1. }
  eapply brelse_wp; [apply cache_klog, C1|apply lookup_singleton_eq| |].
  { right. cbn. rewrite D1. by apply (ci_disk _ _ _ _ _ _ (ca_inv _ _ _ _ _ _ Hc)). }
  intros k2 F2 D2 C2. rewrite delete_singleton_eq in C2. apply (HQ k2 (Z.of_nat (length (parse_header (V ls)))) bl); [|by split; [apply Hg..|done|done|]| |done].
  - etrans; [by apply bframe_upd_klog|exact F2].
  - rewrite D2. done.
Qed.

Lemma recover_wp k V (Q : unit → kernel → Prop) :
  log_place (klog k) → cache me pid k ∅ ∅ V → 0 ≤ s32 (get32 0 (V ls)) → log_wf ls (parse_header (V ls)) →
  (∀ k' V' bl, cache me pid k' ∅ ∅ V' → (∀ n, n ≠ ls → V' n = recovered ls V n) →
    klog k' = upd_lh_block (λ _, bl) (upd_lh_n (λ _, 0) (klog k)) → length bl = Z.to_nat LOGSIZE →
    s32 (get32 0 (V' ls)) = 0 → itable k' = itable k ∧ sb k' = sb k → Q tt k') →
  wp (recover_from_log me) Q k.
Proof.
  intros Hg Hc Hn Hw HQ. unfold recover_from_log. wp_step. eapply read_head_wp; [done..|].
  intros k1 n bl g F1 Hr D1 C1. set (hs := parse_header (V ls)) in *. assert (klog k1 = g) as Hk1 by by apply bframe_klog in F1.
  wp_step. unfold install_trans, the_log. wp_steps. rewrite Hk1, (lr_dev _ _ _ Hr), (lr_start _ _ _ Hr), (lr_n _ _ _ Hr).
  apply (install_loop_wp me pid ls true hs [] k1 V); [done|by rewrite Hk1|done|]. cbn [length]. rewrite Z.add_0_r.
  intros k2 F2 D2 C2. unfold set_log. wp_steps.
  eapply (write_head_wp me pid ls _ []); [by eapply log_wf_nil| |by apply cache_klog|rewrite size_empty; fs_consts; lia|set_solver|].
  { eapply (log_rep_nil ls (klog k2) hs). rewrite (bframe_klog _ _ F2). by rewrite Hk1. }
  intros k3 F3 D3 C3. eapply HQ; [exact C3|..].
  - intros m Hm. by rewrite fn_lookup_insert_ne.
  - rewrite (bframe_klog _ _ F3). cbn. rewrite (bframe_klog _ _ F2), Hk1. by unfold g.
  - apply (lr_len _ _ _ Hr).
  - rewrite fn_lookup_insert. unfold header. cbn [put_words length].
    rewrite get32_put32; [done|lia| |lia]. rewrite (sized_inst_V _ _ _ (ci_size _ _ _ _ _ _ (ca_inv _ _ _ _ _ _ Hc))).
    fs_consts. lia.
  - rewrite (bframe_itable _ _ F3), (bframe_sb _ _ F3). cbn. by rewrite (bframe_itable _ _ F2), (bframe_sb _ _ F2), (bframe_itable _ _ F1), (bframe_sb _ _ F1).
Qed.
End recover.

(** ** A crash during a commit *)

Lemma wr_length ws B n :
  sized B → (∀ w, w ∈ ws → length w.2 = Z.to_nat BSIZE) → length (wr ws B n) = Z.to_nat BSIZE.
Proof. intros HB Hw. destruct (wr_or ws B n) as [->|Hin]; [done|]. by apply (Hw _ Hin). Qed.

Lemma commit_W_length ls hs V w :
  log_wf ls hs → sized V → w ∈ commit_W ls hs V → length w.2 = Z.to_nat BSIZE.
Proof.
  intros Hw Hsz.
  assert (∀ l a W, sized W → w ∈ log_W a l W → length w.2 = Z.to_nat BSIZE) as HL.
  { induction l as [|x l IH]; intros a W HW; cbn [log_W]; [set_solver|]. intros [->|Hin]%elem_of_cons; [apply HW|].
    eapply (IH (a + 1)); [|exact Hin]. by apply sized_insert. }
  assert (∀ l a W, sized W → w ∈ inst_W a l W → length w.2 = Z.to_nat BSIZE) as HI.
  { induction l as [|x l IH]; intros a W HW; cbn [inst_W]; [set_solver|]. intros [->|Hin]%elem_of_cons; [apply HW|].
    eapply (IH (a + 1)); [|exact Hin]. by apply sized_insert. }
  assert (sized (V_logged ls hs V)) as HszL by by apply sized_V_logged.
  unfold commit_W. intros [Hin|[Hin|[Hin|Hin]%elem_of_app]%elem_of_app]%elem_of_app; [exact (HL _ _ _ Hsz Hin)| |exact (HI _ _ _ HszL Hin)|].
  - apply list_elem_of_singleton in Hin as ->. apply HszL.
  - apply list_elem_of_singleton in Hin as ->. cbn. unfold V_committed. rewrite fn_lookup_insert.
    apply length_header; [fs_consts; cbn; lia|by apply sized_inst_V].
Qed.

Lemma writes_write_all ws D : writes (write_all ws D) = writes D ++ ws.
Proof.
  revert D. induction ws as [|w ws IH]; intros D; cbn [write_all foldl]; [by rewrite app_nil_r|].
  change (foldl _ ?d ws) with (write_all ws d). rewrite IH. cbn. by destruct w; rewrite <-app_assoc.
Qed.

(** The machine switched on with the disk [B]. *)
Record power_on (kr : kernel) (B : gmap Z (list Z)) : Prop := {
  po_disk : blocks (kdisk kr) = B;
  po_len : length (all_bufs kr) = Z.to_nat NBUF;
  po_bufs : Forall fresh_buf (all_bufs kr);
  po_log : length (lh_block (klog kr)) = Z.to_nat LOGSIZE;
}.

Lemma cache_clean me pid k V n : cache me pid k ∅ ∅ V → disk_block (kdisk k) n = V n.
Proof. intros [_ C _]. symmetry. apply (ci_disk _ _ _ _ _ _ C); done. Qed.

(** [initlog] with the cache in place. *)
Lemma initlog_cached_wp `{SleepFuel} me pid ls k V sb0 (Q : unit → kernel → Prop) :
  cache me pid k ∅ ∅ V → length (lh_block (klog k)) = Z.to_nat LOGSIZE → logstart sb0 = ls → 0 ≤ ls < 2 ^ 31 →
  0 ≤ s32 (get32 0 (V ls)) → log_wf ls (parse_header (V ls)) →
  (∀ k' V' bl, cache me pid k' ∅ ∅ V' → (∀ n, n ≠ ls → V' n = recovered ls V n) → s32 (get32 0 (V' ls)) = 0 →
    length bl = Z.to_nat LOGSIZE → klog k' = LogSt ls (s32 (nlog sb0)) (outstanding (klog k)) (committing (klog k)) ROOTDEV 0 bl →
    itable k' = itable k ∧ sb k' = sb k → Q tt k') →
  wp (initlog me ROOTDEV sb0) Q k.
Proof.
  intros Hc Hlog Hls Hr Hn Hw HQ. unfold initlog. change (BSIZE <=? 4 + 4 * LOGSIZE) with false. unfold set_log. wp_step. wp_step.
  eapply recover_wp; [|apply cache_klog, Hc|done|done|].
  - split; cbn; [rewrite Hls; apply s32_id; lia|done|done].
  - intros k2 V2 bl C2 HV2 Hk2 Hbl H0 Hsame. eapply HQ; [exact C2|done|done|done| |done]. rewrite Hk2. cbn. by rewrite Hls, (s32_id ls) by lia.
Qed.

Lemma initlog_wp `{SleepFuel} me p ls kr B sb (Q : unit → kernel → Prop) :
  power_on kr B → procs kr !! me = Some p → logstart sb = ls → 0 ≤ ls < 2 ^ 31 →
  let C := disk_block (Disk B []) in
  sized C → 0 ≤ s32 (get32 0 (C ls)) → log_wf ls (parse_header (C ls)) →
  (∀ k', (∀ n, n ≠ ls → disk_block (kdisk k') n = recovered ls C n) → s32 (get32 0 (disk_block (kdisk k') ls)) = 0 →
    (∃ V, cache me (p_pid p) k' ∅ ∅ V) →
    (∃ bl, length bl = Z.to_nat LOGSIZE ∧ klog k' = LogSt ls (s32 (nlog sb)) (outstanding (klog kr)) (committing (klog kr)) ROOTDEV 0 bl) →
    Q tt k') →
  wp (binit ;; initlog me ROOTDEV sb) Q kr.
Proof.
  intros [Hd Hlen Hfr Hlog] Hp Hls Hr C Hsz Hn Hw HQ.
  assert (∀ n, disk_block (kdisk kr) n = C n) as HC by (intros n; unfold C, disk_block; by rewrite Hd).
  wp_step. eapply binit_wp; [done|done|intros n; rewrite HC; apply Hsz|exact Hp|done|].
  intros k1 E1 C1. eapply (initlog_cached_wp me); [exact (cache_ext _ _ _ _ _ _ _ HC C1)|by rewrite E1|done..|].
  intros k2 V2 bl C2 HV2 H0 Hbl Hk2 _. apply HQ; [|rewrite (cache_clean _ _ _ _ _ C2); done|eauto|].
  - intros n Hne. rewrite (cache_clean _ _ _ _ _ C2). auto.
  - exists bl. split; [done|]. by rewrite Hk2, E1.
Qed.
