(* ===== verification/Txn.v ===== *)
(** * Transactions

    What the file system may assume of [begin_op], [log_write] and [end_op]:
    inside a transaction blocks are read and written through the cache and the
    disk does not change; [end_op] makes the changes durable, all or none. *)

From S2P Require Import Prelude Riscv Memory Kalloc State Bytes Sched Bio BioSpec Cache Log LogSpec Crash.

(** The blocks of a transaction, when [bno] is written. *)
Definition log_add (hs : list Z) (bno : Z) : list Z := if decide (bno ∈ hs) then hs else hs ++ [bno].

(** Only the cache, the disk, the log and the states of sleeping processes change. *)
Record tframe (k k' : kernel) : Prop := {
  tf_rest : k' = upd_procs (λ _, procs k') (upd_bcache (λ _, bcache k') (upd_kdisk (λ _, kdisk k')
    (upd_klog (λ _, klog k') k)));
  tf_procs : Forall2 woken (procs k) (procs k');
}.
#[global] Instance tframe_refl : Reflexive tframe.
Proof. intros k. split; [by destruct k|done]. Qed.
#[global] Instance tframe_trans : Transitive tframe.
Proof. intros k1 k2 k3 [R1 P1] [R2 P2]. split; [|by etrans]. rewrite R2, R1. by destruct k1. Qed.
Lemma tframe_bframe k k' : bframe k k' → tframe k k'.
Proof. intros [R P]. split; [|done]. rewrite R. by destruct k. Qed.
Lemma tframe_klog k f : tframe k (upd_klog f k).
Proof. split; [by destruct k|done]. Qed.
Lemma tframe_sb k k' : tframe k k' → sb k' = sb k.
Proof. by intros [-> _]. Qed.
Lemma tframe_itable k k' : tframe k k' → itable k' = itable k.
Proof. by intros [-> _]. Qed.
Lemma tframe_mach k k' : tframe k k' → mach k' = mach k.
Proof. by intros [-> _]. Qed.

Section txn.
Context `{SleepFuel} (me : nat) (pid : Z) (ls : Z).

(** A transaction in progress: [hs] the blocks it has written so far, [D] the
    disk as it was when it began. *)
Record txn (k : kernel) (D : disk) (hs : list Z) (held : gmap Z nat) (V : Z → list Z) : Prop := {
  t_cache : cache me pid k (list_to_set hs) held V;
  t_wf : log_wf ls hs;
  t_rep : log_rep ls (klog k) hs;
  t_size : log_size (klog k) = LOGSIZE;
  t_out : outstanding (klog k) = 1;
  t_comm : committing (klog k) = false;
  t_disk : kdisk k = D;
}.

Lemma txn_bframe k k' D hs held V held' V' :
  txn k D hs held V → bframe k k' → kdisk k' = kdisk k → cache me pid k' (list_to_set hs) held' V' →
  txn k' D hs held' V'.
Proof. intros [] F HD HC. split; rewrite ?(bframe_klog _ _ F); try done. congruence. Qed.

Lemma txn_ext k D hs held V V' : (∀ n, V n = V' n) → txn k D hs held V → txn k D hs held V'.
Proof. intros HV []. split; try done. by eapply cache_ext. Qed.

Lemma list_to_set_size (hs : list Z) : (size (list_to_set hs : gset Z) ≤ length hs)%nat.
Proof.
  induction hs as [|h hs IH]; [done|]. cbn. rewrite size_union_alt, size_singleton.
  assert (size (list_to_set hs ∖ {[h]} : gset Z) ≤ size (list_to_set hs : gset Z))%nat by (apply subseteq_size; set_solver). lia.
Qed.

Lemma txn_bread k D hs held V bno (Q : nat → kernel → Prop) :
  txn k D hs held V → held !! bno = None → (length hs + size held < Z.to_nat NBUF)%nat →
  (∀ b k', bframe k k' → txn k' D hs (<[bno := b]> held) V → Q b k') → wp (bread me ROOTDEV bno) Q k.
Proof.
  intros Ht Hh Hs HQ. eapply bread_wp; [apply Ht|done|right; pose proof (list_to_set_size hs); lia|].
  intros b k' F HD C. apply HQ; [done|]. by eapply txn_bframe.
Qed.
Lemma txn_data k D hs held V bno b f (Q : unit → kernel → Prop) :
  txn k D hs held V → held !! bno = Some b → length (f (V bno)) = Z.to_nat BSIZE →
  (∀ k', bframe k k' → txn k' D hs held (<[bno := f (V bno)]> V) → Q tt k') →
  wp (set_buf b (upd_b_data f)) Q k.
Proof.
  intros Ht Hh Hl HQ. eapply set_data_wp; [apply Ht|done|done|]. intros k' F HD C. apply HQ; [done|]. by eapply txn_bframe.
Qed.
Lemma txn_brelse k D hs held V bno b (Q : unit → kernel → Prop) :
  txn k D hs held V → held !! bno = Some b → (bno ∈ hs ∨ V bno = disk_block D bno) →
  (∀ k', bframe k k' → txn k' D hs (delete bno held) V → Q tt k') → wp (brelse me b) Q k.
Proof.
  intros Ht Hh Hc HQ. eapply brelse_wp; [apply Ht|done| |].
  { rewrite (t_disk _ _ _ _ _ Ht). destruct Hc; [left; by apply elem_of_list_to_set|by right]. }
  intros k' F HD C. apply HQ; [done|]. by eapply txn_bframe.
Qed.

(** ** log_write *)

Lemma log_find_spec hs l rest bno :
  l = hs ++ rest → (∀ h, h ∈ hs → 0 ≤ h < 2 ^ 31) →
  (bno ∈ hs → ∃ i, log_find l (Z.of_nat (length hs)) bno = Z.of_nat i ∧ hs !! i = Some bno) ∧
  (bno ∉ hs → log_find l (Z.of_nat (length hs)) bno = Z.of_nat (length hs)).
Proof.
  intros -> Hr. unfold log_find. rewrite Nat2Z.id, take_app_length. split.
  - intros Hin. destruct (list_find _ hs) as [[i b]|] eqn:E.
    + apply list_find_Some in E as (Hi & Hb & _). exists i. split; [done|].
      rewrite u32_id in Hb; [congruence|]. apply list_elem_of_lookup_2, Hr in Hi. lia.
    + apply list_find_None in E. rewrite Forall_forall in E. destruct (E bno Hin). apply u32_id. specialize (Hr bno Hin). lia.
  - intros Hin. destruct (list_find _ hs) as [[i b]|] eqn:E; [|done]. exfalso.
    apply list_find_Some in E as (Hi & Hb & _). apply list_elem_of_lookup_2 in Hi.
    rewrite u32_id in Hb; [congruence|]. apply Hr in Hi. lia.
Qed.

Lemma log_add_wf hs bno :
  log_wf ls hs → 0 ≤ bno < 2 ^ 31 → outside ls bno → (length hs < 29)%nat → log_wf ls (log_add hs bno).
Proof.
  intros [] Hb Ho Hl. unfold log_add. case_decide; [done|]. split; [done| | |].
  - rewrite length_app. fs_consts. cbn. lia.
  - intros h [Hh|Hh]%elem_of_app; [auto|]. apply list_elem_of_singleton in Hh as ->. done.
  - apply NoDup_app. split_and!; [done|set_solver|apply NoDup_singleton].
Qed.

Lemma txn_log_write k D hs held V bno b (Q : unit → kernel → Prop) :
  txn k D hs held V → held !! bno = Some b → 0 ≤ bno < 2 ^ 31 → outside ls bno → (length hs < 29)%nat →
  (∀ k', tframe k k' → txn k' D (log_add hs bno) held V → Q tt k') →
  wp (log_write b) Q k.
Proof.
  intros Ht Hh Hb Ho Hlen HQ. pose proof Ht as [HC Hw Hr Hsz Hout Hcm HD]. unfold log_write, the_log. wp_steps.
  rewrite (lr_n _ _ _ Hr), Hsz, Hout.
  destruct (Z.leb_spec LOGSIZE (Z.of_nat (length hs))); [fs_consts; lia|].
  destruct (Z.leb_spec (LOGSIZE - 1) (Z.of_nat (length hs))); [fs_consts; lia|]. cbn [orb]. change (1 <? 1) with false. cbv iota.
  wp_step. eapply the_held_wp; [exact HC|exact Hh|]. intros x Hd Hbx _. rewrite Hbx, (s32_id bno) by lia. cbv zeta.
  pose proof (take_drop (length hs) (lh_block (klog k))) as Hbl. rewrite (lr_block _ _ _ Hr) in Hbl.
  destruct (log_find_spec hs (lh_block (klog k)) (drop (length hs) (lh_block (klog k))) bno) as [Hin Hnin];
    [done|intros h Hx; by destruct (lw_home _ _ Hw h Hx)|].
  unfold set_log. wp_step. wp_step. unfold log_add in HQ. destruct (decide (bno ∈ hs)) as [Hbi|Hbi].
  - destruct (Hin Hbi) as (i & Hfi & Hi). rewrite Hfi, Nat2Z.id.
    assert (i < length hs)%nat by (by eapply lookup_lt_Some).
    destruct (Z.eqb_spec (Z.of_nat i) (Z.of_nat (length hs))); [lia|]. wp_step.
    assert (upd_klog (upd_lh_block (λ l, <[i := bno]> l)) k = k) as ->; [|by apply HQ].
    assert (<[i := bno]> (lh_block (klog k)) = lh_block (klog k)) as E.
    { apply list_insert_id. rewrite <-Hbl, lookup_app_l by done. done. }
    destruct k as [? ? ? ? ? ? ? ? []]; unfold upd_klog, upd_lh_block; cbn in *. by rewrite E.
  - rewrite (Hnin Hbi), Nat2Z.id, Z.eqb_refl. wp_step.
    eapply bpin_wp; [apply cache_klog, HC|exact Hh|by rewrite elem_of_list_to_set|].
    intros k1 F1 D1 C1. wp_step. apply HQ.
    { etrans; [apply (tframe_klog k)|]. etrans; [apply tframe_bframe, F1|apply tframe_klog]. }
    pose proof (log_add_wf hs bno Hw Hb Ho Hlen) as Hw'. unfold log_add in Hw'. rewrite decide_False in Hw' by done.
    assert (klog k1 = upd_lh_block (λ l, <[length hs := bno]> l) (klog k)) as Hk1 by (by rewrite (bframe_klog _ _ F1)).
    split; [|done| |cbn; by rewrite Hk1..|cbn; rewrite D1; exact HD].
    + apply cache_klog. rewrite list_to_set_app_L. cbn. rewrite union_empty_r_L, (union_comm_L (list_to_set hs)). done.
    + cbn. rewrite Hk1. split; cbn; [apply Hr|apply Hr|rewrite length_app, (lr_n _ _ _ Hr); cbn; lia| |rewrite length_insert; apply Hr].
      rewrite length_app. cbn. rewrite Nat.add_1_r. rewrite (take_S_r _ _ bno).
      * rewrite take_insert_ge by lia. by rewrite (lr_block _ _ _ Hr).
      * apply list_lookup_insert_eq. rewrite (lr_len _ _ _ Hr). fs_consts. lia.
Qed.

(** ** begin_op and end_op *)

(** No transaction in progress: the cache is clean and the log on disk empty. *)
Record idle (k : kernel) : Prop := {
  id_cache : cache me pid k ∅ ∅ (disk_block (kdisk k));
  id_wf : log_wf ls [];
  id_rep : log_rep ls (klog k) [];
  id_size : log_size (klog k) = LOGSIZE;
  id_out : outstanding (klog k) = 0;
  id_comm : committing (klog k) = false;
  id_head : s32 (get32 0 (disk_block (kdisk k) ls)) = 0;
}.

Definition begun (k : kernel) : kernel := upd_klog (upd_outstanding (λ n, n + 1)) k.

Lemma begin_op_wp k (Q : unit → kernel → Prop) : idle k → Q tt (begun k) → wp (begin_op me) Q k.
Proof.
  intros [] HQ. unfold begin_op, the_log, set_log. cbn [loopM]. do 3 wp_step.
  rewrite id_comm0, (lr_n _ _ _ id_rep0), id_out0. cbn [length].
  match goal with |- context [LOGSIZE <? ?x] => change (LOGSIZE <? x) with false end. wp_steps. done.
Qed.
Lemma txn_begun k : idle k → txn (begun k) (kdisk k) [] ∅ (disk_block (kdisk k)).
Proof.
  intros []. split; [apply cache_klog, id_cache0|done| |done| |done|done].
  - by destruct id_rep0.
  - cbn. by rewrite id_out0.
Qed.

(** The writes of [end_op]. *)
Definition end_W (hs : list Z) (V : Z → list Z) : list (Z * list Z) :=
  if decide (hs = []) then [] else commit_W ls hs V.

Lemma V_committed_head hs V :
  log_wf ls hs → sized V → s32 (get32 0 (V_committed ls hs V ls)) = 0.
Proof.
  intros Hw Hs. unfold V_committed. rewrite fn_lookup_insert, header_n; [done|fs_consts; cbn; lia|].
  by apply sized_inst_V, sized_V_logged.
Qed.

(** [commit], also of an empty transaction, from inside [end_op]. *)
Lemma commit_txn_wp k D hs V (Q : unit → kernel → Prop) :
  log_wf ls hs → log_rep ls (klog k) hs → cache me pid k (list_to_set hs) ∅ V →
  kdisk k = D → s32 (get32 0 (disk_block D ls)) = 0 →
  (∀ k', bframe (upd_klog (upd_lh_n (λ _, 0)) k) k' → kdisk k' = write_all (end_W hs V) D →
    cache me pid k' ∅ ∅ (disk_block (kdisk k')) → (∀ n, outside ls n → disk_block (kdisk k') n = V n) →
    s32 (get32 0 (disk_block (kdisk k') ls)) = 0 → Q tt k') →
  wp (commit me) Q k.
Proof.
  intros Hw Hr HC HD H0 HQ. assert (sized V) as Hs by exact (ci_size _ _ _ _ _ _ (ca_inv _ _ _ _ _ _ HC)).
  unfold end_W in HQ. destruct (decide (hs = [])) as [->|Hne].
  - unfold commit, the_log. wp_step. wp_step. rewrite (lr_n _ _ _ Hr). cbn [length]. change (0 <? Z.of_nat 0) with false. cbv iota.
    wp_step. assert (upd_klog (upd_lh_n (λ _, 0)) k = k) as E.
    { destruct Hr as [_ _ Hn _ _]. destruct k as [? ? ? ? ? ? ? ? []]; unfold upd_klog, upd_lh_n; cbn in *. by rewrite Hn. }
    rewrite E in HQ. assert (∀ n, V n = disk_block (kdisk k) n) as HV by (intros n; symmetry; by eapply cache_clean).
    apply HQ; [done|done|by eapply cache_ext|done|by rewrite HD].
  - eapply commit_wp; [done..|]. intros k' F D' C'.
    assert (∀ n, disk_block (kdisk k') n = V_committed ls hs V n) as HV by (intros n; by eapply cache_clean).
    apply HQ; [done|congruence|eapply cache_ext; [|exact C']; intros n; by rewrite HV| |].
    + intros n Hn. rewrite HV. by apply V_committed_out.
    + rewrite HV. by apply V_committed_head.
Qed.

Lemma end_op_wp k D hs V (Q : unit → kernel → Prop) :
  txn k D hs ∅ V → s32 (get32 0 (disk_block D ls)) = 0 →
  (∀ k', tframe k k' → idle k' → kdisk k' = write_all (end_W hs V) D →
    (∀ n, outside ls n → disk_block (kdisk k') n = V n) → Q tt k') →
  wp (end_op me) Q k.
Proof.
  intros [HC Hw Hr Hsz Hout Hcm HD] H0 HQ. unfold end_op, the_log, set_log. do 4 wp_step.
  cbn [klog upd_klog committing outstanding upd_outstanding]. rewrite Hcm, Hout. change (1 - 1 =? 0) with true. cbv iota.
  do 3 wp_step. set (k1 := upd_klog _ _).
  assert (log_rep ls (klog k1) hs) as Hr1 by (by destruct Hr).
  assert (cache me pid k1 (list_to_set hs) ∅ V) as HC1 by by do 2 apply cache_klog.
  eapply (commit_txn_wp k1 D); [done..|]. intros k2 F2 D2 C2 HV2 Hh2. do 2 wp_step.
  apply wakeup_wp. intros ps Hps. set (k3 := upd_procs _ _).
  assert (klog k2 = upd_lh_n (λ _, 0) (klog k1)) as Hk2 by (by rewrite (bframe_klog _ _ F2)).
  assert (∀ n, disk_block (kdisk k3) n = disk_block (kdisk k2) n) as HD3 by done.
  apply HQ; [|split|done|done].
  - etrans; [apply (tframe_klog k (upd_outstanding (λ n, n - 1)))|].
    etrans; [apply (tframe_klog _ (upd_committing (λ _, true)))|].
    etrans; [apply (tframe_klog _ (upd_lh_n (λ _, 0)))|]. etrans; [apply tframe_bframe, F2|].
    etrans; [apply (tframe_klog _ (upd_committing (λ _, false)))|]. split; [by destruct k2|exact Hps].
  - destruct C2 as [[l Hl] C2 (p & Hp & Hpid)]. split; [exists l; by apply (dll_bcache k2)|exact C2|].
    destruct (Forall2_lookup_l _ _ _ _ _ Hps Hp) as (q & Hq & Hwk). exists q. split; [done|]. by rewrite (woken_pid p).
  - by eapply log_wf_nil.
  - cbn. rewrite Hk2. by destruct Hr.
  - cbn. rewrite Hk2. done.
  - cbn. rewrite Hk2. cbn. by rewrite Hout.
  - done.
  - done.
Qed.
End txn.

(** ** Atomicity *)

Section atomic.
Context `{SleepFuel} (me : nat) (pid : Z) (ls : Z).

(** What recovery makes of the disk when the machine stops after [j] of the writes
    of a transaction that started on [D]. *)
Definition crash_ok (D D' : disk) (ws : list (Z * list Z)) : Prop :=
  ∀ j kr me' p sb, power_on kr (blocks (write_all (take j ws) D)) → procs kr !! me' = Some p → logstart sb = ls →
  wp (binit ;; initlog me' ROOTDEV sb) (λ _ kr',
    (∀ n, outside ls n → disk_block (kdisk kr') n = disk_block D n) ∨
    (∀ n, outside ls n → disk_block (kdisk kr') n = disk_block D' n)) kr.

Lemma crash_ok_end D D' hs V :
  log_wf ls hs → sized V → sized (disk_block D) → s32 (get32 0 (disk_block D ls)) = 0 →
  (∀ n, n ∉ hs → V n = disk_block D n) → (∀ n, outside ls n → disk_block D' n = V n) →
  crash_ok D D' (end_W ls hs V).
Proof.
  intros Hw Hs HsD H0 Hold HD' j kr me' p sb Hpo Hp Hls.
  set (ws := end_W ls hs V) in *. set (Dc := write_all (take j ws) D) in *.
  assert (∀ n, disk_block (Disk (blocks Dc) []) n = wr (take j ws) (disk_block D) n) as HC
    by (intros n; apply disk_block_write_all).
  assert (∀ w, w ∈ take j ws → length w.2 = Z.to_nat BSIZE) as Hlen.
  { intros w (i & Hi%list_elem_of_lookup_2 & _)%elem_of_take. unfold ws, end_W in Hi. case_decide; [set_solver|].
    exact (commit_W_length ls hs V w Hw Hs Hi). }
  assert (0 ≤ s32 (get32 0 (wr (take j ws) (disk_block D) ls)) ∧ log_wf ls (parse_header (wr (take j ws) (disk_block D) ls))) as [Hn Hwp].
  { unfold ws, end_W. case_decide; [|by apply crash_header]. rewrite take_nil. cbn. rewrite H0. split; [done|].
    unfold parse_header. rewrite H0. by eapply log_wf_nil. }
  pose proof (lw_start _ _ Hw) as Hr. eapply initlog_wp; [exact Hpo|exact Hp|exact Hls|fs_consts; lia|..].
  - intros n. rewrite HC. by apply wr_length.
  - by rewrite HC.
  - by rewrite HC.
  - intros k' Hk' _ _ _.
    assert (∀ n, outside ls n → disk_block (kdisk k') n = recovered ls (wr (take j ws) (disk_block D)) n) as Hrec.
    { intros n Hn'. rewrite Hk' by (unfold outside in Hn'; fs_consts; lia). unfold recovered. rewrite HC.
      by apply inst_V_ext. }
    unfold ws, end_W in *. destruct (decide (hs = [])) as [->|Hne].
    + left. intros n Hn'. rewrite Hrec by done. rewrite take_nil. unfold recovered. cbn. unfold parse_header. by rewrite H0.
    + destruct (crash_contents ls hs V (disk_block D) Hw Hs H0 Hold j) as [Hb|Ha]; [left|right]; intros n Hn'; rewrite Hrec by done; auto.
      by rewrite HD', Ha.
Qed.

(** Switching the machine on ends with no transaction in progress. *)
Lemma boot_idle_wp kr B p sb :
  power_on kr B → procs kr !! me = Some p → p_pid p = pid → logstart sb = ls → nlog sb = LOGSIZE →
  outstanding (klog kr) = 0 → committing (klog kr) = false → 0 ≤ ls < 2 ^ 31 →
  let C := disk_block (Disk B []) in
  sized C → 0 ≤ s32 (get32 0 (C ls)) → log_wf ls (parse_header (C ls)) →
  wp (binit ;; initlog me ROOTDEV sb) (λ _ k', idle me pid ls k') kr.
Proof.
  intros Hpo Hp Hpid Hls Hn Ho Hcm Hr C Hs H0 Hw. eapply initlog_wp; [exact Hpo|exact Hp|done..|].
  intros k' _ Hh (V & HC) (bl & Hbl & Hk'). rewrite Hpid in HC. split; rewrite ?Hk'; cbn; try done.
  - eapply cache_ext; [|exact HC]. intros n. symmetry. by eapply cache_clean.
  - by eapply log_wf_nil.
  - by rewrite Hn.
Qed.

(** C1: A file system operation between [begin_op] and [end_op] is atomic: it
    returns with the log idle again, and if the machine stops after any number of
    the disk writes it makes, then the next boot succeeds and recovery leaves, outside the log area,
    either the disk as it was before the operation or as it is after it.  [m] is any routine that
    runs in the transaction without sleeping and writes at most 29 blocks. *)
Theorem transaction_atomic (k : kernel) (m : M kernel unit) :
  idle me pid ls k → wp m (λ _ k2, ∃ hs V, txn me pid ls k2 (kdisk k) hs ∅ V) (begun k) →
  ∃ k' ws, (begin_op me ;; m ;; end_op me) k = Done tt k' ∧ idle me pid ls k' ∧
    kdisk k' = write_all ws (kdisk k) ∧ crash_ok (kdisk k) (kdisk k') ws.
Proof.
  intros Hi Hm.
  assert (wp (begin_op me ;; m ;; end_op me) (λ _ k', ∃ ws, idle me pid ls k' ∧ kdisk k' = write_all ws (kdisk k) ∧
    crash_ok (kdisk k) (kdisk k') ws) k) as Hwp.
  { wp_step. eapply begin_op_wp; [exact Hi|]. wp_step. eapply wp_mono; [exact Hm|].
    intros [] k2 (hs & V & Ht). eapply end_op_wp; [exact Ht|apply Hi|]. intros k' F Hi' HD' HV.
    exists (end_W ls hs V). split_and!; [done|done|]. pose proof (t_cache _ _ _ _ _ _ _ _ Ht) as [_ C _].
    apply crash_ok_end; [apply Ht|exact (ci_size _ _ _ _ _ _ C)|exact (ci_size _ _ _ _ _ _ (ca_inv _ _ _ _ _ _ (id_cache _ _ _ _ Hi)))|apply Hi| |done].
    intros n Hn. rewrite <-(t_disk _ _ _ _ _ _ _ _ Ht). apply (ci_disk _ _ _ _ _ _ C); [by rewrite elem_of_list_to_set|done]. }
  apply wp_elim in Hwp as ([] & k' & Hrun & ws & H1 & H2 & H3). by exists k', ws.
Qed.
End atomic.
