(* ===== verification/Fs.v ===== *)
(** * The file system

    [kernel/fs.c]: block allocation, inodes, file contents, directories, paths. *)

From S2P Require Import Prelude Riscv Memory CString Kalloc Vm State Bytes Sched Printf Bio Log.

(** ** Structures in blocks *)

Definition parse_superblock (d : list Z) : superblock :=
  Superblock (get32 0 d) (get32 4 d) (get32 8 d) (get32 12 d) (get32 16 d) (get32 20 d)
    (get32 24 d) (get32 28 d).

(** The byte offset of inode [inum] in its block. *)
Definition dinode_off (inum : Z) : Z := inum mod IPB * DINODE_SIZE.

(** [struct dinode] at byte [o] of a block, from and to the copy in memory. *)
Definition read_dinode (o : Z) (d : list Z) (ip : inode) : inode :=
  upd_i_addrs (λ _, (λ i, get32 (o + 12 + 4 * i) d) <$> seqZ 0 (NDIRECT + 1))
  (upd_i_size (λ _, get32 (o + 8) d)
  (upd_i_nlink (λ _, s16 (get16 (o + 6) d))
  (upd_i_minor (λ _, s16 (get16 (o + 4) d))
  (upd_i_major (λ _, s16 (get16 (o + 2) d))
  (upd_i_type (λ _, s16 (get16 o d)) ip))))).
Definition write_dinode (o : Z) (ip : inode) (d : list Z) : list Z :=
  put_words (o + 12) (i_addrs ip)
  (put32 (o + 8) (i_size ip)
  (put16 (o + 6) (i_nlink ip)
  (put16 (o + 4) (i_minor ip)
  (put16 (o + 2) (i_major ip)
  (put16 o (i_type ip) d))))).

Section fs.
Context {I : Image} `{SleepFuel} (me : nat).

Definition readsb (dev : Z) : M kernel unit :=
  bp ← bread me dev 1;
  x ← the_buf bp;
  modify (upd_sb (λ _, parse_superblock (b_data x))) ;;
  brelse me bp.

Definition fsinit (dev : Z) : M kernel unit :=
  readsb dev ;;
  s ← gets sb;
  if negb (magic s =? FSMAGIC) then panic "invalid file system" else initlog me dev s.

(** ** Blocks *)

Definition bzero (dev bno : Z) : M kernel unit :=
  bp ← bread me dev (u32 bno);
  set_buf bp (upd_b_data (λ _, replicate (Z.to_nat BSIZE) 0)) ;;
  log_write bp ;;
  brelse me bp.

(** Bit [bi] of a bitmap block. *)
Definition bit_of (bi : Z) (d : list Z) : bool :=
  negb (Z.land (get8 (bi / 8) d) (Z.shiftl 1 (bi mod 8)) =? 0).
Definition set_bit (bi : Z) (d : list Z) : list Z :=
  put8 (bi / 8) (Z.lor (get8 (bi / 8) d) (Z.shiftl 1 (bi mod 8))) d.
Definition clear_bit (bi : Z) (d : list Z) : list Z :=
  put8 (bi / 8) (Z.land (get8 (bi / 8) d) (Z.lnot (Z.shiftl 1 (bi mod 8)))) d.

(** The inner loop of [balloc]: the first [bi] from [bi0] that is free. *)
Fixpoint find_free (n : nat) (bi : Z) (d : list Z) : option Z :=
  match n with
  | O => None
  | S n => if bit_of bi d then find_free n (bi + 1) d else Some bi
  end.

Definition balloc (dev : Z) : M kernel Z :=
  s ← gets sb;
  loopM (S (Z.to_nat (sb_size s / BPB + 1))) (λ b,
    if b <? sb_size s then
      bp ← bread me dev (BBLOCK b s);
      x ← the_buf bp;
      match find_free (Z.to_nat (Z.min BPB (sb_size s - b))) 0 (b_data x) with
      | Some bi =>
          set_buf bp (upd_b_data (set_bit bi)) ;;
          log_write bp ;;
          brelse me bp ;;
          bzero dev (b + bi) ;;
          mret (inr (b + bi))
      | None => brelse me bp ;; mret (inl (b + BPB))
      end
    else printf (line "balloc: out of blocks") [] ;; mret (inr 0)) 0.

Definition bfree (dev b : Z) : M kernel unit :=
  s ← gets sb;
  bp ← bread me dev (BBLOCK b s);
  x ← the_buf bp;
  let bi := b mod BPB in
  if negb (bit_of bi (b_data x)) then panic "freeing free block"
  else
    set_buf bp (upd_b_data (clear_bit bi)) ;;
    log_write bp ;;
    brelse me bp.

(** ** Inodes *)

Definition iinit : M kernel unit := modify (upd_itable (fmap (upd_i_lock (λ _, Sleeplock false 0)))).

Definition iget (dev inum : Z) : M kernel nat :=
  l ← gets itable;
  match list_find (λ ip, 0 < i_ref ip ∧ i_dev ip = dev ∧ i_inum ip = inum) l with
  | Some (i, _) => set_inode i (upd_i_ref (λ r, r + 1)) ;; mret i
  | None =>
      match list_find (λ ip, i_ref ip = 0) l with
      | Some (i, _) =>
          set_inode i (λ ip, upd_i_valid (λ _, false) (upd_i_ref (λ _, 1)
            (upd_i_inum (λ _, inum) (upd_i_dev (λ _, dev) ip)))) ;;
          mret i
      | None => panic "iget: no inodes"
      end
  end.

(** [memset(dip, 0, sizeof( *dip)); dip->type = type]. *)
Definition clear_dinode (o type : Z) (d : list Z) : list Z :=
  put16 o type (splice (Z.to_nat o) (replicate (Z.to_nat DINODE_SIZE) 0) d).

Definition ialloc (dev type : Z) : M kernel (option nat) :=
  s ← gets sb;
  loopM (S (Z.to_nat (ninodes s))) (λ inum,
    if inum <? ninodes s then
      bp ← bread me dev (IBLOCK inum s);
      x ← the_buf bp;
      if s16 (get16 (dinode_off inum) (b_data x)) =? 0 then
        set_buf bp (upd_b_data (clear_dinode (dinode_off inum) type)) ;;
        log_write bp ;;
        brelse me bp ;;
        i ← iget dev inum;
        mret (inr (Some i))
      else brelse me bp ;; mret (inl (inum + 1))
    else printf (line "ialloc: no inodes") [] ;; mret (inr None)) 1.

Definition iupdate (i : nat) : M kernel unit :=
  ip ← the_inode i;
  s ← gets sb;
  bp ← bread me (i_dev ip) (IBLOCK (i_inum ip) s);
  set_buf bp (upd_b_data (write_dinode (dinode_off (i_inum ip)) ip)) ;;
  log_write bp ;;
  brelse me bp.

Definition idup (i : nat) : M kernel nat := set_inode i (upd_i_ref (λ r, r + 1)) ;; mret i.

Definition ilock (ip : option nat) : M kernel unit :=
  match ip with
  | None => panic "ilock"
  | Some i =>
      x ← the_inode i;
      if i_ref x <? 1 then panic "ilock"
      else
        acquiresleep me (InodeLock i) ;;
        x ← the_inode i;
        if i_valid x then mret tt
        else
          s ← gets sb;
          bp ← bread me (i_dev x) (IBLOCK (i_inum x) s);
          d ← the_buf bp;
          set_inode i (read_dinode (dinode_off (i_inum x)) (b_data d)) ;;
          brelse me bp ;;
          set_inode i (upd_i_valid (λ _, true)) ;;
          x ← the_inode i;
          if i_type x =? 0 then panic "ilock: no type" else mret tt
  end.

Definition iunlock (ip : option nat) : M kernel unit :=
  match ip with
  | None => panic "iunlock"
  | Some i =>
      h ← holdingsleep me (InodeLock i);
      x ← the_inode i;
      if negb h || (i_ref x <? 1) then panic "iunlock" else releasesleep me (InodeLock i)
  end.

(** ** File contents *)

(** Entry [n] of [ip->addrs]. *)
Definition addr_of (i : nat) (n : Z) : M kernel Z :=
  ip ← the_inode i;
  match i_addrs ip !! Z.to_nat n with Some a => mret a | None => fault "ip->addrs" end.
Definition set_addr (i : nat) (n a : Z) : M kernel unit :=
  set_inode i (upd_i_addrs (λ l, <[Z.to_nat n := a]> l)).

Definition bmap (i : nat) (bn : Z) : M kernel Z :=
  ip ← the_inode i;
  if bn <? NDIRECT then
    addr ← addr_of i bn;
    if addr =? 0 then
      addr ← balloc (i_dev ip);
      if addr =? 0 then mret 0 else set_addr i bn addr ;; mret addr
    else mret addr
  else
    let bn := bn - NDIRECT in
    if bn <? NINDIRECT then
      addr ← addr_of i NDIRECT;
      addr ← (if addr =? 0 then
                addr ← balloc (i_dev ip);
                if addr =? 0 then mret 0 else set_addr i NDIRECT addr ;; mret addr
              else mret addr);
      if addr =? 0 then mret 0
      else
        bp ← bread me (i_dev ip) addr;
        x ← the_buf bp;
        let a := get32 (4 * bn) (b_data x) in
        addr ← (if a =? 0 then
                  a ← balloc (i_dev ip);
                  (if a =? 0 then mret tt
                   else set_buf bp (upd_b_data (put32 (4 * bn) a)) ;; log_write bp) ;;
                  mret a
                else mret a);
        brelse me bp ;;
        mret addr
    else panic "bmap: out of range".

Definition itrunc (i : nat) : M kernel unit :=
  ip ← the_inode i;
  forM (seqZ 0 NDIRECT) (λ n,
    a ← addr_of i n;
    if a =? 0 then mret tt else bfree (i_dev ip) a ;; set_addr i n 0) ;;
  a ← addr_of i NDIRECT;
  (if a =? 0 then mret tt
   else
     bp ← bread me (i_dev ip) a;
     forM (seqZ 0 NINDIRECT) (λ j,
       x ← the_buf bp;
       let b := get32 (4 * j) (b_data x) in
       if b =? 0 then mret tt else bfree (i_dev ip) b) ;;
     brelse me bp ;;
     bfree (i_dev ip) a ;;
     set_addr i NDIRECT 0) ;;
  set_inode i (upd_i_size (λ _, 0)) ;;
  iupdate i.

Definition iput (i : nat) : M kernel unit :=
  ip ← the_inode i;
  (if (i_ref ip =? 1) && i_valid ip && (i_nlink ip =? 0) then
     acquiresleep me (InodeLock i) ;;
     itrunc i ;;
     set_inode i (upd_i_type (λ _, 0)) ;;
     iupdate i ;;
     set_inode i (upd_i_valid (λ _, false)) ;;
     releasesleep me (InodeLock i)
   else mret tt) ;;
  set_inode i (upd_i_ref (λ r, r - 1)).

Definition iunlockput (i : nat) : M kernel unit := iunlock (Some i) ;; iput i.

(** [struct stat], as the bytes that [filestat] copies out. *)
Definition stati (i : nat) : M kernel (list Z) :=
  ip ← the_inode i;
  mret (le_put 4 (i_dev ip) ++ le_put 4 (i_inum ip) ++ le_put 2 (i_type ip) ++
        le_put 2 (i_nlink ip) ++ le_put 4 0 ++ le_put 8 (i_size ip)).

(** The result of [readi] and the bytes it has delivered, which is what a
    caller that passes the address of a variable finds there. *)
Definition readi_body (i : nat) (n : Z) (st : Z * Z * dst * list Z) :
    M kernel (Z * Z * dst * list Z + Z * list Z) :=
  let '(tot, off, d, acc) := st in
  if tot <? n then
    addr ← bmap i (off / BSIZE);
    if addr =? 0 then mret (inr (tot, acc))
    else
      ip ← the_inode i;
      bp ← bread me (i_dev ip) addr;
      let m := Z.min (n - tot) (BSIZE - off mod BSIZE) in
      x ← the_buf bp;
      let bytes := slice (Z.to_nat (off mod BSIZE)) (Z.to_nat m) (b_data x) in
      r ← either_copyout me d bytes;
      if r =? -1 then brelse me bp ;; mret (inr (-1, acc))
      else brelse me bp ;; mret (inl (u32 (tot + m), u32 (off + m), dst_add d m, acc ++ bytes))
  else mret (inr (tot, acc)).
Definition readi (i : nat) (d : dst) (off n : Z) : M kernel (Z * list Z) :=
  ip ← the_inode i;
  if (i_size ip <? off) || (u32 (off + n) <? off) then mret (0, [])
  else
    let n := if i_size ip <? u32 (off + n) then i_size ip - off else n in
    loopM (S (S (Z.to_nat (n / BSIZE + 1)))) (readi_body i n) (0, off, d, []).

Definition writei_body (i : nat) (n : Z) (st : Z * Z * src) : M kernel (Z * Z * src + Z * Z) :=
  let '(tot, off, s) := st in
  if tot <? n then
    addr ← bmap i (off / BSIZE);
    if addr =? 0 then mret (inr (tot, off))
    else
      ip ← the_inode i;
      bp ← bread me (i_dev ip) addr;
      let m := Z.min (n - tot) (BSIZE - off mod BSIZE) in
      '(r, bytes) ← either_copyin me s m;
      set_buf bp (upd_b_data (splice (Z.to_nat (off mod BSIZE)) bytes)) ;;
      if r =? -1 then brelse me bp ;; mret (inr (tot, off))
      else
        log_write bp ;;
        brelse me bp ;;
        mret (inl (u32 (tot + m), u32 (off + m), src_add s m))
  else mret (inr (tot, off)).
Definition writei (i : nat) (s : src) (off n : Z) : M kernel Z :=
  ip ← the_inode i;
  if (i_size ip <? off) || (u32 (off + n) <? off) then mret (-1)
  else if MAXFILE * BSIZE <? u32 (off + n) then mret (-1)
  else
    '(tot, off) ← loopM (S (S (Z.to_nat (n / BSIZE + 1)))) (writei_body i n) (0, off, s);
    ip ← the_inode i;
    (if i_size ip <? off then set_inode i (upd_i_size (λ _, off)) else mret tt) ;;
    iupdate i ;;
    mret tot.

(** ** Directories *)

(** [struct dirent]. *)
Definition de_inum (de : list Z) : Z := get16 0 de.
Definition de_name (de : list Z) : list Z := slice 2 (Z.to_nat DIRSIZ) de.

(** Names are the bytes of the [char] arrays; [strncmp] stops at [DIRSIZ]. *)
Definition namecmp (s t : list Z) : M kernel Z :=
  match strncmp s t (Z.to_nat DIRSIZ) with Some r => mret r | None => fault "namecmp" end.

(** The inode and the offset of the entry. *)
Definition dirlookup (dp : nat) (name : list Z) : M kernel (option (nat * Z)) :=
  x ← the_inode dp;
  if negb (i_type x =? T_DIR) then panic "dirlookup not DIR"
  else
    loopM (S (Z.to_nat (i_size x / DIRENT_SIZE + 1))) (λ off,
      if off <? i_size x then
        '(r, de) ← readi dp DLocal off DIRENT_SIZE;
        if negb (r =? DIRENT_SIZE) then panic "dirlookup read"
        else if de_inum de =? 0 then mret (inl (u32 (off + DIRENT_SIZE)))
        else
          c ← namecmp name (de_name de);
          if c =? 0 then ip ← iget (i_dev x) (de_inum de); mret (inr (Some (ip, off)))
          else mret (inl (u32 (off + DIRENT_SIZE)))
      else mret (inr None)) 0.

Definition dirlink (dp : nat) (name : list Z) (inum : Z) : M kernel Z :=
  f ← dirlookup dp name;
  match f with
  | Some (ip, _) => iput ip ;; mret (-1)
  | None =>
      x ← the_inode dp;
      (* the offset of an empty entry and the entry read last *)
      '(off, de) ← loopM (S (Z.to_nat (i_size x / DIRENT_SIZE + 1))) (λ st,
        let '(off, de) := st in
        if off <? i_size x then
          '(r, de) ← readi dp DLocal off DIRENT_SIZE;
          if negb (r =? DIRENT_SIZE) then panic "dirlink read"
          else if de_inum de =? 0 then mret (inr (off, de))
          else mret (inl (off + DIRENT_SIZE, de))
        else mret (inr (off, de))) (0, replicate (Z.to_nat DIRENT_SIZE) 0);
      match strncpy (de_name de) name (Z.to_nat DIRSIZ) with
      | None => fault "strncpy"
      | Some nm =>
          w ← writei dp (SLocal (le_put 2 inum ++ nm)) off DIRENT_SIZE;
          if negb (w =? DIRENT_SIZE) then mret (-1) else mret 0
      end
  end.
End fs.

(** ** Paths *)

Definition slash : Z := chr "/".

Fixpoint skip_slashes (p : list Z) : list Z :=
  match p with c :: p' => if c =? slash then skip_slashes p' else p | [] => [] end.
(** The characters up to the next slash or NUL, and the rest. *)
Fixpoint span_elem (p : list Z) : list Z * list Z :=
  match p with
  | c :: p' => if (c =? slash) || (c =? 0) then ([], p)
               else let '(e, r) := span_elem p' in (c :: e, r)
  | [] => ([], [])
  end.

(** [path] is the array from [path] on; [name] the [DIRSIZ] bytes of the array.
    The result is the new [path] and [name], or [None] for a null pointer. *)
Definition skipelem (path name : list Z) : option (list Z * list Z) :=
  let p := skip_slashes path in
  if default 0 (head p) =? 0 then None
  else
    let '(s, r) := span_elem p in
    let len := Z.of_nat (length s) in
    let name := if DIRSIZ <=? len then splice 0 (take (Z.to_nat DIRSIZ) s) name
                else splice 0 (s ++ [0]) name in
    Some (skip_slashes r, name).

Section names.
Context {I : Image} `{SleepFuel} (me : nat).

Definition namex (path : list Z) (nameiparent : bool) (name : list Z) : M kernel (option nat * list Z) :=
  ip ← (if default 0 (head path) =? slash then iget ROOTDEV ROOTINO
        else p ← the_proc me; c ← deref (p_cwd p); idup c);
  loopM (S (length path)) (λ st,
    let '(ip, path, name) := st in
    match skipelem path name with
    | None =>
        if (nameiparent : bool) then iput me ip ;; mret (inr (None, name))
        else mret (inr (Some ip, name))
    | Some (path, name) =>
        ilock me (Some ip) ;;
        x ← the_inode ip;
        if negb (i_type x =? T_DIR) then iunlockput me ip ;; mret (inr (None, name))
        else if nameiparent && (default 0 (head path) =? 0) then
          iunlock me (Some ip) ;; mret (inr (Some ip, name))
        else
          next ← dirlookup me ip name;
          match next with
          | None => iunlockput me ip ;; mret (inr (None, name))
          | Some (next, _) => iunlockput me ip ;; mret (inl (next, path, name))
          end
    end) (ip, path, name).

Definition namei (path : list Z) : M kernel (option nat) :=
  '(ip, _) ← namex path false (replicate (Z.to_nat DIRSIZ) 0); mret ip.
Definition nameiparent (path name : list Z) : M kernel (option nat * list Z) := namex path true name.
End names.
