(* ===== verification/FsBlock.v ===== *)
(** * Block allocation

    [bzero], [balloc] and [bfree] of [kernel/fs.c] as operations on the bitmap,
    inside a transaction. *)

From S2P Require Import Prelude Riscv Memory CString Kalloc Vm State Bytes Printf Sched Bio BioSpec Cache Log LogSpec Crash Txn Fs.

(** ** Bits *)

Lemma get8_put8 o o' v l :
  0 ≤ o → 0 ≤ o' < Z.of_nat (length l) → get8 o (put8 o' v l) = if decide (o = o') then u8 v else get8 o l.
Proof.
  intros Ho Ho'. unfold get8, put8. case_decide as E.
  - subst o'. change 1%nat with (length (le_put 1 v)) at 1. rewrite slice_splice by (cbn; lia). cbn [le_get le_put]. unfold u8. change (2 ^ 8) with 256. lia.
  - rewrite slice_splice_ne; [done|cbn; lia|cbn; lia].
Qed.

Lemma land_bit x j : 0 ≤ j → negb (Z.land x (Z.shiftl 1 j) =? 0) = Z.testbit x j.
Proof.
  intros Hj. rewrite Z.shiftl_1_l. destruct (Z.testbit x j) eqn:E.
  - apply negb_true_iff, Z.eqb_neq. intros H0. assert (Z.testbit (Z.land x (2 ^ j)) j = false) as Hf by (by rewrite H0, Z.bits_0).
    rewrite Z.land_spec, E, Z.pow2_bits_true in Hf by lia. done.
  - apply negb_false_iff, Z.eqb_eq. apply Z.bits_inj'. intros n Hn. rewrite Z.land_spec, Z.bits_0.
    destruct (decide (n = j)) as [->|Hne]; [by rewrite E|]. by rewrite Z.pow2_bits_false, andb_false_r by lia.
Qed.

Lemma u8_testbit v j : 0 ≤ j < 8 → Z.testbit (u8 v) j = Z.testbit v j.
Proof. intros. unfold u8. by rewrite Z.mod_pow2_bits_low by lia. Qed.

Lemma bit_index i j : i / 8 = j / 8 → i mod 8 = j mod 8 → i = j.
Proof. intros. rewrite (Z.div_mod i 8), (Z.div_mod j 8) by lia. congruence. Qed.

Section bits.
Context (i j : Z) (d : list Z).
Hypothesis Hi : 0 ≤ i < 8 * Z.of_nat (length d).
Hypothesis Hj : 0 ≤ j.

Lemma bit_of_testbit : bit_of j d = Z.testbit (get8 (j / 8) d) (j mod 8).
Proof using Hj. unfold bit_of. apply land_bit. apply Z.mod_pos_bound. lia. Qed.

Lemma bit_of_set : bit_of j (set_bit i d) = (i =? j) || bit_of j d.
Proof using Hi Hj.
  pose proof (Z.mod_pos_bound i 8). pose proof (Z.mod_pos_bound j 8). rewrite bit_of_testbit.
  unfold bit_of at 1, set_bit. rewrite land_bit by lia.
  rewrite get8_put8 by (Z.div_mod_to_equations; lia). case_decide as E.
  - rewrite u8_testbit, Z.lor_spec, Z.shiftl_1_l by lia. rewrite <-E. destruct (decide (i mod 8 = j mod 8)) as [Em|Em].
    + rewrite Em, Z.pow2_bits_true by lia. rewrite (bit_index i j (eq_sym E) Em), Z.eqb_refl. by rewrite orb_true_r.
    + rewrite Z.pow2_bits_false by lia. rewrite orb_false_r. destruct (Z.eqb_spec i j); [congruence|done].
  - destruct (Z.eqb_spec i j); [congruence|done].
Qed.

Lemma bit_of_clear : bit_of j (clear_bit i d) = negb (i =? j) && bit_of j d.
Proof using Hi Hj.
  pose proof (Z.mod_pos_bound i 8). pose proof (Z.mod_pos_bound j 8). rewrite bit_of_testbit.
  unfold bit_of at 1, clear_bit. rewrite land_bit by lia.
  rewrite get8_put8 by (Z.div_mod_to_equations; lia). case_decide as E.
  - rewrite u8_testbit, Z.land_spec, Z.lnot_spec, Z.shiftl_1_l by lia. rewrite <-E. destruct (decide (i mod 8 = j mod 8)) as [Em|Em].
    + rewrite Em, Z.pow2_bits_true by lia. rewrite (bit_index i j (eq_sym E) Em), Z.eqb_refl. by rewrite andb_false_r.
    + rewrite Z.pow2_bits_false by lia. rewrite andb_true_r. destruct (Z.eqb_spec i j); [congruence|done].
  - destruct (Z.eqb_spec i j); [congruence|done].
Qed.
End bits.

Lemma length_set_bit i d : 0 ≤ i < 8 * Z.of_nat (length d) → length (set_bit i d) = length d.
Proof. intros Hi. apply length_splice. cbn. Z.div_mod_to_equations; lia. Qed.
Lemma length_clear_bit i d : 0 ≤ i < 8 * Z.of_nat (length d) → length (clear_bit i d) = length d.
Proof. intros Hi. apply length_splice. cbn. Z.div_mod_to_equations; lia. Qed.

(** [find_free]: the first clear bit. *)
Lemma find_free_spec n bi d :
  match find_free n bi d with
  | Some i => bi ≤ i < bi + Z.of_nat n ∧ bit_of i d = false ∧ ∀ j, bi ≤ j < i → bit_of j d = true
  | None => ∀ j, bi ≤ j < bi + Z.of_nat n → bit_of j d = true
  end.
Proof.
  revert bi. induction n as [|n IH]; intros bi; cbn [find_free]; [intros; lia|].
  destruct (bit_of bi d) eqn:E.
  - specialize (IH (bi + 1)). destruct (find_free n (bi + 1) d) as [i|].
    + destruct IH as (Hi & Hf & Ht). split_and!; [lia|lia|done|]. intros j Hj.
      destruct (decide (j = bi)) as [->|]; [done|]. apply Ht. lia.
    + intros j Hj. destruct (decide (j = bi)) as [->|]; [done|]. apply IH. lia.
  - split_and!; [lia|lia|done|]. lia.
Qed.

(** ** The bitmap *)

Definition zero_block : list Z := replicate (Z.to_nat BSIZE) 0.

(** Also the console may change. *)
Record fframe (k k' : kernel) : Prop := {
  ff_rest : k' = upd_uart (λ _, uart k') (upd_procs (λ _, procs k') (upd_bcache (λ _, bcache k')
    (upd_kdisk (λ _, kdisk k') (upd_klog (λ _, klog k') k))));
  ff_procs : Forall2 woken (procs k) (procs k');
}.
#[global] Instance fframe_refl : Reflexive fframe.
Proof. intros k. split; [by destruct k|done]. Qed.
#[global] Instance fframe_trans : Transitive fframe.
Proof. intros k1 k2 k3 [R1 P1] [R2 P2]. split; [|by etrans]. rewrite R2, R1. by destruct k1. Qed.
Lemma fframe_tframe k k' : tframe k k' → fframe k k'.
Proof. intros [R P]. split; [|done]. rewrite R. by destruct k. Qed.
Lemma fframe_bframe k k' : bframe k k' → fframe k k'.
Proof. intros. by apply fframe_tframe, tframe_bframe. Qed.
Lemma fframe_uart k u : fframe k (upd_uart (λ _, u) k).
Proof. split; [by destruct k|done]. Qed.
Lemma fframe_sb k k' : fframe k k' → sb k' = sb k.
Proof. by intros [-> _]. Qed.
Lemma fframe_itable k k' : fframe k k' → itable k' = itable k.
Proof. by intros [-> _]. Qed.
Lemma fframe_mach k k' : fframe k k' → mach k' = mach k.
Proof. by intros [-> _]. Qed.

Section fsblock.
Context {I : Image} `{SleepFuel} (me : nat) (pid : Z) (S : superblock).
Notation ls := (logstart S).
Notation txn := (txn me pid (logstart S)).

(** A block that a transaction may write. *)
Definition block_ok (n : Z) : Prop := 0 ≤ n < 2 ^ 31 ∧ outside ls n.

Record layout : Prop := {
  ly_start : 0 ≤ ls;
  ly_bmap : ls + LOGSIZE ≤ bmapstart S;
  ly_top : bmapstart S + sb_size S / BPB < 2 ^ 31;
  ly_size : 0 < sb_size S < 2 ^ 31;
}.

(** Is block [n] marked as in use? *)
Definition used (V : Z → list Z) (n : Z) : bool := bit_of (n mod BPB) (V (BBLOCK n S)).

Lemma BBLOCK_val n : layout → 0 ≤ n < sb_size S → BBLOCK n S = n / BPB + bmapstart S ∧ block_ok (BBLOCK n S).
Proof.
  intros [H1 H2 H3 H4] Hn. assert (0 ≤ n / BPB ≤ sb_size S / BPB) as Hd.
  { change BPB with 8192. split; [apply Z.div_pos; lia|apply Z.div_le_mono; lia]. }
  unfold block_ok, outside, BBLOCK. fs_consts. rewrite u32_id by lia. split; [done|]. lia.
Qed.

Lemma txn_uart k D hs held V u : txn k D hs held V → txn (upd_uart (λ _, u) k) D hs held V.
Proof.
  intros [[[l Hl] C Hm] Hw Hr Hs Ho Hc HD]. split; try done. split; [exists l; by apply (dll_bcache k)|done|done].
Qed.

Lemma elem_log_add hs b n : n ∈ log_add hs b ↔ n = b ∨ n ∈ hs.
Proof. unfold log_add. case_decide; set_solver. Qed.
Lemma length_log_add hs b : (length (log_add hs b) ≤ length hs + 1)%nat.
Proof. unfold log_add. case_decide; [lia|]. rewrite length_app. cbn. lia. Qed.

(** Changing one block: read it, change the buffer, log it, release it. *)
Lemma update_wp k D hs held V bno f (Q : unit → kernel → Prop) :
  txn k D hs held V → block_ok bno → held !! bno = None → (length hs + size held < 29)%nat →
  length (f (V bno)) = Z.to_nat BSIZE →
  (∀ k', tframe k k' → txn k' D (log_add hs bno) held (<[bno := f (V bno)]> V) → Q tt k') →
  wp (bp ← bread me ROOTDEV bno; set_buf bp (upd_b_data f) ;; log_write bp ;; brelse me bp) Q k.
Proof.
  intros Ht [Hb Ho] Hnh Hl Hf HQ. wp_step. eapply txn_bread; [exact Ht|done|fs_consts; lia|].
  intros b k1 F1 T1. wp_step. eapply txn_data; [exact T1|apply lookup_insert_eq|done|]. intros k2 F2 T2.
  wp_step. eapply txn_log_write; [exact T2|apply lookup_insert_eq|done|done|lia|]. intros k3 F3 T3.
  eapply txn_brelse; [exact T3|apply lookup_insert_eq|left; rewrite elem_log_add; by left|].
  intros k4 F4 T4. rewrite delete_insert_id in T4 by done. apply HQ; [|done].
  etrans; [apply tframe_bframe, F1|]. etrans; [apply tframe_bframe, F2|]. etrans; [exact F3|by apply tframe_bframe].
Qed.

(** Reading one block. *)
Lemma txn_clean k D hs held V n : txn k D hs held V → held !! n = None → n ∈ hs ∨ V n = disk_block D n.
Proof.
  intros Ht Hh. destruct (decide (n ∈ hs)) as [Hn|Hn]; [by left|right]. rewrite <-(t_disk _ _ _ _ _ _ _ _ Ht).
  pose proof (t_cache _ _ _ _ _ _ _ _ Ht) as [_ C _]. apply (ci_disk _ _ _ _ _ _ C); [by rewrite elem_of_list_to_set|done].
Qed.
Lemma peek_wp {A} k D hs held V bno (m : nat → list Z → M kernel A) (Q : A → kernel → Prop) :
  txn k D hs held V → held !! bno = None → (length hs + size held < Z.to_nat NBUF)%nat →
  (∀ b k', bframe k k' → txn k' D hs (<[bno := b]> held) V → wp (m b (V bno)) Q k') →
  wp (bp ← bread me ROOTDEV bno; x ← the_buf bp; m bp (b_data x)) Q k.
Proof.
  intros Ht Hh Hl HQ. wp_step. eapply txn_bread; [exact Ht|done|lia|].
  intros b k1 F1 T1. wp_step.
  eapply the_held_wp; [apply T1|apply lookup_insert_eq|]. intros x _ _ ->. by apply HQ.
Qed.

Lemma bzero_wp k D hs held V bno (Q : unit → kernel → Prop) :
  txn k D hs held V → block_ok bno → held !! bno = None → (length hs + size held < 29)%nat →
  (∀ k', tframe k k' → txn k' D (log_add hs bno) held (<[bno := zero_block]> V) → Q tt k') →
  wp (bzero me ROOTDEV bno) Q k.
Proof.
  intros Ht Hb Hh Hl HQ. unfold bzero. rewrite u32_id by (destruct Hb; lia).
  eapply (update_wp _ _ _ _ _ _ (λ _, zero_block)); [done..|apply length_replicate|exact HQ].
Qed.

(** The part of the bitmap in one block: bits [b] to [b + BPB - 1]. *)
Lemma used_chunk V b bi :
  b mod BPB = 0 → 0 ≤ bi < BPB → used V (b + bi) = bit_of bi (V (BBLOCK b S)) ∧ BBLOCK (b + bi) S = BBLOCK b S.
Proof.
  intros Hb Hbi. assert ((b + bi) mod BPB = bi ∧ (b + bi) / BPB = b / BPB) as [Hm Hd].
  { change BPB with 8192 in *. split; Z.div_mod_to_equations; lia. }
  unfold used, BBLOCK. by rewrite Hm, Hd.
Qed.

(** The blocks before the data area. *)
Definition data_start : Z := bmapstart S + sb_size S / BPB + 1.
Definition meta_used (V : Z → list Z) : Prop := ∀ n, 0 ≤ n < data_start → n < sb_size S → used V n = true.
Definition is_data (n : Z) : Prop := data_start ≤ n < sb_size S.

Definition alloc_V (V : Z → list Z) (r : Z) : Z → list Z :=
  <[r := zero_block]> (<[BBLOCK r S := set_bit (r mod BPB) (V (BBLOCK r S))]> V).

Lemma data_start_big : layout → ls + LOGSIZE ≤ data_start ∧ ∀ n, 0 ≤ n < sb_size S → BBLOCK n S < data_start.
Proof.
  intros Hly. pose proof Hly as [H1 H2 H3 H4]. assert (0 ≤ sb_size S / BPB) by (apply Z.div_pos; [lia|done]).
  unfold data_start. split; [lia|]. intros n Hn. destruct (BBLOCK_val n Hly Hn) as [-> _].
  assert (n / BPB ≤ sb_size S / BPB) by (apply Z.div_le_mono; [done|lia]). lia.
Qed.

Lemma data_block_ok n : layout → is_data n → block_ok n.
Proof.
  intros Hly Hn. destruct (data_start_big Hly) as [H1 _]. pose proof (ly_size Hly). pose proof (ly_start Hly).
  unfold is_data in Hn. unfold block_ok, outside. fs_consts. lia.
Qed.

(** The buffers held by the caller belong to blocks in use. *)
Definition held_used (V : Z → list Z) (held : gmap Z nat) : Prop :=
  ∀ n b, held !! n = Some b → is_data n ∧ used V n = true.

Lemma balloc_wp k D hs held V (Q : Z → kernel → Prop) :
  layout → sb k = S → txn k D hs held V → held_used V held → (length hs + size held < 28)%nat → meta_used V →
  (∀ k', fframe k k' → txn k' D hs held V → (∀ n, 0 ≤ n < sb_size S → used V n = true) → Q 0 k') →
  (∀ r k', fframe k k' → is_data r → used V r = false → (∀ n, 0 ≤ n < r → used V n = true) →
    txn k' D (log_add (log_add hs (BBLOCK r S)) r) held (alloc_V V r) → Q r k') →
  wp (balloc me ROOTDEV) Q k.
Proof.
  intros Hly Hsb Ht Hhu Hl Hmeta Hfail Hok. unfold balloc. wp_step. wp_step. rewrite Hsb.
  assert (BPB = 8192) as HBPB by done. pose proof (ly_size Hly) as Hsz.
  eapply (wp_loop _ (λ b k1, fframe k k1 ∧ txn k1 D hs held V ∧ b mod BPB = 0 ∧ 0 ≤ b ∧
            ∀ n, 0 ≤ n < b → n < sb_size S → used V n = true) (λ b, Z.to_nat ((sb_size S - b) / BPB + 1))).
  { rewrite Z.sub_0_r. lia. }
  { split_and!; [done|done|done|done|lia]. }
  intros b k1 (F1 & T1 & Hb & Hb0 & Hus). case_if Hlt.
  2:{ wp_step. eapply prints_wp; [apply prints_plain; reflexivity|]. intros u. wp_step. apply Hfail.
      - etrans; [exact F1|apply fframe_uart].
      - by apply txn_uart.
      - intros n Hn. apply Hus; lia. }
  destruct (BBLOCK_val b Hly) as [_ Hbok]; [lia|].
  assert (held !! BBLOCK b S = None) as HhB.
  { destruct (held !! BBLOCK b S) as [x|] eqn:E; [|done]. destruct (Hhu _ _ E) as [[Hge _] _].
    destruct (data_start_big Hly) as [_ HB]. specialize (HB b ltac:(lia)). lia. }
  eapply (peek_wp _ _ _ _ _ _ (λ bp d, match find_free _ 0 d with Some bi => _ | None => _ end)); [exact T1|exact HhB|fs_consts; lia|].
  intros bp k2 F2 T2. pose proof (ci_size _ _ _ _ _ _ (ca_inv _ _ _ _ _ _ (t_cache _ _ _ _ _ _ _ _ T1))) as Hsize.
  pose proof (find_free_spec (Z.to_nat (Z.min BPB (sb_size S - b))) 0 (V (BBLOCK b S))) as Hff.
  destruct (find_free _ 0 _) as [bi|].
  - destruct Hff as (Hbi & Hfree & Hbefore). rewrite Z2Nat.id, Z.add_0_l in Hbi by lia.
    destruct (used_chunk V b bi Hb) as [Hu HB]; [lia|].
    wp_step. eapply txn_data; [exact T2|apply lookup_insert_eq|..].
    { rewrite length_set_bit; [apply Hsize|]. rewrite Hsize. fs_consts. lia. }
    intros k3 F3 T3. wp_step.
    eapply txn_log_write; [exact T3|apply lookup_insert_eq|apply Hbok|apply Hbok|lia|]. intros k4 F4 T4. wp_step.
    eapply txn_brelse; [exact T4|apply lookup_insert_eq|left; rewrite elem_log_add; by left|].
    intros k5 F5 T5. rewrite delete_insert_id in T5 by done. wp_step.
    assert (is_data (b + bi)) as Hout.
    { split; [|lia]. destruct (decide (b + bi < data_start)); [|lia]. rewrite Hmeta in Hu by lia. congruence. }
    pose proof (data_start_big Hly).
    pose proof (length_log_add hs (BBLOCK b S)).
    eapply bzero_wp; [exact T5|by apply data_block_ok| |lia|].
    { destruct (held !! (b + bi)) as [x|] eqn:E; [|done]. destruct (Hhu _ _ E) as [_ Hu']. congruence. } intros k6 F6 T6. wp_step. apply Hok.
    + etrans; [exact F1|]. etrans; [apply fframe_bframe, F2|]. etrans; [apply fframe_bframe, F3|].
      etrans; [apply fframe_tframe, F4|]. etrans; [apply fframe_bframe, F5|by apply fframe_tframe].
    + done.
    + by rewrite Hu.
    + intros n Hn. destruct (decide (n < b)); [apply Hus; lia|].
      replace n with (b + (n - b)) by lia. destruct (used_chunk V b (n - b) Hb) as [-> _]; [lia|]. apply Hbefore. lia.
    + unfold alloc_V. rewrite HB. replace ((b + bi) mod BPB) with bi; [done|].
      change BPB with 8192 in *. Z.div_mod_to_equations; lia.
  - wp_step. eapply txn_brelse; [exact T2|apply lookup_insert_eq|eapply txn_clean; [exact T1|done]|].
    intros k3 F3 T3. rewrite delete_insert_id in T3 by done. wp_step. split.
    + split_and!; [etrans; [exact F1|]; etrans; [apply fframe_bframe, F2|by apply fframe_bframe]|done| |lia|].
      * change BPB with 8192 in *. Z.div_mod_to_equations; lia.
      * intros n Hn Hns. destruct (decide (n < b)); [apply Hus; lia|].
        replace n with (b + (n - b)) by lia. destruct (used_chunk V b (n - b) Hb) as [-> _]; [lia|]. apply Hff. lia.
    + change BPB with 8192 in *. Z.div_mod_to_equations; lia.
Qed.

Lemma bfree_wp k D hs V b (Q : unit → kernel → Prop) :
  layout → sb k = S → txn k D hs ∅ V → (length hs < 29)%nat → 0 ≤ b < sb_size S → used V b = true →
  (∀ k', tframe k k' →
    txn k' D (log_add hs (BBLOCK b S)) ∅ (<[BBLOCK b S := clear_bit (b mod BPB) (V (BBLOCK b S))]> V) → Q tt k') →
  wp (bfree me ROOTDEV b) Q k.
Proof.
  intros Hly Hsb Ht Hl Hb Hu HQ. unfold bfree. wp_step. wp_step. rewrite Hsb.
  destruct (BBLOCK_val b Hly Hb) as [_ [Hb1 Hb2]].
  eapply (peek_wp _ _ _ _ _ _ (λ bp d, if negb (bit_of (b mod BPB) d) then _ else _)); [exact Ht|done|rewrite map_size_empty; fs_consts; lia|].
  intros bp k1 F1 T1. unfold used in Hu. rewrite Hu. cbn [negb].
  pose proof (ci_size _ _ _ _ _ _ (ca_inv _ _ _ _ _ _ (t_cache _ _ _ _ _ _ _ _ Ht))) as Hsize.
  wp_step. eapply txn_data; [exact T1|apply lookup_insert_eq|..].
  { rewrite length_clear_bit; [apply Hsize|]. rewrite Hsize. pose proof (Z.mod_pos_bound b BPB).
    change BPB with 8192 in *. fs_consts. lia. }
  intros k2 F2 T2. wp_step. eapply txn_log_write; [exact T2|apply lookup_insert_eq|done|done|done|]. intros k3 F3 T3.
  eapply txn_brelse; [exact T3|apply lookup_insert_eq|left; rewrite elem_log_add; by left|].
  intros k4 F4 T4. rewrite delete_insert_id in T4 by done. apply HQ; [|done].
  etrans; [apply tframe_bframe, F1|]. etrans; [apply tframe_bframe, F2|]. etrans; [exact F3|by apply tframe_bframe].
Qed.

(** ** What they do to the bitmap *)

Lemma bit_range n V : sized V → 0 ≤ n mod BPB < 8 * Z.of_nat (length (V (BBLOCK n S))).
Proof. intros HV. rewrite HV. pose proof (Z.mod_pos_bound n BPB). change BPB with 8192 in *. fs_consts. lia. Qed.

Lemma BBLOCK_inj a b : layout → 0 ≤ a < sb_size S → 0 ≤ b < sb_size S → BBLOCK a S = BBLOCK b S → a mod BPB = b mod BPB → a = b.
Proof.
  intros Hly Ha Hb. destruct (BBLOCK_val a Hly Ha) as [-> _]. destruct (BBLOCK_val b Hly Hb) as [-> _]. intros Hd Hm.
  rewrite (Z.div_mod a BPB), (Z.div_mod b BPB) by done. assert (a / BPB = b / BPB) by lia. congruence.
Qed.

Lemma used_alloc V r n :
  layout → sized V → is_data r → 0 ≤ n < sb_size S →
  used (alloc_V V r) n = (n =? r) || used V n.
Proof.
  intros Hly HV Hr Hn. destruct (data_start_big Hly) as [Hls HB]. unfold is_data in Hr. unfold used at 1, alloc_V.
  assert (0 ≤ r < sb_size S) as Hr' by (pose proof (ly_start Hly); fs_consts; lia).
  pose proof (HB n Hn). rewrite fn_lookup_insert_ne by lia.
  destruct (decide (BBLOCK n S = BBLOCK r S)) as [E|E].
  - rewrite E, fn_lookup_insert. rewrite bit_of_set by (try apply bit_range; try done; apply Z.mod_pos_bound; done).
    unfold used. rewrite E. f_equal. destruct (Z.eqb_spec n r) as [->|Hne]; [apply Z.eqb_refl|].
    apply Z.eqb_neq. intros Hm. apply Hne. by apply BBLOCK_inj.
  - rewrite fn_lookup_insert_ne by done. destruct (Z.eqb_spec n r) as [->|Hne]; [done|]. done.
Qed.

Lemma used_free V b n :
  layout → sized V → 0 ≤ b < sb_size S → 0 ≤ n < sb_size S →
  used (<[BBLOCK b S := clear_bit (b mod BPB) (V (BBLOCK b S))]> V) n = negb (n =? b) && used V n.
Proof.
  intros Hly HV Hb Hn. unfold used at 1. destruct (decide (BBLOCK n S = BBLOCK b S)) as [E|E].
  - rewrite E, fn_lookup_insert. rewrite bit_of_clear by (try apply bit_range; try done; apply Z.mod_pos_bound; done).
    unfold used. rewrite E. f_equal. f_equal. destruct (Z.eqb_spec n b) as [->|Hne]; [apply Z.eqb_refl|].
    apply Z.eqb_neq. intros Hm. apply Hne. by apply BBLOCK_inj.
  - rewrite fn_lookup_insert_ne by done. destruct (Z.eqb_spec n b) as [->|Hne]; [done|]. done.
Qed.

Lemma alloc_V_data V r n : n ≠ r → n ≠ BBLOCK r S → alloc_V V r n = V n.
Proof. intros. unfold alloc_V. by rewrite !fn_lookup_insert_ne. Qed.
Lemma alloc_V_new V r : alloc_V V r r = zero_block.
Proof. unfold alloc_V. by rewrite fn_lookup_insert. Qed.

(** [balloc] returns the lowest free block, zeroed and marked in use, and
    changes nothing else; when no block is free it returns 0 and changes
    nothing.  It never panics. *)
Theorem balloc_spec k D hs V :
  layout → sb k = S → txn k D hs ∅ V → (length hs < 28)%nat → meta_used V →
  ∃ r k' hs' V', balloc me ROOTDEV k = Done r k' ∧ txn k' D hs' ∅ V' ∧
    (r = 0 ∧ (∀ n, 0 ≤ n < sb_size S → used V n = true) ∧ (∀ n, V' n = V n) ∨
     is_data r ∧ used V r = false ∧ (∀ n, 0 ≤ n < r → used V n = true) ∧
     V' r = zero_block ∧ (∀ n, 0 ≤ n < sb_size S → used V' n = (n =? r) || used V n) ∧
     (∀ n, n ≠ r → n ≠ BBLOCK r S → V' n = V n)).
Proof.
  intros Hly Hsb Ht Hl Hm. pose proof (ci_size _ _ _ _ _ _ (ca_inv _ _ _ _ _ _ (t_cache _ _ _ _ _ _ _ _ Ht))) as Hsize.
  assert (wp (balloc me ROOTDEV) (λ r k', ∃ hs' V', txn k' D hs' ∅ V' ∧
    (r = 0 ∧ (∀ n, 0 ≤ n < sb_size S → used V n = true) ∧ (∀ n, V' n = V n) ∨
     is_data r ∧ used V r = false ∧ (∀ n, 0 ≤ n < r → used V n = true) ∧
     V' r = zero_block ∧ (∀ n, 0 ≤ n < sb_size S → used V' n = (n =? r) || used V n) ∧
     (∀ n, n ≠ r → n ≠ BBLOCK r S → V' n = V n))) k) as Hwp.
  { eapply balloc_wp; [done|done|exact Ht|done|rewrite map_size_empty; lia|done| |].
    - intros k' _ T' Hall. exists hs, V. split; [done|]. by left.
    - intros r k' _ Hr Hf Hlow T'. eexists _, _. split; [exact T'|]. right. split_and!; [apply Hr..|done|done|apply alloc_V_new| |].
      + intros n Hn. by apply used_alloc.
      + intros n H1 H2. by apply alloc_V_data. }
  apply wp_elim in Hwp as (r & k' & Hrun & hs' & V' & H1 & H2). by exists r, k', hs', V'.
Qed.

(** Freeing the block that [balloc] returned gives back the bitmap: every block is
    in use exactly when it was before. *)
Theorem balloc_bfree k D hs V :
  layout → sb k = S → txn k D hs ∅ V → (length hs < 26)%nat → meta_used V →
  (∃ n, 0 ≤ n < sb_size S ∧ used V n = false) →
  ∃ k' hs' V', (r ← balloc me ROOTDEV; bfree me ROOTDEV r) k = Done tt k' ∧ txn k' D hs' ∅ V' ∧
    ∀ n, 0 ≤ n < sb_size S → used V' n = used V n.
Proof.
  intros Hly Hsb Ht Hl Hm (n0 & Hn0 & Hf0).
  pose proof (ci_size _ _ _ _ _ _ (ca_inv _ _ _ _ _ _ (t_cache _ _ _ _ _ _ _ _ Ht))) as Hsize.
  assert (wp (r ← balloc me ROOTDEV; bfree me ROOTDEV r) (λ _ k', ∃ hs' V', txn k' D hs' ∅ V' ∧
    ∀ n, 0 ≤ n < sb_size S → used V' n = used V n) k) as Hwp.
  { wp_step. eapply balloc_wp; [done|done|exact Ht|done|rewrite map_size_empty; lia|done| |].
    { intros k' _ _ Hall. by rewrite Hall in Hf0. }
    intros r k1 F1 Hr Hf _ T1. assert (0 ≤ r < sb_size S) as Hr'.
    { destruct (data_start_big Hly). pose proof (ly_start Hly). unfold is_data in Hr. fs_consts. lia. }
    pose proof (ci_size _ _ _ _ _ _ (ca_inv _ _ _ _ _ _ (t_cache _ _ _ _ _ _ _ _ T1))) as Hsize1.
    pose proof (length_log_add (log_add hs (BBLOCK r S)) r). pose proof (length_log_add hs (BBLOCK r S)).
    eapply bfree_wp; [done|by rewrite (fframe_sb _ _ F1)|exact T1|lia|done| |].
    { by rewrite used_alloc, Z.eqb_refl. }
    intros k2 F2 T2. eexists _, _. split; [exact T2|]. intros n Hn. rewrite used_free, used_alloc by done.
    destruct (Z.eqb_spec n r) as [->|Hne]; [by rewrite Hf|done]. }
  apply wp_elim in Hwp as ([] & k' & Hrun & hs' & V' & H1 & H2). by exists k', hs', V'.
Qed.
End fsblock.
