(* ===== verification/FsFile.v ===== *)
(** * File contents

    [bmap], [readi] and [writei] of [kernel/fs.c]: the block map of an inode and
    the bytes of a file, inside a transaction. *)

From S2P Require Import Prelude Riscv Memory CString Kalloc Vm State Bytes Printf Sched Bio BioSpec Cache Log LogSpec Crash Txn Fs FsBlock.

(** ** The block map *)

(** The 32-bit words of a block. *)
Definition words (d : list Z) : list Z := (λ i, get32 (4 * i) d) <$> seqZ 0 NINDIRECT.

(** The number of the indirect block, and of the data blocks; 0 is none. *)
Definition ind_of (ip : inode) : Z := default 0 (i_addrs ip !! Z.to_nat NDIRECT).
Definition slots (V : Z → list Z) (ip : inode) : list Z :=
  take (Z.to_nat NDIRECT) (i_addrs ip) ++
  (if decide (ind_of ip = 0) then replicate (Z.to_nat NINDIRECT) 0 else words (V (ind_of ip))).

Lemma length_words d : length (words d) = Z.to_nat NINDIRECT.
Proof. unfold words. by rewrite length_fmap, length_seqZ. Qed.
Lemma words_lookup d i : 0 ≤ i < NINDIRECT → words d !! Z.to_nat i = Some (get32 (4 * i) d).
Proof. intros Hi. unfold words. rewrite list_lookup_fmap, lookup_seqZ_lt by lia. cbn. do 3 f_equal. lia. Qed.

Lemma get32_zero o : 0 ≤ o → get32 o zero_block = 0.
Proof.
  intros Ho. unfold get32, slice, zero_block.
  assert (∀ n m, le_get (take n (replicate m 0)) = 0) as Hz.
  { induction n as [|n IH]; intros [|m]; cbn; try done. by rewrite IH. }
  by rewrite drop_replicate, Hz.
Qed.
Lemma words_zero : words zero_block = replicate (Z.to_nat NINDIRECT) 0.
Proof.
  apply list_eq. intros i. destruct (decide (i < Z.to_nat NINDIRECT)%nat) as [Hi|Hi].
  - rewrite lookup_replicate_2 by done. rewrite <-(Nat2Z.id i), words_lookup by lia. by rewrite get32_zero by lia.
  - rewrite !lookup_ge_None_2; [done|rewrite length_replicate; lia|rewrite length_words; lia].
Qed.
Lemma words_put d i v :
  length d = Z.to_nat BSIZE → 0 ≤ i < NINDIRECT → 0 ≤ v < 2 ^ 32 →
  words (put32 (4 * i) v d) = <[Z.to_nat i := v]> (words d).
Proof.
  intros Hd Hi Hv. change NINDIRECT with 256 in Hi. change (Z.to_nat BSIZE) with 1024%nat in Hd.
  apply list_eq. intros j. destruct (decide (j < 256)%nat) as [Hj|Hj].
  - replace j with (Z.to_nat (Z.of_nat j)) at 1 by lia. rewrite words_lookup by (change NINDIRECT with 256; lia).
    destruct (decide (Z.to_nat i = j)) as [<-|Hne].
    + rewrite list_lookup_insert_eq by (rewrite length_words; change (Z.to_nat NINDIRECT) with 256%nat; lia).
      rewrite Z2Nat.id by lia. by rewrite get32_put32 by lia.
    + rewrite list_lookup_insert_ne by done. replace j with (Z.to_nat (Z.of_nat j)) at 2 by lia.
      rewrite words_lookup by (change NINDIRECT with 256; lia). by rewrite get32_put32_ne by lia.
  - rewrite !lookup_ge_None_2; [done|rewrite length_insert, length_words; change (Z.to_nat NINDIRECT) with 256%nat; lia|
      rewrite length_words; change (Z.to_nat NINDIRECT) with 256%nat; lia].
Qed.

Section fsfile.
Context {I : Image} `{SleepFuel} (me : nat) (pid : Z) (S : superblock).
Notation ls := (logstart S).
Notation txn := (txn me pid (logstart S)).

(** A well-formed inode: its blocks are in the data area, in use, and distinct. *)
Record file_ok (V : Z → list Z) (ip : inode) : Prop := {
  fo_dev : i_dev ip = ROOTDEV;
  fo_len : length (i_addrs ip) = Z.to_nat (NDIRECT + 1);
  fo_nodup : NoDup (filter (λ b, b ≠ 0) (ind_of ip :: slots V ip));
  fo_data : ∀ b, b ∈ ind_of ip :: slots V ip → b ≠ 0 → is_data S b ∧ used S V b = true;
}.

Lemma length_slots V ip : file_ok V ip → length (slots V ip) = Z.to_nat MAXFILE.
Proof.
  intros Hf. unfold slots. rewrite length_app, length_take, (fo_len _ _ Hf).
  case_decide; rewrite ?length_replicate, ?length_words; done.
Qed.

Lemma addr_of_wp k i ip n a (Q : Z → kernel → Prop) :
  itable k !! i = Some ip → i_addrs ip !! Z.to_nat n = Some a → Q a k → wp (addr_of i n) Q k.
Proof. intros Hi Ha HQ. unfold addr_of. wp_step. eapply wp_at_idx; [exact Hi|]. rewrite Ha. by wp_step. Qed.

Lemma slots_direct V ip bn :
  file_ok V ip → 0 ≤ bn < NDIRECT → slots V ip !! Z.to_nat bn = i_addrs ip !! Z.to_nat bn.
Proof.
  intros Hf Hb. unfold slots. rewrite lookup_app_l.
  - apply lookup_take_lt. change NDIRECT with 12 in *. lia.
  - rewrite length_take, (fo_len _ _ Hf). change NDIRECT with 12 in *. lia.
Qed.
Lemma slots_indirect V ip bn :
  file_ok V ip → NDIRECT ≤ bn < MAXFILE →
  slots V ip !! Z.to_nat bn = Some (if decide (ind_of ip = 0) then 0 else get32 (4 * (bn - NDIRECT)) (V (ind_of ip))).
Proof.
  intros Hf Hb. unfold slots. change MAXFILE with 268 in *. change NDIRECT with 12 in *.
  assert (length (take (Z.to_nat 12) (i_addrs ip)) = 12%nat) as Hl by (rewrite length_take, (fo_len _ _ Hf); done).
  rewrite lookup_app_r by lia. rewrite Hl. replace (Z.to_nat bn - 12)%nat with (Z.to_nat (bn - 12)) by lia.
  case_decide; [apply lookup_replicate_2; change (Z.to_nat NINDIRECT) with 256%nat; lia|].
  apply words_lookup. change NINDIRECT with 256. lia.
Qed.

Lemma ind_lookup V ip : file_ok V ip → i_addrs ip !! Z.to_nat NDIRECT = Some (ind_of ip).
Proof.
  intros Hf. unfold ind_of. destruct (lookup_lt_is_Some_2 (i_addrs ip) (Z.to_nat NDIRECT)) as [a ->]; [|done].
  rewrite (fo_len _ _ Hf). change NDIRECT with 12. lia.
Qed.

(** The blocks of the file keep their contents when others change. *)
Lemma file_ok_ext V V' ip :
  file_ok V ip → (∀ b, is_data S b → used S V b = true → V' b = V b) →
  (∀ b, is_data S b → used S V b = true → used S V' b = true) → file_ok V' ip ∧ slots V' ip = slots V ip.
Proof.
  intros Hf HV HU. assert (slots V' ip = slots V ip) as E.
  { unfold slots. case_decide; [done|]. f_equal. f_equal. apply HV; apply (fo_data _ _ Hf); [left|done|left|done]. }
  split; [|done]. destruct Hf as [H1 H2 H3 H4]. split; [done|done|by rewrite E|]. rewrite E. intros b Hb Hn.
  destruct (H4 b Hb Hn) as [Hd Hu]. split; [done|]. by apply HU.
Qed.

Lemma data_range n : layout S → is_data S n → 0 ≤ n < sb_size S ∧ 0 < n.
Proof. intros Hly Hn. destruct (data_start_big S Hly). pose proof (ly_start _ Hly). unfold is_data in Hn. fs_consts. lia. Qed.

Lemma alloc_keeps V r b :
  layout S → is_data S r → used S V r = false → is_data S b → used S V b = true → alloc_V S V r b = V b.
Proof.
  intros Hly Hr Hf Hb Hu. apply alloc_V_data; [congruence|]. destruct (data_start_big S Hly) as [_ HB].
  destruct (data_range r Hly Hr) as [Hr' _]. pose proof (HB r Hr'). unfold is_data in Hb. lia.
Qed.
Lemma alloc_used V r b :
  layout S → sized V → is_data S r → is_data S b → used S V b = true → used S (alloc_V S V r) b = true.
Proof.
  intros Hly HV Hr Hb Hu. destruct (data_range b Hly Hb). rewrite used_alloc by done. rewrite Hu. apply orb_true_r.
Qed.

(** ** Adding a block to a file *)

Lemma filter_insert_zero (l : list Z) n r :
  l !! n = Some 0 → r ≠ 0 → filter (λ b, b ≠ 0) (<[n := r]> l) ≡ₚ r :: filter (λ b, b ≠ 0) l.
Proof.
  revert n. induction l as [|x l IH]; intros n Hn Hr; [done|]. destruct n as [|n]; cbn in Hn.
  - injection Hn as ->. cbn [insert list_insert]. by rewrite filter_cons_True, filter_cons_False by auto.
  - cbn [insert list_insert]. destruct (decide (x = 0)) as [->|Hx].
    + rewrite !filter_cons_False by auto. by apply IH.
    + rewrite !filter_cons_True by auto. rewrite (IH n Hn Hr). constructor.
Qed.

Lemma new_not_in V ip r : file_ok V ip → used S V r = false → r ≠ 0 → r ∉ ind_of ip :: slots V ip.
Proof. intros Hf Hu Hr Hin. destruct (fo_data _ _ Hf r Hin Hr) as [_ ?]. congruence. Qed.

Lemma add_slot_ok V ip n r V' ip' :
  layout S → file_ok V ip → slots V ip !! n = Some 0 → is_data S r → used S V r = false →
  i_dev ip' = ROOTDEV → length (i_addrs ip') = Z.to_nat (NDIRECT + 1) → ind_of ip' = ind_of ip →
  slots V' ip' = <[n := r]> (slots V ip) → used S V' r = true →
  (∀ b, is_data S b → used S V b = true → used S V' b = true) → file_ok V' ip'.
Proof.
  intros Hly Hf Hn Hr Hu Hdev Hlen Hind Hs Hur HU. destruct (data_range r Hly Hr) as [_ Hr0].
  pose proof (new_not_in V ip r Hf Hu ltac:(lia)) as Hnin. split; [done|done| |]; rewrite Hind, Hs.
  - change (ind_of ip :: <[n := r]> (slots V ip)) with (<[Datatypes.S n := r]> (ind_of ip :: slots V ip)).
    rewrite filter_insert_zero; [|done|lia]. constructor; [|apply Hf]. intros Hin. by apply list_elem_of_filter in Hin as [_ ?].
  - intros b Hb Hb0. assert (b = r ∨ b ∈ ind_of ip :: slots V ip) as [->|Hin]; [|done|].
    { apply elem_of_cons in Hb as [->|Hb]; [right; left|]. apply list_elem_of_lookup in Hb as [j Hj].
      apply list_lookup_insert_Some in Hj as [(_ & <- & _)|[_ Hj]]; [by left|]. right. right. by eapply list_elem_of_lookup_2. }
    destruct (fo_data _ _ Hf b Hin Hb0). auto.
Qed.

(** The indirect block allocated: the block map is the same. *)
Lemma add_ind_ok V ip r :
  layout S → sized V → file_ok V ip → ind_of ip = 0 → is_data S r → used S V r = false →
  let ip' := upd_i_addrs (λ l, <[Z.to_nat NDIRECT := r]> l) ip in
  file_ok (alloc_V S V r) ip' ∧ slots (alloc_V S V r) ip' = slots V ip ∧ ind_of ip' = r.
Proof.
  intros Hly HV Hf Hi Hr Hu ip'. destruct (data_range r Hly Hr) as [Hr' Hr0].
  pose proof (new_not_in V ip r Hf Hu ltac:(lia)) as Hnin.
  assert (ind_of ip' = r) as Hind.
  { unfold ind_of, ip'. cbn. rewrite list_lookup_insert_eq; [done|]. rewrite (fo_len _ _ Hf). change NDIRECT with 12. lia. }
  assert (slots (alloc_V S V r) ip' = slots V ip) as Hs.
  { unfold slots. rewrite Hind, Hi, decide_False, (decide_True (P := 0 = 0)), alloc_V_new, words_zero by (done || lia).
    f_equal. unfold ip'. cbn [i_addrs upd_i_addrs]. by rewrite take_insert_ge. }
  split_and!; [|done|done]. split; [apply Hf|cbn; rewrite length_insert; apply Hf| |]; rewrite Hind, Hs.
  - rewrite filter_cons_True by lia. constructor.
    + intros Hin. apply list_elem_of_filter in Hin as [_ Hin]. set_solver.
    + pose proof (fo_nodup _ _ Hf) as Hnd. rewrite Hi, filter_cons_False in Hnd by auto. done.
  - intros b Hb Hb0. apply elem_of_cons in Hb as [->|Hb].
    + split; [done|]. by rewrite used_alloc, Z.eqb_refl.
    + destruct (fo_data _ _ Hf b) as [Hd Hub]; [by right|done|]. split; [done|]. by apply alloc_used.
Qed.

(** A direct entry filled in. *)
Lemma add_direct_ok V ip bn r :
  layout S → sized V → file_ok V ip → 0 ≤ bn < NDIRECT → slots V ip !! Z.to_nat bn = Some 0 → is_data S r → used S V r = false →
  let ip' := upd_i_addrs (λ l, <[Z.to_nat bn := r]> l) ip in
  file_ok (alloc_V S V r) ip' ∧ slots (alloc_V S V r) ip' = <[Z.to_nat bn := r]> (slots V ip) ∧ ind_of ip' = ind_of ip.
Proof.
  intros Hly HV Hf Hb Hz Hr Hu ip'. destruct (data_range r Hly Hr) as [Hr' Hr0]. change NDIRECT with 12 in Hb.
  assert (ind_of ip' = ind_of ip) as Hind.
  { unfold ind_of, ip'. cbn [i_addrs upd_i_addrs]. rewrite list_lookup_insert_ne; [done|]. change NDIRECT with 12. lia. }
  assert (slots (alloc_V S V r) ip' = <[Z.to_nat bn := r]> (slots V ip)) as Hs.
  { unfold slots. rewrite Hind. unfold ip'. cbn [i_addrs upd_i_addrs]. rewrite take_insert_lt by (change NDIRECT with 12; lia).
    rewrite insert_app_l by (rewrite length_take, (fo_len _ _ Hf); change NDIRECT with 12; lia).
    f_equal. case_decide; [done|]. f_equal. destruct (fo_data _ _ Hf (ind_of ip)); [left|done|]. by apply alloc_keeps. }
  split_and!; [|done|done]. eapply (add_slot_ok V ip (Z.to_nat bn) r); try done.
  - apply Hf.
  - unfold ip'. cbn. rewrite length_insert. apply Hf.
  - by rewrite used_alloc, Z.eqb_refl.
  - intros b Hd Hub. by apply alloc_used.
Qed.

(** Writing a data block does not change the bitmap. *)
Lemma used_data V b d n : layout S → is_data S b → 0 ≤ n < sb_size S → used S (<[b := d]> V) n = used S V n.
Proof.
  intros Hly Hb Hn. destruct (data_start_big S Hly) as [_ HB]. specialize (HB n Hn). unfold used.
  rewrite fn_lookup_insert_ne; [done|]. unfold is_data in Hb. lia.
Qed.

(** An entry of the indirect block filled in. *)
Definition ind_V (V : Z → list Z) (a bn r : Z) : Z → list Z :=
  <[a := put32 (4 * (bn - NDIRECT)) r (alloc_V S V r a)]> (alloc_V S V r).

Lemma add_indirect_ok V ip bn r :
  layout S → sized V → file_ok V ip → NDIRECT ≤ bn < MAXFILE → ind_of ip ≠ 0 →
  slots V ip !! Z.to_nat bn = Some 0 → is_data S r → used S V r = false →
  file_ok (ind_V V (ind_of ip) bn r) ip ∧ slots (ind_V V (ind_of ip) bn r) ip = <[Z.to_nat bn := r]> (slots V ip).
Proof.
  intros Hly HV Hf Hb Hi Hz Hr Hu. destruct (data_range r Hly Hr) as [Hr' Hr0].
  destruct (fo_data _ _ Hf (ind_of ip)) as [Hid Hiu]; [left|done|]. set (a := ind_of ip) in *.
  assert (alloc_V S V r a = V a) as Ha by by apply alloc_keeps.
  assert (slots (ind_V V a bn r) ip = <[Z.to_nat bn := r]> (slots V ip)) as Hs.
  { unfold slots. fold a. rewrite !decide_False by done. unfold ind_V. rewrite fn_lookup_insert, Ha.
    pose proof (ly_size _ Hly). change MAXFILE with 268 in *. change NDIRECT with 12 in *.
    rewrite words_put; [|apply HV|change NINDIRECT with 256; lia|lia].
    rewrite insert_app_r_alt by (rewrite length_take, (fo_len _ _ Hf); change (Z.to_nat (NDIRECT + 1)) with 13%nat; lia).
    f_equal. f_equal. rewrite length_take, (fo_len _ _ Hf). change (Z.to_nat (NDIRECT + 1)) with 13%nat. lia. }
  split; [|done]. eapply (add_slot_ok V ip (Z.to_nat bn) r); try done; [apply Hf|apply Hf| |].
  - unfold ind_V. rewrite used_data by done. by rewrite used_alloc, Z.eqb_refl.
  - intros b Hd Hub. destruct (data_range b Hly Hd). unfold ind_V. rewrite used_data by done. by apply alloc_used.
Qed.

(** ** What growing a file leaves alone *)

Record grew (V : Z → list Z) (ip : inode) (V' : Z → list Z) (ip' : inode) : Prop := {
  g_ok : file_ok V' ip';
  g_same : ip' = upd_i_addrs (λ _, i_addrs ip') ip;
  g_ind : ind_of ip' = ind_of ip ∨ ind_of ip = 0 ∧ ind_of ip' ≠ 0 ∧ used S V (ind_of ip') = false;
  g_keep : ∀ b, is_data S b → used S V b = true → b ≠ ind_of ip → V' b = V b;
  g_used : ∀ b, is_data S b → used S V b = true → used S V' b = true;
  g_meta : meta_used S V';
  g_rest : ∀ n, n < data_start S → (∀ m, 0 ≤ m < sb_size S → BBLOCK m S ≠ n) → V' n = V n;
}.

Lemma grew_refl V ip : file_ok V ip → meta_used S V → grew V ip V ip.
Proof. intros Hf Hm. split; try done; [by destruct ip|by left]. Qed.

Lemma grew_trans V1 ip1 V2 ip2 V3 ip3 : grew V1 ip1 V2 ip2 → grew V2 ip2 V3 ip3 → grew V1 ip1 V3 ip3.
Proof.
  intros [O1 S1 I1 K1 U1 M1 R1] [O2 S2 I2 K2 U2 M2 R2]. split; try done.
  - rewrite S2, S1. by destruct ip1.
  - destruct I2 as [->|(H0 & Hz & Hn)]; [done|]. right.
    destruct (fo_data _ _ O2 (ind_of ip3)) as [Hd _]; [left|done|]. split_and!; [|done|].
    + destruct I1 as [<-|(E & _)]; done.
    + destruct (used S V1 (ind_of ip3)) eqn:Hu; [|done]. rewrite (U1 _ Hd Hu) in Hn. done.
  - intros b Hd Hu Hb. rewrite K2; [by apply K1|done|by apply U1|]. destruct I1 as [->|(_ & _ & Hn)]; [done|]. congruence.
  - eauto.
  - intros n Hn HB. rewrite R2 by done. by apply R1.
Qed.

Lemma meta_alloc V r : layout S → sized V → is_data S r → meta_used S V → meta_used S (alloc_V S V r).
Proof. intros Hly HV Hr Hm n Hn Hs. rewrite used_alloc by (done || lia). rewrite Hm by done. apply orb_true_r. Qed.

Lemma alloc_rest V r n :
  is_data S r → 0 ≤ r < sb_size S → n < data_start S → (∀ m, 0 ≤ m < sb_size S → BBLOCK m S ≠ n) → alloc_V S V r n = V n.
Proof. intros Hr Hr' Hn HB. apply alloc_V_data; [unfold is_data in Hr; lia|]. intros ->. by apply (HB r). Qed.

(** ** bmap *)

Definition seti (i : nat) (ip : inode) (k : kernel) : kernel := upd_itable (λ _, <[i := ip]> (itable k)) k.
Lemma set_addr_wp k i ip n a (Q : unit → kernel → Prop) :
  itable k !! i = Some ip → Q tt (seti i (upd_i_addrs (λ l, <[Z.to_nat n := a]> l) ip) k) → wp (set_addr i n a) Q k.
Proof. apply wp_set_idx. Qed.
Lemma txn_seti k D hs held V i ip : txn k D hs held V → txn (seti i ip k) D hs held V.
Proof.
  intros [[[l Hl] C Hm] Hw Hr Hs Ho Hc HD]. split; try done. split; [exists l; by apply (dll_bcache k)|done|done].
Qed.
Lemma fframe_seti k k' i ip : fframe k k' → fframe (seti i ip k) (seti i ip k').
Proof. intros [R P]. split; [|exact P]. rewrite R. by destruct k. Qed.
Lemma seti_id k i ip : itable k !! i = Some ip → seti i ip k = k.
Proof. intros Hi. unfold seti. rewrite list_insert_id by done. by destruct k. Qed.
Lemma seti_seti k i ip ip' : seti i ip' (seti i ip k) = seti i ip' k.
Proof. unfold seti, upd_itable. cbn. by rewrite list_insert_insert_eq. Qed.
Lemma lookup_seti k i ip x : itable k !! i = Some x → itable (seti i ip k) !! i = Some ip.
Proof. intros Hx. apply list_lookup_insert_eq. by eapply lookup_lt_Some. Qed.

Lemma txn_sized k D hs held V : txn k D hs held V → sized V.
Proof. intros Ht. exact (ci_size _ _ _ _ _ _ (ca_inv _ _ _ _ _ _ (t_cache _ _ _ _ _ _ _ _ Ht))). Qed.

(** What [bmap] returns for block [bn] of the file, and the file afterwards. *)
Definition bmap_ret (V : Z → list Z) (ip : inode) (bn : Z) (V' : Z → list Z) (ip' : inode) (r : Z) : Prop :=
  grew V ip V' ip' ∧
  (r = 0 ∧ slots V ip !! Z.to_nat bn = Some 0 ∧ slots V' ip' = slots V ip ∧
     (∀ n, 0 ≤ n < sb_size S → used S V' n = true) ∨
   r ≠ 0 ∧ slots V' ip' = <[Z.to_nat bn := r]> (slots V ip) ∧
   (slots V ip !! Z.to_nat bn = Some r ∧ V' r = V r ∨
    slots V ip !! Z.to_nat bn = Some 0 ∧ used S V r = false ∧ V' r = zero_block)).

Lemma bmap_found V ip bn r :
  file_ok V ip → meta_used S V → slots V ip !! Z.to_nat bn = Some r → r ≠ 0 → bmap_ret V ip bn V ip r.
Proof.
  intros Hf Hm Hs Hr. split; [by apply grew_refl|]. right. split_and!; [done|by rewrite list_insert_id|]. by left.
Qed.

(** The three ways in which [bmap] adds a block: a direct entry, the indirect
    block itself, an entry of it. *)
Lemma bmap_new_direct V ip bn r :
  layout S → sized V → meta_used S V → file_ok V ip → 0 ≤ bn < NDIRECT → slots V ip !! Z.to_nat bn = Some 0 → is_data S r → used S V r = false →
  bmap_ret V ip bn (alloc_V S V r) (upd_i_addrs (λ l, <[Z.to_nat bn := r]> l) ip) r.
Proof.
  intros Hly HV Hm Hf Hb Hs Hr Hu. destruct (data_range r Hly Hr) as [Hr' Hr0].
  destruct (add_direct_ok V ip bn r Hly HV Hf Hb Hs Hr Hu) as (Hok & Hsl & Hind).
  split; [split; [exact Hok|by destruct ip|by left|..]|right; split_and!; [lia|exact Hsl|right; split_and!; [done|done|apply alloc_V_new]]].
  - intros b Hd Hub _. by apply alloc_keeps.
  - intros b Hd Hub. by apply alloc_used.
  - by apply meta_alloc.
  - intros n Hn HB. by apply alloc_rest.
Qed.
Lemma grew_ind V ip r :
  layout S → sized V → meta_used S V → file_ok V ip → ind_of ip = 0 → is_data S r → used S V r = false →
  grew V ip (alloc_V S V r) (upd_i_addrs (λ l, <[Z.to_nat NDIRECT := r]> l) ip).
Proof.
  intros Hly HV Hm Hf Ea Hr Hu. destruct (data_range r Hly Hr) as [Hr' Hr0]. destruct (add_ind_ok V ip r Hly HV Hf Ea Hr Hu) as (Hok & Hsl & Hind).
  split; [exact Hok|by destruct ip|right; rewrite Hind; split_and!; [done|lia|done]| | |by apply meta_alloc|].
  - intros b Hd Hub _. by apply alloc_keeps.
  - intros b Hd Hub. by apply alloc_used.
  - intros n Hn HB. by apply alloc_rest.
Qed.
Lemma bmap_new_indirect V ip bn r :
  layout S → sized V → meta_used S V → file_ok V ip → NDIRECT ≤ bn < MAXFILE → ind_of ip ≠ 0 → slots V ip !! Z.to_nat bn = Some 0 →
  is_data S r → used S V r = false → bmap_ret V ip bn (ind_V V (ind_of ip) bn r) ip r.
Proof.
  intros Hly HV Hm Hf Hb Hi Hs Hr Hu. destruct (data_range r Hly Hr) as [Hr' Hr0].
  destruct (fo_data _ _ Hf (ind_of ip)) as [Hid Hiu]; [left|done|].
  destruct (add_indirect_ok V ip bn r Hly HV Hf) as [Hok Hsl]; [done..|]. set (a := ind_of ip) in *. assert (a ≠ r) as Har by congruence.
  split; [split; [exact Hok|by destruct ip|by left|..]|right; split_and!; [lia|exact Hsl|right; split_and!; [done|done|]]].
  - intros b Hd Hub Hne. unfold ind_V. rewrite fn_lookup_insert_ne by done. by apply alloc_keeps.
  - intros b Hd Hub. destruct (data_range b Hly Hd). unfold ind_V. rewrite used_data by done. by apply alloc_used.
  - intros n Hn Hsz. unfold ind_V. rewrite used_data by (done || lia). by apply meta_alloc.
  - intros n Hn HB. unfold ind_V. rewrite fn_lookup_insert_ne by (unfold is_data in Hid; lia). by apply alloc_rest.
  - unfold ind_V. rewrite fn_lookup_insert_ne by done. apply alloc_V_new.
Qed.
(** A block looked up after the indirect block was added. *)
Lemma bmap_after_ind V ip bn V1 ip1 V2 ip2 r :
  grew V ip V1 ip1 → slots V1 ip1 = slots V ip → slots V ip !! Z.to_nat bn = Some 0 → bmap_ret V1 ip1 bn V2 ip2 r → bmap_ret V ip bn V2 ip2 r.
Proof.
  intros Hg Hsl Hs (Hg3 & Hret). split; [by eapply grew_trans|]. rewrite Hsl in Hret. destruct Hret as [Hr0'|(Hr2 & Hsl2 & Hval)]; [by left|]. right.
  split_and!; [done|done|]. destruct Hval as [[Hin Hv]|(Hz & Hu2 & Hv)]; [congruence|]. right. split_and!; [done| |done].
  destruct (used S V r) eqn:E; [|done].
  destruct (fo_data _ _ (g_ok _ _ _ _ Hg3) r) as [Hd2 _]; [right; rewrite Hsl2; apply list_elem_of_lookup_2 with (Z.to_nat bn);
    apply list_lookup_insert_eq; by eapply lookup_lt_Some|done|].
  rewrite (g_used _ _ _ _ Hg r Hd2 E) in Hu2. done.
Qed.

Lemma length_log_add2 hs a b : (length (log_add (log_add hs a) b) ≤ length hs + 2)%nat.
Proof. pose proof (length_log_add (log_add hs a) b). pose proof (length_log_add hs a). lia. Qed.

(** [bmap] from the read of the indirect block on. *)
Definition bmap_tail (dev a bn : Z) : M kernel Z :=
  bp ← bread me dev a;
  x ← the_buf bp;
  let e := get32 (4 * bn) (b_data x) in
  addr ← (if e =? 0 then
            e ← balloc me dev;
            (if e =? 0 then mret tt else set_buf bp (upd_b_data (put32 (4 * bn) e)) ;; log_write bp) ;;
            mret e
          else mret e);
  brelse me bp ;;
  mret addr.

Lemma bmap_tail_wp k D hs V ip bn (Q : Z → kernel → Prop) :
  layout S → sb k = S → txn k D hs ∅ V → (length hs < 26)%nat → meta_used S V → file_ok V ip →
  NDIRECT ≤ bn < MAXFILE → ind_of ip ≠ 0 →
  (∀ r k' hs' V', fframe k k' → txn k' D hs' ∅ V' → (length hs' ≤ length hs + 3)%nat → bmap_ret V ip bn V' ip r → Q r k') →
  wp (bmap_tail ROOTDEV (ind_of ip) (bn - NDIRECT)) Q k.
Proof.
  intros Hly Hsb Ht Hl Hm Hf Hb Hi HQ. pose proof (txn_sized _ _ _ _ _ Ht) as HV. unfold bmap_tail.
  destruct (fo_data _ _ Hf (ind_of ip)) as [Hid Hiu]; [left|done|]. set (a := ind_of ip) in *.
  pose proof (slots_indirect V ip bn Hf Hb) as Hslot. rewrite decide_False in Hslot by done. fold a in Hslot.
  cbv zeta.
  eapply (peek_wp me pid S _ _ _ _ _ _ (λ bp d,
    (if get32 (4 * (bn - NDIRECT)) d =? 0 then _ else mret (get32 (4 * (bn - NDIRECT)) d)) ≫= _));
    [exact Ht|done|rewrite map_size_empty; fs_consts; lia|].
  intros bp k1 F1 T1. set (e := get32 _ (V a)) in *. rewrite insert_empty in T1. case_if He.
  2:{ do 3 wp_step. eapply txn_brelse; [exact T1|apply lookup_singleton_eq|eapply txn_clean; [exact Ht|done]|].
      intros k2 F2 T2. rewrite delete_singleton_eq in T2. wp_step. eapply HQ; [|exact T2|lia|by apply bmap_found].
      etrans; apply fframe_bframe; eassumption. }
  rewrite He in Hslot. wp_step. wp_step. eapply balloc_wp; [done|by rewrite (bframe_sb _ _ F1)|exact T1| |rewrite map_size_singleton; lia|done|..].
  { intros n b Hn. apply lookup_singleton_Some in Hn as [<- _]. done. }
  - intros k2 F2 T2 Hall. cbn [Z.eqb]. wp_steps. eapply txn_brelse; [exact T2|apply lookup_singleton_eq|eapply txn_clean; [exact Ht|done]|].
    intros k3 F3 T3. rewrite delete_singleton_eq in T3. wp_step. eapply HQ; [|exact T3|lia|].
    + etrans; [apply fframe_bframe, F1|]. etrans; [exact F2|by apply fframe_bframe].
    + split; [by apply grew_refl|]. by left.
  - intros r k2 F2 Hr Hu _ T2. destruct (data_range r Hly Hr) as [Hr' Hr0].
    rewrite (proj2 (Z.eqb_neq r 0)) by lia. wp_steps. pose proof (txn_sized _ _ _ _ _ T2) as HV2.
    change NINDIRECT with 256 in *. change MAXFILE with 268 in *. change NDIRECT with 12 in *.
    eapply txn_data; [exact T2|apply lookup_singleton_eq|rewrite length_put32; [apply HV2|lia|rewrite HV2; fs_consts; lia]|].
    intros k3 F3 T3. pose proof (length_log_add2 hs (BBLOCK r S) r).
    eapply txn_log_write; [exact T3|apply lookup_singleton_eq|apply (data_block_ok S a Hly Hid)..|lia|].
    intros k4 F4 T4. wp_steps. eapply txn_brelse; [exact T4|apply lookup_singleton_eq|left; rewrite elem_log_add; by left|].
    intros k5 F5 T5. rewrite delete_singleton_eq in T5. wp_step. eapply HQ; [|exact T5| |].
    + etrans; [apply fframe_bframe, F1|]. etrans; [exact F2|]. etrans; [apply fframe_bframe, F3|].
      etrans; [apply fframe_tframe, F4|by apply fframe_bframe].
    + pose proof (length_log_add (log_add (log_add hs (BBLOCK r S)) r) a). lia.
    + by apply bmap_new_indirect.
Qed.

Lemma fframe_at k k' i ip ip' :
  itable k !! i = Some ip → fframe (seti i ip' k) k' → itable k' !! i = Some ip'.
Proof. intros Hi F. rewrite (fframe_itable _ _ F). by eapply lookup_seti. Qed.

Lemma bmap_direct_wp k D hs V i ip bn (Q : Z → kernel → Prop) :
  layout S → sb k = S → txn k D hs ∅ V → (length hs < 26)%nat → meta_used S V →
  itable k !! i = Some ip → file_ok V ip → 0 ≤ bn < NDIRECT →
  (∀ r k' hs' V' ip', fframe (seti i ip' k) k' → txn k' D hs' ∅ V' → (length hs' ≤ length hs + 2)%nat →
    bmap_ret V ip bn V' ip' r → Q r k') →
  wp (bmap me i bn) Q k.
Proof.
  intros Hly Hsb Ht Hl Hm Hi Hf Hb HQ. pose proof (txn_sized _ _ _ _ _ Ht) as HV. unfold bmap. wp_step.
  eapply wp_at_idx; [exact Hi|]. rewrite (proj2 (Z.ltb_lt bn NDIRECT)) by lia.
  pose proof (slots_direct V ip bn Hf Hb) as Hs.
  destruct (lookup_lt_is_Some_2 (i_addrs ip) (Z.to_nat bn)) as [a Ha].
  { rewrite (fo_len _ _ Hf). change NDIRECT with 12 in *. lia. }
  rewrite Ha in Hs. wp_step. eapply addr_of_wp; [exact Hi|exact Ha|]. case_if Ea.
  2:{ wp_step. eapply (HQ a k hs V ip); [by rewrite seti_id|done|lia|by apply bmap_found]. }
  rewrite Ea in Hs. wp_step. rewrite (fo_dev _ _ Hf). eapply balloc_wp; [done|done|exact Ht|done|rewrite map_size_empty; lia|done|..].
  - intros k1 F1 T1 Hall. cbn [Z.eqb]. wp_step. eapply (HQ 0 k1 hs V ip); [by rewrite seti_id|done|lia|].
    split; [by apply grew_refl|]. by left.
  - intros r k1 F1 Hr Hu _ T1. destruct (data_range r Hly Hr) as [Hr' Hr0]. rewrite (proj2 (Z.eqb_neq r 0)) by lia.
    wp_step. eapply set_addr_wp; [by rewrite (fframe_itable _ _ F1)|]. wp_step.
    eapply HQ; [by apply fframe_seti|by apply txn_seti|apply length_log_add2|by apply bmap_new_direct].
Qed.

Lemma bmap_indirect_wp k D hs V i ip bn (Q : Z → kernel → Prop) :
  layout S → sb k = S → txn k D hs ∅ V → (length hs < 24)%nat → meta_used S V →
  itable k !! i = Some ip → file_ok V ip → NDIRECT ≤ bn < MAXFILE →
  (∀ r k' hs' V' ip', fframe (seti i ip' k) k' → txn k' D hs' ∅ V' → (length hs' ≤ length hs + 5)%nat →
    bmap_ret V ip bn V' ip' r → Q r k') →
  wp (bmap me i bn) Q k.
Proof.
  intros Hly Hsb Ht Hl Hm Hi Hf Hb HQ. pose proof (txn_sized _ _ _ _ _ Ht) as HV. unfold bmap. wp_step.
  eapply wp_at_idx; [exact Hi|]. rewrite (proj2 (Z.ltb_ge bn NDIRECT)) by lia. cbv zeta.
  rewrite (proj2 (Z.ltb_lt (bn - NDIRECT) NINDIRECT)) by (change MAXFILE with 268 in *; change NDIRECT with 12 in *; change NINDIRECT with 256; lia).
  wp_step. eapply addr_of_wp; [exact Hi|by eapply ind_lookup|]. rewrite (fo_dev _ _ Hf). wp_step. case_if Ea.
  2:{ wp_step. rewrite (proj2 (Z.eqb_neq (ind_of ip) 0)) by done.
      change (wp (bmap_tail ROOTDEV (ind_of ip) (bn - NDIRECT)) Q k).
      eapply bmap_tail_wp; [done..|lia|done|exact Hf|done|done|]. intros r k' hs' V' F T Hlen Hret.
      eapply (HQ r k' hs' V' ip); [by rewrite seti_id|done|lia|done]. }
  pose proof (slots_indirect V ip bn Hf Hb) as Hs. rewrite (decide_True (P := ind_of ip = 0)) in Hs by done.
  wp_step. eapply balloc_wp; [done|done|exact Ht|done|rewrite map_size_empty; lia|done|..].
  - intros k1 F1 T1 Hall. cbn [Z.eqb]. wp_steps. cbn [Z.eqb]. wp_step.
    eapply (HQ 0 k1 hs V ip); [by rewrite seti_id|done|lia|]. split; [by apply grew_refl|]. by left.
  - intros r k1 F1 Hr Hu _ T1. destruct (data_range r Hly Hr) as [Hr' Hr0]. rewrite (proj2 (Z.eqb_neq r 0)) by lia.
    wp_step. eapply set_addr_wp; [by rewrite (fframe_itable _ _ F1)|]. wp_step. rewrite (proj2 (Z.eqb_neq r 0)) by lia.
    destruct (add_ind_ok V ip r Hly HV Hf Ea Hr Hu) as (Hok & Hsl & Hind).
    set (ip1 := upd_i_addrs _ ip) in *. set (k2 := seti i ip1 k1).
    assert (fframe (seti i ip1 k) k2) as F2 by by apply fframe_seti.
    assert (grew V ip (alloc_V S V r) ip1) as Hg by by apply grew_ind.
    rewrite <-Hind. change (wp (bmap_tail ROOTDEV (ind_of ip1) (bn - NDIRECT)) Q k2).
    pose proof (length_log_add2 hs (BBLOCK r S) r).
    eapply bmap_tail_wp; [done|by rewrite (fframe_sb _ _ F2)|by apply txn_seti|lia|apply Hg|exact Hok|done|by rewrite Hind; lia|].
    intros r2 k3 hs3 V3 F3 T3 Hlen Hret. eapply HQ; [|exact T3|lia|by eapply bmap_after_ind]. etrans; [exact F2|exact F3].
Qed.

Lemma bmap_wp k D hs V i ip bn (Q : Z → kernel → Prop) :
  layout S → sb k = S → txn k D hs ∅ V → (length hs < 24)%nat → meta_used S V →
  itable k !! i = Some ip → file_ok V ip → 0 ≤ bn < MAXFILE →
  (∀ r k' hs' V' ip', fframe (seti i ip' k) k' → txn k' D hs' ∅ V' → (length hs' ≤ length hs + 5)%nat →
    bmap_ret V ip bn V' ip' r → Q r k') →
  wp (bmap me i bn) Q k.
Proof.
  intros Hly Hsb Ht Hl Hm Hi Hf Hb HQ. destruct (decide (bn < NDIRECT)).
  - eapply bmap_direct_wp; [done..|lia|done|done|exact Hf|lia|]. intros. eapply HQ; [done|done|lia|done].
  - eapply bmap_indirect_wp; [done..|lia|done|done|exact Hf|lia|]. done.
Qed.

(** ** The bytes of a file *)

(** Block [bn] of the file; a missing block reads as zeros. *)
Definition blk (V : Z → list Z) (ip : inode) (bn : Z) : list Z :=
  match slots V ip !! Z.to_nat bn with Some b => if decide (b = 0) then zero_block else V b | None => zero_block end.
Definition fbyte (V : Z → list Z) (ip : inode) (o : Z) : Z :=
  default 0 (blk V ip (o / BSIZE) !! Z.to_nat (o mod BSIZE)).
Definition fbytes (V : Z → list Z) (ip : inode) (off n : Z) : list Z := fbyte V ip <$> seqZ off n.

(** A file whose own blocks stay as they are is unchanged. *)
Lemma file_kept V V' ip :
  file_ok V ip → (∀ b, b ∈ ind_of ip :: slots V ip → b ≠ 0 → V' b = V b) →
  (∀ b, b ∈ ind_of ip :: slots V ip → b ≠ 0 → used S V' b = true) →
  file_ok V' ip ∧ slots V' ip = slots V ip ∧ ∀ o, fbyte V' ip o = fbyte V ip o.
Proof.
  intros Hf HV HU. assert (slots V' ip = slots V ip) as E.
  { unfold slots. case_decide; [done|]. do 2 f_equal. apply HV; [by left|done]. }
  split_and!; [|done|].
  - destruct Hf as [H1 H2 H3 H4]. split; [done|done|by rewrite E|]. rewrite E. intros b Hb Hn.
    destruct (H4 b Hb Hn) as [Hd Hu]. split; [done|]. by apply HU.
  - intros o. unfold fbyte, blk. rewrite E. destruct (slots V ip !! _) as [b|] eqn:Hb; [|done]. case_decide; [done|].
    rewrite HV; [done| |done]. right. by eapply list_elem_of_lookup_2.
Qed.

Lemma length_blk V ip bn : sized V → length (blk V ip bn) = Z.to_nat BSIZE.
Proof.
  intros HV. unfold blk. destruct (_ !! _) as [b|]; [case_decide|]; [apply length_replicate|apply HV|apply length_replicate].
Qed.
Lemma length_fbytes V ip off n : 0 ≤ n → length (fbytes V ip off n) = Z.to_nat n.
Proof. intros. unfold fbytes. by rewrite length_fmap, length_seqZ. Qed.
Lemma fbytes_app V ip off n m : 0 ≤ n → 0 ≤ m → fbytes V ip off (n + m) = fbytes V ip off n ++ fbytes V ip (off + n) m.
Proof. intros. unfold fbytes. rewrite <-fmap_app. f_equal. by rewrite seqZ_app. Qed.
Lemma fbytes_lookup V ip off n j : 0 ≤ j < n → fbytes V ip off n !! Z.to_nat j = Some (fbyte V ip (off + j)).
Proof. intros Hj. unfold fbytes. rewrite list_lookup_fmap, lookup_seqZ_lt by lia. cbn. do 2 f_equal. lia. Qed.

Lemma chunk V ip off m :
  sized V → 0 ≤ off → 0 ≤ m ≤ BSIZE - off mod BSIZE →
  slice (Z.to_nat (off mod BSIZE)) (Z.to_nat m) (blk V ip (off / BSIZE)) = fbytes V ip off m.
Proof.
  intros HV Ho Hm. pose proof (Z.mod_pos_bound off BSIZE ltac:(done)) as Hmod. pose proof (length_blk V ip (off / BSIZE) HV) as Hl.
  fs_consts. apply list_eq. intros j. rewrite lookup_slice. case_decide as Hj.
  - rewrite <-(Nat2Z.id j) at 2. rewrite fbytes_lookup by lia. unfold fbyte. fs_consts.
    replace ((off + Z.of_nat j) / 1024) with (off / 1024) by (Z.div_mod_to_equations; lia).
    replace (Z.to_nat ((off + Z.of_nat j) mod 1024)) with (Z.to_nat (off mod 1024) + j)%nat by (Z.div_mod_to_equations; lia).
    destruct (lookup_lt_is_Some_2 (blk V ip (off / 1024)) (Z.to_nat (off mod 1024) + j)) as [x ->]; [lia|done].
  - symmetry. apply lookup_ge_None_2. rewrite length_fbytes by lia. lia.
Qed.

(** ** readi, to the kernel *)

(** What [either_copyout] does to a destination that is not a user address. *)
Definition kput (d : dst) (bytes : list Z) (k : kernel) : kernel :=
  match d with DKern pa => upd_mach (set_ram (λ m, store_bytes m pa bytes)) k | _ => k end.
Definition kdst (d : dst) (n : Z) : Prop :=
  match d with DUser _ => False | DKern pa => 0 ≤ pa ∧ pa + n < 2 ^ 64 | DLocal => True end.

Lemma copyout_kput d bytes k (Q : Z → kernel → Prop) :
  kdst d 0 → Q 0 (kput d bytes k) → wp (either_copyout me d bytes) Q k.
Proof.
  intros Hd HQ. destruct d as [va|pa|]; [done| |by apply wp_ret]. unfold either_copyout, vm. wp_step. apply wp_zoom, wp_modify. wp_step.
  by destruct k.
Qed.
Lemma bframe_kput k k' d b : bframe k k' → bframe (kput d b k) (kput d b k').
Proof. intros [R P]. destruct d; [by split| |by split]. split; [|exact P]. rewrite R. by destruct k. Qed.
Lemma txn_kput k D hs held V d b : txn k D hs held V → txn (kput d b k) D hs held V.
Proof.
  intros Ht. destruct d as [|pa|]; [done| |done]. destruct Ht as [[[l Hl] C Hm] Hw Hr Hs Ho Hc HD].
  split; try done. split; [exists l; by apply (dll_bcache k)|done|done].
Qed.
Lemma store_bytes_app m a l1 l2 : store_bytes m a (l1 ++ l2) = store_bytes (store_bytes m a l1) (a + Z.of_nat (length l1)) l2.
Proof.
  revert m a. induction l1 as [|x l1 IH]; intros m a; cbn [app store_bytes length]; [by rewrite Z.add_0_r|].
  rewrite IH. f_equal. lia.
Qed.
Lemma kput_nil d k : kput d [] k = k.
Proof. destruct d; [done| |done]. unfold kput. destruct k as [m]; by destruct m. Qed.
Lemma dst_add_0 d n : kdst d n → 0 ≤ n → dst_add d 0 = d.
Proof. destruct d; cbn; intros; [done|by rewrite Z.add_0_r, u64_id by lia|done]. Qed.
Lemma kput_app d b1 b2 k :
  kdst d (Z.of_nat (length (b1 ++ b2))) → kput (dst_add d (Z.of_nat (length b1))) b2 (kput d b1 k) = kput d (b1 ++ b2) k.
Proof.
  intros Hd. destruct d as [|pa|]; cbn in *; [done| |done]. rewrite length_app in Hd. rewrite u64_id by lia.
  unfold upd_mach, set_ram. cbn. by rewrite store_bytes_app.
Qed.

(** The blocks of bytes [off] to [off + n - 1] are all there. *)
Definition no_holes (V : Z → list Z) (ip : inode) (off n : Z) : Prop :=
  ∀ o, off ≤ o < off + n → ∃ b, slots V ip !! Z.to_nat (o / BSIZE) = Some b ∧ b ≠ 0.

(** The iterations left of a copy of [n - tot] bytes at [off]. *)
Definition copy_meas (n tot off : Z) : nat :=
  if decide (tot < n) then Z.to_nat ((n - tot + off mod BSIZE + BSIZE - 1) / BSIZE) else 0.
Lemma copy_meas_start n off : 0 ≤ n → 0 ≤ off → (copy_meas n 0 off < Datatypes.S (Datatypes.S (Z.to_nat (n / BSIZE + 1))))%nat.
Proof. intros. unfold copy_meas. fs_consts. case_decide; [|lia]. Z.div_mod_to_equations; lia. Qed.
Lemma copy_meas_step n tot off :
  0 ≤ tot < n → 0 ≤ off → let m := Z.min (n - tot) (BSIZE - off mod BSIZE) in
  (copy_meas n (tot + m) (off + m) < copy_meas n tot off)%nat.
Proof.
  intros Ht Ho m. unfold copy_meas, m. fs_consts. rewrite (decide_True (P := tot < n)) by lia.
  pose proof (Z.mod_pos_bound off 1024 ltac:(done)). case_decide as Hlt.
  - assert (Z.min (n - tot) (1024 - off mod 1024) = 1024 - off mod 1024) as -> by lia.
    replace ((off + (1024 - off mod 1024)) mod 1024) with 0 by (Z.div_mod_to_equations; lia).
    Z.div_mod_to_equations; lia.
  - assert (0 < (n - tot + off mod 1024 + 1024 - 1) / 1024) by (apply Z.div_str_pos; lia). lia.
Qed.

(** ** Reading blocks

    What [readi] needs of the block layer: [P k held] holds of a state in which
    the blocks [held] are locked and the blocks have the contents [V].  A
    transaction and a system with no transaction both provide it. *)
Class BlockReader (P : kernel → gmap Z nat → Prop) (V : Z → list Z) : Prop := {
  br_bread k bno (Q : nat → kernel → Prop) : P k ∅ →
    (∀ b k', bframe k k' → P k' {[bno := b]} → Q b k') → wp (bread me ROOTDEV bno) Q k;
  br_buf k bno b (Q : buf → kernel → Prop) : P k {[bno := b]} →
    (∀ x, b_data x = V bno → Q x k) → wp (the_buf b) Q k;
  br_brelse k bno b (Q : unit → kernel → Prop) : P k {[bno := b]} →
    (∀ k', bframe k k' → P k' ∅ → Q tt k') → wp (brelse me b) Q k;
  br_kput k held d bytes : P k held → P (kput d bytes k) held;
  br_seti k held i ip : P k held → P (seti i ip k) held;
  br_woken k held ps : P k held → Forall2 woken (procs k) ps → P (upd_procs (λ _, ps) k) held;
  br_me k held : P k held → ∃ p, procs k !! me = Some p ∧ p_pid p = pid;
  br_sized k held : P k held → sized V;
}.

Lemma cache_woken k pin held V ps :
  cache me pid k pin held V → Forall2 woken (procs k) ps → cache me pid (upd_procs (λ _, ps) k) pin held V.
Proof.
  intros [[l Hl] C (p & Hp & Hpid)] Hw. split; [exists l; by apply (dll_bcache k)|done|].
  destruct (Forall2_lookup_l _ _ _ _ _ Hw Hp) as (q & Hq & Hpq). exists q. split; [done|]. by rewrite (woken_pid p).
Qed.

Definition txn_read (D : disk) (hs : list Z) (V : Z → list Z) (k : kernel) (held : gmap Z nat) : Prop :=
  txn k D hs held V ∧ (length hs < Z.to_nat NBUF)%nat ∧ ∀ n, n ∈ hs ∨ V n = disk_block D n.
Lemma txn_read_start k D hs V : txn k D hs ∅ V → (length hs < Z.to_nat NBUF)%nat → txn_read D hs V k ∅.
Proof. intros Ht Hl. split; [done|]. split; [done|]. intros n. by eapply txn_clean. Qed.
#[export] Instance txn_reader D hs V : BlockReader (txn_read D hs V) V.
Proof.
  split.
  - intros k bno Q (Ht & Hl & Hc) HQ. eapply txn_bread; [exact Ht|done|rewrite map_size_empty; lia|].
    intros b k' F T. by apply HQ.
  - intros k bno b Q (Ht & _) HQ. eapply the_held_wp; [apply Ht|apply lookup_singleton_eq|]. intros x _ _. apply HQ.
  - intros k bno b Q (Ht & Hl & Hc) HQ. eapply txn_brelse; [exact Ht|apply lookup_singleton_eq|apply Hc|].
    intros k' F T. rewrite delete_singleton_eq in T. by apply HQ.
  - intros k held d bytes (Ht & Hl & Hc). split; [by apply txn_kput|done].
  - intros k held i ip (Ht & Hl & Hc). split; [by apply txn_seti|done].
  - intros k held ps (Ht & Hl & Hc) Hw. split; [|done]. destruct Ht. split; try done. by apply cache_woken.
  - intros k held (Ht & _). apply (ca_me _ _ _ _ _ _ (t_cache _ _ _ _ _ _ _ _ Ht)).
  - intros k held (Ht & _). by eapply txn_sized.
Qed.

(** No transaction: the blocks are those of the disk. *)
Definition cache_read (D : disk) (k : kernel) (held : gmap Z nat) : Prop :=
  cache me pid k ∅ held (disk_block D) ∧ kdisk k = D.
#[export] Instance cache_reader D : BlockReader (cache_read D) (disk_block D).
Proof.
  split.
  - intros k bno Q (Hc & Hd) HQ. eapply bread_wp; [exact Hc|done|right; rewrite map_size_empty, size_empty; fs_consts; lia|].
    intros b k' F HD C. apply HQ; [done|]. split; [done|congruence].
  - intros k bno b Q (Hc & _) HQ. eapply the_held_wp; [exact Hc|apply lookup_singleton_eq|]. intros x _ _. apply HQ.
  - intros k bno b Q (Hc & Hd) HQ. eapply brelse_wp; [exact Hc|apply lookup_singleton_eq|right; by rewrite Hd|].
    intros k' F HD C. rewrite delete_singleton_eq in C. apply HQ; [done|]. split; [done|congruence].
  - intros k held d bytes ([[l Hl] C Hm] & HD). destruct d; [by split; [split; eauto|]| |by split; [split; eauto|]].
    split; [|done]. split; [exists l; by apply (dll_bcache k)|done|done].
  - intros k held i ip ([[l Hl] C Hm] & HD). split; [|done]. split; [exists l; by apply (dll_bcache k)|done|done].
  - intros k held ps (Hc & HD) Hw. split; [by apply cache_woken|done].
  - intros k held (Hc & _). apply Hc.
  - intros k held ([_ C _] & _) n. apply (ci_size _ _ _ _ _ _ C).
Qed.

Section readi.
Context (P : kernel → gmap Z nat → Prop) (V : Z → list Z) `{!BlockReader P V}.

Lemma peek_block {A} k bno (m : nat → list Z → M kernel A) (Q : A → kernel → Prop) :
  P k ∅ → (∀ b k', bframe k k' → P k' {[bno := b]} → wp (m b (V bno)) Q k') →
  wp (bp ← bread me ROOTDEV bno; x ← the_buf bp; m bp (b_data x)) Q k.
Proof.
  intros Hp HQ. wp_step. eapply br_bread; [exact Hp|]. intros b k1 F1 P1. wp_step.
  eapply br_buf; [exact P1|]. intros x ->. by apply HQ.
Qed.

Lemma bmap_there_wp k i ip bn b (Q : Z → kernel → Prop) :
  P k ∅ → itable k !! i = Some ip → file_ok V ip → 0 ≤ bn < MAXFILE →
  slots V ip !! Z.to_nat bn = Some b → b ≠ 0 →
  (∀ k', bframe k k' → P k' ∅ → Q b k') → wp (bmap me i bn) Q k.
Proof.
  intros Ht Hi Hf Hb Hs Hb0 HQ. unfold bmap. wp_step. eapply wp_at_idx; [exact Hi|].
  destruct (Z.ltb_spec bn NDIRECT).
  - rewrite (slots_direct V ip bn Hf) in Hs by lia. wp_step. eapply addr_of_wp; [exact Hi|exact Hs|].
    rewrite (proj2 (Z.eqb_neq b 0)) by done. wp_step. by apply HQ.
  - cbv zeta. rewrite (proj2 (Z.ltb_lt (bn - NDIRECT) NINDIRECT)) by (change MAXFILE with 268 in *; change NDIRECT with 12 in *; change NINDIRECT with 256; lia).
    rewrite (slots_indirect V ip bn Hf) in Hs by lia. case_decide as Hi0; [congruence|]. injection Hs as Hs.
    wp_step. eapply addr_of_wp; [exact Hi|by eapply ind_lookup|]. rewrite (proj2 (Z.eqb_neq (ind_of ip) 0)) by done.
    wp_step. wp_step. rewrite (proj2 (Z.eqb_neq (ind_of ip) 0)), (fo_dev _ _ Hf) by done.
    eapply (peek_block _ _ (λ bp d,
      (if get32 (4 * (bn - NDIRECT)) d =? 0 then _ else mret (get32 (4 * (bn - NDIRECT)) d)) ≫= _));
      [exact Ht|].
    intros bp k1 F1 T1. rewrite Hs. rewrite (proj2 (Z.eqb_neq b 0)) by done. wp_step. wp_step. wp_step.
    eapply br_brelse; [exact T1|]. intros k2 F2 T2. wp_step. apply HQ; [by etrans|done].
Qed.

Lemma readi_loop_wp k i ip d off n (Q : Z * list Z → kernel → Prop) :
  P k ∅ → itable k !! i = Some ip → file_ok V ip →
  0 ≤ off → 0 ≤ n → off + n ≤ MAXFILE * BSIZE → kdst d n → no_holes V ip off n →
  (∀ k', bframe (kput d (fbytes V ip off n) k) k' → P k' ∅ → Q (n, fbytes V ip off n) k') →
  wp (loopM (Datatypes.S (Datatypes.S (Z.to_nat (n / BSIZE + 1)))) (readi_body me i n) (0, off, d, [])) Q k.
Proof.
  intros Ht Hi Hf Ho Hn Hmax Hd Hnh HQ. pose proof (br_sized _ _ Ht) as HV.
  eapply (wp_loop _ (λ '(tot, off', d', acc) k1, 0 ≤ tot ≤ n ∧ off' = off + tot ∧ d' = dst_add d tot ∧
     acc = fbytes V ip off tot ∧ bframe (kput d acc k) k1 ∧ P k1 ∅)
     (λ '(tot, off', _, _), copy_meas n tot off')).
  { by apply copy_meas_start. }
  { split_and!; [lia|lia|lia|by erewrite dst_add_0|done|by rewrite kput_nil|done]. }
  intros [[[tot off'] d'] acc] k1 (Htot & -> & -> & -> & F1 & T1). unfold readi_body.
  case_if Hlt; [|wp_step; assert (tot = n) as -> by lia; by apply HQ].
  destruct (Hnh (off + tot)) as (b & Hb & Hb0); [lia|].
  assert (0 ≤ (off + tot) / BSIZE < MAXFILE) as Hbn.
  { fs_consts. change MAXFILE with 268 in *. split; [apply Z.div_pos; lia|apply Z.div_lt_upper_bound; lia]. }
  assert (itable k1 !! i = Some ip) as Hi1.
  { rewrite (bframe_itable _ _ F1). by destruct d. }
  wp_step. eapply bmap_there_wp; [exact T1|exact Hi1|exact Hf|exact Hbn|exact Hb|exact Hb0|]. intros k2 F2 T2.
  rewrite (proj2 (Z.eqb_neq b 0)) by done. wp_step. eapply wp_at_idx; [by rewrite (bframe_itable _ _ F2)|]. rewrite (fo_dev _ _ Hf).
  set (m := Z.min (n - tot) (BSIZE - (off + tot) mod BSIZE)).
  pose proof (Z.mod_pos_bound (off + tot) BSIZE ltac:(done)) as Hmod.
  eapply (peek_block _ _ (λ bp dat,
      let bytes := slice (Z.to_nat ((off + tot) mod BSIZE)) (Z.to_nat m) dat in
      either_copyout me (dst_add d tot) bytes ≫= λ r, if r =? -1 then _ else (brelse me bp ≫= λ _,
      mret (inl (u32 (tot + m), u32 (off + tot + m), dst_add (dst_add d tot) m, fbytes V ip off tot ++ bytes)))));
    [exact T2|].
  intros bp k3 F3 T3. cbv zeta.
  assert (slice (Z.to_nat ((off + tot) mod BSIZE)) (Z.to_nat m) (V b) = fbytes V ip (off + tot) m) as ->.
  { rewrite <-chunk by (done || fs_consts; lia). unfold blk. rewrite Hb, decide_False by done. done. }
  assert (tot + m ≤ n ∧ 0 < m) as [Hm Hm0] by (fs_consts; lia).
  wp_step. apply copyout_kput; [destruct d; [done|cbn; pose proof (u64_bound (pa + tot)); lia|done]|].
  change (0 =? -1) with false. cbv iota. wp_step.
  eapply br_brelse; [eapply br_kput, T3|]. intros k4 F4 T4. wp_step. split.
  - change MAXFILE with 268 in *. fs_consts. rewrite !u32_id by lia. split_and!; [lia|lia|lia| | | |done].
    + destruct d; [done|cbn in *|done]. rewrite !u64_id; [f_equal; lia|lia..|rewrite u64_id; lia].
    + rewrite fbytes_app by lia. done.
    + etrans; [|exact F4]. assert (bframe (kput d (fbytes V ip off tot) k) k3) as F13 by (by repeat (etrans; [eassumption|])).
      pose proof (bframe_kput _ _ (dst_add d tot) (fbytes V ip (off + tot) m) F13) as F'.
      replace tot with (Z.of_nat (length (fbytes V ip off tot))) in F' at 1 by (rewrite length_fbytes; lia).
      rewrite kput_app in F'; [done|]. destruct d; [done| |done]. cbn in *. rewrite length_app, !length_fbytes by lia. lia.
  - change MAXFILE with 268 in *. fs_consts. rewrite !u32_id by lia. apply copy_meas_step; fs_consts; lia.
Qed.
End readi.
End fsfile.
