(* ===== verification/FsInode.v ===== *)
(** * Inodes

    The inodes of [kernel/fs.c]: [struct dinode] in its block, [iupdate], and the
    table of inodes in memory ([iget], [idup], [ilock], [iunlock]). *)

From S2P Require Import Prelude Riscv Memory CString Kalloc Vm State Bytes Printf Sched Bio BioSpec Cache Log LogSpec Crash Txn Fs FsBlock FsFile.

(** ** Inodes on disk *)

(** The fields of [struct dinode] in their C types. *)
Record dinode_ok (ip : inode) : Prop := {
  do_type : - 2 ^ 15 ≤ i_type ip < 2 ^ 15;
  do_major : - 2 ^ 15 ≤ i_major ip < 2 ^ 15;
  do_minor : - 2 ^ 15 ≤ i_minor ip < 2 ^ 15;
  do_nlink : - 2 ^ 15 ≤ i_nlink ip < 2 ^ 15;
  do_size : 0 ≤ i_size ip < 2 ^ 32;
  do_len : length (i_addrs ip) = Z.to_nat (NDIRECT + 1);
  do_addrs : Forall (λ a, 0 ≤ a < 2 ^ 32) (i_addrs ip);
}.
(** [ip0] with the disk fields of [ip]. *)
Definition with_dinode (ip ip0 : inode) : inode :=
  Inode (i_dev ip0) (i_inum ip0) (i_ref ip0) (i_lock ip0) (i_valid ip0)
    (i_type ip) (i_major ip) (i_minor ip) (i_nlink ip) (i_size ip) (i_addrs ip).

Ltac dlen :=
  repeat first [rewrite length_put_words by dlen | rewrite length_put32 by dlen | rewrite length_put16 by dlen];
  try lia.

Section dinode.
Context (o : Z) (ip : inode) (d : list Z).
Hypotheses (Ho : 0 ≤ o) (Hd : o + DINODE_SIZE ≤ Z.of_nat (length d)) (Hlen : length (i_addrs ip) = Z.to_nat (NDIRECT + 1)).

Lemma length_write_dinode : length (write_dinode o ip d) = length d.
Proof using Hd Hlen Ho. change DINODE_SIZE with 64 in Hd. change (Z.to_nat (NDIRECT + 1)) with 13%nat in Hlen. unfold write_dinode. dlen. Qed.

Lemma slice_write_dinode_ne a n :
  Z.of_nat (a + n) ≤ o ∨ o + DINODE_SIZE ≤ Z.of_nat a → slice a n (write_dinode o ip d) = slice a n d.
Proof using Hd Hlen Ho.
  intros Ha. change DINODE_SIZE with 64 in *. change (Z.to_nat (NDIRECT + 1)) with 13%nat in Hlen. unfold write_dinode.
  by rewrite slice_put_words_ne, slice_put32_ne, !slice_put16_ne by dlen.
Qed.

Lemma read_dinode_ne o' ip0 :
  0 ≤ o' → o' + DINODE_SIZE ≤ o ∨ o + DINODE_SIZE ≤ o' →
  read_dinode o' (write_dinode o ip d) ip0 = read_dinode o' d ip0.
Proof using Hd Hlen Ho.
  intros Ho' Hdis. change DINODE_SIZE with 64 in *. unfold read_dinode, get16, get32.
  rewrite !slice_write_dinode_ne by (change DINODE_SIZE with 64; lia).
  unfold upd_i_addrs. f_equal. apply list_fmap_ext. intros j i Hj. f_equal.
  apply lookup_seqZ in Hj as [-> Hj]. change (NDIRECT + 1) with 13 in Hj.
  rewrite slice_write_dinode_ne by (change DINODE_SIZE with 64; lia). done.
Qed.
End dinode.

Lemma s16_mod x : - 2 ^ 15 ≤ x < 2 ^ 15 → s16 (x mod 2 ^ 16) = x.
Proof. intros. unfold s16. rewrite Zplus_mod_idemp_l, Z.mod_small by lia. lia. Qed.

Lemma read_dinode_eq o d ip0 :
  read_dinode o d ip0 =
    Inode (i_dev ip0) (i_inum ip0) (i_ref ip0) (i_lock ip0) (i_valid ip0)
      (s16 (get16 o d)) (s16 (get16 (o + 2) d)) (s16 (get16 (o + 4) d)) (s16 (get16 (o + 6) d)) (get32 (o + 8) d)
      ((λ i, get32 (o + 12 + 4 * i) d) <$> seqZ 0 (NDIRECT + 1)).
Proof. destruct ip0. reflexivity. Qed.

Lemma read_write_dinode o ip ip0 d :
  dinode_ok ip → 0 ≤ o → o + DINODE_SIZE ≤ Z.of_nat (length d) →
  read_dinode o (write_dinode o ip d) ip0 = with_dinode ip ip0.
Proof.
  intros [H1 H2 H3 H4 H5 H6 H7] Ho Hd. change DINODE_SIZE with 64 in *. change (Z.to_nat (NDIRECT + 1)) with 13%nat in H6.
  rewrite read_dinode_eq. unfold write_dinode, with_dinode. f_equal.
  - unfold get16. rewrite slice_put_words_ne, slice_put32_ne, !slice_put16_ne by dlen. fold (get16 o (put16 o (i_type ip) d)).
    rewrite get16_put16 by dlen. by apply s16_mod.
  - unfold get16. rewrite slice_put_words_ne, slice_put32_ne, !(slice_put16_ne _ _ (o + 6)), !(slice_put16_ne _ _ (o + 4)) by dlen.
    fold (get16 (o + 2) (put16 (o + 2) (i_major ip) (put16 o (i_type ip) d))). rewrite get16_put16 by dlen. by apply s16_mod.
  - unfold get16. rewrite slice_put_words_ne, slice_put32_ne, !(slice_put16_ne _ _ (o + 6)) by dlen.
    match goal with |- context [put16 (o + 4) ?v ?l] => fold (get16 (o + 4) (put16 (o + 4) v l)) end. rewrite get16_put16 by dlen. by apply s16_mod.
  - unfold get16. rewrite slice_put_words_ne, slice_put32_ne by dlen.
    match goal with |- context [put16 (o + 6) ?v ?l] => fold (get16 (o + 6) (put16 (o + 6) v l)) end. rewrite get16_put16 by dlen. by apply s16_mod.
  - unfold get32. rewrite slice_put_words_ne by dlen.
    match goal with |- context [put32 (o + 8) ?v ?l] => fold (get32 (o + 8) (put32 (o + 8) v l)) end. apply get32_put32; dlen.
  - apply list_eq. intros j. rewrite list_lookup_fmap. destruct (decide (j < 13)%nat) as [Hj|Hj].
    + rewrite lookup_seqZ_lt by (change (NDIRECT + 1) with 13; lia). cbn [fmap option_fmap option_map].
      destruct (lookup_lt_is_Some_2 (i_addrs ip) j) as [w Hw]; [lia|]. rewrite Hw, Z.add_0_l. f_equal.
      apply get32_put_words; [lia|dlen|done|]. exact (Forall_lookup_1 _ _ _ _ H7 Hw).
    + rewrite lookup_seqZ_ge by (change (NDIRECT + 1) with 13; lia). symmetry. apply lookup_ge_None_2. lia.
Qed.

(** ** The inode blocks *)

Section fsinode.
Context {I : Image} `{SleepFuel} (me : nat) (pid : Z) (S : superblock).
Notation ls := (logstart S).
Notation txn := (txn me pid (logstart S)).

(** Inode [inum] lies between the log and the bitmap. *)
Definition inum_ok (inum : Z) : Prop := 0 ≤ inum ∧ ls + LOGSIZE ≤ IBLOCK inum S < bmapstart S.

Lemma inum_block inum : layout S → inum_ok inum →
  block_ok S (IBLOCK inum S) ∧ IBLOCK inum S < data_start S ∧ ∀ n, 0 ≤ n < sb_size S → BBLOCK n S ≠ IBLOCK inum S.
Proof.
  intros Hly [H0 [H1 H2]]. assert (∀ n, 0 ≤ n < sb_size S → BBLOCK n S ≠ IBLOCK inum S) as HB.
  { intros n Hn. destruct (BBLOCK_val S n Hly Hn) as [-> _]. assert (0 ≤ n / BPB) by (apply Z.div_pos; [lia|done]). lia. }
  pose proof (ly_top _ Hly). pose proof (ly_start _ Hly). assert (0 ≤ sb_size S / BPB).
  { pose proof (ly_size _ Hly). apply Z.div_pos; [lia|done]. }
  unfold block_ok, outside, data_start. fs_consts. split_and!; [lia|lia|lia|lia|done].
Qed.
Lemma dinode_off_bound inum : 0 ≤ inum → 0 ≤ dinode_off inum ∧ dinode_off inum + DINODE_SIZE ≤ BSIZE.
Proof.
  intros. unfold dinode_off. change IPB with 16. change DINODE_SIZE with 64. change BSIZE with 1024.
  pose proof (Z.mod_pos_bound inum 16 ltac:(done)). lia.
Qed.
Lemma dinode_off_ne i j :
  0 ≤ inodestart S < 2 ^ 31 → 0 ≤ i < 2 ^ 31 → 0 ≤ j < 2 ^ 31 → i ≠ j → IBLOCK i S = IBLOCK j S →
  dinode_off i + DINODE_SIZE ≤ dinode_off j ∨ dinode_off j + DINODE_SIZE ≤ dinode_off i.
Proof.
  intros HS Hi Hj Hne HB. unfold IBLOCK in HB. unfold dinode_off. change IPB with 16 in *. change DINODE_SIZE with 64.
  assert (0 ≤ i / 16 < 2 ^ 31 ∧ 0 ≤ j / 16 < 2 ^ 31) as [? ?] by (Z.div_mod_to_equations; lia).
  rewrite !u32_id in HB by lia. Z.div_mod_to_equations; lia.
Qed.

(** The blocks after [iupdate]. *)
Definition inode_V (V : Z → list Z) (ip : inode) : Z → list Z :=
  let b := IBLOCK (i_inum ip) S in <[b := write_dinode (dinode_off (i_inum ip)) ip (V b)]> V.

Lemma iupdate_wp k D hs V i ip (Q : unit → kernel → Prop) :
  layout S → sb k = S → txn k D hs ∅ V → (length hs < 29)%nat → itable k !! i = Some ip → i_dev ip = ROOTDEV →
  length (i_addrs ip) = Z.to_nat (NDIRECT + 1) → inum_ok (i_inum ip) →
  (∀ k', tframe k k' → txn k' D (log_add hs (IBLOCK (i_inum ip) S)) ∅ (inode_V V ip) → Q tt k') → wp (iupdate me i) Q k.
Proof.
  intros Hly Hsb Ht Hl Hi Hdev Hlen Hin HQ. destruct (inum_block _ Hly Hin) as (Hok & _ & _).
  destruct (dinode_off_bound (i_inum ip)) as [Ho1 Ho2]; [apply Hin|].
  pose proof (txn_sized _ _ _ _ _ _ _ _ Ht) as HV.
  unfold iupdate. wp_step. eapply wp_at_idx; [exact Hi|]. wp_step. wp_step. rewrite Hsb, Hdev.
  eapply (update_wp me pid S); [exact Ht|exact Hok|done|rewrite map_size_empty; lia| |exact HQ].
  rewrite length_write_dinode; [apply HV|done|rewrite HV; fs_consts; lia|done].
Qed.
Lemma used_inode V ip n : layout S → inum_ok (i_inum ip) → 0 ≤ n < sb_size S → used S (inode_V V ip) n = used S V n.
Proof.
  intros Hly Hin Hn. destruct (inum_block _ Hly Hin) as (_ & _ & HB). unfold used, inode_V.
  rewrite fn_lookup_insert_ne; [done|]. intros E. by eapply HB.
Qed.
Lemma inode_V_data V ip b : layout S → inum_ok (i_inum ip) → is_data S b → inode_V V ip b = V b.
Proof.
  intros Hly Hin Hb. destruct (inum_block _ Hly Hin) as (_ & Hlt & _). unfold inode_V.
  apply fn_lookup_insert_ne. unfold is_data in Hb. lia.
Qed.
Lemma disk_inode V ip ip0 :
  dinode_ok ip → sized V → inum_ok (i_inum ip) →
  read_dinode (dinode_off (i_inum ip)) (inode_V V ip (IBLOCK (i_inum ip) S)) ip0 = with_dinode ip ip0.
Proof.
  intros Hd HV Hin. destruct (dinode_off_bound (i_inum ip)) as [Ho1 Ho2]; [apply Hin|]. unfold inode_V.
  rewrite fn_lookup_insert. apply read_write_dinode; [done|done|rewrite HV; fs_consts; lia].
Qed.
(** The other inodes of the block stay as they are. *)
Lemma other_inode V ip j ip0 :
  sized V → length (i_addrs ip) = Z.to_nat (NDIRECT + 1) →
  0 ≤ inodestart S < 2 ^ 31 → 0 ≤ i_inum ip < 2 ^ 31 → 0 ≤ j < 2 ^ 31 → i_inum ip ≠ j →
  read_dinode (dinode_off j) (inode_V V ip (IBLOCK j S)) ip0 = read_dinode (dinode_off j) (V (IBLOCK j S)) ip0.
Proof.
  intros HV Hlen HS Hi Hj Hne. unfold inode_V. destruct (decide (IBLOCK (i_inum ip) S = IBLOCK j S)) as [E|E].
  2:{ by rewrite fn_lookup_insert_ne. }
  destruct (dinode_off_bound (i_inum ip)) as [Ho1 Ho2]; [lia|]. destruct (dinode_off_bound j) as [Ho3 Ho4]; [lia|].
  pose proof (dinode_off_ne _ _ HS Hi Hj Hne E). rewrite <-E, fn_lookup_insert.
  apply read_dinode_ne; [done|rewrite HV; fs_consts; lia|done|done|lia].
Qed.

(** [iupdate] puts every field of the inode where [ilock] reads it back, leaves
    every other inode on disk as it was, and changes no other block. *)
Theorem iupdate_spec k D hs V i ip :
  layout S → sb k = S → txn k D hs ∅ V → (length hs < 29)%nat → itable k !! i = Some ip → i_dev ip = ROOTDEV →
  dinode_ok ip → inum_ok (i_inum ip) → i_inum ip < 2 ^ 31 → 0 ≤ inodestart S < 2 ^ 31 →
  ∃ k' hs' V', iupdate me i k = Done tt k' ∧ txn k' D hs' ∅ V' ∧
    (∀ ip0, read_dinode (dinode_off (i_inum ip)) (V' (IBLOCK (i_inum ip) S)) ip0 = with_dinode ip ip0) ∧
    (∀ j ip0, 0 ≤ j < 2 ^ 31 → j ≠ i_inum ip →
       read_dinode (dinode_off j) (V' (IBLOCK j S)) ip0 = read_dinode (dinode_off j) (V (IBLOCK j S)) ip0) ∧
    (∀ n, n ≠ IBLOCK (i_inum ip) S → V' n = V n).
Proof.
  intros Hly Hsb Ht Hl Hi Hdev Hd Hin Hnum Hst. pose proof (txn_sized _ _ _ _ _ _ _ _ Ht) as HV.
  assert (wp (iupdate me i) (λ _ k', txn k' D (log_add hs (IBLOCK (i_inum ip) S)) ∅ (inode_V V ip)) k) as Hwp.
  { eapply iupdate_wp; [done|done|exact Ht|done|exact Hi|done|apply Hd|done|]. by intros k' _ T. }
  apply wp_elim in Hwp as ([] & k' & Hrun & T). eexists k', _, _. split_and!; [done|exact T| | |].
  - intros ip0. by apply disk_inode.
  - intros j ip0 Hj Hne. destruct Hin. apply other_inode; [done|apply Hd|done|lia|done|done].
  - intros n Hn. unfold inode_V. by rewrite fn_lookup_insert_ne.
Qed.
End fsinode.

(** ** Inode locks

    [ilock] and [iunlock] when the lock is free: [ilock] takes it and reads the
    inode from its block if the entry is not valid. *)

Section fslock.
Context {I : Image} `{SleepFuel} (me : nat) (pid : Z) (S : superblock).
Context (P : kernel → gmap Z nat → Prop) (V : Z → list Z) `{R : !BlockReader me pid P V}.

(** Entry [ip] of the inode table after [ilock]. *)
Definition loaded (ip : inode) : inode :=
  if i_valid ip then ip
  else upd_i_valid (λ _, true) (read_dinode (dinode_off (i_inum ip)) (V (IBLOCK (i_inum ip) S)) ip).
Definition locked (ip : inode) : inode := upd_i_lock (λ _, Sleeplock true pid) (loaded ip).

Lemma bframe_seti k k' i ip : bframe k k' → bframe (seti i ip k) (seti i ip k').
Proof using Type. intros [Rs Ps]. split; [|exact Ps]. rewrite Rs. by destruct k. Qed.
Lemma bframe_woken k ps : Forall2 woken (procs k) ps → bframe k (upd_procs (λ _, ps) k).
Proof using Type. intros Hw. split; [by destruct k|exact Hw]. Qed.

Lemma acquire_inode_wp k i ip (Q : unit → kernel → Prop) :
  P k ∅ → itable k !! i = Some ip → sl_locked (i_lock ip) = false →
  Q tt (seti i (upd_i_lock (λ _, Sleeplock true pid) ip) k) → wp (acquiresleep me (InodeLock i)) Q k.
Proof using R.
  intros Hp Hi Hl HQ. destruct (br_me me pid k ∅ Hp) as (p & Hme & Hpid). unfold acquiresleep. wp_step. cbn [loopM].
  wp_steps. unfold get_lock. wp_step. eapply wp_at_idx; [exact Hi|]. wp_step. rewrite Hl. wp_steps.
  eapply wp_at_idx; [exact Hme|]. rewrite Hpid. unfold set_lock. eapply wp_set_idx; [exact Hi|]. exact HQ.
Qed.

Lemma ilock_wp k i ip (Q : unit → kernel → Prop) :
  P k ∅ → sb k = S → itable k !! i = Some ip → 1 ≤ i_ref ip → sl_locked (i_lock ip) = false → i_dev ip = ROOTDEV →
  i_type (loaded ip) ≠ 0 →
  (∀ k', bframe (seti i (locked ip) k) k' → P k' ∅ → Q tt k') → wp (ilock me (Some i)) Q k.
Proof using R.
  intros Hp Hsb Hi Hr Hl Hd Hty HQ. unfold ilock. wp_step. eapply wp_at_idx; [exact Hi|].
  rewrite (proj2 (Z.ltb_ge _ 1)) by lia. wp_step. eapply acquire_inode_wp; [done..|]. set (ip1 := upd_i_lock _ ip).
  wp_step. eapply wp_at_idx; [by eapply lookup_seti|]. unfold locked, loaded in *. change (i_valid ip1) with (i_valid ip).
  destruct (i_valid ip) eqn:Hv.
  { wp_step. apply HQ; [done|]. by eapply (br_seti me pid). }
  wp_step. wp_step. cbn [sb seti upd_itable]. change (i_dev ip1) with (i_dev ip). change (i_inum ip1) with (i_inum ip). rewrite Hd.
  eapply (peek_block me pid P V _ _ (λ bp dat, set_inode i (read_dinode (dinode_off (i_inum ip)) dat) ≫= λ _, brelse me bp ≫= _));
    [by eapply (br_seti me pid)|]. intros b k1 F1 P1. cbn [sb seti upd_itable]. rewrite Hsb.
  assert (itable k1 !! i = Some ip1) as Hi1 by (rewrite (bframe_itable _ _ F1); by eapply lookup_seti).
  wp_step. eapply wp_set_idx; [exact Hi1|]. wp_step. eapply (br_brelse me pid); [by eapply (br_seti me pid)|]. intros k2 F2 P2.
  set (ip2 := read_dinode (dinode_off (i_inum ip)) (V (IBLOCK (i_inum ip) S)) ip1) in F2.
  assert (itable k2 !! i = Some ip2) as Hi2 by (rewrite (bframe_itable _ _ F2); by eapply lookup_seti).
  wp_step. eapply wp_set_idx; [exact Hi2|]. wp_step. eapply wp_at_idx; [by eapply lookup_seti|].
  rewrite (proj2 (Z.eqb_neq _ 0)) by exact Hty. wp_step. apply HQ; [|by eapply (br_seti me pid)].
  apply (bframe_seti _ _ i ip2) in F1. rewrite seti_seti in F1.
  assert (bframe (seti i ip2 k) k2) as F by (by etrans).
  apply (bframe_seti _ _ i (upd_i_valid (λ _, true) ip2)) in F. rewrite seti_seti in F. exact F.
Qed.

Lemma iunlock_wp k i ip (Q : unit → kernel → Prop) :
  P k ∅ → itable k !! i = Some ip → 1 ≤ i_ref ip → i_lock ip = Sleeplock true pid →
  (∀ k', bframe (seti i (upd_i_lock (λ _, Sleeplock false 0) ip) k) k' → P k' ∅ → Q tt k') → wp (iunlock me (Some i)) Q k.
Proof using R.
  intros Hp Hi Hr Hl HQ. destruct (br_me me pid k ∅ Hp) as (p & Hme & Hpid). unfold iunlock, holdingsleep, get_lock. wp_steps.
  eapply wp_at_idx; [exact Hi|]. wp_steps. eapply wp_at_idx; [exact Hme|]. wp_steps. eapply wp_at_idx; [exact Hi|].
  rewrite Hl, Hpid. cbn [sl_locked sl_pid andb]. rewrite Z.eqb_refl, (proj2 (Z.ltb_ge _ 1)) by lia. cbn [negb orb].
  unfold releasesleep, get_lock, set_lock. wp_steps. eapply wp_at_idx; [exact Hi|]. wp_steps. eapply wp_set_idx; [exact Hi|].
  apply wakeup_wp. intros ps Hps. apply HQ; [by apply bframe_woken|]. eapply (br_woken me pid); [by eapply (br_seti me pid)|exact Hps].
Qed.
End fslock.
