(* ===== verification/FsWrite.v ===== *)
(** * Writing files

    [writei] of [kernel/fs.c]: the bytes, the block map and the bitmap after a
    write inside a transaction, and reading back what was written. *)

From S2P Require Import Prelude Riscv Memory CString Kalloc Vm PageTable Mapping UserCopy State Bytes Printf Sched Bio BioSpec Cache Log LogSpec Crash Txn Fs FsBlock FsFile FsInode.

Section fswrite.
Context {I : Image} `{SleepFuel} (me : nat) (pid : Z) (S : superblock).
Notation ls := (logstart S).
Notation txn := (txn me pid (logstart S)).
Notation file_ok := (file_ok S).
Notation fsize := (MAXFILE * BSIZE).

(** The file [ip'] with blocks [V'] is [ip] with [bytes] written at [off]: the
    other bytes are the same, no block is taken from the file, the new blocks
    were free, and the blocks of other files are untouched. *)
Record wrote (V : Z → list Z) (ip : inode) (off : Z) (bytes : list Z) (V' : Z → list Z) (ip' : inode) : Prop := {
  w_ok : file_ok V' ip';
  w_same : ip' = upd_i_addrs (λ _, i_addrs ip') ip;
  w_bytes : ∀ o, 0 ≤ o < fsize → fbyte V' ip' o =
    if decide (off ≤ o < off + Z.of_nat (length bytes)) then bytes !!! Z.to_nat (o - off) else fbyte V ip o;
  w_slots : ∀ j b, slots V ip !! j = Some b → b ≠ 0 → slots V' ip' !! j = Some b;
  w_there : no_holes V' ip' off (Z.of_nat (length bytes));
  w_new : ∀ b, b ∈ ind_of ip' :: slots V' ip' → b ≠ 0 → b ∈ ind_of ip :: slots V ip ∨ used S V b = false;
  w_others : ∀ b, is_data S b → used S V b = true → b ∉ ind_of ip :: slots V ip → V' b = V b;
  w_used : ∀ b, is_data S b → used S V b = true → used S V' b = true;
  w_meta : meta_used S V';
  w_rest : ∀ n, n < data_start S → (∀ m, 0 ≤ m < sb_size S → BBLOCK m S ≠ n) → V' n = V n;
}.

Lemma wrote_trans V ip off l V1 ip1 l' V2 ip2 :
  layout S → 0 ≤ off → wrote V ip off l V1 ip1 → wrote V1 ip1 (off + Z.of_nat (length l)) l' V2 ip2 → wrote V ip off (l ++ l') V2 ip2.
Proof.
  intros Hly Ho [O1 S1 B1 L1 T1 N1 K1 U1 M1 R1] [O2 S2 B2 L2 T2 N2 K2 U2 M2 R2].
  assert (∀ b, used S V1 b = false → is_data S b → used S V b = false) as HU.
  { intros b Hb Hd. destruct (used S V b) eqn:E; [|done]. by rewrite U1 in Hb. }
  split; try done.
  - rewrite S2, S1. by destruct ip.
  - intros o Hr. rewrite B2, B1, length_app by done.
    destruct (decide (off ≤ o < off + Z.of_nat (length l))).
    + rewrite decide_False, decide_True, lookup_total_app_l by lia. done.
    + case_decide; [|by rewrite decide_False by lia]. rewrite decide_True, lookup_total_app_r by lia. f_equal. lia.
  - eauto.
  - intros o Hr. rewrite length_app in Hr. destruct (decide (o < off + Z.of_nat (length l))) as [Hlt|Hge].
    + destruct (T1 o) as (b & Hb & Hb0); [lia|]. exists b. eauto.
    + apply T2. lia.
  - intros b Hb Hb0. destruct (N2 b Hb Hb0) as [Hb1|Hu]; [by apply N1|]. right. apply HU; [done|].
    by apply (fo_data _ _ _ O2).
  - intros b Hd Hu Hn. rewrite K2; [by apply K1|done|by apply U1|]. intros Hin.
    destruct (data_range S b Hly Hd). destruct (N1 b Hin); [lia|done|congruence].
  - eauto.
  - intros n Hn HB. rewrite R2 by done. by apply R1.
Qed.

(** [bmap] writes nothing. *)
Lemma slot_ne_ind V ip j b : file_ok V ip → slots V ip !! j = Some b → b ≠ 0 → b ≠ ind_of ip.
Proof.
  intros Hf Hj Hb ->. pose proof (fo_nodup _ _ _ Hf) as Hnd. rewrite filter_cons_True in Hnd by done.
  apply NoDup_cons in Hnd as [Hn _]. apply Hn, list_elem_of_filter. split; [done|]. by eapply list_elem_of_lookup_2.
Qed.
Lemma slots_inj V ip i j b : file_ok V ip → slots V ip !! i = Some b → slots V ip !! j = Some b → b ≠ 0 → i = j.
Proof.
  intros Hf Hi Hj Hb. assert (NoDup (filter (λ b, b ≠ 0) (slots V ip))) as Hnd.
  { pose proof (fo_nodup _ _ _ Hf) as Hnd. destruct (decide (ind_of ip = 0)); [by rewrite filter_cons_False in Hnd by auto|].
    rewrite filter_cons_True in Hnd by done. by apply NoDup_cons in Hnd as [_ ?]. }
  clear Hf. revert i j Hi Hj Hnd. induction (slots V ip) as [|x l IH]; intros i j Hi Hj Hnd; [done|].
  assert (∀ n, l !! n = Some x → x ≠ 0 → False) as Hx.
  { intros n Hn Hx. rewrite filter_cons_True in Hnd by done. apply NoDup_cons in Hnd as [Hni _]. apply Hni, list_elem_of_filter.
    split; [done|]. by eapply list_elem_of_lookup_2. }
  destruct i as [|i], j as [|j]; cbn in Hi, Hj; [done| | |]; simplify_eq.
  - by destruct (Hx j).
  - by destruct (Hx i).
  - f_equal. apply IH; [done|done|]. destruct (decide (x = 0)); [by rewrite filter_cons_False in Hnd by auto|].
    rewrite filter_cons_True in Hnd by done. by apply NoDup_cons in Hnd as [_ ?].
Qed.

Lemma bmap_slot V ip bn V' ip' r j b :
  bmap_ret S V ip bn V' ip' r → slots V ip !! j = Some b → b ≠ 0 → slots V' ip' !! j = Some b.
Proof.
  intros [_ [(-> & _ & -> & _)|(Hr & -> & Hold)]] Hj Hb; [done|]. destruct (decide (j = Z.to_nat bn)) as [->|Hne].
  - rewrite list_lookup_insert_eq by (by eapply lookup_lt_Some). destruct Hold as [[E _]|[E _]]; congruence.
  - by rewrite list_lookup_insert_ne.
Qed.
Lemma bmap_blk V ip bn V' ip' r j :
  file_ok V ip → 0 ≤ bn < MAXFILE → 0 ≤ j → bmap_ret S V ip bn V' ip' r → blk V' ip' j = blk V ip j.
Proof.
  intros Hf Hbn Hj0 [Hg Hr].
  assert (∀ b, slots V ip !! Z.to_nat j = Some b → b ≠ 0 → V' b = V b) as HV.
  { intros b Hb Hb0. destruct (fo_data _ _ _ Hf b) as [Hd Hu]; [right; by eapply list_elem_of_lookup_2|done|].
    apply (g_keep _ _ _ _ _ Hg); [done|done|]. by eapply slot_ne_ind. }
  assert (∀ o : option Z, (∀ b, o = Some b → b ≠ 0 → V' b = V b) →
    match o with Some b => if decide (b = 0) then zero_block else V' b | None => zero_block end =
    match o with Some b => if decide (b = 0) then zero_block else V b | None => zero_block end) as HO.
  { intros [b|] Ho; [|done]. case_decide; [done|]. by apply Ho. }
  unfold blk. destruct Hr as [(-> & _ & -> & _)|(Hr & -> & Hold)]; [by apply HO|]. destruct (decide (j = bn)) as [->|Hne].
  - rewrite list_lookup_insert_eq by (rewrite (length_slots _ _ _ Hf); change MAXFILE with 268 in *; lia).
    rewrite decide_False by done. destruct Hold as [[-> E]|(-> & _ & E)]; rewrite ?decide_False, ?decide_True by done; done.
  - rewrite list_lookup_insert_ne by lia. by apply HO.
Qed.

Lemma bmap_wrote V ip bn V' ip' r off :
  layout S → file_ok V ip → 0 ≤ bn < MAXFILE → bmap_ret S V ip bn V' ip' r → wrote V ip off [] V' ip'.
Proof.
  intros Hly Hf Hbn Hr. pose proof Hr as [Hg Hret]. split.
  - apply Hg.
  - apply Hg.
  - intros o Ho. rewrite decide_False by (cbn; lia). unfold fbyte. erewrite bmap_blk; [done|done|exact Hbn| |exact Hr].
    apply Z.div_pos; fs_consts; lia.
  - intros j b. by eapply bmap_slot.
  - intros o Ho. cbn in Ho. lia.
  - intros b Hb Hb0. apply elem_of_cons in Hb as [->|Hb].
    { destruct (g_ind _ _ _ _ _ Hg) as [->|(_ & _ & Hu)]; [left; left|by right]. }
    destruct Hret as [(_ & _ & E & _)|(_ & E & Hold)]; rewrite E in Hb; [left; by right|].
    apply list_elem_of_lookup in Hb as [j Hj]. apply list_lookup_insert_Some in Hj as [(<- & <- & _)|[_ Hj]].
    + destruct Hold as [[Hin _]|(_ & Hu & _)]; [|by right]. left. right. by eapply list_elem_of_lookup_2.
    + left. right. by eapply list_elem_of_lookup_2.
  - intros b Hd Hu Hn. apply (g_keep _ _ _ _ _ Hg); [done|done|]. set_solver.
  - apply Hg.
  - apply Hg.
  - apply Hg.
Qed.

(** Writing into a block of the file. *)
Definition splice_V (V : Z → list Z) (b o : Z) (l : list Z) : Z → list Z := <[b := splice (Z.to_nat o) l (V b)]> V.

Lemma splice_wrote V ip off b l :
  layout S → sized V → file_ok V ip → meta_used S V → 0 ≤ off → slots V ip !! Z.to_nat (off / BSIZE) = Some b → b ≠ 0 →
  off mod BSIZE + Z.of_nat (length l) ≤ BSIZE → wrote V ip off l (splice_V V b (off mod BSIZE) l) ip.
Proof.
  intros Hly HV Hf Hm Ho Hb Hb0 Hl. destruct (fo_data _ _ _ Hf b) as [Hd Hu]; [right; by eapply list_elem_of_lookup_2|done|].
  assert (slots (splice_V V b (off mod BSIZE) l) ip = slots V ip) as Hs.
  { unfold slots. case_decide; [done|]. unfold splice_V. rewrite fn_lookup_insert_ne; [done|]. by eapply slot_ne_ind. }
  pose proof (Z.mod_pos_bound off BSIZE ltac:(done)) as Hmod.
  assert (∀ n, 0 ≤ n < sb_size S → used S (splice_V V b (off mod BSIZE) l) n = used S V n) as HU by (intros; by apply used_data).
  split.
  - destruct Hf as [H1 H2 H3 H4]. split; [done|done|by rewrite Hs|]. rewrite Hs. intros c Hc Hc0. destruct (H4 c Hc Hc0) as [? ?].
    split; [done|]. rewrite HU; [done|]. by apply data_range.
  - by destruct ip.
  - intros o Hor. unfold fbyte, blk. rewrite Hs. destruct (decide (o / BSIZE = off / BSIZE)) as [E|E].
    + rewrite E, Hb, decide_False by done. unfold splice_V. rewrite fn_lookup_insert, lookup_splice by (rewrite HV; fs_consts; lia).
      fs_consts. assert (Z.to_nat (o mod 1024) - Z.to_nat (off mod 1024) = Z.to_nat (o - off) ∨ (o < off)%Z)%nat as Hd' by (Z.div_mod_to_equations; lia).
      repeat case_decide; try (Z.div_mod_to_equations; lia). destruct Hd' as [->|?]; [|lia]. destruct (lookup_lt_is_Some_2 l (Z.to_nat (o - off))) as [x Hx]; [lia|].
      by rewrite Hx, (list_lookup_total_correct _ _ _ Hx).
    + rewrite decide_False by (fs_consts; Z.div_mod_to_equations; lia).
      destruct (slots V ip !! Z.to_nat (o / BSIZE)) as [c|] eqn:Hc; [|done]. case_decide; [done|].
      unfold splice_V. rewrite fn_lookup_insert_ne; [done|]. intros ->. apply E.
      pose proof (slots_inj _ _ _ _ _ Hf Hc Hb Hb0). fs_consts. assert (0 ≤ o / 1024) by (apply Z.div_pos; lia).
      assert (0 ≤ off / 1024) by (apply Z.div_pos; lia). lia.
  - by rewrite Hs.
  - intros o Hor. exists b. rewrite Hs. replace (o / BSIZE) with (off / BSIZE); [done|]. fs_consts. Z.div_mod_to_equations; lia.
  - rewrite Hs. auto.
  - intros c Hcd Hcu Hn. unfold splice_V. rewrite fn_lookup_insert_ne; [done|]. intros ->. apply Hn. right. by eapply list_elem_of_lookup_2.
  - intros c Hcd Hcu. rewrite HU; [done|by apply data_range].
  - intros n Hn Hsz. rewrite HU by lia. by apply Hm.
  - intros n Hn HB. unfold splice_V. rewrite fn_lookup_insert_ne; [done|]. unfold is_data in Hd. lia.
Qed.

(** ** writei *)

(** The source [s] holds [bytes]: those of a variable of the kernel, or those that
    the process sees from [va] on, all readable. *)
Definition src_ok (k : kernel) (s : src) (bytes : list Z) : Prop :=
  match s with
  | SLocal l => l = bytes
  | SUser va => ∃ p l own, procs k !! me = Some p ∧ pt_inv (mach k) l own ∧ is_root own (p_pagetable p) ∧
      user_inv (ram (mach k)) own (p_pagetable p) ∧ 0 ≤ va ∧ va + Z.of_nat (length bytes) < 2 ^ 64 ∧
      bytes = user_bytes (ram (mach k)) (p_pagetable p) va (length bytes) ∧
      ∀ a, va ≤ a < va + Z.of_nat (length bytes) → user_readable (ram (mach k)) (p_pagetable p) a = true
  end.

Lemma user_bytes_split m root va (n j : nat) : (j ≤ n)%nat →
  user_bytes m root va n = user_bytes m root va j ++ user_bytes m root (va + Z.of_nat j) (n - j).
Proof. intros Hj. rewrite <-user_bytes_app. f_equal. lia. Qed.
Lemma length_user_bytes m root va n : length (user_bytes m root va n) = n.
Proof. unfold user_bytes. by rewrite length_fmap, length_seq. Qed.

Lemma copyin_src k s bytes len (Q : Z * list Z → kernel → Prop) :
  src_ok k s bytes → 0 ≤ len ≤ Z.of_nat (length bytes) → Q (0, take (Z.to_nat len) bytes) k → wp (either_copyin me s len) Q k.
Proof.
  intros Hs Hl HQ. unfold either_copyin. destruct s as [va|l].
  2:{ cbn in Hs. subst l. rewrite (proj2 (Z.ltb_ge _ _)) by lia. by wp_step. }
  destruct Hs as (p & l & own & Hp & Hi & Hr & Hu & Hva & _ & Hb & Hrd). wp_step. eapply wp_at_idx; [exact Hp|]. unfold vm. apply wp_zoom.
  replace len with (Z.of_nat (Z.to_nat len)) by lia. eapply wp_mono; [by apply (copyin_spec _ l own)|].
  intros [r bs] m (-> & j & Hbs & _ & Hend). cbn [fst snd] in *. destruct Hend as [[-> ->]|(_ & Hj & Hn)]; [|rewrite Hrd in Hn by lia; done].
  replace (upd_mach (λ _, mach k) k) with k by (by destruct k).
  assert (bs = take (Z.to_nat len) bytes) as ->; [|by replace (Z.of_nat (Z.to_nat len)) with len in * by lia].
  rewrite Hb, (user_bytes_split _ _ _ _ (Z.to_nat len)) by lia. by rewrite take_app_length' by (symmetry; apply length_user_bytes).
Qed.
Lemma src_ok_add k s bytes m :
  src_ok k s bytes → 0 ≤ m ≤ Z.of_nat (length bytes) → src_ok k (src_add s m) (drop (Z.to_nat m) bytes).
Proof.
  intros Hs Hm. destruct s as [va|l]; [|cbn in *; by subst l]. destruct Hs as (p & l & own & Hp & Hi & Hr & Hu & Hva & Hmax & Hb & Hrd).
  exists p, l, own. rewrite length_drop. unfold u64. rewrite Z.mod_small by lia. split_and!; try done; [lia|lia| |].
  - rewrite Hb at 1. rewrite (user_bytes_split _ _ _ _ (Z.to_nat m)) by lia. rewrite drop_app_length' by (symmetry; apply length_user_bytes).
    f_equal. lia.
  - intros a Ha. apply Hrd. lia.
Qed.
Lemma src_ok_frame k k' s bytes : fframe k k' → src_ok k s bytes → src_ok k' s bytes.
Proof.
  intros F Hs. destruct s as [va|l]; [|done]. destruct Hs as (p & l & own & Hp & Hs).
  destruct (Forall2_lookup_l _ _ _ _ _ (ff_procs _ _ F) Hp) as (q & Hq & Hw). exists q, l, own.
  assert (p_pagetable q = p_pagetable p) as -> by (destruct Hw as [->|[_ ->]]; done). by rewrite (fframe_mach _ _ F).
Qed.
Lemma src_ok_seti k i ip s bytes : src_ok (seti i ip k) s bytes ↔ src_ok k s bytes.
Proof. by destruct s. Qed.

(** One block: allocate, copy, log. *)
Lemma writei_step_wp k D hs V i ip n tot off s bytes (Q : Z * Z * src + Z * Z → kernel → Prop) :
  layout S → sb k = S → txn k D hs ∅ V → (length hs ≤ 18)%nat → meta_used S V → itable k !! i = Some ip → file_ok V ip →
  0 ≤ off → 0 ≤ tot < n → off + (n - tot) ≤ fsize → n ≤ fsize → Z.of_nat (length bytes) = n - tot →
  src_ok k s bytes →
  let m := Z.min (n - tot) (BSIZE - off mod BSIZE) in
  (∀ k' hs' V' ip', fframe (seti i ip' k) k' → txn k' D hs' ∅ V' → (length hs' ≤ length hs + 5)%nat →
     wrote V ip off [] V' ip' → (∀ n, 0 ≤ n < sb_size S → used S V' n = true) → Q (inr (tot, off)) k') →
  (∀ k' hs' V' ip', fframe (seti i ip' k) k' → txn k' D hs' ∅ V' → (length hs' ≤ length hs + 6)%nat →
     wrote V ip off (take (Z.to_nat m) bytes) V' ip' →
     Q (inl (tot + m, off + m, src_add s m)) k') →
  wp (writei_body me i n (tot, off, s)) Q k.
Proof.
  intros Hly Hsb Ht Hl Hm Hi Hf Ho Htot Hmax Hn Hlen Hsrc m Hfail Hok. unfold writei_body.
  rewrite (proj2 (Z.ltb_lt tot n)) by lia. pose proof (Z.mod_pos_bound off BSIZE ltac:(done)) as Hmod.
  assert (0 ≤ off / BSIZE < MAXFILE) as Hbn.
  { fs_consts. change MAXFILE with 268 in *. split; [apply Z.div_pos; lia|apply Z.div_lt_upper_bound; lia]. }
  wp_step. eapply bmap_wp; [done|done|exact Ht|lia|done|exact Hi|exact Hf|exact Hbn|].
  intros r k1 hs1 V1 ip1 F1 T1 Hl1 Hret. pose proof (bmap_wrote _ _ _ _ _ _ off Hly Hf Hbn Hret) as HW.
  destruct Hret as [Hg [(-> & _ & _ & Hall)|(Hr & Hs1 & _)]].
  { cbn [Z.eqb]. wp_step. by eapply Hfail. }
  rewrite (proj2 (Z.eqb_neq r 0)) by done. pose proof (g_ok _ _ _ _ _ Hg) as Hf1.
  assert (slots V1 ip1 !! Z.to_nat (off / BSIZE) = Some r) as Hr1.
  { rewrite Hs1. apply list_lookup_insert_eq. rewrite (length_slots _ _ _ Hf). change MAXFILE with 268 in *. lia. }
  wp_step. eapply wp_at_idx; [by eapply fframe_at|]. rewrite (fo_dev _ _ _ Hf1). cbv zeta. fold m.
  assert (0 < m ≤ Z.of_nat (length bytes)) as Hmb by (unfold m; fs_consts; lia).
  assert (off mod BSIZE + Z.of_nat (length (take (Z.to_nat m) bytes)) ≤ BSIZE) as Hfit by (rewrite length_take; unfold m; fs_consts; lia).
  pose proof (txn_sized _ _ _ _ _ _ _ _ T1) as HV1. destruct (fo_data _ _ _ Hf1 r) as [Hd _]; [right; by eapply list_elem_of_lookup_2|done|].
  eapply wp_bind, (txn_bread me pid ls); [exact T1|done|rewrite map_size_empty; fs_consts; lia|].
  intros bp k2 F2 T2. rewrite insert_empty in T2. wp_step. eapply copyin_src; [eapply src_ok_frame; [apply fframe_bframe, F2|]; eapply src_ok_frame; [exact F1|]; by apply src_ok_seti|lia|]. wp_step.
  eapply txn_data; [exact T2|apply lookup_singleton_eq|rewrite length_splice; [apply HV1|rewrite HV1; fs_consts; lia]|].
  intros k3 F3 T3. change (0 =? -1) with false. cbv iota. wp_step. destruct (data_block_ok S r Hly Hd) as [Hb1 Hb2].
  eapply txn_log_write; [exact T3|apply lookup_singleton_eq|done|done|lia|]. intros k4 F4 T4. wp_step.
  eapply txn_brelse; [exact T4|apply lookup_singleton_eq|left; rewrite elem_log_add; by left|].
  intros k5 F5 T5. rewrite delete_singleton_eq in T5. wp_step. pose proof (length_log_add hs1 r).
  rewrite !u32_id by (unfold m in *; change MAXFILE with 268 in *; fs_consts; lia).
  eapply Hok; [|exact T5|lia|].
  - etrans; [exact F1|]. etrans; [apply fframe_bframe, F2|]. etrans; [apply fframe_bframe, F3|].
    etrans; [apply fframe_tframe, F4|by apply fframe_bframe].
  - apply (wrote_trans _ _ off [] V1 ip1); [done|done|exact HW|]. rewrite Z.add_0_r. apply splice_wrote; try done. apply Hg.
Qed.

(** [writei] stops at the start, at the end or between two blocks. *)
Definition stops (off n tot : Z) : Prop := tot = 0 ∨ tot = n ∨ (off + tot) mod BSIZE = 0.

Lemma writei_loop_wp k D hs V i ip off s bytes (Q : Z * Z → kernel → Prop) :
  let n := Z.of_nat (length bytes) in
  layout S → sb k = S → txn k D hs ∅ V → (length hs + 6 * copy_meas n 0 off ≤ 24)%nat → meta_used S V →
  itable k !! i = Some ip → file_ok V ip → 0 ≤ off → off + n ≤ fsize → src_ok k s bytes →
  (∀ tot k' hs' V' ip', 0 ≤ tot ≤ n → fframe (seti i ip' k) k' → txn k' D hs' ∅ V' → (length hs' ≤ 24)%nat →
     wrote V ip off (take (Z.to_nat tot) bytes) V' ip' → stops off n tot →
     (tot < n → ∀ b, 0 ≤ b < sb_size S → used S V' b = true) → Q (tot, off + tot) k') →
  wp (loopM (Datatypes.S (Datatypes.S (Z.to_nat (n / BSIZE + 1)))) (writei_body me i n) (0, off, s)) Q k.
Proof.
  intros n Hly Hsb Ht Hl Hm Hi Hf Ho Hmax Hsrc HQ.
  eapply (wp_loop _ (λ '(tot, off', s1) k1, ∃ hs1 V1 ip1, 0 ≤ tot ≤ n ∧ off' = off + tot ∧ src_ok k1 s1 (drop (Z.to_nat tot) bytes) ∧
     fframe (seti i ip1 k) k1 ∧ txn k1 D hs1 ∅ V1 ∧ (length hs1 + 6 * copy_meas n tot off' ≤ 24)%nat ∧
     wrote V ip off (take (Z.to_nat tot) bytes) V1 ip1 ∧ stops off n tot)
     (λ '(tot, off', _), copy_meas n tot off')).
  { apply copy_meas_start; lia. }
  { exists hs, V, ip. split_and!; [lia|lia|lia|done|by rewrite seti_id|done|done| |by left].
    change (take (Z.to_nat 0) bytes) with (@nil Z).
    split; try done; [by destruct ip|intros o _; by rewrite decide_False by (cbn; lia)|intros o Hor; cbn in Hor; lia|auto]. }
  intros [[tot off'] s1] k1 (hs1 & V1 & ip1 & Htot & -> & Hsrc1 & F1 & T1 & Hl1 & HW & Hstop).
  destruct (Z.ltb_spec tot n) as [Hlt|Hge].
  2:{ unfold writei_body. rewrite (proj2 (Z.ltb_ge tot n)) by lia. wp_step. eapply HQ; [done|exact F1|exact T1|lia|done|done|lia]. }
  assert (0 < copy_meas n tot (off + tot))%nat as Hmeas.
  { pose proof (copy_meas_step n tot (off + tot) ltac:(lia) ltac:(lia)). cbv zeta in *. lia. }
  assert (length (take (Z.to_nat tot) bytes) = Z.to_nat tot) as Htl by (rewrite length_take; unfold n in *; lia).
  assert (∀ k2 ip2, fframe (seti i ip2 k1) k2 → fframe (seti i ip2 k) k2) as HF.
  { intros k2 ip2 F2. etrans; [|exact F2]. rewrite <-(seti_seti k i ip1). by apply fframe_seti. }
  eapply (writei_step_wp _ _ _ _ _ _ _ _ _ s1 (drop (Z.to_nat tot) bytes)); [done|by rewrite (fframe_sb _ _ F1)|exact T1|lia|apply HW|by eapply fframe_at|apply HW|lia|lia|lia|
    change MAXFILE with 268 in *; fs_consts; lia|rewrite length_drop; unfold n in *; lia|exact Hsrc1| |].
  - intros k2 hs2 V2 ip2 F2 T2 Hl2 HW2 Hall. eapply HQ; [done|by apply HF|exact T2|lia| |done|done].
    rewrite <-(app_nil_r (take _ _)). eapply wrote_trans; [done|done|exact HW|]. rewrite Htl, Z2Nat.id by lia. done.
  - intros k2 hs2 V2 ip2 F2 T2 Hl2 HW2. pose proof (copy_meas_step n tot (off + tot) ltac:(lia) ltac:(lia)) as Hdec. cbv zeta in Hdec.
    set (m := Z.min _ _) in *. assert (0 < m ≤ n - tot) as Hmr.
    { pose proof (Z.mod_pos_bound (off + tot) BSIZE ltac:(done)). unfold m. fs_consts. lia. }
    rewrite <-Z.add_assoc in Hdec |- *. split; [|done]. exists hs2, V2, ip2.
    split_and!; [lia|lia|done| |by apply HF|done|lia| |].
    { replace (Z.to_nat (tot + m)) with (Z.to_nat tot + Z.to_nat m)%nat by lia. rewrite <-drop_drop.
      apply src_ok_add; [eapply src_ok_frame; [exact F2|]; by apply src_ok_seti|rewrite length_drop; unfold n in *; lia]. }
    + replace (Z.to_nat (tot + m)) with (Z.to_nat tot + Z.to_nat m)%nat by lia. rewrite <-take_take_drop.
      eapply wrote_trans; [done|done|exact HW|]. rewrite Htl, Z2Nat.id by lia. done.
    + right. unfold m. fs_consts. clear. destruct (Z.min_spec (n - tot) (1024 - (off + tot) mod 1024)) as [[_ ->]|[_ ->]]; [left; lia|right].
      Z.div_mod_to_equations. lia.
Qed.

(** The file and the blocks after [writei] has written [bytes]. *)
Record wrote_file (V : Z → list Z) (ip : inode) (off : Z) (bytes : list Z) (V' : Z → list Z) (ip' : inode) : Prop := {
  wf_ok : file_ok V' ip';
  wf_size : i_size ip' = Z.max (i_size ip) (off + Z.of_nat (length bytes));
  wf_rest : ip' = upd_i_size (λ _, i_size ip') (upd_i_addrs (λ _, i_addrs ip') ip);
  wf_bytes : ∀ o, 0 ≤ o < fsize → fbyte V' ip' o =
    if decide (off ≤ o < off + Z.of_nat (length bytes)) then bytes !!! Z.to_nat (o - off) else fbyte V ip o;
  wf_slots : ∀ j b, slots V ip !! j = Some b → b ≠ 0 → slots V' ip' !! j = Some b;
  wf_there : no_holes V' ip' off (Z.of_nat (length bytes));
  wf_others : ∀ b, is_data S b → used S V b = true → b ∉ ind_of ip :: slots V ip → V' b = V b;
  wf_used : ∀ b, is_data S b → used S V b = true → used S V' b = true;
  wf_meta : meta_used S V';
  wf_fixed : ∀ n, n < data_start S → (∀ m, 0 ≤ m < sb_size S → BBLOCK m S ≠ n) → n ≠ IBLOCK (i_inum ip) S → V' n = V n;
  wf_disk : ∃ V0, V' = inode_V S V0 ip' ∧ sized V0 ∧ V0 (IBLOCK (i_inum ip) S) = V (IBLOCK (i_inum ip) S);
}.

Lemma slots_size V ip n : slots V (upd_i_size (λ _, n) ip) = slots V ip.
Proof. done. Qed.

Lemma wrote_inode V ip off bytes V2 ip2 size :
  layout S → sized V2 → inum_ok S (i_inum ip) → wrote V ip off bytes V2 ip2 →
  size = Z.max (i_size ip) (off + Z.of_nat (length bytes)) →
  let ip' := upd_i_size (λ _, size) ip2 in wrote_file V ip off bytes (inode_V S V2 ip') ip'.
Proof.
  intros Hly HV Hin HW Hsize ip'. set (V' := inode_V S V2 ip').
  assert (i_inum ip' = i_inum ip) as Hnum by (unfold ip'; rewrite (w_same _ _ _ _ _ _ HW); by destruct ip).
  rewrite <-Hnum in Hin.
  assert (∀ b, is_data S b → V' b = V2 b) as HVd by (intros b Hb; by apply inode_V_data).
  assert (∀ n, 0 ≤ n < sb_size S → used S V' n = used S V2 n) as HU by (intros n Hn; by apply used_inode).
  assert (file_ok V' ip2 ∧ slots V' ip2 = slots V2 ip2) as [Hf Hs].
  { apply file_ok_ext; [apply HW|auto|]. intros b Hb Hu. rewrite HU; [done|]. by apply data_range. }
  split.
  - destruct Hf as [F1 F2 F3 F4]. by split.
  - done.
  - unfold ip'. rewrite (w_same _ _ _ _ _ _ HW). by destruct ip.
  - intros o Ho. rewrite <-(w_bytes _ _ _ _ _ _ HW o Ho). unfold fbyte, blk. unfold ip'. rewrite slots_size, Hs.
    destruct (slots V2 ip2 !! _) as [b|] eqn:Hb; [|done]. case_decide; [done|]. rewrite HVd; [done|].
    eapply (fo_data _ _ _ (w_ok _ _ _ _ _ _ HW)); [right; by eapply list_elem_of_lookup_2|done].
  - unfold ip'. rewrite slots_size, Hs. apply HW.
  - unfold no_holes, ip'. rewrite slots_size, Hs. apply HW.
  - intros b Hd Hu Hn. rewrite HVd by done. by apply (w_others _ _ _ _ _ _ HW).
  - intros b Hd Hu. rewrite HU by (by apply data_range). by apply (w_used _ _ _ _ _ _ HW).
  - intros n Hn Hsz. rewrite HU by lia. by apply (w_meta _ _ _ _ _ _ HW).
  - intros n Hn HB Hne. unfold V', inode_V. rewrite Hnum, fn_lookup_insert_ne by done. by apply (w_rest _ _ _ _ _ _ HW).
  - exists V2. split_and!; [done|done|]. rewrite <-Hnum. destruct (inum_block _ _ Hly Hin) as (_ & ? & ?). by apply (w_rest _ _ _ _ _ _ HW).
Qed.

(** Everything but the file [ip] is as before: the superblock, the log and the
    other inodes, and the contents of the files that share no block with it. *)
Record others_kept (V : Z → list Z) (ip : inode) (V' : Z → list Z) : Prop := {
  ok_fixed : ∀ n, n < data_start S → (∀ m, 0 ≤ m < sb_size S → BBLOCK m S ≠ n) → n ≠ IBLOCK (i_inum ip) S → V' n = V n;
  ok_inode : ∀ m x, inum_ok S m → m < 2 ^ 31 → m ≠ i_inum ip →
    read_dinode (dinode_off m) (V' (IBLOCK m S)) x = read_dinode (dinode_off m) (V (IBLOCK m S)) x;
  ok_file : ∀ x, file_ok V x → (∀ b, b ∈ ind_of x :: slots V x → b ≠ 0 → b ∉ ind_of ip :: slots V ip) →
    file_ok V' x ∧ slots V' x = slots V x ∧ ∀ o, fbyte V' x o = fbyte V x o;
}.

Lemma wrote_others V ip off bytes V' ip' :
  layout S → 0 ≤ inodestart S < 2 ^ 31 → inum_ok S (i_inum ip) → i_inum ip < 2 ^ 31 → sized V →
  wrote_file V ip off bytes V' ip' → others_kept V ip V'.
Proof.
  intros Hly Hst Hin Hlt HV HW. split; [apply HW| |].
  - intros m x Hm Hm31 Hne. destruct (wf_disk _ _ _ _ _ _ HW) as (V0 & E & HV0 & Eb).
    assert (i_inum ip' = i_inum ip) as Hnum by (rewrite (wf_rest _ _ _ _ _ _ HW); by destruct ip).
    destruct Hin as [Hi0 Hib]. destruct Hm as [Hm0 Hmb] eqn:E0; clear E0.
    destruct (decide (IBLOCK m S = IBLOCK (i_inum ip) S)) as [Es|Es].
    + rewrite E, (other_inode S V0 ip' m x) by (done || rewrite ?Hnum; first [lia|apply (fo_len _ _ _ (wf_ok _ _ _ _ _ _ HW))|congruence]).
      by rewrite Es, Eb.
    + destruct (inum_block S m Hly Hm) as (_ & ? & ?). by rewrite (wf_fixed _ _ _ _ _ _ HW).
  - intros x Hx Hdis. apply file_kept; [done| |].
    + intros b Hb Hb0. destruct (fo_data _ _ _ Hx b Hb Hb0). apply (wf_others _ _ _ _ _ _ HW); auto.
    + intros b Hb Hb0. destruct (fo_data _ _ _ Hx b Hb Hb0). by apply (wf_used _ _ _ _ _ _ HW).
Qed.

Lemma writei_wp k D hs V i ip off s bytes (Q : Z → kernel → Prop) :
  let n := Z.of_nat (length bytes) in
  layout S → sb k = S → txn k D hs ∅ V → (length hs + 6 * copy_meas n 0 off ≤ 24)%nat → meta_used S V →
  itable k !! i = Some ip → file_ok V ip → inum_ok S (i_inum ip) → 0 ≤ off ≤ i_size ip → i_size ip ≤ fsize → off + n ≤ fsize → src_ok k s bytes →
  (∀ tot k' hs' V' ip', 0 ≤ tot ≤ n → fframe (seti i ip' k) k' → txn k' D hs' ∅ V' → (length hs' ≤ 25)%nat →
     wrote_file V ip off (take (Z.to_nat tot) bytes) V' ip' → stops off n tot →
     (tot < n → ∀ b, 0 ≤ b < sb_size S → used S V' b = true) → Q tot k') →
  wp (writei me i s off n) Q k.
Proof.
  intros n Hly Hsb Ht Hl Hm Hi Hf Hin Hoff Hsz Hmax Hsrc HQ. unfold writei. wp_step. eapply wp_at_idx; [exact Hi|].
  assert (0 ≤ off + n < 2 ^ 32) as Hr by (change MAXFILE with 268 in *; fs_consts; lia). rewrite u32_id by done.
  rewrite !(proj2 (Z.ltb_ge _ _)) by lia. cbn [orb]. wp_step.
  eapply writei_loop_wp; [done|done|exact Ht|exact Hl|done|exact Hi|done|lia|done|exact Hsrc|].
  intros tot k1 hs1 V1 ip1 Htot F1 T1 Hl1 HW Hstop Hfull. wp_step. eapply wp_at_idx; [by eapply fframe_at|].
  assert (length (take (Z.to_nat tot) bytes) = Z.to_nat tot) as Htl by (rewrite length_take; unfold n in *; lia).
  assert (i_size ip1 = i_size ip ∧ i_inum ip1 = i_inum ip) as [Hs1 Hn1] by (rewrite (w_same _ _ _ _ _ _ HW); by destruct ip).
  set (size := Z.max (i_size ip) (off + Z.of_nat (length (take (Z.to_nat tot) bytes)))).
  set (ip' := upd_i_size (λ _, size) ip1).
  assert (wp (iupdate me i ;; mret tot) Q (seti i ip' k1)) as Hend.
  { wp_step. eapply (iupdate_wp me pid S); [done|exact (eq_trans (fframe_sb _ _ F1) Hsb)|by apply txn_seti|lia|
      eapply lookup_seti; by eapply fframe_at|apply HW|apply HW|by unfold ip'; cbn; rewrite Hn1|].
    intros k2 F2 T2. wp_step. pose proof (wrote_inode _ _ _ _ _ _ size Hly (txn_sized _ _ _ _ _ _ _ _ T1) Hin HW eq_refl) as HWF.
    eapply HQ; [done| |exact T2| |exact HWF|done|].
    - etrans; [|apply fframe_tframe, F2]. rewrite <-(seti_seti k i ip1). by apply fframe_seti.
    - pose proof (length_log_add hs1 (IBLOCK (i_inum ip') S)). lia.
    - intros Hlt b Hb. rewrite used_inode; [by apply Hfull|done|unfold ip'; cbn; by rewrite Hn1|done]. }
  wp_step. case_if Hlt.
  - eapply wp_set_idx; [by eapply fframe_at|]. replace (off + tot) with size by (unfold size; lia). exact Hend.
  - wp_step. rewrite <-(seti_id k1 i ip') by (rewrite (fframe_at _ _ _ _ _ Hi F1); f_equal; unfold ip', size; rewrite Htl;
      replace (Z.max _ _) with (i_size ip1) by lia; by destruct ip1). exact Hend.
Qed.

(** A write beyond the largest file is refused. *)
Lemma writei_big_wp k i ip off s n (Q : Z → kernel → Prop) :
  itable k !! i = Some ip → 0 ≤ off → 0 ≤ n → fsize < off + n < 2 ^ 32 → Q (-1) k → wp (writei me i s off n) Q k.
Proof.
  intros Hi Ho Hn Hb HQ. unfold writei. wp_step. eapply wp_at_idx; [exact Hi|]. rewrite u32_id by (change MAXFILE with 268 in *; fs_consts; lia).
  rewrite (proj2 (Z.ltb_lt fsize (off + n))) by lia. destruct (_ || _); by wp_step.
Qed.

(** ** Reading and writing whole files *)

(** Every byte below the size of the file has its block: xv6 files have no holes. *)
Definition whole (V : Z → list Z) (ip : inode) : Prop := 0 ≤ i_size ip ≤ fsize ∧ no_holes V ip 0 (i_size ip).

Lemma whole_wrote V ip off bytes V' ip' :
  whole V ip → 0 ≤ off ≤ i_size ip → off + Z.of_nat (length bytes) ≤ fsize → wrote_file V ip off bytes V' ip' → whole V' ip'.
Proof.
  intros [Hs Hn] Hoff Hmax HW. split; rewrite (wf_size _ _ _ _ _ _ HW); [lia|]. intros o Ho.
  destruct (decide (o < i_size ip)) as [Hlt|Hge].
  - destruct (Hn o) as (b & Hb & Hb0); [lia|]. exists b. split; [|done]. by apply (wf_slots _ _ _ _ _ _ HW).
  - apply (wf_there _ _ _ _ _ _ HW). lia.
Qed.

Lemma addrs_in_range V ip : layout S → file_ok V ip → Forall (λ a, 0 ≤ a < 2 ^ 32) (i_addrs ip).
Proof.
  intros Hly Hf. apply Forall_lookup_2. intros j a Ha. destruct (decide (a = 0)) as [->|Ha0]; [lia|].
  assert (a ∈ ind_of ip :: slots V ip) as Hin.
  { pose proof (lookup_lt_Some _ _ _ Ha) as Hj. rewrite (fo_len _ _ _ Hf) in Hj. change (Z.to_nat (NDIRECT + 1)) with 13%nat in Hj.
    destruct (decide (j = 12%nat)) as [->|Hne].
    - apply elem_of_cons. left. symmetry. unfold ind_of. change (Z.to_nat NDIRECT) with 12%nat. by rewrite Ha.
    - right. apply list_elem_of_lookup_2 with j. rewrite <-Ha. rewrite <-(Nat2Z.id j). eapply slots_direct; [exact Hf|].
      change NDIRECT with 12. lia. }
  destruct (fo_data _ _ _ Hf a Hin Ha0) as [Hd _]. destruct (data_range S a Hly Hd). pose proof (ly_size _ Hly). lia.
Qed.

Lemma disk_wrote V ip off bytes V' ip' :
  layout S → dinode_ok ip → inum_ok S (i_inum ip) → off + Z.of_nat (length bytes) < 2 ^ 32 → wrote_file V ip off bytes V' ip' →
  read_dinode (dinode_off (i_inum ip)) (V' (IBLOCK (i_inum ip) S)) ip' = ip'.
Proof.
  intros Hly [H1 H2 H3 H4 H5 _ _] Hin Hoff HW. destruct (wf_disk _ _ _ _ _ _ HW) as (V0 & E & HV0 & _).
  pose proof (wf_rest _ _ _ _ _ _ HW) as Hr. pose proof (wf_size _ _ _ _ _ _ HW) as Hsz. pose proof (wf_ok _ _ _ _ _ _ HW) as Hf.
  assert (i_inum ip' = i_inum ip ∧ i_type ip' = i_type ip ∧ i_major ip' = i_major ip ∧ i_minor ip' = i_minor ip ∧
    i_nlink ip' = i_nlink ip) as (Hn & E1 & E2 & E3 & E4) by (rewrite Hr; by destruct ip). rewrite E, <-Hn in *. rewrite disk_inode; [by destruct ip'| |done|done].
  split; [by rewrite E1|by rewrite E2|by rewrite E3|by rewrite E4|lia|..].
  - apply Hf.
  - by eapply addrs_in_range.
Qed.

Lemma no_holes_sub V ip off n off' n' : no_holes V ip off n → off ≤ off' → off' + n' ≤ off + n → no_holes V ip off' n'.
Proof. intros Hn H1 H2 o Ho. apply Hn. lia. Qed.

(** What [readi] delivers: the bytes of the file that exist. *)
Definition avail (ip : inode) (off n : Z) : Z := Z.max 0 (Z.min n (i_size ip - off)).

Lemma readi_wp P V `{!BlockReader me pid P V} k i ip d off n (Q : Z * list Z → kernel → Prop) :
  P k ∅ → itable k !! i = Some ip → file_ok V ip → whole V ip →
  0 ≤ off → 0 ≤ n → off + n < 2 ^ 32 → kdst d (avail ip off n) →
  (∀ k', bframe (kput d (fbytes V ip off (avail ip off n)) k) k' → P k' ∅ →
     Q (avail ip off n, fbytes V ip off (avail ip off n)) k') →
  wp (readi me i d off n) Q k.
Proof.
  intros Ht Hi Hf [Hsz Hnh] Ho Hn Hr Hd HQ. unfold readi. wp_step. eapply wp_at_idx; [exact Hi|]. rewrite u32_id by lia.
  rewrite (proj2 (Z.ltb_ge (off + n) off)), orb_false_r by lia. case_if Hgt.
  { wp_step. unfold avail in HQ. replace (Z.max 0 _) with 0 in HQ by lia.
    apply (HQ k); [|done]. change (fbytes V ip off 0) with (@nil Z). by rewrite kput_nil. }
  cbv zeta. assert ((if i_size ip <? off + n then i_size ip - off else n) = avail ip off n) as ->.
  { unfold avail. destruct (Z.ltb_spec (i_size ip) (off + n)); lia. }
  eapply readi_loop_wp; [done|exact Ht|exact Hi|done|done|unfold avail; lia|unfold avail; lia|done| |exact HQ].
  eapply no_holes_sub; [exact Hnh|lia|unfold avail; lia].
Qed.

(** [readi] into kernel memory or a variable returns the bytes [off] to
    [off + n - 1] of the file, cut at its size, puts them at the destination,
    and changes no block. *)
Theorem readi_spec k D hs V i ip d off n :
  txn k D hs ∅ V → (length hs < Z.to_nat NBUF)%nat → itable k !! i = Some ip → file_ok V ip → whole V ip →
  0 ≤ off → 0 ≤ n → off + n < 2 ^ 32 → kdst d (avail ip off n) →
  ∃ k', readi me i d off n k = Done (avail ip off n, fbytes V ip off (avail ip off n)) k' ∧ txn k' D hs ∅ V ∧
    mach k' = mach (kput d (fbytes V ip off (avail ip off n)) k) ∧ itable k' = itable k.
Proof.
  intros Ht Hl Hi Hf Hw Ho Hn Hr Hd.
  assert (wp (readi me i d off n) (λ r k', r = (avail ip off n, fbytes V ip off (avail ip off n)) ∧ txn k' D hs ∅ V ∧
    mach k' = mach (kput d (fbytes V ip off (avail ip off n)) k) ∧ itable k' = itable k) k) as Hwp.
  { eapply (readi_wp (txn_read me pid S D hs V) V); [by apply txn_read_start|done..|]. intros k' F (T & _). split_and!; [done|done|by rewrite (fframe_mach _ _ (fframe_bframe _ _ F))|].
    rewrite (bframe_itable _ _ F). by destruct d. }
  apply wp_elim in Hwp as (r & k' & Hrun & -> & H1 & H2 & H3). by exists k'.
Qed.

(** C2: [writei] of [bytes], from the kernel or from the memory of the process, at
    [off] inside a transaction with room for the blocks it touches (a write of
    [filewrite] touches at most four) never panics.  It writes a prefix, all of it
    unless the disk is full, grows the file to the end of it, leaves the other
    bytes of the file alone, keeps the file well formed and without holes, and its
    inode is on disk.  The other inodes, also those in the same block, the
    superblock and the log stay as they are, and so do the contents of every file
    that shares no block with it. *)
Theorem writei_spec k D hs V i ip off s bytes :
  let n := Z.of_nat (length bytes) in
  layout S → 0 ≤ inodestart S < 2 ^ 31 → sb k = S → txn k D hs ∅ V → (length hs + 6 * copy_meas n 0 off ≤ 24)%nat → meta_used S V →
  itable k !! i = Some ip → file_ok V ip → dinode_ok ip → inum_ok S (i_inum ip) → i_inum ip < 2 ^ 31 → whole V ip →
  0 ≤ off ≤ i_size ip → off + n ≤ fsize → src_ok k s bytes →
  ∃ tot k' hs' V' ip', writei me i s off n k = Done tot k' ∧ txn k' D hs' ∅ V' ∧
    itable k' = <[i := ip']> (itable k) ∧ 0 ≤ tot ≤ n ∧ wrote_file V ip off (take (Z.to_nat tot) bytes) V' ip' ∧ whole V' ip' ∧
    (tot < n → ∀ b, 0 ≤ b < sb_size S → used S V' b = true) ∧
    read_dinode (dinode_off (i_inum ip)) (V' (IBLOCK (i_inum ip) S)) ip' = ip' ∧ others_kept V ip V'.
Proof.
  intros n Hly Hst Hsb Ht Hl Hm Hi Hf Hd Hin H31 Hw Hoff Hmax Hsrc.
  assert (wp (writei me i s off n) (λ tot k', ∃ hs' V' ip', txn k' D hs' ∅ V' ∧
    itable k' = <[i := ip']> (itable k) ∧ 0 ≤ tot ≤ n ∧ wrote_file V ip off (take (Z.to_nat tot) bytes) V' ip' ∧ whole V' ip' ∧
    (tot < n → ∀ b, 0 ≤ b < sb_size S → used S V' b = true) ∧
    read_dinode (dinode_off (i_inum ip)) (V' (IBLOCK (i_inum ip) S)) ip' = ip' ∧ others_kept V ip V') k) as Hwp.
  { eapply writei_wp; [done|done|exact Ht|done|done|exact Hi|done|done|done|apply Hw|done|exact Hsrc|].
    intros tot k' hs' V' ip' Htot F T Hl' HW _ Hfull. exists hs', V', ip'.
    assert (off + Z.of_nat (length (take (Z.to_nat tot) bytes)) ≤ fsize) by (rewrite length_take; unfold n in *; lia).
    split_and!; [done|by rewrite (fframe_itable _ _ F)|lia|lia|done| |done| |].
    - by eapply whole_wrote.
    - eapply disk_wrote; [done|done|done| |exact HW]. change MAXFILE with 268 in *. fs_consts. lia.
    - eapply wrote_others; [done..|by eapply txn_sized|exact HW]. }
  apply wp_elim in Hwp as (tot & k' & Hrun & hs' & V' & ip' & HQ). by exists tot, k', hs', V', ip'.
Qed.

(** C3: Reading back what [writei] reports as written gives those bytes. *)
Theorem writei_readi k D hs V i ip off bytes :
  let n := Z.of_nat (length bytes) in
  layout S → sb k = S → txn k D hs ∅ V → (length hs + 6 * copy_meas n 0 off ≤ 24)%nat → meta_used S V →
  itable k !! i = Some ip → file_ok V ip → inum_ok S (i_inum ip) → whole V ip → 0 ≤ off ≤ i_size ip → off + n ≤ fsize →
  ∃ tot k', (tot ← writei me i (SLocal bytes) off n; readi me i DLocal off tot) k = Done (tot, take (Z.to_nat tot) bytes) k'.
Proof.
  intros n Hly Hsb Ht Hl Hm Hi Hf Hin Hw Hoff Hmax.
  assert (wp (tot ← writei me i (SLocal bytes) off n; readi me i DLocal off tot)
    (λ r _, r.2 = take (Z.to_nat r.1) bytes) k) as Hwp.
  { wp_step. eapply writei_wp; [done|done|exact Ht|done|done|exact Hi|done|done|done|apply Hw|done|reflexivity|].
    intros tot k' hs' V' ip' Htot F T Hl' HW _ _.
    assert (length (take (Z.to_nat tot) bytes) = Z.to_nat tot) as Htl by (rewrite length_take; unfold n in *; lia).
    assert (avail ip' off tot = tot) as Hav by (unfold avail; rewrite (wf_size _ _ _ _ _ _ HW); lia).
    eapply (readi_wp (txn_read me pid S D hs' V') V'); [apply txn_read_start; [exact T|fs_consts; lia]|by eapply fframe_at|apply HW| |lia|lia| |done|].
    - eapply whole_wrote; [done|exact Hoff| |exact HW]. lia.
    - change MAXFILE with 268 in *. fs_consts. lia.
    - intros k2 _ _. rewrite Hav. cbn [fst snd]. apply list_eq_same_length with (Z.to_nat tot); [lia|by rewrite length_fbytes by lia|].
      intros j x y Hj Hx Hy. rewrite <-(Nat2Z.id j) in Hx. rewrite fbytes_lookup in Hx by lia. injection Hx as <-.
      rewrite (wf_bytes _ _ _ _ _ _ HW) by lia. rewrite decide_True by lia.
      replace (Z.to_nat (off + Z.of_nat j - off)) with j by lia. by apply list_lookup_total_correct. }
  apply wp_elim in Hwp as ([tot l] & k' & Hrun & HQ). cbn in HQ. exists tot, k'. by rewrite Hrun, HQ.
Qed.
End fswrite.
