(* ===== verification/FsDir.v ===== *)
(** * Directories

    [dirlookup] and [dirlink] of [kernel/fs.c] against the finite map from names
    to inode numbers that the entries of a directory stand for. *)

From S2P Require Import Prelude Riscv Memory CString Kalloc State Bytes Sched Bio BioSpec Cache Log LogSpec Crash Txn Fs FsBlock FsFile FsInode FsWrite.

(** ** The entries of a directory *)

(** Two names are the same when their first [DIRSIZ] characters are. *)
Definition dname (l : list Z) : list Z := take (Z.to_nat DIRSIZ) (cstr l).

Definition dirents (V : Z → list Z) (ip : inode) : list (list Z) :=
  (λ j, fbytes V ip (DIRENT_SIZE * j) DIRENT_SIZE) <$> seqZ 0 (i_size ip / DIRENT_SIZE).

(** An entry in use, of the given name. *)
Definition binds (nm : list Z) (de : list Z) : Prop := de_inum de ≠ 0 ∧ dname (de_name de) = nm.
#[global] Instance binds_dec nm de : Decision (binds nm de).
Proof. unfold binds. apply _. Defined.

Definition dir_find (V : Z → list Z) (ip : inode) (nm : list Z) : option (nat * list Z) := list_find (binds nm) (dirents V ip).
(** The directory as a map from names to inode numbers. *)
Definition dir_map (V : Z → list Z) (ip : inode) (nm : list Z) : option Z := de_inum ∘ snd <$> dir_find V ip nm.

(** The slot of the inode table that [iget] takes, and what it holds then. *)
Definition iget_slot (tbl : list inode) (dev inum : Z) : option (nat * inode) :=
  match list_find (λ ip, 0 < i_ref ip ∧ i_dev ip = dev ∧ i_inum ip = inum) tbl with
  | Some (i, ip) => Some (i, upd_i_ref (λ r, r + 1) ip)
  | None =>
      (λ '(i, ip), (i, upd_i_valid (λ _, false) (upd_i_ref (λ _, 1) (upd_i_inum (λ _, inum) (upd_i_dev (λ _, dev) ip))))) <$>
        list_find (λ ip, i_ref ip = 0) tbl
  end.

Lemma iget_slot_lookup tbl dev inum i ip' : iget_slot tbl dev inum = Some (i, ip') → is_Some (tbl !! i).
Proof.
  unfold iget_slot. destruct (list_find _ tbl) as [[i0 ip0]|] eqn:E1.
  - intros [= -> _]. apply list_find_Some in E1 as (Hi & _). by eexists.
  - clear E1. destruct (list_find (λ ip, i_ref ip = 0) tbl) as [[i0 ip0]|] eqn:E2; [|done]. intros [= -> _].
    apply list_find_Some in E2 as (Hi & _). by eexists.
Qed.
Lemma iget_wp k dev inum i ip' (Q : nat → kernel → Prop) :
  iget_slot (itable k) dev inum = Some (i, ip') → Q i (seti i ip' k) → wp (iget dev inum) Q k.
Proof.
  intros Hs HQ. unfold iget_slot in Hs. unfold iget. wp_step. wp_step. destruct (list_find _ (itable k)) as [[i0 ip0]|] eqn:E1.
  - injection Hs as -> <-. apply list_find_Some in E1 as (Hi & _). wp_step. eapply wp_set_idx; [exact Hi|]. by wp_step.
  - clear E1. destruct (list_find (λ ip, i_ref ip = 0) (itable k)) as [[i0 ip0]|] eqn:E2; [|done]. injection Hs as -> <-.
    apply list_find_Some in E2 as (Hi & _). wp_step. eapply wp_set_idx; [exact Hi|]. by wp_step.
Qed.

Lemma iget_slot_free tbl dev inum i0 ip0 :
  tbl !! i0 = Some ip0 → i_ref ip0 = 0 →
  ∃ i ip, iget_slot tbl dev inum = Some (i, ip) ∧ i_dev ip = dev ∧ i_inum ip = inum ∧ 0 < i_ref ip ∧ (i < length tbl)%nat.
Proof.
  intros Hi Hr. unfold iget_slot. destruct (list_find _ tbl) as [[i ip]|] eqn:E1.
  { apply list_find_Some in E1 as (Hip & (H1 & H2 & H3) & _). eexists i, _. split; [done|]. cbn. apply lookup_lt_Some in Hip. lia. }
  clear E1. destruct (list_find (λ ip, i_ref ip = 0) tbl) as [[i ip]|] eqn:E2.
  - apply list_find_Some in E2 as (Hip & _ & _). eexists i, _. split; [done|]. cbn. apply lookup_lt_Some in Hip. lia.
  - apply list_find_None in E2. by rewrite Forall_lookup in E2; apply (E2 _ _ Hi) in Hr.
Qed.

Lemma length_dirents V ip : 0 ≤ i_size ip → length (dirents V ip) = Z.to_nat (i_size ip / DIRENT_SIZE).
Proof. intros. unfold dirents. by rewrite length_fmap, length_seqZ. Qed.
Lemma dirents_lookup V ip j : 0 ≤ j < i_size ip / DIRENT_SIZE →
  dirents V ip !! Z.to_nat j = Some (fbytes V ip (DIRENT_SIZE * j) DIRENT_SIZE).
Proof. intros Hj. unfold dirents. rewrite list_lookup_fmap, lookup_seqZ_lt by lia. cbn. do 3 f_equal. lia. Qed.

(** [namecmp] compares names. *)
Lemma namecmp_wp k nm de (Q : Z → kernel → Prop) :
  readable (Z.to_nat DIRSIZ) nm → length de = Z.to_nat DIRENT_SIZE →
  (∀ c, (c = 0 ↔ dname (de_name de) = dname nm) → Q c k) → wp (namecmp nm (de_name de)) Q k.
Proof.
  intros Hr Hl HQ. unfold namecmp.
  destruct (strncmp_spec (Z.to_nat DIRSIZ) nm (de_name de)) as (c & -> & Hc); [done| |].
  { left. unfold de_name, slice. rewrite length_take, length_drop, Hl. done. }
  wp_step. apply HQ. rewrite Hc. unfold dname. naive_solver.
Qed.

(** ** A new entry *)

Section find.
Context {A : Type} (P : A → Prop) `{!∀ x, Decision (P x)}.
Lemma find_skip l1 e l2 : ¬ P e → snd <$> list_find P (l1 ++ e :: l2) = snd <$> list_find P (l1 ++ l2).
Proof using Type.
  intros He. induction l1 as [|a l1 IH]; cbn [app list_find].
  - rewrite decide_False by done. by destruct (list_find P l2) as [[]|].
  - case_decide; [done|]. destruct (list_find P (l1 ++ e :: l2)) as [[]|], (list_find P (l1 ++ l2)) as [[]|]; done.
Qed.
Lemma find_here l1 e l2 : (∀ x, x ∈ l1 → ¬ P x) → P e → snd <$> list_find P (l1 ++ e :: l2) = Some e.
Proof using Type.
  intros Hl He. induction l1 as [|a l1 IH]; cbn [app list_find]; [by rewrite decide_True|].
  rewrite decide_False by (apply Hl; left). specialize (IH (λ x Hx, Hl x (list_elem_of_further _ _ _ Hx))).
  destruct (list_find P (l1 ++ e :: l2)) as [[]|]; done.
Qed.
End find.

(** The entry that [dirlink] writes over [de]. *)
Definition new_dirent (nm : list Z) (inum : Z) : list Z :=
  le_put 2 inum ++ dname nm ++ replicate (Z.to_nat DIRSIZ - length (cstr nm)) 0.

Lemma length_new_dirent nm inum : length (new_dirent nm inum) = Z.to_nat DIRENT_SIZE.
Proof.
  unfold new_dirent, dname. rewrite !length_app, length_le_put, length_take, length_replicate. change (Z.to_nat DIRSIZ) with 14%nat.
  change (Z.to_nat DIRENT_SIZE) with 16%nat. lia.
Qed.
Lemma new_dirent_binds nm inum : 0 < inum < 2 ^ 16 → binds (dname nm) (new_dirent nm inum) ∧ de_inum (new_dirent nm inum) = inum.
Proof.
  intros Hi. assert (de_inum (new_dirent nm inum) = inum) as Hin.
  { unfold de_inum, get16, new_dirent, slice. change (Z.to_nat 0) with 0%nat. rewrite drop_0.
    rewrite take_app_le, take_ge by (by rewrite length_le_put). rewrite le_get_put; [done|]. change (256 ^ Z.of_nat 2) with (2 ^ 16). lia. }
  split; [|done]. split; [lia|]. unfold de_name, slice, new_dirent. rewrite drop_app_length' by (by rewrite length_le_put).
  assert (length (dname nm ++ replicate (Z.to_nat DIRSIZ - length (cstr nm)) 0) = Z.to_nat DIRSIZ) as Hl.
  { unfold dname. rewrite length_app, length_take, length_replicate. lia. }
  rewrite take_ge by lia. unfold dname at 1.
  assert (∀ c, c ∈ dname nm → c ≠ 0) as Hnz by (intros c Hc; by eapply cstr_nonzero, subseteq_take).
  assert (cstr (dname nm ++ replicate (Z.to_nat DIRSIZ - length (cstr nm)) 0) = dname nm) as ->.
  { destruct (Z.to_nat DIRSIZ - length (cstr nm))%nat as [|m]; [|by apply cstr_app_nul].
    rewrite app_nil_r. clear - Hnz. induction (dname nm) as [|c l IH]; [done|]. cbn [cstr].
    rewrite (proj2 (Z.eqb_neq c 0)) by (apply Hnz; left). f_equal. apply IH. intros d Hd. apply Hnz. by right. }
  unfold dname. by rewrite take_take, Nat.min_id.
Qed.

Section fsdir.
Context {I : Image} `{SleepFuel} (me : nat) (pid : Z) (S : superblock).
Notation file_ok := (file_ok S).
Notation txn := (txn me pid (logstart S)).

Record dir_ok (V : Z → list Z) (ip : inode) : Prop := {
  do_type : i_type ip = T_DIR;
  do_size : i_size ip mod DIRENT_SIZE = 0;
  do_file : file_ok V ip;
  do_whole : whole V ip;
}.

(** Reading entry [j]. *)
Lemma read_dirent P V `{!BlockReader me pid P V} k dp x j (Q : Z * list Z → kernel → Prop) :
  P k ∅ → itable k !! dp = Some x → dir_ok V x → 0 ≤ j → DIRENT_SIZE * j < i_size x →
  (∀ k' de, bframe k k' → P k' ∅ → dirents V x !! Z.to_nat j = Some de → length de = Z.to_nat DIRENT_SIZE → Q (DIRENT_SIZE, de) k') →
  wp (readi me dp DLocal (DIRENT_SIZE * j) DIRENT_SIZE) Q k.
Proof.
  intros Hp Hx [Ht Hm Hf Hw] Hj Hlt HQ. pose proof (proj1 Hw) as Hs. change DIRENT_SIZE with 16 in *. change MAXFILE with 268 in *. fs_consts.
  eapply (readi_wp me pid S P V); [exact Hp|exact Hx|done|done|lia|lia|lia|done|].
  assert (avail x (16 * j) 16 = 16) as ->.
  { unfold avail. assert (16 * j + 16 ≤ i_size x); [|lia]. clear - Hm Hlt. Z.div_mod_to_equations. lia. }
  intros k' F' P'. apply HQ; [exact F'|exact P'| |by rewrite length_fbytes].
  rewrite dirents_lookup; [done|]. clear - Hm Hlt Hj. change DIRENT_SIZE with 16. Z.div_mod_to_equations. lia.
Qed.

(** Entries [0] to [j - 1] do not bind [nm]. *)
Definition unbound (nm : list Z) (V : Z → list Z) (ip : inode) (j : Z) : Prop :=
  ∀ i de, dirents V ip !! i = Some de → Z.of_nat i < j → ¬ binds nm de.

Lemma unbound_step nm V ip j de :
  unbound nm V ip j → dirents V ip !! Z.to_nat j = Some de → 0 ≤ j → ¬ binds nm de → unbound nm V ip (j + 1).
Proof using Type.
  intros Hu Hj H0 Hb i de' Hi Hlt. destruct (decide (Z.of_nat i < j)) as [Hl|Hl]; [by apply (Hu i)|].
  assert (i = Z.to_nat j) as -> by lia. congruence.
Qed.
Lemma unbound_find nm V ip j de :
  unbound nm V ip j → dirents V ip !! Z.to_nat j = Some de → 0 ≤ j → binds nm de → dir_find V ip nm = Some (Z.to_nat j, de).
Proof using Type.
  intros Hu Hj H0 Hb. apply list_find_Some. split_and!; [done|done|]. intros i de' Hi Hlt. apply (Hu i); [done|lia].
Qed.
Lemma unbound_all nm V ip j :
  0 ≤ i_size ip → unbound nm V ip j → i_size ip ≤ DIRENT_SIZE * j → dir_find V ip nm = None.
Proof using Type.
  intros Hs Hu Hj. apply list_find_None, Forall_lookup_2. intros i de Hi. apply (Hu i); [done|].
  pose proof (lookup_lt_Some _ _ _ Hi) as Hl. rewrite length_dirents in Hl by done. change DIRENT_SIZE with 16 in *.
  clear - Hl Hj Hs. Z.div_mod_to_equations. lia.
Qed.

Lemma dir_bounds V ip : dir_ok V ip → 0 ≤ i_size ip ≤ 274432 ∧ ∀ j, 0 ≤ j → DIRENT_SIZE * j < i_size ip → DIRENT_SIZE * (j + 1) ≤ i_size ip.
Proof using Type.
  intros [_ Hm _ [Hs _]]. change MAXFILE with 268 in Hs. fs_consts. split; [lia|]. intros j Hj Hl. change DIRENT_SIZE with 16 in *.
  clear - Hm Hl. Z.div_mod_to_equations. lia.
Qed.

Lemma dirlookup_wp P V `{!BlockReader me pid P V} k dp x nm (Q : option (nat * Z) → kernel → Prop) :
  P k ∅ → itable k !! dp = Some x → dir_ok V x → readable (Z.to_nat DIRSIZ) nm →
  match dir_find V x (dname nm) with
  | None => ∀ k', bframe k k' → P k' ∅ → Q None k'
  | Some (j, de) => ∃ i ip', iget_slot (itable k) ROOTDEV (de_inum de) = Some (i, ip') ∧
      ∀ k', bframe (seti i ip' k) k' → P k' ∅ → Q (Some (i, DIRENT_SIZE * Z.of_nat j)) k'
  end → wp (dirlookup me dp nm) Q k.
Proof.
  intros Hp Hx Hd Hr HQ. destruct (dir_bounds V x Hd) as [Hsz Hstep].
  unfold dirlookup. wp_step. eapply wp_at_idx; [exact Hx|]. rewrite (do_type _ _ Hd). change (negb (T_DIR =? T_DIR)) with false. cbv iota.
  eapply (wp_loop _ (λ off k1, ∃ j, off = DIRENT_SIZE * j ∧ 0 ≤ j ∧ bframe k k1 ∧ P k1 ∅ ∧ unbound (dname nm) V x j)
    (λ off, Z.to_nat ((i_size x - off + 15) / DIRENT_SIZE))).
  { change DIRENT_SIZE with 16. clear - Hsz. Z.div_mod_to_equations. lia. }
  { exists 0. split_and!; [done|done|done|done|]. intros i de _. lia. }
  intros off k1 (j & -> & Hj & F1 & P1 & Hu). case_if Hlt.
  2:{ wp_step. rewrite (unbound_all _ _ _ j) in HQ; [by apply HQ|lia|done|lia]. }
  assert (itable k1 !! dp = Some x) as Hx1 by (by rewrite (bframe_itable _ _ F1)).
  pose proof (Hstep j Hj Hlt) as Hs1. wp_step. eapply (read_dirent P V); [exact P1|exact Hx1|exact Hd|exact Hj|exact Hlt|].
  intros k2 de F2 P2 Hde Hlen. rewrite Z.eqb_refl. cbn [negb].
  assert (bframe k k2) as F by (by etrans).
  assert (¬ binds (dname nm) de → wp (mret (inl (u32 (DIRENT_SIZE * j + DIRENT_SIZE)))) (λ r s', match r with
    | inl a => (∃ j, a = DIRENT_SIZE * j ∧ 0 ≤ j ∧ bframe k s' ∧ P s' ∅ ∧ unbound (dname nm) V x j) ∧
        (Z.to_nat ((i_size x - a + 15) / DIRENT_SIZE) < Z.to_nat ((i_size x - DIRENT_SIZE * j + 15) / DIRENT_SIZE))%nat
    | inr b => Q b s' end) k2) as Hnext.
  { intros Hb. wp_step. change DIRENT_SIZE with 16 in *. rewrite u32_id by lia. split.
    - exists (j + 1). split_and!; [lia|lia|done|done|]. by eapply unbound_step.
    - clear - Hlt Hs1. Z.div_mod_to_equations. lia. }
  case_if H0; [apply Hnext; intros [? _]; lia|]. wp_step. eapply namecmp_wp; [exact Hr|exact Hlen|]. intros c Hc. case_if Hc0.
  - rewrite (unbound_find _ _ _ j de) in HQ; [|done|done|done|split; [lia|by apply Hc; lia]].
    destruct HQ as (i & ip' & Hs & HQ). wp_step. rewrite (fo_dev _ _ _ (do_file _ _ Hd)).
    eapply iget_wp; [by rewrite (bframe_itable _ _ F)|]. wp_step. rewrite Z2Nat.id in HQ by done. apply HQ; [|by eapply (br_seti me pid)].
    by apply bframe_seti.
  - apply Hnext. intros [_ Hb]. apply Hc in Hb. lia.
Qed.

(** ** dirlink *)

(** Index [j] may take a new entry: it is free, or at the end. *)
Definition open_at (V : Z → list Z) (ip : inode) (j : Z) : Prop :=
  0 ≤ j ∧ (DIRENT_SIZE * j = i_size ip ∨
           ∃ de, dirents V ip !! Z.to_nat j = Some de ∧ de_inum de = 0 ∧ DIRENT_SIZE * j < i_size ip).

Lemma open_at_size V ip j : dir_ok V ip → open_at V ip j → DIRENT_SIZE * j ≤ i_size ip.
Proof using Type. intros Hd [Hj [->|(de & Hde & _ & ?)]]; [done|]. lia. Qed.

(** The entries after [new_dirent] has been written at index [j]. *)
Lemma dirents_wrote V ip V' ip' j de :
  dir_ok V ip → open_at V ip j → DIRENT_SIZE * (j + 1) ≤ MAXFILE * BSIZE → length de = Z.to_nat DIRENT_SIZE →
  wrote_file S V ip (DIRENT_SIZE * j) de V' ip' →
  dirents V' ip' = take (Z.to_nat j) (dirents V ip) ++ de :: drop (Datatypes.S (Z.to_nat j)) (dirents V ip).
Proof.
  intros Hd Ho Hmax Hl HW. pose proof (open_at_size _ _ _ Hd Ho) as Hle. destruct (dir_bounds V ip Hd) as [Hsz Hstep].
  pose proof (do_size _ _ Hd) as Hmod. pose proof (wf_size _ _ _ _ _ _ _ HW) as Hsz'. rewrite Hl in Hsz'.
  pose proof (proj1 Ho) as Hj. change (Z.of_nat (Z.to_nat DIRENT_SIZE)) with 16 in Hsz'. change (MAXFILE * BSIZE) with 274432 in Hmax.
  assert (∀ i, 0 ≤ i → DIRENT_SIZE * (i + 1) ≤ 274432 → fbytes V' ip' (DIRENT_SIZE * i) DIRENT_SIZE =
    if decide (i = j) then de else fbytes V ip (DIRENT_SIZE * i) DIRENT_SIZE) as Hbytes.
  { intros i Hi Him. change DIRENT_SIZE with 16 in *. apply list_eq_same_length with 16%nat.
    - case_decide; [exact Hl|by rewrite length_fbytes].
    - by rewrite length_fbytes.
    - intros b y x Hb Hy Hx. rewrite <-(Nat2Z.id b) in Hy. rewrite fbytes_lookup in Hy by lia. injection Hy as <-.
      rewrite (wf_bytes _ _ _ _ _ _ _ HW) by (change MAXFILE with 268; fs_consts; lia). rewrite Hl. case_decide as Hij.
      + subst i. rewrite decide_True by lia. replace (Z.to_nat (16 * j + Z.of_nat b - 16 * j)) with b by lia. by apply list_lookup_total_correct.
      + rewrite decide_False by lia. rewrite <-(Nat2Z.id b) in Hx. rewrite fbytes_lookup in Hx by lia. by injection Hx. }
  assert (i_size ip' / DIRENT_SIZE = Z.max (i_size ip / DIRENT_SIZE) (j + 1)) as Hn.
  { rewrite Hsz'. change DIRENT_SIZE with 16 in *. clear - Hmod. Z.div_mod_to_equations. lia. }
  assert (length (dirents V ip) = Z.to_nat (i_size ip / DIRENT_SIZE)) as Hlen by (apply length_dirents; lia).
  assert (j ≤ i_size ip / DIRENT_SIZE ∧ DIRENT_SIZE * Z.max (i_size ip / DIRENT_SIZE) (j + 1) ≤ 274432) as [Hjn Hbig].
  { change DIRENT_SIZE with 16 in *. clear - Hmod Hle Hsz Hmax. Z.div_mod_to_equations. lia. }
  apply list_eq_same_length with (Z.to_nat (i_size ip' / DIRENT_SIZE)).
  - rewrite length_app, length_take. cbn [length]. rewrite length_drop, Hlen, Hn. lia.
  - apply length_dirents. lia.
  - intros i y x Hi Hy Hx. rewrite Hn in Hi. rewrite <-(Nat2Z.id i) in Hy. rewrite dirents_lookup in Hy by lia. injection Hy as <-.
    rewrite Hbytes by (change DIRENT_SIZE with 16 in *; lia). case_decide as Hij.
    + rewrite lookup_app_r in Hx by (rewrite length_take; lia). rewrite length_take, Hlen in Hx.
      replace (i - _)%nat with 0%nat in Hx by lia. by injection Hx.
    + destruct (decide (Z.of_nat i < j)) as [Hlt|Hge].
      * rewrite lookup_app_l, lookup_take_lt in Hx by (rewrite ?length_take; lia). rewrite <-(Nat2Z.id i) in Hx.
        rewrite dirents_lookup in Hx by lia. by injection Hx.
      * rewrite lookup_app_r in Hx by (rewrite length_take; lia). rewrite length_take, Hlen in Hx.
        replace (i - _)%nat with (Datatypes.S (i - Z.to_nat j - 1))%nat in Hx by lia. rewrite lookup_cons_ne_0 in Hx by lia. cbn [pred] in Hx. rewrite lookup_drop in Hx.
        replace (_ + _)%nat with (Z.to_nat (Z.of_nat i)) in Hx by lia. rewrite dirents_lookup in Hx by lia. by injection Hx.
Qed.

Lemma dir_map_wrote V ip V' ip' j nm inum b :
  dir_ok V ip → open_at V ip j → dir_find V ip (dname nm) = None → 0 < inum < 2 ^ 16 →
  dirents V' ip' = take (Z.to_nat j) (dirents V ip) ++ new_dirent nm inum :: drop (Datatypes.S (Z.to_nat j)) (dirents V ip) →
  dir_map V' ip' b = if decide (b = dname nm) then Some inum else dir_map V ip b.
Proof.
  intros Hd Ho Hnone Hi Heq. destruct (new_dirent_binds nm inum Hi) as [Hb Hin]. pose proof (dir_bounds V ip Hd) as [Hsz _].
  apply list_find_None in Hnone. rewrite Forall_forall in Hnone.
  unfold dir_map, dir_find. rewrite !option_fmap_compose, Heq. case_decide as Hbn.
  - subst b. rewrite find_here; [cbn [fmap option_fmap option_map]; by rewrite Hin| |done]. intros x Hx. apply Hnone. by apply subseteq_take in Hx.
  - rewrite find_skip by (intros [_ E]; destruct Hb as [_ E']; congruence). f_equal. destruct Ho as [Hj [Hend|(de & Hde & H0 & _)]].
    + rewrite take_ge, drop_ge, app_nil_r; [done|..]; rewrite length_dirents by lia; rewrite <-Hend;
        change DIRENT_SIZE with 16; rewrite (Z.mul_comm 16), Z.div_mul by lia; lia.
    + rewrite <-(take_drop_middle _ _ _ Hde) at 3. symmetry. apply find_skip. intros [? _]. done.
Qed.

Lemma dir_ok_wrote V ip V' ip' j nm inum :
  dir_ok V ip → open_at V ip j → DIRENT_SIZE * (j + 1) ≤ MAXFILE * BSIZE →
  wrote_file S V ip (DIRENT_SIZE * j) (new_dirent nm inum) V' ip' → dir_ok V' ip'.
Proof.
  intros Hd Ho Hmax HW. pose proof (open_at_size _ _ _ Hd Ho) as Hle. destruct (dir_bounds V ip Hd) as [Hsz _]. pose proof (proj1 Ho) as Hj.
  assert (Z.of_nat (length (new_dirent nm inum)) = 16) as Hl by (by rewrite length_new_dirent).
  pose proof (wf_size _ _ _ _ _ _ _ HW) as Hs. rewrite Hl in Hs. destruct Hd as [Ht Hm Hf Hw]. change DIRENT_SIZE with 16 in *. split.
  - rewrite (wf_rest _ _ _ _ _ _ _ HW). by destruct ip.
  - change DIRENT_SIZE with 16. rewrite Hs. clear - Hm. destruct (Z.max_spec (i_size ip) (16 * j + 16)) as [[_ ->]|[_ ->]]; [|done].
    replace (16 * j + 16) with ((j + 1) * 16) by lia. by apply Z.mod_mul.
  - apply HW.
  - eapply whole_wrote; [exact Hw| | |exact HW]; [lia|]. rewrite Hl. lia.
Qed.

(** The search for an empty entry. *)
Lemma dirlink_scan P V `{!BlockReader me pid P V} k dp x (Q : Z * list Z → kernel → Prop) :
  P k ∅ → itable k !! dp = Some x → dir_ok V x →
  (∀ j de k', open_at V x j → (i_size x ≤ DIRENT_SIZE * j → ∀ e, e ∈ dirents V x → de_inum e ≠ 0) → length de = Z.to_nat DIRENT_SIZE →
     bframe k k' → P k' ∅ → Q (DIRENT_SIZE * j, de) k') →
  wp (loopM (Datatypes.S (Z.to_nat (i_size x / DIRENT_SIZE + 1))) (λ st,
        let '(off, de) := st in
        if off <? i_size x then
          '(r, de) ← readi me dp DLocal off DIRENT_SIZE;
          if negb (r =? DIRENT_SIZE) then panic "dirlink read"
          else if de_inum de =? 0 then mret (inr (off, de))
          else mret (inl (off + DIRENT_SIZE, de))
        else mret (inr (off, de))) (0, replicate (Z.to_nat DIRENT_SIZE) 0)) Q k.
Proof.
  intros Hp Hx Hd HQ. destruct (dir_bounds V x Hd) as [Hsz Hstep].
  eapply (wp_loop _ (λ '(off, de) k1, ∃ j, off = DIRENT_SIZE * j ∧ 0 ≤ j ∧ DIRENT_SIZE * j ≤ i_size x ∧ length de = Z.to_nat DIRENT_SIZE ∧
     bframe k k1 ∧ P k1 ∅ ∧ ∀ i e, dirents V x !! i = Some e → Z.of_nat i < j → de_inum e ≠ 0) (λ '(off, _), Z.to_nat ((i_size x - off + 15) / DIRENT_SIZE))).
  { change DIRENT_SIZE with 16. clear - Hsz. Z.div_mod_to_equations. lia. }
  { exists 0. split_and!; [done|done|lia|done..|lia]. }
  intros [off de] k1 (j & -> & Hj & Hle & Hl & F1 & P1 & Huse). case_if Hlt.
  2:{ wp_step. apply HQ; [split; [done|left; lia]| |done..]. intros _ e [i Hi]%list_elem_of_lookup. eapply Huse; [exact Hi|].
      apply lookup_lt_Some in Hi. rewrite length_dirents in Hi by lia. change DIRENT_SIZE with 16 in *. clear - Hi Hlt Hj. Z.div_mod_to_equations. lia. }
  assert (itable k1 !! dp = Some x) as Hx1 by (by rewrite (bframe_itable _ _ F1)).
  pose proof (Hstep j Hj Hlt) as Hs1. wp_step. eapply (read_dirent P V); [exact P1|exact Hx1|exact Hd|exact Hj|exact Hlt|].
  intros k2 de2 F2 P2 Hde Hl2. rewrite Z.eqb_refl. cbn [negb]. assert (bframe k k2) as F by (by etrans). case_if H0.
  - wp_step. apply HQ; [|lia|done..]. split; [done|right]. exists de2. split_and!; [done|lia|lia].
  - wp_step. split.
    + exists (j + 1). split_and!; [lia|lia|lia|done..|]. intros i e Hi Hij. destruct (decide (Z.of_nat i = j)) as [<-|]; [|eapply Huse; [exact Hi|lia]].
      rewrite Nat2Z.id in Hde. congruence.
    + change DIRENT_SIZE with 16 in *. clear - Hlt Hs1. Z.div_mod_to_equations. lia.
Qed.

Lemma copy_meas_dirent j : 0 ≤ j → copy_meas DIRENT_SIZE 0 (DIRENT_SIZE * j) = 1%nat.
Proof using Type.
  intros Hj. unfold copy_meas. fs_consts. change DIRENT_SIZE with 16. rewrite decide_True by lia.
  assert ((16 * j) mod 1024 ≤ 1008) by (clear - Hj; Z.div_mod_to_equations; lia).
  pose proof (Z.mod_pos_bound (16 * j) 1024 ltac:(done)). assert ((16 - 0 + (16 * j) mod 1024 + 1024 - 1) / 1024 = 1) as ->; [|done].
  Z.div_mod_to_equations. lia.
Qed.

(** Nothing written: the directory as before. *)
Lemma dir_wrote_nil V x V' x' off :
  dir_ok V x → 0 ≤ off ≤ i_size x → wrote_file S V x off [] V' x' → dir_ok V' x' ∧ ∀ b, dir_map V' x' b = dir_map V x b.
Proof.
  intros Hd Ho HW. destruct (dir_bounds V x Hd) as [Hsz _]. pose proof (wf_size _ _ _ _ _ _ _ HW) as Hs. cbn in Hs.
  assert (i_size x' = i_size x) as Es by lia. split.
  - destruct Hd as [Ht Hm Hf Hw]. split; [rewrite (wf_rest _ _ _ _ _ _ _ HW); by destruct x|by rewrite Es|apply HW|].
    eapply whole_wrote; [exact Hw|exact Ho| |exact HW]. cbn. change (MAXFILE * BSIZE) with 274432. lia.
  - intros b. unfold dir_map, dir_find. do 2 f_equal. unfold dirents. rewrite Es. apply list_fmap_ext. intros i j Hj. unfold fbytes.
    apply list_fmap_ext. intros o c Hc. apply lookup_seqZ in Hj as [-> Hj]. apply lookup_seqZ in Hc as [-> Hc].
    rewrite (wf_bytes _ _ _ _ _ _ _ HW); [by rewrite decide_False by (cbn; lia)|]. change (MAXFILE * BSIZE) with 274432.
    change DIRENT_SIZE with 16 in *. pose proof (do_size _ _ Hd) as Hmod. change DIRENT_SIZE with 16 in Hmod.
    assert (16 * (i_size x / 16) = i_size x) by (clear - Hmod; Z.div_mod_to_equations; lia). lia.
Qed.

(** Why [dirlink] may find no place for an entry: the disk is full, or the
    directory is as large as a file can be and all its entries are in use. *)
Definition no_place (V V' : Z → list Z) (x : inode) : Prop :=
  (∀ b, 0 ≤ b < sb_size S → used S V' b = true) ∨
  i_size x = MAXFILE * BSIZE ∧ ∀ de, de ∈ dirents V x → de_inum de ≠ 0.

Lemma iput_again_wp k i ip' inum (Q : unit → kernel → Prop) :
  iget_slot (itable k) ROOTDEV inum = Some (i, ip') →
  ∀ k', itable k' !! i = Some ip' → Q tt (seti i (upd_i_ref (λ r, r - 1) ip') k') → wp (iput me i) Q k'.
Proof.
  intros Hs k' Hi HQ. unfold iput. wp_step. eapply wp_at_idx; [exact Hi|].
  assert ((i_ref ip' =? 1) && i_valid ip' = false) as ->.
  { unfold iget_slot in Hs. destruct (list_find _ (itable k)) as [[i0 ip0]|] eqn:E.
    - injection Hs as -> <-. apply list_find_Some in E as (_ & (Hr & _) & _). cbn. by rewrite (proj2 (Z.eqb_neq _ 1)) by lia.
    - clear E. destruct (list_find (λ ip, i_ref ip = 0) (itable k)) as [[i0 ip0]|]; [|done]. injection Hs as -> <-. by rewrite andb_false_r. }
  cbn [andb]. wp_step. wp_step. by eapply wp_set_idx.
Qed.

Lemma dirlink_wp k D hs V dp x nm inum (Q : Z → kernel → Prop) :
  layout S → sb k = S → txn k D hs ∅ V → (length hs ≤ 18)%nat → meta_used S V →
  itable k !! dp = Some x → dir_ok V x → inum_ok S (i_inum x) → readable (Z.to_nat DIRSIZ) nm → 0 < inum < 2 ^ 16 →
  dir_find V x (dname nm) = None →
  (∀ r k' hs' V' x', fframe (seti dp x' k) k' → txn k' D hs' ∅ V' → (length hs' ≤ 25)%nat → dir_ok V' x' →
     (r = 0 ∧ (∀ b, dir_map V' x' b = if decide (b = dname nm) then Some inum else dir_map V x b) ∨
      r = -1 ∧ (∀ b, dir_map V' x' b = dir_map V x b) ∧ no_place V V' x) → Q r k') →
  wp (dirlink me dp nm inum) Q k.
Proof.
  intros Hly Hsb Ht Hh Hm Hx Hd Hin Hr Hi Hnone HQ. destruct (dir_bounds V x Hd) as [Hsz _].
  assert ((length hs < Z.to_nat NBUF)%nat) as Hh' by (fs_consts; lia).
  unfold dirlink. wp_step. eapply (dirlookup_wp (txn_read me pid S D hs V) V); [by apply txn_read_start|done..|]. rewrite Hnone.
  intros k1 F1 P1. wp_step. eapply wp_at_idx; [by rewrite (bframe_itable _ _ F1)|]. wp_step.
  eapply (dirlink_scan (txn_read me pid S D hs V) V); [exact P1|by rewrite (bframe_itable _ _ F1)|exact Hd|].
  intros j de k2 Ho Hall Hl F2 (T2 & _). assert (bframe k k2) as F by (by etrans). pose proof (open_at_size _ _ _ Hd Ho) as Hle.
  rewrite strncpy_spec; [|unfold de_name, slice; by rewrite length_take, length_drop, Hl|done].
  assert (drop (Z.to_nat DIRSIZ) (de_name de) = []) as ->.
  { apply drop_ge. unfold de_name, slice. rewrite length_take. lia. }
  rewrite app_nil_r. fold (dname nm). fold (new_dirent nm inum).
  assert (Z.of_nat (length (new_dirent nm inum)) = DIRENT_SIZE) as Hn by (by rewrite length_new_dirent).
  pose proof (proj1 Ho) as Hj0. wp_step. destruct (decide (DIRENT_SIZE * j + DIRENT_SIZE ≤ MAXFILE * BSIZE)) as [Hend|Hbig].
  2:{ change (MAXFILE * BSIZE) with 274432 in *. change DIRENT_SIZE with 16 in *. pose proof (do_size _ _ Hd) as Hmod. change DIRENT_SIZE with 16 in Hmod.
      eapply writei_big_wp; [by rewrite (bframe_itable _ _ F)|lia|lia|change (MAXFILE * BSIZE) with 274432; lia|].
      change (negb (-1 =? 16)) with true. cbv iota. wp_step. eapply (HQ (-1) k2 hs V x); [|exact T2|lia|done|right].
      - rewrite seti_id by done. by apply fframe_bframe.
      - split_and!; [done|done|right]. assert (16 * j = 274432) as Ej by (clear - Hmod Hle Hbig Hsz; Z.div_mod_to_equations; lia).
        change (MAXFILE * BSIZE) with 274432. assert (i_size x = 274432) as Es by lia. split; [done|]. apply Hall. change DIRENT_SIZE with 16. lia. }
  rewrite <-Hn at 2. eapply (writei_wp me pid S);
    [done|by rewrite (bframe_sb _ _ F)|exact T2| |done|by rewrite (bframe_itable _ _ F)|apply Hd|done|..].
  { rewrite Hn. rewrite (copy_meas_dirent j); [lia|apply Ho]. }
  { split; [|done]. change DIRENT_SIZE with 16. lia. }
  { apply (do_whole _ _ Hd). }
  { by rewrite Hn. }
  { reflexivity. }
  intros tot k3 hs3 V3 x3 Htot F3 T3 Hl3 HW Hstop Hfull. rewrite Hn in *.
  assert (fframe (seti dp x3 k) k3) as F'.
  { etrans; [apply fframe_seti; by apply fframe_bframe|exact F3]. }
  assert (DIRENT_SIZE * (j + 1) ≤ MAXFILE * BSIZE) as Hend' by lia.
  destruct (Z.eqb_spec tot DIRENT_SIZE) as [E|E]; cbn [negb]; wp_step.
  - assert (tot = DIRENT_SIZE) as -> by lia. rewrite take_ge in HW by (by rewrite length_new_dirent).
    eapply HQ; [exact F'|exact T3|done|by eapply dir_ok_wrote|left]. split; [done|].
    intros b. eapply dir_map_wrote; [done|done|done|done|]. eapply dirents_wrote; [done|done|done|apply length_new_dirent|exact HW].
  - assert (tot = 0) as ->.
    { destruct Hstop as [?|[?|Hmod]]; [done|done|]. change DIRENT_SIZE with 16 in *. change BSIZE with 1024 in Hmod.
      clear - Hmod Htot E. Z.div_mod_to_equations. lia. }
    assert (0 ≤ DIRENT_SIZE * j ≤ i_size x) as Hoff by (change DIRENT_SIZE with 16 in *; lia).
    destruct (dir_wrote_nil _ _ _ _ _ Hd Hoff HW) as [Hd' Hmap].
    eapply HQ; [exact F'|exact T3|done|done|right]. split_and!; [done|done|left]. apply Hfull. change DIRENT_SIZE with 16. lia.
Qed.

(** ** Theorems *)

(** [dirlookup] finds a name exactly when the directory maps it; it returns the
    offset of its first entry and takes a reference to the inode of its number. *)
Theorem dirlookup_spec k D hs V dp x nm :
  txn k D hs ∅ V → (length hs < Z.to_nat NBUF)%nat → itable k !! dp = Some x → dir_ok V x → readable (Z.to_nat DIRSIZ) nm →
  (∀ inum, dir_map V x (dname nm) = Some inum → is_Some (iget_slot (itable k) ROOTDEV inum)) →
  ∃ r k', dirlookup me dp nm k = Done r k' ∧ txn k' D hs ∅ V ∧
    match dir_map V x (dname nm) with
    | None => r = None ∧ itable k' = itable k
    | Some inum => ∃ i ip' j de, r = Some (i, DIRENT_SIZE * Z.of_nat j) ∧ iget_slot (itable k) ROOTDEV inum = Some (i, ip') ∧
        itable k' = <[i := ip']> (itable k) ∧ dirents V x !! j = Some de ∧ binds (dname nm) de ∧ de_inum de = inum
    end.
Proof.
  intros Ht Hl Hx Hd Hr Hslot.
  assert (wp (dirlookup me dp nm) (λ r k', txn k' D hs ∅ V ∧
    match dir_map V x (dname nm) with
    | None => r = None ∧ itable k' = itable k
    | Some inum => ∃ i ip' j de, r = Some (i, DIRENT_SIZE * Z.of_nat j) ∧ iget_slot (itable k) ROOTDEV inum = Some (i, ip') ∧
        itable k' = <[i := ip']> (itable k) ∧ dirents V x !! j = Some de ∧ binds (dname nm) de ∧ de_inum de = inum
    end) k) as Hwp.
  { eapply (dirlookup_wp (txn_read me pid S D hs V) V); [by apply txn_read_start|done..|]. unfold dir_map in *.
    destruct (dir_find V x (dname nm)) as [[j de]|] eqn:E.
    - destruct (Hslot _ eq_refl) as [[i ip'] Hs]. exists i, ip'. split; [exact Hs|]. intros k' F (T & _). split; [done|].
      apply list_find_Some in E as (Hj & Hb & _). exists i, ip', j, de. split_and!; try done. by rewrite (bframe_itable _ _ F).
    - intros k' F (T & _). split; [done|]. split; [done|]. apply (bframe_itable _ _ F). }
  apply wp_elim in Hwp as (r & k' & Hrun & T & HR). by exists r, k'.
Qed.

(** C24: [dirlink] returns.  When the name is there already, it returns -1, nothing
    is written, and the reference that the lookup took is given back.  Else it
    binds exactly that name, in an empty entry or at the end, and keeps the
    directory well formed, or it returns -1, every name is bound as before, and
    there was no place: no block of the disk is free, or the directory has the
    largest size and no empty entry. *)
Theorem dirlink_spec k D hs V dp x nm inum :
  layout S → sb k = S → txn k D hs ∅ V → (length hs ≤ 18)%nat → meta_used S V →
  itable k !! dp = Some x → dir_ok V x → inum_ok S (i_inum x) → readable (Z.to_nat DIRSIZ) nm → 0 < inum < 2 ^ 16 →
  (∀ n, dir_map V x (dname nm) = Some n → is_Some (iget_slot (itable k) ROOTDEV n)) →
  ∃ r k', dirlink me dp nm inum k = Done r k' ∧
    match dir_map V x (dname nm) with
    | Some n => r = -1 ∧ txn k' D hs ∅ V ∧ ∃ i ip', iget_slot (itable k) ROOTDEV n = Some (i, ip') ∧
        itable k' = <[i := upd_i_ref (λ c, c - 1) ip']> (itable k)
    | None => ∃ hs' V' x', txn k' D hs' ∅ V' ∧ itable k' = <[dp := x']> (itable k) ∧ dir_ok V' x' ∧
        (r = 0 ∧ (∀ b, dir_map V' x' b = if decide (b = dname nm) then Some inum else dir_map V x b) ∨
         r = -1 ∧ (∀ b, dir_map V' x' b = dir_map V x b) ∧ no_place V V' x)
    end.
Proof.
  intros Hly Hsb Ht Hh Hm Hx Hd Hin Hr Hi Hslot. destruct (dir_map V x (dname nm)) as [n|] eqn:E.
  - assert (wp (dirlink me dp nm inum) (λ r k', r = -1 ∧ txn k' D hs ∅ V ∧ ∃ i ip', iget_slot (itable k) ROOTDEV n = Some (i, ip') ∧
      itable k' = <[i := upd_i_ref (λ c, c - 1) ip']> (itable k)) k) as Hwp; [|by apply wp_elim in Hwp as (r & k' & Hrun & HR); exists r, k'].
    destruct (Hslot n eq_refl) as [[i ip'] Hs]. unfold dirlink. wp_step.
    eapply (dirlookup_wp (txn_read me pid S D hs V) V); [apply txn_read_start; [exact Ht|fs_consts; lia]|done..|].
    unfold dir_map in E. destruct (dir_find V x (dname nm)) as [[j de]|]; [|done]. injection E as <-. exists i, ip'. split; [exact Hs|].
    intros k1 F1 (T1 & _). wp_step. destruct (iget_slot_lookup _ _ _ _ _ Hs) as [y Hy].
    eapply (iput_again_wp k i ip' _ _ Hs); [rewrite (bframe_itable _ _ F1); by eapply lookup_seti|]. wp_step. split_and!; [done|by apply txn_seti|].
    exists i, ip'. split; [exact Hs|]. cbn. rewrite (bframe_itable _ _ F1). cbn. apply list_insert_insert_eq.
  - apply fmap_None in E. assert (wp (dirlink me dp nm inum) (λ r k', ∃ hs' V' x', txn k' D hs' ∅ V' ∧ itable k' = <[dp := x']> (itable k) ∧ dir_ok V' x' ∧
      (r = 0 ∧ (∀ b, dir_map V' x' b = if decide (b = dname nm) then Some inum else dir_map V x b) ∨
       r = -1 ∧ (∀ b, dir_map V' x' b = dir_map V x b) ∧ no_place V V' x)) k) as Hwp; [|by apply wp_elim in Hwp as (r & k' & Hrun & HR); exists r, k'].
    eapply dirlink_wp; [done..|]. intros r k' hs' V' x' F T _ Hd' HR. exists hs', V', x'. by rewrite (fframe_itable _ _ F).
Qed.

(** After a successful [dirlink] of [inum] under a name, [dirlookup] of the name
    gives a reference to inode [inum]. *)
Theorem dirlink_dirlookup k D hs V dp x nm inum :
  layout S → sb k = S → txn k D hs ∅ V → (length hs ≤ 18)%nat → meta_used S V →
  itable k !! dp = Some x → dir_ok V x → inum_ok S (i_inum x) → readable (Z.to_nat DIRSIZ) nm → 0 < inum < 2 ^ 16 →
  dir_map V x (dname nm) = None → (∃ i ip, itable k !! i = Some ip ∧ i_ref ip = 0 ∧ i ≠ dp) →
  ∃ f k', (r ← dirlink me dp nm inum; if r =? 0 then dirlookup me dp nm else mret None) k = Done f k' ∧
    ((∃ i off ip, f = Some (i, off) ∧ itable k' !! i = Some ip ∧ i_dev ip = ROOTDEV ∧ i_inum ip = inum ∧ 0 < i_ref ip) ∨
     f = None ∧ ∃ V', no_place V V' x).
Proof.
  intros Hly Hsb Ht Hh Hm Hx Hd Hin Hr Hi Hnone (i0 & ip0 & Hi0 & Hr0 & Hne). apply fmap_None in Hnone.
  assert (wp (r ← dirlink me dp nm inum; if r =? 0 then dirlookup me dp nm else mret None) (λ f k',
    (∃ i off ip, f = Some (i, off) ∧ itable k' !! i = Some ip ∧ i_dev ip = ROOTDEV ∧ i_inum ip = inum ∧ 0 < i_ref ip) ∨
     f = None ∧ ∃ V', no_place V V' x) k) as Hwp.
  { wp_step. eapply dirlink_wp; [done..|]. intros r k' hs' V' x' F T Hl Hd' [(-> & Hmap)|(-> & _ & Hfull)].
    2:{ change (-1 =? 0) with false. cbv iota. wp_step. right. eauto. }
    change (0 =? 0) with true. cbv iota. pose proof (fframe_itable _ _ F) as Htbl.
    assert (itable k' !! dp = Some x') as Hx' by (rewrite Htbl; by eapply lookup_seti).
    eapply (dirlookup_wp (txn_read me pid S D hs' V') V'); [apply txn_read_start; [done|fs_consts; lia]|done..|].
    specialize (Hmap (dname nm)). rewrite decide_True in Hmap by done. unfold dir_map in Hmap.
    destruct (dir_find V' x' (dname nm)) as [[j de]|] eqn:E; [|done]. injection Hmap as Hmap. cbn in Hmap. rewrite Hmap.
    destruct (iget_slot_free (itable k') ROOTDEV inum i0 ip0) as (i & ip & Hs & H1 & H2 & H3 & H4); [|done|].
    { rewrite Htbl. cbn. by rewrite list_lookup_insert_ne. }
    exists i, ip. split; [exact Hs|]. intros k'' F' _. left. exists i, (DIRENT_SIZE * Z.of_nat j), ip. split_and!; try done.
    rewrite (bframe_itable _ _ F'). by apply list_lookup_insert_eq. }
  apply wp_elim in Hwp as (f & k' & Hrun & HR). by exists f, k'.
Qed.
End fsdir.
