(* ===== verification/FsPath.v ===== *)
(** * Paths

    [skipelem] and [namex] of [kernel/fs.c]: a path is the list of its elements,
    and [namei] walks the tree of directories on the disk along it. *)

From S2P Require Import Prelude Riscv Memory CString Kalloc State Bytes Sched Bio BioSpec Cache Log LogSpec Crash Txn Fs FsBlock FsFile FsInode FsWrite FsDir.

(** ** The elements of a path *)

(** The pieces between slashes, empty ones included. *)
Fixpoint pieces (l : list Z) : list (list Z) :=
  match l with
  | [] => [[]]
  | c :: l =>
      if c =? slash then [] :: pieces l
      else match pieces l with e :: es => (c :: e) :: es | [] => [[c]] end
  end.
Definition parts (l : list Z) : list (list Z) := filter (λ e, e ≠ []) (pieces l).
Definition elems (path : list Z) : list (list Z) := take (Z.to_nat DIRSIZ) <$> parts (cstr path).

Lemma parts_slash l : parts (slash :: l) = parts l.
Proof. unfold parts. cbn [pieces]. rewrite Z.eqb_refl, filter_cons_False; [done|]. by intros []. Qed.

Lemma pieces_app e l : slash ∉ e → (l = [] ∨ head l = Some slash) →
  pieces (e ++ l) = match l with [] => [e] | _ :: l' => e :: pieces l' end.
Proof.
  intros He Hl. induction e as [|c e IH]; cbn [app pieces].
  - destruct l as [|c l]; [done|]. destruct Hl as [?|[= ->]]; [done|]. cbn [pieces]. by rewrite Z.eqb_refl.
  - apply not_elem_of_cons in He as [Hc He]. rewrite (proj2 (Z.eqb_neq c slash)) by congruence. rewrite IH by done. by destruct l.
Qed.
Lemma parts_app e l : slash ∉ e → e ≠ [] → (l = [] ∨ head l = Some slash) → parts (e ++ l) = e :: parts l.
Proof.
  intros He Hn Hl. unfold parts. rewrite pieces_app by done. destruct l as [|c l].
  - rewrite filter_cons_True by done. cbn [pieces]. rewrite filter_cons_False; [done|]. by intros [].
  - destruct Hl as [?|[= ->]]; [done|]. rewrite filter_cons_True by done. f_equal.
Qed.

Lemma parts_skip p : parts (cstr (skip_slashes p)) = parts (cstr p) ∧ (0 ∈ p → 0 ∈ skip_slashes p) ∧
  (length (skip_slashes p) ≤ length p)%nat ∧ head (skip_slashes p) ≠ Some slash.
Proof.
  induction p as [|c p IH]; cbn [skip_slashes]; [done|]. destruct (Z.eqb_spec c slash) as [->|Hc].
  - destruct IH as (H1 & H2 & H3 & H4). split_and!; [|set_solver|cbn; lia|done].
    rewrite H1. cbn [cstr]. change (slash =? 0) with false. cbv iota. by rewrite parts_slash.
  - split_and!; [done|done|done|]. by intros [= ->].
Qed.

Lemma span_elem_spec p e r : span_elem p = (e, r) →
  p = e ++ r ∧ slash ∉ e ∧ 0 ∉ e ∧ (0 ∈ p → 0 ∈ r) ∧ (∀ c, head r = Some c → c = slash ∨ c = 0).
Proof.
  revert e r. induction p as [|c p IH]; intros e r; cbn [span_elem].
  { intros [= <- <-]. split_and!; try done; set_solver. }
  destruct (Z.eqb_spec c slash) as [->|Hc]; cbn [orb].
  { intros [= <- <-]. split_and!; try done; [set_solver..|]. intros c [= <-]. by left. }
  destruct (Z.eqb_spec c 0) as [->|Hc0].
  { intros [= <- <-]. split_and!; try done; [set_solver..|]. intros c [= <-]. by right. }
  destruct (span_elem p) as [e' r'] eqn:E. intros [= <- <-]. destruct (IH _ _ eq_refl) as (-> & H1 & H2 & H3 & H4).
  split_and!; [done|set_solver..|done].
Qed.

Lemma cstr_app_nz e l : 0 ∉ e → cstr (e ++ l) = e ++ cstr l.
Proof.
  induction e as [|c e IH]; intros He; [done|]. apply not_elem_of_cons in He as [Hc He]. cbn [app cstr].
  rewrite (proj2 (Z.eqb_neq c 0)) by congruence. by rewrite IH.
Qed.

Lemma cstr_nz e : 0 ∉ e → cstr e = e.
Proof. intros He. rewrite <-(app_nil_r e) at 1. rewrite cstr_app_nz by done. apply app_nil_r. Qed.

(** What [memmove] and the NUL leave in [name]. *)
Lemma skip_name e name : 0 ∉ e → length name = Z.to_nat DIRSIZ →
  let nm := if DIRSIZ <=? Z.of_nat (length e) then splice 0 (take (Z.to_nat DIRSIZ) e) name else splice 0 (e ++ [0]) name in
  dname nm = take (Z.to_nat DIRSIZ) e ∧ length nm = Z.to_nat DIRSIZ.
Proof.
  intros He Hl nm. unfold nm. change DIRSIZ with 14 in *. change (Z.to_nat 14) with 14%nat in *.
  destruct (Z.leb_spec 14 (Z.of_nat (length e))); unfold splice; rewrite take_0; cbn [app Nat.add].
  - assert (length (take 14 e) = 14%nat) as Ht by (rewrite length_take; lia). rewrite drop_ge, app_nil_r by lia. split; [|done].
    unfold dname. change (Z.to_nat DIRSIZ) with 14%nat. rewrite cstr_nz; [by rewrite take_take|].
    intros Hin. apply He. by eapply subseteq_take.
  - split.
    + unfold dname. change (Z.to_nat DIRSIZ) with 14%nat. rewrite <-app_assoc, cstr_app_nz by done. cbn [cstr app]. change (0 =? 0) with true.
      cbv iota. rewrite app_nil_r. done.
    + rewrite !length_app, length_drop, ?length_app. cbn [length]. lia.
Qed.

Lemma skipelem_spec path name :
  0 ∈ path → length name = Z.to_nat DIRSIZ →
  match skipelem path name with
  | None => elems path = []
  | Some (path', name') => elems path = dname name' :: elems path' ∧ 0 ∈ path' ∧ length name' = Z.to_nat DIRSIZ ∧
      (length path' < length path)%nat ∧ (default 0 (head path') = 0 ↔ elems path' = [])
  end.
Proof.
  intros H0 Hl. unfold skipelem. destruct (parts_skip path) as (Hp & Hz & Hlen & Hns). specialize (Hz H0).
  unfold elems. rewrite <-Hp. set (p := skip_slashes path) in *. clearbody p. destruct p as [|c p]; [set_solver|]. change (default 0 (head (c :: p))) with c.
  destruct (Z.eqb_spec c 0) as [->|Hc]; [done|]. destruct (span_elem (c :: p)) as [e r] eqn:E.
  pose proof (span_elem_spec _ _ _ E) as (Heq & He & Hz0 & Hr0 & Hr).
  assert (e ≠ []) as Hen.
  { intros ->. cbn [app] in Heq. subst r. destruct (Hr c eq_refl) as [->|?]; [by apply Hns|done]. }
  destruct (skip_name e name Hz0 Hl) as [Hn Hnl]. destruct (parts_skip r) as (Hp' & Hz' & Hlen' & Hns'). cbv beta zeta iota. split_and!.
  - rewrite Hn, Hp', Heq, cstr_app_nz by done. rewrite parts_app; [done|done|done|]. destruct r as [|d r]; [by left|].
    destruct (Hr d eq_refl) as [->| ->]; [|by left]. right. cbn [cstr]. by change (slash =? 0) with false.
  - apply Hz', Hr0, Hz.
  - exact Hnl.
  - rewrite Heq, length_app in Hlen. destruct e; [done|]. cbn [length] in Hlen. lia.
  - specialize (Hz' (Hr0 Hz)). destruct (skip_slashes r) as [|d q]; [set_solver|]. change (default 0 (head (d :: q))) with d. cbn [cstr].
    destruct (Z.eqb_spec d 0) as [->|Hd]; [done|]. split; [done|]. intros Hq. exfalso. apply fmap_nil_inv in Hq. revert Hq.
    assert (d ≠ slash) as Hds by (intros ->; by apply Hns'). unfold parts. cbn [pieces]. rewrite (proj2 (Z.eqb_neq d slash)) by done.
    destruct (pieces (cstr q)); by rewrite filter_cons_True.
Qed.

(** ** The tree on the disk *)

Section fspath.
Context {I : Image} `{SleepFuel} (me : nat) (pid : Z) (S : superblock).

(** Inode [n] as its block holds it. *)
Definition dino (V : Z → list Z) (n : Z) : inode :=
  read_dinode (dinode_off n) (V (IBLOCK n S)) (Inode ROOTDEV n 0 (Sleeplock false 0) true 0 0 0 0 0 []).

(** The same contents, whatever the references and the lock. *)
Definition same_file (a b : inode) : Prop :=
  i_dev a = i_dev b ∧ i_type a = i_type b ∧ i_nlink a = i_nlink b ∧ i_size a = i_size b ∧ i_addrs a = i_addrs b.

(** [live n]: inode [n] is in use; directories lead to such inodes only. *)
Record tree_ok (V : Z → list Z) (live : Z → Prop) : Prop := {
  tr_type n : live n → i_type (dino V n) ≠ 0;
  tr_link n : live n → i_nlink (dino V n) ≠ 0;
  tr_dir n : live n → i_type (dino V n) = T_DIR → dir_ok S V (dino V n);
  tr_live n nm m : live n → i_type (dino V n) = T_DIR → dir_map V (dino V n) nm = Some m → live m;
}.

(** The inode table: an entry in use is of a live inode, and when it is valid it
    holds what the disk holds. *)
Definition entry_ok (V : Z → list Z) (live : Z → Prop) (ip : inode) : Prop :=
  0 ≤ i_ref ip ∧
  (0 < i_ref ip → i_dev ip = ROOTDEV ∧ live (i_inum ip) ∧ (i_valid ip = true → same_file ip (dino V (i_inum ip)))).
Definition table_ok (V : Z → list Z) (live : Z → Prop) (tbl : list inode) : Prop := Forall (entry_ok V live) tbl.

Definition unlocked (tbl : list inode) : Prop := Forall (λ ip, sl_locked (i_lock ip) = false) tbl.
Definition free1 (ip : inode) : nat := if decide (i_ref ip = 0) then 1 else 0.
Definition nfree (tbl : list inode) : nat := length (filter (λ ip, i_ref ip = 0) tbl).

(** The walk along [es] from inode [n]; with [parent] it stops one level early. *)
Fixpoint walk_path (V : Z → list Z) (parent : bool) (n : Z) (es : list (list Z)) : option Z :=
  match es with
  | [] => if parent then None else Some n
  | e :: es' =>
      if decide (i_type (dino V n) = T_DIR) then
        if parent && bool_decide (es' = []) then Some n
        else dir_map V (dino V n) e ≫= λ m, walk_path V parent m es'
      else None
  end.

Lemma same_dirents V a b : same_file a b → dirents V a = dirents V b ∧ ∀ nm, dir_map V a nm = dir_map V b nm.
Proof using Type.
  intros (_ & _ & _ & Hs & Ha). assert (dirents V a = dirents V b) as E.
  { unfold dirents. rewrite Hs. apply list_fmap_ext. intros _ j _. unfold fbytes, fbyte, blk, slots, ind_of. by rewrite Ha. }
  split; [done|]. intros nm. unfold dir_map, dir_find. by rewrite E.
Qed.
Lemma same_dir_ok V a b : same_file a b → dir_ok S V b → dir_ok S V a.
Proof using Type.
  intros (Hd & Ht & _ & Hs & Ha) [T1 T2 [F1 F2 F3 F4] [W1 W2]]. split.
  - congruence.
  - congruence.
  - split; unfold slots, ind_of in *; rewrite ?Ha, ?Hd; done.
  - split; [by rewrite Hs|]. unfold no_holes, slots, ind_of in *. by rewrite Hs, Ha.
Qed.

Lemma loaded_same V live ip : entry_ok V live ip → 0 < i_ref ip → same_file (loaded S V ip) (dino V (i_inum ip)) ∧
  i_valid (loaded S V ip) = true ∧ i_inum (loaded S V ip) = i_inum ip ∧ i_ref (loaded S V ip) = i_ref ip ∧ i_dev (loaded S V ip) = ROOTDEV.
Proof using Type.
  intros (_ & Hip) Hr. destruct (Hip Hr) as (Hd & _ & Hv). unfold loaded. destruct (i_valid ip) eqn:E; [by split_and!; auto|].
  split; [|done]. unfold same_file, dino. cbn. by rewrite Hd.
Qed.

Lemma nfree_insert tbl i a b : tbl !! i = Some a →
  (nfree (<[i := b]> tbl) + free1 a = nfree tbl + free1 b)%nat.
Proof using Type.
  unfold nfree, free1. revert i. induction tbl as [|x tbl IH]; intros [|i] E; try done.
  - injection E as ->. cbn [insert list_insert]. rewrite !filter_cons. repeat case_decide; cbn [length]; lia.
  - specialize (IH i E). change (<[Datatypes.S i := b]> (x :: tbl)) with (x :: <[i := b]> tbl). rewrite !filter_cons.
    repeat case_decide; cbn [length]; lia.
Qed.
Lemma nfree_pos tbl : (0 < nfree tbl)%nat → ∃ i ip, tbl !! i = Some ip ∧ i_ref ip = 0.
Proof using Type.
  unfold nfree. intros Hn. destruct (filter _ tbl) as [|ip l] eqn:E; [cbn in Hn; lia|].
  assert (ip ∈ filter (λ ip, i_ref ip = 0) tbl) as Hin by (rewrite E; left). apply list_elem_of_filter in Hin as [Hr Hin].
  apply list_elem_of_lookup in Hin as [i Hi]. eauto.
Qed.

(** What [iget] of a live inode does to the table. *)
Lemma iget_table V live tbl inum i ip' :
  table_ok V live tbl → live inum → iget_slot tbl ROOTDEV inum = Some (i, ip') →
  table_ok V live (<[i := ip']> tbl) ∧ i_inum ip' = inum ∧ 1 ≤ i_ref ip' ∧
  ∃ ip, tbl !! i = Some ip ∧ i_lock ip' = i_lock ip ∧
    (ip' = upd_i_ref (λ r, r + 1) ip ∧ 1 ≤ i_ref ip ∧ nfree (<[i := ip']> tbl) = nfree tbl ∨
     i_ref ip' = 1 ∧ i_ref ip = 0 ∧ Datatypes.S (nfree (<[i := ip']> tbl)) = nfree tbl).
Proof using Type.
  intros Ht Hl Hs. unfold iget_slot in Hs. unfold table_ok in *. rewrite Forall_lookup in Ht. destruct (list_find _ tbl) as [[i0 ip0]|] eqn:E1.
  - injection Hs as -> <-. apply list_find_Some in E1 as (Hi & (H1 & H2 & H3) & _). destruct (Ht _ _ Hi) as (G1 & G3).
    split_and!; [|done|cbn; lia|].
    + apply Forall_insert; [by apply Forall_lookup|]. split; [cbn; lia|]. intros _. exact (G3 H1).
    + exists ip0. split_and!; [done|done|left]. split_and!; [done|lia|].
      pose proof (nfree_insert tbl i ip0 (upd_i_ref (λ r, r + 1) ip0) Hi) as Hn.
      unfold free1 in Hn. rewrite !decide_False in Hn by (cbn; lia). lia.
  - clear E1. destruct (list_find (λ ip, i_ref ip = 0) tbl) as [[i0 ip0]|] eqn:E2; [|done]. injection Hs as -> <-.
    apply list_find_Some in E2 as (Hi & H0 & _). destruct (Ht _ _ Hi) as (G1 & G3). split_and!; [|done|done|].
    + apply Forall_insert; [by apply Forall_lookup|]. split; [cbn; lia|]. intros _. by split_and!.
    + exists ip0. split_and!; [done|done|right]. split_and!; [done|done|].
      match goal with |- context [<[i := ?b]> tbl] => pose proof (nfree_insert tbl i ip0 b Hi) as Hn end.
      unfold free1 in Hn. rewrite (decide_True (P := i_ref ip0 = 0)) in Hn by done. rewrite decide_False in Hn by (cbn; lia). lia.
Qed.

(** An entry after [iunlockput]. *)
Definition unref (x : inode) : inode := upd_i_ref (λ r, r - 1) (upd_i_lock (λ _, Sleeplock false 0) x).

Lemma unref_ok V live x : entry_ok V live x → 1 ≤ i_ref x → entry_ok V live (unref x).
Proof using Type. intros [H1 H2] Hr. split; [cbn; lia|]. intros _. apply H2. lia. Qed.
Lemma locked_ok V live x : entry_ok V live x → 0 < i_ref x → entry_ok V live (locked pid S V x).
Proof using Type.
  intros Hx Hr. pose proof (loaded_same V live x Hx Hr) as (H1 & H2 & H3 & H4 & H5). destruct Hx as [_ Hx]. destruct (Hx Hr) as (_ & Hl & _).
  split; [cbn; lia|]. intros _. cbn. rewrite H3. split_and!; [done|done|]. intros _. exact H1.
Qed.

(** Only the inode table, the cache and the states of sleeping processes change. *)
Definition iframe (k k' : kernel) : Prop := bframe (upd_itable (λ _, itable k') k) k'.
Lemma iframe_step k k1 k2 i ip : iframe k k1 → bframe (seti i ip k1) k2 → iframe k k2.
Proof using Type.
  unfold iframe. intros [R1 P1] F2. rewrite (bframe_itable _ _ F2). etrans; [|exact F2]. cbn. split; [|exact P1].
  rewrite R1. by destruct k.
Qed.
Lemma iframe_same k k1 k2 : iframe k k1 → bframe k1 k2 → iframe k k2.
Proof using Type. unfold iframe. intros F1 F2. rewrite (bframe_itable _ _ F2). by etrans. Qed.
Lemma iframe_refl k : iframe k k.
Proof using Type. unfold iframe. replace (upd_itable _ k) with k by (by destruct k). done. Qed.
Lemma iframe_seti k i ip : iframe k (seti i ip k).
Proof using Type. eapply iframe_step; [apply iframe_refl|done]. Qed.
Lemma iframe_sb k k' : iframe k k' → sb k' = sb k.
Proof using Type. intros F. by rewrite (bframe_sb _ _ F). Qed.

(** How many references the table holds to inode [n]. *)
Definition ref1 (n : Z) (ip : inode) : Z := if decide (i_inum ip = n) then i_ref ip else 0.
Definition refs (tbl : list inode) (n : Z) : Z := foldr (λ ip a, ref1 n ip + a) 0 tbl.
Definition one (n m : Z) : Z := if decide (n = m) then 1 else 0.

Lemma refs_insert tbl i a b n : tbl !! i = Some a → refs (<[i := b]> tbl) n = refs tbl n - ref1 n a + ref1 n b.
Proof using Type.
  revert i. induction tbl as [|c tbl IH]; intros [|i] Hi; [done..| |].
  - injection Hi as ->. cbn. lia.
  - change (ref1 n c + refs (<[i := b]> tbl) n = ref1 n c + refs tbl n - ref1 n a + ref1 n b). rewrite (IH _ Hi). lia.
Qed.
Lemma ref1_bump n d x y : i_inum y = i_inum x → i_ref y = i_ref x + d → ref1 n y = ref1 n x + d * one (i_inum x) n.
Proof using Type. unfold ref1, one. intros -> ->. case_decide; lia. Qed.

(** The table gives [T] references beside one to inode [n], through entry [i]; it
    has room for one more entry. *)
Definition settled (V : Z → list Z) (live : Z → Prop) (T : Z → Z) (tbl : list inode) : Prop :=
  table_ok V live tbl ∧ unlocked tbl ∧ ∀ m, refs tbl m = T m.
Definition holds (V : Z → list Z) (live : Z → Prop) (T : Z → Z) (n : Z) (i : nat) (tbl : list inode) : Prop :=
  settled V live (λ m, T m + one n m) tbl ∧
  ∃ x, tbl !! i = Some x ∧ i_inum x = n ∧ live n ∧ 1 ≤ i_ref x ∧ ((2 ≤ nfree tbl)%nat ∨ (1 ≤ nfree tbl)%nat ∧ i_ref x = 1).

Lemma settled_insert V live T T' tbl i x z :
  settled V live T tbl → tbl !! i = Some x → entry_ok V live z → sl_locked (i_lock z) = false →
  (∀ m, T' m = T m - ref1 m x + ref1 m z) → settled V live T' (<[i := z]> tbl).
Proof using Type.
  intros (Ht & Hu & Hr) Hi Hz Hl HT. split_and!; [by apply Forall_insert..|]. intros m.
  by rewrite (refs_insert _ _ _ _ _ Hi), Hr, HT.
Qed.

(** Dropping the reference, and unlocking with it kept. *)
Lemma holds_drop V live T n i tbl x z :
  holds V live T n i tbl → tbl !! i = Some x → entry_ok V live z → i_ref z = i_ref x - 1 → i_inum z = i_inum x →
  sl_locked (i_lock z) = false → settled V live T (<[i := z]> tbl).
Proof using Type.
  intros (Hs & x' & Hi' & Hn & Hl & Hr & _) Hi Hz Er En Hlk. rewrite Hi in Hi'. injection Hi' as <-.
  eapply settled_insert; [exact Hs|exact Hi|done|done|]. intros m. cbv beta.
  rewrite (ref1_bump m (-1) x z) by lia. rewrite Hn. lia.
Qed.
Lemma holds_unlock V live T n i tbl x z :
  holds V live T n i tbl → tbl !! i = Some x → entry_ok V live z → i_ref z = i_ref x → i_inum z = i_inum x →
  sl_locked (i_lock z) = false → holds V live T n i (<[i := z]> tbl).
Proof using Type.
  intros (Hs & x' & Hi' & Hn & Hl & Hr & Hf) Hi Hz Er En Hlk. rewrite Hi in Hi'. injection Hi' as <-. split.
  - eapply settled_insert; [exact Hs|exact Hi|done|done|]. intros m. cbv beta. rewrite (ref1_bump m 0 x z) by lia. lia.
  - exists z. rewrite list_lookup_insert_eq by (by eapply lookup_lt_Some). pose proof (nfree_insert tbl i x z Hi) as Hnf.
    unfold free1 in Hnf. rewrite Er, !decide_False in Hnf by lia. split_and!; [done|congruence|done|lia|]. rewrite Er. lia.
Qed.

Lemma ref1_iget n m o ip' :
  i_inum ip' = m → ip' = upd_i_ref (λ r, r + 1) o ∨ i_ref ip' = 1 ∧ i_ref o = 0 → ref1 n ip' = ref1 n o + one m n.
Proof using Type.
  intros Hm [->|[H1 H2]].
  - rewrite (ref1_bump n 1 o) by done. cbn in Hm. rewrite Hm. lia.
  - unfold ref1, one. rewrite H1, H2, Hm. repeat case_decide; lia.
Qed.
Lemma holds_step_ne V live T n i tbl x z m j ip' o :
  holds V live T n i tbl → tbl !! i = Some x → entry_ok V live z → i_ref z = i_ref x → i_inum z = i_inum x → live m → j ≠ i →
  table_ok V live (<[j := ip']> (<[i := z]> tbl)) → i_inum ip' = m → 1 ≤ i_ref ip' → <[i := z]> tbl !! j = Some o → i_lock ip' = i_lock o →
  (ip' = upd_i_ref (λ r, r + 1) o ∧ 1 ≤ i_ref o ∧ nfree (<[j := ip']> (<[i := z]> tbl)) = nfree tbl ∨
     i_ref ip' = 1 ∧ i_ref o = 0 ∧ Datatypes.S (nfree (<[j := ip']> (<[i := z]> tbl))) = nfree tbl) →
  holds V live T m j (<[i := unref z]> (<[j := ip']> (<[i := z]> tbl))).
Proof using Type.
  intros Hh Hi Hz Er En Hm Hji Ht2 Hm2 Hr2 Ho Hlo Hc. pose proof Hh as ((_ & Hu & _) & x' & Hi' & _ & _ & Hr & Hf). rewrite Hi in Hi'. injection Hi' as <-.
  rewrite list_lookup_insert_ne in Ho by done. assert (j < length tbl)%nat as Hjl by (by eapply lookup_lt_Some).
  assert (i < length tbl)%nat as Hil by (by eapply lookup_lt_Some).
  pose proof (holds_drop V live T n i tbl x (unref z) Hh Hi (unref_ok _ _ _ Hz ltac:(lia)) ltac:(cbn; lia) En eq_refl) as Hd. split.
  - rewrite (list_insert_insert_ne _ i j), list_insert_insert_eq by done. eapply settled_insert; [exact Hd| | | |].
    + rewrite list_lookup_insert_ne by done. exact Ho.
    + unfold table_ok in Ht2. rewrite Forall_lookup in Ht2. apply (Ht2 j). by rewrite list_lookup_insert_eq by (by rewrite length_insert).
    + rewrite Hlo. unfold unlocked in Hu. rewrite Forall_lookup in Hu. by eapply (Hu j).
    + intros q. rewrite (ref1_iget q m o ip') by tauto. lia.
  - exists ip'. rewrite list_lookup_insert_ne by done. rewrite list_lookup_insert_eq by (by rewrite length_insert).
    split_and!; [done|done|done|done|]. set (t2 := <[j := ip']> (<[i := z]> tbl)) in *.
    assert (t2 !! i = Some z) as H2.
    { unfold t2. rewrite list_lookup_insert_ne by done. by apply list_lookup_insert_eq. }
    pose proof (nfree_insert t2 i z (unref z) H2) as Hn. unfold free1 in Hn. rewrite (decide_False (P := i_ref z = 0)) in Hn by lia.
    cbn [i_ref unref upd_i_ref upd_i_lock] in Hn. case_decide; lia.
Qed.

(** One level down: [iget] of the child while entry [i] is locked as [z], then
    [iunlockput] of [i]. *)
Lemma holds_step V live T n i tbl x z m :
  holds V live T n i tbl → tbl !! i = Some x → entry_ok V live z → i_ref z = i_ref x → i_inum z = i_inum x → live m →
  ∃ j ip', iget_slot (<[i := z]> tbl) ROOTDEV m = Some (j, ip') ∧
    ∃ y, <[j := ip']> (<[i := z]> tbl) !! i = Some y ∧ 1 ≤ i_ref y ∧ i_lock y = i_lock z ∧ i_nlink y = i_nlink z ∧
      holds V live T m j (<[i := unref y]> (<[j := ip']> (<[i := z]> tbl))).
Proof using Type.
  intros Hh Hi Hz Er En Hm. destruct Hh as ((Ht & Hu & Hrf) & x' & Hi' & Hn & Hl & Hr & Hf) eqn:E. clear E. rewrite Hi in Hi'. injection Hi' as <-.
  set (t1 := <[i := z]> tbl). assert (t1 !! i = Some z) as H1 by (apply list_lookup_insert_eq; by eapply lookup_lt_Some).
  assert (table_ok V live t1) as Ht1 by (by apply Forall_insert).
  assert (nfree t1 = nfree tbl) as Hn1.
  { pose proof (nfree_insert tbl i x z Hi) as E. unfold free1 in E. rewrite Er, !decide_False in E by lia. fold t1 in E. lia. }
  destruct (nfree_pos t1) as (i0 & ip0 & Hi0 & Hr0); [lia|].
  destruct (iget_slot_free t1 ROOTDEV m i0 ip0 Hi0 Hr0) as (j & ip' & Hs & _). exists j, ip'. split; [done|].
  destruct (iget_table V live t1 m j ip' Ht1 Hm Hs) as (Ht2 & Hm2 & Hr2 & o & Ho & Hlo & Hc).
  destruct (decide (j = i)) as [->|Hji].
  - rewrite H1 in Ho. injection Ho as <-. destruct Hc as [(-> & _)|(_ & ? & _)]; [|lia].
    exists (upd_i_ref (λ r, r + 1) z). rewrite list_lookup_insert_eq by (by eapply lookup_lt_Some).
    split_and!; [done|done|done|done|]. unfold t1. rewrite !list_insert_insert_eq. cbn in Hm2.
    assert (m = n) as -> by congruence. eapply holds_unlock; [exact Hh|exact Hi| |cbn; lia|done|done].
    apply unref_ok; [|done]. unfold table_ok in Ht2. rewrite Forall_lookup in Ht2. apply (Ht2 i).
    by rewrite list_lookup_insert_eq by (by eapply lookup_lt_Some).
  - exists z. rewrite list_lookup_insert_ne by done. split_and!; [done|lia|done|done|]. rewrite Hn1 in Hc. by eapply holds_step_ne.
Qed.

(** Where a walk starts: [iget] of the root, or [idup] of the current directory. *)
Lemma holds_iget V live T tbl m :
  settled V live T tbl → (2 ≤ nfree tbl)%nat → live m →
  ∃ j ip', iget_slot tbl ROOTDEV m = Some (j, ip') ∧ holds V live T m j (<[j := ip']> tbl).
Proof using Type.
  intros Hs Hn Hm. destruct (nfree_pos tbl) as (i0 & ip0 & Hi0 & Hr0); [lia|].
  destruct (iget_slot_free tbl ROOTDEV m i0 ip0 Hi0 Hr0) as (j & ip' & Hj & _). exists j, ip'. split; [done|].
  destruct (iget_table V live tbl m j ip') as (Ht2 & Hm2 & Hr2 & o & Ho & Hlo & Hc); [apply Hs|done|done|].
  assert (j < length tbl)%nat as Hjl by (by eapply lookup_lt_Some). split.
  - eapply settled_insert; [exact Hs|exact Ho| | |].
    + unfold table_ok in Ht2. rewrite Forall_lookup in Ht2. apply (Ht2 j). by apply list_lookup_insert_eq.
    + rewrite Hlo. destruct Hs as (_ & Hu & _). unfold unlocked in Hu. rewrite Forall_lookup in Hu. by eapply (Hu j).
    + intros q. rewrite (ref1_iget q m o ip') by tauto. lia.
  - exists ip'. rewrite list_lookup_insert_eq by done. split_and!; [done|done|done|done|]. lia.
Qed.
Lemma holds_dup V live T tbl c x :
  settled V live T tbl → (2 ≤ nfree tbl)%nat → tbl !! c = Some x → 1 ≤ i_ref x →
  holds V live T (i_inum x) c (<[c := upd_i_ref (λ r, r + 1) x]> tbl).
Proof using Type.
  intros Hs Hn Hc Hr. assert (entry_ok V live x) as [H1 H2].
  { destruct Hs as (Ht & _). unfold table_ok in Ht. rewrite Forall_lookup in Ht. by eapply Ht. }
  destruct H2 as (Hd & Hl & Hv); [lia|]. split.
  - eapply settled_insert; [exact Hs|exact Hc| | |].
    + split; [cbn; lia|]. intros _. by split_and!.
    + destruct Hs as (_ & Hu & _). unfold unlocked in Hu. rewrite Forall_lookup in Hu. exact (Hu c x Hc).
    + intros q. cbv beta. rewrite (ref1_bump q 1 x (upd_i_ref (λ r, r + 1) x) eq_refl eq_refl). lia.
  - exists (upd_i_ref (λ r, r + 1) x). rewrite list_lookup_insert_eq by (by eapply lookup_lt_Some).
    split_and!; [done|done|done|cbn; lia|left]. pose proof (nfree_insert tbl c x (upd_i_ref (λ r, r + 1) x) Hc) as E.
    unfold free1 in E. rewrite !decide_False in E by (cbn; lia). lia.
Qed.

Section walk.
Context (P : kernel → gmap Z nat → Prop) (V : Z → list Z) `{R : !BlockReader me pid P V}.
Context (live : Z → Prop) (Htree : tree_ok V live).

(** The process holds a reference to inode [n] through entry [i] of [k], which
    [namex] reached from [k0]. *)
Definition at_node (k0 : kernel) (T : Z → Z) (n : Z) (i : nat) (k : kernel) : Prop :=
  holds V live T n i (itable k) ∧ iframe k0 k ∧ P k ∅.
Definition left_node (k0 : kernel) (T : Z → Z) (k : kernel) : Prop :=
  settled V live T (itable k) ∧ iframe k0 k ∧ P k ∅.

Lemma iput_wp k i x (Q : unit → kernel → Prop) :
  itable k !! i = Some x → (i_valid x = true → i_nlink x ≠ 0) → Q tt (seti i (upd_i_ref (λ r, r - 1) x) k) → wp (iput me i) Q k.
Proof using Type.
  intros Hx Hn HQ. unfold iput. wp_step. eapply wp_at_idx; [exact Hx|].
  assert ((i_ref x =? 1) && i_valid x && (i_nlink x =? 0) = false) as ->.
  { destruct (i_valid x); [|by rewrite andb_false_r]. rewrite (proj2 (Z.eqb_neq (i_nlink x) 0)) by auto. by rewrite andb_false_r. }
  wp_step. wp_step. by eapply wp_set_idx.
Qed.
Lemma iunlockput_wp k i x (Q : unit → kernel → Prop) :
  P k ∅ → itable k !! i = Some x → 1 ≤ i_ref x → i_lock x = Sleeplock true pid → i_nlink x ≠ 0 →
  (∀ k', bframe (seti i (unref x) k) k' → P k' ∅ → Q tt k') → wp (iunlockput me i) Q k.
Proof using R.
  intros Hp Hx Hr Hl Hn HQ. unfold iunlockput. wp_step. eapply (iunlock_wp me pid P V); [exact Hp|exact Hx|done|done|].
  intros k1 F1 P1. assert (itable k1 !! i = Some (upd_i_lock (λ _, Sleeplock false 0) x)) as Hx1.
  { rewrite (bframe_itable _ _ F1). by eapply lookup_seti. }
  eapply iput_wp; [exact Hx1|done|].
  apply (HQ (seti i (unref x) k1)); [|by eapply (br_seti me pid)]. apply (bframe_seti _ _ i (unref x)) in F1. by rewrite seti_seti in F1.
Qed.

Lemma lock_node k0 T n i k (Q : unit → kernel → Prop) :
  at_node k0 T n i k → sb k0 = S →
  (∀ x z k', itable k !! i = Some x → z = locked pid S V x → same_file z (dino V n) → entry_ok V live z → i_ref z = i_ref x → i_inum z = i_inum x →
     1 ≤ i_ref z → i_nlink z ≠ 0 → itable k' = <[i := z]> (itable k) → itable k' !! i = Some z → iframe k0 k' → P k' ∅ → Q tt k') →
  wp (ilock me (Some i)) Q k.
Proof using R Htree.
  intros (((Ht & Hu & _) & x & Hx & Hn & Hl & Hr & _) & F & Hp) Hsb HQ.
  assert (entry_ok V live x) as Hok by (unfold table_ok in Ht; rewrite Forall_lookup in Ht; by eapply Ht).
  assert (sl_locked (i_lock x) = false) as Hlk by (unfold unlocked in Hu; rewrite Forall_lookup in Hu; by eapply Hu).
  destruct (loaded_same V live x Hok) as (Hs & _ & Hin & Hre & Hd); [lia|]. rewrite Hn in Hs.
  eapply (ilock_wp me pid S P V); [exact Hp|by rewrite (iframe_sb _ _ F)|exact Hx|done|done| | |].
  - destruct Hok as [_ Hok]. destruct Hok as [? _]; [lia|done].
  - destruct Hs as (_ & -> & _). by apply (tr_type _ _ Htree).
  - intros k' F' P'. eapply HQ; [exact Hx|done|exact Hs|by apply locked_ok; [|lia]|done|done| | | | | |done].
    + cbn. lia.
    + destruct Hs as (_ & _ & E & _). cbn. rewrite E. by apply (tr_link _ _ Htree).
    + exact (bframe_itable _ _ F').
    + rewrite (bframe_itable _ _ F'). by eapply lookup_seti.
    + by eapply iframe_step.
Qed.

(** The postcondition of a walk along [es] from inode [n]. *)
Definition walked (k0 : kernel) (T : Z → Z) (parent : bool) (n : Z) (es : list (list Z)) (r : option nat * list Z) (k : kernel) : Prop :=
  match walk_path V parent n es with
  | None => r.1 = None ∧ left_node k0 T k
  | Some m => ∃ i, r.1 = Some i ∧ at_node k0 T m i k ∧ (parent = true → last es = Some (dname r.2))
  end.

Lemma drop_node k0 T n i k0' k x z (Q : unit → kernel → Prop) :
  at_node k0 T n i k0' → itable k0' !! i = Some x → z = locked pid S V x → entry_ok V live z → i_ref z = i_ref x → i_inum z = i_inum x →
  1 ≤ i_ref z → i_nlink z ≠ 0 → itable k = <[i := z]> (itable k0') → itable k !! i = Some z → iframe k0 k → P k ∅ →
  (∀ k', left_node k0 T k' → Q tt k') → wp (iunlockput me i) Q k.
Proof using R.
  intros (Hh & _) Hx Hz Hok Er En Hr Hnl Ht Hi F Hp HQ. eapply iunlockput_wp; [exact Hp|exact Hi|done|by subst z|done|].
  intros k' F' P'. apply HQ. split_and!; [|by eapply iframe_step|done]. rewrite (bframe_itable _ _ F').
  cbn [itable seti upd_itable]. rewrite Ht, list_insert_insert_eq.
  eapply holds_drop; [exact Hh|exact Hx|by apply unref_ok|cbn; lia|done|done].
Qed.

Lemma walk_down k0 T n m i k1 k x z nm j de (Q : option (nat * Z) → kernel → Prop) :
  at_node k0 T n i k1 → itable k1 !! i = Some x → z = locked pid S V x → same_file z (dino V n) → entry_ok V live z → i_ref z = i_ref x → i_inum z = i_inum x →
  i_nlink z ≠ 0 → itable k = <[i := z]> (itable k1) → itable k !! i = Some z → iframe k0 k → P k ∅ →
  dir_ok S V z → readable (Z.to_nat DIRSIZ) nm → dir_find V z (dname nm) = Some (j, de) → m = de_inum de → live m →
  (∀ i' o k', wp (iunlockput me i) (λ _ k2, at_node k0 T m i' k2) k' → Q (Some (i', o)) k') →
  wp (dirlookup me i nm) Q k.
Proof using R.
  intros (Hh & _) Hx Hz Hsf Hok Er En Hnl Ht Hi F Hp Hd Hrd Hfi -> Hl HQ.
  destruct (holds_step V live T n i (itable k1) x z (de_inum de) Hh Hx Hok Er En Hl) as (i' & ip' & Hs & y & Hy & Hry & Hly & Hny & Hh').
  rewrite <-Ht in *. eapply (dirlookup_wp me pid S P V); [exact Hp|exact Hi|done|done|]. rewrite Hfi. exists i', ip'. split; [done|].
  intros k' F' P'. apply HQ. assert (itable k' = <[i' := ip']> (itable k)) as Ht' by exact (bframe_itable _ _ F').
  eapply (iunlockput_wp k' i y); [exact P'|by rewrite Ht'|done|by rewrite Hly, Hz|by rewrite Hny|].
  intros k2 F2 P2. split_and!; [|by eapply iframe_step, F2; eapply iframe_step|done]. rewrite (bframe_itable _ _ F2).
  cbn [itable seti upd_itable]. by rewrite Ht'.
Qed.

Lemma walked_step k0 T parent n m e es r k :
  i_type (dino V n) = T_DIR → parent && bool_decide (es = []) = false → dir_map V (dino V n) e = Some m →
  walked k0 T parent m es r k → walked k0 T parent n (e :: es) r k.
Proof using Type.
  intros Ht He Hm. unfold walked. cbn [walk_path]. rewrite decide_True by done. rewrite He, Hm. cbn [mbind option_bind].
  destruct (walk_path V parent m es) as [q|]; [|done]. intros (i & Hi & Hn & Hl). exists i. split_and!; [done|done|].
  intros ->. specialize (Hl eq_refl). destruct es as [|e' es]; [done|]. exact Hl.
Qed.

(** The start of a path: the root for an absolute one, else the current directory. *)
Definition starts (k : kernel) (path : list Z) (n : Z) : Prop :=
  if default 0 (head path) =? slash then n = ROOTINO ∧ live ROOTINO
  else ∃ p c x, procs k !! me = Some p ∧ p_cwd p = Some c ∧ itable k !! c = Some x ∧ 1 ≤ i_ref x ∧ i_inum x = n.

(** One round of the loop of [namex]. *)
Definition namex_round (parent : bool) (st : nat * list Z * list Z) : M kernel (nat * list Z * list Z + option nat * list Z) :=
  let '(ip, path, name) := st in
  match skipelem path name with
  | None => if parent then iput me ip ;; mret (inr (None, name)) else mret (inr (Some ip, name))
  | Some (path, name) =>
      ilock me (Some ip) ;;
      x ← the_inode ip;
      if negb (i_type x =? T_DIR) then iunlockput me ip ;; mret (inr (None, name))
      else if parent && (default 0 (head path) =? 0) then iunlock me (Some ip) ;; mret (inr (Some ip, name))
      else
        next ← dirlookup me ip name;
        match next with
        | None => iunlockput me ip ;; mret (inr (None, name))
        | Some (next, _) => iunlockput me ip ;; mret (inl (next, path, name))
        end
  end.
Lemma namex_rounds path parent name : namex me path parent name =
  ((if default 0 (head path) =? slash then iget ROOTDEV ROOTINO
    else p ← the_proc me; c ← deref (p_cwd p); idup c) ≫= λ ip, loopM (Datatypes.S (length path)) (namex_round parent) (ip, path, name)).
Proof using Type. reflexivity. Qed.

(** A round ends the walk, or goes one inode down with a shorter path. *)
Lemma namex_round_wp k0 T parent n i path name k :
  at_node k0 T n i k → sb k0 = S → 0 ∈ path → length name = Z.to_nat DIRSIZ →
  wp (namex_round parent (i, path, name)) (λ r k', match r with
    | inl (i', path', name') => (length path' < length path)%nat ∧ 0 ∈ path' ∧ length name' = Z.to_nat DIRSIZ ∧
        ∃ m, at_node k0 T m i' k' ∧ ∀ r k1, walked k0 T parent m (elems path') r k1 → walked k0 T parent n (elems path) r k1
    | inr r => walked k0 T parent n (elems path) r k'
    end) k.
Proof using R Htree.
  intros Hat Hsb H0 Hlen. unfold namex_round. pose proof (skipelem_spec path name H0 Hlen) as Hsk.
  destruct (skipelem path name) as [[path' name']|].
  2:{ rewrite Hsk. unfold walked. cbn [walk_path]. destruct parent; [|by wp_step; exists i].
    destruct Hat as (Hh & F & Hp). pose proof Hh as ((Ht & Hu & _) & x & Hx & Hn & Hl & Hr & _).
    assert (entry_ok V live x) as Hok by (unfold table_ok in Ht; rewrite Forall_lookup in Ht; by eapply Ht).
    wp_step. eapply iput_wp; [exact Hx| |].
    - intros Hv. destruct Hok as [_ Hok]. destruct Hok as (_ & _ & Hv'); [lia|]. destruct (Hv' Hv) as (_ & _ & -> & _). rewrite Hn. by apply (tr_link _ _ Htree).
    - wp_step. split; [done|]. split_and!; [|by eapply iframe_step|by eapply (br_seti me pid)].
      eapply holds_drop; [exact Hh|exact Hx| |done|done|].
      + destruct Hok as [_ Hok]. split; [cbn; lia|]. intros _. apply Hok. lia.
      + unfold unlocked in Hu. rewrite Forall_lookup in Hu. exact (Hu i x Hx). }
  destruct Hsk as (He & H0' & Hlen' & Hlt & Hhd). rewrite He. wp_step. eapply lock_node; [exact Hat|done|].
  intros x z k' Hx Hz Hsf Hok Er En Hr Hnl Ht Hi F P'. wp_step. eapply wp_at_idx; [exact Hi|].
  pose proof Hsf as (_ & Hty & _). rewrite Hty. assert (live n) as Hlive by (by destruct Hat as ((_ & ? & _ & _ & ? & _) & _)).
  destruct (Z.eqb_spec (i_type (dino V n)) T_DIR) as [Hdir|Hdir]; cbn [negb].
  2:{ wp_step. eapply drop_node; [exact Hat|exact Hx|done..|]. intros k2 Hk2. wp_step.
    unfold walked. cbn [walk_path]. by rewrite decide_False. }
  assert ((default 0 (head path') =? 0) = bool_decide (elems path' = [])) as ->.
  { apply eq_true_iff_eq. by rewrite Z.eqb_eq, bool_decide_eq_true. }
  destruct (parent && bool_decide (elems path' = [])) eqn:Hend.
  { wp_step. eapply (iunlock_wp me pid P V); [exact P'|exact Hi|done|by subst z|]. intros k2 F2 P2. wp_step.
    unfold walked. cbn [walk_path]. rewrite decide_True, Hend by done. exists i. split_and!; [done| |].
    - split_and!; [|by eapply iframe_step|done]. destruct Hat as (Hh & _). rewrite (bframe_itable _ _ F2). cbn [itable seti upd_itable].
      rewrite Ht, list_insert_insert_eq. by eapply holds_unlock.
    - intros ->. apply bool_decide_eq_true in Hend as ->. done. }
  assert (dir_ok S V z) as Hd by (eapply same_dir_ok; [exact Hsf|by apply (tr_dir _ _ Htree)]).
  assert (readable (Z.to_nat DIRSIZ) name') as Hrd by (left; lia).
  destruct (same_dirents V _ _ Hsf) as [_ Hmap]. specialize (Hmap (dname name')). unfold dir_map at 1 in Hmap.
  wp_step. destruct (dir_find V z (dname name')) as [[j de]|] eqn:Hfi; cbn in Hmap.
  - assert (live (de_inum de)) as Hl' by (by eapply (tr_live _ _ Htree n)).
    eapply walk_down; [exact Hat|exact Hx|done..|exact Hl'|]. intros i' o k1 Hk1. wp_step. eapply wp_mono; [exact Hk1|].
    intros [] k2 Hk2. cbv beta in Hk2. wp_step. split_and!; [done..|]. exists (de_inum de). split; [done|]. intros r k3. by apply walked_step.
  - eapply (dirlookup_wp me pid S P V); [exact P'|exact Hi|done|done|]. rewrite Hfi. intros k1 F1 P1. wp_step.
    eapply (drop_node k0 T n i k k1 x z); [exact Hat|exact Hx|done..| | | |done|].
    + by rewrite (bframe_itable _ _ F1).
    + by rewrite (bframe_itable _ _ F1).
    + by eapply iframe_same.
    + intros k2 Hk2. wp_step. unfold walked. cbn [walk_path]. rewrite decide_True, Hend by done. by rewrite <-Hmap.
Qed.

Lemma namex_wp k path parent name n (Q : option nat * list Z → kernel → Prop) :
  P k ∅ → sb k = S → table_ok V live (itable k) → unlocked (itable k) → (2 ≤ nfree (itable k))%nat → starts k path n →
  0 ∈ path → length name = Z.to_nat DIRSIZ →
  (∀ r k', walked k (refs (itable k)) parent n (elems path) r k' → Q r k') → wp (namex me path parent name) Q k.
Proof using R Htree.
  intros Hp Hsb Ht Hu Hn Hst H0 Hlen HQ. set (T := refs (itable k)) in *. assert (settled V live T (itable k)) as Hs by done.
  rewrite namex_rounds. wp_step.
  assert (∀ i k1, at_node k T n i k1 → wp (loopM (Datatypes.S (length path)) (namex_round parent) (i, path, name)) Q k1) as Hloop.
  { intros i k1 Hat. eapply (wp_loop _ (λ st k1, 0 ∈ st.1.2 ∧ length st.2 = Z.to_nat DIRSIZ ∧ ∃ m, at_node k T m st.1.1 k1 ∧
      ∀ r k2, walked k T parent m (elems st.1.2) r k2 → walked k T parent n (elems path) r k2) (λ st, length st.1.2)).
    - cbn. lia.
    - split_and!; [done|done|]. by exists n.
    - intros [[i1 path1] name1] k2 (H1 & H2 & m & Hm & Hw). cbn [fst snd] in *. eapply wp_mono; [by apply (namex_round_wp k T parent m)|].
      intros [[[i2 path2] name2]|r] k3; cbn [fst snd].
      + intros (Hlt & H3 & H4 & m2 & Hm2 & Hw2). split_and!; [done|done| |done]. exists m2. split; [done|]. intros r k4 Hr. by apply Hw, Hw2.
      + intros Hr. by apply HQ, Hw. }
  unfold starts in Hst. destruct (default 0 (head path) =? slash).
  - destruct Hst as [-> Hl]. destruct (holds_iget V live T (itable k) ROOTINO Hs Hn Hl) as (j & ip' & Hj & Hh).
    eapply iget_wp; [exact Hj|]. apply Hloop. split_and!; [done|apply iframe_seti|by eapply (br_seti me pid)].
  - destruct Hst as (p & c & x & Hme & Hc & Hx & Hr & <-). wp_step. eapply wp_at_idx; [exact Hme|]. rewrite Hc. wp_step. unfold deref.
    wp_step. unfold idup. wp_step. eapply wp_set_idx; [exact Hx|]. wp_step. apply Hloop.
    split_and!; [by apply holds_dup|apply iframe_seti|by eapply (br_seti me pid)].
Qed.
End walk.

(** ** Theorems *)

(** What a walk leaves: the transaction as it was, the table well formed and
    unlocked, and one reference more to the inode found, if any. *)
Definition walk_result (D : disk) (hs : list Z) (V : Z → list Z) (live : Z → Prop) (k : kernel) (found : option Z) (r : option nat) (k' : kernel) : Prop :=
  txn me pid (logstart S) k' D hs ∅ V ∧ iframe k k' ∧ table_ok V live (itable k') ∧ unlocked (itable k') ∧
  match found with
  | None => r = None ∧ ∀ q, refs (itable k') q = refs (itable k) q
  | Some m => ∃ i x, r = Some i ∧ itable k' !! i = Some x ∧ i_inum x = m ∧ 1 ≤ i_ref x ∧
      ∀ q, refs (itable k') q = refs (itable k) q + one m q
  end.

Lemma walked_result D hs V live k parent n es r k' :
  walked (txn_read me pid S D hs V) V live k (refs (itable k)) parent n es r k' →
  walk_result D hs V live k (walk_path V parent n es) r.1 k' ∧
  (parent = true → is_Some (walk_path V parent n es) → last es = Some (dname r.2)).
Proof using Type.
  unfold walked, walk_result. destruct (walk_path V parent n es) as [m|].
  - intros (i & Hr & (((Ht & Hu & HT) & x & Hx & Hn & Hl & Hr1 & _) & F & T & _) & Hlast). split; [|by intros Hp _; apply Hlast].
    split_and!; [done..|]. by exists i, x.
  - intros (Hr & (Ht & Hu & HT) & F & T & _). split; [by split_and!|]. by intros _ [].
Qed.

(** C23: [namei] returns, and finds the inode that the path names in the tree of the
    directories on the disk, with exactly one reference to it more. *)
Theorem namei_spec k D hs V live path n :
  txn me pid (logstart S) k D hs ∅ V → (length hs < Z.to_nat NBUF)%nat → sb k = S → tree_ok V live →
  table_ok V live (itable k) → unlocked (itable k) → (2 ≤ nfree (itable k))%nat → starts live k path n → 0 ∈ path →
  ∃ r k', namei me path k = Done r k' ∧ walk_result D hs V live k (walk_path V false n (elems path)) r k'.
Proof using Type.
  intros Ht Hl Hsb Htr Htb Hu Hn Hst H0.
  assert (wp (namei me path) (walk_result D hs V live k (walk_path V false n (elems path))) k) as Hwp.
  { unfold namei. wp_step. eapply (namex_wp (txn_read me pid S D hs V) V live Htr); [by apply txn_read_start|done..|].
    intros [r nm] k' Hw. wp_step. by apply (walked_result D hs V live k false n) in Hw as [? _]. }
  apply wp_elim in Hwp as (r & k' & Hrun & HR). by exists r, k'.
Qed.

(** [nameiparent] stops at the directory of the last element, and returns its name. *)
Theorem nameiparent_spec k D hs V live path name n :
  txn me pid (logstart S) k D hs ∅ V → (length hs < Z.to_nat NBUF)%nat → sb k = S → tree_ok V live →
  table_ok V live (itable k) → unlocked (itable k) → (2 ≤ nfree (itable k))%nat → starts live k path n → 0 ∈ path →
  length name = Z.to_nat DIRSIZ →
  ∃ r name' k', nameiparent me path name k = Done (r, name') k' ∧
    walk_result D hs V live k (walk_path V true n (elems path)) r k' ∧
    (is_Some r → last (elems path) = Some (dname name')).
Proof using Type.
  intros Ht Hl Hsb Htr Htb Hu Hn Hst H0 Hlen.
  assert (wp (nameiparent me path name) (λ r k', walk_result D hs V live k (walk_path V true n (elems path)) r.1 k' ∧
    (is_Some r.1 → last (elems path) = Some (dname r.2))) k) as Hwp.
  { unfold nameiparent. eapply (namex_wp (txn_read me pid S D hs V) V live Htr); [by apply txn_read_start|done..|].
    intros [r nm] k' Hw. apply (walked_result D hs V live k true n) in Hw as [HR Hlast]. split; [done|]. intros [i Hi]. apply Hlast; [done|].
    destruct (walk_path V true n (elems path)); [done|]. destruct HR as (_ & _ & _ & _ & HR & _). cbn in *. congruence. }
  apply wp_elim in Hwp as ([r nm] & k' & Hrun & HR). by exists r, nm, k'.
Qed.
End fspath.
