(* ===== verification/FsExamples.v ===== *)
(** * A concrete file system

    A disk with one file, a machine that has booted from it, and the theorems of
    [Txn], [FsBlock] and [FsWrite] applied to it; then a disk with a root
    directory, for those of [FsDir] and [FsPath]. *)

From S2P Require Import Prelude Riscv Memory CString Kalloc Vm State Bytes Printf Sched Bio BioSpec Cache Log LogSpec Crash Txn Fs FsBlock FsFile FsInode FsWrite FsDir FsPath.

#[global] Instance demo_fuel : SleepFuel := 10%nat.

(** A disk of 2000 blocks as [mkfs] lays it out: boot, super, 30 log blocks,
    inodes from 32, the bitmap at 45 and data from 46. *)
Definition demo_sb : superblock := Superblock FSMAGIC 2000 1954 200 30 2 32 45.
Definition demo_bitmap : list Z := [255; 255; 255; 255; 255; 127] ++ replicate 1018 0.
Definition demo_hello : list Z := [104; 101; 108; 108; 111] ++ replicate 1019 0.
Definition demo_blocks : gmap Z (list Z) := {[45 := demo_bitmap; 46 := demo_hello]}.

(** Inode 1 in memory: a file of five bytes in block 46. *)
Definition demo_inode : inode := Inode ROOTDEV 1 1 (Sleeplock true 7) true T_FILE 0 0 1 5 (46 :: replicate 12 0).
Definition demo_p : proc :=
  Proc RUNNING ChNull false 0 7 None 0 0 0 0 0 0 (replicate 16 None) None [] [] 0.
Definition demo_off : kernel :=
  Kernel (Machine ∅ 0) [demo_p] (Some 0%nat) 8 [] ∅ [demo_inode]
    (BufCache (replicate 30 (Buf false 0 0 (Sleeplock false 0) 0 None None [])) None None)
    (LogSt 0 0 0 false 0 0 (replicate 30 0)) demo_sb (Disk demo_blocks []) 0
    (Conss [] 0 0 0) (UartSt (replicate 32 0) 0 0 false [] []).

(** The machine after [binit] and [initlog], and inside a transaction. *)
Definition demo_boot : kernel := final_state ((binit ;; initlog 0 ROOTDEV demo_sb) demo_off) demo_off.
Definition demo_txn : kernel := begun demo_boot.
Definition demo_V : Z → list Z := disk_block (kdisk demo_boot).

Lemma demo_idle : idle 0 7 (logstart demo_sb) demo_boot.
Proof.
  assert (wp (binit ;; initlog 0 ROOTDEV demo_sb) (λ _ k, idle 0 7 (logstart demo_sb) k) demo_off) as Hwp.
  { eapply (boot_idle_wp _ _ _ _ demo_blocks); [|reflexivity..|cbn; lia| | |].
    - split; [reflexivity|reflexivity|apply Forall_replicate; done|reflexivity].
    - intros n. unfold disk_block. change (blocks (Disk demo_blocks [])) with demo_blocks. unfold demo_blocks.
      destruct (decide (n = 45)) as [->|H45]; [reflexivity|]. rewrite lookup_insert_ne by congruence.
      destruct (decide (n = 46)) as [->|H46]; [reflexivity|]. rewrite lookup_singleton_ne by congruence. reflexivity.
    - vm_compute. discriminate.
    - change (parse_header _) with (@nil Z). split; [vm_compute; split; [discriminate|reflexivity]|fs_consts; cbn; lia|set_solver|constructor]. }
  apply wp_elim in Hwp as (u & k & E & Hi). unfold demo_boot. by rewrite E.
Qed.

Lemma demo_txn_ok : txn 0 7 (logstart demo_sb) demo_txn (kdisk demo_boot) [] ∅ demo_V.
Proof. apply txn_begun, demo_idle. Qed.
Lemma demo_layout : layout demo_sb.
Proof. split; vm_compute; repeat split; discriminate. Qed.
Lemma demo_V_bitmap : demo_V 45 = demo_bitmap.
Proof. vm_compute. reflexivity. Qed.
Lemma demo_V_46 : demo_V 46 = demo_hello.
Proof. vm_compute. reflexivity. Qed.
Lemma demo_sb_eq : sb demo_txn = demo_sb.
Proof. vm_compute. reflexivity. Qed.
Lemma demo_itable : itable demo_txn !! 0%nat = Some demo_inode.
Proof. vm_compute. reflexivity. Qed.

Lemma demo_used n : 0 ≤ n < 2000 → used demo_sb demo_V n = bit_of n demo_bitmap.
Proof.
  intros Hn. unfold used, BBLOCK. change BPB with 8192. change (bmapstart demo_sb) with 45.
  rewrite (Z.div_small n), (Z.mod_small n) by lia. change (u32 (0 + 45)) with 45. by rewrite demo_V_bitmap.
Qed.
Lemma demo_meta : meta_used demo_sb demo_V.
Proof.
  intros n Hn _. change (data_start demo_sb) with 46 in Hn. rewrite demo_used by lia.
  assert (Forall (λ n, bit_of n demo_bitmap = true) (seqZ 0 46)) as Hall by (apply (bool_decide_unpack _); by vm_compute).
  rewrite Forall_forall in Hall. apply Hall, elem_of_seqZ. lia.
Qed.
Lemma demo_slots : slots demo_V demo_inode = 46 :: replicate 267 0.
Proof. reflexivity. Qed.
Lemma demo_file : file_ok demo_sb demo_V demo_inode.
Proof.
  split; [reflexivity|reflexivity| |]; rewrite demo_slots.
  - apply (bool_decide_unpack _). by vm_compute.
  - intros b Hb Hb0. assert (b = 46) as ->.
    { apply elem_of_cons in Hb as [->|Hb]; [by destruct Hb0|]. apply elem_of_cons in Hb as [->|Hb]; [done|].
      by apply elem_of_replicate in Hb as [-> _]. }
    split; [change (46 ≤ 46 < 2000); lia|]. rewrite demo_used by lia. by vm_compute.
Qed.
Lemma demo_whole : whole demo_V demo_inode.
Proof.
  split; [vm_compute; split; discriminate|]. intros o Ho. exists 46. rewrite demo_slots. cbn [demo_inode i_size] in Ho.
  rewrite Z.div_small by (change BSIZE with 1024; lia). done.
Qed.
Lemma demo_inum : inum_ok demo_sb (i_inum demo_inode).
Proof. split; [vm_compute; discriminate|vm_compute; split; [discriminate|reflexivity]]. Qed.
Lemma demo_dinode : dinode_ok demo_inode.
Proof.
  split; cbn [demo_inode i_type i_major i_minor i_nlink i_size i_addrs]; try (change T_FILE with 2; lia); [reflexivity|].
  constructor; [lia|]. apply Forall_replicate. lia.
Qed.

(** ** Witnesses *)

Lemma transaction_atomic_witness :
  ∃ k' ws, (begin_op 0 ;; (balloc 0 ROOTDEV ;; mret tt) ;; end_op 0) demo_boot = Done tt k' ∧ idle 0 7 2 k' ∧
    crash_ok 2 (kdisk demo_boot) (kdisk k') ws.
Proof.
  destruct (transaction_atomic 0 7 (logstart demo_sb) demo_boot (balloc 0 ROOTDEV ;; mret tt)) as (k' & ws & H1 & H2 & _ & H3).
  - exact demo_idle.
  - apply wp_bind. eapply (balloc_wp 0 7 demo_sb);
      [exact demo_layout|exact demo_sb_eq|exact demo_txn_ok|done|rewrite map_size_empty; cbn; lia|exact demo_meta|..].
    + intros k' _ T _. apply wp_ret. eauto.
    + intros r k' _ _ _ _ T. apply wp_ret. eauto.
  - exists k', ws. exact (conj H1 (conj H2 H3)).
Defined.

Lemma balloc_spec_witness :
  ∃ r k', balloc 0 ROOTDEV demo_txn = Done r k'.
Proof.
  destruct (balloc_spec 0 7 demo_sb demo_txn (kdisk demo_boot) [] demo_V) as (r & k' & _ & _ & Hr & _);
    [exact demo_layout|exact demo_sb_eq|exact demo_txn_ok|cbn; lia|exact demo_meta|]. exists r, k'. exact Hr.
Defined.

Lemma balloc_bfree_witness :
  ∃ k', (r ← balloc 0 ROOTDEV; bfree 0 ROOTDEV r) demo_txn = Done tt k'.
Proof.
  destruct (balloc_bfree 0 7 demo_sb demo_txn (kdisk demo_boot) [] demo_V) as (k' & _ & _ & Hr & _);
    [exact demo_layout|exact demo_sb_eq|exact demo_txn_ok|cbn; lia|exact demo_meta| |exists k'; exact Hr].
  exists 47. split; [cbn; lia|]. rewrite demo_used by lia. by vm_compute.
Defined.

Lemma readi_spec_witness :
  ∃ k', readi 0 0 DLocal 1 100 demo_txn = Done (4, [101; 108; 108; 111]) k'.
Proof.
  destruct (readi_spec 0 7 demo_sb demo_txn (kdisk demo_boot) [] demo_V 0 demo_inode DLocal 1 100) as (k' & Hr & _);
    [exact demo_txn_ok|fs_consts; cbn; lia|exact demo_itable|exact demo_file|exact demo_whole|lia..|done|].
  exists k'. rewrite Hr. vm_compute. reflexivity.
Defined.

Lemma writei_spec_witness :
  ∃ tot k', writei 0 0 (SLocal [1; 2; 3]) 4 3 demo_txn = Done tot k' ∧ 0 ≤ tot ≤ 3.
Proof.
  destruct (writei_spec 0 7 demo_sb demo_txn (kdisk demo_boot) [] demo_V 0 demo_inode 4 (SLocal [1; 2; 3]) [1; 2; 3])
    as (tot & k' & hs' & V' & ip' & Hr & _ & _ & Ht & _);
    [exact demo_layout|cbn; lia|exact demo_sb_eq|exact demo_txn_ok|vm_compute; lia|exact demo_meta|exact demo_itable|exact demo_file|
     exact demo_dinode|exact demo_inum|cbn; lia|exact demo_whole|cbn; lia|vm_compute; discriminate|reflexivity|].
  exists tot, k'. exact (conj Hr Ht).
Defined.

Lemma writei_readi_witness :
  ∃ tot k', (tot ← writei 0 0 (SLocal [1; 2; 3]) 4 3; readi 0 0 DLocal 4 tot) demo_txn = Done (tot, take (Z.to_nat tot) [1; 2; 3]) k'.
Proof.
  apply (writei_readi 0 7 demo_sb demo_txn (kdisk demo_boot) [] demo_V 0 demo_inode 4 [1; 2; 3]);
    [exact demo_layout|exact demo_sb_eq|exact demo_txn_ok|vm_compute; lia|exact demo_meta|exact demo_itable|exact demo_file|
     exact demo_inum|exact demo_whole|cbn; lia|vm_compute; discriminate].
Defined.

Lemma iupdate_spec_witness :
  ∃ k', iupdate 0 0 demo_txn = Done tt k'.
Proof.
  destruct (iupdate_spec 0 7 demo_sb demo_txn (kdisk demo_boot) [] demo_V 0 demo_inode) as (k' & hs' & V' & Hr & _);
    [exact demo_layout|exact demo_sb_eq|exact demo_txn_ok|cbn; lia|exact demo_itable|reflexivity|exact demo_dinode|
     exact demo_inum|cbn; lia|cbn; lia|]. exists k'. exact Hr.
Defined.

(** ** A tree of directories

    A disk whose root directory holds a file [a]. *)

(** Inode 1 is the root directory, with its entries in block 46; inode 2 is an
    empty file. *)
Definition tree_dinode (type nlink size addr : Z) : list Z :=
  le_put 2 type ++ le_put 2 0 ++ le_put 2 0 ++ le_put 2 nlink ++ le_put 4 size ++ le_put 4 addr ++ replicate 48 0.
Definition tree_inodes : list Z :=
  replicate 64 0 ++ tree_dinode T_DIR 1 48 46 ++ tree_dinode T_FILE 1 0 0 ++ replicate 832 0.
Definition tree_name (l : list Z) : list Z := l ++ replicate (14 - length l) 0.
Definition tree_root : list Z :=
  le_put 2 1 ++ tree_name [46] ++ le_put 2 1 ++ tree_name [46; 46] ++ le_put 2 2 ++ tree_name [97] ++ replicate 976 0.
Definition tree_blocks : gmap Z (list Z) := {[32 := tree_inodes; 45 := demo_bitmap; 46 := tree_root]}.
Definition tree_free : inode := Inode 0 0 0 (Sleeplock false 0) false 0 0 0 0 0 (replicate 13 0).
Definition tree_inode (l : bool) : inode :=
  Inode ROOTDEV 1 1 (Sleeplock l (if l then 7 else 0)) true T_DIR 0 0 1 48 (46 :: replicate 12 0).
Definition tree_off (l : bool) : kernel :=
  Kernel (Machine ∅ 0) [demo_p] (Some 0%nat) 8 [] ∅ [tree_inode l; tree_free; tree_free; tree_free]
    (BufCache (replicate 30 (Buf false 0 0 (Sleeplock false 0) 0 None None [])) None None)
    (LogSt 0 0 0 false 0 0 (replicate 30 0)) demo_sb (Disk tree_blocks []) 0
    (Conss [] 0 0 0) (UartSt (replicate 32 0) 0 0 false [] []).
Definition tree_boot (l : bool) : kernel := final_state ((binit ;; initlog 0 ROOTDEV demo_sb) (tree_off l)) (tree_off l).
Definition tree_txn (l : bool) : kernel := begun (tree_boot l).
Definition tree_V (l : bool) : Z → list Z := disk_block (kdisk (tree_boot l)).
Definition tree_live (n : Z) : Prop := n = 1 ∨ n = 2.

Lemma tree_txn_ok l : txn 0 7 (logstart demo_sb) (tree_txn l) (kdisk (tree_boot l)) [] ∅ (tree_V l).
Proof.
  apply txn_begun.
  assert (wp (binit ;; initlog 0 ROOTDEV demo_sb) (λ _ k, idle 0 7 (logstart demo_sb) k) (tree_off l)) as Hwp.
  { eapply (boot_idle_wp _ _ _ _ tree_blocks); [|reflexivity..|cbn; lia| | |].
    - split; [reflexivity|reflexivity|apply Forall_replicate; done|reflexivity].
    - intros n. unfold disk_block. change (blocks (Disk tree_blocks [])) with tree_blocks. unfold tree_blocks.
      destruct (decide (n = 32)) as [->|H32]; [reflexivity|]. rewrite lookup_insert_ne by congruence.
      destruct (decide (n = 45)) as [->|H45]; [reflexivity|]. rewrite lookup_insert_ne by congruence.
      destruct (decide (n = 46)) as [->|H46]; [reflexivity|]. rewrite lookup_singleton_ne by congruence. reflexivity.
    - vm_compute. discriminate.
    - change (parse_header _) with (@nil Z). split; [vm_compute; split; [discriminate|reflexivity]|fs_consts; cbn; lia|set_solver|constructor]. }
  apply wp_elim in Hwp as (u & k & E & Hi). unfold tree_boot. by rewrite E.
Qed.
Lemma tree_sb l : sb (tree_txn l) = demo_sb.
Proof. destruct l; vm_compute; reflexivity. Qed.
Lemma tree_itable l : itable (tree_txn l) = [tree_inode l; tree_free; tree_free; tree_free].
Proof. destruct l; vm_compute; reflexivity. Qed.
Lemma tree_V_bitmap l : tree_V l 45 = demo_bitmap.
Proof. destruct l; vm_compute; reflexivity. Qed.

Lemma tree_used l n : 0 ≤ n < 2000 → used demo_sb (tree_V l) n = bit_of n demo_bitmap.
Proof.
  intros Hn. unfold used, BBLOCK. change BPB with 8192. change (bmapstart demo_sb) with 45.
  rewrite (Z.div_small n), (Z.mod_small n) by lia. change (u32 (0 + 45)) with 45. by rewrite tree_V_bitmap.
Qed.
Lemma tree_meta l : meta_used demo_sb (tree_V l).
Proof.
  intros n Hn _. change (data_start demo_sb) with 46 in Hn. rewrite tree_used by lia.
  assert (Forall (λ n, bit_of n demo_bitmap = true) (seqZ 0 46)) as Hall by (apply (bool_decide_unpack _); by vm_compute).
  rewrite Forall_forall in Hall. apply Hall, elem_of_seqZ. lia.
Qed.
Lemma tree_slots l : slots (tree_V l) (tree_inode l) = 46 :: replicate 267 0.
Proof. reflexivity. Qed.
Lemma tree_dir l : dir_ok demo_sb (tree_V l) (tree_inode l).
Proof.
  split; [done|done| |].
  - split; [done|done| |]; rewrite tree_slots.
    + apply (bool_decide_unpack _). by vm_compute.
    + intros b Hb Hb0. assert (b = 46) as ->.
      { apply elem_of_cons in Hb as [->|Hb]; [by destruct Hb0|]. apply elem_of_cons in Hb as [->|Hb]; [done|].
        by apply elem_of_replicate in Hb as [-> _]. }
      split; [change (46 ≤ 46 < 2000); lia|]. rewrite tree_used by lia. by vm_compute.
  - split; [vm_compute; split; discriminate|]. intros o Ho. exists 46. rewrite tree_slots. cbn [tree_inode i_size] in Ho.
    rewrite Z.div_small by (change BSIZE with 1024; lia). done.
Qed.

Lemma tree_dino_1 : same_file (tree_inode false) (dino demo_sb (tree_V false) 1).
Proof. vm_compute. repeat split. Qed.
Lemma tree_dino_2 : i_type (dino demo_sb (tree_V false) 2) = T_FILE ∧ i_nlink (dino demo_sb (tree_V false) 2) = 1.
Proof. vm_compute. repeat split. Qed.
Lemma two_inodes S V a :
  same_file a (dino S V 1) → i_nlink a ≠ 0 → dir_ok S V a → i_type (dino S V 2) = T_FILE → i_nlink (dino S V 2) = 1 →
  Forall (λ de, de_inum de = 1 ∨ de_inum de = 2) (dirents V a) → tree_ok S V tree_live.
Proof.
  intros Hs Hl Hd T2 L2 Hall. pose proof Hs as (H1 & H2 & H3 & H4 & H5). split.
  - intros n [->| ->]; [by rewrite <-H2, (do_type _ _ _ Hd)|by rewrite T2].
  - intros n [->| ->]; [by rewrite <-H3|by rewrite L2].
  - intros n [->| ->] Ht; [|by rewrite T2 in Ht]. eapply same_dir_ok; [|exact Hd]. by split_and!.
  - intros n nm m [->| ->] Ht; [|by rewrite T2 in Ht]. destruct (same_dirents V _ _ Hs) as [_ Hm]. rewrite <-Hm.
    unfold dir_map, dir_find. intros Hf. apply fmap_Some in Hf as ([j de] & Hf & ->). apply list_find_Some in Hf as (Hj & _).
    rewrite Forall_lookup in Hall. exact (Hall j de Hj).
Qed.
Lemma tree_tree : tree_ok demo_sb (tree_V false) tree_live.
Proof.
  eapply two_inodes; [exact tree_dino_1|done|exact (tree_dir false)|exact (proj1 tree_dino_2)|exact (proj2 tree_dino_2)|].
  apply (bool_decide_unpack _). vm_compute. exact I.
Qed.
Lemma tree_table : table_ok demo_sb (tree_V false) tree_live (itable (tree_txn false)) ∧ unlocked (itable (tree_txn false)) ∧
  (2 ≤ nfree (itable (tree_txn false)))%nat.
Proof.
  rewrite tree_itable. split_and!; [|by repeat constructor|by vm_compute; lia].
  assert (entry_ok demo_sb (tree_V false) tree_live tree_free) as Hf by (split; [done|cbn; lia]).
  repeat apply Forall_cons_2; [|done..|by constructor]. split; [done|]. intros _. split_and!; [done|by left|intros _; exact tree_dino_1].
Qed.

Definition tree_path : list Z := [47; 97; 0].
Lemma tree_path_nul : 0 ∈ tree_path.
Proof. unfold tree_path. set_solver. Qed.
Lemma tree_starts k : starts 0 tree_live k tree_path 1.
Proof. unfold starts. change (default 0 (head tree_path) =? slash) with true. split; [done|by left]. Qed.
Lemma tree_walk : walk_path demo_sb (tree_V false) false 1 (elems tree_path) = Some 2.
Proof. vm_compute. reflexivity. Qed.

(** ** Witnesses *)

Lemma dirlookup_spec_witness :
  ∃ k', dirlookup 0 0 [97; 0] (tree_txn true) = Done (Some (1%nat, 32)) k'.
Proof.
  destruct (dirlookup_spec 0 7 demo_sb (tree_txn true) (kdisk (tree_boot true)) [] (tree_V true) 0 (tree_inode true) [97; 0])
    as (r & k' & Hr & _); [exact (tree_txn_ok true)|fs_consts; cbn; lia|by rewrite tree_itable|exact (tree_dir true)|by right; set_solver| |].
  - rewrite tree_itable. intros inum _. destruct (iget_slot_free [tree_inode true; tree_free; tree_free; tree_free] ROOTDEV inum 1 tree_free)
      as (i & ip & -> & _); [done|done|by eexists].
  - exists k'. rewrite Hr. f_equal. revert Hr. vm_compute. congruence.
Defined.

(** A new name, and one that is there. *)
Lemma tree_slot n : is_Some (iget_slot (itable (tree_txn true)) ROOTDEV n).
Proof.
  rewrite tree_itable. destruct (iget_slot_free [tree_inode true; tree_free; tree_free; tree_free] ROOTDEV n 1 tree_free)
    as (i & ip & -> & _); [done|done|by eexists].
Qed.
Lemma dirlink_spec_witness :
  (∃ r k', dirlink 0 0 [98; 0] 2 (tree_txn true) = Done r k') ∧ ∃ k', dirlink 0 0 [97; 0] 2 (tree_txn true) = Done (-1) k'.
Proof.
  split.
  - destruct (dirlink_spec 0 7 demo_sb (tree_txn true) (kdisk (tree_boot true)) [] (tree_V true) 0 (tree_inode true) [98; 0] 2)
      as (r & k' & Hr & _);
      [exact demo_layout|exact (tree_sb true)|exact (tree_txn_ok true)|cbn; lia|exact (tree_meta true)|by rewrite tree_itable|exact (tree_dir true)|
       exact demo_inum|by right; set_solver|lia|intros n _; apply tree_slot|]. exists r, k'. exact Hr.
  - destruct (dirlink_spec 0 7 demo_sb (tree_txn true) (kdisk (tree_boot true)) [] (tree_V true) 0 (tree_inode true) [97; 0] 2)
      as (r & k' & Hr & Hm);
      [exact demo_layout|exact (tree_sb true)|exact (tree_txn_ok true)|cbn; lia|exact (tree_meta true)|by rewrite tree_itable|exact (tree_dir true)|
       exact demo_inum|by right; set_solver|lia|intros n _; apply tree_slot|].
    assert (dir_map (tree_V true) (tree_inode true) (dname [97; 0]) = Some 2) as E by (vm_compute; reflexivity).
    rewrite E in Hm. destruct Hm as (-> & _). exists k'. exact Hr.
Defined.

Lemma dirlink_dirlookup_witness :
  ∃ f k', (r ← dirlink 0 0 [98; 0] 2; if r =? 0 then dirlookup 0 0 [98; 0] else mret None) (tree_txn true) = Done f k'.
Proof.
  destruct (dirlink_dirlookup 0 7 demo_sb (tree_txn true) (kdisk (tree_boot true)) [] (tree_V true) 0 (tree_inode true) [98; 0] 2)
    as (r & k' & Hr & _);
    [exact demo_layout|exact (tree_sb true)|exact (tree_txn_ok true)|cbn; lia|exact (tree_meta true)|by rewrite tree_itable|exact (tree_dir true)|
     exact demo_inum|by right; set_solver|lia|by vm_compute| |exists r, k'; exact Hr].
  exists 1%nat, tree_free. by rewrite tree_itable.
Defined.

(** [/a]: the walk from the root ends at inode 2. *)
Lemma namei_spec_witness :
  ∃ i k' x, namei 0 tree_path (tree_txn false) = Done (Some i) k' ∧ itable k' !! i = Some x ∧ i_inum x = 2.
Proof.
  destruct tree_table as (H1 & H2 & H3).
  destruct (namei_spec 0 7 demo_sb (tree_txn false) (kdisk (tree_boot false)) [] (tree_V false) tree_live tree_path 1)
    as (r & k' & Hr & _ & _ & _ & _ & Hw);
    [exact (tree_txn_ok false)|fs_consts; cbn; lia|exact (tree_sb false)|exact tree_tree|exact H1|exact H2|exact H3|exact (tree_starts _)|exact tree_path_nul|].
  rewrite tree_walk in Hw.
  destruct Hw as (i & x & -> & Hx & Hn & _). exists i, k', x. exact (conj Hr (conj Hx Hn)).
Defined.

Lemma nameiparent_spec_witness :
  ∃ r name' k', nameiparent 0 tree_path (replicate 14 0) (tree_txn false) = Done (r, name') k'.
Proof.
  destruct tree_table as (H1 & H2 & H3).
  destruct (nameiparent_spec 0 7 demo_sb (tree_txn false) (kdisk (tree_boot false)) [] (tree_V false) tree_live tree_path (replicate 14 0) 1)
    as (r & nm & k' & Hr & _);
    [exact (tree_txn_ok false)|fs_consts; cbn; lia|exact (tree_sb false)|exact tree_tree|exact H1|exact H2|exact H3|exact (tree_starts _)|exact tree_path_nul|done|].
  exists r, nm, k'. exact Hr.
Defined.
