(* ===== verification/Mkfs.v ===== *)
(** * mkfs ([mkfs/mkfs.c])

    The program that writes the file system image, as a function of the files it
    is given.  The image is the sequence of its sectors; [m_len] is how many the
    host file has.  Reading beyond its end makes [mkfs] give up ([die]); errors
    of the host on writing are not modelled. *)

From S2P Require Import Prelude Riscv Memory CString Kalloc Vm State Bytes Printf Sched Bio Log Fs.

Definition FSSIZE : Z := 2000.
Definition NINODES : Z := 200.
Definition nbitmap : Z := FSSIZE / (BSIZE * 8) + 1.
Definition ninodeblocks : Z := NINODES / IPB + 1.
Definition nlogblocks : Z := LOGSIZE.
Definition nmeta : Z := 2 + nlogblocks + ninodeblocks + nbitmap.
Definition ndata : Z := FSSIZE - nmeta.

(** Byte order: the bytes of [x], least significant first, as a number of the
    host. *)
Definition xshort (x : Z) : Z := le_get [u8 x; u8 (Z.shiftr x 8)].
Definition xint (x : Z) : Z := le_get [u8 x; u8 (Z.shiftr x 8); u8 (Z.shiftr x 16); u8 (Z.shiftr x 24)].

Definition mkfs_sb : superblock :=
  Superblock FSMAGIC (xint FSSIZE) (xint ndata) (xint NINODES) (xint nlogblocks) (xint 2) (xint (2 + nlogblocks)) (xint (2 + nlogblocks + ninodeblocks)).

Record mkst := Mk { m_img : gmap Z (list Z); m_len : Z; m_freeinode : Z; m_freeblock : Z }.
Definition zeroes : list Z := replicate (Z.to_nat BSIZE) 0.
Definition sector (s : mkst) (sec : Z) : list Z := default zeroes (m_img s !! sec).

Definition die {A} : M mkst A := λ s, Exited s.
Definition assert_ (b : bool) : M mkst unit := if b then mret tt else panic "assert".

Definition wsect (sec : Z) (buf : list Z) : M mkst unit :=
  modify (λ s, Mk (<[sec := buf]> (m_img s)) (Z.max (m_len s) (sec + 1)) (m_freeinode s) (m_freeblock s)).
Definition rsect (sec : Z) : M mkst (list Z) :=
  s ← get; if sec <? m_len s then mret (sector s sec) else die.

(** [struct dinode] is the part of [inode] that is on disk. *)
Definition blank (inum : Z) : inode := Inode ROOTDEV inum 0 (Sleeplock false 0) true 0 0 0 0 0 [].
Definition winode (inum : Z) (ip : inode) : M mkst unit :=
  let bn := IBLOCK inum mkfs_sb in
  buf ← rsect bn;
  wsect bn (write_dinode (dinode_off inum) ip buf).
Definition rinode (inum : Z) : M mkst inode :=
  buf ← rsect (IBLOCK inum mkfs_sb);
  mret (read_dinode (dinode_off inum) buf (blank inum)).

Definition ialloc (type : Z) : M mkst Z :=
  s ← get;
  let inum := m_freeinode s in
  put (Mk (m_img s) (m_len s) (u32 (inum + 1)) (m_freeblock s)) ;;
  let din := Inode ROOTDEV inum 0 (Sleeplock false 0) true (xshort type) 0 0 (xshort 1) (xint 0) (replicate (Z.to_nat (NDIRECT + 1)) 0) in
  winode inum din ;;
  mret inum.

Definition balloc (used : Z) : M mkst unit :=
  assert_ (used <? BSIZE * 8) ;;
  wsect (bmapstart mkfs_sb) (foldl (λ buf i, set_bit i buf) zeroes (seqZ 0 used)).

(** [freeblock++] *)
Definition next_block : M mkst Z :=
  s ← get;
  put (Mk (m_img s) (m_len s) (m_freeinode s) (u32 (m_freeblock s + 1))) ;;
  mret (m_freeblock s).
Definition addr_at (din : inode) (i : Z) : Z := default 0 (i_addrs din !! Z.to_nat i).
Definition set_addr_at (i a : Z) (din : inode) : inode := upd_i_addrs (λ l, <[Z.to_nat i := a]> l) din.

(** The block that holds file block [fbn], allocated if need be. *)
Definition iappend_block (din : inode) (fbn : Z) : M mkst (inode * Z) :=
  if fbn <? NDIRECT then
    din ← (if xint (addr_at din fbn) =? 0 then b ← next_block; mret (set_addr_at fbn (xint b) din) else mret din);
    mret (din, xint (addr_at din fbn))
  else
    din ← (if xint (addr_at din NDIRECT) =? 0 then b ← next_block; mret (set_addr_at NDIRECT (xint b) din) else mret din);
    indirect ← rsect (xint (addr_at din NDIRECT));
    let o := 4 * (fbn - NDIRECT) in
    indirect ← (if get32 o indirect =? 0 then
                  b ← next_block;
                  let indirect := put32 o (xint b) indirect in
                  wsect (xint (addr_at din NDIRECT)) indirect ;;
                  mret indirect
                else mret indirect);
    mret (din, xint (get32 o indirect)).
Definition iappend_body (st : list Z * Z * inode) : M mkst (list Z * Z * inode + Z * inode) :=
  let '(p, off, din) := st in
  let n := Z.of_nat (length p) in
  if 0 <? n then
    let fbn := off / BSIZE in
    assert_ (fbn <? MAXFILE) ;;
    '(din, x) ← iappend_block din fbn;
    let n1 := Z.min n ((fbn + 1) * BSIZE - off) in
    buf ← rsect x;
    wsect x (splice (Z.to_nat (off - fbn * BSIZE)) (take (Z.to_nat n1) p) buf) ;;
    mret (inl (drop (Z.to_nat n1) p, off + n1, din))
  else mret (inr (off, din)).
Definition iappend (inum : Z) (p : list Z) : M mkst unit :=
  din ← rinode inum;
  '(off, din) ← loopM (2 + length p / Z.to_nat BSIZE + 1) iappend_body (p, xint (i_size din), din);
  winode inum (upd_i_size (λ _, xint off) din).

(** [struct dirent], zeroed and filled by [strcpy] or [strncpy]. *)
Definition dirent_of (inum : Z) (name : list Z) : list Z :=
  le_put 2 (xshort inum) ++ take (Z.to_nat DIRSIZ) (name ++ replicate (Z.to_nat DIRSIZ) 0).

(** A file of the host: its name, and the pieces in which it is read. *)
Record hostfile := HostFile { hf_name : list Z; hf_reads : option (list (list Z)) }.
Definition user_prefix : list Z := [117; 115; 101; 114; 47].
Definition shortname (name : list Z) : list Z :=
  if decide (take 5 name = user_prefix) then drop 5 name else name.
Definition entry_name (name : list Z) : list Z :=
  match shortname name with c :: l => if c =? 95 then l else c :: l | [] => [] end.

Definition add_file (rootino : Z) (f : hostfile) : M mkst unit :=
  assert_ (bool_decide (47 ∉ shortname (hf_name f))) ;;
  match hf_reads f with
  | None => die
  | Some reads =>
      inum ← ialloc T_FILE;
      iappend rootino (dirent_of inum (entry_name (hf_name f))) ;;
      forM reads (iappend inum)
  end.

Definition superblock_bytes (sb : superblock) : list Z :=
  put_words 0 [magic sb; sb_size sb; nblocks sb; ninodes sb; nlog sb; logstart sb; inodestart sb; bmapstart sb] zeroes.

Definition mkfs (files : list hostfile) : M mkst unit :=
  modify (λ s, Mk (m_img s) (m_len s) 1 nmeta) ;;
  forM (seqZ 0 FSSIZE) (λ i, wsect i zeroes) ;;
  wsect 1 (superblock_bytes mkfs_sb) ;;
  rootino ← ialloc T_DIR;
  assert_ (rootino =? ROOTINO) ;;
  iappend rootino (dirent_of rootino [46]) ;;
  iappend rootino (dirent_of rootino [46; 46]) ;;
  forM files (add_file rootino) ;;
  din ← rinode rootino;
  let off := (xint (i_size din) / BSIZE + 1) * BSIZE in
  winode rootino (upd_i_size (λ _, xint off) din) ;;
  s ← get;
  balloc (m_freeblock s).
