(* ===== verification/MkfsSpec.v ===== *)
(** * The image that mkfs writes

    While [mkfs] runs it keeps the bitmap in its head: every block below
    [freeblock] is taken.  With that bitmap filled in, its blocks are a file
    system in the sense of [FsFile], and [iappend] writes files the way the
    kernel does. *)

From S2P Require Import Prelude Riscv Memory CString Kalloc Vm State Bytes Printf Sched Bio BioSpec Cache Log LogSpec Crash Txn Fs FsBlock FsFile FsInode FsWrite FsDir FsPath Mkfs.

Local Notation Sb := mkfs_sb.
Lemma mkfs_sb_eq : mkfs_sb = Superblock FSMAGIC 2000 1954 200 30 2 32 45.
Proof. vm_compute. reflexivity. Qed.
Lemma mkfs_layout : layout Sb.
Proof. split; vm_compute; repeat split; discriminate. Qed.
Lemma nmeta_eq : nmeta = 46 ∧ data_start Sb = 46.
Proof. split; vm_compute; reflexivity. Qed.
Lemma mkfs_inum_ok n : 0 ≤ n < 208 → inum_ok Sb n ∧ 32 ≤ IBLOCK n Sb < 45.
Proof.
  intros Hn. assert (IBLOCK n Sb = n / 16 + 32) as E.
  { unfold IBLOCK. rewrite mkfs_sb_eq. cbn [inodestart]. change IPB with 16. rewrite u32_id; [done|]. Z.div_mod_to_equations; lia. }
  unfold inum_ok. rewrite E, mkfs_sb_eq. cbn [logstart bmapstart]. change LOGSIZE with 30. Z.div_mod_to_equations; lia.
Qed.
Lemma xint_id x : 0 ≤ x < 2 ^ 32 → xint x = x.
Proof.
  intros Hx. unfold xint, u8. cbn [le_get]. rewrite !Z.shiftr_div_pow2 by lia. change (2 ^ 8) with 256. change (2 ^ 16) with 65536. change (2 ^ 24) with 16777216.
  Z.div_mod_to_equations; lia.
Qed.
Lemma xshort_id x : 0 ≤ x < 2 ^ 16 → xshort x = x.
Proof.
  intros Hx. unfold xshort, u8. cbn [le_get]. rewrite !Z.shiftr_div_pow2 by lia. change (2 ^ 8) with 256. Z.div_mod_to_equations; lia.
Qed.

(** ** The bitmap *)

Definition bits (n : Z) : list Z := foldl (λ buf i, set_bit i buf) zeroes (seqZ 0 n).
Lemma bits_succ n : 0 ≤ n → bits (n + 1) = set_bit n (bits n).
Proof. intros Hn. unfold bits. rewrite seqZ_app by lia. rewrite foldl_app. cbn. by rewrite Z.add_0_l. Qed.
Lemma bits_spec n : 0 ≤ n ≤ 8192 → length (bits n) = Z.to_nat BSIZE ∧ ∀ j, 0 ≤ j < 8192 → bit_of j (bits n) = (j <? n).
Proof.
  intros [Hn Hm]. revert Hm. pattern n. apply natlike_ind; [| |done].
  - intros _. change (bits 0) with zeroes. split; [done|]. intros j Hj. rewrite (proj2 (Z.ltb_ge j 0)) by lia.
    unfold bit_of. assert (get8 (j / 8) zeroes = 0) as ->; [|by rewrite Z.land_0_l].
    unfold get8, slice, zeroes. rewrite drop_replicate, take_replicate. set (k := Nat.min _ _). clearbody k.
    induction k as [|k IH]; [done|]. cbn [replicate le_get]. by rewrite IH.
  - clear n Hn. intros n Hn IH Hm. destruct IH as [Hl Hb]; [lia|]. replace (Z.succ n) with (n + 1) by lia. rewrite bits_succ by done.
    assert (0 ≤ n < 8 * Z.of_nat (length (bits n))) as Hr by (rewrite Hl; change (Z.of_nat (Z.to_nat BSIZE)) with 1024; lia).
    split; [by rewrite length_set_bit|]. intros j Hj. rewrite bit_of_set by (done || lia). rewrite Hb by done.
    destruct (Z.eqb_spec n j), (Z.ltb_spec j n), (Z.ltb_spec j (n + 1)); try done; lia.
Qed.

(** ** The image with its bitmap

    [W] is the image as it would be if the bitmap were written now. *)
Record img_ok (s : mkst) (W : Z → list Z) : Prop := {
  io_len : m_len s = FSSIZE;
  io_free : nmeta ≤ m_freeblock s ≤ FSSIZE;
  io_size : sized W;
  io_blocks : ∀ n, n ≠ bmapstart Sb → W n = sector s n;
  io_bits : W (bmapstart Sb) = bits (m_freeblock s);
  io_fresh : ∀ n, m_freeblock s ≤ n → sector s n = zeroes;
}.

Lemma mkfs_BBLOCK n : 0 ≤ n < sb_size Sb → BBLOCK n Sb = bmapstart Sb.
Proof.
  intros Hn. destruct (BBLOCK_val Sb n mkfs_layout Hn) as [-> _]. rewrite mkfs_sb_eq in *. cbn in *. change BPB with 8192. rewrite Z.div_small; lia.
Qed.
Lemma mkfs_numbers : sb_size Sb = 2000 ∧ bmapstart Sb = 45 ∧ nmeta = 46 ∧ data_start Sb = 46 ∧ FSSIZE = 2000.
Proof. vm_compute. done. Qed.
Lemma file_numbers : NDIRECT = 12 ∧ MAXFILE = 268 ∧ BSIZE = 1024.
Proof. done. Qed.
Ltac numbers := destruct mkfs_numbers as (N1 & N2 & N3 & N4 & N5), file_numbers as (N6 & N7 & N8).

Lemma img_used s W n : img_ok s W → 0 ≤ n < FSSIZE → used Sb W n = (n <? m_freeblock s).
Proof.
  intros H Hn. numbers. unfold used. rewrite mkfs_BBLOCK by lia. rewrite (io_bits _ _ H).
  pose proof (io_free _ _ H). change BPB with 8192. rewrite Z.mod_small by lia. apply bits_spec; lia.
Qed.
Lemma img_meta s W : img_ok s W → meta_used Sb W.
Proof.
  intros H n Hn Hs. numbers. rewrite (img_used s) by (done || lia). pose proof (io_free _ _ H). lia.
Qed.

Lemma rsect_wp s W sec (Q : list Z → mkst → Prop) :
  img_ok s W → sec < FSSIZE → sec ≠ bmapstart Sb → Q (W sec) s → wp (rsect sec) Q s.
Proof.
  intros H Hs Hb HQ. unfold rsect. wp_steps. rewrite (io_len _ _ H), (proj2 (Z.ltb_lt sec FSSIZE)) by done. wp_step. by rewrite <-(io_blocks _ _ H).
Qed.

(** A block below [freeblock] is written. *)
Lemma wsect_wp s W sec buf (Q : unit → mkst → Prop) :
  img_ok s W → 0 ≤ sec < m_freeblock s → sec ≠ bmapstart Sb → length buf = Z.to_nat BSIZE →
  (∀ s', img_ok s' (<[sec := buf]> W) → m_freeblock s' = m_freeblock s → m_freeinode s' = m_freeinode s → Q tt s') →
  wp (wsect sec buf) Q s.
Proof.
  intros H Hs Hb Hl HQ. numbers. pose proof (io_free _ _ H) as Hf. unfold wsect. wp_steps. apply HQ; [|done|done].
  split; cbn [m_len m_freeblock].
  - rewrite (io_len _ _ H). lia.
  - done.
  - apply sized_insert; [apply H|done].
  - intros n Hn. unfold sector. cbn [m_img]. destruct (decide (n = sec)) as [->|Hne]; [by rewrite fn_lookup_insert, lookup_insert_eq|].
    rewrite fn_lookup_insert_ne, lookup_insert_ne by done. by apply (io_blocks _ _ H).
  - rewrite fn_lookup_insert_ne by done. apply H.
  - intros n Hn. unfold sector. cbn [m_img]. rewrite lookup_insert_ne by lia. by apply (io_fresh _ _ H).
Qed.

(** [freeblock++] allocates a block as the kernel does. *)
Lemma next_block_wp s W (Q : Z → mkst → Prop) :
  img_ok s W → m_freeblock s < FSSIZE →
  (∀ s', let b := m_freeblock s in img_ok s' (alloc_V Sb W b) → is_data Sb b → used Sb W b = false →
     m_freeblock s' = b + 1 → m_freeinode s' = m_freeinode s → Q b s') →
  wp next_block Q s.
Proof.
  intros H Hlt HQ. numbers. pose proof (io_free _ _ H) as Hf. unfold next_block. wp_steps.
  rewrite u32_id by lia. apply HQ; [|unfold is_data; lia|rewrite (img_used s) by (done || lia); lia|done|done].
  assert (BBLOCK (m_freeblock s) Sb = bmapstart Sb) as HB by (apply mkfs_BBLOCK; lia).
  assert (W (bmapstart Sb) = bits (m_freeblock s)) as Hb by apply H.
  split; cbn [m_len m_freeblock].
  - apply H.
  - lia.
  - unfold alloc_V. apply sized_insert; [|done]. rewrite HB, Hb. apply sized_insert; [apply H|]. destruct (bits_spec (m_freeblock s)) as [Hl _]; [lia|]. rewrite length_set_bit; [exact Hl|]. rewrite Hl. change BPB with 8192. rewrite Z.mod_small by lia. change (Z.of_nat (Z.to_nat BSIZE)) with 1024. lia.
  - intros n Hn. destruct (decide (n = m_freeblock s)) as [->|Hne].
    + rewrite alloc_V_new. symmetry. apply (io_fresh _ _ H). lia.
    + rewrite alloc_V_data by (done || by rewrite HB). by apply (io_blocks _ _ H).
  - unfold alloc_V. rewrite fn_lookup_insert_ne by lia. rewrite HB, fn_lookup_insert, Hb, bits_succ by lia. change BPB with 8192.
    by rewrite Z.mod_small by lia.
  - intros n Hn. apply (io_fresh _ _ H). lia.
Qed.

(** ** Files without holes

    [packed W ip q]: exactly the first [q] blocks of the file are allocated,
    which with the indirect block takes [need q] blocks. *)
Record packed (W : Z → list Z) (ip : inode) (q : Z) : Prop := {
  pk_slots : ∀ bn, 0 ≤ bn < MAXFILE → ∃ b, slots W ip !! Z.to_nat bn = Some b ∧ (b = 0 ↔ q ≤ bn);
  pk_ind : ind_of ip = 0 ↔ q ≤ NDIRECT;
}.
Definition need (q : Z) : Z := q + (if NDIRECT <? q then 1 else 0).

Lemma packed_new W ip q W' ip' x :
  packed W ip q → 0 ≤ q < MAXFILE → x ≠ 0 → slots W' ip' = <[Z.to_nat q := x]> (slots W ip) → (ind_of ip' = 0 ↔ q + 1 ≤ NDIRECT) → packed W' ip' (q + 1).
Proof.
  intros [Hs Hi] Hq Hx E Hi'. split; [|done]. intros bn Hbn. rewrite E. destruct (Hs bn Hbn) as (b & Hb & Hb0). destruct (decide (bn = q)) as [->|Hne].
  - exists x. rewrite list_lookup_insert_eq by (by eapply lookup_lt_Some). split; [done|]. lia.
  - exists b. rewrite list_lookup_insert_ne by lia. split; [done|]. rewrite Hb0. lia.
Qed.

Lemma file_block W ip b : file_ok Sb W ip → b ∈ ind_of ip :: slots W ip → xint b = b ∧ 0 ≤ b ∧ (b ≠ 0 → 46 ≤ b < 2000 ∧ used Sb W b = true).
Proof.
  intros Hf Hb. destruct mkfs_numbers as (E1 & _ & _ & E4 & _). destruct (decide (b = 0)) as [->|Hb0]; [done|].
  destruct (fo_data _ _ _ Hf b Hb Hb0) as [Hd Hu]. unfold is_data in Hd. rewrite E1, E4 in Hd. split_and!; [apply xint_id; lia|lia|done].
Qed.
Lemma img_below s W b : img_ok s W → 0 ≤ b < 2000 → used Sb W b = true → 0 ≤ b < m_freeblock s.
Proof. intros H Hb Hu. rewrite (img_used s) in Hu by done. lia. Qed.

(** Through an indirect block that is there. *)
Lemma entry_wp s W ip bn b q (Q : inode * Z → mkst → Prop) :
  img_ok s W → file_ok Sb W ip → slots W ip !! Z.to_nat bn = Some b → (b = 0 ↔ q ≤ bn) → NDIRECT ≤ bn < MAXFILE → ind_of ip ≠ 0 →
  (q = bn → m_freeblock s < FSSIZE) → (q = bn ∨ q = bn + 1) →
  (∀ s' W' x, img_ok s' W' → bmap_ret Sb W ip bn W' ip x → x ≠ 0 →
     m_freeblock s' = m_freeblock s + (bn + 1 - q) → m_freeinode s' = m_freeinode s → Q (ip, x) s') →
  wp (indirect ← rsect (xint (addr_at ip NDIRECT));
      let o := 4 * (bn - NDIRECT) in
      indirect ← (if get32 o indirect =? 0 then
                    b ← next_block;
                    let indirect := put32 o (xint b) indirect in
                    wsect (xint (addr_at ip NDIRECT)) indirect ;;
                    mret indirect
                  else mret indirect);
      mret (ip, xint (get32 o indirect))) Q s.
Proof.
  intros H Hf Hb Hb0 Hbn Hi Hsp Hqq HQ. numbers.
  destruct (file_block _ _ (ind_of ip) Hf) as (Hx & _ & Hir); [left|]. destruct (Hir Hi) as [Hir' Hiu].
  change (addr_at ip NDIRECT) with (ind_of ip). rewrite Hx. set (a := ind_of ip) in *.
  wp_step. eapply rsect_wp; [exact H|lia|lia|]. cbv zeta.
  pose proof (slots_indirect Sb W ip bn Hf Hbn) as Hs. fold a in Hs. rewrite decide_False in Hs by done. set (o := 4 * (bn - NDIRECT)) in *.
  rewrite Hs in Hb. injection Hb as Hb.
  destruct (Z.eqb_spec (get32 o (W a)) 0) as [E0|E0].
  - wp_steps. apply (next_block_wp s W); [done|lia|]. intros s1 r H1 Hd Hu Hf1 Hn1. wp_steps.
    assert (bmap_ret Sb W ip bn (ind_V Sb W a bn r) ip r) as Hret.
    { apply bmap_new_indirect; [exact mkfs_layout|apply H|by eapply img_meta|exact Hf|exact Hbn|exact Hi|by rewrite Hs, E0|exact Hd|exact Hu]. }
    assert (xint r = r) as -> by (apply xint_id; unfold is_data in Hd; lia).
    assert (alloc_V Sb W r a = W a) as Ha by (apply alloc_V_data; [intros ->; congruence|rewrite mkfs_BBLOCK by (unfold is_data in *; lia); lia]).
    assert (length (W a) = 1024%nat) as Hl by (apply (io_size _ _ H)). assert (0 ≤ o ∧ o + 4 ≤ Z.of_nat (length (W a))) as [Ho1 Ho2] by (unfold o; lia).
    eapply (wsect_wp s1 _ a); [exact H1| |lia|rewrite length_put32; [done|lia|lia]|].
    { rewrite Hf1. pose proof (img_below s W a H ltac:(lia) Hiu). lia. }
    intros s2 H2 Hf2 Hn2. wp_steps. rewrite get32_put32 by (unfold is_data in Hd; lia). assert (xint r = r) as -> by (apply xint_id; unfold is_data in Hd; lia).
    assert (q = bn) as -> by lia. apply (HQ s2 (ind_V Sb W a bn r) r); [by unfold ind_V; rewrite Ha|done|unfold is_data in Hd; lia|lia|congruence].
  - wp_steps. rewrite Hb. destruct (file_block _ _ b Hf) as (-> & _); [right; by eapply list_elem_of_lookup_2; rewrite Hs, Hb|].
    apply (HQ s W b); [done|apply bmap_found; [done|by eapply img_meta|by rewrite Hs, Hb|congruence]|congruence|lia|done].
Qed.


Lemma packed_next W ip q bn W' ip' x :
  packed W ip q → (q = bn ∨ q = bn + 1) → 0 ≤ bn < MAXFILE → bmap_ret Sb W ip bn W' ip' x → x ≠ 0 → (ind_of ip' = 0 ↔ bn + 1 ≤ NDIRECT) → packed W' ip' (bn + 1).
Proof.
  intros Hp Hqq Hbn [_ [[? _]|(_ & E & _)]] Hx Hi; [done|]. destruct Hqq as [->| ->]; [by eapply packed_new|]. destruct Hp as [Hs _]. split; [|done]. rewrite E.
  intros c Hc. destruct (Hs c Hc) as (d & Hd & Hd0). destruct (decide (c = bn)) as [->|Hne]; [|exists d; by rewrite list_lookup_insert_ne by lia].
  exists x. rewrite list_lookup_insert_eq by (by eapply lookup_lt_Some). split; [done|]. lia.
Qed.
Lemma need_step q : need (q + 1) = need q + (if decide (q = NDIRECT) then 2 else 1).
Proof. unfold need. change NDIRECT with 12. case_decide; destruct (Z.ltb_spec 12 q), (Z.ltb_spec 12 (q + 1)); lia. Qed.

Section block.
Context (s : mkst) (W : Z → list Z) (ip : inode) (bn q : Z) (Q : inode * Z → mkst → Prop).
Context (H : img_ok s W) (Hf : file_ok Sb W ip) (Hp : packed W ip q) (Hbn : 0 ≤ bn < MAXFILE) (Hqq : q = bn ∨ q = bn + 1).
Context (Hsp : m_freeblock s + (need (bn + 1) - need q) ≤ FSSIZE).
Context (HQ : ∀ s' W' ip' x, img_ok s' W' → bmap_ret Sb W ip bn W' ip' x → x ≠ 0 → packed W' ip' (bn + 1) →
     m_freeblock s' = m_freeblock s + (need (bn + 1) - need q) → m_freeinode s' = m_freeinode s → Q (ip', x) s').

Lemma direct_wp : bn < NDIRECT → wp (iappend_block ip bn) Q s.
Proof using All.
  intros Hd. numbers. unfold iappend_block. rewrite (proj2 (Z.ltb_lt bn NDIRECT)) by done. destruct (pk_slots _ _ _ Hp bn Hbn) as (b & Hb' & Hb0).
  pose proof Hb' as Hb. rewrite (slots_direct Sb) in Hb by (done || lia).
  assert (addr_at ip bn = b) as Ha by (unfold addr_at; by rewrite Hb). rewrite Ha.
  destruct (file_block _ _ b Hf) as (Hx & _); [right; by eapply list_elem_of_lookup_2|]. rewrite Hx. destruct (Z.eqb_spec b 0) as [->|Hne].
  - assert (q = bn) as -> by lia. rewrite need_step in *. rewrite decide_False in * by lia.
    wp_steps. apply (next_block_wp s W); [done|lia|]. intros s1 r H1 Hdr Hu Hf1 Hn1. wp_steps. unfold is_data in Hdr.
    destruct (add_direct_ok Sb W ip bn r) as (_ & _ & Hi); [exact mkfs_layout|apply H|done|lia|done|done|done|]. cbv zeta in Hi.
    pose proof (bmap_new_direct Sb W ip bn r mkfs_layout (io_size _ _ H) (img_meta _ _ H) Hf ltac:(lia) Hb' Hdr Hu) as Hret.
    rewrite (xint_id r) by lia. assert (addr_at (set_addr_at bn r ip) bn = r) as ->.
    { unfold addr_at, set_addr_at. cbn [i_addrs upd_i_addrs]. rewrite list_lookup_insert_eq by (by eapply lookup_lt_Some). done. }
    rewrite (xint_id r) by lia. assert (r ≠ 0) as Hr0 by lia.
    apply (HQ s1 _ (set_addr_at bn r ip) r H1 Hret Hr0); [|lia|done]. eapply packed_next; [exact Hp|by left|done|exact Hret|done|].
    unfold set_addr_at. rewrite Hi, (pk_ind _ _ _ Hp). lia.
  - wp_steps. rewrite Ha, Hx. assert (bmap_ret Sb W ip bn W ip b) as Hret by (apply bmap_found; [done|by eapply img_meta|done|done]).
    assert (q = bn + 1) as -> by lia. apply (HQ s W ip b H Hret Hne); [done|lia|done].
Qed.
Lemma indirect_wp : NDIRECT ≤ bn → wp (iappend_block ip bn) Q s.
Proof using All.
  intros Hd. numbers. unfold iappend_block. rewrite (proj2 (Z.ltb_ge bn NDIRECT)) by done. destruct (pk_slots _ _ _ Hp bn Hbn) as (b & Hb & Hb0).
  destruct (file_block _ _ (ind_of ip) Hf) as (Hx & _); [left|]. change (addr_at ip NDIRECT) with (ind_of ip). rewrite Hx.
  pose proof (pk_ind _ _ _ Hp) as Hpi. destruct (Z.eqb_spec (ind_of ip) 0) as [E0|E0].
  - assert (q = bn ∧ bn = NDIRECT) as [-> ->] by lia. rewrite need_step in *. rewrite decide_True in * by done.
    wp_steps. apply (next_block_wp s W); [done|lia|]. intros s1 r H1 Hdr Hu Hf1 Hn1. wp_step. unfold is_data in Hdr. rewrite (xint_id r) by lia.
    destruct (add_ind_ok Sb W ip r mkfs_layout (io_size _ _ H) Hf E0 Hdr Hu) as (Hok & Hsl & Hi). fold (set_addr_at NDIRECT r ip) in Hok, Hsl, Hi.
    pose proof (grew_ind Sb W ip r mkfs_layout (io_size _ _ H) (img_meta _ _ H) Hf E0 Hdr Hu) as Hg. assert (b = 0) as -> by lia.
    eapply (entry_wp s1 _ (set_addr_at NDIRECT r ip) NDIRECT 0 NDIRECT); [exact H1|exact Hok|by rewrite Hsl|done|done|lia|lia|by left|].
    intros s2 W2 x H2 Hret Hx0 Hf2 Hn2.
    assert (bmap_ret Sb W ip NDIRECT W2 (set_addr_at NDIRECT r ip) x) as Hret' by (eapply bmap_after_ind; [exact Hg|exact Hsl|exact Hb|exact Hret]).
    apply (HQ s2 W2 _ x H2 Hret' Hx0); [|lia|congruence]. eapply packed_next; [exact Hp|by left|done|exact Hret'|done|]. rewrite Hi. lia.
  - wp_step. eapply (entry_wp s W ip bn b q); [done|done|done|done|lia|done| |done|].
    { intros ->. rewrite need_step in Hsp. rewrite decide_False in Hsp by lia. lia. }
    intros s2 W2 x H2 Hret Hx0 Hf2 Hn2.
    apply (HQ s2 W2 ip x H2 Hret Hx0); [|destruct Hqq as [->| ->]; [rewrite need_step, decide_False by lia|]; lia|done].
    eapply packed_next; [exact Hp|exact Hqq|done|exact Hret|done|]. lia.
Qed.
Lemma iappend_block_wp : wp (iappend_block ip bn) Q s.
Proof using All. destruct (decide (bn < NDIRECT)); [by apply direct_wp|apply indirect_wp; lia]. Qed.
End block.

(** ** iappend *)

Definition nblk (size : Z) : Z := (size + (BSIZE - 1)) / BSIZE.
Lemma need_mono a b : a ≤ b → need a ≤ need b.
Proof. intros Hab. unfold need. destruct (Z.ltb_spec NDIRECT a), (Z.ltb_spec NDIRECT b); lia. Qed.
Lemma nblk_mono a b : a ≤ b → nblk a ≤ nblk b.
Proof. intros Hab. unfold nblk. change BSIZE with 1024. Z.div_mod_to_equations; lia. Qed.
Lemma nblk_at off : nblk off = off / BSIZE ∨ nblk off = off / BSIZE + 1.
Proof. unfold nblk. change BSIZE with 1024. Z.div_mod_to_equations; lia. Qed.
Lemma nblk_in off n : off / BSIZE * BSIZE < n → n ≤ (off / BSIZE + 1) * BSIZE → nblk n = off / BSIZE + 1.
Proof. unfold nblk. change BSIZE with 1024. intros. Z.div_mod_to_equations; lia. Qed.

Lemma packed_ext W ip q W' : packed W ip q → slots W' ip = slots W ip → packed W' ip q.
Proof. intros [Hs Hi] E. split; [by rewrite E|done]. Qed.
Lemma slots_splice W ip bn b o l : file_ok Sb W ip → slots W ip !! bn = Some b → b ≠ 0 → slots (splice_V W b o l) ip = slots W ip.
Proof.
  intros Hf Hb Hb0. unfold slots. case_decide; [done|]. unfold splice_V. rewrite fn_lookup_insert_ne; [done|]. by eapply slot_ne_ind.
Qed.

(** One round: a part of one block. *)
Lemma iappend_body_wp s W ip p off (Q : list Z * Z * inode + Z * inode → mkst → Prop) :
  img_ok s W → file_ok Sb W ip → packed W ip (nblk off) → 0 ≤ off → p ≠ [] → off + Z.of_nat (length p) ≤ MAXFILE * BSIZE →
  m_freeblock s + (need (off / BSIZE + 1) - need (nblk off)) ≤ FSSIZE →
  let n1 := Z.min (Z.of_nat (length p)) ((off / BSIZE + 1) * BSIZE - off) in
  (∀ s' W' ip', img_ok s' W' → wrote Sb W ip off (take (Z.to_nat n1) p) W' ip' → packed W' ip' (off / BSIZE + 1) →
     m_freeblock s' = m_freeblock s + (need (off / BSIZE + 1) - need (nblk off)) → m_freeinode s' = m_freeinode s →
     Q (inl (drop (Z.to_nat n1) p, off + n1, ip')) s') →
  wp (iappend_body (p, off, ip)) Q s.
Proof.
  intros H Hf Hp Ho Hne Hmax Hsp n1 HQ. numbers. unfold iappend_body. assert (0 < Z.of_nat (length p)) as Hlen by (destruct p; [done|cbn; lia]).
  rewrite (proj2 (Z.ltb_lt 0 (Z.of_nat (length p)))) by done. set (bn := off / BSIZE) in *.
  assert (0 ≤ bn < MAXFILE) as Hbn by (unfold bn; rewrite N8; Z.div_mod_to_equations; lia).
  rewrite (proj2 (Z.ltb_lt bn MAXFILE)) by lia. unfold assert_. wp_steps.
  eapply (iappend_block_wp s W ip bn (nblk off)); [done|done|done|done|apply nblk_at|done|].
  intros s1 W1 ip1 x H1 Hret Hx0 Hp1 Hf1 Hn1. pose proof (bmap_wrote Sb _ _ _ _ _ _ off mkfs_layout Hf Hbn Hret) as HW1.
  destruct Hret as [Hg [[? _]|(_ & Hs1 & _)]]; [done|]. pose proof (g_ok _ _ _ _ _ Hg) as Hok.
  assert (slots W1 ip1 !! Z.to_nat bn = Some x) as Hx.
  { rewrite Hs1. apply list_lookup_insert_eq. rewrite (length_slots _ _ _ Hf). lia. }
  destruct (file_block _ _ x Hok) as (_ & _ & Hxr); [right; by eapply list_elem_of_lookup_2|]. destruct (Hxr Hx0) as [Hxr' Hxu].
  assert (off - bn * BSIZE = off mod BSIZE) as -> by (unfold bn; rewrite N8; Z.div_mod_to_equations; lia).
  assert (0 < n1 ≤ Z.of_nat (length p) ∧ off mod BSIZE + n1 ≤ BSIZE) as [Hn Hfit] by (unfold n1, bn; rewrite N8 in *; Z.div_mod_to_equations; lia).
  pose proof (Z.mod_pos_bound off BSIZE ltac:(lia)) as Hmod. assert (length (W1 x) = Z.to_nat BSIZE) as Hl by apply (io_size _ _ H1).
  wp_steps. eapply (rsect_wp s1 W1); [done|lia|lia|]. cbv zeta. fold n1. wp_step.
  eapply (wsect_wp s1 W1 x); [done|by apply (img_below s1 W1); [|lia|]|lia|rewrite length_splice; [done|rewrite length_take, Hl; lia]|].
  intros s2 H2 Hf2 Hn2. wp_step. apply (HQ s2 (splice_V W1 x (off mod BSIZE) (take (Z.to_nat n1) p)) ip1); [done| | |congruence|congruence].
  - apply (wrote_trans Sb W ip off [] W1 ip1); [exact mkfs_layout|done|done|]. rewrite Z.add_0_r.
    apply splice_wrote; [exact mkfs_layout|apply H1|done|by eapply img_meta|done|done|done|]. rewrite length_take. lia.
  - eapply packed_ext; [exact Hp1|]. by eapply slots_splice.
Qed.

Lemma wrote_none W ip off : file_ok Sb W ip → meta_used Sb W → wrote Sb W ip off [] W ip.
Proof.
  intros Hf Hm. split; try done; [by destruct ip| |intros o Ho; cbn in Ho; lia|intros b Hb _; by left].
  intros o Ho. rewrite decide_False by (cbn; lia). done.
Qed.

(** What is left of [p], in blocks. *)
Definition left_to_do (st : list Z * Z * inode) : nat :=
  let '(p, off, _) := st in match p with [] => 0 | _ => Z.to_nat (nblk (off + Z.of_nat (length p)) - off / BSIZE) end.

Lemma iappend_loop_wp s W ip p off fuel (Q : Z * inode → mkst → Prop) :
  img_ok s W → file_ok Sb W ip → packed W ip (nblk off) → 0 ≤ off → let n := off + Z.of_nat (length p) in n ≤ MAXFILE * BSIZE →
  m_freeblock s + (need (nblk n) - need (nblk off)) ≤ FSSIZE → (left_to_do (p, off, ip) < fuel)%nat →
  (∀ s' W' ip', img_ok s' W' → wrote Sb W ip off p W' ip' → packed W' ip' (nblk n) →
     m_freeblock s' = m_freeblock s + (need (nblk n) - need (nblk off)) → m_freeinode s' = m_freeinode s → Q (n, ip') s') →
  wp (loopM fuel iappend_body (p, off, ip)) Q s.
Proof.
  intros H Hf Hp Ho n Hmax Hsp Hfuel HQ. numbers.
  apply (wp_loop _ (λ st s1, let '(r, o, ip1) := st in ∃ W1 l, p = l ++ r ∧ o = off + Z.of_nat (length l) ∧ img_ok s1 W1 ∧ wrote Sb W ip off l W1 ip1 ∧
    packed W1 ip1 (nblk o) ∧ m_freeblock s1 = m_freeblock s + (need (nblk o) - need (nblk off)) ∧ m_freeinode s1 = m_freeinode s) left_to_do); [done| |].
  { exists W, []. split_and!; [done|cbn; lia|done|apply wrote_none; [done|by eapply img_meta]|done|lia|done]. }
  intros [[r o] ip1] s1 (W1 & l & -> & -> & H1 & HW1 & Hp1 & Hf1 & Hn1).
  assert (n = off + Z.of_nat (length l) + Z.of_nat (length r)) as En by (unfold n; rewrite length_app; lia). clearbody n.
  destruct (decide (r = [])) as [->|Hr].
  { unfold iappend_body. change (0 <? Z.of_nat (length [])) with false. cbv zeta iota. wp_step. rewrite app_nil_r in *. cbn [length] in *.
    replace (off + Z.of_nat (length l)) with n in * by lia. by eapply HQ. }
  set (o := off + Z.of_nat (length l)) in *. assert (0 < Z.of_nat (length r)) as Hr0 by (destruct r; [done|cbn; lia]).
  assert (o / BSIZE + 1 ≤ nblk n) as Hle by (unfold nblk; rewrite N8; Z.div_mod_to_equations; lia).
  eapply (iappend_body_wp s1 W1 ip1 r o); [done|apply HW1|done|lia|done|lia|pose proof (need_mono _ _ Hle); lia|].
  set (n1 := Z.min _ _). intros s2 W2 ip2 H2 HW2 Hp2 Hf2 Hn2.
  assert (0 < n1 ≤ Z.of_nat (length r) ∧ (n1 = Z.of_nat (length r) ∨ o + n1 = (o / BSIZE + 1) * BSIZE)) as [Hn1' Hend] by (unfold n1; rewrite N8; Z.div_mod_to_equations; lia).
  assert (nblk (o + n1) = o / BSIZE + 1) as Eo by (apply nblk_in; unfold n1; rewrite N8 in *; Z.div_mod_to_equations; lia).
  split.
  - exists W2, (l ++ take (Z.to_nat n1) r). rewrite <-app_assoc, take_drop, length_app, length_take.
    replace (off + Z.of_nat (length l + Z.to_nat n1 `min` length r)) with (o + n1) by lia. rewrite Eo.
    split_and!; [done|done|done|by eapply wrote_trans; [exact mkfs_layout|done|exact HW1|exact HW2]|done|lia|congruence].
  - unfold left_to_do. destruct r as [|c r']; [done|]. set (rr := c :: r') in *. replace (o + Z.of_nat (length rr)) with n by lia.
    destruct (drop (Z.to_nat n1) rr) as [|c' r''] eqn:Ed; [lia|]. apply (f_equal length) in Ed. rewrite length_drop in Ed. cbn [length] in Ed.
    cbn [length]. replace (o + n1 + Z.of_nat (S (length r''))) with n by lia. destruct Hend as [?|He]; [lia|]. rewrite He, Z.div_mul by lia. lia.
Qed.

Lemma inode_V_slots W ip : file_ok Sb W ip → inum_ok Sb (i_inum ip) → slots (inode_V Sb W ip) ip = slots W ip.
Proof.
  intros Hf Hin. unfold slots. case_decide as E; [done|]. rewrite inode_V_data; [done|exact mkfs_layout|done|].
  apply (fo_data _ _ _ Hf); [left|done].
Qed.
Lemma winode_wp s W ip (Q : unit → mkst → Prop) :
  img_ok s W → 0 ≤ i_inum ip < 208 → length (i_addrs ip) = Z.to_nat (NDIRECT + 1) →
  (∀ s', img_ok s' (inode_V Sb W ip) → m_freeblock s' = m_freeblock s → m_freeinode s' = m_freeinode s → Q tt s') →
  wp (winode (i_inum ip) ip) Q s.
Proof.
  intros H Hn Hl HQ. numbers. destruct (mkfs_inum_ok _ Hn) as [Hin Hb]. pose proof (io_free _ _ H). unfold winode. cbv zeta. wp_steps.
  eapply rsect_wp; [exact H|lia|lia|]. destruct (dinode_off_bound (i_inum ip)) as [Ho1 Ho2]; [lia|].
  eapply (wsect_wp s W); [exact H|lia|lia| |exact HQ]. rewrite length_write_dinode; [apply H|done| |done]. rewrite (io_size _ _ H). fs_consts. lia.
Qed.
Lemma rinode_wp s W n (Q : inode → mkst → Prop) : img_ok s W → 0 ≤ n < 208 → Q (dino Sb W n) s → wp (rinode n) Q s.
Proof.
  intros H Hn HQ. numbers. destruct (mkfs_inum_ok _ Hn) as [Hin Hb]. unfold rinode. wp_step. eapply rsect_wp; [exact H|lia|lia|]. by wp_step.
Qed.

(** [iappend] writes at the end of the file, and then its size. *)
Lemma iappend_wp s W inum p (Q : unit → mkst → Prop) :
  img_ok s W → 0 ≤ inum < 208 → let ip := dino Sb W inum in let n := i_size ip + Z.of_nat (length p) in
  file_ok Sb W ip → 0 ≤ i_size ip → packed W ip (nblk (i_size ip)) → n ≤ MAXFILE * BSIZE →
  m_freeblock s + (need (nblk n) - need (nblk (i_size ip))) ≤ FSSIZE →
  (∀ s' W2 ip2, let ip' := upd_i_size (λ _, n) ip2 in img_ok s' (inode_V Sb W2 ip') → sized W2 → wrote Sb W ip (i_size ip) p W2 ip2 →
     packed (inode_V Sb W2 ip') ip' (nblk n) →
     m_freeblock s' = m_freeblock s + (need (nblk n) - need (nblk (i_size ip))) → m_freeinode s' = m_freeinode s → Q tt s') →
  wp (iappend inum p) Q s.
Proof.
  intros H Hn ip n Hf Hsz Hp Hmax Hsp HQ. numbers. unfold iappend. wp_step. eapply rinode_wp; [exact H|done|]. fold ip. wp_step.
  rewrite (xint_id (i_size ip)) by lia. eapply (iappend_loop_wp s W ip p (i_size ip)); [done|done|done|done|done|done| |].
  { unfold left_to_do. destruct p as [|c p']; [lia|]. set (p := c :: p') in *. unfold nblk. change (Z.to_nat BSIZE) with 1024%nat. rewrite N8.
    assert (Z.of_nat (length p / 1024) = Z.of_nat (length p) / 1024) as E by apply Nat2Z.inj_div. Z.div_mod_to_equations. lia. }
  fold n. intros s1 W1 ip1 H1 HW1 Hp1 Hf1 Hn1. rewrite (xint_id n) by lia. set (ip' := upd_i_size (λ _, n) ip1).
  assert (i_inum ip' = inum) as Ei by (unfold ip'; rewrite (w_same _ _ _ _ _ _ _ HW1); done). rewrite <-Ei.
  assert (file_ok Sb W1 ip') as Hok by (destruct (w_ok _ _ _ _ _ _ _ HW1); by split).
  eapply (winode_wp s1 W1 ip'); [done|by rewrite Ei|apply Hok|]. intros s2 H2 Hf2 Hn2.
  apply (HQ s2 W1 ip1); [done|apply H1|done| |congruence|congruence].
  apply (packed_ext W1); [by destruct Hp1; split|]. apply inode_V_slots; [done|]. change (inum_ok Sb (i_inum ip')). rewrite Ei. by apply mkfs_inum_ok.
Qed.
