(* ===== verification/MkfsTree.v ===== *)
(** * The files of the image that mkfs writes

    The image holds a list of files: inode [1 + i] is the [i]th one.  [ialloc]
    adds an empty file, [iappend] appends to one and leaves the others alone. *)

From S2P Require Import Prelude Riscv Memory CString Kalloc Vm State Bytes Printf Sched Bio BioSpec Cache Log LogSpec Crash Txn Fs FsBlock FsFile FsInode FsWrite FsDir FsPath Mkfs MkfsSpec.

Local Notation Sb := mkfs_sb.
Local Notation node := (dino mkfs_sb).
Definition blocks (W : Z → list Z) (n : Z) : list Z := ind_of (node W n) :: slots W (node W n).

(** Inode [n] is a file of type [ty] that holds [c], and zeros from there on. *)
Record file_is (W : Z → list Z) (n ty : Z) (c : list Z) : Prop := {
  fi_ok : file_ok Sb W (node W n);
  fi_type : i_type (node W n) = ty;
  fi_dev : i_major (node W n) = 0 ∧ i_minor (node W n) = 0;
  fi_link : i_nlink (node W n) = 1;
  fi_size : i_size (node W n) = Z.of_nat (length c);
  fi_max : Z.of_nat (length c) ≤ MAXFILE * BSIZE;
  fi_pack : packed W (node W n) (nblk (Z.of_nat (length c)));
  fi_byte : ∀ o, 0 ≤ o < MAXFILE * BSIZE → fbyte W (node W n) o = default 0 (c !! Z.to_nat o);
}.

Lemma packed_no_holes W ip n : packed W ip (nblk n) → 0 ≤ n ≤ MAXFILE * BSIZE → no_holes W ip 0 n.
Proof.
  intros [Hs _] Hn o Ho. numbers. assert (0 ≤ o / BSIZE < MAXFILE ∧ o / BSIZE < nblk n) as [Hb Hlt].
  { unfold nblk. rewrite N8 in *. Z.div_mod_to_equations; lia. }
  destruct (Hs _ Hb) as (b & Hb' & Hb0). exists b. split; [done|]. lia.
Qed.
Lemma file_whole W n ty c : file_is W n ty c → whole W (node W n).
Proof.
  intros Hf. split; rewrite (fi_size _ _ _ _ Hf).
  - pose proof (fi_max _ _ _ _ Hf). lia.
  - apply packed_no_holes; [apply Hf|]. pose proof (fi_max _ _ _ _ Hf). lia.
Qed.
Lemma file_bytes W n ty c : file_is W n ty c → fbytes W (node W n) 0 (i_size (node W n)) = c.
Proof.
  intros Hf. rewrite (fi_size _ _ _ _ Hf). apply list_eq. intros j. pose proof (fi_max _ _ _ _ Hf). destruct (decide (j < length c)%nat) as [Hj|Hj].
  - rewrite <-(Nat2Z.id j) at 1. rewrite fbytes_lookup by lia. rewrite (fi_byte _ _ _ _ Hf) by lia.
    rewrite Z.add_0_l, Nat2Z.id. destruct (lookup_lt_is_Some_2 c j Hj) as [x ->]. done.
  - rewrite !lookup_ge_None_2; [done|lia|]. rewrite length_fbytes by lia. lia.
Qed.
Lemma file_dinode W n ty c : file_is W n ty c → 0 ≤ ty < 2 ^ 15 → dinode_ok (node W n).
Proof.
  intros Hf Ht. destruct (fi_dev _ _ _ _ Hf) as [E1 E2]. numbers. pose proof (fi_max _ _ _ _ Hf).
  split; [rewrite (fi_type _ _ _ _ Hf); lia|rewrite E1; lia|rewrite E2; lia|rewrite (fi_link _ _ _ _ Hf); lia|rewrite (fi_size _ _ _ _ Hf); lia|apply Hf|].
  eapply addrs_in_range; [exact mkfs_layout|apply Hf].
Qed.

(** A file whose inode and blocks stay. *)
Lemma file_is_ext W W' n ty c :
  file_is W n ty c → node W' n = node W n → (∀ b, b ∈ blocks W n → b ≠ 0 → W' b = W b) →
  (∀ b, is_data Sb b → used Sb W b = true → used Sb W' b = true) → file_is W' n ty c ∧ blocks W' n = blocks W n.
Proof.
  intros [[H1 H2 H3 H4] Ht Hd Hl Hs Hm Hp Hb] E HW HU. unfold blocks in *. set (ip := node W n) in *.
  assert (slots W' ip = slots W ip) as Es.
  { unfold slots. case_decide; [done|]. do 2 f_equal. apply HW; [left|done]. }
  rewrite E, Es. split; [|done]. split; rewrite ?E; try done.
  - split; [done|done|by rewrite Es|]. rewrite Es. intros b Hbb Hn. destruct (H4 b Hbb Hn). split; [done|by apply HU].
  - eapply packed_ext; [exact Hp|done].
  - intros o Ho. rewrite <-Hb by done. unfold fbyte, blk. rewrite Es. destruct (slots W ip !! _) as [b|] eqn:Eb; [|done].
    case_decide; [done|]. rewrite HW; [done| |done]. right. by eapply list_elem_of_lookup_2.
Qed.

(** ** What appending does to the file and to the others *)

Section append.
Context (W W2 : Z → list Z) (n ty : Z) (c p : list Z) (ip2 : inode).
Context (Hn : 0 ≤ n < 208) (Hty : 0 ≤ ty < 2 ^ 15) (Hf : file_is W n ty c) (HV : sized W2).
Notation ip := (node W n).
Notation size := (i_size (node W n) + Z.of_nat (length p)).
Notation ip' := (upd_i_size (λ _, size) ip2).
Notation W' := (inode_V Sb W2 ip').
Context (Hmax : size ≤ MAXFILE * BSIZE) (HW : wrote Sb W ip (i_size ip) p W2 ip2) (Hp : packed W' ip' (nblk size)).

Lemma append_num : i_inum ip' = n.
Proof using HW. cbn. rewrite (w_same _ _ _ _ _ _ _ HW). done. Qed.
Lemma append_fields : i_type ip2 = i_type ip ∧ i_major ip2 = i_major ip ∧ i_minor ip2 = i_minor ip ∧ i_nlink ip2 = i_nlink ip.
Proof using HW. rewrite (w_same _ _ _ _ _ _ _ HW). done. Qed.
Lemma append_file : wrote_file Sb W ip (i_size ip) p W' ip'.
Proof using Hn Hf HV HW.
  apply (wrote_inode Sb W ip (i_size ip) p W2 ip2); [exact mkfs_layout|done|by apply mkfs_inum_ok|done|]. lia.
Qed.
Lemma append_node : node W' n = ip'.
Proof using All.
  pose proof append_num as En. pose proof (wf_ok _ _ _ _ _ _ _ append_file) as Hok. numbers. pose proof (file_dinode _ _ _ _ Hf Hty) as [D1 D2 D3 D4 _ _ _].
  pose proof (fi_size _ _ _ _ Hf) as Hs.
  unfold dino. rewrite <-En at 1 2. rewrite disk_inode; [| |done|rewrite En; by apply mkfs_inum_ok].
  - cbn. rewrite (w_same _ _ _ _ _ _ _ HW). done.
  - destruct append_fields as (E1 & E2 & E3 & E4). split; cbn [i_type i_major i_minor i_nlink i_size upd_i_size]; rewrite ?E1, ?E2, ?E3, ?E4; [exact D1|exact D2|exact D3|exact D4|lia|apply Hok|].
    exact (addrs_in_range Sb _ _ mkfs_layout Hok).
Qed.
Lemma append_self : file_is W' n ty (c ++ p).
Proof using All.
  pose proof append_file as HF. pose proof (fi_size _ _ _ _ Hf) as Hs. destruct append_fields as (E1 & E2 & E3 & E4).
  split; rewrite ?append_node; cbn [i_type i_major i_minor i_nlink i_size upd_i_size].
  - apply HF.
  - rewrite E1. apply (fi_type _ _ _ _ Hf).
  - rewrite E2, E3. apply (fi_dev _ _ _ _ Hf).
  - rewrite E4. apply (fi_link _ _ _ _ Hf).
  - rewrite length_app. lia.
  - rewrite length_app. lia.
  - rewrite length_app, Nat2Z.inj_add, <-Hs. exact Hp.
  - intros o Ho. rewrite (wf_bytes _ _ _ _ _ _ _ HF) by done. rewrite Hs. case_decide as Hd.
    + rewrite lookup_app_r by lia. replace (Z.to_nat o - length c)%nat with (Z.to_nat (o - Z.of_nat (length c))) by lia.
      destruct (lookup_lt_is_Some_2 p (Z.to_nat (o - Z.of_nat (length c)))) as [x Hx]; [lia|]. rewrite Hx. by apply list_lookup_total_correct.
    + rewrite (fi_byte _ _ _ _ Hf) by done. destruct (decide (o < Z.of_nat (length c))); [by rewrite lookup_app_l by lia|].
      rewrite !lookup_ge_None_2; [done|rewrite length_app; lia|lia].
Qed.
Lemma append_blocks b : b ∈ blocks W' n → b ≠ 0 → b ∈ blocks W n ∨ used Sb W b = false.
Proof using All.
  unfold blocks. rewrite append_node. intros Hb Hb0. apply (w_new _ _ _ _ _ _ _ HW); [|done].
  rewrite inode_V_slots in Hb; [done|destruct (w_ok _ _ _ _ _ _ _ HW); by split|rewrite append_num; by apply mkfs_inum_ok].
Qed.

(** Another file that shares no block with it. *)
Lemma append_other m ty' c' : 0 ≤ m < 208 → m ≠ n → file_is W m ty' c' → (∀ b, b ≠ 0 → b ∈ blocks W m → b ∉ blocks W n) →
  file_is W' m ty' c' ∧ blocks W' m = blocks W m.
Proof using All.
  intros Hm Hne Hfm Hdis. destruct (mkfs_inum_ok m Hm) as [Him Hib]. pose proof append_num as En. numbers.
  assert (node W' m = node W m) as Hnode.
  { unfold dino. rewrite other_inode; [|done|apply (wf_ok _ _ _ _ _ _ _ append_file)|rewrite mkfs_sb_eq; cbn; lia|cbn in En |- *; lia|lia|cbn in En |- *; lia].
    rewrite (w_rest _ _ _ _ _ _ _ HW); [done|lia|]. intros j Hj. rewrite mkfs_BBLOCK by done. lia. }
  apply file_is_ext; [done|done| |].
  - intros b Hb Hb0. destruct (fo_data _ _ _ (fi_ok _ _ _ _ Hfm) b Hb Hb0) as [Hd Hu].
    apply (wf_others _ _ _ _ _ _ _ append_file); [done|done|]. by apply Hdis.
  - intros b Hd Hu. by apply (wf_used _ _ _ _ _ _ _ append_file).
Qed.
End append.

(** ** The files *)

(** Blocks that the files take. *)
Definition cost (fs : list (Z * list Z)) : Z := foldr (λ f z, need (nblk (Z.of_nat (length f.2))) + z) 0 fs.
Lemma cost_cons f l : cost (f :: l) = need (nblk (Z.of_nat (length f.2))) + cost l.
Proof. done. Qed.
Lemma cost_app l1 l2 : cost (l1 ++ l2) = cost l1 + cost l2.
Proof. induction l1 as [|f l1 IH]; [done|]. rewrite <-app_comm_cons, !cost_cons, IH. lia. Qed.
Lemma cost_insert fs i ty c d : fs !! i = Some (ty, c) →
  cost (<[i := (ty, d)]> fs) = cost fs + (need (nblk (Z.of_nat (length d))) - need (nblk (Z.of_nat (length c)))).
Proof.
  intros Hi. rewrite insert_take_drop by (by eapply lookup_lt_Some). rewrite <-(take_drop_middle fs i (ty, c) Hi) at 3. rewrite !cost_app, !cost_cons. cbn [snd]. lia.
Qed.

Record tree_is (s : mkst) (W : Z → list Z) (fs : list (Z * list Z)) : Prop := {
  t_img : img_ok s W;
  t_next : m_freeinode s = 1 + Z.of_nat (length fs);
  t_inodes : 1 + Z.of_nat (length fs) ≤ 208;
  t_file : ∀ i ty c, fs !! i = Some (ty, c) → file_is W (1 + Z.of_nat i) ty c ∧ 0 ≤ ty < 2 ^ 15;
  t_apart : ∀ i j b, (i < length fs)%nat → (j < length fs)%nat → i ≠ j → b ≠ 0 → b ∈ blocks W (1 + Z.of_nat i) → b ∉ blocks W (1 + Z.of_nat j);
  t_cost : m_freeblock s = nmeta + cost fs;
  t_head : W 1 = superblock_bytes Sb ∧ ∀ n, 2 ≤ n < 32 → W n = zeroes;
}.
(** The blocks before the inodes. *)
Lemma head_inode W W2 ip : 0 ≤ i_inum ip < 208 → (∀ n, n < 32 → W2 n = W n) →
  (W 1 = superblock_bytes Sb ∧ ∀ n, 2 ≤ n < 32 → W n = zeroes) →
  inode_V Sb W2 ip 1 = superblock_bytes Sb ∧ ∀ n, 2 ≤ n < 32 → inode_V Sb W2 ip n = zeroes.
Proof.
  intros Hn HW [H1 H2]. destruct (mkfs_inum_ok _ Hn) as [_ Hb]. unfold inode_V.
  split; [|intros n Hr]; rewrite fn_lookup_insert_ne by lia; rewrite HW by lia; auto.
Qed.

Lemma tree_block s W fs i b : tree_is s W fs → (i < length fs)%nat → b ≠ 0 → b ∈ blocks W (1 + Z.of_nat i) → is_data Sb b ∧ used Sb W b = true.
Proof.
  intros H Hi Hb0 Hb. destruct (lookup_lt_is_Some_2 _ _ Hi) as [[ty c] Hc]. destruct (t_file _ _ _ H _ _ _ Hc) as [Hf _].
  by apply (fo_data _ _ _ (fi_ok _ _ _ _ Hf)).
Qed.

Lemma append_wp s W fs i ty c p (Q : unit → mkst → Prop) :
  tree_is s W fs → fs !! i = Some (ty, c) → Z.of_nat (length (c ++ p)) ≤ MAXFILE * BSIZE →
  nmeta + cost (<[i := (ty, c ++ p)]> fs) ≤ FSSIZE →
  (∀ s' W', tree_is s' W' (<[i := (ty, c ++ p)]> fs) → Q tt s') → wp (iappend (1 + Z.of_nat i) p) Q s.
Proof.
  intros H Hi Hmax Hsp HQ. destruct (t_file _ _ _ H _ _ _ Hi) as [Hf Hty]. pose proof (lookup_lt_Some _ _ _ Hi) as Hil.
  pose proof (t_inodes _ _ _ H) as Hin. pose proof (fi_size _ _ _ _ Hf) as Hs. pose proof (t_cost _ _ _ H) as Hc.
  rewrite (cost_insert _ _ _ _ _ Hi), length_app, Nat2Z.inj_add in Hsp. rewrite length_app, Nat2Z.inj_add in Hmax.
  eapply (iappend_wp s W); [apply H|lia|apply Hf|lia|rewrite Hs; apply Hf|lia|rewrite Hs; lia|].
  intros s' W2 ip2 ip' H' HV HW Hp Hf' Hn'. set (n := 1 + Z.of_nat i) in *. apply (HQ s' (inode_V Sb W2 ip')).
  assert (∀ j, (j < length fs)%nat → j ≠ i → ∀ ty' c', file_is W (1 + Z.of_nat j) ty' c' →
    file_is (inode_V Sb W2 ip') (1 + Z.of_nat j) ty' c' ∧ blocks (inode_V Sb W2 ip') (1 + Z.of_nat j) = blocks W (1 + Z.of_nat j)) as Hother.
  { intros j Hj Hne ty' c' Hfj. apply (append_other W W2 n ty c p ip2); try done; try lia. intros b Hb0 Hb. by apply (t_apart _ _ _ H j i b). }
  assert (∀ b, b ≠ 0 → b ∈ blocks (inode_V Sb W2 ip') n → b ∈ blocks W n ∨ used Sb W b = false) as Hnew.
  { intros b Hb0 Hb. apply (append_blocks W W2 n ty c p ip2); try done; lia. }
  assert (∀ j, (j < length fs)%nat → j ≠ i → blocks (inode_V Sb W2 ip') (1 + Z.of_nat j) = blocks W (1 + Z.of_nat j)) as Hblk.
  { intros j Hj Hne. destruct (lookup_lt_is_Some_2 _ _ Hj) as [[ty' c'] Hc']. by eapply Hother, (t_file _ _ _ H). }
  split; rewrite ?length_insert.
  - done.
  - rewrite Hn'. apply H.
  - done.
  - intros j ty' c' [(<- & E & _)|[Hne Hj]]%list_lookup_insert_Some; [injection E as <- <-; split; [|done]; apply (append_self W W2 n ty c p ip2); try done; lia|].
    destruct (t_file _ _ _ H _ _ _ Hj) as [Hfj ?]. split; [|done]. apply Hother; [by eapply lookup_lt_Some|done|done].
  - intros j k b Hj Hk Hjk Hb0 Hb Hb'. destruct (decide (j = i)) as [->|Hji], (decide (k = i)) as [->|Hki]; [done|..].
    + rewrite Hblk in Hb' by done. destruct (Hnew b Hb0 Hb) as [Ho|Hu]; [by apply (t_apart _ _ _ H i k b)|].
      destruct (tree_block _ _ _ k b H Hk Hb0 Hb'). congruence.
    + rewrite Hblk in Hb by done. destruct (Hnew b Hb0 Hb') as [Ho|Hu]; [by apply (t_apart _ _ _ H j i b)|].
      destruct (tree_block _ _ _ j b H Hj Hb0 Hb). congruence.
    + rewrite Hblk in Hb, Hb' by done. by apply (t_apart _ _ _ H j k b).
  - rewrite (cost_insert _ _ _ _ _ Hi), length_app, Nat2Z.inj_add. rewrite Hs in Hf'. lia.
  - apply (head_inode W); [pose proof (append_num W W2 n p ip2 HW) as En; cbn in En |- *; lia| |apply H]. numbers. intros m Hm.
    apply (w_rest _ _ _ _ _ _ _ HW); [lia|]. intros j Hj. rewrite mkfs_BBLOCK by done. lia.
Qed.

(** ** ialloc *)

Definition new_inode (n ty : Z) : inode :=
  Inode ROOTDEV n 0 (Sleeplock false 0) true ty 0 0 1 0 (replicate (Z.to_nat (NDIRECT + 1)) 0).
Lemma new_slots W n ty : ind_of (new_inode n ty) = 0 ∧ slots W (new_inode n ty) = replicate (Z.to_nat MAXFILE) 0.
Proof. done. Qed.
Lemma img_inodes s W k : img_ok s W → img_ok (Mk (m_img s) (m_len s) k (m_freeblock s)) W.
Proof. intros [H1 H2 H3 H4 H5 H6]. by split. Qed.

Section new.
Context (W : Z → list Z) (n ty : Z) (Hn : 0 ≤ n < 208) (Hty : 0 ≤ ty < 2 ^ 15) (HV : sized W).
Notation W' := (inode_V Sb W (new_inode n ty)).
Lemma new_node : node W' n = new_inode n ty.
Proof using Hn Hty HV.
  unfold dino. rewrite (disk_inode Sb W (new_inode n ty)); [done| |done|by apply mkfs_inum_ok].
  split; try (cbn [new_inode i_type i_major i_minor i_nlink i_size i_addrs]; lia || done). by apply Forall_replicate.
Qed.
Lemma new_file : file_is W' n ty [] ∧ ∀ b, b ∈ blocks W' n → b = 0.
Proof using Hn Hty HV.
  destruct (new_slots W' n ty) as [Ei Es]. assert (∀ b, b ∈ blocks W' n → b = 0) as Hb.
  { unfold blocks. rewrite new_node, Ei, Es. intros b [->|Hb]%elem_of_cons; [done|]. by apply elem_of_replicate in Hb as [-> _]. }
  split; [|done]. unfold blocks in Hb. rewrite new_node in Hb. split; rewrite ?new_node; try done.
  - split; [done|done| |].
    + rewrite Ei, Es. change (filter _ _) with (filter (λ b, b ≠ 0) (replicate (Datatypes.S (Z.to_nat MAXFILE)) 0)). by vm_compute; constructor.
    + intros b Hbb Hb0. by apply Hb in Hbb.
  - split; [|done]. intros bn Hbn. exists 0. split; [rewrite Es; apply lookup_replicate_2; lia|]. change (nblk (Z.of_nat (length []))) with 0. split; [lia|done].
  - intros o Ho. numbers. unfold fbyte, blk. rewrite Es. rewrite lookup_replicate_2; [|rewrite N7, N8 in *; Z.div_mod_to_equations; lia].
    rewrite decide_True by done. rewrite lookup_nil. unfold zero_block. destruct (replicate _ _ !! _) eqn:E; [|done]. by apply lookup_replicate in E as [-> _].
Qed.
Lemma new_other m ty' c' : 0 ≤ m < 208 → m ≠ n → file_is W m ty' c' → file_is W' m ty' c' ∧ blocks W' m = blocks W m.
Proof using Hn Hty HV.
  intros Hm Hne Hf. apply file_is_ext; [done| | |].
  - unfold dino. rewrite other_inode; [done|done|done|rewrite mkfs_sb_eq; cbn; lia|cbn; lia|lia|cbn; lia].
  - intros b Hb Hb0. destruct (fo_data _ _ _ (fi_ok _ _ _ _ Hf) b Hb Hb0) as [Hd Hu]. apply inode_V_data; [exact mkfs_layout|by apply mkfs_inum_ok|done].
  - intros b Hd Hu. rewrite used_inode; [done|exact mkfs_layout|by apply mkfs_inum_ok|]. by apply (data_range Sb b mkfs_layout).
Qed.
End new.

Lemma ialloc_wp s W fs ty (Q : Z → mkst → Prop) :
  tree_is s W fs → 1 + Z.of_nat (length fs) < 208 → 0 ≤ ty < 2 ^ 15 →
  (∀ s' W', tree_is s' W' (fs ++ [(ty, [])]) → Q (1 + Z.of_nat (length fs)) s') → wp (ialloc ty) Q s.
Proof.
  intros H Hlen Hty HQ. unfold ialloc. wp_steps. rewrite (xshort_id ty), (t_next _ _ _ H), u32_id by lia.
  change (xshort 1) with 1. change (xint 0) with 0. set (n := 1 + Z.of_nat (length fs)) in *. fold (new_inode n ty).
  assert (0 ≤ n < 208) as Hn by lia. change n with (i_inum (new_inode n ty)) at 1.
  eapply (winode_wp _ W); [apply img_inodes, H|exact Hn|done|]. intros s' H' Hf' Hn'. cbn [m_freeblock m_freeinode] in *. wp_step.
  pose proof (io_size _ _ (t_img _ _ _ H)) as HV. apply (HQ s' (inode_V Sb W (new_inode n ty))).
  destruct (new_file W n ty Hn Hty HV) as [Hnew Hb].
  assert (∀ j, (j < length fs)%nat → blocks (inode_V Sb W (new_inode n ty)) (1 + Z.of_nat j) = blocks W (1 + Z.of_nat j)) as Hblk.
  { intros j Hj. destruct (lookup_lt_is_Some_2 _ _ Hj) as [[ty' c'] Hc']. eapply new_other; [done|done|done|lia|lia|by eapply (t_file _ _ _ H)]. }
  split; rewrite ?length_app; cbn [length].
  - done.
  - rewrite Hn'. lia.
  - lia.
  - intros i ty' c' [Hi|[Hge Hi]]%lookup_app_Some.
    + destruct (t_file _ _ _ H _ _ _ Hi) as [Hf ?]. pose proof (lookup_lt_Some _ _ _ Hi). split; [|done]. apply new_other; try done; lia.
    + apply list_lookup_singleton_Some in Hi as [Hi [= <- <-]]. split; [|done]. by replace (1 + Z.of_nat i) with n by lia.
  - intros i j b Hi Hj Hij Hb0 Hbi Hbj. destruct (decide (i = length fs)) as [->|]; [fold n in Hbi; by apply Hb in Hbi|].
    destruct (decide (j = length fs)) as [->|]; [fold n in Hbj; by apply Hb in Hbj|].
    rewrite Hblk in Hbi, Hbj by lia. by apply (t_apart _ _ _ H i j b); try lia.
  - rewrite Hf', (t_cost _ _ _ H), cost_app. change (cost [(ty, [])]) with 0. lia.
  - by apply (head_inode W); [|done|apply H].
Qed.
