(* ===== verification/MkfsThm.v ===== *)
(** * mkfs makes the file system that it was asked for *)

From S2P Require Import Prelude Riscv Memory CString Kalloc Vm State Bytes Printf Sched Bio BioSpec Cache Log LogSpec Crash Txn Fs FsBlock FsFile FsInode FsWrite FsDir FsPath Mkfs MkfsSpec MkfsTree.

Local Notation Sb := mkfs_sb.

(** ** The file system for a list of host files *)

Definition content (f : hostfile) : list Z := concat (default [] (hf_reads f)).
Definition entries (files : list hostfile) : list (list Z * Z) :=
  ([46], 1) :: ([46; 46], 1) :: imap (λ i f, (entry_name (hf_name f), 2 + Z.of_nat i)) files.
Definition root_bytes (files : list hostfile) : list Z := concat ((λ e, dirent_of e.2 e.1) <$> entries files).
Definition tree_of (files : list hostfile) : list (Z * list Z) :=
  (T_DIR, root_bytes files) :: ((λ f, (T_FILE, content f)) <$> files).

(** Host files that fit: names without slash, contents that fit in a file,
    enough inodes and blocks. *)
Record fits_files (files : list hostfile) : Prop := {
  vf_open f : f ∈ files → is_Some (hf_reads f);
  vf_slash f : f ∈ files → 47 ∉ shortname (hf_name f);
  vf_nul f : f ∈ files → 0 ∉ hf_name f;
  vf_max f : f ∈ files → Z.of_nat (length (content f)) ≤ MAXFILE * BSIZE;
  vf_inodes : Z.of_nat (length files) ≤ 206;
  vf_space : nmeta + cost (tree_of files) ≤ FSSIZE;
}.
(** A root directory that fills its last block is left out: [mkfs] then counts
    one block too many in its size. *)
Record valid_files (files : list hostfile) : Prop := {
  vf_fits :> fits_files files;
  vf_round : (2 + Z.of_nat (length files)) mod 64 ≠ 0;
}.

Lemma length_dirent_of n nm : length (dirent_of n nm) = 16%nat.
Proof. unfold dirent_of. rewrite length_app, length_le_put, length_take, length_app, length_replicate. change (Z.to_nat DIRSIZ) with 14%nat. lia. Qed.
Lemma length_entries files : length (entries files) = (2 + length files)%nat.
Proof. unfold entries. cbn. by rewrite length_imap. Qed.
Lemma entries_snoc files f : entries (files ++ [f]) = entries files ++ [(entry_name (hf_name f), 2 + Z.of_nat (length files))].
Proof. unfold entries. rewrite imap_app. cbn. by rewrite Nat.add_0_r. Qed.
Lemma root_snoc files f : root_bytes (files ++ [f]) = root_bytes files ++ dirent_of (2 + Z.of_nat (length files)) (entry_name (hf_name f)).
Proof. unfold root_bytes. rewrite entries_snoc, fmap_app, concat_app. cbn. by rewrite app_nil_r. Qed.
Lemma length_root files : length (root_bytes files) = (16 * (2 + length files))%nat.
Proof.
  unfold root_bytes. rewrite <-length_entries. induction (entries files) as [|e l IH]; [done|]. cbn [fmap list_fmap concat].
  rewrite length_app, length_dirent_of, IH. cbn. lia.
Qed.
Lemma need_nonneg n : 0 ≤ n → 0 ≤ need (nblk n).
Proof. intros Hn. transitivity (need (nblk 0)); [done|]. by apply need_mono, nblk_mono. Qed.
Lemma need_le (l l' : list Z) : (length l ≤ length l')%nat → need (nblk (Z.of_nat (length l))) ≤ need (nblk (Z.of_nat (length l'))).
Proof. intros Hl. apply need_mono, nblk_mono. lia. Qed.
Lemma cost_nonneg fs : 0 ≤ cost fs.
Proof. induction fs as [|f fs IH]; [done|]. rewrite cost_cons. pose proof (need_nonneg (Z.of_nat (length f.2)) ltac:(lia)). lia. Qed.
Lemma cost_tree_app fs l : cost (tree_of fs) ≤ cost (tree_of (fs ++ l)).
Proof.
  unfold tree_of. rewrite fmap_app, !cost_cons, cost_app. cbn [snd]. pose proof (cost_nonneg ((λ f, (T_FILE, content f)) <$> l)).
  pose proof (need_le (root_bytes fs) (root_bytes (fs ++ l))) as Hn. rewrite !length_root, length_app in Hn. rewrite !length_root, length_app. lia.
Qed.

(** Another entry of the root directory. *)
Lemma root_append_wp s W c rest p (Q : unit → mkst → Prop) :
  tree_is s W ((T_DIR, c) :: rest) → Z.of_nat (length (c ++ p)) ≤ MAXFILE * BSIZE → nmeta + cost ((T_DIR, c ++ p) :: rest) ≤ FSSIZE →
  (∀ s' W', tree_is s' W' ((T_DIR, c ++ p) :: rest) → Q tt s') → wp (iappend ROOTINO p) Q s.
Proof. intros H. exact (append_wp s W _ 0 T_DIR c p Q H eq_refl). Qed.

(** ** One host file *)

Lemma add_file_wp s W fs f (Q : unit → mkst → Prop) :
  tree_is s W (tree_of fs) → is_Some (hf_reads f) → 47 ∉ shortname (hf_name f) → Z.of_nat (length fs) < 206 →
  Z.of_nat (length (content f)) ≤ MAXFILE * BSIZE → nmeta + cost (tree_of (fs ++ [f])) ≤ FSSIZE →
  (∀ s' W', tree_is s' W' (tree_of (fs ++ [f])) → Q tt s') → wp (add_file ROOTINO f) Q s.
Proof.
  intros H [reads Hr] Hsl Hlen Hmax Hsp HQ. numbers. unfold add_file, assert_. rewrite bool_decide_true by done. wp_steps. rewrite Hr.
  assert (content f = concat reads) as Ec by (unfold content; by rewrite Hr).
  set (T c := ((T_DIR, root_bytes (fs ++ [f])) :: ((λ f, (T_FILE, content f)) <$> fs)) ++ [(T_FILE, c)]).
  assert (∀ c, (length c ≤ length (concat reads))%nat → nmeta + cost (T c) ≤ FSSIZE) as HT.
  { intros c Hc. pose proof (need_le _ _ Hc). unfold tree_of in Hsp. rewrite fmap_app, !cost_cons, cost_app in Hsp. cbn [fmap list_fmap snd] in Hsp.
    rewrite cost_cons, Ec in Hsp. unfold T. rewrite cost_app, !cost_cons. cbn [snd] in *. lia. }
  assert (length (tree_of fs) = S (length fs)) as Hlt by (unfold tree_of; cbn; by rewrite length_fmap).
  wp_steps. eapply (ialloc_wp s W); [done|lia|done|]. intros s1 W1 H1. rewrite Hlt. replace (1 + Z.of_nat (S (length fs))) with (2 + Z.of_nat (length fs)) by lia.
  wp_steps. eapply (root_append_wp s1 W1 (root_bytes fs)); [exact H1|..]; rewrite <-root_snoc.
  { rewrite length_root, length_app. cbn [length]. lia. }
  { apply (HT []). cbn. lia. }
  intros s2 W2 H2.
  eapply wp_mono; [apply (wp_forM _ _ (λ l s, ∃ W pre, reads = pre ++ l ∧ tree_is s W (T (concat pre))))|].
  - by exists W2, [].
  - intros p l s3 (W3 & pre & Hpre & H3). replace (2 + Z.of_nat (length fs)) with (1 + Z.of_nat (S (length fs))) by lia.
    assert (<[S (length fs) := (T_FILE, concat pre ++ p)]> (T (concat pre)) = T (concat (pre ++ [p]))) as ET'.
    { unfold T. rewrite insert_app_r_alt by (cbn; rewrite length_fmap; lia). cbn [length]. rewrite length_fmap, Nat.sub_diag, concat_app. cbn. by rewrite app_nil_r. }
    assert (length (concat (pre ++ [p])) ≤ length (concat reads))%nat as Hle.
    { replace reads with ((pre ++ [p]) ++ l) by (by rewrite <-app_assoc). rewrite (concat_app (pre ++ [p])), (length_app (concat (pre ++ [p]))). lia. }
    eapply (append_wp s3 W3 _ (S (length fs)) T_FILE (concat pre)); [exact H3| | |rewrite ET'; by apply HT|].
    + unfold T. rewrite lookup_app_r by (cbn; rewrite length_fmap; lia). cbn [length]. by rewrite length_fmap, Nat.sub_diag.
    + rewrite concat_app in Hle. cbn in Hle. rewrite app_nil_r in Hle. rewrite <-Ec in Hle. lia.
    + rewrite ET'. intros s4 W4 H4. exists W4, (pre ++ [p]). by rewrite <-app_assoc.
  - intros [] s3 (W3 & pre & Hpre & H3). rewrite app_nil_r in Hpre. subst pre. apply (HQ s3 W3).
    unfold tree_of. rewrite fmap_app. cbn [fmap list_fmap]. by rewrite Ec.
Qed.

(** ** The whole run *)

Definition blank_image (s : mkst) (len : Z) : Prop :=
  m_len s = len ∧ m_freeinode s = 1 ∧ m_freeblock s = nmeta ∧ ∀ n, sector s n = zeroes.

Lemma zero_wp s (Q : unit → mkst → Prop) :
  blank_image s 0 → (∀ s', blank_image s' FSSIZE → Q tt s') → wp (forM (seqZ 0 FSSIZE) (λ i, wsect i zeroes)) Q s.
Proof.
  intros Hs HQ. numbers.
  eapply wp_mono; [apply (wp_forM _ _ (λ l s, 0 ≤ m_len s ≤ FSSIZE ∧ l = seqZ (m_len s) (FSSIZE - m_len s) ∧ blank_image s (m_len s)))|].
  - pose proof Hs as (E & _). rewrite E. split; [lia|]. split; [by rewrite Z.sub_0_r|exact Hs].
  - intros i l s1 (Hlen & Hl & _ & Hi & Hb & Hz). assert (m_len s1 < FSSIZE) as Hlt.
    { destruct (decide (m_len s1 < FSSIZE)) as [|Hge]; [done|]. rewrite seqZ_nil in Hl by lia. done. }
    rewrite seqZ_cons in Hl by lia. injection Hl as -> ->. unfold wsect. wp_steps. unfold blank_image. cbn [m_len m_freeinode m_freeblock].
    rewrite Z.max_r by lia. split_and!; [lia|lia|f_equal; lia|done|done|done|]. intros n. unfold sector. cbn [m_img].
    destruct (decide (n = m_len s1)) as [->|Hne]; [by rewrite lookup_insert_eq|]. rewrite lookup_insert_ne by done. apply Hz.
  - intros [] s1 (Hlen & Hl & Hb). apply HQ. destruct (decide (m_len s1 < FSSIZE)); [rewrite seqZ_cons in Hl by lia; done|].
    by replace (m_len s1) with FSSIZE in Hb by lia.
Qed.

(** The image with the superblock and no file. *)
Lemma empty_tree s :
  blank_image s FSSIZE → let s1 := Mk (<[1 := superblock_bytes Sb]> (m_img s)) (Z.max (m_len s) 2) (m_freeinode s) (m_freeblock s) in
  ∃ W, tree_is s1 W [].
Proof.
  intros (Hlen & Hi & Hb & Hz) s1. numbers. exists (<[bmapstart Sb := bits nmeta]> (sector s1)).
  assert (∀ n, sector s1 n = if decide (n = 1) then superblock_bytes Sb else zeroes) as Hs.
  { intros n. unfold sector, s1. cbn [m_img]. case_decide as E; [subst n; by rewrite lookup_insert_eq|]. rewrite lookup_insert_ne by done. apply Hz. }
  assert (length (superblock_bytes Sb) = Z.to_nat BSIZE) as Hl by (vm_compute; reflexivity).
  assert (1 ≠ bmapstart Sb) as Hne by lia.
  split; cbn [m_freeinode m_freeblock length].
  - split; cbn [m_len m_freeblock].
    + cbn. lia.
    + cbn. lia.
    + apply sized_insert; [|apply bits_spec; lia]. intros n. rewrite Hs. by case_decide.
    + intros n Hn. by rewrite fn_lookup_insert_ne.
    + rewrite fn_lookup_insert. cbn. by rewrite Hb.
    + intros n Hn. rewrite Hs, decide_False; [done|]. cbn in Hn. lia.
  - done.
  - lia.
  - intros i ty c Hc. done.
  - lia.
  - cbn. rewrite Hb. change (cost []) with 0. lia.
  - rewrite fn_lookup_insert_ne by done. split; [by rewrite Hs|]. intros n Hn. rewrite fn_lookup_insert_ne by lia. rewrite Hs, decide_False by lia. done.
Qed.

(** The root directory with its size rounded up. *)
Definition rounded (W : Z → list Z) : Z → list Z :=
  inode_V Sb W (upd_i_size (λ z, (z / BSIZE + 1) * BSIZE) (dino Sb W ROOTINO)).

Lemma finish_wp s W files (Q : unit → mkst → Prop) :
  fits_files files → tree_is s W (tree_of files) →
  (∀ s', m_len s' = FSSIZE → (∀ n, sector s' n = rounded W n) → Q tt s') →
  wp (din ← rinode ROOTINO;
      let off := (xint (i_size din) / BSIZE + 1) * BSIZE in
      winode ROOTINO (upd_i_size (λ _, xint off) din) ;;
      s ← get;
      balloc (m_freeblock s)) Q s.
Proof.
  intros Hv H HQ. numbers. destruct (t_file _ _ _ H 0%nat T_DIR (root_bytes files) eq_refl) as [Hf _]. change (1 + Z.of_nat 0) with ROOTINO in Hf.
  pose proof (fi_size _ _ _ _ Hf) as Hs. rewrite length_root in Hs. pose proof (vf_inodes _ Hv) as Hin.
  wp_steps. eapply (rinode_wp s W); [apply H|done|]. rewrite (xint_id (i_size _)) by lia. cbv zeta.
  rewrite (xint_id (_ * BSIZE)) by (rewrite N8; Z.div_mod_to_equations; lia). wp_steps.
  set (ip' := upd_i_size _ _). change ROOTINO with (i_inum ip'). eapply (winode_wp s W ip'); [apply H|done|apply (fi_ok _ _ _ _ Hf)|].
  intros s1 H1 Hf1 Hn1. wp_steps. pose proof (io_free _ _ H1). unfold balloc, assert_.
  rewrite (proj2 (Z.ltb_lt (m_freeblock s1) (BSIZE * 8))) by lia. unfold wsect. wp_steps.
  apply HQ; [cbn [m_len]; rewrite (io_len _ _ H1); lia|]. intros n. change (rounded W) with (inode_V Sb W ip').
  unfold sector. cbn [m_img]. destruct (decide (n = bmapstart Sb)) as [->|Hne].
  - rewrite lookup_insert_eq. symmetry. apply (io_bits _ _ H1).
  - rewrite lookup_insert_ne by done. symmetry. by apply (io_blocks _ _ H1).
Qed.

Lemma mkfs_wp files a b (Q : unit → mkst → Prop) :
  fits_files files →
  (∀ s W s', tree_is s W (tree_of files) → m_len s' = FSSIZE → (∀ n, sector s' n = rounded W n) → Q tt s') →
  wp (mkfs files) Q (Mk ∅ 0 a b).
Proof.
  intros Hv HQ. numbers. unfold mkfs. wp_steps. apply zero_wp; [done|]. intros s1 Hblank. destruct (empty_tree s1 Hblank) as [W0 H0].
  unfold wsect. wp_steps. eapply (ialloc_wp _ W0 []); [exact H0|done|done|]. intros s2 W2 H2. change (1 + Z.of_nat (length [])) with ROOTINO. unfold assert_ at 1. rewrite Z.eqb_refl. wp_steps.
  pose proof (vf_space _ Hv) as Hsp. pose proof (cost_tree_app [] files) as Hc. rewrite app_nil_l in Hc.
  assert (cost [(T_DIR, dirent_of ROOTINO [46])] ≤ cost (tree_of [])) as Hc1 by (vm_compute; discriminate).
  eapply (root_append_wp s2 W2 []); [exact H2|by rewrite app_nil_l, length_dirent_of|rewrite app_nil_l; lia|]. intros s3 W3 H3. wp_step.
  eapply (root_append_wp s3 W3 (dirent_of ROOTINO [46])); [exact H3|by rewrite length_app, !length_dirent_of|exact (Z.le_trans _ _ _ (Zplus_le_compat_l _ _ nmeta Hc) Hsp)|].
  intros s4 W4 H4. wp_step.
  eapply wp_mono; [apply (wp_forM _ _ (λ l s, ∃ W pre, files = pre ++ l ∧ tree_is s W (tree_of pre)))|].
  - exists W4, []. done.
  - intros f l s5 (W5 & pre & Hfs & H5). assert (f ∈ files) as Hf by (rewrite Hfs; set_solver). assert (files = (pre ++ [f]) ++ l) as Hfs' by (by rewrite <-app_assoc).
    pose proof (cost_tree_app (pre ++ [f]) l) as Hc5. rewrite <-Hfs' in Hc5. pose proof (vf_inodes _ Hv) as Hin. rewrite Hfs, length_app in Hin. cbn [length] in Hin.
    eapply (add_file_wp s5 W5 pre f); [exact H5|by apply (vf_open _ Hv)|by apply (vf_slash _ Hv)|lia|by apply (vf_max _ Hv)|lia|].
    intros s6 W6 H6. by exists W6, (pre ++ [f]).
  - intros [] s5 (W5 & pre & Hfs & H5). rewrite app_nil_r in Hfs. subst pre. eapply (finish_wp s5 W5); [done|exact H5|]. intros s6. by eapply HQ.
Qed.

(** ** The file system on the image *)

(** What [dirlookup] finds in the root directory. *)
Definition root_lookup (files : list hostfile) (nm : list Z) : option Z :=
  (λ e, e.2.2) <$> list_find (λ e, take (Z.to_nat DIRSIZ) e.1 = nm) (entries files).
Definition live_upto (files : list hostfile) (n : Z) : Prop := 1 ≤ n ≤ 1 + Z.of_nat (length files).

(** The blocks [V] hold the files: the bitmap marks exactly the blocks in use,
    the directories are well formed, no block is in two files, the root directory lists the files, and
    each of them has its bytes. *)
Record holds_files (V : Z → list Z) (files : list hostfile) : Prop := {
  hf_bitmap : ∀ n, 0 ≤ n < FSSIZE → used Sb V n = (n <? nmeta + cost (tree_of files));
  hf_tree : tree_ok Sb V (live_upto files);
  hf_apart : ∀ m n b, live_upto files m → live_upto files n → m ≠ n → b ≠ 0 → b ∈ blocks V m → b ∉ blocks V n;
  hf_root : i_type (dino Sb V ROOTINO) = T_DIR ∧ ∀ nm, dir_map V (dino Sb V ROOTINO) nm = root_lookup files nm;
  hf_file : ∀ i f, files !! i = Some f → let ip := dino Sb V (2 + Z.of_nat i) in
    i_type ip = T_FILE ∧ file_ok Sb V ip ∧ whole V ip ∧ fbytes V ip 0 (i_size ip) = content f;
}.

(** ** The entries of the root directory *)

Lemma concat_lookup (ls : list (list Z)) n j i :
  Forall (λ l, length l = n) ls → (i < n)%nat → concat ls !! (n * j + i)%nat = ls !! j ≫= (.!! i).
Proof.
  intros HF Hi. revert j. induction HF as [|l ls Hl HF IH]; intros j; [by rewrite !lookup_nil|]. cbn [concat]. destruct j as [|j].
  - rewrite Nat.mul_0_r, lookup_app_l by lia. done.
  - rewrite lookup_app_r by lia. replace (n * S j + i - length l)%nat with (n * j + i)%nat by lia. apply IH.
Qed.
Lemma entry_dirent e : 0 ∉ e.1 → 0 < e.2 < 2 ^ 16 →
  de_inum (dirent_of e.2 e.1) = e.2 ∧ ∀ nm, binds nm (dirent_of e.2 e.1) ↔ take (Z.to_nat DIRSIZ) e.1 = nm.
Proof.
  intros H0 Hi. assert (cstr (e.1 ++ [0]) = e.1) as Ec by (apply cstr_app_nul; set_solver).
  assert (dirent_of e.2 e.1 = new_dirent (e.1 ++ [0]) e.2) as ->.
  { unfold dirent_of, new_dirent, dname. rewrite Ec, xshort_id by lia. f_equal. rewrite take_app, take_replicate. do 2 f_equal. lia. }
  destruct (new_dirent_binds (e.1 ++ [0]) e.2 Hi) as [[Hb Hd] Hn]. split; [done|]. intros nm. unfold binds. rewrite Hd. unfold dname. rewrite Ec. tauto.
Qed.
Lemma find_entries nm (l : list (list Z * Z)) zs :
  (∀ e, e ∈ l → 0 ∉ e.1 ∧ 0 < e.2 < 2 ^ 16) → (∀ z, z ∈ zs → ¬ binds nm z) →
  de_inum ∘ snd <$> list_find (binds nm) (((λ e, dirent_of e.2 e.1) <$> l) ++ zs) = (λ e, e.2.2) <$> list_find (λ e, take (Z.to_nat DIRSIZ) e.1 = nm) l.
Proof.
  intros Hl Hz. induction l as [|e l IH].
  - cbn [fmap list_fmap app]. destruct (list_find (binds nm) zs) as [[j z]|] eqn:E; [|done]. apply list_find_Some in E as (Hj & Hb & _).
    by destruct (Hz z (list_elem_of_lookup_2 _ _ _ Hj)).
  - destruct (Hl e) as [H0 Hi]; [left|]. destruct (entry_dirent e H0 Hi) as [Hn Hb]. cbn [fmap list_fmap app list_find].
    rewrite (decide_ext _ _ _ _ (Hb nm)). case_decide; [change (Some (de_inum (dirent_of e.2 e.1)) = Some e.2); by rewrite Hn|].
    specialize (IH (λ e He, Hl e (list_elem_of_further _ _ _ He))).
    destruct (list_find (binds nm) _) as [[]|], (list_find _ l) as [[]|]; done.
Qed.

Lemma entry_no_nul files e : (∀ f, f ∈ files → 0 ∉ hf_name f) → Z.of_nat (length files) ≤ 206 → e ∈ entries files →
  0 ∉ e.1 ∧ 1 ≤ e.2 ≤ 1 + Z.of_nat (length files).
Proof.
  intros Hf Hlen He. unfold entries in He. apply elem_of_cons in He as [->|He]; [split; [set_solver|cbn; lia]|].
  apply elem_of_cons in He as [->|He]; [split; [set_solver|cbn; lia]|]. apply elem_of_lookup_imap in He as (i & f & -> & Hi). cbn [fst snd].
  pose proof (lookup_lt_Some _ _ _ Hi). split; [|lia]. pose proof (Hf f (list_elem_of_lookup_2 _ _ _ Hi)) as H0.
  assert (0 ∉ shortname (hf_name f)) as Hs by (unfold shortname; case_decide; [|done]; contradict H0; by eapply subseteq_drop).
  unfold entry_name. destruct (shortname (hf_name f)) as [|c l]; [done|]. case_if E; [set_solver|done].
Qed.

Section image.
Context (s : mkst) (W V : Z → list Z) (files : list hostfile).
Context (Hv : fits_files files) (H : tree_is s W (tree_of files)) (HVW : ∀ n, 32 ≤ n → V n = rounded W n).
Notation root := (dino Sb W ROOTINO).
Notation ipr := (upd_i_size (λ z, (z / BSIZE + 1) * BSIZE) root).

Lemma image_data b : is_data Sb b → V b = W b.
Proof using H HVW.
  intros Hb. numbers. rewrite HVW by (unfold is_data in Hb; lia). apply inode_V_data; [exact mkfs_layout|by apply mkfs_inum_ok|done].
Qed.
Lemma image_used n : 0 ≤ n < FSSIZE → used Sb V n = used Sb W n.
Proof using H HVW.
  intros Hn. numbers. unfold used. rewrite mkfs_BBLOCK by lia. rewrite HVW by lia. unfold rounded, inode_V.
  rewrite fn_lookup_insert_ne; [done|]. destruct (mkfs_inum_ok ROOTINO) as [_ Hb]; [done|]. cbn [i_inum upd_i_size]. change (i_inum root) with ROOTINO. lia.
Qed.
Lemma image_used_data b : is_data Sb b → used Sb W b = true → used Sb V b = true.
Proof using H HVW. intros Hb. numbers. rewrite image_used; [done|]. unfold is_data in Hb. lia. Qed.

(** The files of the image. *)
Lemma image_file_blocks i f : files !! i = Some f →
  file_is V (2 + Z.of_nat i) T_FILE (content f) ∧ blocks V (2 + Z.of_nat i) = blocks W (2 + Z.of_nat i).
Proof using H HVW.
  intros Hi. destruct (t_file _ _ _ H (S i) T_FILE (content f)) as [Hf _]; [unfold tree_of; rewrite lookup_cons; by rewrite list_lookup_fmap, Hi|].
  replace (1 + Z.of_nat (S i)) with (2 + Z.of_nat i) in Hf by lia.
  pose proof (t_inodes _ _ _ H) as Hin. unfold tree_of in Hin. cbn [length] in Hin. rewrite length_fmap in Hin. apply lookup_lt_Some in Hi as Hlt.
  destruct (mkfs_inum_ok (2 + Z.of_nat i)) as [_ Hb]; [lia|].
  apply (file_is_ext W); [done| | |exact image_used_data].
  - unfold dino at 1. rewrite HVW by lia. apply other_inode; [apply (t_img _ _ _ H)| |rewrite mkfs_sb_eq; cbn; lia|done|lia|change (1 ≠ 2 + Z.of_nat i); lia].
    destruct (t_file _ _ _ H 0%nat T_DIR (root_bytes files) eq_refl) as [Hr _]. apply (fi_ok _ _ _ _ Hr).
  - intros b Hb' Hb0. apply image_data. by apply (fo_data _ _ _ (fi_ok _ _ _ _ Hf)).
Qed.

Lemma image_file i f : files !! i = Some f → file_is V (2 + Z.of_nat i) T_FILE (content f).
Proof using H HVW. intros Hi. by apply image_file_blocks. Qed.

(** The root directory. *)
Lemma root_file : file_is W ROOTINO T_DIR (root_bytes files).
Proof using H. apply (t_file _ _ _ H 0%nat T_DIR (root_bytes files) eq_refl). Qed.
Lemma root_size : i_size root = 16 * (2 + Z.of_nat (length files)) ∧ i_size root ≤ i_size ipr ≤ 4096.
Proof using H Hv.
  pose proof (fi_size _ _ _ _ root_file) as Hs. rewrite length_root in Hs. pose proof (vf_inodes _ Hv) as Hi.
  assert (i_size root = 16 * (2 + Z.of_nat (length files))) as E by lia. split; [done|]. cbn [i_size upd_i_size]. change BSIZE with 1024.
  rewrite E. clear - Hi. set (n := Z.of_nat (length files)) in *. assert (0 ≤ n) by (unfold n; lia). clearbody n. Z.div_mod_to_equations. lia.
Qed.
Lemma image_root : dino Sb V ROOTINO = ipr.
Proof using H HVW Hv.
  destruct root_size as [_ Hsz]. destruct (mkfs_inum_ok ROOTINO) as [Hin Hb]; [done|].
  pose proof (file_dinode _ _ _ _ root_file ltac:(done)) as [D1 D2 D3 D4 D5 D6 D7].
  unfold dino at 1. rewrite HVW by lia. unfold rounded. rewrite (disk_inode Sb W ipr); [done| |apply (t_img _ _ _ H)|exact Hin].
  split; [exact D1|exact D2|exact D3|exact D4|lia|exact D6|exact D7].
Qed.
Lemma root_slots : slots V ipr = slots W root.
Proof using H HVW.
  unfold slots. cbn [i_addrs upd_i_size]. change (ind_of ipr) with (ind_of root). case_decide as E; [done|]. do 2 f_equal. apply image_data.
  apply (fo_data _ _ _ (fi_ok _ _ _ _ root_file)); [left|done].
Qed.
Lemma root_byte o : 0 ≤ o < MAXFILE * BSIZE → fbyte V ipr o = default 0 (root_bytes files !! Z.to_nat o).
Proof using H HVW.
  intros Ho. rewrite <-(fi_byte _ _ _ _ root_file) by done. unfold fbyte, blk. rewrite root_slots.
  destruct (slots W root !! _) as [b|] eqn:Eb; [|done]. case_decide; [done|]. rewrite image_data; [done|].
  apply (fo_data _ _ _ (fi_ok _ _ _ _ root_file)); [right; by eapply list_elem_of_lookup_2|done].
Qed.
(** With a full last block the size goes one block beyond the blocks. *)
(** The root directory has the blocks of its entries, and the size of one more. *)
Definition hole_after (D : Z → list Z) (ip : inode) (k : Z) : Prop :=
  i_size ip = (k + 1) * BSIZE ∧
  ∀ bn, 0 ≤ bn < MAXFILE → ∃ b, slots D ip !! Z.to_nat bn = Some b ∧ (b = 0 ↔ k ≤ bn).
Lemma root_hole : (2 + Z.of_nat (length files)) mod 64 = 0 → hole_after V ipr ((2 + Z.of_nat (length files)) / 64).
Proof using H HVW Hv.
  intros Hr. destruct root_size as [E Hsz]. numbers. pose proof (fi_pack _ _ _ _ root_file) as [Hp _]. rewrite <-(fi_size _ _ _ _ root_file) in Hp.
  set (k := (2 + Z.of_nat (length files)) / 64). assert (i_size root = k * BSIZE ∧ nblk (i_size root) = k) as (Ek & Hb).
  { unfold k, nblk. rewrite N8, E. clear - Hr. set (n := Z.of_nat (length files)) in *. assert (0 ≤ n) by (unfold n; lia). clearbody n. Z.div_mod_to_equations. lia. }
  split; [cbn [i_size upd_i_size]; rewrite Ek, Z.div_mul by lia; done|]. intros bn Hbn. rewrite root_slots, <-Hb. by apply Hp.
Qed.
Lemma hole_not_whole D ip k : hole_after D ip k → 0 ≤ k < MAXFILE → ¬ whole D ip.
Proof using Type.
  intros [Es Hs] Hk [_ Hno]. numbers. destruct (Hno (k * BSIZE)) as (b & Hb1 & Hb0); [lia|]. rewrite Z.div_mul in Hb1 by lia.
  destruct (Hs k Hk) as (c & Hc & Hc0). rewrite Hb1 in Hc. injection Hc as <-. lia.
Qed.

Context (Hr : (2 + Z.of_nat (length files)) mod 64 ≠ 0).
Lemma root_blocks : nblk (i_size ipr) = nblk (i_size root).
Proof using H Hv Hr.
  destruct root_size as [E _]. cbn [i_size upd_i_size]. unfold nblk. change BSIZE with 1024 in *.
  rewrite E. clear - Hr. set (n := Z.of_nat (length files)) in *. assert (0 ≤ n) by (unfold n; lia). clearbody n. Z.div_mod_to_equations. lia.
Qed.
Lemma root_dir : dir_ok Sb V ipr.
Proof using H HVW Hv Hr.
  destruct root_size as [E Hsz]. pose proof root_blocks as Hn. pose proof (fi_ok _ _ _ _ root_file) as [H1 H2 H3 H4]. numbers. split.
  - apply (fi_type _ _ _ _ root_file).
  - cbn [i_size upd_i_size]. change DIRENT_SIZE with 16. rewrite N8. Z.div_mod_to_equations. lia.
  - split; [exact H1|exact H2|by rewrite root_slots|]. rewrite root_slots. intros b Hb Hb0. destruct (H4 b Hb Hb0). split; [done|by apply image_used_data].
  - split; [lia|]. apply packed_no_holes; [|lia]. rewrite Hn. destruct (fi_pack _ _ _ _ root_file) as [P1 P2]. rewrite <-(fi_size _ _ _ _ root_file) in P1, P2.
    split; [by rewrite root_slots|exact P2].
Qed.
Lemma image_dirents : ∃ k, dirents V ipr = ((λ e, dirent_of e.2 e.1) <$> entries files) ++ replicate k (replicate 16 0).
Proof using H HVW Hv.
  destruct root_size as [E Hsz]. numbers. set (es := (λ e, dirent_of e.2 e.1) <$> entries files).
  assert (length es = (2 + length files)%nat) as Hl by (unfold es; by rewrite length_fmap, length_entries).
  assert (Forall (λ l, length l = 16%nat) es) as H16.
  { apply Forall_fmap, Forall_true. intros e. apply length_dirent_of. }
  set (N := i_size ipr / DIRENT_SIZE). assert (Z.of_nat (length es) ≤ N ∧ 16 * N ≤ 4096) as [HN HN'].
  { unfold N. change DIRENT_SIZE with 16. clear - E Hsz Hl. Z.div_mod_to_equations. lia. }
  exists (Z.to_nat N - length es)%nat. apply list_eq. intros j. unfold dirents. fold N. rewrite list_lookup_fmap.
  destruct (decide (j < Z.to_nat N)%nat) as [Hj|Hj].
  2:{ rewrite lookup_seqZ_ge by lia. symmetry. apply lookup_ge_None_2. rewrite length_app, length_replicate. lia. }
  rewrite lookup_seqZ_lt by lia. cbn [fmap option_fmap option_map]. rewrite Z.add_0_l. change DIRENT_SIZE with 16.
  assert (∀ i, (i < 16)%nat → fbytes V ipr (16 * Z.of_nat j) 16 !! i = Some (default 0 (es !! j ≫= (.!! i)))) as Hb.
  { intros i Hi. rewrite <-(Nat2Z.id i) at 1. rewrite fbytes_lookup by lia. rewrite root_byte by lia. unfold root_bytes. fold es.
    replace (Z.to_nat (16 * Z.of_nat j + Z.of_nat i)) with (16 * j + i)%nat by lia. by rewrite concat_lookup. }
  assert (length (fbytes V ipr (16 * Z.of_nat j) 16) = 16%nat) as Hlb by (by rewrite length_fbytes).
  destruct (decide (j < length es)%nat) as [Hje|Hje].
  - rewrite lookup_app_l by done. destruct (lookup_lt_is_Some_2 _ _ Hje) as [d Hd]. rewrite Hd. f_equal.
    pose proof (proj1 (Forall_lookup _ _) H16 _ _ Hd) as Hld. cbn beta in Hld. apply list_eq. intros i. destruct (decide (i < 16)%nat) as [Hi|Hi].
    + rewrite Hb, Hd by done. cbn. destruct (lookup_lt_is_Some_2 d i) as [x ->]; [lia|done].
    + rewrite !lookup_ge_None_2 by lia. done.
  - rewrite lookup_app_r by lia. rewrite lookup_replicate_2 by lia. f_equal. apply list_eq. intros i. destruct (decide (i < 16)%nat) as [Hi|Hi].
    + rewrite Hb by done. rewrite (lookup_ge_None_2 es) by lia. by rewrite lookup_replicate_2.
    + rewrite !lookup_ge_None_2; [done|by rewrite length_replicate; lia|lia].
Qed.

Lemma image_dir_map nm : dir_map V ipr nm = root_lookup files nm.
Proof using H HVW Hv.
  destruct image_dirents as [k Hd]. unfold dir_map, dir_find. rewrite Hd. apply find_entries.
  - intros e He. destruct (entry_no_nul files e (vf_nul _ Hv) (vf_inodes _ Hv) He). pose proof (vf_inodes _ Hv). split; [done|lia].
  - intros z Hz [Hb _]. apply elem_of_replicate in Hz as [-> _]. by apply Hb.
Qed.
Lemma root_lookup_live nm m : root_lookup files nm = Some m → live_upto files m.
Proof using Hv.
  unfold root_lookup. intros Hm. apply fmap_Some in Hm as ([j e] & He & ->). apply list_find_Some in He as (He & _).
  by apply (entry_no_nul files e (vf_nul _ Hv) (vf_inodes _ Hv)), list_elem_of_lookup_2 with j.
Qed.

Lemma live_cases n : live_upto files n → n = ROOTINO ∨ ∃ i f, files !! i = Some f ∧ n = 2 + Z.of_nat i.
Proof using Type.
  intros Hn. unfold live_upto in Hn. destruct (decide (n = 1)) as [->|Hne]; [by left|right].
  destruct (lookup_lt_is_Some_2 files (Z.to_nat (n - 2))) as [f Hf]; [lia|]. exists (Z.to_nat (n - 2)), f. split; [done|lia].
Qed.
Lemma image_blocks n : live_upto files n → blocks V n = blocks W n.
Proof using H HVW Hv.
  intros [->|(i & f & Hf & ->)]%live_cases; [|by apply image_file_blocks with f]. unfold blocks. by rewrite image_root, root_slots.
Qed.
Lemma image_apart m n b : live_upto files m → live_upto files n → m ≠ n → b ≠ 0 → b ∈ blocks V m → b ∉ blocks V n.
Proof using H HVW Hv.
  intros Hm Hn Hne Hb0. rewrite !image_blocks by done. unfold live_upto in *.
  assert (length (tree_of files) = S (length files)) as Hl by (unfold tree_of; cbn; by rewrite length_fmap).
  replace m with (1 + Z.of_nat (Z.to_nat (m - 1))) by lia. replace n with (1 + Z.of_nat (Z.to_nat (n - 1))) by lia. apply (t_apart _ _ _ H); [lia|lia|lia|done].
Qed.
Lemma image_holds : holds_files V files.
Proof using H HVW Hv Hr.
  split.
  - intros n Hn. rewrite image_used by done. rewrite (img_used s W); [by rewrite (t_cost _ _ _ H)|apply H|done].
  - split.
    + intros n [->|(i & f & Hf & ->)]%live_cases; [by rewrite image_root, (do_type _ _ _ root_dir)|by rewrite (fi_type _ _ _ _ (image_file i f Hf))].
    + intros n [->|(i & f & Hf & ->)]%live_cases; [rewrite image_root|by rewrite (fi_link _ _ _ _ (image_file i f Hf))].
      cbn [i_nlink upd_i_size]. by rewrite (fi_link _ _ _ _ root_file).
    + intros n [->|(i & f & Hf & ->)]%live_cases Ht; [rewrite image_root; apply root_dir|by rewrite (fi_type _ _ _ _ (image_file i f Hf)) in Ht].
    + intros n nm m [->|(i & f & Hf & ->)]%live_cases Ht; [|by rewrite (fi_type _ _ _ _ (image_file i f Hf)) in Ht].
      rewrite image_root, image_dir_map. apply root_lookup_live.
  - exact image_apart.
  - rewrite image_root. split; [apply (do_type _ _ _ root_dir)|exact image_dir_map].
  - intros i f Hf ip. pose proof (image_file i f Hf) as Hi. split_and!; [apply Hi|apply Hi|by eapply file_whole|by eapply file_bytes].
Qed.
End image.

(** ** Theorems *)

Lemma sealed_head s W files : tree_is s W (tree_of files) →
  rounded W 1 = superblock_bytes Sb ∧ ∀ n, 2 ≤ n < 32 → rounded W n = zeroes.
Proof. intros H. apply (head_inode W); [done|done|apply H]. Qed.
Lemma sealed_sized s W files : fits_files files → tree_is s W (tree_of files) → sized (rounded W).
Proof.
  intros Hv H. pose proof (io_size _ _ (t_img _ _ _ H)) as HV. unfold rounded, inode_V. apply sized_insert; [done|].
  destruct (dinode_off_bound ROOTINO) as [Ho1 Ho2]; [done|]. rewrite length_write_dinode; [apply HV|done| |].
  - rewrite HV. fs_consts. cbn [i_inum upd_i_size]. change (i_inum (dino Sb W ROOTINO)) with ROOTINO. lia.
  - apply (fi_ok _ _ _ _ (root_file s W files H)).
Qed.

(** C8: [mkfs] on files that fit ends, and writes an image of [FSSIZE] blocks with
    the superblock that describes it, an empty log, a bitmap that marks exactly
    the blocks in use, and a tree of directories that holds the files with their
    names and their bytes. *)
Theorem mkfs_spec files a b :
  valid_files files → ∃ s, mkfs files (Mk ∅ 0 a b) = Done tt s ∧ m_len s = FSSIZE ∧
    parse_superblock (sector s 1) = mkfs_sb ∧ layout mkfs_sb ∧ (∀ n, 2 ≤ n < 32 → sector s n = zeroes) ∧
    sized (sector s) ∧ holds_files (sector s) files.
Proof.
  intros Hv. assert (wp (mkfs files) (λ _ s, m_len s = FSSIZE ∧
    parse_superblock (sector s 1) = mkfs_sb ∧ layout mkfs_sb ∧ (∀ n, 2 ≤ n < 32 → sector s n = zeroes) ∧
    sized (sector s) ∧ holds_files (sector s) files) (Mk ∅ 0 a b)) as Hwp.
  { apply mkfs_wp; [apply Hv|]. intros s W s' H Hlen HW. destruct (sealed_head s W files H) as [H1 H2]. split_and!.
    - done.
    - rewrite HW, H1. vm_compute. reflexivity.
    - exact mkfs_layout.
    - intros n Hn. rewrite HW. by apply H2.
    - intros n. rewrite HW. by apply (sealed_sized s W files); [apply Hv|].
    - by apply (image_holds s W); [apply Hv|done|done|apply Hv]. }
  apply wp_elim in Hwp as ([] & s & Hrun & HR). exists s. exact (conj Hrun HR).
Qed.

(** C39: When the entries of the root directory fill its last block (62 files, for
    one), [mkfs] gives the directory the size of one block more than it has: for
    [k] full blocks of entries the size is that of [k + 1] blocks, the first [k]
    blocks are there and no other is.  The image has a directory with a hole. *)
Theorem mkfs_root_hole files a b :
  fits_files files → (2 + Z.of_nat (length files)) mod 64 = 0 →
  ∃ s, mkfs files (Mk ∅ 0 a b) = Done tt s ∧
    let ip := dino mkfs_sb (sector s) ROOTINO in
    i_type ip = T_DIR ∧ hole_after (sector s) ip ((2 + Z.of_nat (length files)) / 64) ∧ ¬ whole (sector s) ip.
Proof.
  intros Hv Hr. assert (wp (mkfs files) (λ _ s, let ip := dino mkfs_sb (sector s) ROOTINO in
    i_type ip = T_DIR ∧ hole_after (sector s) ip ((2 + Z.of_nat (length files)) / 64) ∧ ¬ whole (sector s) ip) (Mk ∅ 0 a b)) as Hwp.
  { apply mkfs_wp; [done|]. intros s W s' H Hlen HW. assert (∀ n, 32 ≤ n → sector s' n = rounded W n) as HVW by auto.
    cbv zeta. rewrite (image_root s W (sector s') files Hv H HVW). pose proof (root_hole s W (sector s') files Hv H HVW Hr) as Hh.
    split; [apply (fi_type _ _ _ _ (root_file s W files H))|]. split; [done|]. eapply hole_not_whole; [exact Hh|].
    pose proof (vf_inodes _ Hv). numbers. Z.div_mod_to_equations. lia. }
  apply wp_elim in Hwp as ([] & s & Hrun & HR). exists s. exact (conj Hrun HR).
Qed.
