(* ===== verification/MkfsBoot.v ===== *)
(** * From mkfs to the kernel

    The kernel boots from the image that mkfs wrote: [fsinit] accepts it, and a
    file that was put on the image is found by its name and read back. *)

From S2P Require Import Prelude Riscv Memory CString Kalloc Vm State Bytes Printf Sched Bio BioSpec Cache Log LogSpec Crash Txn Fs FsBlock FsFile FsInode FsWrite FsDir FsPath FsExamples Mkfs MkfsSpec MkfsTree MkfsThm.

(** Finding a file by its path, locking it and reading it whole. *)
Definition read_path {I : Image} `{SleepFuel} (me : nat) (path : list Z) : M kernel (Z * list Z) :=
  r ← namei me path;
  match r with Some i => ilock me (Some i) ;; readi me i DLocal 0 (MAXFILE * BSIZE) | None => mret (-1, []) end.

Section boot.
Context {I : Image} `{SleepFuel} (me : nat).

Lemma cache_sb pid k pin held V f : cache me pid k pin held V → cache me pid (upd_sb f k) pin held V.
Proof using Type. intros [[l Hl] C Hm]. split; [exists l; by apply (dll_bcache k)|exact C|exact Hm]. Qed.

Lemma readsb_wp pid k V (Q : unit → kernel → Prop) :
  cache me pid k ∅ ∅ V → (∀ k', bframe (upd_sb (λ _, parse_superblock (V 1)) k) k' → cache me pid k' ∅ ∅ V → Q tt k') → wp (readsb me ROOTDEV) Q k.
Proof using Type.
  intros Hc HQ. unfold readsb. wp_steps. eapply bread_wp; [exact Hc|done|right; rewrite map_size_empty, size_empty; fs_consts; lia|].
  intros b k1 F1 D1 C1. rewrite insert_empty in C1. wp_steps. eapply the_held_wp; [exact C1|apply lookup_singleton_eq|]. intros x _ _ Hx. rewrite Hx.
  wp_steps. eapply brelse_wp; [apply cache_sb, C1|apply lookup_singleton_eq| |].
  { right. cbn. rewrite D1. by apply (ci_disk _ _ _ _ _ _ (ca_inv _ _ _ _ _ _ Hc)). }
  intros k2 F2 D2 C2. rewrite delete_singleton_eq in C2. apply HQ; [|done]. etrans; [|exact F2].
  destruct F1 as [R P]. split; [|exact P]. rewrite R. by destruct k.
Qed.

(** The first process runs [fsinit]: the superblock is in memory, and what was
    committed before the last crash is on the disk. *)
Lemma fsinit_wp p kr B S (Q : unit → kernel → Prop) :
  let C := disk_block (Disk B []) in let ls := logstart S in
  power_on kr B → procs kr !! me = Some p → outstanding (klog kr) = 0 → committing (klog kr) = false →
  sized C → parse_superblock (C 1) = S → magic S = FSMAGIC → nlog S = LOGSIZE → 0 ≤ ls < 2 ^ 31 →
  0 ≤ s32 (get32 0 (C ls)) → log_wf ls (parse_header (C ls)) →
  (∀ k', idle me (p_pid p) ls k' → sb k' = S → itable k' = itable kr →
     (∀ n, n ≠ ls → disk_block (kdisk k') n = recovered ls C n) → Q tt k') →
  wp (binit ;; fsinit me ROOTDEV) Q kr.
Proof using Type.
  intros C ls [Hd Hlen Hfr Hlog] Hp Ho Hcm Hsz HS Hmag Hnl Hr Hn Hw HQ.
  assert (∀ n, disk_block (kdisk kr) n = C n) as HC by (intros n; unfold C, disk_block; by rewrite Hd).
  wp_step. eapply binit_wp; [done|done|intros n; rewrite HC; apply Hsz|exact Hp|done|]. intros k1 E1 C1.
  unfold fsinit. wp_step. eapply readsb_wp; [exact (cache_ext _ _ _ _ _ _ _ HC C1)|]. rewrite HS. intros k2 F2 C2. wp_steps.
  assert (sb k2 = S ∧ itable k2 = itable kr ∧ klog k2 = klog kr) as (Esb & Eit & Elog).
  { rewrite (bframe_sb _ _ F2), (bframe_itable _ _ F2), (bframe_klog _ _ F2), E1. done. }
  rewrite Esb, Hmag, Z.eqb_refl. cbn [negb]. eapply (initlog_cached_wp me); [exact C2|by rewrite Elog|done..|].
  intros k3 V3 bl C3 HV3 H0 Hbl Hk3 [Eit3 Esb3]. rewrite Elog in Hk3. apply HQ; [|congruence|congruence|].
  - split; rewrite ?Hk3; cbn; try done.
    + eapply cache_ext; [|exact C3]. intros n. symmetry. by eapply cache_clean.
    + by eapply log_wf_nil.
    + by rewrite Hnl.
    + by rewrite (cache_clean _ _ _ _ _ C3).
  - intros n Hne. rewrite (cache_clean _ _ _ _ _ C3). auto.
Qed.

(** ** Reading a file of the image *)

Lemma elems_name nm : 0 ∉ nm → slash ∉ nm → nm ≠ [] → elems (slash :: nm ++ [0]) = [take (Z.to_nat DIRSIZ) nm].
Proof using Type.
  intros H0 Hs Hn. unfold elems. change (slash :: nm ++ [0]) with ((slash :: nm) ++ [0]). rewrite cstr_app_nul.
  - rewrite parts_slash. rewrite <-(app_nil_r nm) at 1. rewrite parts_app; [done|done|done|by left].
  - intros c [->|Hc]%elem_of_cons; [done|]. by intros ->.
Qed.
Lemma root_lookup_nth files i f :
  NoDup ((λ e, take (Z.to_nat DIRSIZ) e.1) <$> entries files) → files !! i = Some f →
  root_lookup files (take (Z.to_nat DIRSIZ) (entry_name (hf_name f))) = Some (2 + Z.of_nat i).
Proof using Type.
  intros Hnd Hf. assert (entries files !! (2 + i)%nat = Some (entry_name (hf_name f), 2 + Z.of_nat i)) as He.
  { unfold entries. change (2 + i)%nat with (S (S i)). rewrite !lookup_cons, list_lookup_imap, Hf. done. }
  unfold root_lookup. erewrite (proj2 (list_find_Some _ _ (2 + i)%nat _)); [|split_and!; [exact He|done|]]; [done|].
  intros j e Hj Hlt Heq. assert (2 + i = j)%nat; [|lia]. eapply (NoDup_lookup _ (2 + i)%nat j _ Hnd).
  - rewrite list_lookup_fmap, He. done.
  - rewrite list_lookup_fmap, Hj. cbn [fmap option_fmap option_map]. by rewrite Heq.
Qed.

(** The file in the table entry is the one on disk. *)
Lemma same_readable S V a b : same_file a b → file_ok S V b → whole V b →
  file_ok S V a ∧ whole V a ∧ i_size a = i_size b ∧ ∀ off n, fbytes V a off n = fbytes V b off n.
Proof using Type.
  intros (Hd & _ & _ & Hs & Ha) [H1 H2 H3 H4] [Hw1 Hw2].
  assert (ind_of a = ind_of b ∧ slots V a = slots V b) as [Ei Es] by (unfold slots, ind_of; by rewrite Ha).
  split_and!; [|split|done|].
  - split; [congruence|congruence|by rewrite Ei, Es|by rewrite Ei, Es].
  - by rewrite Hs.
  - intros o. unfold no_holes in Hw2. rewrite Es, Hs. apply Hw2.
  - intros off n. unfold fbytes. apply list_fmap_ext. intros _ o _. unfold fbyte, blk. by rewrite Es.
Qed.

(** A file found by [namei] in a transaction, locked and read whole. *)
Lemma find_read_wp S pid k D hs V live path n m (Q : Z * list Z → kernel → Prop) :
  txn me pid (logstart S) k D hs ∅ V → (length hs < Z.to_nat NBUF)%nat → sb k = S → tree_ok S V live →
  table_ok S V live (itable k) → unlocked (itable k) → (2 ≤ nfree (itable k))%nat → starts me live k path n → 0 ∈ path →
  walk_path S V false n (elems path) = Some m → live m → file_ok S V (dino S V m) → whole V (dino S V m) →
  (∀ k', Q (i_size (dino S V m), fbytes V (dino S V m) 0 (i_size (dino S V m))) k') →
  wp (read_path me path) Q k.
Proof using Type.
  intros Ht Hl Hsb Htr Htb Hu Hn Hst H0 Hwalk Hlive Hf Hw HQ. unfold read_path. wp_step. unfold namei at 1. wp_steps.
  eapply (namex_wp me pid S (txn_read me pid S D hs V) V live Htr); [by apply txn_read_start|done|done|done|done|exact Hst|done|done|].
  intros [r nm] k1 Hwk. apply (walked_result me pid S D hs V live k false n) in Hwk as [(T1 & F1 & Htb1 & Hu1 & HR) _]. rewrite Hwalk in HR.
  destruct HR as (i & x & E & Hx & Hm & Hr & _). cbn [fst] in E. subst r. wp_step.
  pose proof (proj1 (Forall_lookup _ _) Htb1 _ _ Hx) as Hent. pose proof (proj1 (Forall_lookup _ _) Hu1 _ _ Hx) as Hul.
  destruct (loaded_same S V live x Hent ltac:(lia)) as (Hsame & _ & _ & _ & _). rewrite Hm in Hsame.
  destruct Hent as [_ Hent]. destruct (Hent ltac:(lia)) as (Hdev & _ & _).
  wp_step. eapply (ilock_wp me pid S (txn_read me pid S D hs V) V); [by apply txn_read_start| |exact Hx|done|exact Hul|done| |].
  { rewrite (bframe_sb _ _ F1). done. }
  { destruct Hsame as (_ & -> & _). by apply (tr_type _ _ _ Htr). }
  intros k2 F2 T2. set (y := locked pid S V x).
  assert (itable k2 !! i = Some y) as Hy by (rewrite (bframe_itable _ _ F2); by eapply lookup_seti).
  assert (same_file y (dino S V m)) as Hsy by exact Hsame.
  destruct (same_readable S V y _ Hsy Hf Hw) as (Hfy & Hwy & Esz & Eby). destruct Hw as [Hsz _].
  eapply (readi_wp me pid S (txn_read me pid S D hs V) V); [exact T2|exact Hy|done|done|done|done|done|done|].
  intros k3 F3 T3. unfold avail. rewrite Esz, Eby. rewrite Z.sub_0_r, Z.min_r, Z.max_r by lia. apply HQ.
Qed.
End boot.

(** A machine that was just switched on, with the inode table empty. *)
Record first_boot (me : nat) (kr : kernel) (B : gmap Z (list Z)) : Prop := {
  fb_power : power_on kr B;
  fb_proc : is_Some (procs kr !! me);
  fb_log : outstanding (klog kr) = 0 ∧ committing (klog kr) = false;
  fb_table : Forall (λ ip, i_ref ip = 0 ∧ sl_locked (i_lock ip) = false) (itable kr);
  fb_inodes : (2 ≤ length (itable kr))%nat;
}.

Lemma free_table S V live tbl : Forall (λ ip, i_ref ip = 0 ∧ sl_locked (i_lock ip) = false) tbl →
  table_ok S V live tbl ∧ unlocked tbl ∧ nfree tbl = length tbl.
Proof.
  intros HF. split_and!.
  - eapply Forall_impl; [exact HF|]. intros ip [Hr _]. split; lia.
  - eapply Forall_impl; [exact HF|]. by intros ip [_ ?].
  - unfold nfree. f_equal. induction HF as [|ip tbl [Hr _] HF IH]; [done|]. rewrite filter_cons_True by done. by rewrite IH.
Qed.

Lemma mkfs_tree files a b s : valid_files files → mkfs files (Mk ∅ 0 a b) = Done tt s →
  ∃ s0 W, tree_is s0 W (tree_of files) ∧ ∀ n, sector s n = rounded W n.
Proof.
  intros Hv. assert (wp (mkfs files) (λ _ s, ∃ s0 W, tree_is s0 W (tree_of files) ∧ ∀ n, sector s n = rounded W n) (Mk ∅ 0 a b)) as Hwp.
  { apply mkfs_wp; [apply Hv|]. intros s0 W s1 H1 _ HW. by exists s0, W. }
  apply wp_elim in Hwp as (u & s1 & Hrun' & Hwp). intros Hrun. rewrite Hrun in Hrun'. injection Hrun' as _ E. rewrite E. exact Hwp.
Qed.

(** What the first process sees after [fsinit] on the image of mkfs. *)
Lemma boot_image `{SleepFuel} me p files a b s kr (Q : unit → kernel → Prop) :
  valid_files files → mkfs files (Mk ∅ 0 a b) = Done tt s → first_boot me kr (m_img s) → procs kr !! me = Some p →
  (∀ k, idle me (p_pid p) (logstart mkfs_sb) k → sb k = mkfs_sb → itable k = itable kr → holds_files (disk_block (kdisk k)) files → Q tt k) →
  wp (binit ;; fsinit me ROOTDEV) Q kr.
Proof.
  intros Hv Hrun. destruct (mkfs_tree files a b s Hv Hrun) as (s0 & W & HT & HW). clear Hrun.
  intros [Hpo _ [Ho Hc] _ _] Hp HQ. destruct (sealed_head s0 W files HT) as [H1 H2].
  set (C := disk_block (Disk (m_img s) [])). assert (∀ n, C n = rounded W n) as HC by exact HW.
  assert (C 2 = zeroes) as H0 by (rewrite HC; by apply H2).
  eapply (fsinit_wp me p kr (m_img s) mkfs_sb); fold C; change (logstart mkfs_sb) with 2; rewrite ?H0; try done.
  - intros n. rewrite HC. by apply (sealed_sized s0 W files); [apply Hv|].
  - rewrite HC, H1. vm_compute. reflexivity.
  - change (parse_header zeroes) with (@nil Z). split; [vm_compute; split; [discriminate|reflexivity]|fs_consts; cbn; lia|set_solver|constructor].
  - intros k Hi Hsb Hit Hdisk. apply HQ; [done|done|done|]. eapply (image_holds s0 W); [apply Hv|done| |apply Hv].
    intros n Hn. rewrite Hdisk by lia. unfold recovered. rewrite H0. apply HC.
Qed.

Lemma entry_no_slash nm : 47 ∉ shortname nm → 47 ∉ entry_name nm.
Proof. unfold entry_name. destruct (shortname nm) as [|c l]; [done|]. case_if E; set_solver. Qed.

Lemma boot_read_wp {I : Image} `{SleepFuel} me files a b s kr i f (Q : Z * list Z → kernel → Prop) :
  valid_files files → NoDup ((λ e, take (Z.to_nat DIRSIZ) e.1) <$> entries files) →
  mkfs files (Mk ∅ 0 a b) = Done tt s → first_boot me kr (m_img s) → files !! i = Some f → entry_name (hf_name f) ≠ [] →
  (∀ k, Q (Z.of_nat (length (content f)), content f) k) →
  wp (binit ;; fsinit me ROOTDEV ;; begin_op me ;; read_path me (slash :: entry_name (hf_name f) ++ [0])) Q kr.
Proof.
  intros Hv Hnd Hrun Hfb. destruct (fb_proc _ _ _ Hfb) as [p Hp]. pose proof (λ Q, boot_image me p files a b s kr Q Hv Hrun Hfb Hp) as Hboot. clear Hrun.
  intros Hf Hne HQ. set (nm := entry_name (hf_name f)) in *.
  destruct (free_table mkfs_sb (λ _, []) (λ _, True) _ (fb_table _ _ _ Hfb)) as (_ & Hu & Hnf). pose proof (fb_inodes _ _ _ Hfb) as Hin.
  assert (f ∈ files) as Hff by (by eapply list_elem_of_lookup_2).
  assert (0 ∉ nm ∧ 47 ∉ nm) as [H0 H47].
  { split; [|by apply entry_no_slash, (vf_slash _ Hv)].
    destruct (entry_no_nul files (nm, 2 + Z.of_nat i) (vf_nul _ Hv) (vf_inodes _ Hv)) as [? _]; [|done].
    unfold entries. do 2 right. apply elem_of_lookup_imap. by exists i, f. }
  assert (wp (binit ;; fsinit me ROOTDEV) (λ _ k, wp (begin_op me ;; read_path me (slash :: nm ++ [0])) Q k) kr) as Hwp.
  2:{ apply wp_bind_inv in Hwp. apply wp_bind. eapply wp_mono; [exact Hwp|]. intros [] k Hk. by apply wp_bind. }
  apply Hboot. intros k Hi Hsb Hit [_ Htr _ [Ht Hroot] Hfile].
  destruct (Hfile i f Hf) as (Hty & Hok & Hw & Hb). wp_step. eapply begin_op_wp; [exact Hi|].
  assert (Z.of_nat (length (content f)) = i_size (dino mkfs_sb (disk_block (kdisk k)) (2 + Z.of_nat i))) as Hlen.
  { rewrite <-Hb. destruct Hw as [? _]. rewrite length_fbytes by lia. lia. }
  rewrite Hlen, <-Hb in HQ. destruct (free_table mkfs_sb (disk_block (kdisk k)) (live_upto files) _ (fb_table _ _ _ Hfb)) as (Htb & _ & _).
  pose proof (lookup_lt_Some _ _ _ Hf) as Hlt.
  eapply (find_read_wp me mkfs_sb (p_pid p) _ _ _ _ _ _ ROOTINO); [by apply txn_begun|fs_consts; cbn; lia|exact Hsb|exact Htr|..].
  - change (itable (begun k)) with (itable k). by rewrite Hit.
  - change (itable (begun k)) with (itable k). by rewrite Hit.
  - change (itable (begun k)) with (itable k). by rewrite Hit, Hnf.
  - unfold starts. change (default 0 (head (slash :: nm ++ [0])) =? slash) with true. split; [done|]. unfold live_upto. change ROOTINO with 1. lia.
  - set_solver.
  - rewrite elems_name by done. cbn [walk_path]. rewrite decide_True by done. cbn [andb]. rewrite Hroot. unfold nm. rewrite (root_lookup_nth files i f Hnd Hf). done.
  - unfold live_upto. lia.
  - exact Hok.
  - exact Hw.
  - exact HQ.
Qed.

(** ** Theorems *)

(** C7: A file that mkfs was given is there after the first boot: [fsinit] accepts the
    image, [namei] finds the file under its name, and [readi] delivers exactly
    its bytes. *)
Theorem mkfs_boot_read {I : Image} `{SleepFuel} me files a b s kr i f :
  valid_files files → NoDup ((λ e, take (Z.to_nat DIRSIZ) e.1) <$> entries files) →
  mkfs files (Mk ∅ 0 a b) = Done tt s → first_boot me kr (m_img s) → files !! i = Some f → entry_name (hf_name f) ≠ [] →
  ∃ k, (binit ;; fsinit me ROOTDEV ;; begin_op me ;; read_path me (slash :: entry_name (hf_name f) ++ [0])) kr =
    Done (Z.of_nat (length (content f)), content f) k.
Proof.
  intros Hv Hnd Hrun Hfb Hf Hne.
  pose proof (boot_read_wp me files a b s kr i f (λ r _, r = (Z.of_nat (length (content f)), content f)) Hv Hnd Hrun Hfb Hf Hne (λ k, eq_refl)) as Hwp.
  apply wp_elim in Hwp as (r & k & Hk & Hr). exists k. rewrite Hk, Hr. reflexivity.
Qed.

(** ** An image with one program *)

(** [user/_a], which holds [hi]. *)
Definition demo_hostfile : hostfile := HostFile [117; 115; 101; 114; 47; 95; 97] (Some [[104; 105]]).
Lemma demo_files : valid_files [demo_hostfile].
Proof.
  split; [|vm_compute; discriminate]. split; [intros f ->%list_elem_of_singleton..|done|vm_compute; discriminate].
  - by eexists.
  - apply (bool_decide_unpack _). vm_compute. exact I.
  - apply (bool_decide_unpack _). vm_compute. exact I.
  - vm_compute. discriminate.
Qed.
Definition demo_slot : inode := Inode 0 0 0 (Sleeplock false 0) false 0 0 0 0 0 (replicate 13 0).
Definition demo_machine (B : gmap Z (list Z)) : kernel :=
  Kernel (Machine ∅ 0) [demo_p] (Some 0%nat) 8 [] ∅ (replicate 4 demo_slot)
    (BufCache (replicate 30 (Buf false 0 0 (Sleeplock false 0) 0 None None [])) None None)
    (LogSt 0 0 0 false 0 0 (replicate 30 0)) mkfs_sb (Disk B []) 0
    (Conss [] 0 0 0) (UartSt (replicate 32 0) 0 0 false [] []).
Lemma demo_first_boot B : first_boot 0 (demo_machine B) B.
Proof.
  split; [|by eexists|done|by repeat constructor|cbn; lia]. split; [done|done|apply Forall_replicate; done|done].
Qed.
Lemma demo_mkfs : ∃ s, mkfs [demo_hostfile] (Mk ∅ 0 0 0) = Done tt s.
Proof.
  assert (wp (mkfs [demo_hostfile]) (λ _ _, True) (Mk ∅ 0 0 0)) as Hwp by (apply mkfs_wp; [exact (vf_fits _ demo_files)|]; intros; exact I).
  apply wp_elim in Hwp as ([] & s & Hs & _). exists s. exact Hs.
Qed.

Lemma mkfs_spec_witness : ∃ s, mkfs [demo_hostfile] (Mk ∅ 0 0 0) = Done tt s ∧ m_len s = 2000.
Proof.
  destruct (mkfs_spec [demo_hostfile] 0 0 demo_files) as (s & Hs & Hl & _). exists s. exact (conj Hs Hl).
Defined.
Lemma mkfs_boot_read_witness : ∃ s k,
  mkfs [demo_hostfile] (Mk ∅ 0 0 0) = Done tt s ∧
  (binit ;; fsinit 0 ROOTDEV ;; begin_op 0 ;; read_path 0 [47; 97; 0]) (demo_machine (m_img s)) = Done (2, [104; 105]) k.
Proof.
  destruct demo_mkfs as [s Hs]. destruct (mkfs_boot_read 0 [demo_hostfile] 0 0 s (demo_machine (m_img s)) 0 demo_hostfile) as [k Hk];
    [exact demo_files|apply (bool_decide_unpack _); vm_compute; exact I|exact Hs|exact (demo_first_boot (m_img s))|reflexivity|discriminate|].
  exists s, k. split; [exact Hs|exact Hk].
Defined.

(** 62 empty files. *)
Definition demo_empty : hostfile := HostFile [101] (Some []).
Lemma demo_many : fits_files (replicate 62 demo_empty).
Proof.
  split; [intros f [-> _]%elem_of_replicate..|done|vm_compute; discriminate].
  - by eexists.
  - apply (bool_decide_unpack _). vm_compute. exact I.
  - apply (bool_decide_unpack _). vm_compute. exact I.
  - vm_compute. discriminate.
Qed.
Lemma mkfs_root_hole_witness : ∃ s, mkfs (replicate 62 demo_empty) (Mk ∅ 0 0 0) = Done tt s ∧
  let ip := dino mkfs_sb (sector s) ROOTINO in
  i_type ip = T_DIR ∧ i_size ip = 2048 ∧ slots (sector s) ip !! 1%nat = Some 0 ∧ ¬ whole (sector s) ip.
Proof.
  destruct (mkfs_root_hole (replicate 62 demo_empty) 0 0 demo_many) as (s & Hs & Ht & [Hz Hh] & Hw); [vm_compute; reflexivity|]. exists s.
  split; [exact Hs|]. cbv zeta. split; [exact Ht|]. split; [exact Hz|]. split; [|exact Hw].
  clear Hs Ht Hz Hw. destruct (Hh 1) as (b & Hb & Hb0); [clear; split; [lia|vm_compute; reflexivity]|]. change (Z.to_nat 1) with 1%nat in Hb. rewrite Hb. f_equal. apply Hb0. clear. vm_compute. discriminate.
Defined.
