(* ===== verification/Virtio.v ===== *)
(** * The disk driver

    [kernel/virtio_disk.c]: the descriptors and rings the driver shares with the
    device, [virtio_disk_rw], which [bread] and [bwrite] call, and the interrupt
    handler.

    The driver's code runs with [vdisk_lock] held, but the device runs all the
    time: a [__sync_synchronize] is a point where the device may have made any
    number of steps ([fence]).  The structures are as the driver lays them out in
    memory; the address of one of them is symbolic. *)

From S2P Require Import Prelude Riscv Memory CString Kalloc State Bytes.

Definition NUM : Z := 8.
Definition VRING_DESC_F_NEXT : Z := 1.
Definition VRING_DESC_F_WRITE : Z := 2.
Definition VIRTIO_BLK_T_IN : Z := 0.
Definition VIRTIO_BLK_T_OUT : Z := 1.

(** What a descriptor points to: nothing, [disk.ops[i]], [b->data],
    [disk.info[i].status]. *)
Inductive daddr := ANull | AOp (i : Z) | AData (b : nat) | AStatus (i : Z).

(** [struct virtq_desc]. *)
Record virtq_desc := VDesc {
  d_addr : daddr;
  d_len : Z;
  d_flags : Z;
  d_next : Z;
}.
Definition upd_d_addr (f : daddr → daddr) (x : virtq_desc) : virtq_desc :=
  VDesc (f (d_addr x)) (d_len x) (d_flags x) (d_next x).
Definition upd_d_len (f : Z → Z) (x : virtq_desc) : virtq_desc :=
  VDesc (d_addr x) (f (d_len x)) (d_flags x) (d_next x).
Definition upd_d_flags (f : Z → Z) (x : virtq_desc) : virtq_desc :=
  VDesc (d_addr x) (d_len x) (f (d_flags x)) (d_next x).
Definition upd_d_next (f : Z → Z) (x : virtq_desc) : virtq_desc :=
  VDesc (d_addr x) (d_len x) (d_flags x) (f (d_next x)).

(** [struct virtio_blk_req]. *)
Record virtio_blk_req := BlkReq {
  r_type : Z;
  r_reserved : Z;
  r_sector : Z;
}.
Definition upd_r_type (f : Z → Z) (x : virtio_blk_req) : virtio_blk_req :=
  BlkReq (f (r_type x)) (r_reserved x) (r_sector x).
Definition upd_r_reserved (f : Z → Z) (x : virtio_blk_req) : virtio_blk_req :=
  BlkReq (r_type x) (f (r_reserved x)) (r_sector x).
Definition upd_r_sector (f : Z → Z) (x : virtio_blk_req) : virtio_blk_req :=
  BlkReq (r_type x) (r_reserved x) (f (r_sector x)).

(** An entry of [disk.info]. *)
Record dinfo := DInfo {
  in_b : option nat;
  in_status : Z;
}.
Definition upd_in_b (f : (option nat) → (option nat)) (x : dinfo) : dinfo :=
  DInfo (f (in_b x)) (in_status x).
Definition upd_in_status (f : Z → Z) (x : dinfo) : dinfo :=
  DInfo (in_b x) (f (in_status x)).

(** The fields of [struct buf] that the driver and the device use. *)
Record vbuf := VBuf {
  vb_blockno : Z;
  vb_data : list Z;
  vb_disk : Z;   (** does disk 'own' buf? *)
}.
Definition upd_vb_blockno (f : Z → Z) (x : vbuf) : vbuf :=
  VBuf (f (vb_blockno x)) (vb_data x) (vb_disk x).
Definition upd_vb_data (f : (list Z) → (list Z)) (x : vbuf) : vbuf :=
  VBuf (vb_blockno x) (f (vb_data x)) (vb_disk x).
Definition upd_vb_disk (f : Z → Z) (x : vbuf) : vbuf :=
  VBuf (vb_blockno x) (vb_data x) (f (vb_disk x)).

(** The device: how far it has read the avail ring, the chains it works on, the disk image by byte, the interrupt status register and whether it has been notified. *)
Record hwst := HwSt {
  h_seen : Z;
  h_pending : list Z;
  h_image : Z → Z;
  h_istatus : Z;
  h_notify : bool;
}.
Definition upd_h_seen (f : Z → Z) (x : hwst) : hwst :=
  HwSt (f (h_seen x)) (h_pending x) (h_image x) (h_istatus x) (h_notify x).
Definition upd_h_pending (f : (list Z) → (list Z)) (x : hwst) : hwst :=
  HwSt (h_seen x) (f (h_pending x)) (h_image x) (h_istatus x) (h_notify x).
Definition upd_h_image (f : (Z → Z) → (Z → Z)) (x : hwst) : hwst :=
  HwSt (h_seen x) (h_pending x) (f (h_image x)) (h_istatus x) (h_notify x).
Definition upd_h_istatus (f : Z → Z) (x : hwst) : hwst :=
  HwSt (h_seen x) (h_pending x) (h_image x) (f (h_istatus x)) (h_notify x).
Definition upd_h_notify (f : bool → bool) (x : hwst) : hwst :=
  HwSt (h_seen x) (h_pending x) (h_image x) (h_istatus x) (f (h_notify x)).

(** The variable [disk] with the two rings and the descriptors it points to, the buffers, the processes asleep in [sleep] and the device. *)
Record vst := VSt {
  desc : list virtq_desc;
  avail_idx : Z;   (** avail->idx *)
  avail_ring : list Z;   (** avail->ring *)
  uidx : Z;   (** used->idx *)
  uring : list (Z * Z);   (** used->ring: id and len *)
  dfree : list bool;   (** free[NUM] *)
  used_idx : Z;   (** how far we have looked in used *)
  info : list dinfo;
  ops : list virtio_blk_req;
  vbufs : list vbuf;
  asleep : gmap nat chan;
  hw : hwst;
}.
Definition upd_desc (f : (list virtq_desc) → (list virtq_desc)) (x : vst) : vst :=
  VSt (f (desc x)) (avail_idx x) (avail_ring x) (uidx x) (uring x) (dfree x) (used_idx x) (info
    x) (ops x) (vbufs x) (asleep x) (hw x).
Definition upd_avail_idx (f : Z → Z) (x : vst) : vst :=
  VSt (desc x) (f (avail_idx x)) (avail_ring x) (uidx x) (uring x) (dfree x) (used_idx x) (info
    x) (ops x) (vbufs x) (asleep x) (hw x).
Definition upd_avail_ring (f : (list Z) → (list Z)) (x : vst) : vst :=
  VSt (desc x) (avail_idx x) (f (avail_ring x)) (uidx x) (uring x) (dfree x) (used_idx x) (info
    x) (ops x) (vbufs x) (asleep x) (hw x).
Definition upd_uidx (f : Z → Z) (x : vst) : vst :=
  VSt (desc x) (avail_idx x) (avail_ring x) (f (uidx x)) (uring x) (dfree x) (used_idx x) (info
    x) (ops x) (vbufs x) (asleep x) (hw x).
Definition upd_uring (f : (list (Z * Z)) → (list (Z * Z))) (x : vst) : vst :=
  VSt (desc x) (avail_idx x) (avail_ring x) (uidx x) (f (uring x)) (dfree x) (used_idx x) (info
    x) (ops x) (vbufs x) (asleep x) (hw x).
Definition upd_dfree (f : (list bool) → (list bool)) (x : vst) : vst :=
  VSt (desc x) (avail_idx x) (avail_ring x) (uidx x) (uring x) (f (dfree x)) (used_idx x) (info
    x) (ops x) (vbufs x) (asleep x) (hw x).
Definition upd_used_idx (f : Z → Z) (x : vst) : vst :=
  VSt (desc x) (avail_idx x) (avail_ring x) (uidx x) (uring x) (dfree x) (f (used_idx x)) (info
    x) (ops x) (vbufs x) (asleep x) (hw x).
Definition upd_info (f : (list dinfo) → (list dinfo)) (x : vst) : vst :=
  VSt (desc x) (avail_idx x) (avail_ring x) (uidx x) (uring x) (dfree x) (used_idx x) (f (info
    x)) (ops x) (vbufs x) (asleep x) (hw x).
Definition upd_ops (f : (list virtio_blk_req) → (list virtio_blk_req)) (x : vst) : vst :=
  VSt (desc x) (avail_idx x) (avail_ring x) (uidx x) (uring x) (dfree x) (used_idx x) (info x)
    (f (ops x)) (vbufs x) (asleep x) (hw x).
Definition upd_vbufs (f : (list vbuf) → (list vbuf)) (x : vst) : vst :=
  VSt (desc x) (avail_idx x) (avail_ring x) (uidx x) (uring x) (dfree x) (used_idx x) (info x)
    (ops x) (f (vbufs x)) (asleep x) (hw x).
Definition upd_asleep (f : (gmap nat chan) → (gmap nat chan)) (x : vst) : vst :=
  VSt (desc x) (avail_idx x) (avail_ring x) (uidx x) (uring x) (dfree x) (used_idx x) (info x)
    (ops x) (vbufs x) (f (asleep x)) (hw x).
Definition upd_hw (f : hwst → hwst) (x : vst) : vst :=
  VSt (desc x) (avail_idx x) (avail_ring x) (uidx x) (uring x) (dfree x) (used_idx x) (info x)
    (ops x) (vbufs x) (asleep x) (f (hw x)).


(** ** Access *)

Section vaccess.
Context {T : Type} (tbl : vst → list T) (upd : (list T → list T) → vst → vst).
Definition vat (i : Z) : M vst T :=
  l ← gets tbl;
  match (if i <? 0 then None else l !! Z.to_nat i) with Some x => mret x | None => fault "index" end.
Definition vset (i : Z) (f : T → T) : M vst unit :=
  x ← vat i; modify (upd (λ l, <[Z.to_nat i := f x]> l)).
End vaccess.
Definition set_vbuf (b : nat) : (vbuf → vbuf) → M vst unit := vset vbufs upd_vbufs (Z.of_nat b).

(** [sleep] gives up the lock, and returns when [wakeup] has removed the caller
    from the processes asleep. *)
Definition vsleep (me : nat) (ch : chan) : M vst unit :=
  modify (upd_asleep (λ m, <[me := ch]> m)) ;; sleep_on ch.
Definition vwakeup (ch : chan) : M vst unit := modify (upd_asleep (filter (λ x, x.2 ≠ ch))).
Definition fence : M vst unit := sleep_on ChNull.

(** ** Descriptors *)

Definition alloc_desc : M vst Z :=
  l ← gets dfree;
  match list_find (λ f, f = true) l with
  | Some (i, _) => modify (upd_dfree (λ l, <[i := false]> l)) ;; mret (Z.of_nat i)
  | None => mret (-1)
  end.

Definition free_desc (i : Z) : M vst unit :=
  if NUM <=? i then panic "free_desc 1"
  else
    f ← vat dfree i;
    if (f : bool) then panic "free_desc 2"
    else
      vset desc upd_desc i (λ _, VDesc ANull 0 0 0) ;;
      vset dfree upd_dfree i (λ _, true) ;;
      vwakeup ChDiskFree.

Definition free_chain (i : Z) : M vst unit :=
  loopM (S (Z.to_nat NUM)) (λ i,
    d ← vat desc i;
    free_desc i ;;
    if negb (Z.land (d_flags d) VRING_DESC_F_NEXT =? 0) then mret (inl (d_next d)) else mret (inr tt)) i.

(** The result and the array [idx]. *)
Definition alloc3_desc : M vst (Z * list Z) :=
  loopM 4 (λ '(i, idx),
    if i <? 3 then
      d ← alloc_desc;
      if d <? 0 then forM idx free_desc ;; mret (inr (-1, idx)) else mret (inl (i + 1, idx ++ [d]))
    else mret (inr (0, idx))) (0, []).

(** ** virtio_disk_rw *)

Section driver.
Context `{SleepFuel} (me : nat).

Definition rw_alloc_body (_ : unit) : M vst (unit + Z * Z * Z) :=
  '(r, idx) ← alloc3_desc;
  match (if r =? 0 then idx else []) with
  | [i0; i1; i2] => mret (inr (i0, i1, i2))
  | _ => vsleep me ChDiskFree ;; mret (inl tt)
  end.
Definition rw_alloc : M vst (Z * Z * Z) := loopM sleep_fuel rw_alloc_body tt.

Definition rw_format (b : nat) (write : bool) (idx : Z * Z * Z) : M vst unit :=
  let '(i0, i1, i2) := idx in
  x ← vat vbufs (Z.of_nat b);
  let sector := u32 (vb_blockno x * (BSIZE / 512)) in
  vset ops upd_ops i0 (λ _, BlkReq (if write then VIRTIO_BLK_T_OUT else VIRTIO_BLK_T_IN) 0 sector) ;;
  vset desc upd_desc i0 (λ _, VDesc (AOp i0) 16 VRING_DESC_F_NEXT i1) ;;
  vset desc upd_desc i1 (λ _, VDesc (AData b) BSIZE (Z.lor (if write then 0 else VRING_DESC_F_WRITE) VRING_DESC_F_NEXT) i2) ;;
  vset info upd_info i0 (upd_in_status (λ _, 0xff)) ;;
  vset desc upd_desc i2 (λ _, VDesc (AStatus i0) 1 VRING_DESC_F_WRITE 0) ;;
  set_vbuf b (upd_vb_disk (λ _, 1)) ;;
  vset info upd_info i0 (upd_in_b (λ _, Some b)) ;;
  a ← gets avail_idx;
  vset avail_ring upd_avail_ring (a mod NUM) (λ _, u16 i0).

Definition rw_wait_body (b : nat) (_ : unit) : M vst (unit + unit) :=
  x ← vat vbufs (Z.of_nat b);
  if vb_disk x =? 1 then vsleep me (ChBuf b) ;; mret (inl tt) else mret (inr tt).
Definition rw_wait (b : nat) : M vst unit := loopM sleep_fuel (rw_wait_body b) tt.

Definition rw_finish (i0 : Z) : M vst unit :=
  vset info upd_info i0 (upd_in_b (λ _, None)) ;;
  free_chain i0.

(** Writing [VIRTIO_MMIO_QUEUE_NOTIFY]. *)
Definition notify : M vst unit := modify (upd_hw (upd_h_notify (λ _, true))).

Definition virtio_disk_rw (b : nat) (write : bool) : M vst unit :=
  idx ← rw_alloc;
  rw_format b write idx ;;
  fence ;;
  modify (upd_avail_idx (λ n, u16 (n + 1))) ;;
  fence ;;
  notify ;;
  rw_wait b ;;
  rw_finish idx.1.1.
End driver.

(** ** The interrupt handler *)

(** The loop body after its fence; [n] is the index of the entry. *)
Definition intr_entry (n : Z) : M vst (unit + unit) :=
  e ← vat uring (n mod NUM);
  let id := e.1 in
  i ← vat info id;
  if negb (in_status i =? 0) then panic "virtio_disk_intr status"
  else
    match in_b i with
    | Some b =>
        set_vbuf b (upd_vb_disk (λ _, 0)) ;;
        vwakeup (ChBuf b) ;;
        modify (upd_used_idx (λ n, u16 (n + 1))) ;;
        mret (inl tt)
    | None => fault "null pointer"
    end.
Definition intr_body (_ : unit) : M vst (unit + unit) :=
  n ← gets used_idx;
  m ← gets uidx;
  if n =? m then mret (inr tt) else fence ;; intr_entry n.

Definition virtio_disk_intr : M vst unit :=
  modify (upd_hw (upd_h_istatus (λ v, Z.land v (Z.lnot (Z.land v 3))))) ;;
  fence ;;
  loopM (S (Z.to_nat NUM)) intr_body tt.

(** ** virtio_disk_init *)

Definition VIRTIO_MMIO_MAGIC_VALUE : Z := 0x000.
Definition VIRTIO_MMIO_VERSION : Z := 0x004.
Definition VIRTIO_MMIO_DEVICE_ID : Z := 0x008.
Definition VIRTIO_MMIO_VENDOR_ID : Z := 0x00c.
Definition VIRTIO_MMIO_DEVICE_FEATURES : Z := 0x010.
Definition VIRTIO_MMIO_DRIVER_FEATURES : Z := 0x020.
Definition VIRTIO_MMIO_QUEUE_SEL : Z := 0x030.
Definition VIRTIO_MMIO_QUEUE_NUM_MAX : Z := 0x034.
Definition VIRTIO_MMIO_QUEUE_NUM : Z := 0x038.
Definition VIRTIO_MMIO_QUEUE_READY : Z := 0x044.
Definition VIRTIO_MMIO_STATUS : Z := 0x070.
Definition VIRTIO_MMIO_QUEUE_DESC_LOW : Z := 0x080.
Definition VIRTIO_MMIO_QUEUE_DESC_HIGH : Z := 0x084.
Definition VIRTIO_MMIO_DRIVER_DESC_LOW : Z := 0x090.
Definition VIRTIO_MMIO_DRIVER_DESC_HIGH : Z := 0x094.
Definition VIRTIO_MMIO_DEVICE_DESC_LOW : Z := 0x0a0.
Definition VIRTIO_MMIO_DEVICE_DESC_HIGH : Z := 0x0a4.

Definition VIRTIO_CONFIG_S_ACKNOWLEDGE : Z := 1.
Definition VIRTIO_CONFIG_S_DRIVER : Z := 2.
Definition VIRTIO_CONFIG_S_DRIVER_OK : Z := 4.
Definition VIRTIO_CONFIG_S_FEATURES_OK : Z := 8.

(** The feature bits the driver turns down, in the order of the source. *)
Definition unwanted : list Z := [5; 7; 11; 12; 27; 29; 28].

(** The state of [virtio_disk_init]: memory, the register writes so far, the three
    pages and [free]. *)
Record vboot := VBoot { bo_mach : machine; bo_regs : list (Z * Z); bo_desc : Z; bo_avail : Z; bo_used : Z; bo_free : list bool }.

Section init.
Context {I : Image}.
(** What the device answers to a read of a register after the given writes. *)
Context (mmio : list (Z * Z) → Z → Z).

Definition rd (r : Z) : M vboot Z := l ← gets bo_regs; mret (u32 (mmio l r)).
Definition wr (r v : Z) : M vboot unit :=
  modify (λ s, VBoot (bo_mach s) (bo_regs s ++ [(r, u32 v)]) (bo_desc s) (bo_avail s) (bo_used s) (bo_free s)).
Definition vkalloc : M vboot Z :=
  zoom bo_mach (λ m s, VBoot m (bo_regs s) (bo_desc s) (bo_avail s) (bo_used s) (bo_free s)) kalloc.
Definition vmemset0 (p : Z) : M vboot unit :=
  modify (λ s, VBoot (set_ram (memset p 0 PGSIZE) (bo_mach s)) (bo_regs s) (bo_desc s) (bo_avail s) (bo_used s) (bo_free s)).

(** The queue memory and the last registers; [status] is the status so far. *)
Definition init_queue (status : Z) : M vboot unit :=
  dp ← vkalloc;
  ap ← vkalloc;
  up ← vkalloc;
  modify (λ s, VBoot (bo_mach s) (bo_regs s) dp ap up (bo_free s)) ;;
  if (dp =? 0) || (ap =? 0) || (up =? 0) then panic "virtio disk kalloc"
  else
    vmemset0 dp ;;
    vmemset0 ap ;;
    vmemset0 up ;;
    wr VIRTIO_MMIO_QUEUE_NUM NUM ;;
    wr VIRTIO_MMIO_QUEUE_DESC_LOW dp ;;
    wr VIRTIO_MMIO_QUEUE_DESC_HIGH (Z.shiftr dp 32) ;;
    wr VIRTIO_MMIO_DRIVER_DESC_LOW ap ;;
    wr VIRTIO_MMIO_DRIVER_DESC_HIGH (Z.shiftr ap 32) ;;
    wr VIRTIO_MMIO_DEVICE_DESC_LOW up ;;
    wr VIRTIO_MMIO_DEVICE_DESC_HIGH (Z.shiftr up 32) ;;
    wr VIRTIO_MMIO_QUEUE_READY 1 ;;
    modify (λ s, VBoot (bo_mach s) (bo_regs s) (bo_desc s) (bo_avail s) (bo_used s) (replicate (Z.to_nat NUM) true)) ;;
    let status := Z.lor status VIRTIO_CONFIG_S_DRIVER_OK in
    wr VIRTIO_MMIO_STATUS status.

Definition virtio_disk_init : M vboot unit :=
  a ← rd VIRTIO_MMIO_MAGIC_VALUE;
  b ← rd VIRTIO_MMIO_VERSION;
  c ← rd VIRTIO_MMIO_DEVICE_ID;
  d ← rd VIRTIO_MMIO_VENDOR_ID;
  if negb (a =? 0x74726976) || negb (b =? 2) || negb (c =? 2) || negb (d =? 0x554d4551) then panic "could not find virtio disk"
  else
    let status := 0 in
    wr VIRTIO_MMIO_STATUS status ;;
    let status := Z.lor status VIRTIO_CONFIG_S_ACKNOWLEDGE in
    wr VIRTIO_MMIO_STATUS status ;;
    let status := Z.lor status VIRTIO_CONFIG_S_DRIVER in
    wr VIRTIO_MMIO_STATUS status ;;
    features ← rd VIRTIO_MMIO_DEVICE_FEATURES;
    let features := foldl (λ f k, Z.land f (Z.lnot (Z.shiftl 1 k))) features unwanted in
    wr VIRTIO_MMIO_DRIVER_FEATURES features ;;
    let status := Z.lor status VIRTIO_CONFIG_S_FEATURES_OK in
    wr VIRTIO_MMIO_STATUS status ;;
    status ← rd VIRTIO_MMIO_STATUS;
    if Z.land status VIRTIO_CONFIG_S_FEATURES_OK =? 0 then panic "virtio disk FEATURES_OK unset"
    else
      wr VIRTIO_MMIO_QUEUE_SEL 0 ;;
      ready ← rd VIRTIO_MMIO_QUEUE_READY;
      if negb (ready =? 0) then panic "virtio disk should not be ready"
      else
        max ← rd VIRTIO_MMIO_QUEUE_NUM_MAX;
        if max =? 0 then panic "virtio disk has no queue 0"
        else if max <? NUM then panic "virtio disk max queue too short"
        else
          init_queue status.
End init.

(** The variable [disk] afterwards: the pages it points to and its own fields are
    zero, except [free]. *)
Definition v_init (bufs : list vbuf) (img : Z → Z) : vst :=
  VSt (replicate 8 (VDesc ANull 0 0 0)) 0 (replicate 8 0) 0 (replicate 8 (0, 0)) (replicate 8 true) 0
    (replicate 8 (DInfo None 0)) (replicate 8 (BlkReq 0 0 0)) bufs ∅ (HwSt 0 [] img 0 false).
