(* ===== verification/VirtioSpec.v ===== *)
(** * The disk driver and the device together

    The processes in [virtio_disk_rw], the interrupt handler and the device as one
    system of steps, and the proof that it behaves like a disk on which each
    operation happens at one instant between the call and the return. *)

From S2P Require Import Prelude Riscv Memory CString Kalloc State Bytes Virtio.

(** ** The device *)

Definition image_read (img : Z → Z) (a len : Z) : list Z := img <$> seqZ a len.
Definition image_write (img : Z → Z) (a : Z) (l : list Z) : Z → Z :=
  λ x, if decide (a ≤ x < a + Z.of_nat (length l)) then l !!! Z.to_nat (x - a) else img x.

(** The transfer that the chain with head [h] describes, ending with status [st],
    and the buffer it is about; [None] when it is not a chain of a request header,
    a block and a status.  The bytes are those of the source, or [junk] when the
    transfer went wrong. *)
Definition dev_move (st : Z) (junk : option (list Z)) (h : Z) (s : vst) : option (nat * vst) :=
  d0 ← desc s !! Z.to_nat h;
  d1 ← desc s !! Z.to_nat (d_next d0);
  d2 ← desc s !! Z.to_nat (d_next d1);
  match d_addr d0, d_addr d1, d_addr d2 with
  | AOp i, AData b, AStatus j =>
      r ← ops s !! Z.to_nat i;
      x ← vbufs s !! b;
      let s1 := upd_info (alter (upd_in_status (λ _, st)) (Z.to_nat j)) s in
      let len := Z.to_nat (d_len d1) in
      if negb ((d_len d0 =? 16) && Z.testbit (d_flags d0) 0 && Z.testbit (d_flags d1) 0 &&
               negb (Z.testbit (d_flags d2) 0) && Z.testbit (d_flags d2) 1 && (d_len d2 =? 1)) then None
      else if (r_type r =? VIRTIO_BLK_T_OUT) && negb (Z.testbit (d_flags d1) 1) then
        let bytes := take len (default (vb_data x) junk) in
        Some (b, upd_hw (upd_h_image (λ img, image_write img (512 * r_sector r) bytes)) s1)
      else if (r_type r =? VIRTIO_BLK_T_IN) && Z.testbit (d_flags d1) 1 then
        let bytes := take len (default (image_read (h_image (hw s)) (512 * r_sector r) (d_len d1)) junk) in
        Some (b, upd_vbufs (alter (upd_vb_data (splice 0 bytes)) b) s1)
      else None
  | _, _, _ => None
  end.
(** The transfer, with a status of 0. *)
Definition dev_xfer (h : Z) (s : vst) : option vst := snd <$> dev_move 0 None h s.

(** The chain is put on the used ring, and the interrupt line raised. *)
Definition dev_push (h len : Z) (s : vst) : vst :=
  upd_hw (λ w, upd_h_istatus (λ v, Z.lor v 1) (upd_h_pending (λ p, filter (λ x, x ≠ h) p) w))
  (upd_uidx (λ n, u16 (n + 1)) (upd_uring (λ r, <[Z.to_nat (uidx s mod NUM) := (h, len)]> r) s)).

(** The other values of the status byte: a device or driver error, and a request
    that the device does not support. *)
Definition VIRTIO_BLK_S_IOERR : Z := 1.
Definition VIRTIO_BLK_S_UNSUPP : Z := 2.

(** What the virtio specification says of a device: it takes chains off the avail
    ring, completes those it has taken in any order, and may stop looking at the
    ring when it has seen all of it.  A request may also fail: then the device
    writes another status, and nothing is said of the bytes it was to move.  Of a
    malformed chain nothing is said.  A step is labelled with the buffer of the
    request that fails. *)
Inductive dev_spec (s : vst) : option nat → vst → Prop :=
| dev_fetch h : h_seen (hw s) ≠ avail_idx s → avail_ring s !! Z.to_nat (h_seen (hw s) mod NUM) = Some h →
    dev_spec s None (upd_hw (λ w, upd_h_seen (λ n, u16 (n + 1)) (upd_h_pending (λ p, p ++ [h]) w)) s)
| dev_done h len s1 : h ∈ h_pending (hw s) → dev_xfer h s = Some s1 → dev_spec s None (dev_push h len s1)
| dev_fail h len st junk b s1 : h ∈ h_pending (hw s) → st = VIRTIO_BLK_S_IOERR ∨ st = VIRTIO_BLK_S_UNSUPP →
    length junk = Z.to_nat BSIZE → dev_move st (Some junk) h s = Some (b, s1) → dev_spec s (Some b) (dev_push h len s1)
| dev_undefined h o s' : h ∈ h_pending (hw s) → dev_xfer h s = None → dev_spec s o s'
| dev_rest : h_seen (hw s) = avail_idx s → dev_spec s None (upd_hw (upd_h_notify (λ _, false)) s).

Class Device := {
  dev_step : vst → option nat → vst → Prop;
  dev_doc : ∀ s o s', dev_step s o s' → dev_spec s o s';
}.

(** ** The system *)

(** A process inside [virtio_disk_rw(b, w)], with the rest of its run. *)
Record thread := Thread { t_b : nat; t_w : bool; t_k : vst → outcome vst unit }.
(** [holder]: the process that has [vdisk_lock] at a fence; [intr]: the rest of
    the interrupt handler, which then has the lock. *)
Record vsys := VSys { vs : vst; thr : gmap nat thread; holder : option nat; intr : option (vst → outcome vst unit) }.

(** [LFail b]: the device reports that the operation on buffer [b] has failed. *)
Inductive label := LCall (t b : nat) (w : bool) | LRet (t : nat) | LClient (b : nat) (n : Z) (d : list Z) | LFail (b : nat).

Section system.
Context `{SleepFuel} `{Device}.

(** A process has run until its next fence, [sleep] or return. *)
Inductive settle (c : vsys) (t b : nat) (w : bool) : outcome vst unit → list label → vsys → Prop :=
| st_fence s k : settle c t b w (Sleep ChNull s k) [] (VSys s (<[t := Thread b w k]> (thr c)) (Some t) (intr c))
| st_sleep ch s k : ch ≠ ChNull → settle c t b w (Sleep ch s k) [] (VSys s (<[t := Thread b w k]> (thr c)) None (intr c))
| st_done s : settle c t b w (Done tt s) [LRet t] (VSys s (delete t (thr c)) None (intr c)).

Definition runnable (c : vsys) (t : nat) : Prop :=
  holder c = Some t ∨ holder c = None ∧ intr c = None ∧ asleep (vs c) !! t = None.
Definition unused (c : vsys) (b : nat) : Prop := ∀ t th, thr c !! t = Some th → t_b th ≠ b.

(** Callers hold the sleep-lock of the buffer, so no two use the same one, and
    its contents change only by its holder. *)
Inductive sys_step (c : vsys) : list label → vsys → Prop :=
| s_call t b w x :
    thr c !! t = None → unused c b → vbufs (vs c) !! b = Some x →
    sys_step c [LCall t b w] (VSys (vs c) (<[t := Thread b w (virtio_disk_rw t b w)]> (thr c)) (holder c) (intr c))
| s_run t th ls c' :
    thr c !! t = Some th → runnable c t → settle c t (t_b th) (t_w th) (t_k th (vs c)) ls c' → sys_step c ls c'
| s_interrupt :
    holder c = None → intr c = None → h_istatus (hw (vs c)) ≠ 0 → sys_step c [] (VSys (vs c) (thr c) None (Some virtio_disk_intr))
| s_handler k s k' : intr c = Some k → k (vs c) = Sleep ChNull s k' → sys_step c [] (VSys s (thr c) (holder c) (Some k'))
| s_handled k s : intr c = Some k → k (vs c) = Done tt s → sys_step c [] (VSys s (thr c) (holder c) None)
| s_device o s : dev_step (vs c) o s → sys_step c (LFail <$> option_list o) (VSys s (thr c) (holder c) (intr c))
| s_client b x n d :
    unused c b → vbufs (vs c) !! b = Some x → 0 ≤ n < 2 ^ 31 → length d = Z.to_nat BSIZE →
    sys_step c [LClient b n d] (VSys (upd_vbufs (<[b := VBuf n d (vb_disk x)]>) (vs c)) (thr c) (holder c) (intr c)).

(** The runs of the system, with what its clients see. *)
Inductive sys_run (c : vsys) : list label → vsys → Prop :=
| sr_nil : sys_run c [] c
| sr_step tr c1 ls c2 : sys_run c tr c1 → sys_step c1 ls c2 → sys_run c (tr ++ ls) c2.
End system.

(** ** The disk as its clients see it *)

(** An operation has yet to happen, has happened, or has failed. *)
Inductive stage := Waiting | Happened | Failed.
(** The buffers, the image, and the operations in progress. *)
Record adisk := ADisk { a_bufs : list (Z * list Z); a_img : Z → Z; a_ops : gmap nat (nat * bool * stage) }.

(** A write of [d] to block [n], or a read of [d] from it. *)
Definition a_move (b : nat) (w : bool) (n : Z) (d : list Z) (a : adisk) : adisk :=
  if w then ADisk (a_bufs a) (image_write (a_img a) (BSIZE * n) d) (a_ops a)
  else ADisk (<[b := (n, d)]> (a_bufs a)) (a_img a) (a_ops a).
Definition a_exec (b : nat) (w : bool) (n : Z) (d : list Z) (a : adisk) : adisk :=
  a_move b w n (if w then d else image_read (a_img a) (BSIZE * n) BSIZE) a.
Definition a_set (t : nat) (o : nat * bool * stage) (a : adisk) : adisk := ADisk (a_bufs a) (a_img a) (<[t := o]> (a_ops a)).

(** An operation that fails leaves its buffer or its block, and no other, with any
    contents, and does not return. *)
Inductive a_step (a : adisk) : list label → adisk → Prop :=
| as_call t b w : a_ops a !! t = None → (∀ t' o, a_ops a !! t' = Some o → o.1.1 ≠ b) → a_step a [LCall t b w] (a_set t (b, w, Waiting) a)
| as_exec t b w n d : a_ops a !! t = Some (b, w, Waiting) → a_bufs a !! b = Some (n, d) → a_step a [] (a_set t (b, w, Happened) (a_exec b w n d a))
| as_ret t b w : a_ops a !! t = Some (b, w, Happened) → a_step a [LRet t] (ADisk (a_bufs a) (a_img a) (delete t (a_ops a)))
| as_fail t b w n d junk : a_ops a !! t = Some (b, w, Waiting) → a_bufs a !! b = Some (n, d) → length junk = Z.to_nat BSIZE →
    a_step a [LFail b] (a_set t (b, w, Failed) (a_move b w n junk a))
| as_client b n d : (∀ t o, a_ops a !! t = Some o → o.1.1 ≠ b) →
    a_step a [LClient b n d] (ADisk (<[b := (n, d)]> (a_bufs a)) (a_img a) (a_ops a)).
Inductive a_run (a : adisk) : list label → adisk → Prop :=
| ar_nil : a_run a [] a
| ar_step tr a1 ls a2 : a_run a tr a1 → a_step a1 ls a2 → a_run a (tr ++ ls) a2.
