(* ===== verification/VirtioProof.v ===== *)
(** * The disk driver: invariant and refinement

    The invariant of the system of [VirtioSpec] and the proof that its runs are
    runs of the disk that the clients see. *)

From S2P Require Import Prelude Riscv Memory CString Kalloc State Bytes Virtio VirtioSpec.

Lemma vst_ext s s' :
  desc s = desc s' → avail_idx s = avail_idx s' → avail_ring s = avail_ring s' → uidx s = uidx s' → uring s = uring s' →
  dfree s = dfree s' → used_idx s = used_idx s' → info s = info s' → ops s = ops s' → vbufs s = vbufs s' →
  asleep s = asleep s' → hw s = hw s' → s = s'.
Proof. destruct s, s'. cbn. intros. by subst. Qed.

Lemma list_insert_alter_Some {A} (f : A → A) (l : list A) i x : l !! i = Some x → <[i := f x]> l = alter f i l.
Proof. revert i. induction l as [|y l IH]; intros [|i] Hi; cbn in *; simplify_eq; [done|]. f_equal. by apply IH. Qed.

(** ** The blocks of code *)

Section vaccess_wp.
Context {T : Type} (tbl : vst → list T) (upd : (list T → list T) → vst → vst).
Lemma vat_wp i x (Q : T → vst → Prop) s : 0 ≤ i → tbl s !! Z.to_nat i = Some x → Q x s → wp (vat tbl i) Q s.
Proof. intros Hi Hx HQ. unfold vat. wp_steps. rewrite (proj2 (Z.ltb_ge i 0)), Hx by lia. by wp_step. Qed.
Lemma vset_wp i x f (Q : unit → vst → Prop) s :
  0 ≤ i → tbl s !! Z.to_nat i = Some x → Q tt (upd (λ l, <[Z.to_nat i := f x]> l) s) → wp (vset tbl upd i f) Q s.
Proof. intros Hi Hx HQ. unfold vset. wp_step. eapply vat_wp; [done..|]. by wp_step. Qed.
End vaccess_wp.

(** The lengths of the arrays. *)
Record vlens (s : vst) : Prop := {
  l_desc : length (desc s) = 8%nat;
  l_avail : length (avail_ring s) = 8%nat;
  l_uring : length (uring s) = 8%nat;
  l_free : length (dfree s) = 8%nat;
  l_info : length (info s) = 8%nat;
  l_ops : length (ops s) = 8%nat;
}.
Definition idx8 (i : Z) : Prop := 0 ≤ i < 8.
Lemma idx8_lookup {A} (l : list A) i : length l = 8%nat → idx8 i → is_Some (l !! Z.to_nat i).
Proof. intros Hl Hi. apply lookup_lt_is_Some_2. unfold idx8 in *. lia. Qed.

Definition freed (i : Z) (s : vst) : vst :=
  upd_asleep (filter (λ x, x.2 ≠ ChDiskFree))
  (upd_dfree (<[Z.to_nat i := true]>) (upd_desc (<[Z.to_nat i := VDesc ANull 0 0 0]>) s)).
Lemma free_desc_wp i (Q : unit → vst → Prop) s :
  vlens s → idx8 i → dfree s !! Z.to_nat i = Some false → Q tt (freed i s) → wp (free_desc i) Q s.
Proof.
  intros Hl Hi Hf HQ. unfold free_desc. rewrite (proj2 (Z.leb_gt NUM i)) by (unfold NUM, idx8 in *; lia).
  destruct (idx8_lookup (desc s) i (l_desc _ Hl) Hi) as [d Hd].
  wp_step. eapply vat_wp; [apply Hi|exact Hf|]. cbv iota. wp_step. eapply vset_wp; [apply Hi|exact Hd|].
  wp_step. eapply vset_wp; [apply Hi|exact Hf|]. by apply wp_modify.
Qed.
Lemma vlens_freed i s : vlens s → vlens (freed i s).
Proof. intros []. split; cbn; rewrite ?length_insert; done. Qed.

Lemma alloc_desc_wp (Q : Z → vst → Prop) s :
  (∀ i, dfree s !! i = Some true → Q (Z.of_nat i) (upd_dfree (<[i := false]>) s)) →
  ((∀ i, dfree s !! i ≠ Some true) → Q (-1) s) → wp alloc_desc Q s.
Proof.
  intros Hok Hno. unfold alloc_desc. wp_step. wp_step. destruct (list_find _ _) as [[i x]|] eqn:E.
  - apply list_find_Some in E as (Hi & -> & _). wp_steps. by apply Hok.
  - wp_step. apply Hno. intros i Hi. apply list_find_None in E. rewrite Forall_lookup in E. by apply (E i true).
Qed.

(** Fewer than three descriptors are free. *)
Definition few (l : list bool) : Prop :=
  ∀ i0 i1 i2, NoDup [i0; i1; i2] → l !! i0 = Some true → l !! i1 = Some true → l !! i2 ≠ Some true.
(** What an [alloc3_desc] that fails may have changed. *)
Record undone (s s' : vst) : Prop := {
  u_same : s' = upd_asleep (λ _, asleep s') (upd_desc (λ _, desc s') s);
  u_len : length (desc s') = length (desc s);
  u_desc : ∀ i, dfree s !! i = Some false → desc s' !! i = desc s !! i;
  u_asleep : asleep s' ⊆ asleep s;
}.
Definition taken (i0 i1 i2 : nat) (s : vst) : vst :=
  upd_dfree (λ l, <[i2 := false]> (<[i1 := false]> (<[i0 := false]> l))) s.

Lemma freed_undone i s : dfree s !! i = Some true → undone s (freed (Z.of_nat i) (upd_dfree (<[i := false]>) s)).
Proof.
  intros Hi. unfold freed. rewrite Nat2Z.id. split; cbn.
  - destruct s; cbn in *. unfold upd_asleep, upd_dfree, upd_desc; cbn. f_equal. rewrite list_insert_insert_eq. by apply list_insert_id.
  - by rewrite length_insert.
  - intros j Hj. rewrite list_lookup_insert_ne; [done|]. congruence.
  - apply map_filter_subseteq.
Qed.
Lemma undone_trans s1 s2 s3 : undone s1 s2 → undone s2 s3 → undone s1 s3.
Proof.
  intros [E1 L1 D1 A1] [E2 L2 D2 A2].
  assert (dfree s2 = dfree s1) as Hf by (rewrite E1; done). split.
  - rewrite E2, E1. by destruct s1.
  - congruence.
  - intros i Hi. rewrite D2; [by apply D1|]. by rewrite Hf.
  - by etrans.
Qed.
Lemma undone_refl s : undone s s.
Proof. split; [by destruct s|done..]. Qed.
Lemma freed_taken i j s :
  i ≠ j → freed (Z.of_nat i) (upd_dfree (<[j := false]>) s) = upd_dfree (<[j := false]>) (freed (Z.of_nat i) s).
Proof.
  intros Hij. unfold freed. rewrite Nat2Z.id. destruct s. unfold upd_asleep, upd_dfree, upd_desc; cbn. f_equal.
  by apply list_insert_insert_ne.
Qed.
Lemma freed_dfree i j s : i ≠ j → dfree (freed (Z.of_nat i) s) !! j = dfree s !! j.
Proof. intros Hij. unfold freed. rewrite Nat2Z.id. cbn. by rewrite list_lookup_insert_ne. Qed.

Lemma idx8_nat s i x : vlens s → dfree s !! i = Some x → idx8 (Z.of_nat i).
Proof. intros Hl Hi. apply lookup_lt_Some in Hi. rewrite (l_free _ Hl) in Hi. unfold idx8. lia. Qed.
Lemma vlens_taken i b s : vlens s → vlens (upd_dfree (<[i := b]>) s).
Proof. intros []. split; cbn; rewrite ?length_insert; done. Qed.

Lemma alloc3_wp (Q : Z * list Z → vst → Prop) s :
  vlens s →
  (∀ i0 i1 i2, NoDup [i0; i1; i2] → dfree s !! i0 = Some true → dfree s !! i1 = Some true → dfree s !! i2 = Some true →
     Q (0, [Z.of_nat i0; Z.of_nat i1; Z.of_nat i2]) (taken i0 i1 i2 s)) →
  (∀ idx s', undone s s' → few (dfree s) → Q (-1, idx) s') → wp alloc3_desc Q s.
Proof.
  intros Hl Hok Hno. unfold alloc3_desc. cbn [loopM]. wp_step. change (0 <? 3) with true. cbv iota. wp_step.
  apply alloc_desc_wp.
  2:{ intros Hall. change (-1 <? 0) with true. cbv iota. cbn [forM]. wp_steps. apply Hno; [apply undone_refl|].
      intros a b c _ Ha. by destruct (Hall a). }
  intros i0 H0. rewrite (proj2 (Z.ltb_ge _ 0)) by lia. wp_step. change (0 + 1 <? 3) with true. cbv iota. wp_step.
  set (s1 := upd_dfree (<[i0 := false]>) s) in *. assert (vlens s1) as Hl1 by by apply vlens_taken. wp_step.
  apply alloc_desc_wp.
  2:{ intros Hall. change (-1 <? 0) with true. cbv iota. cbn [forM app]. wp_step. wp_step.
      apply free_desc_wp; [done|exact (idx8_nat s i0 true Hl H0)|rewrite Nat2Z.id; cbn; apply list_lookup_insert_eq; by eapply lookup_lt_Some|].
      wp_steps. apply Hno; [by apply freed_undone|]. intros a b c Hnd Ha Hb _.
      assert (∀ x, dfree s !! x = Some true → x = i0) as Hu.
      { intros x Hx. destruct (decide (x = i0)) as [|Hne]; [done|]. destruct (Hall x). cbn. by rewrite list_lookup_insert_ne. }
      rewrite (Hu a Ha), (Hu b Hb) in Hnd. apply NoDup_cons in Hnd as [Hn _]. set_solver. }
  intros i1 H1. rewrite (proj2 (Z.ltb_ge _ 0)) by lia. wp_step. change (0 + 1 + 1 <? 3) with true. cbv iota. wp_step.
  assert (i1 ≠ i0) as H10.
  { intros ->. cbn in H1. rewrite list_lookup_insert_eq in H1 by (by eapply lookup_lt_Some). done. }
  assert (dfree s !! i1 = Some true) as H1s by (cbn in H1; by rewrite list_lookup_insert_ne in H1).
  set (s2 := upd_dfree (<[i1 := false]>) s1) in *. assert (vlens s2) as Hl2 by by apply vlens_taken. wp_step.
  apply alloc_desc_wp.
  - intros i2 H2. rewrite (proj2 (Z.ltb_ge _ 0)) by lia. wp_step. change (0 + 1 + 1 + 1 <? 3) with false. cbv iota. wp_step. wp_step.
    assert (i2 ≠ i1 ∧ i2 ≠ i0) as [H21 H20].
    { split; intros ->; cbn in H2; [|rewrite list_lookup_insert_ne in H2 by done];
        rewrite list_lookup_insert_eq in H2 by (rewrite ?length_insert; by eapply lookup_lt_Some); done. }
    cbn in H2. rewrite !list_lookup_insert_ne in H2 by done.
    apply (Hok i0 i1 i2); [|done..]. repeat constructor; set_solver.
  - intros Hall. change (-1 <? 0) with true. cbv iota. cbn [forM app]. wp_step. wp_step.
    pose proof (idx8_nat s i0 true Hl H0) as Hi0. pose proof (idx8_nat s i1 true Hl H1s) as Hi1.
    assert (dfree s1 !! i0 = Some false) as F0 by (cbn; apply list_lookup_insert_eq; by eapply lookup_lt_Some).
    apply free_desc_wp; [done|done|rewrite Nat2Z.id; cbn; rewrite list_lookup_insert_ne by done; exact F0|]. wp_step.
    apply free_desc_wp; [by apply vlens_freed|done|rewrite Nat2Z.id, freed_dfree by done; cbn; apply list_lookup_insert_eq; by eapply lookup_lt_Some|].
    wp_steps. apply Hno.
    + apply (undone_trans s (freed (Z.of_nat i0) s1)); [by apply freed_undone|]. unfold s2. rewrite freed_taken by done.
      apply freed_undone. rewrite freed_dfree by done. exact H1.
    + assert (∀ x, dfree s !! x = Some true → x = i0 ∨ x = i1) as Hu.
      { intros x Hx. destruct (decide (x = i0)) as [|Hne]; [by left|]. destruct (decide (x = i1)) as [|Hne1]; [by right|].
        destruct (Hall x). cbn. by rewrite !list_lookup_insert_ne. }
      intros a b c Hnd Ha Hb Hc. destruct (Hu a Ha) as [->| ->], (Hu b Hb) as [->| ->], (Hu c Hc) as [->| ->];
        repeat (apply NoDup_cons in Hnd as [? Hnd]); set_solver.
Qed.

(** ** Chains *)

Definition head_desc (i0 i1 : Z) : virtq_desc := VDesc (AOp i0) 16 VRING_DESC_F_NEXT i1.
Definition data_desc (b : nat) (w : bool) (i2 : Z) : virtq_desc :=
  VDesc (AData b) BSIZE (Z.lor (if w then 0 else VRING_DESC_F_WRITE) VRING_DESC_F_NEXT) i2.
Definition status_desc (i0 : Z) : virtq_desc := VDesc (AStatus i0) 1 VRING_DESC_F_WRITE 0.
Definition request (w : bool) (n : Z) : virtio_blk_req :=
  BlkReq (if w then VIRTIO_BLK_T_OUT else VIRTIO_BLK_T_IN) 0 (u32 (n * (BSIZE / 512))).

(** The descriptors [idx] of an operation on buffer [b]. *)
Notation idx3 := (Z * Z * Z)%type.
Definition members (idx : idx3) : list Z := [idx.1.1; idx.1.2; idx.2].
Record chain (s : vst) (b : nat) (w : bool) (idx : idx3) : Prop := {
  ch_range : Forall idx8 (members idx);
  ch_nodup : NoDup (members idx);
  ch_head : desc s !! Z.to_nat idx.1.1 = Some (head_desc idx.1.1 idx.1.2);
  ch_data : desc s !! Z.to_nat idx.1.2 = Some (data_desc b w idx.2);
  ch_status : desc s !! Z.to_nat idx.2 = Some (status_desc idx.1.1);
  ch_op : ∃ x, vbufs s !! b = Some x ∧ ops s !! Z.to_nat idx.1.1 = Some (request w (vb_blockno x));
  ch_info : in_b <$> info s !! Z.to_nat idx.1.1 = Some (Some b);
}.

Lemma chain_idx s b w idx : chain s b w idx → idx8 idx.1.1 ∧ idx8 idx.1.2 ∧ idx8 idx.2.
Proof. intros Hc. pose proof (ch_range _ _ _ _ Hc) as Hr. unfold members in Hr. by decompose_Forall. Qed.
Lemma chain_ne s b w idx : chain s b w idx → idx.1.1 ≠ idx.1.2 ∧ idx.1.1 ≠ idx.2 ∧ idx.1.2 ≠ idx.2.
Proof.
  intros Hc. pose proof (ch_nodup _ _ _ _ Hc) as Hn. unfold members in Hn.
  apply NoDup_cons in Hn as [H1 Hn]. apply NoDup_cons in Hn as [H2 _]. set_solver.
Qed.
Lemma to_nat_ne i j : idx8 i → idx8 j → i ≠ j → Z.to_nat i ≠ Z.to_nat j.
Proof. unfold idx8. lia. Qed.

(** A chain depends only on its own descriptors and its buffer. *)
Lemma chain_ext s s' b w idx :
  chain s b w idx → (∀ i, i ∈ members idx → desc s' !! Z.to_nat i = desc s !! Z.to_nat i) →
  ops s' !! Z.to_nat idx.1.1 = ops s !! Z.to_nat idx.1.1 →
  vb_blockno <$> vbufs s' !! b = vb_blockno <$> vbufs s !! b →
  in_b <$> info s' !! Z.to_nat idx.1.1 = in_b <$> info s !! Z.to_nat idx.1.1 → chain s' b w idx.
Proof.
  intros [H1 H2 H3 H4 H5 (x & Hx & H6) H7] Hd Ho Hb Hi. unfold members in Hd. split; try done.
  - rewrite Hd; [done|set_solver].
  - rewrite Hd; [done|set_solver].
  - rewrite Hd; [done|set_solver].
  - rewrite Hx in Hb. destruct (vbufs s' !! b) as [y|]; [|done]. exists y. split; [done|]. rewrite Ho, H6. do 2 f_equal. cbn in Hb. congruence.
  - by rewrite Hi.
Qed.

Definition has_next (d : virtq_desc) : bool := negb (Z.land (d_flags d) VRING_DESC_F_NEXT =? 0).
Lemma next_head i0 i1 : has_next (head_desc i0 i1) = true.
Proof. done. Qed.
Lemma next_data b w i2 : has_next (data_desc b w i2) = true.
Proof. by destruct w. Qed.
Lemma next_status i0 : has_next (status_desc i0) = false.
Proof. done. Qed.

Lemma free_chain_wp s0 s b w idx (Q : unit → vst → Prop) :
  vlens s → chain s0 b w idx → desc s = desc s0 → (∀ i, i ∈ members idx → dfree s !! Z.to_nat i = Some false) →
  Q tt (freed idx.2 (freed idx.1.2 (freed idx.1.1 s))) → wp (free_chain idx.1.1) Q s.
Proof.
  intros Hl Hc Hd Hf HQ. destruct (chain_idx _ _ _ _ Hc) as (I0 & I1 & I2). destruct (chain_ne _ _ _ _ Hc) as (N1 & N2 & N3).
  destruct idx as [[i0 i1] i2]. cbn [fst snd] in *. unfold members in Hf. cbn [fst snd] in Hf.
  pose proof (to_nat_ne _ _ I0 I1 N1). pose proof (to_nat_ne _ _ I0 I2 N2). pose proof (to_nat_ne _ _ I1 I2 N3).
  destruct Hc as [_ _ C0 C1 C2 _ _]. rewrite <-Hd in *. cbn [fst snd] in C0, C1, C2.
  unfold free_chain. change (S (Z.to_nat NUM)) with 9%nat. cbn [loopM].
  wp_step. wp_step. eapply vat_wp; [apply I0|exact C0|]. wp_step. apply free_desc_wp; [done|done|apply Hf; set_solver|].
  fold (has_next (head_desc i0 i1)). rewrite next_head. wp_step. wp_step. wp_step.
  eapply vat_wp; [apply I1|cbn; rewrite list_lookup_insert_ne by done; exact C1|]. wp_step.
  apply free_desc_wp; [by apply vlens_freed|done|cbn; rewrite list_lookup_insert_ne by done; apply Hf; set_solver|].
  fold (has_next (data_desc b w i2)). rewrite next_data. wp_step. wp_step. wp_step.
  eapply vat_wp; [apply I2|cbn; rewrite !list_lookup_insert_ne by done; exact C2|]. wp_step.
  apply free_desc_wp; [by apply vlens_freed, vlens_freed|done|cbn; rewrite !list_lookup_insert_ne by done; apply Hf; set_solver|].
  fold (has_next (status_desc i0)). rewrite next_status. wp_step. wp_step. exact HQ.
Qed.

Definition formatted (b : nat) (w : bool) (n : Z) (idx : idx3) (s : vst) : vst :=
  let '(i0, i1, i2) := idx in
  upd_avail_ring (<[Z.to_nat (avail_idx s mod NUM) := i0]>)
  (upd_info (<[Z.to_nat i0 := DInfo (Some b) 255]>)
  (upd_vbufs (alter (upd_vb_disk (λ _, 1)) b)
  (upd_desc (λ l, <[Z.to_nat i2 := status_desc i0]> (<[Z.to_nat i1 := data_desc b w i2]> (<[Z.to_nat i0 := head_desc i0 i1]> l)))
  (upd_ops (<[Z.to_nat i0 := request w n]>) s)))).

Lemma rw_format_wp s b w idx x (Q : unit → vst → Prop) :
  vlens s → Forall idx8 (members idx) → vbufs s !! b = Some x →
  Q tt (formatted b w (vb_blockno x) idx s) → wp (rw_format b w idx) Q s.
Proof.
  intros Hl Hr Hx HQ. destruct idx as [[i0 i1] i2]. unfold members in Hr. cbn [fst snd] in Hr. decompose_Forall.
  assert (∀ i, idx8 i → 0 ≤ i) as Hp by (unfold idx8; lia).
  destruct (idx8_lookup (ops s) i0 (l_ops _ Hl)) as [o Ho]; [done|]. destruct (idx8_lookup (info s) i0 (l_info _ Hl)) as [f Hf]; [done|].
  assert (∀ (l : list virtq_desc) i, length l = length (desc s) → idx8 i → is_Some (l !! Z.to_nat i)) as Hd.
  { intros l i E Hi. apply idx8_lookup; [|done]. rewrite E. apply Hl. }
  unfold rw_format. wp_step. eapply vat_wp; [lia|by rewrite Nat2Z.id|]. cbv zeta.
  wp_step. eapply vset_wp; [auto|exact Ho|].
  destruct (Hd (desc s) i0) as [d0 Hd0]; [done|done|]. wp_step. eapply vset_wp; [auto|exact Hd0|].
  destruct (Hd (<[Z.to_nat i0 := head_desc i0 i1]> (desc s)) i1) as [d1 Hd1]; [by rewrite length_insert|done|].
  wp_step. eapply vset_wp; [auto|exact Hd1|].
  wp_step. eapply vset_wp; [auto|exact Hf|].
  destruct (Hd (<[Z.to_nat i1 := data_desc b w i2]> (<[Z.to_nat i0 := head_desc i0 i1]> (desc s))) i2) as [d2 Hd2]; [by rewrite !length_insert|done|].
  wp_step. eapply vset_wp; [auto|exact Hd2|].
  wp_step. eapply vset_wp; [lia|rewrite Nat2Z.id; exact Hx|].
  wp_step. eapply vset_wp; [auto|apply list_lookup_insert_eq; by eapply lookup_lt_Some|].
  wp_step. wp_step.
  destruct (idx8_lookup (avail_ring s) (avail_idx s mod NUM) (l_avail _ Hl)) as [a Ha]; [apply Z.mod_pos_bound; done|].
  eapply vset_wp; [by apply Z.mod_pos_bound|exact Ha|].
  replace (upd_avail_ring _ _) with (formatted b w (vb_blockno x) (i0, i1, i2) s); [exact HQ|].
  apply vst_ext; try reflexivity.
  - cbn [formatted avail_idx avail_ring upd_avail_ring upd_info upd_vbufs upd_desc upd_ops].
    unfold u16, idx8 in *. by rewrite (Z.mod_small i0) by lia.
  - symmetry. apply list_insert_insert_eq.
  - cbn [formatted vbufs upd_avail_ring upd_info upd_vbufs upd_desc upd_ops]. rewrite Nat2Z.id. symmetry. by apply list_insert_alter_Some.
Qed.

(** ** Rings *)

(** The entries of [ring] from index [start] on are [l]. *)
Definition ring_has (ring : list Z) (start : Z) (l : list Z) : Prop :=
  ∀ j h, l !! j = Some h → ring !! Z.to_nat ((start + Z.of_nat j) mod NUM) = Some h.

Lemma u16_mod8 x : u16 x mod NUM = x mod NUM.
Proof. unfold u16, NUM. change (2 ^ 16) with 65536. Z.div_mod_to_equations; lia. Qed.
Lemma u16_add_mod8 x y : (u16 x + y) mod NUM = (x + y) mod NUM.
Proof. unfold u16, NUM. change (2 ^ 16) with 65536. Z.div_mod_to_equations; lia. Qed.
Lemma u16_add x y : u16 (u16 x + y) = u16 (x + y).
Proof. unfold u16. apply Zplus_mod_idemp_l. Qed.

Lemma ring_push ring start l h :
  ring_has ring start l → length ring = 8%nat → (length l < 8)%nat →
  ring_has (<[Z.to_nat ((start + Z.of_nat (length l)) mod NUM) := h]> ring) start (l ++ [h]).
Proof.
  intros Hr Hlen Hl j x Hj. unfold NUM in *. apply lookup_app_Some in Hj as [Hj|[Hge Hj]].
  - pose proof (lookup_lt_Some _ _ _ Hj). rewrite list_lookup_insert_ne; [by apply Hr|]. Z.div_mod_to_equations; lia.
  - apply list_lookup_singleton_Some in Hj as [Hj ->]. assert (j = length l) as -> by lia.
    apply list_lookup_insert_eq. rewrite Hlen. Z.div_mod_to_equations; lia.
Qed.
Lemma ring_slot ring start l h :
  ring_has ring start l → (length l < 8)%nat → ring_has (<[Z.to_nat ((start + Z.of_nat (length l)) mod NUM) := h]> ring) start l.
Proof.
  intros Hr Hl j x Hj. pose proof (lookup_lt_Some _ _ _ Hj). rewrite list_lookup_insert_ne; [by apply Hr|].
  unfold NUM. Z.div_mod_to_equations; lia.
Qed.
Lemma ring_snoc ring start l h :
  ring_has ring start l → ring !! Z.to_nat ((start + Z.of_nat (length l)) mod NUM) = Some h → ring_has ring start (l ++ [h]).
Proof.
  intros Hr Hh j x Hj. apply lookup_app_Some in Hj as [Hj|[Hge Hj]]; [by apply Hr|].
  apply list_lookup_singleton_Some in Hj as [Hj ->]. by replace j with (length l) by lia.
Qed.
Lemma ring_pop ring start h l : ring_has ring start (h :: l) → ring_has ring (u16 (start + 1)) l.
Proof.
  intros Hr j x Hj. rewrite u16_add_mod8. rewrite <-(Hr (S j) x Hj). do 3 f_equal. lia.
Qed.
Lemma ring_head ring start h l : ring_has ring start (h :: l) → ring !! Z.to_nat (start mod NUM) = Some h.
Proof. intros Hr. rewrite <-(Hr 0%nat h eq_refl). do 3 f_equal. lia. Qed.

(** Distinct indices below 8 are at most 8. *)
Lemma nodup_idx8 l : NoDup l → Forall idx8 l → (length l ≤ 8)%nat.
Proof.
  intros Hn Hf. assert (l ⊆ seqZ 0 8) as Hs.
  { intros x Hx. rewrite Forall_forall in Hf. apply elem_of_seqZ. unfold idx8 in *. specialize (Hf x Hx). lia. }
  pose proof (submseteq_length _ _ (NoDup_submseteq _ _ Hn Hs)) as Hl. by rewrite length_seqZ in Hl.
Qed.

(** ** The invariant *)

(** Where a process is in [virtio_disk_rw]: allocating, at the first fence, at the
    second, or waiting for the interrupt. *)
Inductive phase := PhAlloc | PhRing (idx : idx3) | PhIdx (idx : idx3) | PhWait (idx : idx3).
Definition ph_idx (ph : phase) : option idx3 :=
  match ph with PhAlloc => None | PhRing idx | PhIdx idx | PhWait idx => Some idx end.
Definition ph_members (ph : phase) : list Z := from_option members [] (ph_idx ph).
Definition ph_locked (ph : phase) : bool := match ph with PhRing _ | PhIdx _ => true | _ => false end.
Definition ph_queued (ph : phase) : option idx3 := match ph with PhIdx idx | PhWait idx => Some idx | _ => None end.

Section invariant.
Context `{SleepFuel} `{Device}.

Definition k_wait (f t b : nat) (i0 : Z) : M vst unit := loopM f (rw_wait_body t b) tt ≫= λ _, rw_finish i0.
Definition k_idx (t b : nat) (i0 : Z) : M vst unit := notify ;; k_wait sleep_fuel t b i0.
Definition k_ring (t b : nat) (i0 : Z) : M vst unit := modify (upd_avail_idx (λ n, u16 (n + 1))) ;; fence ;; k_idx t b i0.
Definition k_alloc (f t b : nat) (w : bool) : M vst unit :=
  loopM f (rw_alloc_body t) tt ≫= λ idx, rw_format b w idx ;; fence ;; k_ring t b idx.1.1.

Definition is_k (t b : nat) (w : bool) (ph : phase) (k : vst → outcome vst unit) : Prop :=
  match ph with
  | PhAlloc => ∃ f, k = k_alloc f t b w
  | PhRing idx => k = k_ring t b idx.1.1
  | PhIdx idx => k = k_idx t b idx.1.1
  | PhWait idx => ∃ f, k = k_wait f t b idx.1.1
  end.

Definition dflag (s : vst) (b : nat) : option Z := vb_disk <$> vbufs s !! b.
Definition flag_ok (ph : phase) (v : option Z) : Prop :=
  match ph with PhAlloc => True | PhRing _ | PhIdx _ => v = Some 1 | PhWait _ => v = Some 1 ∨ v = Some 0 end.

(** The state of a process in phase [ph]. *)
Record tok (s : vst) (t : nat) (th : thread) (ph : phase) : Prop := {
  to_k : is_k t (t_b th) (t_w th) ph (t_k th);
  to_buf : is_Some (vbufs s !! t_b th);
  to_chain : ∀ idx, ph_idx ph = Some idx → chain s (t_b th) (t_w th) idx;
  to_flag : flag_ok ph (dflag s (t_b th));
  to_ring : ∀ idx, ph = PhRing idx → avail_ring s !! Z.to_nat (avail_idx s mod NUM) = Some idx.1.1;
}.
Definition sleep_ok (s : vst) (th : thread) (ph : phase) (ch : chan) : Prop :=
  match ph with
  | PhAlloc => ch = ChDiskFree ∧ few (dfree s)
  | PhWait _ => ch = ChBuf (t_b th) ∧ dflag s (t_b th) = Some 1
  | _ => False
  end.
(** The handler with [n] chains in flight. *)
Definition intr_ok (n : nat) (s : vst) (C : list Z) (k : vst → outcome vst unit) : Prop :=
  k = virtio_disk_intr ∨ (∃ f, (n < f)%nat ∧ k = loopM f intr_body tt) ∨
  (∃ f, (n ≤ f)%nat ∧ C ≠ [] ∧ k = (intr_entry (used_idx s) ≫= λ r, match r with inl a => loopM f intr_body a | inr b => mret b end)).

Definition pend (s : vst) : list Z := h_pending (hw s).
Definition flight (s : vst) (U C : list Z) : list Z := U ++ pend s ++ C.
(** [F]: the heads of the operations that have failed. *)
Record rings (s : vst) (U C F : list Z) : Prop := {
  rg_seen : avail_idx s = u16 (h_seen (hw s) + Z.of_nat (length U));
  rg_seen0 : u16 (h_seen (hw s)) = h_seen (hw s);
  rg_avail : ring_has (avail_ring s) (h_seen (hw s)) U;
  rg_used : uidx s = u16 (used_idx s + Z.of_nat (length C));
  rg_used0 : u16 (used_idx s) = used_idx s;
  rg_uring : ring_has (fst <$> uring s) (used_idx s) C;
  rg_nodup : NoDup (flight s U C);
  rg_status : ∀ h, h ∈ C → ∃ v, in_status <$> info s !! Z.to_nat h = Some v ∧ (v ≠ 0 ↔ h ∈ F);
  rg_failed : ∀ h, h ∈ F → h ∈ C;
}.

(** An operation whose chain is with the device or on the used ring. *)
Definition queued (s : vst) (thr : gmap nat thread) (G : gmap nat phase) (h : Z) : Prop :=
  ∃ t th ph idx, thr !! t = Some th ∧ G !! t = Some ph ∧ ph_queued ph = Some idx ∧ idx.1.1 = h ∧ dflag s (t_b th) = Some 1.

Record vinv (c : vsys) (G : gmap nat phase) (U C F : list Z) : Prop := {
  iv_lens : vlens (vs c);
  iv_buf : ∀ b x, vbufs (vs c) !! b = Some x → 0 ≤ vb_blockno x < 2 ^ 31 ∧ length (vb_data x) = Z.to_nat BSIZE;
  iv_dom : ∀ t, is_Some (thr c !! t) ↔ is_Some (G !! t);
  iv_tok : ∀ t th ph, thr c !! t = Some th → G !! t = Some ph → tok (vs c) t th ph;
  iv_own : ∀ t t' th th', thr c !! t = Some th → thr c !! t' = Some th' → t_b th = t_b th' → t = t';
  iv_free : ∀ i, idx8 i → dfree (vs c) !! Z.to_nat i = Some false ↔ ∃ t ph, G !! t = Some ph ∧ i ∈ ph_members ph;
  iv_disj : ∀ t t' ph ph' i, G !! t = Some ph → G !! t' = Some ph' → i ∈ ph_members ph → i ∈ ph_members ph' → t = t';
  iv_hold : ∀ t, holder c = Some t ↔ ∃ ph, G !! t = Some ph ∧ ph_locked ph = true;
  iv_lock : is_Some (intr c) → holder c = None;
  iv_rings : rings (vs c) U C F;
  iv_heads : ∀ h, h ∈ flight (vs c) U C ↔ queued (vs c) (thr c) G h;
  iv_asleep : ∀ t ch, asleep (vs c) !! t = Some ch → ∃ th ph, thr c !! t = Some th ∧ G !! t = Some ph ∧ sleep_ok (vs c) th ph ch;
  iv_notify : U ≠ [] → h_notify (hw (vs c)) = true ∨ ∃ t idx, G !! t = Some (PhIdx idx);
  iv_int : C ≠ [] → h_istatus (hw (vs c)) ≠ 0 ∨ is_Some (intr c);
  iv_intr : ∀ k, intr c = Some k → intr_ok (length (flight (vs c) U C)) (vs c) C k;
}.

(** ** Running a process to its next stop *)

Lemma k_alloc_run f t b w s x :
  vlens s → vbufs s !! b = Some x →
  k_alloc f t b w s = OutOfFuel ∨
  (∃ f' s', undone s s' ∧ few (dfree s) ∧ k_alloc f t b w s = Sleep ChDiskFree (upd_asleep (<[t := ChDiskFree]>) s') (k_alloc f' t b w)) ∨
  (∃ i0 i1 i2 : nat, NoDup [i0; i1; i2] ∧ dfree s !! i0 = Some true ∧ dfree s !! i1 = Some true ∧ dfree s !! i2 = Some true ∧
     k_alloc f t b w s = Sleep ChNull (formatted b w (vb_blockno x) (Z.of_nat i0, Z.of_nat i1, Z.of_nat i2) (taken i0 i1 i2 s)) (k_ring t b (Z.of_nat i0))).
Proof.
  intros Hl Hx. destruct f as [|f]; [by left|right].
  assert (wp alloc3_desc (λ r s', (r.1 = -1 ∧ undone s s' ∧ few (dfree s)) ∨
    ∃ i0 i1 i2 : nat, NoDup [i0; i1; i2] ∧ dfree s !! i0 = Some true ∧ dfree s !! i1 = Some true ∧ dfree s !! i2 = Some true ∧
      r = (0, [Z.of_nat i0; Z.of_nat i1; Z.of_nat i2]) ∧ s' = taken i0 i1 i2 s) s) as Hwp.
  { apply alloc3_wp; [done| |].
    - intros i0 i1 i2 Hn H1 H2 H3. right. exists i0, i1, i2. done.
    - intros idx s' Hu Hf. by left. }
  apply wp_elim in Hwp as ([r idx] & s' & Hrun & Hr). destruct Hr as [(E & Hu & Hf)|(i0 & i1 & i2 & Hn & F0 & F1 & F2 & E & ->)].
  - cbn in E. subst r. left. exists f, s'. split_and!; [done|done|].
    assert (rw_alloc_body t tt s = Sleep ChDiskFree (upd_asleep (<[t := ChDiskFree]>) s') (λ s, Done (inl tt) s)) as Hb.
    { unfold rw_alloc_body, mbind, M_bind. rewrite Hrun. reflexivity. }
    unfold k_alloc, mbind, M_bind. cbn [loopM]. unfold mbind, M_bind. rewrite Hb. reflexivity.
  - injection E as -> ->. right. exists i0, i1, i2. split_and!; [done..|].
    assert (wp (rw_format b w (Z.of_nat i0, Z.of_nat i1, Z.of_nat i2)) (λ _ s', s' = formatted b w (vb_blockno x)
      (Z.of_nat i0, Z.of_nat i1, Z.of_nat i2) (taken i0 i1 i2 s)) (taken i0 i1 i2 s)) as Hwp.
    { eapply rw_format_wp; [by destruct Hl; split; cbn; rewrite ?length_insert|repeat constructor; by eapply idx8_nat|exact Hx|done]. }
    apply wp_elim in Hwp as ([] & s' & Hrun' & ->).
    assert (rw_alloc_body t tt s = Done (inr (Z.of_nat i0, Z.of_nat i1, Z.of_nat i2)) (taken i0 i1 i2 s)) as Hb.
    { unfold rw_alloc_body, mbind, M_bind. rewrite Hrun. reflexivity. }
    unfold k_alloc, mbind, M_bind. cbn [loopM]. unfold mbind, M_bind. rewrite Hb. cbn [obind]. unfold mret, M_ret. cbn [obind].
    rewrite Hrun'. reflexivity.
Qed.

Lemma k_ring_run t b i0 s : k_ring t b i0 s = Sleep ChNull (upd_avail_idx (λ n, u16 (n + 1)) s) (k_idx t b i0).
Proof. reflexivity. Qed.

Lemma k_wait_run f t b i0 s x :
  vbufs s !! b = Some x →
  k_wait f t b i0 s = OutOfFuel ∨
  (∃ f', vb_disk x = 1 ∧ k_wait f t b i0 s = Sleep (ChBuf b) (upd_asleep (<[t := ChBuf b]>) s) (k_wait f' t b i0)) ∨
  (vb_disk x ≠ 1 ∧ k_wait f t b i0 s = rw_finish i0 s).
Proof.
  intros Hx. destruct f as [|f]; [by left|right].
  assert (vat vbufs (Z.of_nat b) s = Done x s) as Hv.
  { assert (wp (vat vbufs (Z.of_nat b)) (λ y s', y = x ∧ s' = s) s) as Hwp.
    { eapply vat_wp; [lia|by rewrite Nat2Z.id|done]. }
    by apply wp_elim in Hwp as (y & s' & -> & -> & ->). }
  assert (rw_wait_body t b tt s = if vb_disk x =? 1 then Sleep (ChBuf b) (upd_asleep (<[t := ChBuf b]>) s) (λ s, Done (inl tt) s)
                                  else Done (inr tt) s) as Hb.
  { unfold rw_wait_body, mbind, M_bind. rewrite Hv. cbn [obind]. by destruct (vb_disk x =? 1). }
  unfold k_wait, mbind, M_bind. cbn [loopM]. unfold mbind, M_bind. rewrite Hb.
  destruct (Z.eqb_spec (vb_disk x) 1) as [E|E]; [left; by exists f|by right].
Qed.
Lemma k_idx_run t b i0 s x :
  vbufs s !! b = Some x → vb_disk x = 1 →
  k_idx t b i0 s = OutOfFuel ∨
  ∃ f', k_idx t b i0 s = Sleep (ChBuf b) (upd_asleep (<[t := ChBuf b]>) (upd_hw (upd_h_notify (λ _, true)) s)) (k_wait f' t b i0).
Proof.
  intros Hx H1. unfold k_idx, notify.
  change ((modify (upd_hw (upd_h_notify (λ _, true))) ;; k_wait sleep_fuel t b i0) s) with
    (k_wait sleep_fuel t b i0 (upd_hw (upd_h_notify (λ _, true)) s)).
  destruct (k_wait_run sleep_fuel t b i0 (upd_hw (upd_h_notify (λ _, true)) s) x Hx) as [E|[(f' & _ & E)|[E _]]]; [by left|right; eauto|done].
Qed.
Lemma rw_finish_run s b w idx :
  vlens s → chain s b w idx → (∀ i, i ∈ members idx → dfree s !! Z.to_nat i = Some false) →
  rw_finish idx.1.1 s =
    Done tt (freed idx.2 (freed idx.1.2 (freed idx.1.1 (upd_info (alter (upd_in_b (λ _, None)) (Z.to_nat idx.1.1)) s)))).
Proof.
  intros Hl Hc Hf. destruct (chain_idx _ _ _ _ Hc) as (I0 & _ & _).
  destruct (idx8_lookup (info s) idx.1.1 (l_info _ Hl) I0) as [f Hi].
  assert (wp (rw_finish idx.1.1) (λ _ s', s' = freed idx.2 (freed idx.1.2 (freed idx.1.1
    (upd_info (alter (upd_in_b (λ _, None)) (Z.to_nat idx.1.1)) s)))) s) as Hwp.
  { unfold rw_finish. wp_step. eapply vset_wp; [apply I0|exact Hi|]. cbn beta.
    assert (upd_info (λ l, <[Z.to_nat idx.1.1 := upd_in_b (λ _, None) f]> l) s =
            upd_info (alter (upd_in_b (λ _, None)) (Z.to_nat idx.1.1)) s) as ->.
    { apply vst_ext; try reflexivity. cbn. by apply list_insert_alter_Some. }
    eapply (free_chain_wp s); [by destruct Hl; split; cbn; rewrite ?length_alter|exact Hc|done|exact Hf|done]. }
  apply wp_elim in Hwp as ([] & s' & -> & ->). done.
Qed.
End invariant.
