(* ===== verification/VirtioSteps.v ===== *)
(** * The disk driver: the steps

    Every step of the system of [VirtioSpec] keeps the invariant of [VirtioProof]
    and is a step, or none, of the disk that the clients see. *)

From S2P Require Import Prelude Riscv Memory CString Kalloc State Bytes Virtio VirtioSpec VirtioProof.

Notation idx3 := (Z * Z * Z)%type.

Section steps.
Context `{SleepFuel} `{Device}.

(** ** Steps that leave the processes where they are *)

Definition bno (s : vst) (b : nat) : option Z := vb_blockno <$> vbufs s !! b.

(** [s'] is [s] for a process that uses descriptors [l] and buffer [b]. *)
Record same_for (s s' : vst) (l : list Z) (b : nat) : Prop := {
  sf_desc : ∀ i, i ∈ l → desc s' !! Z.to_nat i = desc s !! Z.to_nat i;
  sf_ops : ∀ i, i ∈ l → ops s' !! Z.to_nat i = ops s !! Z.to_nat i;
  sf_info : ∀ i, i ∈ l → in_b <$> info s' !! Z.to_nat i = in_b <$> info s !! Z.to_nat i;
  sf_bno : bno s' b = bno s b;
}.
Lemma tok_same s s' t th ph :
  tok s t th ph → same_for s s' (ph_members ph) (t_b th) → flag_ok ph (dflag s' (t_b th)) →
  (∀ idx, ph = PhRing idx → avail_idx s' = avail_idx s ∧ avail_ring s' = avail_ring s) → tok s' t th ph.
Proof.
  intros [H1 [x Hx] H3 H4 H5] [S1 S2 S3 S4] Hf Hr. split; [done| | |done|].
  - unfold bno in S4. rewrite Hx in S4. destruct (vbufs s' !! t_b th); [done|]. done.
  - intros idx E. unfold ph_members in *. rewrite E in *. cbn in S1, S2, S3. eapply chain_ext; [by apply H3|done| |done|].
    + apply S2. unfold members. set_solver.
    + apply S3. unfold members. set_solver.
  - intros idx E. destruct (Hr idx E) as [-> ->]. by apply H5.
Qed.

Lemma flight_idx8 c G U C F h : vinv c G U C F → h ∈ flight (vs c) U C → idx8 h.
Proof.
  intros Hv Hh. apply (iv_heads _ _ _ _ _ Hv) in Hh as (t & th & ph & idx & H1 & H2 & H3 & <- & _).
  pose proof (to_chain _ _ _ _ (iv_tok _ _ _ _ _ Hv t th ph H1 H2) idx) as Hc.
  destruct (chain_idx _ _ _ _ (Hc ltac:(by destruct ph))) as (? & _ & _). done.
Qed.
Lemma flight_len c G U C F : vinv c G U C F → (length (flight (vs c) U C) ≤ 8)%nat.
Proof.
  intros Hv. apply nodup_idx8; [apply (iv_rings _ _ _ _ _ Hv)|]. apply Forall_forall. intros h Hh. by eapply flight_idx8.
Qed.

Lemma vinv_device c G U C F s' U' C' F' :
  vinv c G U C F → vlens s' →
  (∀ b x, vbufs s' !! b = Some x → 0 ≤ vb_blockno x < 2 ^ 31 ∧ length (vb_data x) = Z.to_nat BSIZE) →
  desc s' = desc (vs c) → ops s' = ops (vs c) → dfree s' = dfree (vs c) → asleep s' = asleep (vs c) →
  avail_idx s' = avail_idx (vs c) → avail_ring s' = avail_ring (vs c) → used_idx s' = used_idx (vs c) →
  (∀ i, in_b <$> info s' !! i = in_b <$> info (vs c) !! i) →
  (∀ t th, thr c !! t = Some th → bno s' (t_b th) = bno (vs c) (t_b th) ∧ dflag s' (t_b th) = dflag (vs c) (t_b th)) →
  rings s' U' C' F' → flight s' U' C' ≡ₚ flight (vs c) U C →
  (U' ≠ [] → U ≠ [] ∧ h_notify (hw s') = h_notify (hw (vs c))) → (C' ≠ [] → h_istatus (hw s') ≠ 0 ∨ C ≠ [] ∧ h_istatus (hw s') = h_istatus (hw (vs c))) →
  (C ≠ [] → C' ≠ []) →
  vinv (VSys s' (thr c) (holder c) (intr c)) G U' C' F'.
Proof.
  intros Hv Hl Hb Ed Eo Ef Ea Eai Ear Eu Ei Hth Hr Hp Hn Hi HC. destruct Hv.
  assert (∀ t th ph, thr c !! t = Some th → flag_ok ph (dflag (vs c) (t_b th)) → flag_ok ph (dflag s' (t_b th))) as Hfl.
  { intros t th ph H1 H2. by destruct (Hth t th H1) as [_ ->]. }
  split; cbn; try done.
  - intros t th ph H1 H2. specialize (iv_tok t th ph H1 H2). eapply tok_same; [exact iv_tok| |eapply Hfl; [done|apply iv_tok]|done].
    split; [by rewrite Ed|by rewrite Eo|auto|]. by apply (Hth t).
  - by rewrite Ef.
  - intros h. rewrite Hp, iv_heads. unfold queued. split; intros (t & th & ph & idx & H1 & H2 & H3 & H4 & H5); exists t, th, ph, idx;
      (split_and!; [done..|]); destruct (Hth t th H1) as [_ E]; congruence.
  - rewrite Ea. intros t ch H1. destruct (iv_asleep t ch H1) as (th & ph & H2 & H3 & H4). exists th, ph. split_and!; [done..|].
    destruct ph; cbn in *; [by rewrite Ef|done|done|]. by destruct (Hth t th H2) as [_ ->].
  - intros HU. destruct (Hn HU) as [HU0 ->]. auto.
  - intros HC'. destruct (Hi HC') as [?|[HC0 ->]]; [by left|auto].
  - intros k Hk. rewrite Hp. destruct (iv_intr k Hk) as [->|[(f & Hf & ->)|(f & Hf & HC0 & ->)]].
    + by left.
    + right. left. eauto.
    + right. right. exists f. rewrite Eu. auto.
Qed.

(** ** The simulation *)

(** How far the device is with the operation. *)
Definition stage_of (U F P : list Z) (ph : phase) : stage :=
  match ph_queued ph with
  | Some idx => if decide (idx.1.1 ∈ F) then Failed else if decide (idx.1.1 ∈ U ++ P) then Waiting else Happened
  | None => Waiting
  end.
Lemma stage_ext U F P U' F' P' ph ph' :
  ph_queued ph = ph_queued ph' →
  (∀ idx, ph_queued ph = Some idx → (idx.1.1 ∈ F ↔ idx.1.1 ∈ F') ∧ (idx.1.1 ∈ U ++ P ↔ idx.1.1 ∈ U' ++ P')) →
  stage_of U F P ph = stage_of U' F' P' ph'.
Proof.
  unfold stage_of. intros <- Hq. destruct (ph_queued ph) as [idx|]; [|done]. destruct (Hq idx eq_refl) as [H1 H2].
  by rewrite (decide_ext _ _ _ _ H1), (decide_ext _ _ _ _ H2).
Qed.
Record sim (c : vsys) (G : gmap nat phase) (U F : list Z) (a : adisk) : Prop := {
  sm_bufs : a_bufs a = (λ x, (vb_blockno x, vb_data x)) <$> vbufs (vs c);
  sm_img : a_img a = h_image (hw (vs c));
  sm_ops : ∀ t, a_ops a !! t = th ← thr c !! t; ph ← G !! t; Some (t_b th, t_w th, stage_of U F (pend (vs c)) ph);
}.
Lemma a_run_0 a a' : a_step a [] a' → a_run a [] a'.
Proof. intros Hs. apply (ar_step a [] a [] a'); [constructor|done]. Qed.

(** ** The device *)

(** A transfer of [d], to block [n] or to buffer [b], that ends with status [st]. *)
Definition xfered (st : Z) (b : nat) (w : bool) (i0 n : Z) (d : list Z) (s : vst) : vst :=
  let s1 := upd_info (alter (upd_in_status (λ _, st)) (Z.to_nat i0)) s in
  if w then upd_hw (upd_h_image (λ img, image_write img (BSIZE * n) d)) s1
  else upd_vbufs (alter (upd_vb_data (λ _, d)) b) s1.
Definition source (w : bool) (x : vbuf) (s : vst) : list Z :=
  if w then vb_data x else image_read (h_image (hw s)) (BSIZE * vb_blockno x) BSIZE.
Lemma source_length w x s : length (vb_data x) = Z.to_nat BSIZE → length (source w x s) = Z.to_nat BSIZE.
Proof. intros Hx. destruct w; [done|]. unfold source, image_read. by rewrite length_fmap, length_seqZ. Qed.

Lemma alter_ext_at {A} (f g : A → A) (l : list A) i x : l !! i = Some x → f x = g x → alter f i l = alter g i l.
Proof. intros Hx E. rewrite <-!(list_insert_alter_Some _ _ _ _ Hx). by rewrite E. Qed.

Lemma dev_move_chain st junk s b w idx x :
  chain s b w idx → vbufs s !! b = Some x → 0 ≤ vb_blockno x < 2 ^ 31 → length (vb_data x) = Z.to_nat BSIZE →
  length (default (source w x s) junk) = Z.to_nat BSIZE →
  dev_move st junk idx.1.1 s = Some (b, xfered st b w idx.1.1 (vb_blockno x) (default (source w x s) junk) s).
Proof.
  intros [_ _ C0 C1 C2 (y & Hy & Ho) _] Hx Hn Hl Hj. rewrite Hx in Hy. injection Hy as <-.
  assert (512 * u32 (vb_blockno x * (BSIZE / 512)) = BSIZE * vb_blockno x) as HS.
  { change (BSIZE / 512) with 2. change BSIZE with 1024. rewrite u32_id by lia. lia. }
  unfold dev_move. rewrite C0. cbn [mbind option_bind head_desc d_next]. rewrite C1. cbn [mbind option_bind data_desc d_next].
  rewrite C2. cbn [mbind option_bind head_desc data_desc status_desc d_addr]. rewrite Ho. cbn [mbind option_bind]. rewrite Hx. cbn [mbind option_bind d_len d_flags head_desc data_desc status_desc].
  cbv zeta. unfold xfered. destruct w; cbn -[BSIZE image_write image_read splice u32 take default source]; rewrite HS.
  - unfold source in *. by rewrite firstn_all2 by lia.
  - do 2 f_equal. apply vst_ext; try reflexivity. cbn -[BSIZE image_read splice take default]. eapply alter_ext_at; [exact Hx|].
    unfold upd_vb_data. f_equal. unfold source in *. rewrite firstn_all2 by lia. unfold splice. cbn [take]. rewrite drop_ge; [by rewrite app_nil_r|]. lia.
Qed.

Lemma xfered_fields st b w i0 n d s :
  desc (xfered st b w i0 n d s) = desc s ∧ ops (xfered st b w i0 n d s) = ops s ∧ dfree (xfered st b w i0 n d s) = dfree s ∧
  asleep (xfered st b w i0 n d s) = asleep s ∧ avail_idx (xfered st b w i0 n d s) = avail_idx s ∧
  avail_ring (xfered st b w i0 n d s) = avail_ring s ∧ used_idx (xfered st b w i0 n d s) = used_idx s ∧
  uidx (xfered st b w i0 n d s) = uidx s ∧ uring (xfered st b w i0 n d s) = uring s ∧
  info (xfered st b w i0 n d s) = alter (upd_in_status (λ _, st)) (Z.to_nat i0) (info s) ∧
  h_seen (hw (xfered st b w i0 n d s)) = h_seen (hw s) ∧ pend (xfered st b w i0 n d s) = pend s ∧
  h_notify (hw (xfered st b w i0 n d s)) = h_notify (hw s).
Proof. by destruct w. Qed.
Lemma xfered_buf st b w i0 n d s c :
  bno (xfered st b w i0 n d s) c = bno s c ∧ dflag (xfered st b w i0 n d s) c = dflag s c.
Proof.
  destruct w; [done|]. unfold bno, dflag, xfered. cbn. destruct (decide (c = b)) as [->|Hne].
  - rewrite list_lookup_alter_eq. by destruct (vbufs s !! b).
  - by rewrite list_lookup_alter_ne.
Qed.

(** Operations in flight have different heads. *)
Lemma queued_inj c G U C F t t' ph ph' idx idx' :
  vinv c G U C F → G !! t = Some ph → G !! t' = Some ph' → ph_idx ph = Some idx → ph_idx ph' = Some idx' → idx.1.1 = idx'.1.1 → t = t'.
Proof.
  intros Hv H1 H2 H3 H4 E. eapply (iv_disj _ _ _ _ _ Hv t t' ph ph' idx.1.1); [done|done| |];
    unfold ph_members; rewrite ?H3, ?H4; cbn; [|rewrite E]; unfold members; set_solver.
Qed.
Lemma queued_idx ph idx : ph_queued ph = Some idx → ph_idx ph = Some idx.
Proof. by destruct ph. Qed.

Lemma seen_all c G U C F : vinv c G U C F → h_seen (hw (vs c)) = avail_idx (vs c) ↔ U = [].
Proof.
  intros Hv. pose proof (flight_len _ _ _ _ _ Hv) as Hl. unfold flight in Hl. rewrite length_app in Hl.
  destruct (iv_rings _ _ _ _ _ Hv) as [E E0 _ _ _ _ _ _ _]. unfold u16 in *. split; [|intros ->; cbn in E; rewrite Z.add_0_r in E; congruence].
  intros Eq. destruct U as [|h U]; [done|]. cbn [length] in *. change (2 ^ 16) with 65536 in *. exfalso. Z.div_mod_to_equations; lia.
Qed.

Lemma rings_ext s s' U C F :
  rings s U C F → avail_idx s' = avail_idx s → h_seen (hw s') = h_seen (hw s) → avail_ring s' = avail_ring s →
  uidx s' = uidx s → used_idx s' = used_idx s → uring s' = uring s → pend s' = pend s →
  (∀ h, h ∈ C → in_status <$> info s' !! Z.to_nat h = in_status <$> info s !! Z.to_nat h) → rings s' U C F.
Proof.
  intros [] E1 E2 E3 E4 E5 E6 E7 E8. split; rewrite ?E1, ?E2, ?E3, ?E4, ?E5, ?E6; try done; [unfold flight; by rewrite E7|].
  intros h Hh. rewrite E8; auto.
Qed.

Lemma fetch_inv c G U C F a h :
  vinv c G U C F → sim c G U F a → h_seen (hw (vs c)) ≠ avail_idx (vs c) →
  avail_ring (vs c) !! Z.to_nat (h_seen (hw (vs c)) mod NUM) = Some h →
  let s' := upd_hw (λ w, upd_h_seen (λ n, u16 (n + 1)) (upd_h_pending (λ p, p ++ [h]) w)) (vs c) in
  ∃ U', vinv (VSys s' (thr c) (holder c) (intr c)) G U' C F ∧ sim (VSys s' (thr c) (holder c) (intr c)) G U' F a.
Proof.
  intros Hv Hs Hne Hh s'. destruct U as [|h0 U]; [by destruct Hne; eapply seen_all|].
  pose proof (iv_rings _ _ _ _ _ Hv) as [E E0 Hra Eu Eu0 Hru Hnd Hst Hfd].
  pose proof (ring_head _ _ _ _ Hra) as Hh0. rewrite Hh in Hh0. injection Hh0 as <-. exists U.
  assert (flight s' U C ≡ₚ flight (vs c) (h :: U) C) as Hp.
  { unfold flight, pend, s'. cbn. rewrite <-!app_assoc. cbn. by rewrite <-!Permutation_middle. }
  split.
  - eapply vinv_device; [exact Hv|by destruct (iv_lens _ _ _ _ _ Hv)|apply (iv_buf _ _ _ _ _ Hv)|done..| |exact Hp| | |done].
    + split; cbn; try done.
      * rewrite E, u16_add. cbn [length]. f_equal. lia.
      * unfold u16. by rewrite Z.mod_mod.
      * by eapply ring_pop.
      * by rewrite Hp.
    + done.
    + intros HC. right. done.
  - destruct Hs as [S1 S2 S3]. split; [done|done|]. intros t. rewrite S3. cbn. destruct (thr c !! t) as [th|]; [|done]. cbn.
    destruct (G !! t) as [ph|]; [|done]. cbn. do 2 f_equal. apply stage_ext; [done|]. intros idx _. split; [done|].
    unfold pend. cbn. rewrite !elem_of_cons, !elem_of_app, list_elem_of_singleton. tauto.
Qed.

Lemma filter_notin (l : list Z) h : h ∉ l → filter (λ x, x ≠ h) l = l.
Proof.
  induction l as [|x l IH]; intros Hh; [done|]. apply not_elem_of_cons in Hh as [Hx Hl].
  rewrite filter_cons_True by auto. by rewrite IH.
Qed.
Lemma filter_ne_perm (l : list Z) h : NoDup l → h ∈ l → l ≡ₚ h :: filter (λ x, x ≠ h) l.
Proof.
  intros Hn Hh. induction l as [|x l IH]; [set_solver|]. apply NoDup_cons in Hn as [Hx Hn].
  destruct (decide (x = h)) as [->|Hne].
  - rewrite filter_cons_False by auto. by rewrite filter_notin.
  - rewrite filter_cons_True by done. rewrite (IH Hn) at 1 by set_solver. constructor.
Qed.

Section completion.
Context (c : vsys) (G : gmap nat phase) (U C F : list Z).
Hypotheses (Hv : vinv c G U C F).
Context (t : nat) (th : thread) (ph : phase) (idx : idx3) (x : vbuf) (len st : Z) (d : list Z).
Hypotheses (Ht : thr c !! t = Some th) (HG : G !! t = Some ph) (Hq : ph_queued ph = Some idx)
  (Hx : vbufs (vs c) !! t_b th = Some x) (Hh : idx.1.1 ∈ pend (vs c)) (Hd : length d = Z.to_nat BSIZE).
Notation h := idx.1.1.
Notation s1 := (xfered st (t_b th) (t_w th) idx.1.1 (vb_blockno x) d (vs c)).
Notation s' := (dev_push idx.1.1 len s1).
Notation F' := (if decide (st = 0) then F else idx.1.1 :: F).

Lemma completed_flight : flight s' U (C ++ [h]) ≡ₚ flight (vs c) U C.
Proof using Hv Hh.
  destruct (xfered_fields st (t_b th) (t_w th) h (vb_blockno x) d (vs c)) as (_ & _ & _ & _ & _ & _ & _ & _ & _ & _ & _ & E & _).
  pose proof (rg_nodup _ _ _ _ (iv_rings _ _ _ _ _ Hv)) as Hn. unfold flight in *.
  apply NoDup_app in Hn as (_ & _ & Hn). apply NoDup_app in Hn as (Hn & _ & _).
  change (pend s') with (filter (λ x, x ≠ h) (pend s1)). rewrite E. rewrite (filter_ne_perm (pend (vs c)) h Hn Hh) at 2.
  cbn. rewrite (Permutation_app_comm C [h]). cbn. rewrite <-!Permutation_middle. done.
Qed.

Lemma completed_new : h ∉ U ∧ h ∉ C ∧ h ∉ F.
Proof using Hv Hh.
  pose proof (rg_nodup _ _ _ _ (iv_rings _ _ _ _ _ Hv)) as Hn. pose proof (rg_failed _ _ _ _ (iv_rings _ _ _ _ _ Hv) h) as Hf.
  unfold flight in Hn. apply NoDup_app in Hn as (_ & HU & Hn). apply NoDup_app in Hn as (_ & HC & _).
  assert (h ∉ C) as HC' by by apply HC. split_and!; [|done|auto]. intros Hin. apply (HU h Hin), elem_of_app. by left.
Qed.

Lemma completed_inv : vinv (VSys s' (thr c) (holder c) (intr c)) G U (C ++ [h]) F'.
Proof using Hv Hh Hx Ht HG Hq Hd.
  destruct completed_new as (_ & HhC & HhF). destruct (xfered_fields st (t_b th) (t_w th) h (vb_blockno x) d (vs c))
    as (E1 & E2 & E3 & E4 & E5 & E6 & E7 & E8 & E9 & E10 & E11 & E12 & E13).
  pose proof (iv_lens _ _ _ _ _ Hv) as [L1 L2 L3 L4 L5 L6]. pose proof (iv_rings _ _ _ _ _ Hv) as [R1 R2 R3 R4 R5 R6 R7 R8 R9].
  assert (length C < 8)%nat as HC8.
  { pose proof (flight_len _ _ _ _ _ Hv) as Hl. unfold flight in Hl. rewrite !length_app in Hl.
    destruct (pend (vs c)); [set_solver|]. cbn in Hl. lia. }
  assert (∀ f, f ∈ [h] → is_Some (info (vs c) !! Z.to_nat f)) as Hin.
  { intros f Hf. apply list_elem_of_singleton in Hf as ->. apply idx8_lookup; [done|]. eapply flight_idx8; [exact Hv|]. unfold flight. set_solver. }
  eapply vinv_device; [exact Hv| | |done..| | | |exact completed_flight| | |].
  - split; cbn; rewrite ?length_insert; rewrite ?E1, ?E2, ?E3, ?E6, ?E9, ?E10, ?length_alter; done.
  - intros b y Hy. change (vbufs s' !! b = Some y) in Hy. unfold dev_push, xfered in Hy. destruct (t_w th).
    + by eapply (iv_buf _ _ _ _ _ Hv).
    + cbn in Hy. rewrite list_lookup_alter in Hy. case_decide as Eb; [subst b|by eapply (iv_buf _ _ _ _ _ Hv)].
      rewrite Hx in Hy. injection Hy as <-. cbn. by destruct (iv_buf _ _ _ _ _ Hv _ _ Hx).
  - intros i. cbn. rewrite E10, list_lookup_alter. case_decide; [subst i|done]. by destruct (info (vs c) !! Z.to_nat h).
  - intros t' th' _. apply xfered_buf.
  - split; cbn; rewrite ?E5, ?E6, ?E7, ?E8, ?E9, ?E11; try done.
    + by rewrite R4, u16_add, length_app, Nat2Z.inj_add, Z.add_assoc.
    + rewrite R4, u16_mod8, list_fmap_insert. apply ring_push; [done|by rewrite length_fmap|done].
    + by rewrite completed_flight.
    + intros f Hf. rewrite E10. apply elem_of_app in Hf as [Hf|Hf].
      * assert (f ≠ h) as Hne by congruence. rewrite list_lookup_alter_ne.
        -- destruct (R8 f Hf) as (v & Ev & Hv0). exists v. split; [done|]. rewrite Hv0. case_decide; [done|]. set_solver.
        -- intros E. apply Hne. assert (idx8 h ∧ idx8 f) as [? ?] by (split; (eapply flight_idx8; [exact Hv|unfold flight; set_solver])). unfold idx8 in *. lia.
      * apply list_elem_of_singleton in Hf as ->. rewrite list_lookup_alter_eq. destruct (Hin h ltac:(set_solver)) as [y ->].
        exists st. split; [done|]. case_decide; [done|]. set_solver.
    + intros f. case_decide; set_solver.
  - intros HU. split; [exact HU|]. exact E13.
  - intros _. left. cbn. intros E. apply Z.lor_eq_0_iff in E as [_ ?]. done.
  - intros _. by destruct C.
Qed.

Lemma completed_stage t' ph' :
  G !! t' = Some ph' → stage_of U F' (pend s') ph' =
    if decide (t' = t) then (if decide (st = 0) then Happened else Failed) else stage_of U F (pend (vs c)) ph'.
Proof using Hv Hh HG Hq Hx Ht.
  clear Hd. intros H1. destruct (xfered_fields st (t_b th) (t_w th) h (vb_blockno x) d (vs c)) as (_ & _ & _ & _ & _ & _ & _ & _ & _ & _ & _ & E & _).
  change (pend s') with (filter (λ x, x ≠ h) (pend s1)). rewrite E. clear E. destruct completed_new as (HU & _ & HF). destruct (decide (t' = t)) as [->|Et].
  - rewrite HG in H1. injection H1 as <-. unfold stage_of. rewrite Hq. destruct (decide (st = 0)) as [Est|Est].
    + rewrite (decide_False (P := h ∈ F)), decide_False; [done| |done]. rewrite elem_of_app, list_elem_of_filter. naive_solver.
    + by rewrite (decide_True (P := h ∈ h :: F)) by left.
  - apply stage_ext; [done|]. intros idx' Hq'. assert (idx'.1.1 ≠ h) as Hne.
    { intros Eh. apply Et. by eapply (queued_inj _ _ _ _ _ _ _ _ _ _ _ Hv H1 HG (queued_idx _ _ Hq') (queued_idx _ _ Hq)). }
    split; [case_decide; set_solver|]. rewrite !elem_of_app, list_elem_of_filter. tauto.
Qed.

Lemma completed_waiting a : sim c G U F a → a_ops a !! t = Some (t_b th, t_w th, Waiting).
Proof using Hv Hh HG Hq Ht.
  intros [_ _ S3]. rewrite S3, Ht. cbn. rewrite HG. cbn. do 2 f_equal. unfold stage_of. rewrite Hq.
  destruct completed_new as (_ & _ & HF). rewrite decide_False, decide_True; [done|apply elem_of_app; by right|done].
Qed.

Lemma completed_sim a :
  sim c G U F a →
  sim (VSys s' (thr c) (holder c) (intr c)) G U F'
    (a_set t (t_b th, t_w th, if decide (st = 0) then Happened else Failed) (a_move (t_b th) (t_w th) (vb_blockno x) d a)).
Proof using Hv Hh HG Hq Hx Ht.
  intros [S1 S2 S3]. split; cbn.
  - unfold a_set, a_move, xfered. destruct (t_w th); cbn; [done|]. rewrite S1, <-list_insert_alter_Some with (x := x) by done.
    by rewrite list_fmap_insert.
  - unfold a_set, a_move, xfered. destruct (t_w th); cbn; by rewrite ?S2.
  - intros t'. cbn. replace (a_ops (a_move _ _ _ _ a)) with (a_ops a) by (by unfold a_move; destruct (t_w th)).
    destruct (decide (t' = t)) as [->|Hne].
    + rewrite lookup_insert_eq, Ht. cbn. rewrite HG. cbn. do 2 f_equal. symmetry.
      pose proof (completed_stage t ph HG) as E. rewrite (decide_True (P := t = t)) in E by done. exact E.
    + rewrite lookup_insert_ne, S3 by done. destruct (thr c !! t') as [th'|]; [|done]. cbn. destruct (G !! t') as [ph'|] eqn:H1; [|done]. cbn.
      do 2 f_equal. symmetry. pose proof (completed_stage t' ph' H1) as E. rewrite (decide_False (P := t' = t)) in E by done. exact E.
Qed.
End completion.

Lemma pending_chain c G U C F h :
  vinv c G U C F → h ∈ pend (vs c) →
  ∃ t th ph idx x, thr c !! t = Some th ∧ G !! t = Some ph ∧ ph_queued ph = Some idx ∧ idx.1.1 = h ∧
    vbufs (vs c) !! t_b th = Some x ∧ length (vb_data x) = Z.to_nat BSIZE ∧
    ∀ st junk, length (default (source (t_w th) x (vs c)) junk) = Z.to_nat BSIZE → dev_move st junk h (vs c) =
      Some (t_b th, xfered st (t_b th) (t_w th) h (vb_blockno x) (default (source (t_w th) x (vs c)) junk) (vs c)).
Proof.
  intros Hv Hh. assert (h ∈ flight (vs c) U C) as Hf by (unfold flight; set_solver).
  apply (iv_heads _ _ _ _ _ Hv) in Hf as (t & th & ph & idx & H1 & H2 & H3 & H4 & _).
  pose proof (iv_tok _ _ _ _ _ Hv t th ph H1 H2) as Htok. destruct (to_buf _ _ _ _ Htok) as [x Hx].
  destruct (iv_buf _ _ _ _ _ Hv _ _ Hx) as [Hb1 Hb2]. exists t, th, ph, idx, x. split_and!; try done. subst h. intros st junk Hj.
  apply dev_move_chain; [|done..]. apply Htok. by apply queued_idx.
Qed.
Lemma pending_xfer c G U C F h :
  vinv c G U C F → h ∈ pend (vs c) → is_Some (dev_xfer h (vs c)).
Proof.
  intros Hv Hh. destruct (pending_chain c G U C F h Hv Hh) as (t & th & ph & idx & x & _ & _ & _ & _ & _ & Hl & Hm).
  unfold dev_xfer. rewrite Hm by (cbn; by apply source_length). by eexists.
Qed.

Lemma device_sim c G U C F a o s' :
  vinv c G U C F → sim c G U F a → dev_spec (vs c) o s' →
  ∃ U' C' F' a', vinv (VSys s' (thr c) (holder c) (intr c)) G U' C' F' ∧ a_run a (LFail <$> option_list o) a' ∧
    sim (VSys s' (thr c) (holder c) (intr c)) G U' F' a' ∧ (F' = F ∨ ∃ b, o = Some b).
Proof.
  intros Hv Hs Hd. pose proof (λ h, pending_chain c G U C F h Hv) as HP.
  destruct Hd as [h Hne Hh|h len s1 Hh Hx|h len st junk b s1 Hh Hst Hj Hx|h o s' Hh Hx|E].
  - destruct (fetch_inv c G U C F a h Hv Hs Hne Hh) as (U' & H1 & H2). exists U', C, F, a. split_and!; [done|constructor|done|by left].
  - destruct (HP h Hh) as (t & th & ph & idx & x & H1 & H2 & H3 & <- & H5 & Hl & H6).
    pose proof (source_length (t_w th) x (vs c) Hl) as Hsl. unfold dev_xfer in Hx. rewrite H6 in Hx by done. injection Hx as <-. cbn [default].
    eexists U, (C ++ [idx.1.1]), F, _. split_and!; [by eapply (completed_inv c G U C F Hv t th ph idx x len 0)| | |by left].
    + apply a_run_0. eapply (as_exec a t (t_b th) (t_w th) (vb_blockno x) (vb_data x)); [exact (completed_waiting c G U C F Hv t th ph idx H1 H2 H3 Hh a Hs)|].
      by rewrite (sm_bufs _ _ _ _ _ Hs), list_lookup_fmap, H5.
    + unfold a_exec. rewrite (sm_img _ _ _ _ _ Hs). by eapply (completed_sim c G U C F Hv t th ph idx x len 0).
  - destruct (HP h Hh) as (t & th & ph & idx & x & H1 & H2 & H3 & <- & H5 & Hl & H6).
    rewrite H6 in Hx by done. injection Hx as <- <-. cbn [default].
    assert (st ≠ 0) as Hst0 by (destruct Hst as [->| ->]; done).
    pose proof (completed_inv c G U C F Hv t th ph idx x len st junk H1 H2 H3 H5 Hh Hj) as Hv'.
    pose proof (completed_sim c G U C F Hv t th ph idx x len st junk H1 H2 H3 H5 Hh a Hs) as Hs'.
    rewrite !(decide_False (P := st = 0)) in Hv' by done. rewrite !(decide_False (P := st = 0)) in Hs' by done.
    eexists U, (C ++ [idx.1.1]), (idx.1.1 :: F), _. split_and!; [exact Hv'| |exact Hs'|right; by eexists].
    apply (ar_step a [] a); [constructor|]. eapply (as_fail a t (t_b th) (t_w th) (vb_blockno x) (vb_data x)); [exact (completed_waiting c G U C F Hv t th ph idx H1 H2 H3 Hh a Hs)| |done].
    by rewrite (sm_bufs _ _ _ _ _ Hs), list_lookup_fmap, H5.
  - destruct (pending_xfer c G U C F h Hv Hh) as [? ?]. congruence.
  - apply (seen_all _ _ _ _ _ Hv) in E as ->. exists [], C, F, a. split_and!; [|constructor| |by left].
    + eapply vinv_device; [exact Hv|by destruct (iv_lens _ _ _ _ _ Hv)|apply (iv_buf _ _ _ _ _ Hv)|done..|by eapply rings_ext; [apply (iv_rings _ _ _ _ _ Hv)|..]|done|done| |done].
      intros HC. by right.
    + by destruct Hs.
Qed.

(** Lookups in an updated map. *)
Ltac ins :=
  repeat match goal with
  | H : <[?t := _]> _ !! ?t = _ |- _ => rewrite lookup_insert_eq in H
  | H : <[_ := _]> _ !! _ = _ |- _ => rewrite lookup_insert_ne in H by congruence
  end; simplify_eq.

(** ** The clients *)

Lemma client_sim c G U C F a b x n d :
  vinv c G U C F → sim c G U F a → unused c b → vbufs (vs c) !! b = Some x → 0 ≤ n < 2 ^ 31 → length d = Z.to_nat BSIZE →
  let c' := VSys (upd_vbufs (<[b := VBuf n d (vb_disk x)]>) (vs c)) (thr c) (holder c) (intr c) in
  vinv c' G U C F ∧ ∃ a', a_run a [LClient b n d] a' ∧ sim c' G U F a'.
Proof.
  intros Hv Hs Hu Hx Hn Hd c'. split.
  - eapply vinv_device; [exact Hv|by destruct (iv_lens _ _ _ _ _ Hv)| |done..| | |done| | |done].
    + intros b' y Hy. cbn in Hy. apply list_lookup_insert_Some in Hy as [(-> & <- & _)|[_ Hy]]; [done|]. by eapply (iv_buf _ _ _ _ _ Hv).
    + intros t th Ht. unfold bno, dflag. cbn. rewrite list_lookup_insert_ne; [done|]. intros E. by apply (Hu t th Ht).
    + by eapply rings_ext; [apply (iv_rings _ _ _ _ _ Hv)|..].
    + done.
    + intros HC. by right.
  - destruct Hs as [S1 S2 S3]. eexists. split.
    + apply (ar_step a [] a); [constructor|]. apply as_client. intros t o. rewrite S3. destruct (thr c !! t) as [th|] eqn:Ht; [|done]. cbn.
      destruct (G !! t); [|done]. cbn. intros [= <-]. cbn. by apply (Hu t).
    + split; cbn; [by rewrite S1, list_fmap_insert|done|done].
Qed.

Lemma call_sim c G U C F a t b w x :
  vinv c G U C F → sim c G U F a → thr c !! t = None → unused c b → vbufs (vs c) !! b = Some x →
  let c' := VSys (vs c) (<[t := Thread b w (virtio_disk_rw t b w)]> (thr c)) (holder c) (intr c) in
  vinv c' (<[t := PhAlloc]> G) U C F ∧ ∃ a', a_run a [LCall t b w] a' ∧ sim c' (<[t := PhAlloc]> G) U F a'.
Proof.
  intros Hv Hs Ht Hu Hx c'. assert (G !! t = None) as HG.
  { destruct (G !! t) eqn:E; [|done]. destruct (proj2 (iv_dom _ _ _ _ _ Hv t)); [by eexists|congruence]. }
  assert (∀ t' ph, G !! t' = Some ph → t' ≠ t) as Hne by congruence.
  split.
  - destruct Hv. split; cbn; try done.
    + intros t'. destruct (decide (t' = t)) as [->|?]; [by rewrite !lookup_insert_eq|by rewrite !lookup_insert_ne].
    + intros t' th ph H1 H2. destruct (decide (t' = t)) as [->|?].
      * ins. split; cbn; [by eexists|by eexists|done|done|done].
      * ins. auto.
    + intros t1 t2 th1 th2 H1 H2 E. destruct (decide (t1 = t)) as [->|?], (decide (t2 = t)) as [->|?]; [done|..]; ins; cbn in *.
      * by destruct (Hu t2 th2 H2).
      * by destruct (Hu t1 th1 H1).
      * eauto.
    + intros i Hi. rewrite (iv_free i Hi). split; intros (t' & ph & H1 & H2).
      * exists t', ph. by rewrite lookup_insert_ne by (intros <-; by apply (Hne t ph)).
      * destruct (decide (t' = t)) as [->|?]; [ins; cbn in H2; set_solver|].
        ins. eauto.
    + intros t1 t2 ph1 ph2 i H1 H2 I1 I2. destruct (decide (t1 = t)) as [->|?]; [ins; cbn in I1; set_solver|].
      destruct (decide (t2 = t)) as [->|?]; [ins; cbn in I2; set_solver|].
      ins. eauto.
    + intros t'. rewrite iv_hold. destruct (decide (t' = t)) as [->|?]; [rewrite lookup_insert_eq, HG|by rewrite lookup_insert_ne].
      split; intros (ph & E & Hl); [done|]. by injection E as <-.
    + intros h. rewrite iv_heads. unfold queued. split; intros (t' & th & ph & idx & H1 & H2 & H3 & H4).
      * exists t', th, ph, idx. by rewrite !lookup_insert_ne by (intros <-; by apply (Hne t ph)).
      * destruct (decide (t' = t)) as [->|?]; [by ins|].
        ins. exists t', th, ph, idx. done.
    + intros t' ch H1. destruct (iv_asleep t' ch H1) as (th & ph & H2 & H3 & H4). exists th, ph.
      by rewrite !lookup_insert_ne by (intros <-; by apply (Hne t ph)).
    + intros HU. destruct (iv_notify HU) as [?|(t' & idx & H1)]; [by left|]. right. exists t', idx.
      by rewrite lookup_insert_ne by (intros <-; by eapply (Hne t)).
  - destruct Hs as [S1 S2 S3]. eexists. split.
    + apply (ar_step a [] a); [constructor|]. apply (as_call a t b w); [by rewrite S3, Ht|]. intros t' o. rewrite S3.
      destruct (thr c !! t') as [th|] eqn:H1; [|done]. cbn. destruct (G !! t'); [|done]. cbn. intros [= <-]. by apply (Hu t').
    + split; [done|done|]. intros t'. cbn. destruct (decide (t' = t)) as [->|?].
      * rewrite !lookup_insert_eq. done.
      * rewrite !lookup_insert_ne by done. apply S3.
Qed.

(** ** The interrupt handler *)

Definition with_intr (c : vsys) (s : vst) (k : option (vst → outcome vst unit)) : vsys := VSys s (thr c) (holder c) k.

Lemma vinv_intr c G U C F k :
  vinv c G U C F → holder c = None → (C ≠ [] → h_istatus (hw (vs c)) ≠ 0 ∨ is_Some k) →
  (∀ k', k = Some k' → intr_ok (length (flight (vs c) U C)) (vs c) C k') → vinv (with_intr c (vs c) k) G U C F.
Proof. intros [] Hh Hi Hk. by split. Qed.
Lemma sim_intr c G U F a k : sim c G U F a → sim (with_intr c (vs c) k) G U F a.
Proof. by intros []. Qed.

Definition ack : vst → vst := upd_hw (upd_h_istatus (λ v, Z.land v (Z.lnot (Z.land v 3)))).
Lemma ack_inv c G U C F : vinv c G U C F → is_Some (intr c) → vinv (with_intr c (ack (vs c)) (intr c)) G U C F.
Proof.
  intros Hv [k Hk]. destruct Hv. unfold with_intr. rewrite Hk in *. split; cbn; try done.
  - by destruct iv_lens.
  - intros t th ph H1 H2. specialize (iv_tok t th ph H1 H2). eapply tok_same; [exact iv_tok|done|apply iv_tok|done].
  - by eapply rings_ext.
  - intros HC. right. by eexists.
Qed.

Lemma used_all c G U C F : vinv c G U C F → used_idx (vs c) = uidx (vs c) ↔ C = [].
Proof.
  intros Hv. pose proof (flight_len _ _ _ _ _ Hv) as Hl. unfold flight in Hl. rewrite !length_app in Hl.
  destruct (iv_rings _ _ _ _ _ Hv) as [_ _ _ E E0 _ _ _ _]. unfold u16 in *. split; [|intros ->; cbn in E; rewrite Z.add_0_r in E; congruence].
  intros Eq. destruct C as [|h C]; [done|]. cbn [length] in *. change (2 ^ 16) with 65536 in *. exfalso. Z.div_mod_to_equations; lia.
Qed.

(** The loop, from its test on. *)
Lemma loop_run c G U C F f :
  vinv c G U C F → holder c = None → (length (flight (vs c) U C) < f)%nat →
  loopM f intr_body tt (vs c) = Done tt (vs c) ∧ vinv (with_intr c (vs c) None) G U C F ∨
  ∃ k, loopM f intr_body tt (vs c) = Sleep ChNull (vs c) k ∧ vinv (with_intr c (vs c) (Some k)) G U C F.
Proof.
  intros Hv Hh Hf. destruct f as [|f]; [lia|]. destruct (decide (C = [])) as [HC|HC].
  - left. assert (intr_body tt (vs c) = Done (inr tt) (vs c)) as Hb.
    { unfold intr_body, mbind, M_bind, gets. cbn. rewrite (proj2 (Z.eqb_eq _ _)); [done|]. by eapply used_all. }
    split; [cbn [loopM]; unfold mbind, M_bind; by rewrite Hb|]. apply vinv_intr; [done|done|by intros|done].
  - right. eexists. assert (intr_body tt (vs c) = Sleep ChNull (vs c) (intr_entry (used_idx (vs c)))) as Hb.
    { unfold intr_body, mbind, M_bind, gets. cbn. rewrite (proj2 (Z.eqb_neq _ _)); [done|]. rewrite (used_all _ _ _ _ _ Hv). done. }
    split; [cbn [loopM]; unfold mbind, M_bind; rewrite Hb; reflexivity|]. apply vinv_intr; [done|done|intros _; right; by eexists|].
    intros k' [= <-]. right. right. exists f. split_and!; [lia|done|done].
Qed.

Definition handled (b : nat) (s : vst) : vst :=
  upd_used_idx (λ n, u16 (n + 1)) (upd_asleep (filter (λ x, x.2 ≠ ChBuf b)) (upd_vbufs (alter (upd_vb_disk (λ _, 0)) b) s)).

Lemma entry_run c G U h C F :
  vinv c G U (h :: C) F → holder c = None →
  h ∈ F ∧ intr_entry (used_idx (vs c)) (vs c) = Panic "virtio_disk_intr status" (vs c) ∨
  h ∉ F ∧ ∃ t th idx, thr c !! t = Some th ∧ G !! t = Some (PhWait idx) ∧ idx.1.1 = h ∧ dflag (vs c) (t_b th) = Some 1 ∧
    intr_entry (used_idx (vs c)) (vs c) = Done (inl tt) (handled (t_b th) (vs c)).
Proof.
  intros Hv Hh. assert (h ∈ flight (vs c) U (h :: C)) as Hin by (unfold flight; set_solver).
  pose proof (flight_idx8 _ _ _ _ _ _ Hv Hin) as Hi8.
  apply (iv_heads _ _ _ _ _ Hv) in Hin as (t & th & ph & idx & H1 & H2 & H3 & H4 & H5).
  assert (ph = PhWait idx) as ->.
  { destruct ph; try done; cbn in H3; simplify_eq; [|done]. assert (holder c = Some t); [|congruence]. apply (iv_hold _ _ _ _ _ Hv). eauto. }
  pose proof (iv_tok _ _ _ _ _ Hv t th _ H1 H2) as Htok.
  pose proof (ch_info _ _ _ _ (to_chain _ _ _ _ Htok idx eq_refl)) as Hib. rewrite H4 in Hib.
  destruct (iv_rings _ _ _ _ _ Hv) as [_ _ _ _ _ Hru _ Hst _]. destruct (Hst h ltac:(left)) as (v & Hsv & HF).
  apply ring_head in Hru. rewrite list_lookup_fmap in Hru. destruct (uring (vs c) !! _) as [[e l]|] eqn:Hu; [|done]. cbn in Hru. injection Hru as ->.
  destruct (info (vs c) !! Z.to_nat h) as [[ib st]|] eqn:Hi; [|done]. cbn in Hib, Hsv. simplify_eq. destruct (to_buf _ _ _ _ Htok) as [x Hx].
  assert (vat uring (used_idx (vs c) mod NUM) (vs c) = Done (idx.1.1, l) (vs c)) as Hv1.
  { unfold vat, mbind, M_bind, gets. cbn [obind]. rewrite (proj2 (Z.ltb_ge _ 0)) by (by apply Z.mod_pos_bound). by rewrite Hu. }
  assert (vat info idx.1.1 (vs c) = Done (DInfo (Some (t_b th)) v) (vs c)) as Hv2.
  { unfold vat, mbind, M_bind, gets. cbn [obind]. rewrite (proj2 (Z.ltb_ge _ 0)) by (apply Hi8). by rewrite Hi. }
  destruct (decide (v = 0)) as [->|Hne].
  2:{ left. split; [by apply HF|]. unfold intr_entry, mbind, M_bind. rewrite Hv1. cbn [obind fst]. rewrite Hv2. cbn [obind in_status].
      by rewrite (proj2 (Z.eqb_neq v 0)) by done. }
  right. split; [intros Hin; by apply HF in Hin|]. exists t, th, idx. split_and!; try done.
  assert (wp (intr_entry (used_idx (vs c))) (λ r s', r = inl tt ∧ s' = handled (t_b th) (vs c)) (vs c)) as Hwp.
  { unfold intr_entry. wp_step. eapply vat_wp; [by apply Z.mod_pos_bound|exact Hu|]. cbv zeta. wp_step.
    eapply vat_wp; [apply Hi8|exact Hi|]. cbn [in_status in_b]. change (negb (0 =? 0)) with false. cbv iota. wp_step.
    eapply vset_wp; [lia|rewrite Nat2Z.id; exact Hx|]. wp_steps. unfold vwakeup. wp_steps. split; [done|].
    unfold handled. f_equal. f_equal. apply vst_ext; try reflexivity. cbn. rewrite Nat2Z.id. by apply list_insert_alter_Some. }
  apply wp_elim in Hwp as (r & s' & -> & -> & ->). done.
Qed.

Lemma handled_flag b s c : dflag (handled b s) c = if decide (c = b) then (λ _, 0) <$> dflag s c else dflag s c.
Proof.
  unfold dflag. cbn. rewrite list_lookup_alter. case_decide as E; [subst c; rewrite decide_True by done|by rewrite decide_False].
  by destruct (vbufs s !! b).
Qed.
Lemma handled_bno b s c : bno (handled b s) c = bno s c.
Proof. unfold bno. cbn. rewrite list_lookup_alter. case_decide; [subst c|done]. by destruct (vbufs s !! b). Qed.

Lemma handled_inv c G U h C F t th idx f :
  vinv c G U (h :: C) F → h ∉ F → holder c = None → thr c !! t = Some th → G !! t = Some (PhWait idx) → idx.1.1 = h →
  dflag (vs c) (t_b th) = Some 1 → (length (flight (vs c) U (h :: C)) ≤ f)%nat →
  vinv (with_intr c (handled (t_b th) (vs c)) (Some (loopM f intr_body tt))) G U C F.
Proof.
  intros Hv HnF Hh H1 H2 H3 H4 Hf. pose proof (flight_len _ _ _ _ _ Hv) as Hl8.
  assert (flight (vs c) U (h :: C) ≡ₚ h :: flight (vs c) U C) as Hp by (unfold flight; by rewrite <-!Permutation_middle).
  assert (∀ t' th', thr c !! t' = Some th' → t' ≠ t → t_b th' ≠ t_b th) as Hnb.
  { intros t' th' Ht' Hne E. apply Hne. by eapply (iv_own _ _ _ _ _ Hv). }
  pose proof Hv as []. destruct iv_rings as [R1 R2 R3 R4 R5 R6 R7 R8 R9]. split; cbn; try done.
  - by destruct iv_lens.
  - intros b x Hx. rewrite list_lookup_alter in Hx. case_decide; [subst b|by eapply iv_buf].
    destruct (vbufs (vs c) !! t_b th) as [y|] eqn:Hy; [|done]. injection Hx as <-. by apply (iv_buf _ _ Hy).
  - intros t' th' ph Ht' HG'. specialize (iv_tok t' th' ph Ht' HG'). eapply tok_same; [exact iv_tok|by split; try done; apply handled_bno| |done].
    rewrite handled_flag. case_decide as E; [|apply iv_tok].
    destruct (decide (t' = t)) as [->|Hne]; [|by destruct (Hnb t' th')]. simplify_eq. rewrite H4. by right.
  - split; cbn; try done.
    + rewrite R4, u16_add. cbn [length]. f_equal. lia.
    + unfold u16. by rewrite Z.mod_mod.
    + by eapply ring_pop.
    + rewrite Hp in R7. by apply NoDup_cons in R7 as [_ ?].
    + intros h' Hh'. apply R8. by right.
    + intros h' Hh'. apply R9 in Hh' as Hin. apply elem_of_cons in Hin as [->|?]; done.
  - intros h'. change (flight (handled (t_b th) (vs c)) U C) with (flight (vs c) U C).
    assert (h' ∈ flight (vs c) U C ↔ h' ∈ flight (vs c) U (h :: C) ∧ h' ≠ h) as ->.
    { rewrite Hp in R7 |- *. apply NoDup_cons in R7 as [Hni _]. set_solver. }
    rewrite iv_heads. unfold queued. split.
    + intros [(t' & th' & ph & idx' & A1 & A2 & A3 & A4 & A5) Hne]. exists t', th', ph, idx'. split_and!; try done.
      rewrite handled_flag, decide_False; [done|]. apply (Hnb t'); [done|]. intros ->. simplify_eq. cbn in A3. by simplify_eq.
    + intros (t' & th' & ph & idx' & A1 & A2 & A3 & A4 & A5). rewrite handled_flag in A5.
      destruct (decide (t' = t)) as [->|Hne]; [simplify_eq; rewrite decide_True, H4 in A5 by done; done|].
      rewrite decide_False in A5 by eauto. split; [by exists t', th', ph, idx'|]. intros ->. apply Hne.
      eapply (queued_inj _ _ _ _ _ t' t ph (PhWait idx) idx' idx Hv); [done|done|by apply queued_idx|done|congruence].
  - intros t' ch Hch. apply map_lookup_filter_Some in Hch as [Hch Hne]. cbn in Hne.
    destruct (iv_asleep t' ch Hch) as (th' & ph & A1 & A2 & A3). exists th', ph. split_and!; try done.
    destruct ph; cbn in *; try done. destruct A3 as [-> A3]. split; [done|]. rewrite handled_flag, decide_False; [done|]. intros E. by rewrite E in Hne.
  - intros _. right. by eexists.
  - intros k [= <-]. right. left. exists f. split; [|done]. rewrite Hp in Hf. cbn in Hf. change (flight (handled (t_b th) (vs c)) U C) with (flight (vs c) U C). lia.
Qed.

Lemma handled_sim c G U F a b k : sim c G U F a → sim (with_intr c (handled b (vs c)) k) G U F a.
Proof.
  intros [S1 S2 S3]. split; [|done|done]. rewrite S1. cbn. apply list_eq. intros i. rewrite !list_lookup_fmap, list_lookup_alter.
  case_decide; [subst i|done]. by destruct (vbufs (vs c) !! b).
Qed.

(** A stretch of the handler: it panics only when an operation has failed. *)
Lemma handler_run c G U C F a k :
  vinv c G U C F → sim c G U F a → intr c = Some k →
  F ≠ [] ∧ k (vs c) = Panic "virtio_disk_intr status" (vs c) ∨
  ∃ C' s', k (vs c) = Done tt s' ∧ vinv (with_intr c s' None) G U C' F ∧ sim (with_intr c s' None) G U F a ∨
    ∃ k', k (vs c) = Sleep ChNull s' k' ∧ vinv (with_intr c s' (Some k')) G U C' F ∧ sim (with_intr c s' (Some k')) G U F a.
Proof.
  intros Hv Hs Hk. pose proof (iv_lock _ _ _ _ _ Hv ltac:(by eexists)) as Hh.
  destruct (iv_intr _ _ _ _ _ Hv k Hk) as [->|[(f & Hf & ->)|(f & Hf & HC & ->)]].
  - right. exists C, (ack (vs c)). right. eexists. split; [reflexivity|]. split; [|by destruct Hs].
    pose proof (ack_inv _ _ _ _ _ Hv ltac:(by eexists)) as Hv'.
    apply (vinv_intr (with_intr c (ack (vs c)) (intr c))); [done|done|intros _; right; by eexists|].
    intros k' [= <-]. right. left. exists 9%nat. split; [|done]. pose proof (flight_len _ _ _ _ _ Hv'). lia.
  - right. exists C, (vs c). destruct (loop_run c G U C F f Hv Hh Hf) as [[E Hv']|(k' & E & Hv')]; [left|right; exists k']; split_and!; try done; by apply sim_intr.
  - destruct C as [|h C]; [done|]. destruct (entry_run c G U h C F Hv Hh) as [[HF Hrun]|(HF & t & th & idx & H1 & H2 & H3 & H4 & Hrun)].
    { left. split; [intros ->; by apply elem_of_nil in HF|]. unfold mbind, M_bind. by rewrite Hrun. }
    right. pose proof (handled_inv c G U h C F t th idx f Hv HF Hh H1 H2 H3 H4 Hf) as Hv'.
    assert ((intr_entry (used_idx (vs c)) ≫= λ r, match r with inl a => loopM f intr_body a | inr b => mret b end) (vs c) =
            loopM f intr_body tt (handled (t_b th) (vs c))) as ->.
    { unfold mbind, M_bind. rewrite Hrun. done. }
    exists C, (handled (t_b th) (vs c)).
    assert (length (flight (handled (t_b th) (vs c)) U C) < f)%nat as Hf'.
    { unfold flight in *. change (pend (handled (t_b th) (vs c))) with (pend (vs c)). rewrite !length_app in *. cbn in Hf. lia. }
    destruct (loop_run _ G U C F f Hv' Hh Hf') as [[E Hv2]|(k' & E & Hv2)]; [left|right; exists k']; split_and!; try done; by apply handled_sim.
Qed.

(** ** A process runs *)

Definition t_queued (s : vst) (b : nat) (ph : phase) (h : Z) : Prop :=
  ∃ idx, ph_queued ph = Some idx ∧ idx.1.1 = h ∧ dflag s b = Some 1.

Section run.
Context (c : vsys) (G : gmap nat phase) (U C F : list Z) (t : nat) (th : thread) (ph : phase).
Hypotheses (Hv : vinv c G U C F) (Ht : thr c !! t = Some th) (HG : G !! t = Some ph) (Hrun : runnable c t).

Lemma run_no_intr : intr c = None.
Proof using Hv Hrun.
  destruct Hrun as [Hh|(_ & Hi & _)]; [|done]. destruct (intr c) eqn:E; [|done].
  rewrite (iv_lock _ _ _ _ _ Hv) in Hh; [done|]. by rewrite E.
Qed.
Lemma run_others t' ph' : G !! t' = Some ph' → t' ≠ t → ph_locked ph' = false.
Proof using Hv Hrun.
  intros H1 Hne. destruct (ph_locked ph') eqn:E; [|done].
  assert (holder c = Some t') as Hh by (apply (iv_hold _ _ _ _ _ Hv); eauto). destruct Hrun as [Hh'|(Hh' & _)]; congruence.
Qed.
Lemma flight_split h :
  h ∈ flight (vs c) U C ↔ t_queued (vs c) (t_b th) ph h ∨
    ∃ t' th' ph', t' ≠ t ∧ thr c !! t' = Some th' ∧ G !! t' = Some ph' ∧ t_queued (vs c) (t_b th') ph' h.
Proof using Hv Ht HG.
  rewrite (iv_heads _ _ _ _ _ Hv h). split.
  - intros (t' & th' & ph' & idx & H1 & H2 & H3 & H4 & H5). destruct (decide (t' = t)) as [->|Hne].
    + simplify_eq. left. by exists idx.
    + right. exists t', th', ph'. split_and!; try done. by exists idx.
  - intros [(idx & H1 & H2 & H3)|(t' & th' & ph' & _ & H1 & H2 & idx & H3 & H4 & H5)]; [by exists t, th, ph, idx|by exists t', th', ph', idx].
Qed.

Lemma vinv_run s' ph' k' U' :
  vlens s' → (∀ b x, vbufs s' !! b = Some x → 0 ≤ vb_blockno x < 2 ^ 31 ∧ length (vb_data x) = Z.to_nat BSIZE) →
  tok s' t (Thread (t_b th) (t_w th) k') ph' →
  (∀ t' th' ph'', t' ≠ t → thr c !! t' = Some th' → G !! t' = Some ph'' →
     same_for (vs c) s' (ph_members ph'') (t_b th') ∧ dflag s' (t_b th') = dflag (vs c) (t_b th') ∧
     ∀ i, i ∈ ph_members ph' → i ∉ ph_members ph'') →
  (∀ i, idx8 i → dfree s' !! Z.to_nat i = Some false ↔
     i ∈ ph_members ph' ∨ i ∉ ph_members ph ∧ dfree (vs c) !! Z.to_nat i = Some false) →
  rings s' U' C F →
  (∀ h, h ∈ flight s' U' C ↔ t_queued s' (t_b th) ph' h ∨ ¬ t_queued (vs c) (t_b th) ph h ∧ h ∈ flight (vs c) U C) →
  (∀ t' ch, asleep s' !! t' = Some ch → (t' = t ∧ sleep_ok s' (Thread (t_b th) (t_w th) k') ph' ch) ∨
     (t' ≠ t ∧ asleep (vs c) !! t' = Some ch ∧ (ch = ChDiskFree → few (dfree (vs c)) → few (dfree s')))) →
  (U' ≠ [] → h_notify (hw s') = true ∨ (∃ idx, ph' = PhIdx idx) ∨ (U ≠ [] ∧ h_notify (hw s') = h_notify (hw (vs c)) ∧ ph_locked ph = false)) →
  h_istatus (hw s') = h_istatus (hw (vs c)) →
  vinv (VSys s' (<[t := Thread (t_b th) (t_w th) k']> (thr c)) (if ph_locked ph' then Some t else None) (intr c)) (<[t := ph']> G) U' C F.
Proof using Hv Ht HG Hrun.
  intros L1 L2 Htok Hoth Hfree Hrings Hfl Hasl Hnot Hist. pose proof run_no_intr as Hni. pose proof run_others as Hlk.
  pose proof flight_split as Hsplit. destruct Hv. split; cbn; try done.
  - intros t'. destruct (decide (t' = t)) as [->|?]; [by rewrite !lookup_insert_eq|by rewrite !lookup_insert_ne].
  - intros t' th' ph'' H1 H2. destruct (decide (t' = t)) as [->|Hne]; ins; [done|].
    destruct (Hoth t' th' ph'' Hne H1 H2) as (Hsame & Hfl' & _). specialize (iv_tok t' th' ph'' H1 H2).
    eapply tok_same; [exact iv_tok|done|rewrite Hfl'; apply iv_tok|]. intros idx ->. by specialize (Hlk t' _ H2 Hne).
  - intros t1 t2 th1 th2 H1 H2 E. destruct (decide (t1 = t)) as [->|?], (decide (t2 = t)) as [->|?]; ins; eauto.
  - intros i Hi. rewrite (Hfree i Hi). split.
    + intros [Hm|[Hm Hd]]; [by exists t, ph'; rewrite lookup_insert_eq|]. apply (iv_free i Hi) in Hd as (t' & ph'' & H1 & H2).
      exists t', ph''. rewrite lookup_insert_ne; [done|]. intros <-. by simplify_eq.
    + intros (t' & ph'' & H1 & H2). destruct (decide (t' = t)) as [->|Hne]; ins; [by left|]. right. split.
      * intros Hm. apply Hne. by eapply iv_disj.
      * apply (iv_free i Hi). eauto.
  - intros t1 t2 ph1 ph2 i H1 H2 I1 I2. destruct (decide (t1 = t)) as [->|N1], (decide (t2 = t)) as [->|N2]; ins; [done|..|eauto].
    + destruct (proj2 (iv_dom t2)) as [th2 Ht2]; [by eexists|]. by destruct (Hoth t2 th2 ph2 N2 Ht2 H2) as (_ & _ & Hd); destruct (Hd i).
    + destruct (proj2 (iv_dom t1)) as [th1 Ht1]; [by eexists|]. by destruct (Hoth t1 th1 ph1 N1 Ht1 H1) as (_ & _ & Hd); destruct (Hd i).
  - intros t'. destruct (decide (t' = t)) as [->|Hne].
    + rewrite lookup_insert_eq. destruct (ph_locked ph') eqn:E; split; try done; [by exists ph'|]. intros (? & [= <-] & ?). congruence.
    + rewrite lookup_insert_ne by done. split; [by destruct (ph_locked ph'); intros [= ->]|]. intros (ph'' & H1 & H2).
      by rewrite (Hlk t' ph'' H1 Hne) in H2.
  - by rewrite Hni; intros [? ?].
  - intros h. rewrite Hfl. unfold queued. split.
    + intros [(idx & A1 & A2 & A3)|[Hn Hin]].
      * exists t, (Thread (t_b th) (t_w th) k'), ph', idx. by rewrite !lookup_insert_eq.
      * apply Hsplit in Hin as [?|(t' & th' & ph'' & Hne & A1 & A2 & idx & A3 & A4 & A5)]; [done|]. exists t', th', ph'', idx.
        rewrite !lookup_insert_ne by done. split_and!; try done. by destruct (Hoth t' th' ph'' Hne A1 A2) as (_ & -> & _).
    + intros (t' & th' & ph'' & idx & A1 & A2 & A3 & A4 & A5). destruct (decide (t' = t)) as [->|Hne]; ins; [left; by exists idx|right].
      destruct (Hoth t' th' ph'' Hne A1 A2) as (_ & Ed & _). rewrite Ed in A5. split.
      * intros (idx' & B1 & B2 & _). apply Hne. eapply (iv_disj t' t ph'' ph (idx.1.1)); [done|done|..];
          unfold ph_members; rewrite ?(queued_idx _ _ A3), ?(queued_idx _ _ B1); cbn; unfold members; rewrite <-?B2; set_solver.
      * apply Hsplit. right. exists t', th', ph''. split_and!; try done. by exists idx.
  - intros t' ch Hch. destruct (Hasl t' ch Hch) as [[-> Hs]|(Hne & Hch' & Hfew)].
    + eexists _, _. rewrite !lookup_insert_eq. done.
    + destruct (iv_asleep t' ch Hch') as (th' & ph'' & A1 & A2 & A3). exists th', ph''. rewrite !lookup_insert_ne by done.
      split_and!; try done. destruct ph''; cbn in *; try done.
      * destruct A3 as [-> A3]. auto.
      * by destruct (Hoth t' th' _ Hne A1 A2) as (_ & -> & _).
  - intros HU. destruct (Hnot HU) as [?|[[idx ->]|(HU0 & -> & Hl)]]; [by left|right; exists t, idx; by rewrite lookup_insert_eq|].
    destruct (iv_notify HU0) as [?|(t' & idx & A1)]; [by left|]. destruct (decide (t' = t)) as [->|Hne]; [by simplify_eq|].
    by specialize (Hlk t' _ A1 Hne).
  - rewrite Hist. intros HC. destruct (iv_int HC) as [?|Hi]; [by left|]. rewrite Hni in Hi. by destruct Hi.
  - by rewrite Hni.
Qed.

Lemma sim_run s' ph' k' U' a :
  sim c G U F a → (∀ b, bno s' b = bno (vs c) b) → (∀ b, vb_data <$> vbufs s' !! b = vb_data <$> vbufs (vs c) !! b) →
  h_image (hw s') = h_image (hw (vs c)) →
  (∀ h, h ∈ U' ++ pend s' ↔ h ∈ U ++ pend (vs c) ∨ ph_queued ph = None ∧ ∃ idx, ph_queued ph' = Some idx ∧ idx.1.1 = h) →
  (∀ idx, ph_queued ph = None → ph_queued ph' = Some idx → idx.1.1 ∉ F) →
  (∀ idx, ph_queued ph = None → ph_queued ph' = Some idx →
     ∀ t' ph'' idx', t' ≠ t → G !! t' = Some ph'' → ph_queued ph'' = Some idx' → idx'.1.1 ≠ idx.1.1) →
  (ph_queued ph = None ∨ ph_queued ph' = ph_queued ph) →
  sim (VSys s' (<[t := Thread (t_b th) (t_w th) k']> (thr c)) (if ph_locked ph' then Some t else None) (intr c)) (<[t := ph']> G) U' F a.
Proof using Ht HG.
  intros [S1 S2 S3] Hb Hd Hi Hm Hnew Hdis Hq. split; cbn.
  - rewrite S1. apply list_eq. intros i. rewrite !list_lookup_fmap. specialize (Hb i). specialize (Hd i). unfold bno in Hb.
    destruct (vbufs s' !! i), (vbufs (vs c) !! i); cbn in *; simplify_eq; [congruence|done].
  - congruence.
  - intros t'. destruct (decide (t' = t)) as [->|Hne].
    + rewrite !lookup_insert_eq, S3, Ht. cbn. rewrite HG. cbn. do 2 f_equal. destruct Hq as [Hq|Hq].
      * unfold stage_of. rewrite Hq. destruct (ph_queued ph') as [idx|] eqn:Hq'; [|done].
        rewrite decide_False, decide_True; [done|apply Hm; right; eauto|eauto].
      * apply stage_ext; [done|]. intros idx E. split; [done|]. rewrite Hm, E. naive_solver.
    + rewrite !lookup_insert_ne, S3 by done. destruct (thr c !! t') as [th'|]; [|done]. cbn. destruct (G !! t') as [ph''|] eqn:HG'; [|done]. cbn.
      do 2 f_equal. apply stage_ext; [done|]. intros idx' Hq'. split; [done|]. rewrite Hm.
      split; [tauto|]. intros [?|(Hn1 & idx & Hn2 & E)]; [done|]. by destruct (Hdis idx Hn1 Hn2 t' ph'' idx').
Qed.

(** The phases of a process, one by one. *)
Lemma same_all s' l b : desc s' = desc (vs c) → ops s' = ops (vs c) → info s' = info (vs c) → bno s' b = bno (vs c) b → same_for (vs c) s' l b.
Proof. intros E1 E2 E3 E4. split; [by rewrite E1|by rewrite E2|by rewrite E3|done]. Qed.

Lemma alloc_sleep s0 f :
  ph = PhAlloc → undone (vs c) s0 → few (dfree (vs c)) →
  let s' := upd_asleep (<[t := ChDiskFree]>) s0 in
  vinv (VSys s' (<[t := Thread (t_b th) (t_w th) (k_alloc f t (t_b th) (t_w th))]> (thr c)) None (intr c)) (<[t := PhAlloc]> G) U C F ∧
  ∀ a, sim c G U F a → sim (VSys s' (<[t := Thread (t_b th) (t_w th) (k_alloc f t (t_b th) (t_w th))]> (thr c)) None (intr c)) (<[t := PhAlloc]> G) U F a.
Proof using Hv Ht HG Hrun.
  intros Eph Hu Hfew s'. pose proof (iv_tok _ _ _ _ _ Hv t th ph Ht HG) as Htok. pose proof Hu as [E El Ed Ea].
  assert (avail_idx s0 = avail_idx (vs c) ∧ avail_ring s0 = avail_ring (vs c) ∧ uidx s0 = uidx (vs c) ∧ uring s0 = uring (vs c) ∧
    dfree s0 = dfree (vs c) ∧ used_idx s0 = used_idx (vs c) ∧ info s0 = info (vs c) ∧ ops s0 = ops (vs c) ∧ vbufs s0 = vbufs (vs c) ∧
    hw s0 = hw (vs c)) as (E1 & E2 & E3 & E4 & E5 & E6 & E7 & E8 & E9 & E10) by (rewrite E; done).
  split.
  - apply (vinv_run s' PhAlloc); cbn; rewrite ?E5, ?E9, ?E10; try done.
    + destruct (iv_lens _ _ _ _ _ Hv). split; cbn; congruence.
    + apply (iv_buf _ _ _ _ _ Hv).
    + split; cbn; rewrite ?E9; [by eexists|apply Htok|done|done|done].
    + intros t' th' ph'' Hne A1 A2. split_and!; [|unfold dflag; cbn; by rewrite E9|set_solver].
      pose proof (iv_tok _ _ _ _ _ Hv t' th' ph'' A1 A2) as Htok'.
      split; cbn; rewrite ?E7, ?E8; try done; [|unfold bno; cbn; by rewrite E9].
      intros i Hi. apply Ed. apply (iv_free _ _ _ _ _ Hv); [|eauto]. unfold ph_members in Hi.
      destruct (ph_idx ph'') as [idx|] eqn:Hq; [|cbn in Hi; set_solver]. pose proof (ch_range _ _ _ _ (to_chain _ _ _ _ Htok' idx Hq)) as Hr.
      rewrite Forall_forall in Hr. by apply Hr.
    + intros i Hi. rewrite Eph. cbn. split; [right; split; [set_solver|done]|]. intros [?|[_ ?]]; [set_solver|done].
    + eapply rings_ext; [apply (iv_rings _ _ _ _ _ Hv)|cbn; rewrite ?E7, ?E10; try done..]. unfold pend. cbn. by rewrite E10.
    + intros h. unfold flight, pend. cbn. rewrite E10. rewrite Eph. unfold t_queued. cbn. naive_solver.
    + intros t' ch Hch. destruct (decide (t' = t)) as [->|Hne]; ins; [left; done|right]. split_and!; try done. by eapply lookup_weaken.
    + intros HU. right. right. rewrite Eph. done.
  - intros a Hs. apply (sim_run s' PhAlloc _ U a Hs); rewrite ?Eph; cbn; rewrite ?E10; try done.
    + intros b. unfold bno. cbn. by rewrite E9.
    + intros b. by rewrite E9.
    + intros h. unfold pend. cbn. rewrite E10. naive_solver.
    + by left.
Qed.

Section submit.
Context (x : vbuf) (i0 i1 i2 : nat).
Hypotheses (Eph : ph = PhAlloc) (Hx : vbufs (vs c) !! t_b th = Some x) (Hnd : NoDup [i0; i1; i2])
  (F0 : dfree (vs c) !! i0 = Some true) (F1 : dfree (vs c) !! i1 = Some true) (F2 : dfree (vs c) !! i2 = Some true).
Notation idx := (Z.of_nat i0, Z.of_nat i1, Z.of_nat i2).
Notation s' := (formatted (t_b th) (t_w th) (vb_blockno x) idx (taken i0 i1 i2 (vs c))).

Lemma submit_distinct : i0 ≠ i1 ∧ i0 ≠ i2 ∧ i1 ≠ i2.
Proof. apply NoDup_cons in Hnd as [H1 Hn]. apply NoDup_cons in Hn as [H2 _]. set_solver. Qed.
Lemma submit_idx8 : idx8 (Z.of_nat i0) ∧ idx8 (Z.of_nat i1) ∧ idx8 (Z.of_nat i2).
Proof. split_and!; by eapply idx8_nat; [apply (iv_lens _ _ _ _ _ Hv)|]. Qed.

Lemma submit_lens : vlens s'.
Proof. destruct (iv_lens _ _ _ _ _ Hv). split; cbn; rewrite ?length_insert; done. Qed.

Lemma submit_chain : chain s' (t_b th) (t_w th) idx.
Proof.
  destruct submit_distinct as (N1 & N2 & N3). destruct submit_idx8 as (I0 & I1 & I2). pose proof (iv_lens _ _ _ _ _ Hv) as [].
  assert (i0 < 8 ∧ i1 < 8 ∧ i2 < 8)%nat as (J0 & J1 & J2) by (unfold idx8 in *; lia).
  split; cbn; rewrite ?Nat2Z.id.
  - unfold members. cbn. repeat constructor; apply submit_idx8.
  - unfold members. cbn. repeat constructor; rewrite ?elem_of_cons, ?elem_of_nil; lia.
  - rewrite !list_lookup_insert_ne by done. apply list_lookup_insert_eq. lia.
  - rewrite list_lookup_insert_ne by done. apply list_lookup_insert_eq. rewrite length_insert. lia.
  - apply list_lookup_insert_eq. rewrite !length_insert. lia.
  - eexists. split; [rewrite list_lookup_alter_eq, Hx; done|]. cbn. apply list_lookup_insert_eq. lia.
  - rewrite list_lookup_insert_eq by lia. done.
Qed.

Lemma submit_bufs b : bno s' b = bno (vs c) b ∧ (b ≠ t_b th → dflag s' b = dflag (vs c) b) ∧ vb_data <$> vbufs s' !! b = vb_data <$> vbufs (vs c) !! b.
Proof.
  unfold bno, dflag. cbn. rewrite list_lookup_alter. case_decide as E; [subst b|done]. by destruct (vbufs (vs c) !! t_b th).
Qed.
Lemma submit_flag : dflag s' (t_b th) = Some 1.
Proof. unfold dflag. cbn. by rewrite list_lookup_alter_eq, Hx. Qed.

Lemma submit_free i : idx8 i → dfree s' !! Z.to_nat i = Some false ↔ i ∈ members idx ∨ dfree (vs c) !! Z.to_nat i = Some false.
Proof.
  intros Hi. destruct submit_distinct as (N1 & N2 & N3). pose proof (l_free _ (iv_lens _ _ _ _ _ Hv)) as Hl.
  pose proof submit_idx8 as (I0 & I1 & I2). unfold idx8 in *. unfold members. cbn. rewrite !elem_of_cons, elem_of_nil.
  destruct (decide (i = Z.of_nat i2)) as [->|H2]; [rewrite Nat2Z.id, list_lookup_insert_eq by (rewrite ?length_insert; lia); tauto|].
  rewrite list_lookup_insert_ne by lia.
  destruct (decide (i = Z.of_nat i1)) as [->|H1]; [rewrite Nat2Z.id, list_lookup_insert_eq by (rewrite ?length_insert; lia); tauto|].
  rewrite list_lookup_insert_ne by lia.
  destruct (decide (i = Z.of_nat i0)) as [->|N0]; [rewrite Nat2Z.id, list_lookup_insert_eq by (rewrite ?length_insert; lia); tauto|].
  rewrite list_lookup_insert_ne by lia. tauto.
Qed.

Lemma submit_fresh i t' ph'' : i ∈ members idx → G !! t' = Some ph'' → i ∉ ph_members ph''.
Proof.
  intros Hi HG' Hm. pose proof submit_idx8 as (I0 & I1 & I2).
  assert (dfree (vs c) !! Z.to_nat i = Some true ∧ idx8 i) as [Hd Hi8].
  { unfold members in Hi. cbn in Hi. rewrite !elem_of_cons, elem_of_nil in Hi. destruct Hi as [->|[->|[->|[]]]]; by rewrite Nat2Z.id. }
  rewrite (proj2 (iv_free _ _ _ _ _ Hv i Hi8)) in Hd; [done|]. eauto.
Qed.

Lemma submit_rings : rings s' U C F.
Proof.
  pose proof (iv_rings _ _ _ _ _ Hv) as [R1 R2 R3 R4 R5 R6 R7 R8 R9]. pose proof submit_idx8 as (I0 & _ & _).
  assert (Z.of_nat i0 ∉ flight (vs c) U C) as Hni.
  { intros Hin. apply (iv_heads _ _ _ _ _ Hv) in Hin as (t' & th' & ph'' & idx' & _ & A2 & A3 & A4 & _).
    eapply (submit_fresh (Z.of_nat i0) t' ph''); [unfold members; cbn; set_solver|done|].
    unfold ph_members. rewrite (queued_idx _ _ A3). cbn. unfold members. rewrite A4. set_solver. }
  split; try done.
  - cbn. rewrite R1, u16_mod8. apply ring_slot; [done|].
    assert (length (Z.of_nat i0 :: flight (vs c) U C) ≤ 8)%nat as Hl.
    { apply nodup_idx8; [by constructor|]. constructor; [done|]. apply Forall_forall. intros h Hh. by eapply flight_idx8. }
    cbn in Hl. unfold flight in Hl. rewrite length_app in Hl. lia.
  - intros h Hh. cbn. rewrite list_lookup_insert_ne; [by apply R8|]. assert (idx8 h) by (eapply flight_idx8; [exact Hv|unfold flight; set_solver]).
    intros E. assert (h = Z.of_nat i0) as -> by (unfold idx8 in *; lia). apply Hni. unfold flight. set_solver.
Qed.

Lemma alloc_submit :
  vinv (VSys s' (<[t := Thread (t_b th) (t_w th) (k_ring t (t_b th) (Z.of_nat i0))]> (thr c)) (Some t) (intr c)) (<[t := PhRing idx]> G) U C F ∧
  ∀ a, sim c G U F a → sim (VSys s' (<[t := Thread (t_b th) (t_w th) (k_ring t (t_b th) (Z.of_nat i0))]> (thr c)) (Some t) (intr c)) (<[t := PhRing idx]> G) U F a.
Proof.
  pose proof (l_avail _ (iv_lens _ _ _ _ _ Hv)) as Hla. pose proof submit_idx8 as (I0 & _ & _).
  split.
  - apply (vinv_run s' (PhRing idx)); try done.
    + exact submit_lens.
    + intros b y Hy. cbn in Hy. rewrite list_lookup_alter in Hy. case_decide; [subst b|by eapply (iv_buf _ _ _ _ _ Hv)].
      rewrite Hx in Hy. injection Hy as <-. apply (iv_buf _ _ _ _ _ Hv _ _ Hx).
    + split; cbn; [done|rewrite list_lookup_alter_eq, Hx; by eexists|intros ? [= <-]; apply submit_chain|apply submit_flag|].
      intros ? [= <-]. cbn. apply list_lookup_insert_eq. rewrite Hla. pose proof (Z.mod_pos_bound (avail_idx (vs c)) NUM ltac:(done)). unfold NUM in *. lia.
    + intros t' th' ph'' Hne A1 A2. assert (t_b th' ≠ t_b th) as Hnb by (intros E; apply Hne; by eapply (iv_own _ _ _ _ _ Hv)).
      split_and!; [|by apply submit_bufs|intros i Hi; by eapply submit_fresh].
      assert (∀ i j, i ∈ ph_members ph'' → j ∈ members idx → Z.to_nat j ≠ Z.to_nat i) as Hdis.
      { intros i j Hi Hj E. assert (idx8 i ∧ idx8 j) as [Ii Ij].
        { split; [|pose proof (ch_range _ _ _ _ submit_chain) as Hr; rewrite Forall_forall in Hr; by apply Hr].
          unfold ph_members in Hi. destruct (ph_idx ph'') as [idx'|] eqn:Hq; [|cbn in Hi; set_solver].
          pose proof (ch_range _ _ _ _ (to_chain _ _ _ _ (iv_tok _ _ _ _ _ Hv t' th' ph'' A1 A2) idx' Hq)) as Hr. rewrite Forall_forall in Hr. by apply Hr. }
        assert (i = j) as -> by (unfold idx8 in *; lia). by eapply submit_fresh. }
      split; [| | |by apply submit_bufs]; intros i Hi; cbn -[Z.to_nat]; rewrite !list_lookup_insert_ne; try done;
        apply (Hdis _ _ Hi); unfold members; cbn; set_solver.
    + intros i Hi. rewrite (submit_free i Hi), Eph. cbn. set_solver.
    + exact submit_rings.
    + intros h. rewrite Eph. unfold t_queued. cbn. naive_solver.
    + intros t' ch Hch. change (asleep (vs c) !! t' = Some ch) in Hch. right. split_and!; [|done|].
      * intros ->. destruct Hrun as [Hh|(_ & _ & Ha)]; [|congruence].
        apply (iv_hold _ _ _ _ _ Hv) in Hh as (? & A1 & A2). rewrite HG, Eph in A1. by injection A1 as <-.
      * intros _ Hfew a1 a2 a3 _ _ _ _. by eapply (Hfew i0 i1 i2).
    + intros HU. right. right. by rewrite Eph.
  - intros a Hs. apply (sim_run s' (PhRing idx) _ U a Hs); rewrite ?Eph; try done.
    + intros b. apply submit_bufs.
    + intros b. apply submit_bufs.
    + intros h. cbn. naive_solver.
    + by left.
Qed.
End submit.

Lemma same_members idx ph' : ph_idx ph = Some idx → ph_idx ph' = Some idx →
  (∀ t' ph'' i, t' ≠ t → G !! t' = Some ph'' → i ∈ ph_members ph' → i ∉ ph_members ph'') ∧
  (∀ i, idx8 i → dfree (vs c) !! Z.to_nat i = Some false ↔ i ∈ ph_members ph' ∨ i ∉ ph_members ph ∧ dfree (vs c) !! Z.to_nat i = Some false).
Proof.
  intros E E'. assert (ph_members ph' = ph_members ph) as -> by (unfold ph_members; by rewrite E, E'). split.
  - intros t' ph'' i Hne HG' Hi Hi'. apply Hne. by eapply (iv_disj _ _ _ _ _ Hv).
  - intros i Hi. split; [|intros [Hm|[_ ?]]; [|done]].
    + intros Hd. destruct (decide (i ∈ ph_members ph)); [by left|by right].
    + apply (iv_free _ _ _ _ _ Hv); eauto.
Qed.

(** Before its entry counts, the head is not in flight. *)
Lemma ring_not_in_flight idx : ph = PhRing idx → idx.1.1 ∉ flight (vs c) U C.
Proof.
  intros E Hin. apply flight_split in Hin as [(idx' & A1 & _)|(t' & th' & ph' & Hne & A1 & A2 & idx' & A3 & A4 & _)]; [by rewrite E in A1|].
  apply Hne. eapply (queued_inj _ _ _ _ _ t' t ph' ph idx' idx Hv); [done|done|by apply queued_idx|by rewrite E|done].
Qed.

Lemma ring_step idx :
  ph = PhRing idx →
  let s' := upd_avail_idx (λ n, u16 (n + 1)) (vs c) in
  let th' := Thread (t_b th) (t_w th) (k_idx t (t_b th) idx.1.1) in
  vinv (VSys s' (<[t := th']> (thr c)) (Some t) (intr c)) (<[t := PhIdx idx]> G) (U ++ [idx.1.1]) C F ∧
  ∀ a, sim c G U F a → sim (VSys s' (<[t := th']> (thr c)) (Some t) (intr c)) (<[t := PhIdx idx]> G) (U ++ [idx.1.1]) F a.
Proof.
  intros Eph s' th'. pose proof (iv_tok _ _ _ _ _ Hv t th ph Ht HG) as [T1 T2 T3 T4 T5].
  destruct (same_members idx (PhIdx idx)) as [Hdis Hfr]; [by rewrite Eph|done|]. pose proof (ring_not_in_flight idx Eph) as Hni.
  assert (flight s' (U ++ [idx.1.1]) C ≡ₚ idx.1.1 :: flight (vs c) U C) as Hp.
  { unfold flight. change (pend s') with (pend (vs c)). rewrite <-app_assoc. cbn. by rewrite <-Permutation_middle. }
  split.
  - apply (vinv_run s' (PhIdx idx)); try done.
    + by destruct (iv_lens _ _ _ _ _ Hv).
    + apply (iv_buf _ _ _ _ _ Hv).
    + rewrite Eph in T3, T4. split; cbn; [done|done|intros ? [= <-]; eapply chain_ext; [by apply T3|done..]|done|done].
    + intros t' th2 ph'' Hne A1 A2. split_and!; [by apply same_all|done|intros i Hi; by eapply Hdis].
    + pose proof (iv_rings _ _ _ _ _ Hv) as [R1 R2 R3 R4 R5 R6 R7 R8 R9]. split; cbn; try done.
      * rewrite R1, u16_add, length_app. cbn. f_equal. lia.
      * apply ring_snoc; [done|]. rewrite <-(T5 idx Eph), R1, u16_mod8. done.
      * rewrite Hp. by constructor.
    + intros h. rewrite Hp, elem_of_cons, Eph. unfold t_queued. cbn. rewrite Eph in T4. cbn in T4.
      change (dflag s' (t_b th)) with (dflag (vs c) (t_b th)). naive_solver.
    + intros t' ch Hch. change (asleep (vs c) !! t' = Some ch) in Hch. right. split_and!; [|done|done]. intros ->.
      destruct (iv_asleep _ _ _ _ _ Hv t ch Hch) as (? & ? & _ & A2 & A3). rewrite HG, Eph in A2. injection A2 as <-. done.
    + intros _. right. left. by eexists.
  - intros a Hs. apply (sim_run s' (PhIdx idx) _ _ a Hs); rewrite ?Eph; try done.
    + intros h. cbn. change (pend s') with (pend (vs c)). rewrite !elem_of_app, list_elem_of_singleton. naive_solver.
    + intros ? _ [= <-] HF. apply Hni. apply (rg_failed _ _ _ _ (iv_rings _ _ _ _ _ Hv)) in HF. unfold flight. rewrite !elem_of_app. by do 2 right.
    + intros ? _ [= <-] t' ph'' idx' Hne A1 A2 E. apply Hne.
      eapply (queued_inj _ _ _ _ _ t' t ph'' ph idx' idx Hv); [done|done|by apply queued_idx|by rewrite Eph|done].
    + by left.
Qed.

(** A process goes to sleep until the interrupt, from the second fence or again. *)
Lemma wait_step idx f s0 :
  ph = PhIdx idx ∨ ph = PhWait idx → dflag (vs c) (t_b th) = Some 1 →
  s0 = vs c ∧ ph = PhWait idx ∨ s0 = upd_hw (upd_h_notify (λ _, true)) (vs c) →
  let s' := upd_asleep (<[t := ChBuf (t_b th)]>) s0 in
  let th' := Thread (t_b th) (t_w th) (k_wait f t (t_b th) idx.1.1) in
  vinv (VSys s' (<[t := th']> (thr c)) None (intr c)) (<[t := PhWait idx]> G) U C F ∧
  ∀ a, sim c G U F a → sim (VSys s' (<[t := th']> (thr c)) None (intr c)) (<[t := PhWait idx]> G) U F a.
Proof.
  intros Eph Hfl Hs0 s' th'. pose proof (iv_tok _ _ _ _ _ Hv t th ph Ht HG) as [T1 T2 T3 T4 T5].
  assert (ph_idx ph = Some idx ∧ ph_queued ph = Some idx) as [Hpi Hpq] by (by destruct Eph as [->| ->]).
  destruct (same_members idx (PhWait idx)) as [Hdis Hfr]; [done|done|].
  assert (desc s0 = desc (vs c) ∧ ops s0 = ops (vs c) ∧ info s0 = info (vs c) ∧ vbufs s0 = vbufs (vs c) ∧ dfree s0 = dfree (vs c) ∧
    avail_idx s0 = avail_idx (vs c) ∧ avail_ring s0 = avail_ring (vs c) ∧ used_idx s0 = used_idx (vs c) ∧ uidx s0 = uidx (vs c) ∧
    uring s0 = uring (vs c) ∧ asleep s0 = asleep (vs c) ∧ pend s0 = pend (vs c) ∧ h_seen (hw s0) = h_seen (hw (vs c)) ∧
    h_istatus (hw s0) = h_istatus (hw (vs c)) ∧ h_image (hw s0) = h_image (hw (vs c)))
    as (E1 & E2 & E3 & E4 & E5 & E6 & E7 & E8 & E9 & E10 & E11 & E12 & E13 & E14 & E15) by (destruct Hs0 as [[-> _]| ->]; done).
  split.
  - apply (vinv_run s' (PhWait idx)); cbn; try done.
    + destruct (iv_lens _ _ _ _ _ Hv). split; cbn; congruence.
    + rewrite E4. apply (iv_buf _ _ _ _ _ Hv).
    + split; cbn; [by eexists|by rewrite E4|intros ? [= <-]; eapply chain_ext; [by apply T3|cbn; by rewrite ?E1, ?E2, ?E3, ?E4..]| |done].
      left. unfold dflag. cbn. rewrite E4. done.
    + intros t' th2 ph'' Hne A1 A2. split_and!; [apply same_all; unfold bno; cbn; congruence|unfold dflag; cbn; congruence|intros i Hi; by eapply Hdis].
    + rewrite E5. exact Hfr.
    + eapply rings_ext; [apply (iv_rings _ _ _ _ _ Hv)|cbn; try done..]. intros h _. by rewrite E3.
    + intros h. unfold flight. change (pend s') with (pend s0). rewrite E12. fold (flight (vs c) U C).
      assert (t_queued (vs c) (t_b th) ph h ↔ idx.1.1 = h) as -> by (unfold t_queued; rewrite Hpq; naive_solver).
      assert (t_queued s' (t_b th) (PhWait idx) h ↔ idx.1.1 = h) as ->.
      { unfold t_queued, dflag. cbn. rewrite E4. fold (dflag (vs c) (t_b th)). naive_solver. }
      destruct (decide (idx.1.1 = h)) as [E|E]; [|tauto]. rewrite flight_split. unfold t_queued. rewrite Hpq. split; [tauto|]. intros _. left. eauto.
    + intros t' ch Hch. rewrite E11 in Hch. destruct (decide (t' = t)) as [->|Hne]; ins; [left|right; rewrite E5; done].
      split; [done|]. split; [done|]. unfold dflag. cbn. rewrite E4. done.
    + intros HU. destruct Hs0 as [[-> E]| ->]; [right; right; by rewrite E|by left].
  - intros a Hs. apply (sim_run s' (PhWait idx) _ _ a Hs); try done.
    + intros b. unfold bno. cbn. by rewrite E4.
    + intros b. cbn. by rewrite E4.
    + intros h. change (pend s') with (pend s0). rewrite E12. naive_solver.
    + congruence.
    + congruence.
    + right. by rewrite Hpq.
Qed.

Definition finished (idx : idx3) (s : vst) : vst :=
  freed idx.2 (freed idx.1.2 (freed idx.1.1 (upd_info (alter (upd_in_b (λ _, None)) (Z.to_nat idx.1.1)) s))).

Lemma finished_desc idx s i : i ∉ members idx → Forall idx8 (members idx) → idx8 i →
  desc (finished idx s) !! Z.to_nat i = desc s !! Z.to_nat i ∧ dfree (finished idx s) !! Z.to_nat i = dfree s !! Z.to_nat i ∧
  info (finished idx s) !! Z.to_nat i = info s !! Z.to_nat i.
Proof.
  intros Hn Hr Hi. unfold members in *. rewrite !not_elem_of_cons in Hn. decompose_Forall. destruct Hn as (N1 & N2 & N3 & _).
  unfold idx8 in *. cbn. rewrite list_lookup_alter_ne by lia. by rewrite !list_lookup_insert_ne by lia.
Qed.
Lemma finished_free idx s i : length (dfree s) = 8%nat → Forall idx8 (members idx) → i ∈ members idx →
  dfree (finished idx s) !! Z.to_nat i = Some true.
Proof.
  intros Hl Hr Hi. assert (idx8 i) as Hi8 by (rewrite Forall_forall in Hr; by apply Hr). unfold members in *. decompose_Forall.
  unfold idx8 in *. cbn. rewrite !elem_of_cons, elem_of_nil in Hi.
  destruct (decide (i = idx.2)) as [->|N2]; [apply list_lookup_insert_eq; rewrite !length_insert; lia|]. rewrite list_lookup_insert_ne by lia.
  destruct (decide (i = idx.1.2)) as [->|N1]; [apply list_lookup_insert_eq; rewrite !length_insert; lia|]. rewrite list_lookup_insert_ne by lia.
  destruct Hi as [->|[?|[?|[]]]]; [|done|done]. apply list_lookup_insert_eq. lia.
Qed.

Lemma finish_inv idx :
  ph = PhWait idx → dflag (vs c) (t_b th) ≠ Some 1 →
  vinv (VSys (finished idx (vs c)) (<[t := Thread (t_b th) (t_w th) (k_alloc 0 t (t_b th) (t_w th))]> (thr c)) None (intr c)) (<[t := PhAlloc]> G) U C F.
Proof.
  intros Eph Hfl. pose proof (iv_tok _ _ _ _ _ Hv t th ph Ht HG) as [T1 T2 T3 T4 T5]. rewrite Eph in T3.
  pose proof (ch_range _ _ _ _ (T3 idx eq_refl)) as Hr. pose proof (iv_lens _ _ _ _ _ Hv) as Hl.
  assert (ph_members ph = members idx) as Hm by (by rewrite Eph).
  apply (vinv_run (finished idx (vs c)) PhAlloc); try done.
  - destruct Hl. split; cbn; rewrite ?length_insert, ?length_alter; done.
  - apply (iv_buf _ _ _ _ _ Hv).
  - split; [by exists 0%nat|done|done|done|done].
  - intros t' th' ph'' Hne A1 A2. split_and!; [|done|set_solver].
    assert (∀ i, i ∈ ph_members ph'' → i ∉ members idx ∧ idx8 i) as Hdis.
    { intros i Hi. split; [intros Hi'; apply Hne; eapply (iv_disj _ _ _ _ _ Hv); [done|exact HG|done|by rewrite Hm]|].
      unfold ph_members in Hi. destruct (ph_idx ph'') as [idx'|] eqn:Hq; [|cbn in Hi; set_solver].
      pose proof (ch_range _ _ _ _ (to_chain _ _ _ _ (iv_tok _ _ _ _ _ Hv t' th' ph'' A1 A2) idx' Hq)) as Hr'. rewrite Forall_forall in Hr'. by apply Hr'. }
    split; try done; intros i Hi; destruct (Hdis i Hi) as [D1 D2]; destruct (finished_desc idx (vs c) i D1 Hr D2) as (F1 & F2 & F3); [done|by rewrite F3].
  - intros i Hi. rewrite Hm. change (ph_members PhAlloc) with (@nil Z). destruct (decide (i ∈ members idx)) as [Hin|Hin].
    + rewrite (finished_free idx (vs c) i (l_free _ Hl) Hr Hin). split; [done|]. intros [?|[? _]]; [set_solver|done].
    + destruct (finished_desc idx (vs c) i Hin Hr Hi) as (_ & -> & _). set_solver.
  - eapply rings_ext; [apply (iv_rings _ _ _ _ _ Hv)|done..|]. intros h _. cbn. rewrite list_lookup_alter. case_decide as E; [rewrite E|done].
    by destruct (info (vs c) !! Z.to_nat h).
  - intros h. change (flight (finished idx (vs c)) U C) with (flight (vs c) U C). unfold t_queued. rewrite Eph. cbn. naive_solver.
  - intros t' ch Hch. cbn in Hch. repeat apply map_lookup_filter_Some in Hch as [Hch ?]. right. cbn in *. split_and!; [|done|done]. intros ->.
    destruct Hrun as [Hh|(_ & _ & Ha)]; [|congruence]. apply (iv_hold _ _ _ _ _ Hv) in Hh as (? & A1 & A2). rewrite HG, Eph in A1. by injection A1 as <-.
  - intros HU. right. right. by rewrite Eph.
Qed.
End run.

Lemma vinv_delete c G U C F t :
  vinv c G U C F → G !! t = Some PhAlloc → asleep (vs c) !! t = None → vinv (VSys (vs c) (delete t (thr c)) (holder c) (intr c)) (delete t G) U C F.
Proof.
  intros Hv HG Ha. destruct Hv. split; cbn; try done.
  - intros t'. destruct (decide (t' = t)) as [->|?]; [rewrite !lookup_delete_eq; by split; intros [? ?]|by rewrite !lookup_delete_ne].
  - intros t' th ph H1 H2. apply lookup_delete_Some in H1 as [_ H1]. apply lookup_delete_Some in H2 as [_ H2]. auto.
  - intros t1 t2 th1 th2 H1 H2. apply lookup_delete_Some in H1 as [_ H1]. apply lookup_delete_Some in H2 as [_ H2]. eauto.
  - intros i Hi. rewrite (iv_free i Hi). split; intros (t' & ph & H1 & H2).
    + exists t', ph. rewrite lookup_delete_ne; [done|]. intros <-. rewrite HG in H1. injection H1 as <-. cbn in H2. set_solver.
    + apply lookup_delete_Some in H1 as [_ H1]. eauto.
  - intros t1 t2 ph1 ph2 i H1 H2. apply lookup_delete_Some in H1 as [_ H1]. apply lookup_delete_Some in H2 as [_ H2]. eauto.
  - intros t'. rewrite iv_hold. split; intros (ph & H1 & H2).
    + exists ph. rewrite lookup_delete_ne; [done|]. intros <-. rewrite HG in H1. by injection H1 as <-.
    + apply lookup_delete_Some in H1 as [_ H1]. eauto.
  - intros h. rewrite iv_heads. unfold queued. split; intros (t' & th & ph & idx & H1 & H2 & H3 & H4).
    + exists t', th, ph, idx. rewrite !lookup_delete_ne; [done|..]; intros <-; rewrite HG in H2; by injection H2 as <-.
    + apply lookup_delete_Some in H1 as [_ H1]. apply lookup_delete_Some in H2 as [_ H2]. by exists t', th, ph, idx.
  - intros t' ch H1. destruct (iv_asleep t' ch H1) as (th & ph & H2 & H3 & H4). exists th, ph. rewrite !lookup_delete_ne; [done|..]; congruence.
  - intros HU. destruct (iv_notify HU) as [?|(t' & idx & H1)]; [by left|]. right. exists t', idx. rewrite lookup_delete_ne; [done|]. congruence.
Qed.

(** ** All steps *)

Lemma finish_sim c G U C F a t th idx :
  vinv c G U C F → sim c G U F a → thr c !! t = Some th → G !! t = Some (PhWait idx) → dflag (vs c) (t_b th) ≠ Some 1 →
  ∃ a', a_run a [LRet t] a' ∧ sim (VSys (finished idx (vs c)) (delete t (thr c)) None (intr c)) (delete t G) U F a'.
Proof.
  intros Hv [S1 S2 S3] Ht HG Hfl. eexists. split.
  - apply (ar_step a [] a); [constructor|]. apply (as_ret a t (t_b th) (t_w th)). rewrite S3, Ht. cbn. rewrite HG. cbn. do 2 f_equal.
    assert (idx.1.1 ∉ flight (vs c) U C) as Hnf; [intros Hf|].
    2:{ unfold flight in Hnf. rewrite !not_elem_of_app in Hnf. destruct Hnf as (N1 & N2 & N3). unfold stage_of. cbn.
        rewrite !decide_False; [done|by rewrite not_elem_of_app|]. intros HF. by apply N3, (rg_failed _ _ _ _ (iv_rings _ _ _ _ _ Hv)). }
    apply (iv_heads _ _ _ _ _ Hv) in Hf as (t' & th' & ph & idx' & A1 & A2 & A3 & A4 & A5).
    assert (t' = t) as -> by (eapply (queued_inj _ _ _ _ _ t' t ph (PhWait idx) idx' idx Hv); [done|done|by apply queued_idx|done|done]). congruence.
  - split; [done|done|]. intros t'. cbn. destruct (decide (t' = t)) as [->|Hne].
    + by rewrite !lookup_delete_eq.
    + rewrite !lookup_delete_ne by done. apply S3.
Qed.

Lemma thread_sim c G U C F a t th :
  vinv c G U C F → sim c G U F a → thr c !! t = Some th → runnable c t →
  t_k th (vs c) = OutOfFuel ∨
  ∃ ls c' G' U' a', settle c t (t_b th) (t_w th) (t_k th (vs c)) ls c' ∧ vinv c' G' U' C F ∧ a_run a ls a' ∧ sim c' G' U' F a'.
Proof.
  intros Hv Hs Ht Hrun. destruct (proj1 (iv_dom _ _ _ _ _ Hv t)) as [ph HG]; [by eexists|].
  pose proof (iv_tok _ _ _ _ _ Hv t th ph Ht HG) as Htok. destruct (to_buf _ _ _ _ Htok) as [x Hx]. pose proof (to_k _ _ _ _ Htok) as Hk.
  destruct ph as [|idx|idx|idx]; cbn in Hk.
  - destruct Hk as [f ->].
    destruct (k_alloc_run f t (t_b th) (t_w th) (vs c) x (iv_lens _ _ _ _ _ Hv) Hx) as [E|[(f' & s' & Hu & Hf & E)|(i0 & i1 & i2 & Hn & F0 & F1 & F2 & E)]];
      [by left|right; rewrite E..].
    + destruct (alloc_sleep c G U C F t th PhAlloc Hv Ht HG Hrun s' f' eq_refl Hu Hf) as [H1 H2].
      eexists _, _, _, U, a. split_and!; [by apply st_sleep|exact H1|constructor|by apply H2].
    + destruct (alloc_submit c G U C F t th PhAlloc Hv Ht HG Hrun x i0 i1 i2 eq_refl Hx Hn F0 F1 F2) as [H1 H2].
      eexists _, _, _, U, a. split_and!; [apply st_fence|exact H1|constructor|by apply H2].
  - right. rewrite Hk, k_ring_run. destruct (ring_step c G U C F t th _ Hv Ht HG Hrun idx eq_refl) as [H1 H2].
    eexists _, _, _, _, a. split_and!; [apply st_fence|exact H1|constructor|by apply H2].
  - rewrite Hk. pose proof (to_flag _ _ _ _ Htok) as Hfl. cbn in Hfl.
    destruct (k_idx_run t (t_b th) idx.1.1 (vs c) x Hx) as [E|(f' & E)]; [unfold dflag in Hfl; rewrite Hx in Hfl; cbn in Hfl; congruence|by left|right; rewrite E].
    destruct (wait_step c G U C F t th _ Hv Ht HG Hrun idx f' _ ltac:(by left) Hfl ltac:(by right)) as [H1 H2].
    eexists _, _, _, U, a. split_and!; [by apply st_sleep|exact H1|constructor|by apply H2].
  - destruct Hk as [f ->]. destruct (k_wait_run f t (t_b th) idx.1.1 (vs c) x Hx) as [E|[(f' & Hd & E)|[Hd E]]]; [by left|right; rewrite E..].
    + assert (dflag (vs c) (t_b th) = Some 1) as Hfl by (unfold dflag; rewrite Hx; cbn; congruence).
      destruct (wait_step c G U C F t th _ Hv Ht HG Hrun idx f' (vs c) ltac:(by right) Hfl ltac:(by left)) as [H1 H2].
      eexists _, _, _, U, a. split_and!; [by apply st_sleep|exact H1|constructor|by apply H2].
    + assert (dflag (vs c) (t_b th) ≠ Some 1) as Hfl by (unfold dflag; rewrite Hx; cbn; congruence).
      assert (∀ i, i ∈ members idx → dfree (vs c) !! Z.to_nat i = Some false) as Hfr.
      { intros i Hi. pose proof (ch_range _ _ _ _ (to_chain _ _ _ _ Htok idx eq_refl)) as Hr. rewrite Forall_forall in Hr.
        apply (iv_free _ _ _ _ _ Hv); [by apply Hr|]. by exists t, (PhWait idx). }
      rewrite (rw_finish_run _ _ _ _ (iv_lens _ _ _ _ _ Hv) (to_chain _ _ _ _ Htok idx eq_refl) Hfr).
      fold (finished idx (vs c)). destruct (finish_sim c G U C F a t th idx Hv Hs Ht HG Hfl) as (a' & Ha & Hs').
      pose proof (finish_inv c G U C F t th _ Hv Ht HG Hrun idx eq_refl Hfl) as Hv'.
      apply (vinv_delete _ _ _ _ _ t) in Hv'; [|by rewrite lookup_insert_eq|].
      * cbn in Hv'. rewrite !delete_insert_eq in Hv'. eexists _, _, _, U, a'. split_and!; [apply st_done|exact Hv'|done|done].
      * cbn. assert (asleep (vs c) !! t = None) as Ha0.
        { destruct Hrun as [Hh|(_ & _ & ?)]; [|done]. apply (iv_hold _ _ _ _ _ Hv) in Hh as (? & A1 & A2). simplify_eq. }
        apply map_lookup_filter_None. left. apply map_lookup_filter_None. left. apply map_lookup_filter_None. by left.
Qed.

Lemma settle_det c t b w o ls c' ls2 c2 : settle c t b w o ls c' → settle c t b w o ls2 c2 → ls2 = ls ∧ c2 = c'.
Proof. intros H1 H2. destruct H1; inversion H2; subst; done. Qed.
Lemma settle_no_fuel c t b w ls c' : ¬ settle c t b w OutOfFuel ls c'.
Proof. intros Hs. inversion Hs. Qed.

Lemma step_sim c G U C F a ls c' :
  vinv c G U C F → sim c G U F a → sys_step c ls c' →
  ∃ G' U' C' F' a', vinv c' G' U' C' F' ∧ a_run a ls a' ∧ sim c' G' U' F' a' ∧ (F' = F ∨ ∃ b, LFail b ∈ ls).
Proof.
  intros Hv Hs Hst. destruct Hst as [t b w x H1 H2 H3|t th ls c' H1 H2 H3|H1 H2 H3|k s k' H1 H2|k s H1 H2|o s H1|b x n d H1 H2 H3 H4].
  - destruct (call_sim c G U C F a t b w x Hv Hs H1 H2 H3) as (A1 & a' & A2 & A3). eexists _, U, C, F, a'. split_and!; [done..|by left].
  - destruct (thread_sim c G U C F a t th Hv Hs H1 H2) as [E|(ls2 & c2 & G' & U' & a' & A1 & A2 & A3 & A4)].
    + rewrite E in H3. by apply settle_no_fuel in H3.
    + destruct (settle_det _ _ _ _ _ _ _ _ _ H3 A1) as [-> ->]. exists G', U', C, F, a'. split_and!; [done..|by left].
  - exists G, U, C, F, a. split_and!; [|apply ar_nil|rewrite <-H1; by apply (sim_intr c)|by left]. rewrite <-H1. apply (vinv_intr c); [done|done|intros _; by left|].
    intros k [= <-]. by left.
  - destruct (handler_run c G U C F a k Hv Hs H1) as [(_ & E)|(C' & s' & [(E & _)|(k2 & E & A1 & A2)])]; rewrite H2 in E; [done|done|]. injection E as -> ->.
    exists G, U, C', F, a. split_and!; [done|constructor|done|by left].
  - destruct (handler_run c G U C F a k Hv Hs H1) as [(_ & E)|(C' & s' & [(E & A1 & A2)|(k2 & E & _)])]; rewrite H2 in E; [done| |done]. injection E as ->.
    exists G, U, C', F, a. split_and!; [done|constructor|done|by left].
  - destruct (device_sim c G U C F a o s Hv Hs (dev_doc _ _ _ H1)) as (U' & C' & F' & a' & A1 & A2 & A3 & A4). exists G, U', C', F', a'. split_and!; [done..|].
    destruct A4 as [?|[b ->]]; [by left|]. right. exists b. cbn. by left.
  - destruct (client_sim c G U C F a b x n d Hv Hs H1 H2 H3 H4) as (A1 & a' & A2 & A3). exists G, U, C, F, a'. split_and!; [done..|by left].
Qed.

(** ** Progress *)

Lemma progress c G U C F :
  vinv c G U C F → thr c ≠ ∅ →
  (∃ t th, thr c !! t = Some th ∧ runnable c t) ∨ is_Some (intr c) ∨ h_istatus (hw (vs c)) ≠ 0 ∨
  pend (vs c) ≠ [] ∨ h_seen (hw (vs c)) ≠ avail_idx (vs c) ∧ h_notify (hw (vs c)) = true.
Proof.
  intros Hv Hne. destruct (intr c) as [k|] eqn:Hi; [right; left; by eexists|].
  destruct (holder c) as [t|] eqn:Hh.
  { left. assert (holder c = Some t) as Hh' by done. apply (iv_hold _ _ _ _ _ Hv) in Hh' as (ph & HG & _).
    destruct (proj2 (iv_dom _ _ _ _ _ Hv t)) as [th Ht]; [by eexists|]. exists t, th. split; [done|]. by left. }
  apply map_choose in Hne as (t & th & Ht). destruct (asleep (vs c) !! t) as [ch|] eqn:Ha.
  2:{ left. exists t, th. split; [done|]. right. done. }
  assert (∀ t' idx, G !! t' ≠ Some (PhIdx idx)) as Hnidx.
  { intros t' idx HG. assert (holder c = Some t'); [|congruence]. apply (iv_hold _ _ _ _ _ Hv). eauto. }
  assert (∀ h, h ∈ flight (vs c) U C → is_Some (intr c) ∨ h_istatus (hw (vs c)) ≠ 0 ∨ pend (vs c) ≠ [] ∨
    h_seen (hw (vs c)) ≠ avail_idx (vs c) ∧ h_notify (hw (vs c)) = true) as Hfl.
  { intros h Hin. unfold flight in Hin. rewrite !elem_of_app in Hin. destruct Hin as [HU|[HP|HC]].
    - right. right. right. rewrite (seen_all _ _ _ _ _ Hv). assert (U ≠ []) as HU0 by (by intros ->; set_solver). split; [done|].
      destruct (iv_notify _ _ _ _ _ Hv HU0) as [?|(t' & idx & HG)]; [done|]. by destruct (Hnidx t' idx).
    - right. right. left. intros E. rewrite E in HP. set_solver.
    - destruct (iv_int _ _ _ _ _ Hv) as [?|?]; [intros ->; set_solver|auto|auto]. }
  rewrite Hi in Hfl. destruct (iv_asleep _ _ _ _ _ Hv t ch Ha) as (th' & ph & Ht' & HG & Hok). simplify_eq.
  destruct ph as [|idx|idx|idx]; try done; cbn in Hok.
  2:{ right. apply (Hfl idx.1.1), (iv_heads _ _ _ _ _ Hv). exists t, th, (PhWait idx), idx. by destruct Hok. }
  destruct Hok as [_ Hfew]. assert (∃ i, idx8 i ∧ dfree (vs c) !! Z.to_nat i = Some false) as (i & Hi8 & Hd).
  { pose proof (l_free _ (iv_lens _ _ _ _ _ Hv)) as Hl.
    destruct (dfree (vs c)) as [|[] [|[] [|[] l]]] eqn:El; try done; [|by exists 2|by exists 1..|by exists 0|by exists 0|by exists 0|by exists 0].
    exfalso. apply (Hfew 0%nat 1%nat 2%nat); try done. repeat constructor; set_solver. }
  apply (iv_free _ _ _ _ _ Hv i Hi8) in Hd as (t' & ph & HG' & Hm).
  destruct (proj2 (iv_dom _ _ _ _ _ Hv t')) as [th' Ht'']; [by eexists|].
  assert (∃ idx, ph = PhWait idx) as [idx ->].
  { destruct ph as [|idx|idx|idx]; [cbn in Hm; set_solver|..]; [| |by eexists]; assert (holder c = Some t') as E by (apply (iv_hold _ _ _ _ _ Hv); eauto); congruence. }
  destruct (asleep (vs c) !! t') as [ch'|] eqn:Ha'.
  2:{ left. exists t', th'. split; [done|]. by right. }
  right. destruct (iv_asleep _ _ _ _ _ Hv t' ch' Ha') as (? & ? & ? & ? & Hok). simplify_eq. cbn in Hok.
  apply (Hfl idx.1.1), (iv_heads _ _ _ _ _ Hv). exists t', th', (PhWait idx), idx. by destruct Hok.
Qed.
End steps.
