(* ===== verification/VirtioThm.v ===== *)
(** * The disk driver: what it guarantees

    The driver, its callers, the interrupt handler and the device refine a disk on
    which every operation is atomic; the driver panics only when the device reports
    an error, and no wakeup is lost. *)

From S2P Require Import Prelude Riscv Memory CString Kalloc State Bytes Virtio VirtioSpec VirtioProof VirtioSteps.

(** The buffers as [bread] sets them up. *)
Definition vbuf_ok (x : vbuf) : Prop := 0 ≤ vb_blockno x < 2 ^ 31 ∧ length (vb_data x) = Z.to_nat BSIZE.

Section thm.
Context `{SleepFuel} `{Device}.
Context (bufs : list vbuf) (img : Z → Z).
Hypothesis Hbufs : Forall vbuf_ok bufs.

Definition sys_init : vsys := VSys (v_init bufs img) ∅ None None.
Definition view (x : vbuf) : Z * list Z := (vb_blockno x, vb_data x).

Lemma init_inv : vinv sys_init ∅ [] [] [].
Proof using Hbufs.
  split; cbn; try done.
  - intros b x Hx. rewrite Forall_lookup in Hbufs. by apply (Hbufs b x).
  - intros t. by rewrite !lookup_empty; split; intros [? ?].
  - intros i Hi. split.
    + intros E. change (replicate 8 true !! Z.to_nat i = Some false) in E. by apply lookup_replicate in E as [? _].
    + intros (t & ph & E & _). by rewrite lookup_empty in E.
  - intros t. split; [done|]. intros (ph & E & _). by rewrite lookup_empty in E.
  - split; cbn; try done; [apply NoDup_nil_2|..]; intros h Hh; by apply elem_of_nil in Hh.
  - intros h. split; [unfold flight; cbn; set_solver|]. intros (t & th & ph & idx & E & _). by rewrite lookup_empty in E.
Qed.
Lemma init_sim : sim sys_init ∅ [] [] (ADisk (view <$> bufs) img ∅).
Proof. by split. Qed.

Lemma run_sim tr c :
  sys_run sys_init tr c →
  ∃ G U C F a, vinv c G U C F ∧ a_run (ADisk (view <$> bufs) img ∅) tr a ∧ sim c G U F a ∧ (F = [] ∨ ∃ b, LFail b ∈ tr).
Proof using Hbufs.
  induction 1 as [|tr c1 ls c2 _ (G & U & C & F & a & Hv & Ha & Hs & HF) Hst].
  - exists ∅, [], [], [], (ADisk (view <$> bufs) img ∅). split_and!; [apply init_inv|constructor|apply init_sim|by left].
  - destruct (step_sim c1 G U C F a ls c2 Hv Hs Hst) as (G' & U' & C' & F' & a' & A1 & A2 & A3 & A4). exists G', U', C', F', a'. split_and!; [done| |done|].
    + clear -Ha A2. revert ls a' A2. induction 1 as [|l a1 ls a2 _ IH Hs]; [by rewrite app_nil_r|]. rewrite app_assoc. by eapply ar_step.
    + destruct A4 as [->|[b Hb]]; [destruct HF as [?|[b Hb]]; [by left|]|]; right; exists b; rewrite elem_of_app; auto.
Qed.

Lemma handler_moves tr c k :
  sys_run sys_init tr c → intr c = Some k →
  (∃ s, k (vs c) = Done tt s ∨ ∃ k', k (vs c) = Sleep ChNull s k') ∨
  k (vs c) = Panic "virtio_disk_intr status" (vs c) ∧ ∃ b, LFail b ∈ tr.
Proof using Hbufs.
  intros Hr Hk. destruct (run_sim tr c Hr) as (G & U & C & F & a & Hv & _ & Hs & HF).
  destruct (handler_run c G U C F a k Hv Hs Hk) as [[HF0 E]|(C' & s & [(E & _)|(k' & E & _)])]; [right; by destruct HF|left; exists s; eauto..].
Qed.

(** C4: Every run of the driver with its callers, the interrupt handler and the device
    is a run of a disk on which each read or write of a block happens at one
    instant between its call and its return: with the same calls, returns and
    failures, and ending with the same buffers and the same disk.  An operation
    that the device fails changes at most its own buffer or block, and does not
    return. *)
Theorem virtio_refines tr c :
  sys_run sys_init tr c →
  ∃ a, a_run (ADisk (view <$> bufs) img ∅) tr a ∧ a_bufs a = view <$> vbufs (vs c) ∧ a_img a = h_image (hw (vs c)).
Proof using Hbufs.
  intros Hr. destruct (run_sim tr c Hr) as (G & U & C & F & a & _ & Ha & [S1 S2 _] & _). by exists a.
Qed.

(** C5: However the processes, the interrupts and the device interleave, the driver
    follows no bad pointer, [virtio_disk_rw] does not panic, the interrupt
    handler's loop ends within its fuel, and the device is never given a malformed
    chain.  The handler panics in one case only: at its check of the status byte,
    after the device has reported that an operation failed. *)
Theorem virtio_safe tr c :
  sys_run sys_init tr c →
  (∀ t th, thr c !! t = Some th → runnable c t →
     t_k th (vs c) = OutOfFuel ∨ ∃ ls c', settle c t (t_b th) (t_w th) (t_k th (vs c)) ls c') ∧
  (∀ k, intr c = Some k →
     (∃ s, k (vs c) = Done tt s ∨ ∃ k', k (vs c) = Sleep ChNull s k') ∨
     k (vs c) = Panic "virtio_disk_intr status" (vs c) ∧ ∃ b, LFail b ∈ tr) ∧
  (∀ h, h ∈ h_pending (hw (vs c)) → is_Some (dev_xfer h (vs c))).
Proof using Hbufs.
  intros Hr. destruct (run_sim tr c Hr) as (G & U & C & F & a & Hv & _ & Hs & _). split_and!.
  - intros t th Ht Hrun. destruct (thread_sim c G U C F a t th Hv Hs Ht Hrun) as [E|(ls & c' & _ & _ & _ & A & _)]; [by left|right; eauto].
  - intros k Hk. by apply handler_moves.
  - intros h Hh. eapply pending_xfer; [exact Hv|exact Hh].
Qed.

(** C6: No wakeup and no notification is lost: while an operation is in progress, some
    process can run, or the interrupt handler is at work or asked for, or the device
    has a chain to complete or has been notified of one.  A handler at work has a
    next step, unless the device has reported a failed operation. *)
Theorem virtio_no_deadlock tr c :
  sys_run sys_init tr c → thr c ≠ ∅ →
  (∃ t th, thr c !! t = Some th ∧ runnable c t) ∨
  (∃ k, intr c = Some k ∧ ((∃ s, k (vs c) = Done tt s ∨ ∃ k', k (vs c) = Sleep ChNull s k') ∨ ∃ b, LFail b ∈ tr)) ∨
  h_istatus (hw (vs c)) ≠ 0 ∨ h_pending (hw (vs c)) ≠ [] ∨
  h_seen (hw (vs c)) ≠ avail_idx (vs c) ∧ h_notify (hw (vs c)) = true.
Proof using Hbufs.
  intros Hr Hne. destruct (run_sim tr c Hr) as (G & U & C & F & a & Hv & _). destruct (progress c G U C F Hv Hne) as [?|[[k Hk]|?]]; [by left| |by right; right].
  right. left. exists k. split; [done|]. destruct (handler_moves tr c k Hr Hk) as [?|[_ ?]]; auto.
Qed.
End thm.

(** ** Initialisation *)

Section boot.
Context {I : Image} (mmio : list (Z * Z) → Z → Z).

(** What qemu's block device answers, before the queue is made ready. *)
Record qemu_disk : Prop := {
  qd_magic : ∀ w, mmio w VIRTIO_MMIO_MAGIC_VALUE = 0x74726976;
  qd_version : ∀ w, mmio w VIRTIO_MMIO_VERSION = 2;
  qd_id : ∀ w, mmio w VIRTIO_MMIO_DEVICE_ID = 2;
  qd_vendor : ∀ w, mmio w VIRTIO_MMIO_VENDOR_ID = 0x554d4551;
  qd_status : ∀ w v, mmio (w ++ [(VIRTIO_MMIO_STATUS, v)]) VIRTIO_MMIO_STATUS = v;
  qd_ready : ∀ w, (VIRTIO_MMIO_QUEUE_READY, 1) ∉ w → mmio w VIRTIO_MMIO_QUEUE_READY = 0;
  qd_max : ∀ w, NUM ≤ mmio w VIRTIO_MMIO_QUEUE_NUM_MAX < 2 ^ 32;
}.
Hypothesis Hq : qemu_disk.

Definition init_writes (features p1 p2 p3 : Z) : list (Z * Z) :=
  [(VIRTIO_MMIO_STATUS, 0); (VIRTIO_MMIO_STATUS, 1); (VIRTIO_MMIO_STATUS, 3); (VIRTIO_MMIO_DRIVER_FEATURES, features);
   (VIRTIO_MMIO_STATUS, 11); (VIRTIO_MMIO_QUEUE_SEL, 0); (VIRTIO_MMIO_QUEUE_NUM, 8);
   (VIRTIO_MMIO_QUEUE_DESC_LOW, u32 p1); (VIRTIO_MMIO_QUEUE_DESC_HIGH, u32 (Z.shiftr p1 32));
   (VIRTIO_MMIO_DRIVER_DESC_LOW, u32 p2); (VIRTIO_MMIO_DRIVER_DESC_HIGH, u32 (Z.shiftr p2 32));
   (VIRTIO_MMIO_DEVICE_DESC_LOW, u32 p3); (VIRTIO_MMIO_DEVICE_DESC_HIGH, u32 (Z.shiftr p3 32));
   (VIRTIO_MMIO_QUEUE_READY, 1); (VIRTIO_MMIO_STATUS, 15)].

Definition clear_bits (f : Z) : Z := foldl (λ f k, Z.land f (Z.lnot (Z.shiftl 1 k))) f unwanted.
Lemma clear_bit_testbit f k n : 0 ≤ k → 0 ≤ n → Z.testbit (Z.land f (Z.lnot (Z.shiftl 1 k))) n = Z.testbit f n && negb (n =? k).
Proof.
  intros Hk Hn. rewrite Z.land_spec, Z.lnot_spec, Z.shiftl_1_l by done. by rewrite Z.pow2_bits_eqb, Z.eqb_sym by done.
Qed.
Lemma clear_bits_testbit f n : 0 ≤ n → Z.testbit (clear_bits f) n = Z.testbit f n && negb (existsb (Z.eqb n) unwanted).
Proof.
  intros Hn. unfold clear_bits, unwanted. cbn [foldl existsb]. rewrite !clear_bit_testbit by lia.
  destruct (Z.testbit f n); [|done]. cbn [andb]. rewrite !negb_orb, andb_true_r. by rewrite <-!andb_assoc.
Qed.

Lemma wp_rd r v (Q : Z → vboot → Prop) s : mmio (bo_regs s) r = v → 0 ≤ v < 2 ^ 32 → Q v s → wp (rd mmio r) Q s.
Proof. intros E Hv HQ. unfold rd. wp_steps. by rewrite E, u32_id by done. Qed.
Lemma wp_wr r v (Q : unit → vboot → Prop) s :
  (∀ s', s' = VBoot (bo_mach s) (bo_regs s ++ [(r, u32 v)]) (bo_desc s) (bo_avail s) (bo_used s) (bo_free s) → Q tt s') → wp (wr r v) Q s.
Proof. intros HQ. unfold wr. wp_steps. by apply HQ. Qed.
Ltac vcbn := cbn [bo_mach bo_regs bo_desc bo_avail bo_used bo_free].
Ltac wr_step := apply wp_wr; intros ? ->; vcbn.
Lemma wp_vkalloc s p l (Q : Z → vboot → Prop) :
  kmem_inv (bo_mach s) (p :: l) →
  (∀ s', s' = VBoot (bo_mach s') (bo_regs s) (bo_desc s) (bo_avail s) (bo_used s) (bo_free s) → kmem_inv (bo_mach s') l → Q p s') → wp vkalloc Q s.
Proof.
  intros Hk HQ. unfold vkalloc. apply wp_zoom. eapply wp_mono; [by apply (kalloc_wp_some _ p l)|].
  intros r m (-> & Hk' & _). by apply HQ.
Qed.

Lemma kmem_memset m l p : kmem_inv m l → page_ok p → p ∉ l → kmem_inv (set_ram (memset p 0 PGSIZE) m) l.
Proof.
  intros [H1 H2 H3 H4] Hp Hn. split; [by apply memset_ok| |done|done]. eapply fl_rep_outside; [exact H2| |apply Hp|done|done].
  intros x Hx. unfold PGSIZE. cbn. by rewrite load8_memset, decide_False by lia.
Qed.
Lemma zero_after m p q x : page_ok p → page_ok q → p ≠ q → p ≤ x < p + 4096 → load8 (memset q 0 PGSIZE m) x = load8 m x.
Proof.
  intros [Hp _] [Hq' _] Hne Hx. unfold PGSIZE. rewrite load8_memset by lia. rewrite decide_False; [done|].
  destruct (page_disj p q Hp Hq' Hne); lia.
Qed.

Lemma init_queue_wp s p1 p2 p3 l (Q : unit → vboot → Prop) :
  kmem_inv (bo_mach s) (p1 :: p2 :: p3 :: l) →
  (∀ s', kmem_inv (bo_mach s') l → bo_free s' = replicate 8 true → (bo_desc s', bo_avail s', bo_used s') = (p1, p2, p3) →
     (∀ p x, p ∈ [p1; p2; p3] → p ≤ x < p + 4096 → load8 (ram (bo_mach s')) x = 0) →
     bo_regs s' = bo_regs s ++ drop 6 (init_writes 0 p1 p2 p3) → Q tt s') →
  wp (init_queue 11) Q s.
Proof.
  intros Hk HQ. pose proof (ki_nodup _ _ Hk) as Hnd. pose proof (ki_pages _ _ Hk) as Hpg.
  assert (p1 ≠ p2 ∧ p1 ≠ p3 ∧ p2 ≠ p3 ∧ p1 ∉ l ∧ p2 ∉ l ∧ p3 ∉ l) as (N12 & N13 & N23 & N1 & N2 & N3).
  { apply NoDup_cons in Hnd as [A1 Hnd]. apply NoDup_cons in Hnd as [A2 Hnd]. apply NoDup_cons in Hnd as [A3 _]. set_solver. }
  apply Forall_cons in Hpg as [P1 Hpg]. apply Forall_cons in Hpg as [P2 Hpg]. apply Forall_cons in Hpg as [P3 _].
  pose proof (page_ok_pos _ P1). pose proof (page_ok_pos _ P2). pose proof (page_ok_pos _ P3).
  unfold init_queue. wp_step. eapply wp_vkalloc; [exact Hk|]. intros s7 E7 K7. wp_step. eapply wp_vkalloc; [exact K7|]. intros s8 E8 K8.
  wp_step. eapply wp_vkalloc; [exact K8|]. intros s9 E9 K9. wp_step. wp_step.
  rewrite !(proj2 (Z.eqb_neq _ 0)) by (unfold KERNBASE in *; lia). cbn [orb].
  assert (bo_regs s9 = bo_regs s) as R9 by (rewrite E9, E8, E7; done). clear E7 E8 E9 K7 K8 Hk.
  unfold vmemset0. do 6 (wp_step; vcbn). do 8 (wp_step; wr_step). wp_step. wp_step. vcbn. wr_step.
  apply HQ; vcbn; [|done|done| |].
  - by repeat apply kmem_memset.
  - intros p x Hp Hx. cbn [ram set_ram]. rewrite !elem_of_cons, elem_of_nil in Hp. destruct Hp as [->|[->|[->|[]]]].
    + rewrite (zero_after _ p1 p3), (zero_after _ p1 p2) by done. unfold PGSIZE. by rewrite load8_memset, decide_True by lia.
    + rewrite (zero_after _ p2 p3) by done. unfold PGSIZE. by rewrite load8_memset, decide_True by lia.
    + unfold PGSIZE. by rewrite load8_memset, decide_True by lia.
  - rewrite R9, <-!app_assoc. done.
Qed.

(** C38: On qemu's block device, with three free pages, [virtio_disk_init] finishes:
    it negotiates no feature it does not want and none that was not offered, hands
    the device three pages of its own, cleared, makes the queue ready before it
    reports [DRIVER_OK], and leaves every descriptor free. *)
Theorem virtio_disk_init_spec s p1 p2 p3 l :
  kmem_inv (bo_mach s) (p1 :: p2 :: p3 :: l) → (VIRTIO_MMIO_QUEUE_READY, 1) ∉ bo_regs s →
  ∃ s' features, virtio_disk_init mmio s = Done tt s' ∧ kmem_inv (bo_mach s') l ∧ bo_free s' = replicate 8 true ∧
    (bo_desc s', bo_avail s', bo_used s') = (p1, p2, p3) ∧
    (∀ p x, p ∈ [p1; p2; p3] → p ≤ x < p + 4096 → load8 (ram (bo_mach s')) x = 0) ∧
    bo_regs s' = bo_regs s ++ init_writes features p1 p2 p3 ∧
    (∀ n, 0 ≤ n → Z.testbit features n = true → n ∉ unwanted ∧
       ∃ w, Z.testbit (mmio (bo_regs s ++ w) VIRTIO_MMIO_DEVICE_FEATURES) n = true).
Proof using Hq.
  intros Hk Hnr. destruct Hq as [Q1 Q2 Q3 Q4 Q5 Q6 Q7].
  assert (wp (virtio_disk_init mmio) (λ _ s', kmem_inv (bo_mach s') l ∧ bo_free s' = replicate 8 true ∧
    (bo_desc s', bo_avail s', bo_used s') = (p1, p2, p3) ∧
    (∀ p x, p ∈ [p1; p2; p3] → p ≤ x < p + 4096 → load8 (ram (bo_mach s')) x = 0) ∧
    ∃ w, bo_regs s' = bo_regs s ++ init_writes (u32 (clear_bits (u32 (mmio (bo_regs s ++ w) VIRTIO_MMIO_DEVICE_FEATURES)))) p1 p2 p3) s) as Hwp.
  { unfold virtio_disk_init. do 4 (wp_step; eapply wp_rd; [eauto|lia|]). cbn [Z.eqb Pos.eqb negb orb].
    do 3 (wp_step; wr_step).
    wp_step. unfold rd at 1. do 3 wp_step. rewrite <-!app_assoc. set (f := mmio _ VIRTIO_MMIO_DEVICE_FEATURES). fold (clear_bits (u32 f)).
    do 2 (wp_step; wr_step).
    wp_step. eapply wp_rd; [apply Q5|done|]. change (Z.land (u32 _) VIRTIO_CONFIG_S_FEATURES_OK =? 0) with false. cbv iota.
    wp_step. wr_step. rewrite <-!app_assoc.
    wp_step. eapply wp_rd; [apply Q6; vcbn; repeat (rewrite ?not_elem_of_app, ?not_elem_of_cons; split); try done; apply not_elem_of_nil|lia|]. cbn [Z.eqb negb].
    set (w := bo_regs s ++ _). wp_step. eapply wp_rd; [done|specialize (Q7 w); unfold NUM in *; cbn [bo_regs]; lia|].
    cbn [bo_regs]. rewrite (proj2 (Z.eqb_neq _ 0)), (proj2 (Z.ltb_ge _ NUM)) by (specialize (Q7 w); unfold NUM in *; lia).
    eapply init_queue_wp; [exact Hk|]. intros s' H1 H2 H3 H4 H5. split_and!; try done.
    exists [(VIRTIO_MMIO_STATUS, 0); (VIRTIO_MMIO_STATUS, 1); (VIRTIO_MMIO_STATUS, 3)].
    rewrite H5. cbn [bo_regs]. unfold w. change (mmio (bo_regs s ++ _) VIRTIO_MMIO_DEVICE_FEATURES) with f. clearbody f.
    rewrite <-!app_assoc. reflexivity. }
  apply wp_elim in Hwp as ([] & s' & Hrun & H1 & H2 & H3 & H4 & w & H5). eexists s', _. split_and!; [done..|exact H5|].
  intros n Hn Ht. unfold u32 in Ht at 1. rewrite Z.testbit_mod_pow2 in Ht by lia. apply andb_prop in Ht as [Hn32 Ht].
  rewrite clear_bits_testbit in Ht by done. apply andb_prop in Ht as [Ht Hnu]. split.
  - intros Hin. apply negb_true_iff in Hnu. assert (existsb (Z.eqb n) unwanted = true); [|congruence].
    apply existsb_exists. exists n. split; [by apply list_elem_of_In|apply Z.eqb_refl].
  - exists w. unfold u32 in Ht. rewrite Z.testbit_mod_pow2 in Ht by lia. by apply andb_prop in Ht as [_ Ht].
Qed.
End boot.
