(* ===== verification/VirtioExamples.v ===== *)
(** * A disk at work

    A device that serves requests in order, two processes that read and write a
    block, and the theorems of [VirtioThm] applied to their run. *)

From S2P Require Import Prelude Riscv Memory CString Kalloc State Bytes Virtio VirtioSpec VirtioProof VirtioSteps VirtioThm PageTable Mapping UserCopy Uvm UvmFree Vm VmExamples FsExamples.

(** Completes what it has taken before it takes more; an operation on block 666
    fails. *)
Definition demo_bad (h : Z) (s : vst) : bool :=
  match ops s !! Z.to_nat h with Some r => r_sector r =? 1332 | None => false end.
Definition demo_dev (s : vst) : option (option nat * vst) :=
  match h_pending (hw s) with
  | h :: _ =>
      if demo_bad h s then
        '(b, s1) ← dev_move VIRTIO_BLK_S_IOERR (Some (replicate 1024 0)) h s; Some (Some b, dev_push h 0 s1)
      else s1 ← dev_xfer h s; Some (None, dev_push h BSIZE s1)
  | [] =>
      if decide (h_seen (hw s) = avail_idx s) then None
      else
        h ← avail_ring s !! Z.to_nat (h_seen (hw s) mod NUM);
        Some (None, upd_hw (λ w, upd_h_seen (λ n, u16 (n + 1)) (upd_h_pending (λ p, p ++ [h]) w)) s)
  end.
Lemma demo_dev_doc s o s' : demo_dev s = Some (o, s') → dev_spec s o s'.
Proof.
  unfold demo_dev. destruct (h_pending (hw s)) as [|h l] eqn:Ep.
  - case_decide as E; [done|]. destruct (avail_ring s !! _) as [h|] eqn:Eh; [|done]. cbn. intros [= <- <-]. by apply dev_fetch.
  - destruct (demo_bad h s).
    + destruct (dev_move _ _ h s) as [[b s1]|] eqn:Ex; [|done]. cbn [mbind option_bind]. intros [= <- <-].
      eapply dev_fail; [rewrite Ep; by left|by left| |exact Ex]. by rewrite length_replicate.
    + destruct (dev_xfer h s) as [s1|] eqn:Ex; [|done]. cbn. intros [= <- <-]. apply dev_done; [rewrite Ep; set_solver|done].
Qed.
#[global] Instance demo_device : Device := { dev_step s o s' := demo_dev s = Some (o, s'); dev_doc := demo_dev_doc }.

(** ** Schedules *)

Inductive action := ACall (t b : nat) (w : bool) | ARun (t : nat) | AIntr | AHandler | ADev.

Definition settled (c : vsys) (t b : nat) (w : bool) (o : outcome vst unit) : option (list label * vsys) :=
  match o with
  | Sleep ch s k => Some ([], VSys s (<[t := Thread b w k]> (thr c)) (if decide (ch = ChNull) then Some t else None) (intr c))
  | Done _ s => Some ([LRet t], VSys s (delete t (thr c)) None (intr c))
  | _ => None
  end.
Definition play1 (x : action) (c : vsys) : option (list label * vsys) :=
  match x with
  | ACall t b w =>
      if decide (thr c = ∅) then
        match vbufs (vs c) !! b with
        | Some _ => Some ([LCall t b w], VSys (vs c) (<[t := Thread b w (virtio_disk_rw t b w)]> (thr c)) (holder c) (intr c))
        | None => None
        end
      else None
  | ARun t =>
      th ← thr c !! t;
      if decide (holder c = Some t ∨ holder c = None ∧ asleep (vs c) !! t = None) then
        match intr c with
        | None => settled c t (t_b th) (t_w th) (t_k th (vs c))
        | Some _ => None
        end
      else None
  | AIntr =>
      match holder c, intr c with
      | None, None => if decide (h_istatus (hw (vs c)) ≠ 0) then Some ([], VSys (vs c) (thr c) None (Some virtio_disk_intr)) else None
      | _, _ => None
      end
  | AHandler =>
      k ← intr c;
      match k (vs c) with
      | Sleep ChNull s k' => Some ([], VSys s (thr c) (holder c) (Some k'))
      | Done _ s => Some ([], VSys s (thr c) (holder c) None)
      | _ => None
      end
  | ADev => '(o, s) ← demo_dev (vs c); Some (LFail <$> option_list o, VSys s (thr c) (holder c) (intr c))
  end.
Fixpoint play (l : list action) (c : vsys) : option (list label * vsys) :=
  match l with
  | [] => Some ([], c)
  | x :: l => '(ls, c1) ← play1 x c; '(tr, c2) ← play l c1; Some (ls ++ tr, c2)
  end.

Lemma settled_sound c t b w o ls c' : settled c t b w o = Some (ls, c') → settle c t b w o ls c'.
Proof.
  destruct o as [[] s| |ch s k| | |]; cbn; try done; intros [= <- <-]; [constructor|].
  case_decide as E; [subst ch|]; by constructor.
Qed.
Lemma exec1_sound x c ls c' : play1 x c = Some (ls, c') → sys_step c ls c'.
Proof.
  destruct x as [t b w|t| | |]; unfold play1.
  - case_decide as E; [|done]. destruct (vbufs (vs c) !! b) as [x|] eqn:Hx; [|done]. intros [= <- <-]. eapply s_call; [by rewrite E| |exact Hx].
    intros t' th Ht'. by rewrite E in Ht'.
  - destruct (thr c !! t) as [th|] eqn:Ht; [|done]. cbn [mbind option_bind]. case_decide as E; [|done]. destruct (intr c) eqn:Ei; [done|]. intros Hs%settled_sound.
    eapply s_run; [exact Ht| |exact Hs]. destruct E as [?|[? ?]]; [by left|by right].
  - destruct (holder c) eqn:Eh; [done|]. destruct (intr c) eqn:Ei; [done|]. case_decide; [|done]. intros [= <- <-]. by apply s_interrupt.
  - destruct (intr c) as [k|] eqn:Ei; [|done]. cbn [mbind option_bind]. destruct (k (vs c)) as [[] s| |[] s k'| | |] eqn:Ek; try done; intros [= <- <-].
    + by eapply s_handled.
    + by eapply s_handler.
  - destruct (demo_dev (vs c)) as [[o s]|] eqn:Ed; [|done]. cbn [mbind option_bind]. intros [= <- <-]. by apply s_device.
Qed.
Lemma sys_run_app c tr c1 ls c2 : sys_run c tr c1 → sys_run c1 ls c2 → sys_run c (tr ++ ls) c2.
Proof. intros H1. induction 1 as [|ls c3 l c2 _ IH Hs]; [by rewrite app_nil_r|]. rewrite app_assoc. by eapply sr_step. Qed.
Lemma play_sound l c tr c' : play l c = Some (tr, c') → sys_run c tr c'.
Proof.
  revert c tr. induction l as [|x l IH]; intros c tr; cbn [play]; [intros [= <- <-]; constructor|].
  destruct (play1 x c) as [[ls c1]|] eqn:E1; [|done]. cbn [mbind option_bind]. destruct (play l c1) as [[tr1 c2]|] eqn:E2; [|done]. cbn [mbind option_bind]. intros [= <- <-].
  apply (sys_run_app c ls c1); [|by apply IH]. apply (sr_step c [] c ls c1); [apply sr_nil|exact (exec1_sound x c ls c1 E1)].
Qed.

(** ** Writing a block of sevens over an empty disk *)

Definition demo_vbufs : list vbuf := [VBuf 3 (replicate 1024 7) 0].
Definition demo_sys : vsys := sys_init demo_vbufs (λ _, 0).
Definition demo_sched : list action :=
  [ACall 0 0 true; ARun 0; ARun 0; ADev; ARun 0; ADev; AIntr; AHandler; AHandler; AHandler; ARun 0].
Lemma demo_vbufs_ok : Forall vbuf_ok demo_vbufs.
Proof. repeat constructor; cbn; lia. Qed.
Definition demo_middle : option (list label * vsys) := play (take 5 demo_sched) demo_sys.

Lemma demo_run_trace : fst <$> play demo_sched demo_sys = Some [LCall 0 0 true; LRet 0].
Proof. vm_compute. reflexivity. Qed.
Lemma demo_run_image : (λ x, h_image (hw (vs x.2)) 3072) <$> play demo_sched demo_sys = Some 7.
Proof. vm_compute. reflexivity. Qed.
Lemma demo_middle_trace : (λ x, (x.1, size (thr x.2))) <$> demo_middle = Some ([LCall 0 0 true], 1%nat).
Proof. vm_compute. reflexivity. Qed.

Lemma virtio_refines_witness :
  ∃ c a, sys_run demo_sys [LCall 0 0 true; LRet 0] c ∧ a_run (ADisk (view <$> demo_vbufs) (λ _, 0) ∅) [LCall 0 0 true; LRet 0] a ∧ a_img a 3072 = 7.
Proof.
  pose proof demo_run_trace as Ht. pose proof demo_run_image as Hi.
  destruct (play demo_sched demo_sys) as [[tr c]|] eqn:E; [|discriminate Ht]. injection Ht as ->. apply play_sound in E.
  destruct (virtio_refines demo_vbufs (λ _, 0) demo_vbufs_ok [LCall 0 0 true; LRet 0] c E) as (a & H1 & _ & H2).
  exists c, a. split; [exact E|]. split; [exact H1|]. rewrite H2. injection Hi as Hi. exact Hi.
Defined.
(** The operation fails, and the handler comes to its entry. *)
Definition demo_broken : vsys := sys_init [VBuf 666 (replicate 1024 7) 0] (λ _, 0).
Definition demo_fails : option (list label * vsys) := play (take 9 demo_sched) demo_broken.
Lemma demo_fails_panics :
  (λ x, (x.1, match intr x.2 with Some k => match k (vs x.2) with Panic m _ => Some m | _ => None end | None => None end)) <$> demo_fails =
  Some ([LCall 0 0 true; LFail 0], Some "virtio_disk_intr status"%string).
Proof. vm_compute. reflexivity. Qed.

Lemma virtio_safe_witness :
  ∃ c k s, sys_run demo_broken [LCall 0 0 true; LFail 0] c ∧ intr c = Some k ∧ k (vs c) = Panic "virtio_disk_intr status" s ∧ s = vs c.
Proof.
  pose proof demo_fails_panics as Ht. unfold demo_fails in Ht.
  destruct (play (take 9 demo_sched) demo_broken) as [[tr c]|] eqn:E; [|discriminate Ht]. apply play_sound in E.
  injection Ht as -> Hp. destruct (intr c) as [k|] eqn:Ek; [|discriminate Hp].
  assert (Forall vbuf_ok [VBuf 666 (replicate 1024 7) 0]) as Hb by (repeat constructor; cbn; lia).
  destruct (proj1 (proj2 (virtio_safe [VBuf 666 (replicate 1024 7) 0] (λ _, 0) Hb [LCall 0 0 true; LFail 0] c E)) k Ek) as [(s & [Hd|(k' & Hd)])|[Hd _]];
    rewrite Hd in Hp; [discriminate Hp..|].
  exists c, k, (vs c). split; [exact E|]. split; [exact Ek|]. split; [exact Hd|reflexivity].
Defined.
Lemma virtio_no_deadlock_witness :
  ∃ tr c, sys_run demo_sys tr c ∧ thr c ≠ ∅ ∧
    ((∃ t th, thr c !! t = Some th ∧ runnable c t) ∨
     (∃ k, intr c = Some k ∧ ((∃ s, k (vs c) = Done tt s ∨ ∃ k', k (vs c) = Sleep ChNull s k') ∨ ∃ b, LFail b ∈ tr)) ∨
     h_istatus (hw (vs c)) ≠ 0 ∨ h_pending (hw (vs c)) ≠ [] ∨ h_seen (hw (vs c)) ≠ avail_idx (vs c) ∧ h_notify (hw (vs c)) = true).
Proof.
  pose proof demo_middle_trace as Ht. unfold demo_middle in Ht.
  destruct (play (take 5 demo_sched) demo_sys) as [[tr c]|] eqn:E; [|discriminate Ht]. apply play_sound in E.
  assert (thr c ≠ ∅) as Hne.
  { intros E0. injection Ht as _ Hs. rewrite E0, map_size_empty in Hs. discriminate Hs. }
  exists tr, c. split; [exact E|]. split; [exact Hne|]. exact (virtio_no_deadlock demo_vbufs (λ _, 0) demo_vbufs_ok tr c E Hne).
Defined.

(** ** Initialisation *)

(** The registers of the device; features are offered as qemu does. *)
Definition demo_mmio (w : list (Z * Z)) (r : Z) : Z :=
  if r =? VIRTIO_MMIO_MAGIC_VALUE then 0x74726976
  else if r =? VIRTIO_MMIO_VERSION then 2
  else if r =? VIRTIO_MMIO_DEVICE_ID then 2
  else if r =? VIRTIO_MMIO_VENDOR_ID then 0x554d4551
  else if r =? VIRTIO_MMIO_DEVICE_FEATURES then 0x30006ed4
  else if r =? VIRTIO_MMIO_QUEUE_NUM_MAX then 1024
  else if r =? VIRTIO_MMIO_STATUS then (match last w with Some (_, v) => v | None => 0 end)
  else if r =? VIRTIO_MMIO_QUEUE_READY then (if decide ((VIRTIO_MMIO_QUEUE_READY, 1) ∈ w) then 1 else 0)
  else 0.
Lemma demo_qemu : qemu_disk demo_mmio.
Proof.
  split; try done.
  - intros w v. unfold demo_mmio. cbn [Z.eqb Pos.eqb]. change (VIRTIO_MMIO_STATUS =? VIRTIO_MMIO_STATUS) with true. cbv iota. by rewrite last_snoc.
  - intros w Hw. unfold demo_mmio. by rewrite decide_False.
Qed.

Lemma virtio_disk_init_spec_witness :
  ∃ s' features, virtio_disk_init demo_mmio (VBoot demo_vm [] 0 0 0 (replicate 8 false)) = Done tt s' ∧
    bo_regs s' = init_writes features (demo_page 1) (demo_page 2) (demo_page 3).
Proof.
  destruct (virtio_disk_init_spec demo_mmio demo_qemu (VBoot demo_vm [] 0 0 0 (replicate 8 false)) (demo_page 1) (demo_page 2) (demo_page 3)
    (demo_page <$> [4; 5; 6; 7; 8; 9; 10; 11; 13; 14; 15])) as (s' & f & H1 & _ & _ & _ & _ & H2 & _);
    [exact demo_vm_kmem|apply not_elem_of_nil|]. exists s', f. exact (conj H1 H2).
Defined.
