(* ===== verification/Console.v ===== *)
(** * The console

    [kernel/uart.c], interrupt-driven output and input, [kernel/console.c], the
    line discipline above it, and [procdump] of [kernel/proc.c].  [cur] is the
    process an interrupt finds running, the value of [myproc()]. *)

From S2P Require Import Prelude Riscv Memory CString Kalloc Vm State Sched Printf.

Definition UART_TX_BUF_SIZE : Z := 32.
Definition INPUT_BUF_SIZE : Z := 128.
Definition NEWLINE : Z := 10.
(** [C(x)]: Control-x. *)
Definition CTRL (x : string) : Z := chr x - chr "@".

(** ** uart.c *)

Definition uartstart_body (cur : option nat) (_ : unit) : M kernel (unit + unit) :=
  u ← gets uart;
  if tx_w u =? tx_r u then mret (inr tt)
  else if thr_full u then mret (inr tt)
  else
    let c := default 0 (tx_buf u !! Z.to_nat (tx_r u mod UART_TX_BUF_SIZE)) in
    modify (upd_uart (upd_tx_r (λ r, u64 (r + 1)))) ;;
    wakeup cur ChUartTx ;;
    write_thr c ;;
    mret (inl tt).
Definition uartstart (cur : option nat) : M kernel unit := loopM 2 (uartstart_body cur) tt.

Definition uartgetc : M kernel Z :=
  u ← gets uart;
  match rhr u with
  | c :: rest => modify (upd_uart (upd_rhr (λ _, rest))) ;; mret c
  | [] => mret (-1)
  end.

Section uart.
Context `{SleepFuel} (me : nat).

Definition uartputc (c : Z) : M kernel unit :=
  loopM (S sleep_fuel) (λ _,
    u ← gets uart;
    if tx_w u =? u64 (tx_r u + UART_TX_BUF_SIZE) then sleep me ChUartTx ;; mret (inl tt)
    else mret (inr tt)) tt ;;
  modify (upd_uart (λ u,
    upd_tx_w (λ w, u64 (w + 1))
      (upd_tx_buf (λ b, <[Z.to_nat (tx_w u mod UART_TX_BUF_SIZE) := u8 c]> b) u))) ;;
  uartstart (Some me).
End uart.

(** ** procdump *)

Definition state_name (s : procstate) : string :=
  match s with
  | UNUSED => "unused" | USED => "used" | SLEEPING => "sleep " | RUNNABLE => "runble"
  | RUNNING => "run   " | ZOMBIE => "zombie"
  end.
Definition procdump : M kernel unit :=
  printf (line "") [] ;;
  l ← gets procs;
  forM l (λ p,
    if decide (p_state p = UNUSED) then mret tt
    else
      printf "%d %s %s" [PInt (p_pid p); PStr (Some (bytes_of (state_name (p_state p))));
                         PStr (Some (cstr (p_name p)))] ;;
      printf (line "") []).

(** ** console.c *)

Section console.
Context {I : Image} `{SleepFuel} (me : nat).

Definition consolewrite (s : src) (n : Z) : M kernel Z :=
  loopM (S (Z.to_nat n)) (λ i,
    if i <? n then
      '(r, bytes) ← either_copyin me (src_add s i) 1;
      if r =? -1 then mret (inr i)
      else uartputc me (default 0 (head bytes)) ;; mret (inl (i + 1))
    else mret (inr i)) 0.

(** Wait for input: [true] when there is some, [false] when killed. *)
Definition cons_wait : M kernel bool :=
  loopM (S sleep_fuel) (λ _,
    c ← gets cons;
    if c_r c =? c_w c then
      b ← killed me;
      if (b : bool) then mret (inr false) else sleep me ChConsR ;; mret (inl tt)
    else mret (inr true)) tt.

Definition consoleread_body (target : Z) (st : dst * Z) : M kernel (dst * Z + Z) :=
  let '(d, n) := st in
  if n >? 0 then
    ok ← cons_wait;
    if negb ok then mret (inr (-1))
    else
      x ← gets cons;
      let c := default 0 (c_buf x !! Z.to_nat (c_r x mod INPUT_BUF_SIZE)) in
      modify (upd_cons (upd_c_r (λ r, u32 (r + 1)))) ;;
      if c =? CTRL "D" then
        (if n <? target then modify (upd_cons (upd_c_r (λ r, u32 (r - 1)))) else mret tt) ;;
        mret (inr (target - n))
      else
        r ← either_copyout me d [c];
        if r =? -1 then mret (inr (target - n))
        else if c =? NEWLINE then mret (inr (target - (n - 1)))
        else mret (inl (dst_add d 1, n - 1))
  else mret (inr (target - n)).
Definition consoleread (d : dst) (n : Z) : M kernel Z :=
  loopM (S (Z.to_nat n)) (consoleread_body n) (d, n).
End console.

Definition cons_at (x : conss) (i : Z) : Z := default 0 (c_buf x !! Z.to_nat (u32 i mod INPUT_BUF_SIZE)).

Definition erase_one : M kernel unit :=
  modify (upd_cons (upd_c_e (λ e, u32 (e - 1)))) ;; consputc BACKSPACE.
Definition kill_line : M kernel unit :=
  loopM (S (Z.to_nat INPUT_BUF_SIZE)) (λ _,
    x ← gets cons;
    if negb (c_e x =? c_w x) && negb (cons_at x (c_e x - 1) =? NEWLINE) then erase_one ;; mret (inl tt)
    else mret (inr tt)) tt.

Definition consoleintr (cur : option nat) (c : Z) : M kernel unit :=
  x ← gets cons;
  if c =? CTRL "P" then procdump
  else if c =? CTRL "U" then kill_line
  else if (c =? CTRL "H") || (c =? 0x7f) then
    if negb (c_e x =? c_w x) then erase_one else mret tt
  else if negb (c =? 0) && (u32 (c_e x - c_r x) <? INPUT_BUF_SIZE) then
    let c := if c =? 13 then NEWLINE else c in
    consputc c ;;
    modify (upd_cons (λ x, upd_c_e (λ e, u32 (e + 1))
      (upd_c_buf (λ b, <[Z.to_nat (c_e x mod INPUT_BUF_SIZE) := u8 c]> b) x))) ;;
    x ← gets cons;
    if (c =? NEWLINE) || (c =? CTRL "D") || (u32 (c_e x - c_r x) =? INPUT_BUF_SIZE) then
      modify (upd_cons (λ x, upd_c_w (λ _, c_e x) x)) ;; wakeup cur ChConsR
    else mret tt
  else mret tt.

Definition uartintr_loop (cur : option nat) : M kernel unit :=
  u ← gets uart;
  loopM (S (length (rhr u))) (λ _,
    c ← uartgetc;
    if c =? -1 then mret (inr tt) else consoleintr cur c ;; mret (inl tt)) tt.
Definition uartintr (cur : option nat) : M kernel unit := uartintr_loop cur ;; uartstart cur.
