(* ===== verification/Pipe.v ===== *)
(** * Pipes

    [kernel/pipe.c]; [pipealloc], which needs the file table, is in [File].
    [PipeSpec] and [PipeThm] show that a pipe is a queue. *)

From S2P Require Import Prelude Riscv Memory CString Kalloc Vm State Sched.

Definition PIPESIZE : Z := 512.

Definition the_pipe (pi : Z) : M kernel pipe :=
  m ← gets pipes;
  match m !! pi with Some x => mret x | None => fault "bad pipe" end.
Definition set_pipe (pi : Z) (f : pipe → pipe) : M kernel unit :=
  modify (upd_pipes (λ m, alter f pi m)).

Section pipe.
Context {I : Image} `{SleepFuel} (me : nat).

Definition pipeclose (pi : Z) (writable : bool) : M kernel unit :=
  the_pipe pi ;;
  (if writable then
     set_pipe pi (upd_writeopen (λ _, false)) ;; wakeup (Some me) (ChPipeRead pi)
   else
     set_pipe pi (upd_readopen (λ _, false)) ;; wakeup (Some me) (ChPipeWrite pi)) ;;
  x ← the_pipe pi;
  if negb (readopen x) && negb (writeopen x) then
    modify (upd_pipes (delete pi)) ;; vm (kfree pi)
  else mret tt.

Definition push (ch : Z) (x : pipe) : pipe :=
  upd_nwrite (λ w, u32 (w + 1))
    (upd_p_data (λ l, <[Z.to_nat (nwrite x mod PIPESIZE) := ch]> l) x).

Definition pipewrite_body (pi addr n i : Z) : M kernel (Z + Z) :=
  if i <? n then
    x ← the_pipe pi;
    k ← killed me;
    if negb (readopen x) || k then mret (inr (-1))
    else if nwrite x =? u32 (nread x + PIPESIZE) then
      wakeup (Some me) (ChPipeRead pi) ;; sleep me (ChPipeWrite pi) ;; mret (inl i)
    else
      p ← the_proc me;
      '(r, bytes) ← vm (copyin (p_pagetable p) (u64 (addr + i)) 1);
      if r =? -1 then wakeup (Some me) (ChPipeRead pi) ;; mret (inr i)
      else set_pipe pi (push (default 0 (head bytes))) ;; mret (inl (i + 1))
  else wakeup (Some me) (ChPipeRead pi) ;; mret (inr i).
Definition pipewrite (pi addr n : Z) : M kernel Z :=
  loopM (S (Z.to_nat n + sleep_fuel)) (pipewrite_body pi addr n) 0.

(** Wait until the pipe is not empty or its write end is closed; [false] when killed. *)
Definition piperead_wait (pi : Z) : M kernel bool :=
  loopM (S sleep_fuel) (λ _,
    x ← the_pipe pi;
    if (nread x =? nwrite x) && writeopen x then
      k ← killed me;
      if (k : bool) then mret (inr false) else sleep me (ChPipeRead pi) ;; mret (inl tt)
    else mret (inr true)) tt.
Definition piperead_body (pi addr n i : Z) : M kernel (Z + Z) :=
  if i <? n then
    x ← the_pipe pi;
    if nread x =? nwrite x then mret (inr i)
    else
      let ch := default 0 (p_data x !! Z.to_nat (nread x mod PIPESIZE)) in
      set_pipe pi (upd_nread (λ r, u32 (r + 1))) ;;
      p ← the_proc me;
      r ← vm (copyout (p_pagetable p) (u64 (addr + i)) [ch] 1);
      if r =? -1 then mret (inr i) else mret (inl (i + 1))
  else mret (inr i).
Definition piperead (pi addr n : Z) : M kernel Z :=
  ok ← piperead_wait pi;
  if negb ok then mret (-1)
  else
    i ← loopM (S (Z.to_nat n)) (piperead_body pi addr n) 0;
    wakeup (Some me) (ChPipeWrite pi) ;;
    mret i.

End pipe.
