(* ===== verification/PipeSpec.v ===== *)
(** * Pipes are queues

    A writer and a reader, each in a process of its own, call [pipewrite] and
    [piperead] any number of times and are scheduled in any way.  The bytes come
    out in the order they went in, none is lost or read twice, and the two never
    wait for each other. *)

From S2P Require Import Prelude Riscv Memory CString Kalloc Vm PageTable Mapping UserCopy State Bytes Printf Sched Bio BioSpec Pipe.

(** ** The ring as a queue *)

(** [nread] and [nwrite] count modulo 2^32, the ring has 512 places. *)
Record pipe_ok (x : pipe) : Prop := {
  po_read : 0 ≤ nread x < 2 ^ 32;
  po_write : 0 ≤ nwrite x < 2 ^ 32;
  po_fits : u32 (nwrite x - nread x) ≤ PIPESIZE;
  po_data : length (p_data x) = Z.to_nat PIPESIZE;
  po_bytes : Forall (λ b, 0 ≤ b < 256) (p_data x);
}.
Definition pq (x : pipe) : list Z :=
  (λ j, default 0 (p_data x !! Z.to_nat ((nread x + j) mod PIPESIZE))) <$> seqZ 0 (u32 (nwrite x - nread x)).

Lemma length_pq x : length (pq x) = Z.to_nat (u32 (nwrite x - nread x)).
Proof. unfold pq. by rewrite length_fmap, length_seqZ. Qed.
Lemma pq_full x : pipe_ok x → (nwrite x =? u32 (nread x + PIPESIZE)) = bool_decide (length (pq x) = Z.to_nat PIPESIZE).
Proof.
  intros [H1 H2 H3 _ _]. rewrite length_pq. change PIPESIZE with 512 in *. unfold u32 in *. apply eq_true_iff_eq. rewrite Z.eqb_eq, bool_decide_eq_true.
  change (2 ^ 32) with 4294967296 in *. Z.div_mod_to_equations. lia.
Qed.
Lemma pq_empty x : pipe_ok x → (nread x =? nwrite x) = bool_decide (pq x = []).
Proof.
  intros [H1 H2 H3 _ _]. apply eq_true_iff_eq. rewrite Z.eqb_eq, bool_decide_eq_true. rewrite <-length_zero_iff_nil, length_pq.
  unfold u32 in *. change (2 ^ 32) with 4294967296 in *. Z.div_mod_to_equations. lia.
Qed.

Lemma u32_mod_ring a : u32 a mod PIPESIZE = a mod PIPESIZE.
Proof. unfold u32. change PIPESIZE with 512. change (2 ^ 32) with 4294967296. Z.div_mod_to_equations. lia. Qed.
Lemma ring_ne r j j' : 0 ≤ j < PIPESIZE → 0 ≤ j' < PIPESIZE → j ≠ j' → Z.to_nat ((r + j) mod PIPESIZE) ≠ Z.to_nat ((r + j') mod PIPESIZE).
Proof.
  change PIPESIZE with 512. intros Hj Hj' Hne E. pose proof (Z.mod_pos_bound (r + j) 512). pose proof (Z.mod_pos_bound (r + j') 512).
  assert ((r + j) mod 512 = (r + j') mod 512) as E' by lia. Z.div_mod_to_equations. lia.
Qed.

Lemma pq_push x c : pipe_ok x → (length (pq x) < Z.to_nat PIPESIZE)%nat → 0 ≤ c < 256 → pipe_ok (push c x) ∧ pq (push c x) = pq x ++ [c].
Proof.
  intros [H1 H2 H3 H4 H5] Hl Hc. rewrite length_pq in Hl. set (n := u32 (nwrite x - nread x)) in *.
  assert (0 ≤ n) as Hn by (apply u32_bound). assert (u32 (u32 (nwrite x + 1) - nread x) = n + 1) as En.
  { change PIPESIZE with 512 in *. unfold n, u32 in *. change (2 ^ 32) with 4294967296 in *. Z.div_mod_to_equations. lia. }
  assert (nwrite x mod PIPESIZE = (nread x + n) mod PIPESIZE) as Ew.
  { rewrite <-(u32_mod_ring (nread x + n)). f_equal. unfold n, u32. change (2 ^ 32) with 4294967296 in *. Z.div_mod_to_equations. lia. }
  assert (Z.to_nat (nwrite x mod PIPESIZE) < length (p_data x))%nat as Hw.
  { rewrite H4. change PIPESIZE with 512. pose proof (Z.mod_pos_bound (nwrite x) 512). lia. }
  split.
  - split; cbn [push nread nwrite p_data upd_nwrite upd_p_data]; [done|apply u32_bound|rewrite En; lia|by rewrite length_insert|by apply Forall_insert].
  - unfold pq. cbn [push nread nwrite p_data upd_nwrite upd_p_data]. rewrite En. fold n. rewrite seqZ_app by lia. rewrite fmap_app. f_equal.
    + apply list_fmap_ext. intros i j Hj. apply lookup_seqZ in Hj as [-> Hi]. rewrite list_lookup_insert_ne; [done|]. rewrite Ew. apply ring_ne; lia.
    + change (seqZ (0 + n) 1) with [0 + n]. cbn [fmap list_fmap]. rewrite Z.add_0_l, <-Ew. by rewrite list_lookup_insert_eq.
Qed.
Lemma pq_pop x c q : pipe_ok x → pq x = c :: q →
  default 0 (p_data x !! Z.to_nat (nread x mod PIPESIZE)) = c ∧ 0 ≤ c < 256 ∧
  pipe_ok (upd_nread (λ r, u32 (r + 1)) x) ∧ pq (upd_nread (λ r, u32 (r + 1)) x) = q.
Proof.
  intros [H1 H2 H3 H4 H5] Hq. pose proof (length_pq x) as Hl. rewrite Hq in Hl. cbn [length] in Hl. set (n := u32 (nwrite x - nread x)) in *.
  assert (u32 (nwrite x - u32 (nread x + 1)) = n - 1) as En.
  { unfold n, u32 in *. change (2 ^ 32) with 4294967296 in *. Z.div_mod_to_equations. lia. }
  unfold pq in Hq. fold n in Hq. rewrite seqZ_cons in Hq by lia. cbn [fmap list_fmap] in Hq. injection Hq as Hc Hq. rewrite Z.add_0_r in Hc.
  assert (0 ≤ c < 256) as Hb.
  { rewrite <-Hc. destruct (lookup_lt_is_Some_2 (p_data x) (Z.to_nat (nread x mod PIPESIZE))) as [d Hd].
    { rewrite H4. change PIPESIZE with 512. pose proof (Z.mod_pos_bound (nread x) 512). lia. }
    rewrite Hd. cbn. by apply (proj1 (Forall_lookup _ _) H5 _ _ Hd). }
  split; [done|]. split; [done|]. split.
  - split; cbn [nread nwrite p_data upd_nread]; [apply u32_bound|done|rewrite En; lia|done|done].
  - unfold pq. cbn [nread nwrite p_data upd_nread]. rewrite En, <-Hq. replace (Z.pred n) with (n - 1) by lia.
    change (Z.succ 0) with (1 + 0). rewrite <-(fmap_add_seqZ 1 0), <-list_fmap_compose. apply list_fmap_ext. intros i j Hj. cbn [compose].
    do 3 f_equal. rewrite <-(u32_mod_ring (nread x + (1 + j))), <-(u32_mod_ring (u32 (nread x + 1) + j)). f_equal. unfold u32.
    change (2 ^ 32) with 4294967296. Z.div_mod_to_equations. lia.
Qed.

(** ** A writer and a reader *)

(** What a process sees at [va], and where it can write. *)
Definition sees (k : kernel) (root va : Z) (bs : list Z) : Prop :=
  0 ≤ va ∧ user_bytes (ram (mach k)) root va (length bs) = bs ∧
  ∀ v, va ≤ v < va + Z.of_nat (length bs) → user_readable (ram (mach k)) root v = true.
Definition writable (k : kernel) (root va n : Z) : Prop :=
  0 ≤ va ∧ 0 ≤ n ∧ ∀ v, va ≤ v < va + n → user_writable (ram (mach k)) root v = true.

Lemma sees_cons k root va c bs : sees k root va (c :: bs) →
  user_load (ram (mach k)) root va = c ∧ user_readable (ram (mach k)) root va = true ∧ va < MAXVA ∧ sees k root (va + 1) bs.
Proof.
  intros (Hva & Hb & Hr). cbn [length] in *. assert (user_readable (ram (mach k)) root va = true) as Hr0 by (apply Hr; lia).
  unfold user_bytes in Hb. cbn [seq fmap list_fmap] in Hb. injection Hb as Hc Hb. rewrite Z.add_0_r in Hc.
  split_and!; [done|done|by eapply readable_max|]. split_and!; [lia| |intros v Hv; apply Hr; lia].
  rewrite <-Hb at 2. unfold user_bytes. rewrite <-fmap_S_seq, <-list_fmap_compose. apply list_fmap_ext. intros _ i _. cbn [compose]. f_equal. lia.
Qed.

(** ** Bytes that arrive in the memory of a process *)

Section memory.
Context {I : Image} (l : list Z) (own : gmap Z role) (root : Z).

(** The memory after [src] has arrived at [va]. *)
Definition received (k k' : kernel) (va : Z) (src : list Z) : Prop :=
  copy_frame (mach k) l own root (mach k') ∧ user_upd (ram (mach k)) (ram (mach k')) own root va src.

Lemma received_none k va : pt_inv (mach k) l own → received k k va [].
Proof using Type. intros Hw. split; [by apply copy_frame_refl|apply user_upd_nil]. Qed.
Lemma received_app k k1 k2 va src1 src2 : pt_inv (mach k) l own → received k k1 va src1 → received k1 k2 (va + Z.of_nat (length src1)) src2 → received k k2 va (src1 ++ src2).
Proof using Type.
  intros Hw [F1 U1] [F2 U2]. split; [by eapply copy_frame_trans|].
  eapply (user_upd_app (mach k) l own root va (length src1) _ (ram (mach k1))); [apply Hw|apply F1|rewrite length_app; lia|by rewrite take_app_length|by rewrite drop_app_length].
Qed.
Lemma received_from k2 k3 k' va src : mach k3 = mach k2 → received k3 k' va src → received k2 k' va src.
Proof using Type. unfold received. by intros ->. Qed.
Lemma received_writable k k' va src va' n : pt_inv (mach k) l own → is_root own root → received k k' va src → writable k root va' n → writable k' root va' n.
Proof using Type.
  intros Hw Hr [F _] (H1 & H2 & H3). split_and!; [done|done|]. intros v Hv.
  destruct (user_tables (ram (mach k')) (mach k) l own root v Hw (cf_tables _ _ _ _ _ F) Hr ltac:(lia)) as [_ ->]. by apply H3.
Qed.
Lemma received_load k k' va src v : is_root own root → user_inv (ram (mach k)) own root → received k k' va src → 0 ≤ v → user_writable (ram (mach k)) root v = true →
  user_load (ram (mach k')) root v = if decide (va ≤ v < va + Z.of_nat (length src)) then default 0 (src !! Z.to_nat (v - va)) else user_load (ram (mach k)) root v.
Proof using Type.
  intros Hr Hu [F U] Hv Hwr. assert (user_readable (ram (mach k)) root v = true) as Hrd by (unfold user_writable in Hwr; by bsimpl).
  rewrite (U root v); [|done|split; [lia|by eapply readable_max]|apply Hu; [lia|done]]. repeat case_decide; tauto.
Qed.
Lemma received_bytes k k' va src n : is_root own root → user_inv (ram (mach k)) own root → received k k' va src → writable k root va n → Z.of_nat (length src) ≤ n →
  user_bytes (ram (mach k')) root va (length src) = src.
Proof using Type.
  intros Hr Hu Hrec (H1 & H2 & H3) Hn. apply list_eq. intros i. unfold user_bytes. rewrite list_lookup_fmap. destruct (decide (i < length src)%nat) as [Hi|Hi].
  2:{ rewrite lookup_seq_ge by lia. symmetry. apply lookup_ge_None_2. lia. }
  rewrite lookup_seq_lt by done. cbn. rewrite (received_load k k' va src), decide_True by (done || lia || (apply H3; lia)).
  replace (Z.to_nat (va + Z.of_nat i - va)) with i by lia. destruct (lookup_lt_is_Some_2 _ _ Hi) as [x ->]. done.
Qed.

(** One byte. *)
Lemma copyout_byte_wp k va c (Q : Z → kernel → Prop) : pt_inv (mach k) l own → is_root own root → user_inv (ram (mach k)) own root →
  0 ≤ va → 0 ≤ c < 256 → user_writable (ram (mach k)) root va = true →
  (∀ s', received k (upd_mach (λ _, s') k) va [c] → Q 0 (upd_mach (λ _, s') k)) → wp (vm (copyout root va [c] 1)) Q k.
Proof using Type.
  intros Hpt Hr Hu Hva Hc Hwr HQ. apply wp_zoom. unfold copyout. eapply wp_mono; [apply (copyout_loop _ (mach k) l own root va [c]); [done|done|lia|cbn; lia|by constructor|done]|].
  intros r s' (j & F & U & Hj & Hres). assert (r = 0 ∧ j = 1%nat) as [-> ->]; [|by apply HQ].
  destruct Hres as [?|(_ & Hj1 & Hbad)]; [done|]. cbn in Hj1. replace j with 0%nat in Hbad by lia. rewrite Z.add_0_r in Hbad. congruence.
Qed.
End memory.

Section pipe.
Context {I : Image} `{SleepFuel} (a b : nat) (pi ra rb : Z) (Hab : a ≠ b) (Hrr : ra ≠ rb).

(** While a process runs in the kernel; the pages [own] do not change. *)
Section owned.
Context (l : list Z) (own : gmap Z role).

Definition proc_ok (k : kernel) (i : nat) (root : Z) : Prop :=
  ∃ p, procs k !! i = Some p ∧ p_pagetable p = root ∧ p_killed p = false.
Record world (k : kernel) : Prop := {
  wd_pt : pt_inv (mach k) l own;
  wd_a : proc_ok k a ra ∧ user_inv (ram (mach k)) own ra;
  wd_b : proc_ok k b rb ∧ user_inv (ram (mach k)) own rb;
  wd_pipe : ∃ x, pipes k !! pi = Some x ∧ pipe_ok x ∧ readopen x = true ∧ writeopen x = true;
  wd_roots : is_root own ra ∧ is_root own rb;
}.
Definition queue (k : kernel) : list Z := match pipes k !! pi with Some x => pq x | None => [] end.

Lemma the_pipe_wp k x (Q : pipe → kernel → Prop) : pipes k !! pi = Some x → Q x k → wp (the_pipe pi) Q k.
Proof using Type. intros Hx HQ. unfold the_pipe. wp_steps. rewrite Hx. by wp_step. Qed.
Lemma killed_wp k i root (Q : bool → kernel → Prop) : proc_ok k i root → Q false k → wp (killed i) Q k.
Proof using Type. intros (p & Hp & _ & Hk) HQ. unfold killed. wp_step. eapply wp_at_idx; [exact Hp|]. wp_step. by rewrite Hk. Qed.

(** One byte is taken from the memory of the writer. *)
Lemma push_wp k addr n i c bs (Q : Z + Z → kernel → Prop) :
  world k → sees k ra (addr + i) (c :: bs) → i < n → 0 ≤ addr + i → (length (queue k) < Z.to_nat PIPESIZE)%nat →
  (∀ k', world k' → queue k' = queue k ++ [c] → procs k' = procs k → mach k' = mach k → Q (inl (i + 1)) k') →
  wp (pipewrite_body a pi addr n i) Q k.
Proof using All.
  intros [Hpt [Ha Hua] Hb (x & Hx & Hok & Hro & Hwo) [Hra Hrb]] Hs Hi Hva Hq HQ. destruct (sees_cons _ _ _ _ _ Hs) as (Hc & Hr & Hmax & _).
  unfold queue in *. rewrite Hx in *. unfold pipewrite_body. rewrite (proj2 (Z.ltb_lt i n)) by done.
  wp_step. eapply the_pipe_wp; [exact Hx|]. wp_step. eapply killed_wp; [exact Ha|]. rewrite Hro. cbn [negb orb].
  rewrite pq_full by done. rewrite bool_decide_false by lia. destruct Ha as (p & Hp & Hpt' & Hpk).
  wp_step. eapply wp_at_idx; [exact Hp|]. rewrite Hpt'. rewrite u64_id by (rewrite MAXVA_val in Hmax; lia). wp_step. apply wp_zoom.
  eapply wp_mono; [apply (copyin_spec (mach k) l own ra (addr + i) 1); done|].
  intros [r bytes] s' (-> & j & Hby & Hrd & Hres). cbn [fst snd] in *.
  assert (r = 0 ∧ j = 1%nat) as [-> ->].
  { destruct Hres as [?|(_ & Hj & Hbad)]; [done|]. replace j with 0%nat in Hbad by lia. rewrite Z.add_0_r in Hbad. congruence. }
  change (0 =? -1) with false. cbv iota. unfold set_pipe. wp_steps.
  assert (bytes = [c]) as ->. { rewrite Hby. unfold user_bytes. cbn. by rewrite Z.add_0_r, Hc. }
  cbn [head default]. change (default 0 (head [c])) with c.
  destruct (pq_push x c Hok Hq) as [Hok' Hpq].
  { rewrite <-Hc. apply (ki_bytes _ _ (pt_kmem _ _ _ Hpt)). }
  apply HQ.
  - split; cbn [mach procs pipes upd_pipes upd_mach]; [done|split; [by exists p|done]|done| |done].
    exists (push c x). rewrite lookup_alter_eq, Hx. done.
  - cbn [pipes upd_pipes upd_mach]. rewrite lookup_alter_eq, Hx. cbn. done.
  - done.
  - by destruct k.
Qed.

(** Asleep on a channel; what a wakeup of the channel makes of a process. *)
Definition sleeps (k : kernel) (i : nat) (ch : chan) : Prop := ∃ p, procs k !! i = Some p ∧ p_state p = SLEEPING ∧ p_chan p = ch.
Definition woken_by (ch : chan) (i : nat) (k k' : kernel) : Prop := procs k' !! i = wake ch <$> procs k !! i.

Lemma wake_ok ch p : p_pagetable (wake ch p) = p_pagetable p ∧ p_killed (wake ch p) = p_killed p.
Proof using Type. unfold wake. by case_decide. Qed.
Lemma proc_ok_wake k ps i me ch root : proc_ok k i root → ps = imap (λ j p, if decide (me = Some j) then p else wake ch p) (procs k) →
  ∃ p, ps !! i = Some p ∧ p_pagetable p = root ∧ p_killed p = false.
Proof using Type.
  intros (p & Hp & H1 & H2) ->. rewrite list_lookup_imap, Hp. cbn. eexists. split; [done|]. case_decide; [done|]. destruct (wake_ok ch p) as [-> ->]. done.
Qed.

Definition wrote (k k' : kernel) (w : list Z) : Prop :=
  world k' ∧ queue k' = queue k ++ w ∧ mach k' = mach k ∧ woken_by (ChPipeRead pi) b k k'.
Lemma world_procs k ps : world k → (∀ i root, proc_ok k i root → ∃ p, ps !! i = Some p ∧ p_pagetable p = root ∧ p_killed p = false) →
  world (upd_procs (λ _, ps) k).
Proof using Type. intros [H1 [H2 U2] [H3 U3] H4 H5] Hps. split; [done|split; [by apply Hps|done]|split; [by apply Hps|done]|done|done]. Qed.

Lemma the_pipe_eq k x : pipes k !! pi = Some x → the_pipe pi k = Done x k.
Proof using Type. intros Hx. unfold the_pipe. rewrite (bind_done _ _ _ (pipes k) k) by done. by rewrite Hx. Qed.
Lemma killed_eq k i root : proc_ok k i root → killed i k = Done false k.
Proof using Type.
  intros (p & Hp & _ & Hk). unfold killed, the_proc, at_idx. erewrite bind_done; [by rewrite <-Hk|].
  rewrite (bind_done _ _ _ (procs k) k) by done. by rewrite Hp.
Qed.
Lemma sleep_eq k i p ch : procs k !! i = Some p → sleep i ch k =
  Sleep ch (upd_procs (λ _, <[i := upd_p_state (λ _, SLEEPING) (upd_p_chan (λ _, ch) p)]> (procs k)) k) (set_proc i (upd_p_chan (λ _, ChNull))).
Proof using Type.
  intros Hp. unfold sleep. erewrite bind_done; [done|]. unfold set_proc, set_idx. rewrite (bind_done _ _ _ (procs k) k) by done. by rewrite Hp.
Qed.
Lemma wake_readers_eq k : wakeup (Some a) (ChPipeRead pi) k =
  Done tt (upd_procs (λ _, imap (λ i p, if decide (Some a = Some i) then p else wake (ChPipeRead pi) p) (procs k)) k).
Proof using Type. done. Qed.

Lemma full_eq k addr n i : world k → i < n → length (queue k) = Z.to_nat PIPESIZE →
  ∃ ps, let k' := upd_procs (λ _, ps) k in
    world k' ∧ sleeps k' a (ChPipeWrite pi) ∧ woken_by (ChPipeRead pi) b k k' ∧
    pipewrite_body a pi addr n i k =
      Sleep (ChPipeWrite pi) k' (λ k2, obind (λ _, mret (inl i)) (set_proc a (upd_p_chan (λ _, ChNull)) k2)).
Proof using All.
  intros Hw Hi Hq. pose proof Hw as [Hpt [Ha Hua] Hb (x & Hx & Hok & Hro & Hwo) [Hra Hrb]]. pose proof Ha as (p & Hp & Hpp & Hpk).
  set (ps1 := imap (λ i p, if decide (Some a = Some i) then p else wake (ChPipeRead pi) p) (procs k)).
  set (p' := upd_p_state (λ _, SLEEPING) (upd_p_chan (λ _, ChPipeWrite pi) p)). exists (<[a := p']> ps1).
  assert (ps1 !! a = Some p) as Hpa by (unfold ps1; rewrite list_lookup_imap, Hp; cbn; by rewrite decide_True).
  split_and!.
  - apply world_procs; [done|]. intros j root Hj. destruct (decide (j = a)) as [->|Hne].
    + destruct Hj as (p0 & Hp0 & ? & ?). rewrite Hp in Hp0. injection Hp0 as <-. exists p'. rewrite list_lookup_insert_eq by (by eapply lookup_lt_Some). done.
    + rewrite list_lookup_insert_ne by done. by eapply (proc_ok_wake k).
  - exists p'. cbn [procs upd_procs]. rewrite list_lookup_insert_eq by (by eapply lookup_lt_Some). done.
  - unfold woken_by. cbn [procs upd_procs]. rewrite list_lookup_insert_ne by done. unfold ps1. rewrite list_lookup_imap.
    destruct (procs k !! b); [|done]. cbn. rewrite decide_False by congruence. done.
  - unfold queue in Hq. rewrite Hx in Hq. unfold pipewrite_body. rewrite (proj2 (Z.ltb_lt i n)) by done.
    rewrite (bind_done _ _ _ _ _ (the_pipe_eq k x Hx)), (bind_done _ _ _ _ _ (killed_eq k a ra Ha)). rewrite Hro. cbn [negb orb].
    rewrite pq_full by done. rewrite bool_decide_true by done. rewrite (bind_done _ _ _ _ _ (wake_readers_eq k)). fold ps1.
    rewrite (bind_sleep _ _ _ _ _ _ (sleep_eq (upd_procs (λ _, ps1) k) a p _ Hpa)). done.
Qed.

Lemma wrote_from k2 k3 k' w : queue k3 = queue k2 → mach k3 = mach k2 → procs k3 !! b = procs k2 !! b → wrote k3 k' w → wrote k2 k' w.
Proof using Type. intros Eq Em Eb (H1 & H2 & H3 & H4). unfold wrote, woken_by in *. rewrite H2, H3, H4, Eq, Em, Eb. done. Qed.
(** What has been pushed since the call started to run. *)
Definition pushed (k0 k : kernel) (w : list Z) : Prop :=
  queue k = queue k0 ++ w ∧ procs k = procs k0 ∧ mach k = mach k0.

Lemma unchan_ok k2 i j root : world k2 → proc_ok k2 i root → i ≠ j →
  ∃ k3, set_proc i (upd_p_chan (λ _, ChNull)) k2 = Done tt k3 ∧ world k3 ∧ queue k3 = queue k2 ∧ mach k3 = mach k2 ∧ procs k3 !! j = procs k2 !! j.
Proof using All.
  intros Hw (p & Hp & Hpp & Hpk) Hij. eexists. split.
  { unfold set_proc, set_idx. rewrite (bind_done _ _ _ (procs k2) k2) by done. by rewrite Hp. }
  split_and!; try done.
  - apply (world_procs k2); [done|]. intros i' root' Hj. destruct (decide (i' = i)) as [->|Hne]; [|by rewrite list_lookup_insert_ne].
    destruct Hj as (p0 & Hp0 & ? & ?). rewrite Hp in Hp0. injection Hp0 as <-. eexists. rewrite list_lookup_insert_eq by (by eapply lookup_lt_Some). done.
  - cbn [procs upd_procs]. by rewrite list_lookup_insert_ne.
Qed.

Lemma write_end_eq k addr n : world k → ∃ k', pipewrite_body a pi addr n n k = Done (inr n) k' ∧
  world k' ∧ queue k' = queue k ∧ mach k' = mach k ∧ woken_by (ChPipeRead pi) b k k'.
Proof using All.
  intros Hw. unfold pipewrite_body. rewrite Z.ltb_irrefl. eexists. split; [by rewrite (bind_done _ _ _ _ _ (wake_readers_eq k))|].
  split_and!; try done.
  - apply world_procs; [done|]. intros j root Hj. by eapply (proc_ok_wake k).
  - unfold woken_by. cbn [procs upd_procs]. rewrite list_lookup_imap. destruct (procs k !! b); [|done]. cbn. rewrite decide_False by congruence. done.
Qed.

(** ** Reading *)

Notation received := (received l own rb).
Lemma received_world k k' va src : world k → received k k' va src → procs k' = procs k → pipes k' = pipes k → world k'.
Proof using All.
  intros [H1 [H2 U2] [H3 U3] H4 [Hra Hrb]] [F _] Ep Ei. split; [apply F|split; [by unfold proc_ok; rewrite Ep|]|split; [by unfold proc_ok; rewrite Ep|]|by rewrite Ei|done].
  - eapply user_inv_tables; [exact H1|apply F|done|done].
  - eapply user_inv_tables; [exact H1|apply F|done|done].
Qed.
(** The writer sees what it saw. *)
Lemma received_sees k k' va src va' bs : world k → received k k' va src → sees k ra va' bs → sees k' ra va' bs.
Proof using All.
  intros Hw [F U] (H1 & H2 & H3). assert (∀ v, va' ≤ v < va' + Z.of_nat (length bs) → user_load (ram (mach k')) ra v = user_load (ram (mach k)) ra v) as Hl.
  { intros v Hv. rewrite (U ra v); [by rewrite decide_False by tauto|apply (wd_roots _ Hw)|split; [lia|by eapply readable_max, H3]|].
    apply (proj2 (wd_a _ Hw)); [lia|by apply H3]. }
  split_and!; [done| |].
  - rewrite <-H2 at 2. unfold user_bytes. apply list_fmap_ext. intros i j [-> Hj]%lookup_seq. apply Hl. cbn. lia.
  - intros v Hv. destruct (user_tables (ram (mach k')) (mach k) l own ra v (wd_pt _ Hw) (cf_tables _ _ _ _ _ F) (proj1 (wd_roots _ Hw)) ltac:(lia)) as [-> _]. by apply H3.
Qed.
Lemma pop_wp k addr n i c q (Q : Z + Z → kernel → Prop) :
  world k → queue k = c :: q → 0 ≤ i < n → writable k rb addr n →
  (∀ k', world k' → queue k' = q → procs k' = procs k → received k k' (addr + i) [c] → Q (inl (i + 1)) k') → wp (piperead_body b pi addr n i) Q k.
Proof using All.
  intros Hw Hq Hi (Ha1 & Ha2 & Ha3) HQ. pose proof Hw as [Hpt _ [(p & Hp & Hpp & Hpk) Hub] (x & Hx & Hok & Hro & Hwo) [Hra Hrb]].
  unfold queue in Hq. rewrite Hx in Hq. destruct (pq_pop x c q Hok Hq) as (Hc & Hcb & Hok' & Hpq).
  unfold piperead_body. rewrite (proj2 (Z.ltb_lt i n)) by lia. wp_step. eapply the_pipe_wp; [exact Hx|]. rewrite pq_empty, Hq by done. rewrite bool_decide_false by done. cbv zeta. rewrite Hc.
  unfold set_pipe. wp_steps. eapply wp_at_idx; [exact Hp|]. rewrite Hpp. set (k1 := upd_pipes _ k).
  assert (user_writable (ram (mach k)) rb (addr + i) = true) as Hwr by (apply Ha3; lia).
  assert (addr + i < MAXVA) as Hm by (eapply readable_max; unfold user_writable in Hwr; by bsimpl). rewrite u64_id by (rewrite MAXVA_val in Hm; lia).
  wp_step. apply (copyout_byte_wp l own rb k1); [done|done|done|lia|done|done|]. intros s' Hrec0. change (0 =? -1) with false. cbv iota. wp_step. set (k2 := upd_mach _ k1). assert (received k k2 (addr + i) [c]) as Hrec by done.
  apply HQ; [|unfold queue; cbn [pipes upd_pipes upd_mach k2 k1]; rewrite lookup_alter_eq, Hx; done|done|done].
  destruct (received_world k (upd_pipes (λ _, pipes k) k2) (addr + i) [c] Hw Hrec eq_refl eq_refl) as [W1 W2 W3 _ W5]. split; [done|done|done| |done].
  exists (upd_nread (λ r, u32 (r + 1)) x). cbn [pipes upd_pipes upd_mach k2 k1]. rewrite lookup_alter_eq, Hx. done.
Qed.

(** All the bytes there are, up to [n]. *)
Lemma drain_wp n addr : ∀ f i k0 k got,
  world k0 → world k → queue k0 = got ++ queue k → procs k = procs k0 → received k0 k addr got → i = Z.of_nat (length got) → writable k0 rb addr n →
  i ≤ n → n - i < Z.of_nat f →
  wp (loopM f (piperead_body b pi addr n) i) (λ r k', ∃ got, world k' ∧ queue k0 = got ++ queue k' ∧ procs k' = procs k0 ∧ received k0 k' addr got ∧
    r = Z.of_nat (length got) ∧ r = n `min` Z.of_nat (length (queue k0))) k.
Proof using All.
  induction f as [|f IHf]; intros i k0 k got Hw0 Hw Hq Hp Hrec Hi Hwr Hin Hf; [lia|]. cbn [loopM]. wp_step.
  assert (Z.of_nat (length (queue k0)) = i + Z.of_nat (length (queue k))) as Hl by (rewrite Hq, length_app; lia).
  destruct (decide (i = n)) as [En|Hne]; [|destruct (queue k) as [|c q] eqn:Eq].
  - unfold piperead_body. rewrite (proj2 (Z.ltb_ge i n)) by lia. wp_steps. exists got. split_and!; [done..|lia].
  - pose proof (wd_pipe _ Hw) as (x & Hx & Hok & _). unfold piperead_body. rewrite (proj2 (Z.ltb_lt i n)) by lia. wp_step. eapply the_pipe_wp; [exact Hx|].
    rewrite pq_empty by done. unfold queue in Eq. rewrite Hx in Eq. rewrite bool_decide_true by done. wp_steps. exists got. unfold queue at 2. rewrite Hx, Eq. cbn [length] in Hl.
    split_and!; [done..|lia].
  - apply (pop_wp k addr n i c q); [done|done|lia|exact (received_writable l own rb k0 k addr got addr n (wd_pt _ Hw0) (proj2 (wd_roots _ Hw0)) Hrec Hwr)|]. intros k' Hw' Hq' Hp' Hrec'. cbv beta iota.
    apply (IHf (i + 1) k0 k' (got ++ [c])); [done|done|by rewrite Hq', Hq, <-app_assoc|congruence| |rewrite length_app; cbn; lia|done|lia|lia].
    eapply received_app; [apply Hw0|exact Hrec|by rewrite <-Hi].
Qed.

Definition took (n va : Z) (k : kernel) (r : Z) (k' : kernel) : Prop :=
  ∃ got, world k' ∧ queue k = got ++ queue k' ∧ received k k' va got ∧ r = Z.of_nat (length got) ∧ r = n `min` Z.of_nat (length (queue k)) ∧
    woken_by (ChPipeWrite pi) a k k'.
Lemma drain_eq k n va : world k → writable k rb va n →
  wp (i ← loopM (S (Z.to_nat n)) (piperead_body b pi va n) 0; wakeup (Some b) (ChPipeWrite pi) ;; mret i) (took n va k) k.
Proof using All.
  intros Hw Hwr. wp_step. eapply wp_mono.
  { apply (drain_wp n va _ 0 k k []); [done|done|done|done|apply received_none, Hw|done|done|apply Hwr|destruct Hwr as (_ & ? & _); lia]. }
  intros r k1 (got & H1 & H2 & H3 & H4 & H5 & H6). unfold wakeup. wp_steps. exists got. split_and!; [|done|done|done|done|].
  - apply world_procs; [done|]. intros j root Hj. by eapply (proc_ok_wake k1).
  - unfold woken_by. cbn [procs upd_procs]. rewrite H3, list_lookup_imap. destruct (procs k !! a); [|done]. cbn. rewrite decide_False by congruence. done.
Qed.

Definition ring_wait (_ : unit) : M kernel (unit + bool) :=
  x ← the_pipe pi;
  if (nread x =? nwrite x) && writeopen x then
    k ← killed b;
    if (k : bool) then mret (inr false) else sleep b (ChPipeRead pi) ;; mret (inl tt)
  else mret (inr true).

Lemma empty_eq k : world k → queue k = [] →
  ∃ ps, let k' := upd_procs (λ _, ps) k in
    world k' ∧ sleeps k' b (ChPipeRead pi) ∧ procs k' !! a = procs k !! a ∧
    ring_wait tt k = Sleep (ChPipeRead pi) k' (λ k2, obind (λ _, mret (inl tt)) (set_proc b (upd_p_chan (λ _, ChNull)) k2)).
Proof using All.
  intros Hw Hq. pose proof Hw as [Hpt Ha [Hb Hub] (x & Hx & Hok & Hro & Hwo) [Hra Hrb]]. pose proof Hb as (p & Hp & Hpp & Hpk).
  set (p' := upd_p_state (λ _, SLEEPING) (upd_p_chan (λ _, ChPipeRead pi) p)). exists (<[b := p']> (procs k)). split_and!.
  - apply world_procs; [done|]. intros j root Hj. destruct (decide (j = b)) as [->|Hne]; [|by rewrite list_lookup_insert_ne].
    destruct Hj as (p0 & Hp0 & ? & ?). rewrite Hp in Hp0. injection Hp0 as <-. exists p'. rewrite list_lookup_insert_eq by (by eapply lookup_lt_Some). done.
  - exists p'. cbn [procs upd_procs]. rewrite list_lookup_insert_eq by (by eapply lookup_lt_Some). done.
  - cbn [procs upd_procs]. by rewrite list_lookup_insert_ne.
  - unfold queue in Hq. rewrite Hx in Hq. unfold ring_wait. rewrite (bind_done _ _ _ _ _ (the_pipe_eq k x Hx)). rewrite pq_empty, bool_decide_true by done.
    rewrite Hwo. cbn [andb]. rewrite (bind_done _ _ _ _ _ (killed_eq k b rb Hb)). rewrite (bind_sleep _ _ _ _ _ _ (sleep_eq k b p _ Hp)). done.
Qed.
Lemma ready_eq k : world k → queue k ≠ [] → ring_wait tt k = Done (inr true) k.
Proof using Type.
  intros Hw Hq. pose proof (wd_pipe _ Hw) as (x & Hx & Hok & _). unfold queue in Hq. rewrite Hx in Hq.
  unfold ring_wait. rewrite (bind_done _ _ _ _ _ (the_pipe_eq k x Hx)). rewrite pq_empty, bool_decide_false by done. done.
Qed.

Definition read_rest (n va : Z) (ok : bool) : M kernel Z :=
  if negb ok then mret (-1) else i ← loopM (S (Z.to_nat n)) (piperead_body b pi va n) 0; wakeup (Some b) (ChPipeWrite pi) ;; mret i.

End owned.

(** ** The calls, over any number of wakeups *)

(** A call of [pipewrite] that has [bs] at [va] still to write, with at most [m]
    more wakeups: each time it runs it appends the next bytes to the queue, and
    it sleeps only when the pipe is full.  Other pages may be in use when it runs again. *)
Fixpoint write_call (l : list Z) (own : gmap Z role) (m : nat) (n va : Z) (bs : list Z) (k : kernel) (o : outcome kernel Z) : Prop :=
  match o with
  | Done r k' => r = n ∧ wrote l own k k' bs
  | Sleep ch k' c => ∃ w rest, bs = w ++ rest ∧ rest ≠ [] ∧ wrote l own k k' w ∧ length (queue k') = Z.to_nat PIPESIZE ∧
      sleeps k' a (ChPipeWrite pi) ∧
      match m with
      | O => True
      | S m => ∀ l own k2, world l own k2 → sees k2 ra (va + Z.of_nat (length w)) rest → write_call l own m n (va + Z.of_nat (length w)) rest k2 (c k2)
      end
  | _ => False
  end.

Lemma write_call_from l own m n va bs k2 k3 o : queue k3 = queue k2 → mach k3 = mach k2 → procs k3 !! b = procs k2 !! b →
  write_call l own m n va bs k3 o → write_call l own m n va bs k2 o.
Proof using Type.
  intros Eq Em Eb. destruct m, o; cbn [write_call]; try done.
  1,3: by intros [Hr Hw]; split; [|by eapply wrote_from].
  all: intros (w & rest & H1 & H2 & H3 & Hrest); exists w, rest; split; [done|]; split; [done|]; split; [by eapply wrote_from|exact Hrest].
Qed.

Lemma write_loop m : ∀ l own f bs i n addr k k0 w,
  world l own k → pushed k0 k w → sees k ra (addr + i) bs → 0 ≤ addr + i → i + Z.of_nat (length bs) = n → (length bs + m < f)%nat →
  write_call l own m n (addr + i - Z.of_nat (length w)) (w ++ bs) k0 (loopM f (pipewrite_body a pi addr n) i k).
Proof using All.
  induction (lt_wf m) as [m _ IHm]. intros l own. induction f as [|f IHf]; intros bs i n addr k k0 w Hw Hp Hs Hva Hn Hf; [lia|].
  pose proof Hp as (Hp1 & Hp2 & Hp3). destruct bs as [|c bs]; cbn [length] in Hn, Hf.
  { replace n with i by lia. destruct (write_end_eq l own k addr i Hw) as (k' & Hb & Hw' & Hq & Hm & Hwk). rewrite (loop_eq _ _ _ _ _ _ Hb).
    assert (wrote l own k0 k' (w ++ [])) as Hwr; [|by destruct m]. rewrite app_nil_r. split_and!; [done|congruence|congruence|]. unfold woken_by in *. by rewrite Hwk, Hp2. }
  destruct (decide (length (queue k) = Z.to_nat PIPESIZE)) as [Hfull|Hfull].
  - destruct (full_eq l own k addr n i Hw ltac:(lia) Hfull) as (ps & Hw' & Hsl & Hwk & Hb). cbn [loopM]. rewrite (bind_sleep _ _ _ _ _ _ Hb).
    assert (wrote l own k0 (upd_procs (λ _, ps) k) w) as Hwr by (split_and!; [done|done|by cbn; congruence|unfold woken_by in *; by rewrite Hwk, Hp2]).
    destruct m as [|m]; cbn [write_call]; exists w, (c :: bs); (split_and!; [done|done|done|done|done|]); [done|].
    intros l2 own2 k2 Hw2 Hs2. destruct (unchan_ok l2 own2 k2 a b ra Hw2 (proj1 (wd_a _ _ _ Hw2)) Hab) as (k3 & E3 & Hw3 & Hq3 & Hm3 & Hb3). rewrite E3. cbn [obind].
    eapply (write_call_from _ _ _ _ _ _ k2 k3); [done|done|done|]. replace (addr + i - Z.of_nat (length w) + Z.of_nat (length w)) with (addr + i) in * by lia.
    pose proof (IHm m ltac:(lia) l2 own2 f (c :: bs) i n addr k3 k3 []) as Hloop. cbn [length app Z.of_nat] in Hloop. rewrite Z.sub_0_r in Hloop. apply Hloop; [done| | |done|lia|lia].
    + split_and!; [by rewrite app_nil_r|done|done].
    + unfold sees in *. by rewrite Hm3.
  - assert (length (queue k) < Z.to_nat PIPESIZE)%nat as Hlt.
    { destruct (wd_pipe _ _ _ Hw) as (x & Hx & Hok & _). unfold queue in *. rewrite Hx in *. pose proof (po_fits _ Hok). rewrite length_pq in *. change PIPESIZE with 512 in *. lia. }
    assert (wp (pipewrite_body a pi addr n i) (λ r k', r = inl (i + 1) ∧ world l own k' ∧ pushed k0 k' (w ++ [c])) k) as Hwp.
    { apply (push_wp l own k addr n i c bs); [done|done|lia|done|done|]. intros k' H1 H2 H3 H4.
      split_and!; [done|done|split_and!; [by rewrite H2, Hp1, app_assoc|congruence|congruence]]. }
    apply wp_elim in Hwp as (r & k' & Hb & -> & Hw' & Hp'). rewrite (loop_eq _ _ _ _ _ _ Hb).
    replace (addr + i - Z.of_nat (length w)) with (addr + (i + 1) - Z.of_nat (length (w ++ [c]))) by (rewrite length_app; cbn; lia).
    replace (w ++ c :: bs) with ((w ++ [c]) ++ bs) by (by rewrite <-app_assoc).
    apply IHf; [done|done| |lia|lia|lia]. destruct Hp' as (_ & _ & Em), (sees_cons _ _ _ _ _ Hs) as (_ & _ & _ & Hs').
    rewrite Z.add_assoc. unfold sees in *. by rewrite Em, <-Hp3.
Qed.

(** A call of [piperead] with at most [m] more wakeups sleeps only when the pipe is empty. *)
Fixpoint read_call (l : list Z) (own : gmap Z role) (m : nat) (n va : Z) (k : kernel) (o : outcome kernel Z) : Prop :=
  match o with
  | Done r k' => took l own n va k r k' ∧ queue k ≠ []
  | Sleep ch k' c => world l own k' ∧ queue k = [] ∧ queue k' = [] ∧ mach k' = mach k ∧ procs k' !! a = procs k !! a ∧ sleeps k' b (ChPipeRead pi) ∧
      match m with
      | O => True
      | S m => ∀ l own k2, world l own k2 → writable k2 rb va n → read_call l own m n va k2 (c k2)
      end
  | _ => False
  end.
Lemma read_call_from l own m n va k2 k3 o : queue k3 = queue k2 → mach k3 = mach k2 → procs k3 !! a = procs k2 !! a → read_call l own m n va k3 o → read_call l own m n va k2 o.
Proof using Type.
  intros Eq Em Ea. destruct m, o; cbn [read_call]; try done.
  1,3: intros [(got & H1 & H2 & H3 & H4) Hne]; rewrite Eq in Hne; split; [|done]; exists got; unfold woken_by in *; rewrite Eq, Ea in *;
    split; [done|]; split; [done|]; split; [by eapply received_from|done].
  all: by rewrite Eq, Em, Ea.
Qed.

Lemma read_loop n va m : ∀ l own f k, world l own k → writable k rb va n → (m < f)%nat → read_call l own m n va k (obind (read_rest n va) (loopM f ring_wait tt k)).
Proof using All.
  induction m as [|m IHm]; intros l own f k Hw Hwr Hf; (destruct f as [|f]; [lia|]); (destruct (queue k) as [|c q] eqn:Eq; [|assert (queue k ≠ []) as Hne by congruence]).
  2,4: rewrite (loop_eq _ _ _ _ _ _ (ready_eq l own k Hw Hne)); pose proof (drain_eq l own k n va Hw Hwr) as (r & k' & E & Ht)%wp_elim; cbn [obind]; unfold read_rest; cbn [negb]; by rewrite E.
  all: destruct (empty_eq l own k Hw Eq) as (ps & Hw' & Hsl & Ha & Hb); cbn [loopM]; rewrite (bind_sleep _ _ _ _ _ _ Hb); cbn [obind read_call]; (split_and!; [done..|]).
  { done. }
  intros l2 own2 k2 Hw2 Hwr2. destruct (unchan_ok l2 own2 k2 b a rb Hw2 (proj1 (wd_b _ _ _ Hw2)) (not_eq_sym Hab)) as (k3 & E3 & Hw3 & Hq3 & Hm3 & Ha3). rewrite E3. cbn [obind].
  eapply (read_call_from _ _ _ _ _ k2 k3); [done|done|done|]. apply IHm; [done|unfold writable in *; by rewrite Hm3|lia].
Qed.

(** The two system calls. *)
Lemma pipewrite_call l own k va bs : world l own k → sees k ra va bs → write_call l own sleep_fuel (Z.of_nat (length bs)) va bs k (pipewrite a pi va (Z.of_nat (length bs)) k).
Proof using All.
  intros Hw Hs. pose proof (write_loop sleep_fuel l own (S (length bs + sleep_fuel)) bs 0 (Z.of_nat (length bs)) va k k []) as Hl.
  rewrite Z.add_0_r in Hl. cbn [length app Z.of_nat] in Hl. rewrite Z.sub_0_r in Hl. unfold pipewrite. rewrite Nat2Z.id.
  apply Hl; [done|split_and!; [by rewrite app_nil_r|done|done]|done|apply Hs|lia|lia].
Qed.
Lemma piperead_call l own k va n : world l own k → writable k rb va n → read_call l own sleep_fuel n va k (piperead b pi va n k).
Proof using All. intros Hw Hwr. apply (read_loop n va sleep_fuel l own (S sleep_fuel)); [done|done|lia]. Qed.
End pipe.
