(* ===== verification/PipeThm.v ===== *)
(** * A writer and a reader at the two ends of a pipe

    The processes call [pipewrite] and [piperead] as often as they like, sleep
    and are woken, and anything else that leaves the pipe and the buffers of a
    pending call alone happens in between.  [pipe_fifo] and [pipe_no_deadlock]
    hold in every state that can be reached. *)

From S2P Require Import Prelude Riscv Memory CString Kalloc Vm PageTable Mapping UserCopy State Bytes Printf Sched Bio BioSpec Pipe PipeSpec.

(** A process outside of the pipe's code, or asleep in a call for [n] bytes at
    [va] with [m] wakeups left; the lock of the pipe is free only then. *)
Inductive thread :=
| Idle
| Blocked (va n : Z) (m : nat) (c : kernel → outcome kernel Z).

(** [sent] and [got] are the bytes of all the calls of [pipewrite] so far and
    those that the finished calls of [piperead] have delivered. *)
Record sys := { ker : kernel; writer : thread; reader : thread; sent : list Z; got : list Z }.

(** The process runs until it returns or sleeps. *)
Definition settle (va n : Z) (m : nat) (o : outcome kernel Z) : option (kernel * thread * option Z) :=
  match o with
  | Done r k => Some (k, Idle, Some r)
  | Sleep _ k c => Some (k, Blocked va n m c, None)
  | _ => None
  end.

Definition state_of (k : kernel) (i : nat) : option procstate := p_state <$> procs k !! i.
Definition readable (k : kernel) (root va n : Z) : Prop :=
  0 ≤ va ∧ 0 ≤ n ∧ ∀ v, va ≤ v < va + n → user_readable (ram (mach k)) root v = true.
Definition bytes_at (k : kernel) (root va n : Z) : list Z := user_bytes (ram (mach k)) root va (Z.to_nat n).

Section system.
Context {I : Image} `{SleepFuel} (a b : nat) (pi ra rb : Z).

(** The kernel's invariant for the page tables, some two processes that are not killed, and a pipe open at both ends. *)
Definition at_work (k : kernel) : Prop := ∃ l own, world a b pi ra rb l own k.

(** A blocked process is not put to sleep elsewhere. *)
Definition undisturbed (k k' : kernel) (i : nat) (t : thread) : Prop :=
  match t with
  | Idle => True
  | Blocked _ _ _ _ => ∀ p', procs k' !! i = Some p' → p_state p' = SLEEPING → ∃ p, procs k !! i = Some p ∧ p_state p = SLEEPING ∧ p_chan p = p_chan p'
  end.
Record other (s : sys) (k' : kernel) : Prop := {
  ot_work : at_work k';
  ot_pipe : pipes k' !! pi = pipes (ker s) !! pi;
  ot_writer : undisturbed (ker s) k' a (writer s);
  ot_reader : undisturbed (ker s) k' b (reader s);
  ot_source : match writer s with Idle => True | Blocked va n _ _ => readable k' ra va n ∧ bytes_at k' ra va n = bytes_at (ker s) ra va n end;
  ot_buffer : match reader s with Idle => True | Blocked va n _ _ => writable k' rb va n end;
}.

Definition delivered (k : kernel) (va : Z) (r : option Z) : list Z :=
  match r with Some r => bytes_at k rb va r | None => [] end.

Inductive step : sys → sys → Prop :=
| w_call k rt tx rx va n k' t r :
    readable k ra va n → settle va n sleep_fuel (pipewrite a pi va n k) = Some (k', t, r) →
    step (Build_sys k Idle rt tx rx) (Build_sys k' t rt (tx ++ bytes_at k ra va n) rx)
| w_run k rt tx rx va n m c k' t r :
    state_of k a ≠ Some SLEEPING → settle va n m (c k) = Some (k', t, r) →
    step (Build_sys k (Blocked va n (S m) c) rt tx rx) (Build_sys k' t rt tx rx)
| r_call k wt tx rx va n k' t r :
    writable k rb va n → settle va n sleep_fuel (piperead b pi va n k) = Some (k', t, r) →
    step (Build_sys k wt Idle tx rx) (Build_sys k' wt t tx (rx ++ delivered k' va r))
| r_run k wt tx rx va n m c k' t r :
    state_of k b ≠ Some SLEEPING → settle va n m (c k) = Some (k', t, r) →
    step (Build_sys k wt (Blocked va n (S m) c) tx rx) (Build_sys k' wt t tx (rx ++ delivered k' va r))
| others s k' : other s k' → step s (Build_sys k' (writer s) (reader s) (sent s) (got s)).

(** The next thing the writer, or the reader, can do in the kernel, and asleep in the middle of a call. *)
Definition may_write (s : sys) (va n : Z) (o : outcome kernel Z) : Prop :=
  writer s = Idle ∧ readable (ker s) ra va n ∧ o = pipewrite a pi va n (ker s) ∨
  ∃ m c, writer s = Blocked va n (S m) c ∧ state_of (ker s) a ≠ Some SLEEPING ∧ o = c (ker s).
Definition may_read (s : sys) (va n : Z) (o : outcome kernel Z) : Prop :=
  reader s = Idle ∧ writable (ker s) rb va n ∧ o = piperead b pi va n (ker s) ∨
  ∃ m c, reader s = Blocked va n (S m) c ∧ state_of (ker s) b ≠ Some SLEEPING ∧ o = c (ker s).
Definition stuck (k : kernel) (i : nat) (t : thread) : Prop := t ≠ Idle ∧ state_of k i = Some SLEEPING.

(** From an empty pipe that nobody uses yet. *)
Definition start (k : kernel) : sys := Build_sys k Idle Idle [] [].
Definition reachable (k : kernel) (s : sys) : Prop := rtc step (start k) s.

(** ** The invariant *)

Definition writer_ok (k : kernel) (rest : list Z) (t : thread) : Prop :=
  match t with
  | Idle => rest = []
  | Blocked va n m c => ∃ old, sees k ra va (old ++ rest) ∧ n = Z.of_nat (length (old ++ rest)) ∧ rest ≠ [] ∧
      (∀ m' l own k2, m = S m' → world a b pi ra rb l own k2 → sees k2 ra (va + Z.of_nat (length old)) rest →
        write_call a b pi ra rb l own m' n (va + Z.of_nat (length old)) rest k2 (c k2)) ∧
      (state_of k a = Some SLEEPING → sleeps k a (ChPipeWrite pi) ∧ length (queue pi k) = Z.to_nat PIPESIZE)
  end.
Definition reader_ok (k : kernel) (t : thread) : Prop :=
  match t with
  | Idle => True
  | Blocked va n m c => writable k rb va n ∧
      (∀ m' l own k2, m = S m' → world a b pi ra rb l own k2 → writable k2 rb va n → read_call a b pi ra rb l own m' n va k2 (c k2)) ∧
      (state_of k b = Some SLEEPING → sleeps k b (ChPipeRead pi) ∧ queue pi k = [])
  end.
Record inv (s : sys) (rest : list Z) : Prop := {
  inv_work : at_work (ker s);
  inv_stream : got s ++ queue pi (ker s) ++ rest = sent s;
  inv_writer : writer_ok (ker s) rest (writer s);
  inv_reader : reader_ok (ker s) (reader s);
}.

Lemma writer_frame k k' rest t :
  (∀ va n m c bs, t = Blocked va n m c → n = Z.of_nat (length bs) → sees k ra va bs → sees k' ra va bs) →
  ((state_of k a = Some SLEEPING → sleeps k a (ChPipeWrite pi) ∧ length (queue pi k) = Z.to_nat PIPESIZE) → t ≠ Idle →
    state_of k' a = Some SLEEPING → sleeps k' a (ChPipeWrite pi) ∧ length (queue pi k') = Z.to_nat PIPESIZE) →
  writer_ok k rest t → writer_ok k' rest t.
Proof using Type.
  intros Hs Hz. destruct t as [|va n m c]; [done|]. intros (old & H1 & H2 & H3 & H4 & H5). exists old. split_and!; [by eapply Hs|done|done|done|by apply Hz].
Qed.
Lemma reader_frame k k' t :
  (∀ va n m c, t = Blocked va n m c → writable k rb va n → writable k' rb va n) →
  ((state_of k b = Some SLEEPING → sleeps k b (ChPipeRead pi) ∧ queue pi k = []) → t ≠ Idle →
    state_of k' b = Some SLEEPING → sleeps k' b (ChPipeRead pi) ∧ queue pi k' = []) →
  reader_ok k t → reader_ok k' t.
Proof using Type.
  intros Hs Hz. destruct t as [|va n m c]; [done|]. intros (H1 & H2 & H3). split; [by eapply Hs|]. split; [done|by apply Hz].
Qed.

(** A process that sleeps on the channel does not survive its wakeup asleep. *)
Lemma awake k k' i ch : woken_by ch i k k' → (state_of k i = Some SLEEPING → sleeps k i ch) → state_of k' i ≠ Some SLEEPING.
Proof using Type.
  unfold woken_by, state_of. intros -> Hs Hc. destruct (procs k !! i) as [p|] eqn:Ep; [|done]. cbn in *. unfold wake in Hc. case_decide as Hd; [done|].
  destruct Hs as (p0 & Hp0 & H1 & H2); [congruence|]. apply Hd. split; congruence.
Qed.
Lemma sees_mach k k' root va bs : mach k' = mach k → sees k root va bs → sees k' root va bs.
Proof using Type. unfold sees. by intros ->. Qed.
Lemma writable_mach k k' root va n : mach k' = mach k → writable k root va n → writable k' root va n.
Proof using Type. unfold writable. by intros ->. Qed.
Lemma sees_app k root va bs1 bs2 : sees k root va (bs1 ++ bs2) → sees k root (va + Z.of_nat (length bs1)) bs2.
Proof using Type.
  revert va. induction bs1 as [|c bs1 IH]; intros va Hs; [by rewrite Z.add_0_r|]. destruct (sees_cons _ _ _ _ _ Hs) as (_ & _ & _ & Hs').
  cbn [length]. replace (va + Z.of_nat (S (length bs1))) with (va + 1 + Z.of_nat (length bs1)) by lia. by apply IH.
Qed.
Lemma sees_bytes k root va n : readable k root va n → sees k root va (bytes_at k root va n) ∧ n = Z.of_nat (length (bytes_at k root va n)).
Proof using Type.
  intros (H1 & H2 & H3). unfold bytes_at. assert (length (user_bytes (ram (mach k)) root va (Z.to_nat n)) = Z.to_nat n) as El.
  { unfold user_bytes. by rewrite length_fmap, length_seq. }
  split; [|lia]. split_and!; [done|by rewrite El|]. intros v Hv. apply H3. lia.
Qed.

Context (Hab : a ≠ b) (Hrr : ra ≠ rb).

(** The writer runs. *)
Lemma writer_turn l own m n va old rest k o k' t r rt rx tx :
  world a b pi ra rb l own k → write_call a b pi ra rb l own m n (va + Z.of_nat (length old)) rest k o → sees k ra va (old ++ rest) → n = Z.of_nat (length (old ++ rest)) →
  settle va n m o = Some (k', t, r) → reader_ok k rt → rx ++ queue pi k ++ rest = tx → ∃ rest', inv (Build_sys k' t rt tx rx) rest'.
Proof using All.
  intros Hw Hc Hs Hn Ho Hr Htx. assert (∀ k1 w, wrote a b pi ra rb l own k k1 w → reader_ok k1 rt) as Hrd.
  { intros k1 w (_ & _ & Em & Hwk). apply (reader_frame k); [intros ????? ; by apply writable_mach| |done].
    intros Hz _ Hs1. destruct (awake k k1 b (ChPipeRead pi) Hwk); [|done]. intros. by apply Hz. }
  destruct o; try done; injection Ho as <- <- <-; (destruct m as [|m]; cbn [write_call] in Hc).
  1,2: destruct Hc as (_ & Hwr); pose proof Hwr as (Hw' & Hq & _); exists []; split; cbn [ker writer reader sent got]; [by exists l, own|by rewrite Hq, app_nil_r|done|by eapply Hrd].
  all: destruct Hc as (w & rest' & -> & Hne & Hwr & Hfull & Hsl & Hc); pose proof Hwr as (Hw' & Hq & Em & _); exists rest';
    (split; cbn [ker writer reader sent got]; [by exists l, own|by rewrite Hq, <-Htx, <-!app_assoc| |by eapply Hrd]); exists (old ++ w);
    rewrite <-app_assoc; (split_and!; [by eapply sees_mach|done|done| |done]); intros m' l2 own2 k2 Em'.
  { done. }
  injection Em' as <-. rewrite length_app, Nat2Z.inj_add, Z.add_assoc. apply Hc.
Qed.

(** The reader runs. *)
Lemma reader_turn l own m n va rest k o k' t r wt rx tx :
  world a b pi ra rb l own k → read_call a b pi ra rb l own m n va k o → writable k rb va n → settle va n m o = Some (k', t, r) →
  writer_ok k rest wt → rx ++ queue pi k ++ rest = tx → inv (Build_sys k' wt t tx (rx ++ delivered k' va r)) rest.
Proof using All.
  intros Hw Hc Hwr Ho Hwt Htx. destruct o as [r0 k1| |ch k1 c| | |]; try done; injection Ho as <- <- <-; (destruct m as [|m]; cbn [read_call] in Hc).
  1,2: destruct Hc as [(bs & Hw' & Hq & Hrec & Hr0 & Hmin & Hwk) _];
    (split; cbn [ker writer reader sent got delivered]; [by exists l, own| | |done]).
  1,3: unfold bytes_at; rewrite Hr0, Nat2Z.id, (received_bytes l own rb k k1 va bs n), <-Htx, Hq by (done || lia || apply Hw); by rewrite <-!app_assoc.
  1,2: apply (writer_frame k); [intros ?????? _; by apply (received_sees a b pi ra rb Hab Hrr l own k k1 va bs)| |done];
    intros Hz _ Hs1; destruct (awake k k1 a (ChPipeWrite pi) Hwk); [intros; by apply Hz|done].
  all: destruct Hc as (Hw' & Hq & Hq' & Em & Ea & Hsl & Hc); (split; cbn [ker writer reader sent got delivered]; [by exists l, own|by rewrite app_nil_r, Hq', <-Htx, Hq| |]).
  1,3: apply (writer_frame k); [intros ?????? _; by apply sees_mach| |done]; unfold state_of, sleeps; by rewrite Ea, Hq', Hq.
  all: split; [by eapply writable_mach|]; split; [|done]; intros m' l2 own2 k2 Em'.
  { done. }
  injection Em' as <-. apply Hc.
Qed.

Lemma inv_others s k' rest : other s k' → inv s rest → inv (Build_sys k' (writer s) (reader s) (sent s) (got s)) rest.
Proof using All.
  intros [O1 O2 O3 O4 O5 O6] [H1 H2 H3 H4]. assert (queue pi k' = queue pi (ker s)) as Eq by (unfold queue; by rewrite O2).
  assert (∀ i ch t, undisturbed (ker s) k' i t → t ≠ Idle → state_of k' i = Some SLEEPING →
    state_of (ker s) i = Some SLEEPING ∧ (sleeps (ker s) i ch → sleeps k' i ch)) as Hun.
  { intros i ch t Hu Ht Hs. destruct t; [done|]. unfold state_of in *. destruct (procs k' !! i) as [p'|] eqn:Ep'; [|done]. injection Hs as Hs.
    destruct (Hu p' Ep' Hs) as (p & Hp & Hp1 & Hp2). rewrite Hp. cbn. rewrite Hp1. split; [done|]. intros (p0 & Hp0 & _ & Hc). exists p'. split_and!; [done|done|congruence]. }
  split; cbn [ker writer reader sent got]; [done|by rewrite Eq| |].
  - apply (writer_frame (ker s)); [| |done].
    + intros va n m c bs Et En (Hs1 & Hs2 & Hs3). rewrite Et in O5. destruct O5 as [(_ & _ & Hr) Hby]. unfold bytes_at in Hby. rewrite En, Nat2Z.id, Hs2 in Hby.
      split_and!; [done|done|]. intros v Hv. apply Hr. lia.
    + intros Hz Ht Hs. destruct (Hun a (ChPipeWrite pi) _ O3 Ht Hs) as [Hs0 Hsl]. rewrite Eq. destruct (Hz Hs0). split; [by apply Hsl|done].
  - apply (reader_frame (ker s)); [| |done].
    + intros va n m c Et _. by rewrite Et in O6.
    + intros Hz Ht Hs. destruct (Hun b (ChPipeRead pi) _ O4 Ht Hs) as [Hs0 Hsl]. rewrite Eq. destruct (Hz Hs0). split; [by apply Hsl|done].
Qed.

(** What a turn amounts to. *)
Lemma writer_turns s va n o rest : inv s rest → may_write s va n o → ∃ l own m (old new : list Z),
  world a b pi ra rb l own (ker s) ∧ write_call a b pi ra rb l own m n (va + Z.of_nat (length old)) new (ker s) o.
Proof using All.
  intros [(l & own & Hw) H2 H3 H4] [(Et & Hr & ->)|(m & c & Et & Hs & ->)]; rewrite Et in H3.
  - destruct (sees_bytes _ _ _ _ Hr) as [Hs En]. exists l, own, sleep_fuel, [], (bytes_at (ker s) ra va n). split; [done|]. rewrite Z.add_0_r. rewrite En at 1 3. by apply pipewrite_call.
  - destruct H3 as (old & Hs1 & _ & _ & Hc & _). exists l, own, m, old, rest. split; [done|]. apply Hc; [done|done|by apply sees_app].
Qed.
Lemma reader_turns s va n o rest : inv s rest → may_read s va n o → ∃ l own m,
  world a b pi ra rb l own (ker s) ∧ read_call a b pi ra rb l own m n va (ker s) o.
Proof using All.
  intros [(l & own & Hw) H2 H3 H4] [(Et & Hr & ->)|(m & c & Et & Hs & ->)]; rewrite Et in H4.
  - exists l, own, sleep_fuel. split; [done|]. by apply piperead_call.
  - destruct H4 as (Hwr & Hc & _). exists l, own, m. split; [done|]. by apply Hc.
Qed.

Lemma inv_step s s' rest : inv s rest → step s s' → ∃ rest', inv s' rest'.
Proof using All.
  intros Hinv Hst. pose proof Hinv as [(l & own & Hw) H2 H3 H4].
  destruct Hst as [k rt tx rx va n k' t r Hr Ho|k rt tx rx va n m c k' t r Hs Ho|k wt tx rx va n k' t r Hr Ho|k wt tx rx va n m c k' t r Hs Ho|s k' Hoth]; cbn [ker writer reader sent got] in *.
  - destruct (sees_bytes _ _ _ _ Hr) as [Hsee En]. apply (writer_turn l own sleep_fuel n va [] (bytes_at k ra va n) k (pipewrite a pi va n k) k' t r rt rx); [done| |done|done|done|done|].
    + rewrite Z.add_0_r. rewrite En at 1 3. by apply pipewrite_call.
    + cbn in H3. by rewrite <-H2, H3, app_nil_r, app_assoc.
  - destruct H3 as (old & Hs1 & En & _ & Hc & _). apply (writer_turn l own m n va old rest k (c k) k' t r rt rx); [done| |done|done|done|done|done].
    apply Hc; [done|done|by apply sees_app].
  - exists rest. by eapply (reader_turn l own sleep_fuel n va rest k _ k' t r wt rx), H2; [done|by apply piperead_call|..].
  - destruct H4 as (Hwr & Hc & _). exists rest. by eapply (reader_turn l own m n va rest k _ k' t r wt rx), H2; [done|by apply Hc|..].
  - exists rest. by apply inv_others.
Qed.
Lemma inv_reachable k s : at_work k → queue pi k = [] → reachable k s → ∃ rest, inv s rest.
Proof using All.
  intros Hk Hq Hr. apply (rtc_ind_r (R:=step) (λ s, ∃ rest, inv s rest) (start k)); [|by intros y z _ Hst [rest Hi]; eapply inv_step|exact Hr].
  exists []. split; cbn; [done|by rewrite Hq|done|done].
Qed.

(** A turn when the other process waits. *)
Lemma read_frees s rest va n o : inv s rest → may_read s va n o → ∃ k' t r, settle va n 0 o = Some (k', t, r) ∧
  (stuck (ker s) a (writer s) → t = Idle ∧ r = Some (n `min` PIPESIZE) ∧ state_of k' a ≠ Some SLEEPING).
Proof using All.
  intros Hi Hm. destruct (reader_turns s va n o rest Hi Hm) as (l & own & m & Hw & Hc). destruct Hi as [_ _ H3 _].
  assert (stuck (ker s) a (writer s) → sleeps (ker s) a (ChPipeWrite pi) ∧ length (queue pi (ker s)) = Z.to_nat PIPESIZE) as Hst.
  { intros [Ht Hs]. destruct (writer s) as [|va0 n0 m0 c0]; [done|]. destruct H3 as (old & _ & _ & _ & _ & Hz). by apply Hz. }
  destruct o as [r k'| |ch k' c| | |]; destruct m; try done; do 3 eexists; (split; [done|]); intros Hk; destruct (Hst Hk) as [Hsl Hfull].
  1,2: destruct Hc as [(bs & _ & _ & _ & _ & Hr & Hwk) _]; (split_and!; [done|by rewrite Hr, Hfull|]); by eapply awake.
  all: destruct Hc as (_ & Hq & _); by rewrite Hq in Hfull.
Qed.
Lemma write_frees s rest va n o : inv s rest → may_write s va n o → ∃ k' t r, settle va n 0 o = Some (k', t, r) ∧ (t = Idle → r = Some n) ∧
  (stuck (ker s) b (reader s) → state_of k' b ≠ Some SLEEPING).
Proof using All.
  intros Hi Hm. destruct (writer_turns s va n o rest Hi Hm) as (l & own & m & old & new & Hw & Hc). destruct Hi as [_ _ _ H4].
  assert (stuck (ker s) b (reader s) → sleeps (ker s) b (ChPipeRead pi)) as Hst.
  { intros [Ht Hs]. destruct (reader s) as [|va0 n0 m0 c0]; [done|]. destruct H4 as (_ & _ & Hz). by apply Hz. }
  destruct o as [r k'| |ch k' c| | |]; destruct m; try done; do 3 eexists; (split; [done|]).
  1,2: destruct Hc as [-> (_ & _ & _ & Hwk)]; split; [done|]; intros Hk; by eapply awake; [|intros _; apply Hst].
  all: destruct Hc as (w & rest' & _ & _ & (_ & _ & _ & Hwk) & _); split; [done|]; intros Hk; by eapply awake; [|intros _; apply Hst].
Qed.
Lemma not_both s rest : inv s rest → ¬ (stuck (ker s) a (writer s) ∧ stuck (ker s) b (reader s)).
Proof using All.
  intros [_ _ H3 H4] [[Ht1 Hs1] [Ht2 Hs2]]. destruct (writer s), (reader s); try done. destruct H3 as (_ & _ & _ & _ & _ & Hz), H4 as (_ & _ & Hz').
  destruct (Hz Hs1) as [_ Hf], (Hz' Hs2) as [_ He]. by rewrite He in Hf.
Qed.

(** C9: a pipe is a first-in-first-out queue.  However the calls of the two
    processes are interleaved, the bytes that the reads have put into the memory
    of the reader, then those in the ring, then those that a sleeping writer has
    not yet written, are the bytes of all the writes in order. *)
Theorem pipe_fifo k s : at_work k → queue pi k = [] → reachable k s →
  ∃ rest, got s ++ queue pi (ker s) ++ rest = sent s ∧ (writer s = Idle → rest = []).
Proof using All.
  intros Hk Hq Hr. destruct (inv_reachable k s Hk Hq Hr) as (rest & Hi). exists rest. split; [apply Hi|].
  intros Ht. pose proof (inv_writer _ _ Hi) as Hw. by rewrite Ht in Hw.
Qed.

(** C10: no wakeup of a pipe is lost.  The two processes never both sleep in the
    pipe.  Every turn of either one ends in a return or in sleep; a read while
    the writer sleeps returns with all the bytes it can take and leaves the
    writer runnable; a write that returns has written all its bytes, and a write
    while the reader sleeps leaves the reader runnable. *)
Theorem pipe_no_deadlock k s : at_work k → queue pi k = [] → reachable k s →
  ¬ (stuck (ker s) a (writer s) ∧ stuck (ker s) b (reader s)) ∧
  (∀ va n o, may_read s va n o → ∃ k' t r, settle va n 0 o = Some (k', t, r) ∧
    (stuck (ker s) a (writer s) → t = Idle ∧ r = Some (n `min` PIPESIZE) ∧ state_of k' a ≠ Some SLEEPING)) ∧
  (∀ va n o, may_write s va n o → ∃ k' t r, settle va n 0 o = Some (k', t, r) ∧ (t = Idle → r = Some n) ∧
    (stuck (ker s) b (reader s) → state_of k' b ≠ Some SLEEPING)).
Proof using All.
  intros Hk Hq Hr. destruct (inv_reachable k s Hk Hq Hr) as (rest & Hi). split; [by eapply not_both|].
  split; intros va n o Hm; [by eapply read_frees|by eapply write_frees].
Qed.
End system.
