(* ===== verification/ConsSpec.v ===== *)
(** * The line discipline

    What the keys make of the buffer of [kernel/console.c]: the characters of
    finished lines, ready to be read, and those of the line being typed. *)

From S2P Require Import Prelude Riscv Memory CString Kalloc Vm PageTable Mapping UserCopy State Bytes Printf PrintfSpec Sched Bio BioSpec Pipe PipeSpec Console.

(** ** The discipline *)

Definition CONS : nat := 128.
Definition ctrl_d : Z := 4.
(** Finished lines and the line being typed, after the key [c]. *)
Definition press (c : Z) (s : list Z * list Z) : list Z * list Z :=
  let '(p, e) := s in
  if c =? CTRL "P" then (p, e)
  else if c =? CTRL "U" then (p, [])
  else if (c =? CTRL "H") || (c =? 0x7f) then (p, removelast e)
  else if negb (c =? 0) && bool_decide (length p + length e < CONS)%nat then
    let c := if c =? 13 then NEWLINE else c in
    if (c =? NEWLINE) || (c =? ctrl_d) || bool_decide (S (length p + length e) = CONS) then (p ++ e ++ [c], []) else (p, e ++ [c])
  else (p, e).

(** ** The ring *)

(** The indices count modulo 2^32, the ring has 128 places. *)
Record cons_ok (x : conss) (p e : list Z) : Prop := {
  co_len : length (c_buf x) = CONS;
  co_r : 0 ≤ c_r x < 2 ^ 32;
  co_w : c_w x = u32 (c_r x + Z.of_nat (length p));
  co_e : c_e x = u32 (c_r x + Z.of_nat (length p + length e));
  co_fits : (length p + length e ≤ CONS)%nat;
  co_at : ∀ i c, (p ++ e) !! i = Some c → c_buf x !! Z.to_nat ((c_r x + Z.of_nat i) mod INPUT_BUF_SIZE) = Some c;
  co_line : NEWLINE ∉ e;
  co_bytes : Forall (λ c, 0 ≤ c < 256) (p ++ e);
}.

Lemma u32_mod_input a : u32 a mod INPUT_BUF_SIZE = a mod INPUT_BUF_SIZE.
Proof. unfold u32. change INPUT_BUF_SIZE with 128. change (2 ^ 32) with 4294967296. Z.div_mod_to_equations. lia. Qed.
Ltac u32_lia := unfold u32, CONS in *; change (2 ^ 32) with 4294967296 in *; Z.div_mod_to_equations; lia.
Lemma input_ne r i j : (i < CONS)%nat → (j < CONS)%nat → i ≠ j → Z.to_nat ((r + Z.of_nat i) mod INPUT_BUF_SIZE) ≠ Z.to_nat ((r + Z.of_nat j) mod INPUT_BUF_SIZE).
Proof. change INPUT_BUF_SIZE with 128. intros. u32_lia. Qed.

Section ring.
Context (x : conss) (p e : list Z) (Hok : cons_ok x p e).

Lemma cons_waiting : (c_r x =? c_w x) = bool_decide (p = []).
Proof using Hok.
  destruct Hok as [_ Hr Hw _ Hf _ _ _]. rewrite Hw. destruct p as [|c p'].
  - rewrite bool_decide_true by done. apply Z.eqb_eq. cbn. u32_lia.
  - rewrite bool_decide_false by done. apply Z.eqb_neq. cbn [length] in *. u32_lia.
Qed.
Lemma cons_editing : (c_e x =? c_w x) = bool_decide (e = []).
Proof using Hok.
  destruct Hok as [_ Hr Hw He Hf _ _ _]. rewrite Hw, He. destruct e as [|c e'].
  - rewrite bool_decide_true by done. apply Z.eqb_eq. cbn. f_equal. lia.
  - rewrite bool_decide_false by done. apply Z.eqb_neq. cbn [length] in *. u32_lia.
Qed.
Lemma cons_count : u32 (c_e x - c_r x) = Z.of_nat (length p + length e).
Proof using Hok. destruct Hok as [_ Hr _ He Hf _ _ _]. rewrite He. u32_lia. Qed.

Lemma cons_erase e' c : e = e' ++ [c] → cons_at x (c_e x - 1) = c ∧ c ≠ NEWLINE ∧ cons_ok (upd_c_e (λ e, u32 (e - 1)) x) p e'.
Proof using Hok.
  intros ->. destruct Hok as [H1 H2 H3 H4 H5 H6 H7 H8]. rewrite length_app in *. cbn [length] in *. split_and!.
  - unfold cons_at. rewrite u32_mod_input, H4. assert ((u32 (c_r x + Z.of_nat (length p + (length e' + 1))) - 1) mod INPUT_BUF_SIZE = (c_r x + Z.of_nat (length p + length e')) mod INPUT_BUF_SIZE) as ->.
    { change INPUT_BUF_SIZE with 128. u32_lia. }
    rewrite (H6 (length p + length e')%nat c); [done|]. rewrite app_assoc, lookup_app_r, length_app, Nat.sub_diag by (rewrite length_app; done). done.
  - set_solver.
  - split; cbn [c_buf c_r c_w c_e upd_c_e]; [done|done|done|rewrite H4; u32_lia|lia| |set_solver|].
    + intros i d Hi. apply H6. rewrite app_assoc. by apply lookup_app_l_Some.
    + rewrite app_assoc in H8. by apply Forall_app in H8 as [? _].
Qed.

(** A new character, at the end of the line or as the end of it. *)
Lemma cons_push c (commit : bool) : (length p + length e < CONS)%nat → 0 ≤ c < 256 → (commit = false → c ≠ NEWLINE) →
  let x1 := upd_c_e (λ e, u32 (e + 1)) (upd_c_buf (λ b, <[Z.to_nat (c_e x mod INPUT_BUF_SIZE) := c]> b) x) in
  u32 (c_e x1 - c_r x1) = Z.of_nat (S (length p + length e)) ∧
  if commit then cons_ok (upd_c_w (λ _, c_e x1) x1) (p ++ e ++ [c]) [] else cons_ok x1 p (e ++ [c]).
Proof using Hok.
  intros Hlt Hc Hn. destruct Hok as [H1 H2 H3 H4 H5 H6 H7 H8]. intros x1. split; [cbn [c_e c_r upd_c_e upd_c_buf x1]; rewrite H4; u32_lia|].
  assert (∀ i d, (p ++ e ++ [c]) !! i = Some d → c_buf x1 !! Z.to_nat ((c_r x1 + Z.of_nat i) mod INPUT_BUF_SIZE) = Some d) as Hat.
  { intros i d Hi. cbn [c_buf c_r upd_c_e upd_c_buf x1]. rewrite H4, u32_mod_input. rewrite app_assoc in Hi. apply lookup_app_Some in Hi as [Hi|[Hle Hi]].
    - rewrite list_lookup_insert_ne; [by apply H6|]. apply input_ne; [done| |]; apply lookup_lt_Some in Hi; rewrite length_app in Hi; lia.
    - apply list_lookup_singleton_Some in Hi as [Hi ->]. rewrite length_app in *. replace i with (length p + length e)%nat by lia. apply list_lookup_insert_eq.
      rewrite H1. change INPUT_BUF_SIZE with 128. pose proof (Z.mod_pos_bound (c_r x + Z.of_nat (length p + length e)) 128). unfold CONS. lia. }
  assert (Forall (λ c, 0 ≤ c < 256) (p ++ e ++ [c])) as Hby by (rewrite app_assoc; apply Forall_app; split; [done|by apply Forall_singleton]).
  destruct commit; split; cbn [c_buf c_r c_w c_e upd_c_e upd_c_buf upd_c_w x1]; rewrite ?length_insert, ?length_app, ?app_nil_r; cbn [length]; try done; try lia.
  - rewrite H4. u32_lia.
  - rewrite H4. u32_lia.
  - set_solver.
  - rewrite H4. u32_lia.
  - specialize (Hn eq_refl). set_solver.
Qed.

Lemma cons_pop c q : p = c :: q → default 0 (c_buf x !! Z.to_nat (c_r x mod INPUT_BUF_SIZE)) = c ∧ 0 ≤ c < 256 ∧ cons_ok (upd_c_r (λ r, u32 (r + 1)) x) q e.
Proof using Hok.
  intros ->. destruct Hok as [H1 H2 H3 H4 H5 H6 H7 H8]. cbn [length app] in *. apply Forall_cons in H8 as [Hc H8]. split_and!; [|lia|lia|].
  - pose proof (H6 0%nat c eq_refl) as Ha. rewrite Z.add_0_r in Ha. by rewrite Ha.
  - split; cbn [c_buf c_r c_w c_e upd_c_r]; [done|apply u32_bound|rewrite H3; u32_lia|rewrite H4; u32_lia|lia| |done|done].
    intros i d Hi. rewrite <-(H6 (S i) d Hi). do 2 f_equal. change INPUT_BUF_SIZE with 128. u32_lia.
Qed.
(** [cons.r--] after [cons.r++]. *)
Lemma cons_unpop : upd_c_r (λ r, u32 (r - 1)) (upd_c_r (λ r, u32 (r + 1)) x) = x.
Proof using Hok. destruct Hok as [_ Hr _ _ _ _ _ _]. destruct x as [bf r w ee]. unfold upd_c_r. cbn [c_buf c_r c_w c_e] in *. f_equal. u32_lia. Qed.
End ring.

(** ** Keys *)

(** Names of processes are printed by Control-P. *)
Definition names_ok (l : list proc) : Prop := Forall (λ p, - 2 ^ 31 ≤ p_pid p < 2 ^ 31 ∧ Forall is_byte (cstr (p_name p))) l.
(** The wakeup of the readers by an interrupt that found [cur] running. *)
Definition wake_all (cur : option nat) (ch : chan) (l : list proc) : list proc := imap (λ i p, if decide (cur = Some i) then p else wake ch p) l.

Lemma procdump_prints k : names_ok (procs k) → ∃ u, procdump k = Done tt (upd_uart (λ _, u) k).
Proof.
  intros Hn. unfold procdump. assert (∀ fmt args l k1, Forall is_byte (bytes_of fmt) → Forall arg_ok args → render (bytes_of fmt) args = Some l →
    ∃ u, printf fmt args k1 = Done tt (upd_uart (λ _, u) k1)) as Hp.
  { intros fmt args l k1 Hf Ha Hr. destruct (printf_prints _ _ _ Hf Ha Hr k1) as [full E]. unfold printf. rewrite E. by eexists. }
  destruct (Hp (line "") [] [10] k ltac:(apply bytes_of_ok) ltac:(done) eq_refl) as [u0 E0]. rewrite (bind_done _ _ _ _ _ E0). clear E0.
  rewrite (bind_done _ _ _ (procs k) (upd_uart (λ _, u0) k)) by done. revert u0. induction Hn as [|p l [Hpid Hname] Hl IH]; intros u0; [by eexists|].
  cbn [forM]. destruct (decide (p_state p = UNUSED)); [exact (IH u0)|].
  edestruct (Hp "%d %s %s"%string [PInt (p_pid p); PStr (Some (bytes_of (state_name (p_state p)))); PStr (Some (cstr (p_name p)))]) as [u1 E1]; [apply bytes_of_ok| |reflexivity|].
  { repeat constructor; cbn [arg_ok default]; [lia|lia|apply bytes_of_ok|done]. }
  destruct (Hp (line "") [] [10] (upd_uart (λ _, u1) k) ltac:(apply bytes_of_ok) ltac:(done) eq_refl) as [u2 E2].
  destruct (IH u2) as [u3 E3]. exists u3. rewrite <-E3.
  assert ((printf "%d %s %s" [PInt (p_pid p); PStr (Some (bytes_of (state_name (p_state p)))); PStr (Some (cstr (p_name p)))] ;; printf (line "") []) (upd_uart (λ _, u0) k) = Done tt (upd_uart (λ _, u2) k)) as E.
  { rewrite (bind_done _ _ _ _ _ E1). exact E2. }
  rewrite (bind_done _ _ _ _ _ E). done.
Qed.

(** The character goes back on the screen, or the last one is wiped out there. *)
Lemma consputc_wp c k (Q : unit → kernel → Prop) : (∀ u, Q tt (upd_uart (λ _, u) k)) → wp (consputc c) Q k.
Proof.
  intros HQ. unfold consputc. destruct (c =? BACKSPACE); unfold uartputc_sync, wait_thr, write_thr; wp_steps; destruct k; apply HQ.
Qed.
Lemma erase_one_wp k p e c (Q : unit → kernel → Prop) : cons_ok (cons k) p (e ++ [c]) →
  (∀ x u, cons_ok x p e → Q tt (upd_uart (λ _, u) (upd_cons (λ _, x) k))) → wp erase_one Q k.
Proof.
  intros Hok HQ. destruct (cons_erase _ _ _ Hok e c eq_refl) as (_ & _ & Hok'). unfold erase_one. wp_steps. apply consputc_wp. intros u.
  specialize (HQ _ u Hok'). destruct k; exact HQ.
Qed.
(** Control-U wipes out the line that is being typed, and no finished one. *)
Lemma kill_line_wp k p e (Q : unit → kernel → Prop) : cons_ok (cons k) p e →
  (∀ x u, cons_ok x p [] → Q tt (upd_uart (λ _, u) (upd_cons (λ _, x) k))) → wp kill_line Q k.
Proof.
  intros Hok HQ. unfold kill_line. pose proof (co_fits _ _ _ Hok) as Hf. assert (length e < S (Z.to_nat INPUT_BUF_SIZE))%nat as Hlt by (change (Z.to_nat INPUT_BUF_SIZE) with CONS; lia).
  clear Hf. revert Hlt. generalize (S (Z.to_nat INPUT_BUF_SIZE)) as f. intros f Hlt.
  assert (∀ k1, cons_ok (cons k1) p e → (∃ u, k1 = upd_uart (λ _, u) (upd_cons (λ _, cons k1) k)) → wp (loopM f (λ _ : unit,
    x ← gets cons;
    if negb (c_e x =? c_w x) && negb (cons_at x (c_e x - 1) =? NEWLINE) then erase_one ;; mret (inl tt)
    else mret (inr tt)) tt) Q k1) as Hgen.
  2:{ apply Hgen; [done|]. exists (uart k). by destruct k. }
  clear Hok. revert e Hlt. induction f as [|f IH]; intros e Hlt k1 Hok [u Hk]; [lia|]. cbn [loopM]. wp_step. wp_step. wp_step. rewrite (cons_editing _ _ _ Hok).
  destruct e as [|c e'] using rev_ind; [|clear IHe'].
  - rewrite bool_decide_true by done. cbn [negb andb]. wp_steps. rewrite Hk. by apply HQ.
  - rewrite bool_decide_false by (by destruct e'). destruct (cons_erase _ _ _ Hok e' c eq_refl) as (-> & Hc & _). rewrite (proj2 (Z.eqb_neq _ _)) by done. cbn [negb andb].
    wp_step. eapply erase_one_wp; [exact Hok|]. intros x u1 Hx. wp_steps. rewrite length_app in Hlt. cbn in Hlt.
    apply (IH e'); [lia|destruct k1; exact Hx|]. exists u1. rewrite Hk. by destruct k.
Qed.

(** A key: the buffer as the discipline says, and the readers woken when there is more to read. *)
Lemma consoleintr_wp cur c k p e : cons_ok (cons k) p e → names_ok (procs k) → 0 ≤ c < 256 →
  wp (consoleintr cur c) (λ _ k', ∃ x u, cons_ok x (press c (p, e)).1 (press c (p, e)).2 ∧
    k' = upd_uart (λ _, u) (upd_procs (λ _, if decide ((press c (p, e)).1 = p) then procs k else wake_all cur ChConsR (procs k)) (upd_cons (λ _, x) k))) k.
Proof.
  intros Hok Hn Hc. unfold consoleintr, press. wp_step. wp_step.
  assert (∀ x u, upd_uart (λ _, u) (upd_cons (λ _, x) k) = upd_uart (λ _, u) (upd_procs (λ _, procs k) (upd_cons (λ _, x) k))) as Hsame by (intros; by destruct k).
  destruct (c =? CTRL "P") eqn:EP; [|destruct (c =? CTRL "U") eqn:EU; [|destruct ((c =? CTRL "H") || (c =? 0x7f)) eqn:EH]].
  - destruct (procdump_prints k Hn) as [u Hu]. eapply wp_intro; [exact Hu|]. exists (cons k), u. cbn [fst snd]. rewrite decide_True by done. split; [done|]. by destruct k.
  - eapply kill_line_wp; [exact Hok|]. intros x u Hx. exists x, u. cbn [fst snd]. rewrite decide_True by done. by split.
  - rewrite (cons_editing _ _ _ Hok). cbn [fst snd]. rewrite decide_True by done. destruct e as [|d e' _] using rev_ind.
    + rewrite bool_decide_true by done. cbn [negb]. wp_step. exists (cons k), (uart k). split; [done|]. by destruct k.
    + rewrite bool_decide_false by (by destruct e'). cbn [negb]. eapply erase_one_wp; [exact Hok|]. intros x u Hx. exists x, u. rewrite removelast_last. by split.
  - rewrite (cons_count _ _ _ Hok). replace (Z.of_nat (length p + length e) <? INPUT_BUF_SIZE) with (bool_decide (length p + length e < CONS)%nat).
    2:{ change INPUT_BUF_SIZE with (Z.of_nat CONS). case_bool_decide; symmetry; [apply Z.ltb_lt|apply Z.ltb_ge]; lia. }
    destruct (negb (c =? 0) && bool_decide _) eqn:E0.
    2:{ cbn [fst snd]. rewrite decide_True by done. wp_step. exists (cons k), (uart k). split; [done|]. by destruct k. }
    apply andb_prop in E0 as [_ Hlt%bool_decide_eq_true]. set (c' := if c =? 13 then NEWLINE else c). assert (0 ≤ c' < 256) as Hc' by (unfold c'; destruct (c =? 13); [by vm_compute|done]).
    wp_step. apply consputc_wp. intros u. wp_step. wp_step. wp_step. wp_step. rewrite (u8_id c') by done.
    change (cons (upd_cons ?f (upd_uart (λ _, u) k))) with (f (cons k)). cbv beta.
    set (commit := (c' =? NEWLINE) || (c' =? ctrl_d) || bool_decide (S (length p + length e) = CONS)).
    destruct (cons_push _ _ _ Hok c' commit Hlt Hc') as [Hcnt Hok'].
    { unfold commit. intros Hf. intros ->. by rewrite Z.eqb_refl in Hf. }
    rewrite Hcnt. replace (Z.of_nat (S (length p + length e)) =? INPUT_BUF_SIZE) with (bool_decide (S (length p + length e) = CONS)).
    2:{ change INPUT_BUF_SIZE with (Z.of_nat CONS). case_bool_decide; symmetry; [apply Z.eqb_eq|apply Z.eqb_neq]; lia. }
    change (CTRL "D") with ctrl_d. fold commit. destruct commit; cbn [fst snd].
    + rewrite decide_False by (intros Hp; apply (f_equal length) in Hp; rewrite !length_app in Hp; cbn in Hp; lia). unfold wakeup. wp_steps.
      eexists _, u. split; [exact Hok'|]. by destruct k.
    + rewrite decide_True by done. wp_step. eexists _, u. split; [exact Hok'|]. by destruct k.
Qed.
