(* ===== verification/ConsThm.v ===== *)
(** * Typing and reading

    A process reads lines from the console with [consoleread] while keys arrive
    as interrupts: what each read delivers is what the line discipline of
    [ConsSpec] says, and no wakeup is lost. *)

From S2P Require Import Prelude Riscv Memory CString Kalloc Vm PageTable Mapping UserCopy State Bytes Printf PrintfSpec Sched Bio BioSpec Pipe PipeSpec PipeThm Console ConsSpec.

(** ** Reading *)

(** What a read of [n] more bytes takes from the finished lines [p]: the bytes it
    returns with and what is left, or the bytes it has taken when it must wait.
    [first] when the call has delivered nothing yet. *)
Fixpoint eat (n : nat) (first : bool) (p : list Z) : (list Z * list Z) + list Z :=
  match n, p with
  | O, _ => inl ([], p)
  | S n, [] => inr []
  | S n, c :: q =>
      if c =? ctrl_d then inl ([], if first then q else p)
      else if c =? NEWLINE then inl ([c], q)
      else match eat n false q with inl (bs, r) => inl (c :: bs, r) | inr bs => inr (c :: bs) end
  end.

Section reader.
Context {I : Image} `{SleepFuel} (b : nat) (root : Z).

Section owned.
Context (l : list Z) (own : gmap Z role).

Record desk (k : kernel) : Prop := {
  dk_pt : pt_inv (mach k) l own;
  dk_proc : proc_ok k b root;
  dk_user : user_inv (ram (mach k)) own root;
  dk_root : is_root own root;
  dk_names : names_ok (procs k);
}.

(** Since [k], [new] has arrived at [va], and [p] and [e] are in the buffer of the console. *)
Record advanced (k k' : kernel) (va : Z) (new p e : list Z) : Prop := {
  ad_desk : desk k';
  ad_cons : cons_ok (cons k') p e;
  ad_recv : received l own root k k' va new;
}.

(** A process that changes its state and channel only. *)
Definition rests (f : proc → proc) : Prop := ∀ p, p_pagetable (f p) = p_pagetable p ∧ p_killed (f p) = p_killed p ∧ p_pid (f p) = p_pid p ∧ p_name (f p) = p_name p.
Lemma desk_proc k f i : rests f → desk k → desk (upd_procs (alter f i) k).
Proof using Type.
  intros Hf [H1 (p & Hp & Hpt & Hk) H3 H4 H5]. split; [done| |done|done|].
  - destruct (decide (i = b)) as [->|Hne]; [|exists p; cbn; by rewrite list_lookup_alter_ne]. exists (f p). cbn. rewrite list_lookup_alter_eq, Hp. by destruct (Hf p) as (-> & -> & _).
  - unfold names_ok in *. cbn. apply Forall_alter; [done|]. intros q Hq [Hpid Hn]. destruct (Hf q) as (_ & _ & -> & ->). done.
Qed.
Lemma set_proc_eq k f i : is_Some (procs k !! i) → set_proc i f k = Done tt (upd_procs (alter f i) k).
Proof using Type.
  intros [p Hp]. assert (alter f i (procs k) = <[i := f p]> (procs k)) as E.
  { apply list_eq. intros j. destruct (decide (i = j)) as [<-|Hne]; [rewrite list_lookup_alter_eq, list_lookup_insert_eq, Hp by (by eapply lookup_lt_Some); done|].
    by rewrite list_lookup_alter_ne, list_lookup_insert_ne. }
  unfold set_proc, set_idx. rewrite (bind_done _ _ _ (procs k) k) by done. rewrite Hp, <-E. done.
Qed.

Definition cons_wait_body (_ : unit) : M kernel (unit + bool) :=
  c ← gets cons;
  if c_r c =? c_w c then
    kd ← killed b;
    if (kd : bool) then mret (inr false) else sleep b ChConsR ;; mret (inl tt)
  else mret (inr true).

Lemma wait_ready k c p e : cons_ok (cons k) (c :: p) e → cons_wait_body tt k = Done (inr true) k.
Proof using Type. intros Hok. unfold cons_wait_body. rewrite (bind_done _ _ _ (cons k) k) by done. rewrite (cons_waiting _ _ _ Hok), bool_decide_false by done. done. Qed.
Lemma wait_empty k e : desk k → cons_ok (cons k) [] e → ∃ k', desk k' ∧ cons k' = cons k ∧ mach k' = mach k ∧ sleeps k' b ChConsR ∧
  cons_wait_body tt k = Sleep ChConsR k' (λ k2, obind (λ _, mret (inl tt)) (set_proc b (upd_p_chan (λ _, ChNull)) k2)).
Proof using Type.
  intros Hd Hok. pose proof (dk_proc _ Hd) as Hpo. pose proof Hpo as (p & Hp & _). set (f := λ p, upd_p_state (λ _, SLEEPING) (upd_p_chan (λ _, ChConsR) p)).
  exists (upd_procs (alter f b) k). split_and!; [by apply desk_proc|done|done| |].
  - exists (f p). cbn. by rewrite list_lookup_alter_eq, Hp.
  - unfold cons_wait_body. rewrite (bind_done _ _ _ (cons k) k) by done. rewrite (cons_waiting _ _ _ Hok), bool_decide_true by done.
    rewrite (bind_done _ _ _ _ _ (killed_eq k b root Hpo)). apply bind_sleep. unfold sleep. by rewrite (bind_done _ _ _ _ _ (set_proc_eq k f b (ex_intro _ p Hp))).
Qed.

(** The rest of an iteration, after the wait. *)
Definition char_rest (target : Z) (d : dst) (n : Z) (ok : bool) : M kernel (dst * Z + Z) :=
  if negb ok then mret (inr (-1))
  else
    x ← gets cons;
    let c := default 0 (c_buf x !! Z.to_nat (c_r x mod INPUT_BUF_SIZE)) in
    modify (upd_cons (upd_c_r (λ r, u32 (r + 1)))) ;;
    if c =? CTRL "D" then
      (if n <? target then modify (upd_cons (upd_c_r (λ r, u32 (r - 1)))) else mret tt) ;;
      mret (inr (target - n))
    else
      r ← either_copyout b d [c];
      if r =? -1 then mret (inr (target - n))
      else if c =? NEWLINE then mret (inr (target - (n - 1)))
      else mret (inl (dst_add d 1, n - 1)).

Lemma desk_cons k f : desk k → desk (upd_cons f k).
Proof using Type. by intros []; split. Qed.
Lemma eof_eq k target d n p e : desk k → cons_ok (cons k) (ctrl_d :: p) e → ∃ k', char_rest target d n true k = Done (inr (target - n)) k' ∧ desk k' ∧ mach k' = mach k ∧
  cons_ok (cons k') (if n <? target then ctrl_d :: p else p) e.
Proof using Type.
  intros Hd Hok. destruct (cons_pop _ _ _ Hok ctrl_d p eq_refl) as (Hc & _ & Hok'). unfold char_rest. cbn [negb]. rewrite (bind_done _ _ _ (cons k) k) by done. cbv zeta. rewrite Hc.
  erewrite bind_done; [|reflexivity]. change (ctrl_d =? CTRL "D") with true. cbv iota. destruct (n <? target).
  - erewrite bind_done; [|reflexivity]. eexists. split; [done|]. split; [by do 2 apply desk_cons|]. split; [done|]. cbn [cons upd_cons]. by rewrite (cons_unpop _ _ _ Hok).
  - erewrite bind_done; [|reflexivity]. eexists. split; [done|]. split; [by apply desk_cons|]. done.
Qed.
Lemma char_eq k target va n c p e : desk k → cons_ok (cons k) (c :: p) e → c ≠ ctrl_d → 0 ≤ va → user_writable (ram (mach k)) root va = true →
  ∃ k', char_rest target (DUser va) n true k = Done (if c =? NEWLINE then inr (target - (n - 1)) else inl (DUser (va + 1), n - 1)) k' ∧ advanced k k' va [c] p e.
Proof using Type.
  intros Hd Hok Hne Hva Hwr. pose proof Hd as [Hpt (q & Hq & Hqt & _) Hu Hr Hn]. destruct (cons_pop _ _ _ Hok c p eq_refl) as (Hc & Hby & Hok').
  assert (va < MAXVA) as Hm by (eapply readable_max; unfold user_writable in Hwr; by bsimpl).
  assert (wp (char_rest target (DUser va) n true) (λ r k', r = (if c =? NEWLINE then inr (target - (n - 1)) else inl (DUser (va + 1), n - 1)) ∧ advanced k k' va [c] p e) k) as (r & k' & E & -> & Ha)%wp_elim; [|by exists k'].
  unfold char_rest. cbn [negb]. wp_step. wp_step. cbv zeta. rewrite Hc. wp_step. wp_step. rewrite (proj2 (Z.eqb_neq c _)) by done. set (k1 := upd_cons _ k).
  wp_step. cbn [either_copyout]. wp_step. eapply wp_at_idx; [exact Hq|]. rewrite Hqt. change (Z.of_nat (length [c])) with 1. apply (copyout_byte_wp l own root k1); [done..|].
  intros s' Hrec. change (0 =? -1) with false. cbv iota. cbn [dst_add]. rewrite u64_id by (rewrite MAXVA_val in Hm; lia).
  destruct (c =? NEWLINE); wp_step; (split; [done|]).
  all: destruct Hrec as [F U]; split; [|done|by split]; split; [apply F|exact (dk_proc _ Hd)|eapply user_inv_tables; [exact Hpt|apply F|done|done]|done|done].
Qed.
End owned.

(** A call that still wants [rem] of [target] bytes, at [va], and may be woken up
    [m] times more: every time it runs it eats what there is, and it sleeps only
    when there is nothing more to eat. *)
Fixpoint cons_call (l : list Z) (own : gmap Z role) (m target rem : nat) (va : Z) (p e : list Z) (k : kernel) (o : outcome kernel Z) : Prop :=
  match o with
  | Done r k' => ∃ bs q, eat rem (bool_decide (rem = target)) p = inl (bs, q) ∧ r = Z.of_nat (target - rem + length bs) ∧ advanced l own k k' va bs q e
  | Sleep ch k' c => ∃ bs, eat rem (bool_decide (rem = target)) p = inr bs ∧ advanced l own k k' va bs [] e ∧ sleeps k' b ChConsR ∧
      match m with
      | O => True
      | S m => ∀ l own k2 p2 e2, desk l own k2 → cons_ok (cons k2) p2 e2 → writable k2 root (va + Z.of_nat (length bs)) (Z.of_nat (rem - length bs)) →
          cons_call l own m target (rem - length bs) (va + Z.of_nat (length bs)) p2 e2 k2 (c k2)
      end
  | _ => False
  end.

(** One character goes to the process, the call goes on. *)
Lemma call_char l own m target rem va c p e k k1 o : desk l own k → advanced l own k k1 va [c] p e → c ≠ ctrl_d → c ≠ NEWLINE → (S rem ≤ target)%nat →
  cons_call l own m target rem (va + 1) p e k1 o → cons_call l own m target (S rem) va (c :: p) e k o.
Proof using Type.
  intros Hd Ha Hc1 Hc2 Hle. assert (∀ k2 bs q e', advanced l own k1 k2 (va + 1) bs q e' → advanced l own k k2 va (c :: bs) q e') as Hadv.
  { intros k2 bs q e' [H1 H2 H3]. split; [done|done|]. change (c :: bs) with ([c] ++ bs). eapply received_app; [apply Hd|apply Ha|done]. }
  assert (∀ fst, eat (S rem) fst (c :: p) = match eat rem (bool_decide (rem = target)) p with inl (bs, r) => inl (c :: bs, r) | inr bs => inr (c :: bs) end) as He.
  { intros fst. cbn [eat]. rewrite !(proj2 (Z.eqb_neq _ _)), bool_decide_false by (done || lia). done. }
  destruct m, o; cbn [cons_call]; try done; rewrite He; clear He.
  1,3: intros (bs & q & -> & -> & Hx); exists (c :: bs), q; split; [done|]; split; [cbn [length]; f_equal; lia|by apply Hadv].
  all: intros (bs & -> & Hx & Hsl & Hres); exists (c :: bs); (split; [done|]); (split; [by apply Hadv|]); (split; [done|]).
  { done. }
  cbn [length]. replace (va + Z.of_nat (S (length bs))) with (va + 1 + Z.of_nat (length bs)) by lia. exact Hres.
Qed.

Lemma call_from l own m target rem va p e k k1 o : mach k1 = mach k → cons_call l own m target rem va p e k1 o → cons_call l own m target rem va p e k o.
Proof using Type.
  intros Em. assert (∀ k2 bs q e', advanced l own k1 k2 va bs q e' → advanced l own k k2 va bs q e') as Hadv by (intros k2 bs q e' [H1 H2 H3]; split; [done|done|]; by eapply received_from).
  destruct m, o; cbn [cons_call]; try done.
  1,3: intros (bs & q & He & Hr & Ha); exists bs, q; split; [done|]; split; [done|by apply Hadv].
  all: intros (bs & He & Ha & Hrest); exists bs; split; [done|]; split; [by apply Hadv|done].
Qed.
Definition go_on (target : Z) (f : nat) (r : dst * Z + Z) : M kernel Z :=
  match r with inl y => loopM f (consoleread_body b target) y | inr z => mret z end.
Lemma call_zero l own m target va p e k fo : desk l own k → cons_ok (cons k) p e →
  cons_call l own m target 0 va p e k (loopM (S fo) (consoleread_body b (Z.of_nat target)) (DUser va, Z.of_nat 0) k).
Proof using Type.
  intros Hd Hok. rewrite (loop_eq _ _ _ _ (inr (Z.of_nat target)) k); [|unfold consoleread_body; change (Z.of_nat 0 >? 0) with false; cbv iota; by rewrite Z.sub_0_r].
  destruct m; cbn [cons_call]; exists [], p; (split; [done|]); (split; [cbn [length]; lia|]); (split; [done|done|]); apply received_none, Hd.
Qed.
Lemma loop_wait target fo va n k : (0 < n)%nat →
  loopM (S fo) (consoleread_body b target) (DUser va, Z.of_nat n) k = obind (go_on target fo) (obind (char_rest target (DUser va) (Z.of_nat n)) (loopM (S sleep_fuel) cons_wait_body tt k)).
Proof using Type.
  intros Hn. assert (consoleread_body b target (DUser va, Z.of_nat n) k = obind (char_rest target (DUser va) (Z.of_nat n)) (loopM (S sleep_fuel) cons_wait_body tt k)) as <-; [|done].
  unfold consoleread_body. by rewrite (proj2 (Z.gtb_lt _ _)) by lia.
Qed.
Lemma call_turn m : ∀ l own rem target fo f va p e k, desk l own k → cons_ok (cons k) p e → writable k root va (Z.of_nat rem) →
  (0 < rem ≤ target)%nat → (rem ≤ fo)%nat → (m < f ≤ S sleep_fuel)%nat →
  cons_call l own m target rem va p e k (obind (go_on (Z.of_nat target) fo) (obind (char_rest (Z.of_nat target) (DUser va) (Z.of_nat rem)) (loopM f cons_wait_body tt k))).
Proof using Type.
  induction m as [m IHm] using lt_wf_ind. intros l own rem. induction rem as [|rem IHr]; intros target fo f va p e k Hd Hok Hwr Hrem Hfo Hf; [lia|].
  destruct f as [|f]; [lia|]. destruct p as [|c p].
  - destruct (wait_empty l own k e Hd Hok) as (k' & Hd' & Hc' & Hm' & Hsl & E). cbn [loopM]. rewrite (bind_sleep _ _ _ _ _ _ E). cbn [obind].
    assert (advanced l own k k' va [] [] e) as Ha by (split; [done|by rewrite Hc'|]; apply (received_from l own root k k'); [done|]; apply received_none, Hd').
    destruct m as [|m]; cbn [cons_call]; exists []; (split; [done|]); (split; [done|]); (split; [done|]); [done|].
    intros l2 own2 k2 p2 e2 Hd2 Hok2 Hwr2. cbn [length] in *. rewrite Z.add_0_r, Nat.sub_0_r in *. rewrite set_proc_eq by (destruct (dk_proc _ _ _ Hd2) as (q & Hq & _); by eexists). cbn [obind].
    set (k3 := upd_procs _ k2). assert (desk l2 own2 k3) as Hd3 by (by apply desk_proc). apply (call_from l2 own2 m target (S rem) va p2 e2 k2 k3); [done|].
    refine (IHm m _ l2 own2 (S rem) target fo f va p2 e2 k3 Hd3 Hok2 Hwr2 _ _ _); lia.
  - rewrite (loop_eq _ _ _ _ _ _ (wait_ready k c p e Hok)). cbn [obind]. destruct (decide (c = ctrl_d)) as [->|Hne].
    + destruct (eof_eq l own k (Z.of_nat target) (DUser va) (Z.of_nat (S rem)) p e Hd Hok) as (k' & E & Hd' & Hm' & Hok'). rewrite E. cbn [obind go_on].
      assert (advanced l own k k' va [] (if bool_decide (S rem = target) then p else ctrl_d :: p) e) as Ha.
      { split; [done| |apply (received_from l own root k k'); [done|]; apply received_none, Hd']. case_bool_decide.
        - by rewrite (proj2 (Z.ltb_ge _ _)) in Hok' by lia.
        - by rewrite (proj2 (Z.ltb_lt _ _)) in Hok' by lia. }
      destruct m; cbn [cons_call mret M_ret]; eexists [], _; (split; [cbn [eat]; by rewrite Z.eqb_refl|]); (split; [cbn [length]; lia|exact Ha]).
    + pose proof Hwr as (Hva & _ & Hw). destruct (char_eq l own k (Z.of_nat target) va (Z.of_nat (S rem)) c p e Hd Hok Hne Hva) as (k' & E & Ha); [apply Hw; lia|]. rewrite E. cbn [obind].
      destruct (c =? NEWLINE) eqn:En.
      * cbn [go_on]. destruct m; cbn [cons_call mret M_ret]; exists [c], p; (split; [cbn [eat]; by rewrite (proj2 (Z.eqb_neq c _)), En by done|]); (split; [cbn [length]; lia|exact Ha]).
      * cbn [go_on]. apply Z.eqb_neq in En. apply (call_char l own m target rem va c p e k k'); [done|done|done|done|lia|]. destruct fo as [|fo]; [lia|]. destruct rem as [|rem].
        -- apply call_zero; [apply Ha|apply Ha].
        -- replace (Z.of_nat (S (S rem)) - 1) with (Z.of_nat (S rem)) by lia. rewrite loop_wait by lia.
           apply IHr; [apply Ha|apply Ha| |lia|lia|lia]. eapply received_writable; [apply Hd|apply Hd|apply Ha|]. destruct Hwr as (_ & _ & Hw'). split_and!; [lia|lia|]. intros v Hv. apply Hw'. lia.
Qed.

(** The system call. *)
Lemma consoleread_call l own k p e va n : desk l own k → cons_ok (cons k) p e → writable k root va (Z.of_nat n) →
  cons_call l own sleep_fuel n n va p e k (consoleread b (DUser va) (Z.of_nat n) k).
Proof using Type.
  intros Hd Hok Hwr. unfold consoleread. rewrite Nat2Z.id. destruct n as [|n]; [by apply call_zero|]. rewrite loop_wait by lia. apply call_turn; [done|done|done|lia|lia|lia].
Qed.
End reader.

(** ** Keys and reads in any order *)

Inductive event := Key (c : Z) | Read (n : nat) | Resume | Tau.

(** The console as its users see it: finished lines, the line being typed, the
    read in progress with the bytes it has already got, and what the reads returned. *)
Record screen := Screen { s_lines : list Z; s_edit : list Z; s_call : option (nat * list Z); s_reads : list (list Z) }.
Definition s_turn (a : screen) : screen :=
  match s_call a with
  | None => a
  | Some (n, got) =>
      match eat (n - length got) (bool_decide (got = [])) (s_lines a) with
      | inl (bs, q) => Screen q (s_edit a) None (s_reads a ++ [got ++ bs])
      | inr bs => Screen [] (s_edit a) (Some (n, got ++ bs)) (s_reads a)
      end
  end.
Definition s_step (a : screen) (ev : event) : screen :=
  match ev with
  | Key c => let '(p, e) := press c (s_lines a, s_edit a) in Screen p e (s_call a) (s_reads a)
  | Read n => s_turn (Screen (s_lines a) (s_edit a) (Some (n, [])) (s_reads a))
  | Resume => s_turn a
  | Tau => a
  end.

Record csys := Csys { c_ker : kernel; c_reader : thread; c_reads : list (list Z) }.

Section system.
Context {I : Image} `{SleepFuel} (b : nat) (root : Z).

(** What a call that returned [r] has put at [va]. *)
Definition returned (k : kernel) (va : Z) (r : option Z) : list (list Z) := match r with Some r => [bytes_at k root va r] | None => [] end.

(** Anything else leaves the console and the memory of the reader alone. *)
Record cother (s : csys) (k' : kernel) : Prop := {
  ct_desk : ∃ l own, desk b root l own k';
  ct_cons : cons k' = cons (c_ker s);
  ct_reader : undisturbed (c_ker s) k' b (c_reader s);
  ct_buffer : match c_reader s with Idle => True | Blocked va n _ _ => writable k' root va n ∧ ∀ v, va ≤ v < va + n → user_load (ram (mach k')) root v = user_load (ram (mach (c_ker s))) root v end;
}.

Inductive cstep : csys → event → csys → Prop :=
| c_key k rt out cur c k' : 0 ≤ c < 256 → (state_of k b = Some SLEEPING → cur ≠ Some b) → consoleintr cur c k = Done tt k' →
    cstep (Csys k rt out) (Key c) (Csys k' rt out)
| c_call k out va n k' t r : writable k root va (Z.of_nat n) → settle va (Z.of_nat n) sleep_fuel (consoleread b (DUser va) (Z.of_nat n) k) = Some (k', t, r) →
    cstep (Csys k Idle out) (Read n) (Csys k' t (out ++ returned k' va r))
| c_run k out va n m c k' t r : state_of k b ≠ Some SLEEPING → settle va n m (c k) = Some (k', t, r) →
    cstep (Csys k (Blocked va n (S m) c) out) Resume (Csys k' t (out ++ returned k' va r))
| c_other s k' : cother s k' → cstep s Tau (Csys k' (c_reader s) (c_reads s)).

Inductive csteps (k : kernel) : list event → csys → Prop :=
| cs_nil : csteps k [] (Csys k Idle [])
| cs_snoc evs s ev s' : csteps k evs s → cstep s ev s' → csteps k (evs ++ [ev]) s'.

Definition quiet (k : kernel) : Prop := (∃ l own, desk b root l own k) ∧ cons_ok (cons k) [] [].
Definition shows (evs : list event) : screen := foldl s_step (Screen [] [] None []) evs.

(** ** The invariant *)

Definition call_ok (k : kernel) (p : list Z) (t : thread) (c : option (nat * list Z)) : Prop :=
  match t with
  | Idle => c = None
  | Blocked va n m f => ∃ N got, c = Some (N, got) ∧ n = Z.of_nat N ∧ (length got < N)%nat ∧ writable k root va n ∧
      user_bytes (ram (mach k)) root va (length got) = got ∧
      (∀ m' l own k2 p2 e2, m = S m' → desk b root l own k2 → cons_ok (cons k2) p2 e2 → writable k2 root va n →
        cons_call b root l own m' N (N - length got) (va + Z.of_nat (length got)) p2 e2 k2 (f k2)) ∧
      (state_of k b = Some SLEEPING → sleeps k b ChConsR ∧ p = [])
  end.
Record cinv (s : csys) (a : screen) : Prop := {
  ci_desk : ∃ l own, desk b root l own (c_ker s);
  ci_cons : cons_ok (cons (c_ker s)) (s_lines a) (s_edit a);
  ci_reads : c_reads s = s_reads a;
  ci_call : call_ok (c_ker s) (s_lines a) (c_reader s) (s_call a);
}.

Lemma eat_length n first p : match eat n first p with inl (bs, _) => (length bs ≤ n)%nat | inr bs => (length bs < n)%nat end.
Proof using Type.
  revert first p. induction n as [|n IH]; intros first [|c p]; cbn; [lia..|]. destruct (c =? ctrl_d); [cbn; lia|]. destruct (c =? NEWLINE); [cbn; lia|].
  specialize (IH false p). destruct (eat n false p) as [[bs q]|bs]; cbn; lia.
Qed.
(** What came before and what came now. *)
Lemma received_both l own k k' va n got bs : desk b root l own k → received l own root k k' (va + Z.of_nat (length got)) bs → writable k root va n →
  Z.of_nat (length got + length bs) ≤ n → user_bytes (ram (mach k)) root va (length got) = got → user_bytes (ram (mach k')) root va (length (got ++ bs)) = got ++ bs.
Proof using Type.
  intros Hd Hrec (H1 & H2 & H3) Hn Hgot. apply list_eq. intros i. unfold user_bytes in *. rewrite list_lookup_fmap. destruct (decide (i < length (got ++ bs))%nat) as [Hi|Hi].
  2:{ rewrite lookup_seq_ge by lia. symmetry. apply lookup_ge_None_2. lia. }
  rewrite lookup_seq_lt by done. cbn. rewrite length_app in Hi. rewrite (received_load l own root k k' (va + Z.of_nat (length got)) bs); [|apply Hd|apply Hd|done|lia|apply H3; lia].
  case_decide as Hin.
  - rewrite lookup_app_r by lia. replace (Z.to_nat (va + Z.of_nat i - (va + Z.of_nat (length got)))) with (i - length got)%nat by lia.
    destruct (lookup_lt_is_Some_2 bs (i - length got)) as [x ->]; [lia|done].
  - assert (i < length got)%nat as Hlt by lia. rewrite lookup_app_l by done. pose proof (f_equal (.!! i) Hgot) as E. cbv beta in E. rewrite list_lookup_fmap, lookup_seq_lt in E by done. exact E.
Qed.

(** The reader runs. *)
Lemma call_settles l own m N got va p e k o k' t r out : desk b root l own k → cons_ok (cons k) p e → writable k root va (Z.of_nat N) → (length got ≤ N)%nat → (got ≠ [] → (length got < N)%nat) →
  user_bytes (ram (mach k)) root va (length got) = got →
  cons_call b root l own m N (N - length got) (va + Z.of_nat (length got)) p e k o → settle va (Z.of_nat N) m o = Some (k', t, r) →
  cinv (Csys k' t (out ++ returned k' va r)) (s_turn (Screen p e (Some (N, got)) out)).
Proof using Type.
  intros Hd Hok Hwr Hle Hlt Hgot Hc Ho. assert (bool_decide ((N - length got)%nat = N) = bool_decide (got = [])) as Hfirst.
  { destruct got as [|g got]; [by rewrite Nat.sub_0_r, !bool_decide_true|]. specialize (Hlt ltac:(done)). cbn [length] in *. rewrite !bool_decide_false by (done || lia). done. }
  pose proof (eat_length (N - length got) (bool_decide (got = [])) p) as Hlen. unfold s_turn. cbn [s_call s_lines s_edit s_reads].
  destruct o as [r0 k1| |ch k1 c| | |]; try done; injection Ho as <- <- <-; (destruct m as [|m]; cbn [cons_call] in Hc); rewrite Hfirst in Hc.
  1,2: destruct Hc as (bs & q & He & -> & [Ha1 Ha2 Ha3]); rewrite He in *; split; cbn [c_ker c_reads c_reader s_lines s_edit s_reads s_call returned call_ok]; [by exists l, own|done| |done].
  1,2: do 2 f_equal; unfold bytes_at; rewrite Nat2Z.id, <-(received_both l own k k1 va (Z.of_nat N) got bs) by (done || lia); do 2 f_equal; rewrite length_app; lia.
  all: destruct Hc as (bs & He & [Ha1 Ha2 Ha3] & Hsl & Hc); rewrite He in *; split; cbn [c_ker c_reads c_reader s_lines s_edit s_reads s_call returned call_ok]; [by exists l, own|done|by rewrite app_nil_r|].
  all: exists N, (got ++ bs); rewrite length_app.
  all: split; [done|]; split; [done|]; split; [lia|]; split; [by eapply received_writable; [apply Hd|apply Hd|exact Ha3|]|].
  all: split; [rewrite <-length_app; by eapply received_both; [exact Hd|exact Ha3|exact Hwr|lia|]|]; split; [|by intros _].
  { by intros m'. }
  intros m' l2 own2 k2 p2 e2 [= <-] Hd2 Hok2 Hwr2. rewrite Nat2Z.inj_add, Z.add_assoc, Nat.sub_add_distr. apply Hc; [done|done|].
  destruct Hwr2 as (W1 & W2 & W3). split_and!; [lia|lia|]. intros v Hv. apply W3. lia.
Qed.

Lemma wake_fields ch p : p_pagetable (wake ch p) = p_pagetable p ∧ p_killed (wake ch p) = p_killed p ∧ p_pid (wake ch p) = p_pid p ∧ p_name (wake ch p) = p_name p.
Proof using Type. unfold wake. by case_decide. Qed.
(** A wakeup from an interrupt. *)
Lemma desk_wake l own k cur ch x u : desk b root l own k → desk b root l own (upd_uart (λ _, u) (upd_procs (λ _, wake_all cur ch (procs k)) (upd_cons (λ _, x) k))).
Proof using Type.
  intros [H1 (p & Hp & Hpt & Hk) H3 H4 H5]. split; [done| |done|done|]; unfold proc_ok; cbn [procs upd_procs upd_cons upd_uart]; unfold wake_all.
  - rewrite list_lookup_imap, Hp. cbn. eexists. split; [done|]. case_decide; [done|]. by destruct (wake_fields ch p) as (-> & -> & _).
  - apply Forall_lookup. intros i q. rewrite list_lookup_imap. intros (p0 & Hp0 & ->)%fmap_Some. pose proof (proj1 (Forall_lookup _ _) H5 i p0 Hp0) as Hok. case_decide; [done|].
    by destruct (wake_fields ch p0) as (_ & _ & -> & ->).
Qed.
Lemma key_ok s a cur c k' : cinv s a → 0 ≤ c < 256 → (state_of (c_ker s) b = Some SLEEPING → cur ≠ Some b) → consoleintr cur c (c_ker s) = Done tt k' →
  cinv (Csys k' (c_reader s) (c_reads s)) (s_step a (Key c)) ∧
  (s_lines (s_step a (Key c)) ≠ s_lines a → c_reader s ≠ Idle → state_of k' b ≠ Some SLEEPING).
Proof using Type.
  intros [(l & own & Hd) Hok Hrd Hcl] Hc Hcur Hk. pose proof (consoleintr_wp cur c _ _ _ Hok (dk_names _ _ _ _ _ Hd) Hc) as Hwp. cbn [s_step].
  destruct (press c (s_lines a, s_edit a)) as [p e]. cbn [fst snd s_lines s_edit s_call s_reads] in *. apply wp_elim in Hwp as (r & k0 & E & x & u & Hx & ->). rewrite Hk in E. injection E as <- ->.
  set (k := c_ker s) in *. destruct (decide (p = s_lines a)) as [->|Hne].
  - split; [|done]. split; cbn [c_ker c_reads c_reader s_lines s_edit s_reads s_call]; [exists l, own; destruct Hd as [A B C D E]; split; [exact A|exact B|exact C|exact D|exact E]|done|done|]. exact Hcl.
  - assert (c_reader s ≠ Idle → state_of (upd_uart (λ _, u) (upd_procs (λ _, wake_all cur ChConsR (procs k)) (upd_cons (λ _, x) k))) b ≠ Some SLEEPING) as Hwk.
    { intros Hr Hs. destruct (dk_proc _ _ _ _ _ Hd) as (q & Hq & _). unfold state_of in Hs. cbn [procs upd_procs upd_cons upd_uart] in Hs. unfold wake_all in Hs. rewrite list_lookup_imap, Hq in Hs. cbn in Hs.
      assert (p_state q = SLEEPING) as Hqs by (case_decide; [by injection Hs|]; unfold wake in Hs; case_decide; [done|by injection Hs]).
      assert (state_of k b = Some SLEEPING) as Hsk by (unfold state_of; rewrite Hq; cbn; by rewrite Hqs). rewrite decide_False in Hs by (by apply Hcur).
      destruct (c_reader s) as [|va n m f]; [done|]. destruct Hcl as (N & got & _ & _ & _ & _ & _ & _ & Hz). destruct (Hz Hsk) as [(q' & Hq' & _ & Hch) _].
      rewrite Hq in Hq'. injection Hq' as <-. unfold wake in Hs. by rewrite decide_True in Hs. }
    split; [|done]. split; cbn [c_ker c_reads c_reader s_lines s_edit s_reads s_call]; [exists l, own; by apply desk_wake|done|done|].
    destruct (c_reader s) as [|va n m f]; [exact Hcl|]. destruct Hcl as (N & got & H1 & H2 & H3 & H4 & H5 & H6 & H7). exists N, got.
    split; [done|]. split; [done|]. split; [done|]. split; [exact H4|]. split; [exact H5|]. split; [done|]. intros Hs. by destruct (Hwk ltac:(done)).
Qed.

Lemma other_ok s a k' : cinv s a → cother s k' → cinv (Csys k' (c_reader s) (c_reads s)) a.
Proof using Type.
  intros [Hd Hok Hrd Hcl] [O1 O2 O3 O4]. split; cbn [c_ker c_reads c_reader]; [done|by rewrite O2|done|]. destruct (c_reader s) as [|va n m f]; [done|].
  destruct Hcl as (N & got & H1 & H2 & H3 & H4 & H5 & H6 & H7). destruct O4 as [O4 O5]. exists N, got. split; [done|]. split; [done|]. split; [done|]. split; [done|]. split.
  { rewrite <-H5 at 2. unfold user_bytes. apply list_fmap_ext. intros i j [-> Hj]%lookup_seq. cbn. apply O5. lia. }
  split; [done|]. intros Hs. unfold state_of in Hs. destruct (procs k' !! b) as [p'|] eqn:Ep'; [|done]. injection Hs as Hs. destruct (O3 p' Ep' Hs) as (p & Hp & Hp1 & Hp2).
  destruct H7 as [(p0 & Hp0 & _ & Hch) Hl]; [unfold state_of; rewrite Hp; cbn; by rewrite Hp1|]. split; [|done]. exists p'. rewrite Hp in Hp0. injection Hp0 as <-. split_and!; [done|done|congruence].
Qed.

Lemma cinv_step s a ev s' : cinv s a → cstep s ev s' → cinv s' (s_step a ev).
Proof using Type.
  intros Hi Hst. pose proof Hi as [(l & own & Hd) Hok Hrd Hcl]. destruct Hst as [k rt out cur c k' Hc Hcur Hk|k out va n k' t r Hwr Ho|k out va n m c k' t r Hs Ho|s k' Hoth]; cbn [c_ker c_reads c_reader] in *.
  - by apply (key_ok (Csys k rt out) a cur c k').
  - subst out. cbn [s_step]. apply (call_settles l own sleep_fuel n [] va (s_lines a) (s_edit a) k _ k' t r (s_reads a)) in Ho; [done|done|done|done|cbn; lia|done|done|].
    cbn [length]. rewrite Nat.sub_0_r, Z.add_0_r. by apply consoleread_call.
  - subst out. destruct Hcl as (N & got & Ha & -> & Hlt & Hwr & Hgot & Hrun & _). cbn [s_step]. destruct a as [p e ca rd]. cbn [s_lines s_edit s_call s_reads] in *. subst ca.
    apply (call_settles l own m N got va p e k _ k' t r rd) in Ho; [done|done|done|done|lia|done|done|]. by apply Hrun.
  - by apply other_ok.
Qed.
Lemma cinv_steps k evs s : quiet k → csteps k evs s → cinv s (shows evs).
Proof using Type.
  intros [Hd Hok] Hst. induction Hst as [|evs s ev s' Hst IH Hs]; [by split|]. unfold shows in *. rewrite foldl_app. by eapply cinv_step.
Qed.

(** C15: the console edits lines.  Keys come in as interrupts and a process reads,
    sleeping and waking up, in any order: the process receives in its memory what
    the line discipline says.  Erased characters are never delivered, a line not
    before it is finished, a read ends after a newline, at a Control-D or with the
    bytes it asked for, and nothing is lost, doubled or reordered. *)
Theorem console_lines k evs s : quiet k → csteps k evs s →
  c_reads s = s_reads (shows evs) ∧ cons_ok (cons (c_ker s)) (s_lines (shows evs)) (s_edit (shows evs)) ∧
  (c_reader s = Idle ↔ s_call (shows evs) = None).
Proof using Type.
  intros Hk Hst. destruct (cinv_steps k evs s Hk Hst) as [_ H2 H3 H4]. split; [done|]. split; [done|]. destruct (c_reader s) as [|va n m f]; [done|].
  destruct H4 as (N & got & Hc & _). rewrite Hc. done.
Qed.

(** C16: the console never stops.  No key panics the kernel, whichever process it
    interrupts; every turn of a reader ends in a return or in sleep; it sleeps only
    while there is no finished line, and the key that finishes one makes it
    runnable. *)
Theorem console_wakes k evs s : quiet k → csteps k evs s →
  (∀ cur c, 0 ≤ c < 256 → (state_of (c_ker s) b = Some SLEEPING → cur ≠ Some b) → ∃ k', consoleintr cur c (c_ker s) = Done tt k' ∧
    (s_lines (shows (evs ++ [Key c])) ≠ s_lines (shows evs) → c_reader s ≠ Idle → state_of k' b ≠ Some SLEEPING)) ∧
  (∀ va n, c_reader s = Idle → writable (c_ker s) root va (Z.of_nat n) → is_Some (settle va (Z.of_nat n) sleep_fuel (consoleread b (DUser va) (Z.of_nat n) (c_ker s)))) ∧
  (∀ va n m c, c_reader s = Blocked va n (S m) c → is_Some (settle va n m (c (c_ker s)))) ∧
  (c_reader s ≠ Idle → state_of (c_ker s) b = Some SLEEPING → s_lines (shows evs) = []).
Proof using Type.
  intros Hk Hst. pose proof (cinv_steps k evs s Hk Hst) as Hi. pose proof Hi as [(l & own & Hd) Hok Hrd Hcl].
  assert (∀ l own m N rem va va' n p e o, cons_call b root l own m N rem va p e (c_ker s) o → is_Some (settle va' n m o)) as Hsome by (intros l1 own1 m1 N1 rem1 va1 va1' n1 p1 e1 [] Hc; destruct m1; cbn in *; first [done|by eexists]).
  split_and!.
  - intros cur c Hc Hcur. pose proof (consoleintr_wp cur c _ _ _ Hok (dk_names _ _ _ _ _ Hd) Hc) as ([] & k' & E & _)%wp_elim. exists k'. split; [done|].
    unfold shows. rewrite foldl_app. by apply (key_ok s _ cur c k').
  - intros va n _ Hwr. exact (Hsome _ _ _ _ _ _ _ _ _ _ _ (consoleread_call b root l own _ _ _ va n Hd Hok Hwr)).
  - intros va n m c Et. rewrite Et in Hcl. destruct Hcl as (N & got & _ & _ & _ & Hwr & _ & Hrun & _). exact (Hsome _ _ _ _ _ _ _ _ _ _ _ (Hrun m l own _ _ _ eq_refl Hd Hok Hwr)).
  - intros Hr Hs. destruct (c_reader s) as [|va n m f]; [done|]. destruct Hcl as (N & got & _ & _ & _ & _ & _ & _ & Hz). by apply Hz.
Qed.
End system.
