(* ===== verification/PipeExamples.v ===== *)
(** * A parent that writes to its child

    The theorems of [PipeThm] on a machine with two processes, built by running
    the kernel's own routines, and those of [ConsThm] on the same machine. *)

From S2P Require Import Prelude Riscv Memory CString Kalloc Vm PageTable Mapping UserCopy Uvm UvmFree VmExamples State Bytes Printf PrintfSpec Sched Bio BioSpec Cache Log LogSpec Crash Txn Fs FsBlock FsFile FsInode FsWrite FsDir FsPath FsExamples Console Pipe PipeSpec PipeThm ConsSpec ConsThm.

(** The child gets a page, the parent writes a word into its own. *)
Definition pair_hello : list Z := [104; 101; 108; 108; 111].
Definition pair_vm0 : machine := final_state (uvmalloc demo_child 0 4096 PTE_W demo_fork) demo_vm.
Definition pair_vm : machine := final_state (copyout demo_root 4093 pair_hello 5 pair_vm0) demo_vm.
Definition pair_proc (root pid : Z) : proc := Proc RUNNING ChNull false 0 pid None 0 0 root 0 0 0 (replicate 16 None) None [] [] 0.
Definition pair_pi : Z := demo_page 12.
(** The counters are about to wrap. *)
Definition pair_pipe : pipe := Pipe (replicate 512 0) (2 ^ 32 - 2) (2 ^ 32 - 2) true true.
Definition pair_k : kernel :=
  upd_mach (λ _, pair_vm) (upd_procs (λ _, [pair_proc demo_root 1; pair_proc demo_child 2]) (upd_pipes (λ _, {[pair_pi := pair_pipe]}) demo_boot)).

(** The child reads and has to wait, the parent writes, the child runs again. *)
Definition pair_buf : Z := 100.
Definition all_in (f : Z → bool) (va n : Z) : bool := forallb (λ i, f (va + i)) (seqZ 0 n).
Definition pair_run : option sys :=
  '(k1, t1, _) ← settle pair_buf 8 4 (piperead (H := 4%nat) 1 pair_pi pair_buf 8 pair_k);
  '(k2, t2, _) ← settle 4093 5 4 (pipewrite (H := 4%nat) 0 pair_pi 4093 5 k1);
  match t1 with
  | Blocked va 8 (S m) c =>
      if bool_decide (state_of k2 1 ≠ Some SLEEPING ∧ va = pair_buf) && all_in (user_readable (ram (mach k1)) demo_root) 4093 5 then
        '(k3, t3, r) ← settle va 8 m (c k2);
        Some (Build_sys k3 t2 t3 ([] ++ bytes_at k1 demo_root 4093 5) (([] ++ []) ++ delivered demo_child k3 va r))
      else None
  | _ => None
  end.

Lemma pair_eq : pair_vm0 = final_state (uvmalloc demo_child 0 4096 PTE_W demo_fork) demo_vm ∧
  final_value (uvmalloc demo_child 0 4096 PTE_W demo_fork) 0 = 4096 ∧ pair_vm = final_state (copyout demo_root 4093 pair_hello 5 pair_vm0) demo_vm.
Proof. split; [done|]. split; [by vm_compute|done]. Qed.
#[global] Opaque pair_vm0 pair_vm.

Lemma pair_vm0_facts : ∃ l own, pt_inv pair_vm0 l own ∧ aspace pair_vm0 own demo_root 8192 ∧ aspace pair_vm0 own demo_child 4096 ∧ demo_root ≠ demo_child.
Proof.
  assert (0 ≤ 0 ≤ 4096) as H1 by lia. assert (4096 ≤ TRAPFRAME) as H2 by done. assert (0 ≤ PTE_W < 1024) as H3 by done.
  destruct demo_fork_facts as (l & own & Hs & Ha & Hc & Hne).
  pose proof (wp_final _ _ demo_fork 0 demo_vm (uvmalloc_wp demo_fork l own demo_child 0 4096 PTE_W Hs Hc H1 H2 H3)) as H.
  destruct pair_eq as (E0 & Ev & _). rewrite <-E0, Ev in H. clear E0 Ev. destruct H as (l' & own' & Hs' & [(_ & Ha' & Hf & _)|[H0 _]]); [|discriminate H0].
  exists l', own'. split_and!; [done| |done|done]. eapply aspace_other; [exact Ha|exact demo_sz|exact Hne|exact Hf].
Qed.
Lemma pair_pipe_ok : pipe_ok pair_pipe.
Proof. split; [by vm_compute|by vm_compute|by vm_compute|done|by apply Forall_replicate]. Qed.
Lemma pair_work : at_work 0 1 pair_pi demo_root demo_child pair_k ∧ demo_root ≠ demo_child.
Proof.
  destruct pair_vm0_facts as (l & own & Hs & Ha & Hc & Hne). split; [|done].
  assert (is_root own demo_root ∧ is_root own demo_child) as [Hr Hr'] by exact (conj (as_root _ _ _ _ Ha) (as_root _ _ _ _ Hc)).
  assert (user_inv (ram pair_vm0) own demo_root ∧ user_inv (ram pair_vm0) own demo_child) as [Hu Hu'] by (split; [exact (aspace_user_inv _ _ _ _ Ha)|exact (aspace_user_inv _ _ _ _ Hc)]).
  pose proof (wp_final _ _ pair_vm0 0 demo_vm (copyout_loop 6 pair_vm0 l own demo_root 4093 pair_hello Hs Hr ltac:(lia) ltac:(cbn; lia)
    ltac:(repeat constructor; lia) Hu)) as (j & F & _).
  change (loopM 6 _ _ pair_vm0) with (copyout demo_root 4093 pair_hello 5 pair_vm0) in F. destruct pair_eq as (_ & _ & E1). rewrite <-E1 in F. clear E1.
  exists l, own. split.
  - apply F.
  - split; [exact (ex_intro _ (pair_proc demo_root 1) (conj eq_refl (conj eq_refl eq_refl)))|].
    exact (user_inv_tables pair_vm0 l own (ram pair_vm) demo_root Hs (cf_tables _ _ _ _ _ F) Hr Hu).
  - split; [exact (ex_intro _ (pair_proc demo_child 2) (conj eq_refl (conj eq_refl eq_refl)))|].
    exact (user_inv_tables pair_vm0 l own (ram pair_vm) demo_child Hs (cf_tables _ _ _ _ _ F) Hr' Hu').
  - exists pair_pipe. exact (conj eq_refl (conj pair_pipe_ok (conj eq_refl eq_refl))).
  - exact (conj Hr Hr').
Qed.
Lemma pair_queue : queue pair_pi pair_k = [].
Proof. by vm_compute. Qed.

Lemma all_in_ok f va n v : all_in f va n = true → va ≤ v < va + n → f v = true.
Proof.
  unfold all_in. rewrite forallb_forall. intros Hf Hv. replace v with (va + (v - va)) by lia. apply Hf, list_elem_of_In, elem_of_seqZ. lia.
Qed.
Lemma pair_buf_ok : writable pair_k demo_child pair_buf 8.
Proof. split_and!; [done|done|]. intros v Hv. eapply all_in_ok; [|exact Hv]. by vm_compute. Qed.
Lemma pair_reachable s : pair_run = Some s → reachable (H := 4%nat) 0 1 pair_pi demo_root demo_child pair_k s.
Proof.
  unfold pair_run. intros ([[k1 t1] r1] & E1 & ([[k2 t2] r2] & E2 & Hs)%bind_Some)%bind_Some.
  destruct t1 as [|va n [|m] c]; [done|by repeat case_match|]. destruct (decide (n = 8)) as [->|Hn]; [|by repeat case_match].
  destruct (bool_decide _ && _) eqn:E; [|discriminate Hs]. apply andb_prop in E as [[Ha ->]%bool_decide_eq_true Hin]. apply bind_Some in Hs as ([[k3 t3] r3] & E3 & [= <-]).
  assert (r1 = None) as -> by (by destruct (piperead _ _ _ _ _); simplify_eq/=).
  eapply rtc_l; [exact (r_call (H := 4%nat) _ _ _ _ _ _ _ _ _ _ _ _ _ _ pair_buf_ok E1)|].
  eapply rtc_l; [eapply w_call; [|exact E2]; split_and!; [done|done|]; intros v Hv; by eapply all_in_ok|].
  apply rtc_once. exact (r_run (H := 4%nat) _ _ _ _ _ k2 t2 (bytes_at k1 demo_root 4093 5) [] pair_buf 8 m c k3 t3 r3 Ha E3).
Qed.
Lemma pair_runs : ∃ s, reachable (H := 4%nat) 0 1 pair_pi demo_root demo_child pair_k s ∧ got s = pair_hello ∧ writer s = Idle.
Proof.
  assert ((λ s, (got s, writer s)) <$> pair_run = Some (pair_hello, Idle)) as H by by vm_compute.
  destruct pair_run as [s|] eqn:E; [|discriminate H]. apply pair_reachable in E. exists s. split; [exact E|]. by injection H.
Qed.

Lemma pipe_fifo_witness : ∃ s, got s = pair_hello ∧ sent s = got s ++ queue pair_pi (ker s).
Proof.
  destruct pair_work as [Hw Hne], pair_runs as (s & Hs & Hg & Hi). exists s. split; [exact Hg|].
  destruct (pipe_fifo (H := 4%nat) 0 1 pair_pi demo_root demo_child (O_S 0) Hne pair_k s Hw pair_queue Hs) as (rest & <- & Hr).
  by rewrite (Hr Hi), app_nil_r.
Defined.
Lemma pipe_no_deadlock_witness : ∃ s, got s = pair_hello ∧ ¬ (stuck (ker s) 0 (writer s) ∧ stuck (ker s) 1 (reader s)).
Proof.
  destruct pair_work as [Hw Hne], pair_runs as (s & Hs & Hg & Hi). exists s. split; [exact Hg|].
  exact (proj1 (pipe_no_deadlock (H := 4%nat) 0 1 pair_pi demo_root demo_child (O_S 0) Hne pair_k s Hw pair_queue Hs)).
Defined.

(** ** A line typed at the console

    A process waits for a line, which is typed with a correction. *)

(** The indices are about to wrap. *)
Definition tty_k : kernel := upd_cons (λ _, Conss (replicate 128 0) (2 ^ 32 - 1) (2 ^ 32 - 1) (2 ^ 32 - 1)) pair_k.
(** [h x DEL i RETURN]. *)
Definition tty_keys : list Z := [104; 120; 127; 105; 13].
Definition tty_events : list event := [Read 8] ++ (Key <$> tty_keys) ++ [Resume].

Fixpoint type_keys (cs : list Z) (k : kernel) : option kernel :=
  match cs with
  | [] => Some k
  | c :: cs => match consoleintr None c k with Done _ k' => type_keys cs k' | _ => None end
  end.
Definition tty_run : option csys :=
  '(k1, t1, r1) ← settle pair_buf 8 4 (consoleread (H := 4%nat) 1 (DUser pair_buf) 8 tty_k);
  k2 ← type_keys tty_keys k1;
  match t1 with
  | Blocked va n (S m) c =>
      if decide (state_of k2 1 ≠ Some SLEEPING) then
        '(k3, t3, r3) ← settle va n m (c k2);
        Some (Csys k3 t3 (([] ++ returned demo_child k1 pair_buf r1) ++ returned demo_child k3 va r3))
      else None
  | _ => None
  end.

Lemma quiet_desk k x a pi ra root : at_work a 1 pi ra root k → names_ok (procs k) → cons_ok x [] [] → quiet 1 root (upd_cons (λ _, x) k).
Proof.
  intros (l & own & [H1 _ [H3 U3] _ [_ H5]]) Hn Hx. destruct k. split; [|exact Hx]. exists l, own. split; [exact H1|exact H3|exact U3|exact H5|exact Hn].
Qed.
Lemma pair_procs : procs pair_k = [pair_proc demo_root 1; pair_proc demo_child 2].
Proof. reflexivity. Qed.
Lemma tty_quiet : quiet 1 demo_child tty_k.
Proof.
  apply (quiet_desk pair_k _ _ _ _ _ (proj1 pair_work)).
  - rewrite pair_procs. unfold names_ok. repeat constructor; cbn; lia.
  - split; [by vm_compute|by vm_compute|by vm_compute|by vm_compute|cbn; lia|intros i c Hi; destruct i; discriminate Hi|apply not_elem_of_nil|done].
Qed.
Lemma tty_types cs k0 evs k1 k2 t out : Forall (λ c, 0 ≤ c < 256) cs → csteps (H := 4%nat) 1 demo_child k0 evs (Csys k1 t out) → type_keys cs k1 = Some k2 →
  csteps (H := 4%nat) 1 demo_child k0 (evs ++ (Key <$> cs)) (Csys k2 t out).
Proof.
  intros Hcs. revert evs k1. induction Hcs as [|c cs Hc Hcs IH]; intros evs k1 Hst Hk; [injection Hk as <-; by rewrite app_nil_r|].
  cbn [type_keys] in Hk. destruct (consoleintr None c k1) as [[] k'| | | | |] eqn:E; try discriminate Hk. cbn [fmap list_fmap].
  change (Key c :: (Key <$> cs)) with ([Key c] ++ (Key <$> cs)). rewrite app_assoc. apply (IH _ k'); [|done]. eapply cs_snoc; [exact Hst|]. by apply (c_key 1 demo_child k1 t out None c k').
Qed.
Lemma tty_buf_ok : writable tty_k demo_child pair_buf 8.
Proof. split_and!; [done|done|]. intros v Hv. eapply all_in_ok; [|exact Hv]. by vm_compute. Qed.
Lemma tty_steps s : tty_run = Some s → csteps (H := 4%nat) 1 demo_child tty_k tty_events s.
Proof.
  unfold tty_run. intros ([[k1 t1] r1] & E1 & (k2 & E2 & Hs)%bind_Some)%bind_Some. destruct t1 as [|va n [|m] c]; [discriminate Hs..|].
  destruct (decide (state_of k2 1 ≠ Some SLEEPING)) as [Ha|]; [|discriminate Hs]. apply bind_Some in Hs as ([[k3 t3] r3] & E3 & [= <-]).
  unfold tty_events. rewrite app_assoc. eapply cs_snoc; [|exact (c_run (H := 4%nat) 1 demo_child k2 _ va n m c k3 t3 r3 Ha E3)].
  eapply tty_types; [|exact (cs_snoc (H := 4%nat) 1 demo_child tty_k [] _ _ _ (cs_nil (H := 4%nat) 1 demo_child tty_k) (c_call (H := 4%nat) 1 demo_child tty_k [] pair_buf 8 k1 _ r1 tty_buf_ok E1))|exact E2].
  unfold tty_keys. repeat constructor; lia.
Qed.
Lemma tty_runs : ∃ s, csteps (H := 4%nat) 1 demo_child tty_k tty_events s.
Proof.
  assert (bool_decide (is_Some tty_run) = true) as H by by vm_compute. destruct tty_run as [s|] eqn:E; [|discriminate H]. exists s. by apply tty_steps.
Qed.

Lemma console_lines_witness : ∃ s, csteps (H := 4%nat) 1 demo_child tty_k tty_events s ∧ c_reads s = [[104; 105; 10]].
Proof.
  destruct tty_runs as [s Hs]. exists s. split; [exact Hs|]. exact (proj1 (console_lines (H := 4%nat) 1 demo_child tty_k tty_events s tty_quiet Hs)).
Defined.
Lemma console_wakes_witness : ∃ s, csteps (H := 4%nat) 1 demo_child tty_k tty_events s ∧ ∃ k', consoleintr (Some 0%nat) 65 (c_ker s) = Done tt k'.
Proof.
  destruct tty_runs as [s Hs]. exists s. split; [exact Hs|].
  destruct (proj1 (console_wakes (H := 4%nat) 1 demo_child tty_k tty_events s tty_quiet Hs) (Some 0%nat) 65 ltac:(lia) ltac:(done)) as (k' & E & _). exists k'. exact E.
Defined.
