(* ===== verification/File.v ===== *)
(** * Open files

    [kernel/file.c] and [pipealloc] of [kernel/pipe.c].  A [struct file *] is an
    index of [ftable]. *)

From S2P Require Import Prelude Riscv Memory CString Kalloc Vm State Bytes Sched Printf Bio Log Fs Console Pipe.

Definition CONSOLE : Z := 1.

Definition filealloc : M kernel (option nat) :=
  l ← gets ftable;
  match list_find (λ f, f_ref f = 0) l with
  | Some (i, _) => set_file i (upd_f_ref (λ _, 1)) ;; mret (Some i)
  | None => mret None
  end.

Definition filedup (f : nat) : M kernel nat :=
  x ← the_file f;
  if f_ref x <? 1 then panic "filedup" else set_file f (upd_f_ref (λ r, r + 1)) ;; mret f.

Section file.
Context {I : Image} `{SleepFuel} (me : nat).

Definition fileclose (f : nat) : M kernel unit :=
  x ← the_file f;
  if f_ref x <? 1 then panic "fileclose"
  else
    set_file f (upd_f_ref (λ r, r - 1)) ;;
    ff ← the_file f;
    if f_ref ff >? 0 then mret tt
    else
      set_file f (λ y, upd_f_type (λ _, FD_NONE) (upd_f_ref (λ _, 0) y)) ;;
      match f_type ff with
      | FD_PIPE => pipeclose me (f_pipe ff) (f_writable ff)
      | FD_INODE | FD_DEVICE => begin_op me ;; ip ← deref (f_ip ff); iput me ip ;; end_op me
      | FD_NONE => mret tt
      end.

Definition filestat (f : nat) (addr : Z) : M kernel Z :=
  x ← the_file f;
  if decide (f_type x = FD_INODE ∨ f_type x = FD_DEVICE) then
    ilock me (f_ip x) ;;
    ip ← deref (f_ip x);
    st ← stati ip;
    iunlock me (f_ip x) ;;
    p ← the_proc me;
    r ← vm (copyout (p_pagetable p) addr st (Z.of_nat (length st)));
    if r <? 0 then mret (-1) else mret 0
  else mret (-1).

(** [devsw], as [consoleinit] leaves it. *)
Definition devsw_read (major : Z) : option (dst → Z → M kernel Z) :=
  if major =? CONSOLE then Some (consoleread me) else None.
Definition devsw_write (major : Z) : option (src → Z → M kernel Z) :=
  if major =? CONSOLE then Some (consolewrite me) else None.

Definition fileread (f : nat) (addr n : Z) : M kernel Z :=
  x ← the_file f;
  if negb (f_readable x) then mret (-1)
  else
    match f_type x with
    | FD_PIPE => piperead me (f_pipe x) addr n
    | FD_DEVICE =>
        if (f_major x <? 0) || (NDEV <=? f_major x) then mret (-1)
        else match devsw_read (f_major x) with Some rd => rd (DUser addr) n | None => mret (-1) end
    | FD_INODE =>
        ilock me (f_ip x) ;;
        ip ← deref (f_ip x);
        y ← the_file f;
        '(r, _) ← readi me ip (DUser addr) (f_off y) (u32 n);
        let r := s32 r in
        (if r >? 0 then set_file f (upd_f_off (λ o, u32 (o + r))) else mret tt) ;;
        iunlock me (f_ip x) ;;
        mret r
    | FD_NONE => panic "fileread"
    end.

Definition max_write : Z := ((MAXOPBLOCKS - 1 - 1 - 2) / 2) * BSIZE.

Definition filewrite_body (f : nat) (ip : nat) (addr n i : Z) : M kernel (Z + Z) :=
  if i <? n then
    let n1 := if n - i >? max_write then max_write else n - i in
    begin_op me ;;
    ilock me (Some ip) ;;
    y ← the_file f;
    r ← writei me ip (SUser (u64 (addr + i))) (f_off y) n1;
    let r := s32 r in
    (if r >? 0 then set_file f (upd_f_off (λ o, u32 (o + r))) else mret tt) ;;
    iunlock me (Some ip) ;;
    end_op me ;;
    if negb (r =? n1) then mret (inr i) else mret (inl (i + r))
  else mret (inr i).

Definition filewrite (f : nat) (addr n : Z) : M kernel Z :=
  x ← the_file f;
  if negb (f_writable x) then mret (-1)
  else
    match f_type x with
    | FD_PIPE => pipewrite me (f_pipe x) addr n
    | FD_DEVICE =>
        if (f_major x <? 0) || (NDEV <=? f_major x) then mret (-1)
        else match devsw_write (f_major x) with Some wr => wr (SUser addr) n | None => mret (-1) end
    | FD_INODE =>
        ip ← deref (f_ip x);
        i ← loopM (S (S (Z.to_nat (n / max_write)))) (filewrite_body f ip addr n) 0;
        mret (if i =? n then n else -1)
    | FD_NONE => panic "filewrite"
    end.

(** ** pipealloc *)

(** The [data] array of a pipe in the page [pi], as the page was found. *)
Definition PIPE_DATA : Z := 24.

Definition close_opt (f : option nat) : M kernel unit :=
  match f with Some f => fileclose f | None => mret tt end.

(** The status, [*f0] and [*f1]. *)
Definition pipealloc : M kernel (Z * option nat * option nat) :=
  f0 ← filealloc;
  f1 ← match f0 with Some _ => filealloc | None => mret None end;
  match f0, f1 with
  | Some a, Some b =>
      pi ← vm kalloc;
      if pi =? 0 then fileclose a ;; fileclose b ;; mret (-1, f0, f1)
      else
        m ← gets (λ k, ram (mach k));
        modify (upd_pipes (insert pi
          (Pipe (load_bytes m (pi + PIPE_DATA) (Z.to_nat PIPESIZE)) 0 0 true true))) ;;
        set_file a (λ f, upd_f_pipe (λ _, pi) (upd_f_writable (λ _, false)
          (upd_f_readable (λ _, true) (upd_f_type (λ _, FD_PIPE) f)))) ;;
        set_file b (λ f, upd_f_pipe (λ _, pi) (upd_f_writable (λ _, true)
          (upd_f_readable (λ _, false) (upd_f_type (λ _, FD_PIPE) f)))) ;;
        mret (0, f0, f1)
  | _, _ => close_opt f0 ;; close_opt f1 ;; mret (-1, f0, f1)
  end.
End file.
