(* ===== verification/Proc.v ===== *)
(** * Processes

    [kernel/proc.c]: allocation, page tables, [fork], [exit], [wait].  Sleeping
    and waking are in [Sched].  A [struct proc *] is an index of [proc]. *)

From S2P Require Import Prelude Riscv Memory CString Kalloc Vm State Bytes Sched Printf Bio Log Fs Console Pipe File.

(** Addresses of kernel code that the kernel stores in registers. *)
Class Text := {
  forkret_addr : Z;
  usertrap_addr : Z;
  kernelvec_addr : Z;
  uservec : Z;
  userret : Z;
}.

(** ** The trapframe: byte offsets of the fields in its page *)
Definition TF_kernel_satp : Z := 0.
Definition TF_kernel_sp : Z := 8.
Definition TF_kernel_trap : Z := 16.
Definition TF_epc : Z := 24.
Definition TF_kernel_hartid : Z := 32.
Definition TF_sp : Z := 48.
Definition TF_a (n : Z) : Z := 112 + 8 * n.
Definition TF_SIZE : Z := 288.

Definition tf_load (me : nat) (off : Z) : M kernel Z :=
  p ← the_proc me; vm (gets (λ s, load64 (ram s) (p_trapframe p + off))).
Definition tf_store (me : nat) (off v : Z) : M kernel unit :=
  p ← the_proc me; vm (modify (set_ram (λ m, store64 m (p_trapframe p + off) (u64 v)))).

(** ** Allocation *)

Definition procinit : M kernel unit :=
  modify (upd_procs (imap (λ i p,
    upd_p_kstack (λ _, KSTACK (Z.of_nat i)) (upd_p_state (λ _, UNUSED) p)))).

Definition allocpid : M kernel Z :=
  pid ← gets nextpid; modify (upd_nextpid (λ n, n + 1)) ;; mret pid.

Section proc.
Context {I : Image} {T : Text} `{SleepFuel}.

Definition proc_pagetable (i : nat) : M kernel Z :=
  p ← the_proc i;
  vm (pagetable ← uvmcreate;
      if pagetable =? 0 then mret 0
      else
        r ← mappages pagetable TRAMPOLINE PGSIZE trampoline (Z.lor PTE_R PTE_X);
        if r <? 0 then uvmfree pagetable 0 ;; mret 0
        else
          r ← mappages pagetable TRAPFRAME PGSIZE (p_trapframe p) (Z.lor PTE_R PTE_W);
          if r <? 0 then
            uvmunmap pagetable TRAMPOLINE 1 false ;; uvmfree pagetable 0 ;; mret 0
          else mret pagetable).

Definition proc_freepagetable (pagetable sz : Z) : M kernel unit :=
  vm (uvmunmap pagetable TRAMPOLINE 1 false ;;
      uvmunmap pagetable TRAPFRAME 1 false ;;
      uvmfree pagetable sz).

Definition freeproc (i : nat) : M kernel unit :=
  p ← the_proc i;
  (if p_trapframe p =? 0 then mret tt else vm (kfree (p_trapframe p))) ;;
  set_proc i (upd_p_trapframe (λ _, 0)) ;;
  (if p_pagetable p =? 0 then mret tt else proc_freepagetable (p_pagetable p) (p_sz p)) ;;
  set_proc i (λ p,
    upd_p_state (λ _, UNUSED) (upd_p_xstate (λ _, 0) (upd_p_killed (λ _, false)
    (upd_p_chan (λ _, ChNull) (upd_p_name (λ n, <[0%nat := 0]> n) (upd_p_parent (λ _, None)
    (upd_p_pid (λ _, 0) (upd_p_sz (λ _, 0) (upd_p_pagetable (λ _, 0) p))))))))).

Definition allocproc : M kernel (option nat) :=
  l ← gets procs;
  match list_find (λ p, p_state p = UNUSED) l with
  | None => mret None
  | Some (i, _) =>
      pid ← allocpid;
      set_proc i (λ p,
        upd_p_vma_top (λ _, MAXVA - 2 * PGSIZE)
        (upd_p_vma (fmap (λ v, upd_v_refcnt (λ _, 0) (upd_v_valid (λ _, false) v)))
        (upd_p_state (λ _, USED) (upd_p_pid (λ _, pid) p)))) ;;
      tf ← vm kalloc;
      set_proc i (upd_p_trapframe (λ _, tf)) ;;
      if tf =? 0 then freeproc i ;; mret None
      else
        pt ← proc_pagetable i;
        set_proc i (upd_p_pagetable (λ _, pt)) ;;
        if pt =? 0 then freeproc i ;; mret None
        else
          set_proc i (λ p, upd_ctx_sp (λ _, p_kstack p + PGSIZE) (upd_ctx_ra (λ _, forkret_addr) p)) ;;
          mret (Some i)
  end.

(** ** The first process *)

Definition initcode : list Z :=
  [0x17; 0x05; 0x00; 0x00; 0x13; 0x05; 0x45; 0x02;
   0x97; 0x05; 0x00; 0x00; 0x93; 0x85; 0x35; 0x02;
   0x93; 0x08; 0x70; 0x00; 0x73; 0x00; 0x00; 0x00;
   0x93; 0x08; 0x20; 0x00; 0x73; 0x00; 0x00; 0x00;
   0xef; 0xf0; 0x9f; 0xff; 0x2f; 0x69; 0x6e; 0x69;
   0x74; 0x00; 0x00; 0x24; 0x00; 0x00; 0x00; 0x00;
   0x00; 0x00; 0x00; 0x00].

Definition set_name (i : nat) (s : list Z) : M kernel unit :=
  p ← the_proc i;
  match safestrcpy (p_name p) s 16 with
  | Some nm => set_proc i (upd_p_name (λ _, nm))
  | None => fault "safestrcpy"
  end.

(** [me] is no process yet: [namei("/")] does not use it. *)
Definition userinit : M kernel unit :=
  p ← allocproc;
  modify (upd_initproc (λ _, p)) ;;
  i ← deref p;
  x ← the_proc i;
  vm (uvmfirst (p_pagetable x) initcode) ;;
  set_proc i (upd_p_sz (λ _, PGSIZE)) ;;
  tf_store i TF_epc 0 ;;
  tf_store i TF_sp PGSIZE ;;
  set_name i (bytes_of "initcode" ++ [0]) ;;
  cwd ← namei i (bytes_of "/" ++ [0]);
  set_proc i (λ p, upd_p_state (λ _, RUNNABLE) (upd_p_cwd (λ _, cwd) p)).

Section current.
Context (me : nat).

Definition growproc (n : Z) : M kernel Z :=
  p ← the_proc me;
  let sz := p_sz p in
  if n >? 0 then
    sz ← vm (uvmalloc (p_pagetable p) sz (u64 (sz + n)) PTE_W);
    if sz =? 0 then mret (-1) else set_proc me (upd_p_sz (λ _, sz)) ;; mret 0
  else
    sz ← (if n <? 0 then vm (uvmdealloc (p_pagetable p) sz (u64 (sz + n))) else mret sz);
    set_proc me (upd_p_sz (λ _, sz)) ;; mret 0.

(** ** fork *)

Definition copy_vmas (np : nat) : M kernel unit :=
  p ← the_proc me;
  forM (seqZ 0 VMA_MAX) (λ j,
    match p_vma p !! Z.to_nat j with
    | None => fault "vma_array"
    | Some v =>
        if v_valid v then
          f ← deref (v_f v); filedup f ;; set_proc np (upd_p_vma (insert (Z.to_nat j) v))
        else mret tt
    end).
Definition copy_files (np : nat) : M kernel unit :=
  p ← the_proc me;
  forM (seqZ 0 NOFILE) (λ j,
    match p_ofile p !! Z.to_nat j with
    | None => fault "ofile"
    | Some None => mret tt
    | Some (Some f) => filedup f ;; set_proc np (upd_p_ofile (insert (Z.to_nat j) (Some f)))
    end).

Definition fork : M kernel Z :=
  p ← the_proc me;
  o ← allocproc;
  match o with
  | None => mret (-1)
  | Some np =>
      q ← the_proc np;
      r ← vm (uvmcopy (p_pagetable p) (p_pagetable q) (p_sz p));
      if r <? 0 then freeproc np ;; mret (-1)
      else
        set_proc np (upd_p_sz (λ _, p_sz p)) ;;
        vm (modify (set_ram (λ m,
          store_bytes m (p_trapframe q) (load_bytes m (p_trapframe p) (Z.to_nat TF_SIZE))))) ;;
        set_proc np (upd_p_vma_top (λ _, p_vma_top p)) ;;
        copy_vmas np ;;
        tf_store np (TF_a 0) 0 ;;
        copy_files np ;;
        c ← deref (p_cwd p);
        c ← idup c;
        set_proc np (upd_p_cwd (λ _, Some c)) ;;
        set_name np (p_name p) ;;
        set_proc np (upd_p_parent (λ _, Some me)) ;;
        set_proc np (upd_p_state (λ _, RUNNABLE)) ;;
        mret (p_pid q)
  end.

(** ** exit and wait *)

Definition proc_chan (p : option nat) : chan := match p with Some i => ChProc i | None => ChNull end.

Definition reparent : M kernel unit :=
  l ← gets procs;
  forM (seq 0 (length l)) (λ j,
    pp ← the_proc j;
    if decide (p_parent pp = Some me) then
      ini ← gets initproc;
      set_proc j (upd_p_parent (λ _, ini)) ;; wakeup (Some me) (proc_chan ini)
    else mret tt).

(** The pages of one mapping. *)
Definition release_vma_body (v : vma) (addr : Z) : M kernel (Z + unit) :=
  if addr <? u64 (v_addr v + v_len v) then
    p ← the_proc me;
    pa ← vm (walkaddr (p_pagetable p) addr);
    (if pa =? 0 then mret tt
     else
       (if v_flags v =? MAP_SHARED then f ← deref (v_f v); filewrite me f addr PGSIZE ;; mret tt
        else mret tt) ;;
       vm (uvmunmap (p_pagetable p) addr 1 true)) ;;
    mret (inl (u64 (addr + PGSIZE)))
  else mret (inr tt).
Definition release_vma (v : vma) : M kernel unit :=
  loopM (S (S (Z.to_nat (v_len v / PGSIZE)))) (release_vma_body v) (v_addr v).
Definition release_vmas : M kernel unit :=
  forM (seqZ 0 VMA_MAX) (λ j,
    p ← the_proc me;
    match p_vma p !! Z.to_nat j with
    | None => fault "vma_array"
    | Some v =>
        if v_valid v then
          release_vma v ;;
          f ← deref (v_f v);
          fileclose me f ;;
          set_proc me (upd_p_vma (alter (upd_v_valid (λ _, false)) (Z.to_nat j)))
        else mret tt
    end).

Definition close_files : M kernel unit :=
  forM (seqZ 0 NOFILE) (λ fd,
    p ← the_proc me;
    match p_ofile p !! Z.to_nat fd with
    | None => fault "ofile"
    | Some None => mret tt
    | Some (Some f) => fileclose me f ;; set_proc me (upd_p_ofile (insert (Z.to_nat fd) None))
    end).

(** The thread enters the scheduler for the last time. *)
Definition thread_exit : M kernel unit := λ k, Exited k.

Definition exit (status : Z) : M kernel unit :=
  release_vmas ;;
  ini ← gets initproc;
  if decide (ini = Some me) then panic "init exiting"
  else
    close_files ;;
    begin_op me ;;
    p ← the_proc me;
    c ← deref (p_cwd p);
    iput me c ;;
    end_op me ;;
    set_proc me (upd_p_cwd (λ _, None)) ;;
    reparent ;;
    p ← the_proc me;
    wakeup (Some me) (proc_chan (p_parent p)) ;;
    set_proc me (λ p, upd_p_state (λ _, ZOMBIE) (upd_p_xstate (λ _, status) p)) ;;
    thread_exit.

Definition wait_body (addr : Z) (_ : unit) : M kernel (unit + Z) :=
  p ← the_proc me;
  l ← gets procs;
  match list_find (λ pp, p_parent pp = Some me ∧ p_state pp = ZOMBIE) l with
  | Some (j, pp) =>
      r ← (if addr =? 0 then mret 0
           else vm (copyout (p_pagetable p) addr (le_put 4 (p_xstate pp)) 4));
      if r <? 0 then mret (inr (-1))
      else freeproc j ;; mret (inr (p_pid pp))
  | None =>
      if negb (existsb (λ pp, bool_decide (p_parent pp = Some me)) l) || p_killed p then mret (inr (-1))
      else sleep me (ChProc me) ;; mret (inl tt)
  end.
Definition wait (addr : Z) : M kernel Z := loopM (S sleep_fuel) (wait_body addr) tt.
End current.
End proc.
