(* ===== verification/ProcMem.v ===== *)
(** * The memory of a process

    The address space with which [proc_pagetable] of [kernel/proc.c] starts a
    process, its trampoline and its trapframe mapped, and how
    [proc_freepagetable] takes it apart: a process gives back exactly the pages
    it has taken. *)

From S2P Require Import Prelude Riscv Memory CString Kalloc Vm PageTable Mapping UserCopy Uvm UvmFree State Bytes Sched Printf Bio BioSpec Log Fs Console Pipe File Proc.

Section procmem.
Context {I : Image}.

(** Every user page belongs to a page table. *)
Definition rooted (own : gmap Z role) : Prop :=
  ∀ p root vpn, own !! p = Some (UPage root vpn) → is_root own root.

(** A table at [root] built since [s0]: an address space of size [sz], and what
    is mapped in the two pages at the top. *)
Record table (s0 : machine) (l0 : list Z) (own0 : gmap Z role) (root sz : Z) (top : Z → Z)
    (s : machine) (l : list Z) (own : gmap Z role) : Prop := {
  tb_inv : pt_inv s l own;
  tb_frame : vm_frame root 0 MAXVA s0 l0 own0 s l own;
  tb_space : aspace s own root sz;
  tb_top : ∀ va, TRAPFRAME ≤ va < MAXVA → lookup_pte (ram s) root va = top va;
}.

Definition set_top (va e : Z) (top : Z → Z) (v : Z) : Z :=
  if decide (v / 4096 = va / 4096) then e else top v.

(** The table of a process whose trapframe is the page at [tf]. *)
Definition frame_pte (tf : Z) : Z := mk_pte tf (Z.lor PTE_R PTE_W).
Definition tramp_pte : Z := mk_pte trampoline (Z.lor PTE_R PTE_X).
Definition proc_top (tf : Z) : Z → Z :=
  set_top TRAPFRAME (frame_pte tf) (set_top TRAMPOLINE tramp_pte (λ _, 0)).

(** ** The table changes at the top *)

Lemma top_va va : TRAPFRAME ≤ va → va mod 4096 = 0 → va + 4096 ≤ MAXVA → 0 ≤ va ∧
  ∀ v, 0 ≤ v < TRAPFRAME → v / 4096 ≠ va / 4096.
Proof using Type.
  change TRAPFRAME with (2 ^ 38 - 8192). intros. split; [lia|]. intros v Hv.
  Z.div_mod_to_equations. lia.
Qed.

Lemma vm_frame_upd root va e s l own s' l' own' :
  pt_frame root s l own s' l' own' → upd_lookup (ram s) (ram s') own root va e → 0 ≤ va < MAXVA →
  vm_frame root 0 MAXVA s l own s' l' own'.
Proof using Type.
  intros [Ho D Fr N A] Hu Hva. split; try done.
  - intros p r [?|[??]]%N; [by left|right; auto].
  - intros r0 va0 Hr0 Hva0 Hn. rewrite Hu, decide_False; [done| |done|done]. intros [-> _]. by apply Hn.
Qed.

Lemma aspace_upd root sz va e s l own s' l' own' :
  aspace s own root sz → 0 ≤ sz ≤ TRAPFRAME → pt_frame root s l own s' l' own' →
  upd_lookup (ram s) (ram s') own root va e →
  TRAPFRAME ≤ va → va mod 4096 = 0 → va + 4096 ≤ MAXVA → bit e PTE_U = false →
  aspace s' own' root sz.
Proof using Type.
  intros [Hr Hm Hf Ht Hp] Hsz [Ho D Fr N A] Hu Hlo Hal Hhi Hbit.
  destruct (top_va va Hlo Hal Hhi) as [Hva Hne]. destruct (pgup_bound sz Hsz) as [Hb _].
  pose proof trapframe_max as Htf.
  assert (∀ v, 0 ≤ v < TRAPFRAME → lookup_pte (ram s') root v = lookup_pte (ram s) root v) as L.
  { intros v Hv. rewrite Hu, decide_False; [done| |done|lia]. intros [_ ?]. by apply (Hne v Hv). }
  split.
  - by eapply lookup_weaken.
  - intros v Hv. destruct (Hm v Hv) as (H1 & H2 & H3). unfold mapped_user. rewrite L by lia.
    split_and!; [done|done|]. by eapply lookup_weaken.
  - intros v Hv. rewrite L by lia. by apply Hf.
  - intros v Hv. rewrite Hu by (done || lia). case_decide; [done|]. by apply Ht.
  - intros p vpn Hpv. destruct (N p _ Hpv) as [Hp0|(_ & ? & ? & ?)]; [|done].
    destruct (Hp p vpn Hp0) as [? Heq]. split; [done|]. rewrite L by lia. done.
Qed.

Section change.
Context (s0 : machine) (l0 : list Z) (own0 : gmap Z role) (root sz : Z).
Hypothesis Hsz : 0 ≤ sz ≤ TRAPFRAME.

Lemma table_upd top va e s l own s' l' own' :
  table s0 l0 own0 root sz top s l own → pt_inv s' l' own' → pt_frame root s l own s' l' own' →
  upd_lookup (ram s) (ram s') own root va e →
  TRAPFRAME ≤ va → va mod 4096 = 0 → va + 4096 ≤ MAXVA → bit e PTE_U = false →
  table s0 l0 own0 root sz (set_top va e top) s' l' own'.
Proof using Hsz.
  intros [Hs Hf Ha Ht] Hs' Hf' Hu Hlo Hal Hhi Hbit. split.
  - done.
  - eapply vm_frame_trans; [exact Hf|]. eapply vm_frame_upd; [done|done|].
    change TRAPFRAME with (2 ^ 38 - 8192) in *. lia.
  - by eapply aspace_upd.
  - intros v Hv. rewrite Hu; [|apply Ha|change TRAPFRAME with (2 ^ 38 - 8192) in *; lia].
    unfold set_top. destruct (decide (v / 4096 = va / 4096)) as [E|E].
    + by rewrite decide_True.
    + rewrite decide_False by tauto. by apply Ht.
Qed.

Lemma table_same top s l own s' l' own' :
  table s0 l0 own0 root sz top s l own → pt_inv s' l' own' → pt_frame root s l own s' l' own' →
  same_lookups (ram s) (ram s') own → table s0 l0 own0 root sz top s' l' own'.
Proof using Hsz.
  intros [Hs Hf Ha Ht] Hs' Hf' Hl. pose proof trapframe_max as Htf. split.
  - done.
  - eapply vm_frame_trans; [exact Hf|]. eapply (vm_frame_widen _ 0 0); [done| |by apply vm_frame_pt].
    rewrite MAXVA_val. lia.
  - destruct (pgup_bound sz Hsz) as [Hb _]. eapply (aspace_clear root sz 0); [exact Ha|done|done|exact Hf'|].
    intros r0 va0 Hr0 Hva0. rewrite decide_False by lia. by apply Hl.
  - intros v Hv. rewrite Hl; [by apply Ht|apply Ha|]. change TRAPFRAME with (2 ^ 38 - 8192) in *. lia.
Qed.

Lemma table_map top va pa perm s l own :
  table s0 l0 own0 root sz top s l own → TRAPFRAME ≤ va → va mod 4096 = 0 → va + 4096 ≤ MAXVA →
  0 ≤ pa → pa + 4096 ≤ 2 ^ 56 → pa mod 4096 = 0 → 0 ≤ perm < 1024 → bit (mk_pte pa perm) PTE_U = false →
  (∀ v, v / 4096 = va / 4096 → bit (top v) PTE_V = false) →
  wp (mappages root va PGSIZE pa perm) (λ r s', ∃ l' own',
    r = 0 ∧ table s0 l0 own0 root sz (set_top va (mk_pte pa perm) top) s' l' own' ∧ free_pages l ≤ 2 + free_pages l' ∨
    r = -1 ∧ table s0 l0 own0 root sz top s' l' own' ∧ free_pages l < 2) s.
Proof using Hsz.
  intros Ht Hlo Hal Hhi Hpa Hpam Hpal Hperm Hbit Hfree. pose proof Ht as [Hs Hf Ha Htop].
  destruct (top_va va Hlo Hal Hhi) as [Hva _].
  eapply wp_mono; [apply (mappages_wp s l own root va PGSIZE pa perm Hs); try done; [apply Ha|]|].
  { intros v Hv. unfold PGSIZE in Hv. rewrite Htop by lia. apply Hfree. by apply page_vpn. }
  intros r s' (l' & own' & n & Hs' & Hf' & Hm & [(-> & -> & Hlen)|(-> & Hn & -> & Hlen)]).
  - exists l', own'. left. split; [done|]. split; [|exact Hlen]. eapply table_upd; try done.
    intros r0 va0 Hr0 Hva0. rewrite Hm by done. change (4096 * (PGSIZE / 4096)) with 4096.
    pose proof (page_vpn va va0 Hal) as Hpg. destruct (decide (r0 = root ∧ va0 / 4096 = va / 4096)) as [[-> E]|E].
    + rewrite decide_True by (split; [done|by apply Hpg]). f_equal. apply Hpg in E.
      rewrite Z.div_small by lia. lia.
    + rewrite decide_False; [done|]. intros [-> ?]. apply E. split; [done|by apply Hpg].
  - exists [], own'. right. split; [done|]. change (PGSIZE / 4096) with 1 in Hn. split; [|lia].
    eapply table_same; try done. intros r0 va0 Hr0 Hva0. by rewrite Hm, decide_False by (done || lia).
Qed.

Lemma table_unmap top va s l own :
  table s0 l0 own0 root sz top s l own → TRAPFRAME ≤ va → va mod 4096 = 0 → va + 4096 ≤ MAXVA →
  bit (top va) PTE_V = true → PTE_FLAGS (top va) ≠ PTE_V →
  wp (uvmunmap root va 1 false) (λ _ s', table s0 l0 own0 root sz (set_top va 0 top) s' l own) s.
Proof using Hsz.
  intros Ht Hlo Hal Hhi Hv Hfl. pose proof Ht as [Hs Hf Ha Htop].
  destruct (top_va va Hlo Hal Hhi) as [Hva _]. rewrite <-Htop in Hv, Hfl by lia.
  eapply wp_mono; [apply (uvmunmap_nofree_wp s l own root va Hs); try done; apply Ha|].
  intros _ s' (Hs' & Hf' & Hu). by eapply table_upd.
Qed.

(** ** Freeing the table *)

(** Pages that [root] has got since [s0] go back to where they came from. *)
Lemma freed_frame s l own s' l' own' :
  pt_inv s0 l0 own0 → vm_frame root 0 MAXVA s0 l0 own0 s l own → freed root s l own s' l' own' →
  freed root s0 l0 own0 s' l' own'.
Proof using Type.
  intros Hs0 [Ho D Fr N A L] [Hs' Ho' Hf' L' D'].
  assert (∀ p r, own' !! p = Some r ↔ own0 !! p = Some r ∧ owner r ≠ Some root) as Hown.
  { intros p r. rewrite Ho'. split; intros [Hp Hr]; (split; [|done]).
    - destruct (N p r Hp) as [?|(_ & [(? & ? & ->)|(? & -> & _)])]; done.
    - by eapply lookup_weaken. }
  split; [done|done| | |].
  - intros p. rewrite Hf'. split.
    + intros [Hp|(r & Hp & Hr)]; [left; by apply Fr|]. destruct (N p r Hp) as [?|[? _]]; [right; eauto|by left].
    + intros [Hp|(r & Hp & Hr)]; [|right; exists r; split; [by eapply lookup_weaken|done]].
      destruct (A p Hp) as [?|[r Hr]]; [by left|]. right. exists r. split; [done|].
      destruct (N p r Hr) as [Hp0|(_ & [(? & ? & ->)|(? & -> & _)])]; [|done..].
      by rewrite (pt_free _ _ _ Hs0 p Hp) in Hp0.
  - intros r0 va0 Hr0 Hne Hva0. rewrite L' by (first [done|by eapply lookup_weaken]).
    apply L; [done|done|]. by intros [? _].
  - intros p r Hp Hr. apply Hown in Hp as Hp0. destruct Hp0 as [Hp0 _].
    eapply agree_trans; [by eapply D|by eapply D'].
Qed.

Lemma table_free top s l own :
  pt_inv s0 l0 own0 → table s0 l0 own0 root sz top s l own →
  (∀ va, TRAPFRAME ≤ va < MAXVA → bit (top va) PTE_V = false) →
  wp (uvmfree root sz) (λ _ s', ∃ l' own', freed root s0 l0 own0 s' l' own') s.
Proof using Hsz.
  intros Hs0 [Hs Hf Ha Htop] Hno. eapply wp_mono; [apply (uvmfree_wp s l own root sz Hs Ha Hsz)|].
  { intros va Hva. rewrite Htop by done. by apply Hno. }
  intros _ s' (l' & own' & Hfd). exists l', own'. by eapply freed_frame.
Qed.
End change.

(** ** A table that was not there before *)

(** The memory of the system is as it was; only free pages may differ. *)
Record unchanged (s : machine) (l : list Z) (own : gmap Z role)
    (s' : machine) (l' : list Z) (own' : gmap Z role) : Prop := {
  un_inv : pt_inv s' l' own';
  un_own : own' = own;
  un_free : l' ≡ₚ l;
  un_lookup : same_lookups (ram s) (ram s') own;
  un_data : ∀ p r, own !! p = Some r → (∀ a b c, r ≠ PT a b c) → agree (ram s) (ram s') p 4096;
}.

Lemma unchanged_refl s l own : pt_inv s l own → unchanged s l own s l own.
Proof using Type. intros Hs. by split; try done. Qed.

Lemma pt_rooted s l own p root lvl pre :
  pt_inv s l own → own !! p = Some (PT root lvl pre) → is_root own root.
Proof using Type.
  intros Hs Hp. pose proof (pt_level _ _ _ Hs _ _ _ _ Hp) as Hl.
  remember (Z.to_nat (2 - lvl)) as n eqn:En. revert p lvl pre Hp Hl En.
  induction n as [|n IH]; intros p lvl pre Hp Hl En.
  - assert (lvl = 2) as -> by lia. destruct (pt_top _ _ _ Hs _ _ _ Hp) as [-> ->]. done.
  - destruct (pt_up _ _ _ Hs _ _ _ _ Hp) as (q & Hq & _); [lia|]. apply (IH q _ _ Hq); lia.
Qed.

Lemma fresh_owner s l own root p r :
  pt_inv s l own → rooted own → own !! root = None → own !! p = Some r → owner r ≠ Some root.
Proof using Type.
  intros Hs Hro Hf Hp Ho. destruct r as [a b c|a b|]; [| |done]; injection Ho as ->.
  - apply (pt_rooted s l own) in Hp; [|done]. unfold is_root in Hp. congruence.
  - apply Hro in Hp. unfold is_root in Hp. congruence.
Qed.

Lemma free_nodup s l own : pt_inv s l own → NoDup l.
Proof using Type. intros Hs. apply (pt_kmem _ _ _ Hs). Qed.

Lemma freed_fresh s l own root s' l' own' :
  pt_inv s l own → rooted own → own !! root = None → freed root s l own s' l' own' →
  unchanged s l own s' l' own'.
Proof using Type.
  intros Hs Hro Hf [Hs' Ho Hfr L D].
  pose proof (λ p r, fresh_owner s l own root p r Hs Hro Hf) as Hno.
  assert (own' = own) as Heq.
  { apply map_eq. intros p. apply option_eq. intros r. rewrite Ho. split; [by intros [? _]|]. eauto. }
  split; [done|done| | |].
  - apply NoDup_Permutation; [by eapply free_nodup|by eapply free_nodup|]. intros p. rewrite Hfr.
    split; [|by left]. intros [?|(r & Hp & Hr)]; [done|]. by destruct (Hno p r Hp).
  - intros r0 va0 Hr0 Hva0. apply L; [done| |done]. intros ->. unfold is_root in Hr0. congruence.
  - intros p r Hp. apply D. by rewrite Heq.
Qed.

Lemma rooted_frame root lo hi s l own s' l' own' :
  rooted own → is_root own' root → vm_frame root lo hi s l own s' l' own' → rooted own'.
Proof using Type.
  intros Hro Hr [Ho D Fr N A L] p a vpn Hp.
  destruct (N p _ Hp) as [Hp0|(_ & [(? & ? & ?)|(? & [= -> _] & _)])]; [|done|done].
  eapply lookup_weaken; [by eapply Hro|done].
Qed.

(** ** Creating and freeing the table of a process *)

Lemma top_pte pa perm :
  0 ≤ pa → pa + 4096 ≤ 2 ^ 56 → pa mod 4096 = 0 → perm = Z.lor PTE_R PTE_W ∨ perm = Z.lor PTE_R PTE_X →
  0 ≤ perm < 1024 ∧ bit (mk_pte pa perm) PTE_U = false ∧ bit (mk_pte pa perm) PTE_V = true ∧
  PTE_FLAGS (mk_pte pa perm) ≠ PTE_V.
Proof using Type.
  intros H1 H2 H3 Hp. assert (0 ≤ perm < 1024) as Hr by (by destruct Hp as [-> | ->]). split; [done|].
  unfold bit. rewrite (land_flags _ PTE_U), (land_flags _ PTE_V), mk_pte_flags by (done || lia).
  by destruct Hp as [-> | ->].
Qed.

Lemma tramp_range : 0 ≤ trampoline ∧ trampoline + 4096 ≤ 2 ^ 56 ∧ trampoline mod 4096 = 0.
Proof using Type.
  pose proof image_end. destruct image_trampoline as [??]. unfold PHYSTOP, KERNBASE in *. lia.
Qed.
Lemma page_range p : page_ok p → 0 ≤ p ∧ p + 4096 ≤ 2 ^ 56 ∧ p mod 4096 = 0.
Proof using Type. intros Hp. pose proof (page_ok_pos p Hp). destruct Hp as [? _]. unfold PHYSTOP, KERNBASE in *. lia. Qed.


Lemma new_table s l own r s' l' :
  let own' := <[r := PT r 2 0]> own in
  pt_inv s' l' own' → aspace s' own' r 0 → vm_frame r 0 0 s l own s' l' own' →
  (∀ va, lookup_pte (ram s') r va = 0) → table s l own r 0 (λ _, 0) s' l' own'.
Proof using Type.
  intros own' Hs Ha Hf Hl. split; try done. by eapply vm_frame_widen; [| |exact Hf].
Qed.

(** [proc_pagetable] makes an empty address space with the trampoline and the
    trapframe at the top, or returns 0 and has taken no page. *)
Lemma proc_pagetable_wp k i p l own :
  procs k !! i = Some p → pt_inv (mach k) l own → rooted own → page_ok (p_trapframe p) →
  wp (proc_pagetable i) (λ r k', ∃ s' l' own', k' = upd_mach (λ _, s') k ∧
    (r = 0 ∧ unchanged (mach k) l own s' l' own' ∧ free_pages l < 5 ∨
     page_ok r ∧ own !! r = None ∧ table (mach k) l own r 0 (proc_top (p_trapframe p)) s' l' own' ∧
     free_pages l ≤ 5 + free_pages l')) k.
Proof using Type.
  intros Hp Hs Hro Htf. unfold proc_pagetable. wp_step. eapply wp_at_idx; [exact Hp|].
  apply wp_zoom. set (s := mach k) in *. set (tf := p_trapframe p) in *.
  apply wp_mono with (λ r s', ∃ l' own', r = 0 ∧ unchanged s l own s' l' own' ∧ free_pages l < 5 ∨
    page_ok r ∧ own !! r = None ∧ table s l own r 0 (proc_top tf) s' l' own' ∧ free_pages l ≤ 5 + free_pages l').
  2:{ intros r s' (l' & own' & H). by exists s', l', own'. }
  wp_step. eapply wp_mono; [by apply (uvmcreate_wp s l own)|].
  intros r s1 [(-> & -> & ->)|(l1 & -> & Hs1 & Ha1 & Hf1 & Hl1)].
  { cbn [Z.eqb]. wp_step. exists [], own. left. split; [done|]. by split; [apply unchanged_refl|]. }
  destruct (link_fresh s l1 own r Hs) as (Hr & Hfresh & _). pose proof (page_ok_pos r Hr) as Hpos.
  rewrite (proj2 (Z.eqb_neq r 0)) by (unfold KERNBASE in *; lia).
  pose proof (new_table s (r :: l1) own r s1 l1 Hs1 Ha1 Hf1 Hl1) as T1.
  assert (free_pages (r :: l1) = 1 + free_pages l1) as Hn by (unfold free_pages; cbn [length]; lia).
  assert (0 ≤ 0 ≤ TRAPFRAME) as Hz by done.
  destruct tramp_range as (R1 & R2 & R3). destruct (top_pte _ _ R1 R2 R3 (or_intror eq_refl)) as (P1 & P2 & P3 & P4).
  destruct (page_range _ Htf) as (Q1 & Q2 & Q3). destruct (top_pte _ _ Q1 Q2 Q3 (or_introl eq_refl)) as (F1 & F2 & _ & _).
  wp_step. eapply wp_mono; [apply (table_map s (r :: l1) own r 0 Hz _ TRAMPOLINE _ _ _ _ _ T1); try done|].
  intros e s2 (l2 & own2 & [(-> & T2 & N2)|(-> & T2 & N2)]); cbn [Z.ltb Z.compare].
  2:{ wp_step. eapply wp_mono; [by apply (table_free s (r :: l1) own r 0 Hz (λ _, 0) _ _ _ Hs T2)|].
      intros _ s3 (l3 & own3 & Hfd). wp_step. exists l3, own3. left. split; [done|]. split; [by eapply freed_fresh|lia]. }
  wp_step. eapply wp_mono; [apply (table_map s (r :: l1) own r 0 Hz _ TRAPFRAME _ _ _ _ _ T2); try done|].
  { intros v Hv. unfold set_top. rewrite decide_False; [done|]. rewrite Hv. done. }
  intros e s3 (l3 & own3 & [(-> & T3 & N3)|(-> & T3 & N3)]); cbn [Z.ltb Z.compare].
  { wp_step. exists l3, own3. right. split_and!; try done. lia. }
  wp_step. eapply wp_mono; [apply (table_unmap s (r :: l1) own r 0 Hz _ TRAMPOLINE _ _ _ T3); try done|].
  intros [] s4 T4. wp_step. eapply wp_mono; [apply (table_free s (r :: l1) own r 0 Hz _ _ _ _ Hs T4)|].
  { intros va Hva. unfold set_top. by repeat case_decide. }
  intros _ s5 (l5 & own5 & Hfd). wp_step. exists l5, own5. left. split; [done|]. split; [by eapply freed_fresh|lia].
Qed.

(** ** The end of a process *)

(** The trapframe [tf] and all pages of the table at [root] have been freed. *)
Record reaped (tf root : Z) (s : machine) (l : list Z) (own : gmap Z role)
    (s' : machine) (l' : list Z) (own' : gmap Z role) : Prop := {
  rp_inv : pt_inv s' l' own';
  rp_own : ∀ p r, own' !! p = Some r ↔ own !! p = Some r ∧ p ≠ tf ∧ owner r ≠ Some root;
  rp_free : ∀ p, p ∈ l' ↔ p ∈ l ∨ p = tf ∨ ∃ r, own !! p = Some r ∧ owner r = Some root;
  rp_lookup : ∀ r0 va0, is_root own r0 → r0 ≠ root → 0 ≤ va0 < MAXVA →
    lookup_pte (ram s') r0 va0 = lookup_pte (ram s) r0 va0;
  rp_data : ∀ p r, own' !! p = Some r → (∀ a b c, r ≠ PT a b c) → agree (ram s) (ram s') p 4096;
}.

(** The memory of a process. *)
Record pspace (s : machine) (own : gmap Z role) (root sz tf : Z) : Prop := {
  ps_space : aspace s own root sz;
  ps_top : ∀ va, TRAPFRAME ≤ va < MAXVA → lookup_pte (ram s) root va = proc_top tf va;
}.

Definition cleared (p : proc) : proc :=
  upd_p_state (λ _, UNUSED) (upd_p_xstate (λ _, 0) (upd_p_killed (λ _, false)
  (upd_p_chan (λ _, ChNull) (upd_p_name (λ n, <[0%nat := 0]> n) (upd_p_parent (λ _, None)
  (upd_p_pid (λ _, 0) (upd_p_sz (λ _, 0) (upd_p_pagetable (λ _, 0) (upd_p_trapframe (λ _, 0) p))))))))).

Lemma proc_freepagetable_wp s l own root sz tf :
  pt_inv s l own → pspace s own root sz tf → 0 ≤ sz ≤ TRAPFRAME → page_ok tf →
  wp (uvmunmap root TRAMPOLINE 1 false ;; uvmunmap root TRAPFRAME 1 false ;; uvmfree root sz)
    (λ _ s', ∃ l' own', freed root s l own s' l' own') s.
Proof using Type.
  intros Hs [Ha Ht] Hsz Htf.
  destruct tramp_range as (R1 & R2 & R3). destruct (top_pte _ _ R1 R2 R3 (or_intror eq_refl)) as (P1 & P2 & P3 & P4).
  destruct (page_range _ Htf) as (Q1 & Q2 & Q3). destruct (top_pte _ _ Q1 Q2 Q3 (or_introl eq_refl)) as (F1 & F2 & F3 & F4).
  assert (table s l own root sz (proc_top tf) s l own) as T0.
  { split; try done. apply (vm_frame_widen _ 0 0); [done|done|]. by apply vm_frame_pt; [apply pt_frame_refl|]. }
  wp_step. eapply wp_mono; [apply (table_unmap s l own root sz Hsz _ TRAMPOLINE _ _ _ T0); try done|].
  intros [] s1 T1. wp_step.
  eapply wp_mono; [apply (table_unmap s l own root sz Hsz _ TRAPFRAME _ _ _ T1); try done|].
  intros [] s2 T2. apply (table_free s l own root sz Hsz _ _ _ _ Hs T2).
  intros va Hva. unfold proc_top, set_top. by repeat case_decide.
Qed.

(** A page of no table is freed. *)
Lemma kfree_other s l own p :
  pt_inv s l own → own !! p = Some OtherPage →
  wp (kfree p) (λ _ s', pt_inv s' (p :: l) (delete p own) ∧ same_lookups (ram s) (ram s') own ∧
    ∀ q r, own !! q = Some r → q ≠ p → agree (ram s) (ram s') q 4096) s.
Proof using Type.
  intros Hs Hp. eapply wp_mono; [by apply (kfree_role s l own p OtherPage)|].
  intros _ s' (Hs' & Hout & Ht). split_and!; [done| |].
  - intros r0 va0 Hr0 Hva0. by apply (tables_agree_lookup s l own (ram s') r0 va0).
  - intros q r Hq Hne. apply (same_outside_page p); [done| | |done].
    + by destruct (pt_page _ _ _ Hs _ _ Hp).
    + by destruct (pt_page _ _ _ Hs _ _ Hq).
Qed.

Lemma pspace_kfree s own root sz tf p s' :
  pspace s own root sz tf → 0 ≤ sz ≤ TRAPFRAME → own !! p = Some OtherPage → same_lookups (ram s) (ram s') own →
  pspace s' (delete p own) root sz tf.
Proof using Type.
  intros [[Hr Hm Hf Ht Hpg] Htop] Hsz Hp L. destruct (pgup_bound sz Hsz) as [Hb _].
  pose proof trapframe_max as Htf.
  assert (∀ va, 0 ≤ va < MAXVA → lookup_pte (ram s') root va = lookup_pte (ram s) root va) as L'.
  { intros va Hva. by apply L. }
  assert (0 ≤ TRAPFRAME) as H0 by done. split; [split|].
  - unfold is_root in *. rewrite lookup_delete_ne; congruence.
  - intros va Hva. destruct (Hm va Hva) as (H1 & H2 & H3). unfold mapped_user. rewrite L' by lia.
    split_and!; [done|done|]. rewrite lookup_delete_ne; congruence.
  - intros va Hva. rewrite L' by lia. by apply Hf.
  - intros va Hva. rewrite L' by lia. by apply Ht.
  - intros q vpn [_ Hq]%lookup_delete_Some. destruct (Hpg q vpn Hq). split; [done|]. by rewrite L' by lia.
  - intros va Hva. rewrite L' by lia. by apply Htop.
Qed.

Lemma reaped_both s l own tf root s1 s' l' own' :
  pt_inv s1 (tf :: l) (delete tf own) → same_lookups (ram s) (ram s1) own → own !! tf = Some OtherPage →
  (∀ q r, own !! q = Some r → q ≠ tf → agree (ram s) (ram s1) q 4096) →
  freed root s1 (tf :: l) (delete tf own) s' l' own' → reaped tf root s l own s' l' own'.
Proof using Type.
  intros Hs1 L1 Htf D1 [Hs' Ho Hf L D]. split.
  - done.
  - intros p r. rewrite Ho, lookup_delete_Some. naive_solver.
  - intros p. rewrite Hf, elem_of_cons. setoid_rewrite lookup_delete_Some. split.
    + intros [[->|?]|(r & [_ ?] & ?)]; [by right; left|by left|right; right; eauto].
    + intros [?|[->|(r & Hp & Hr)]]; [by left; right|by left; left|]. right. exists r.
      split_and!; [|done|done]. intros ->. rewrite Htf in Hp. by injection Hp as <-.
  - intros r0 va0 Hr0 Hne Hva0. rewrite L, L1; [done|done|done| |done|done].
    unfold is_root in *. rewrite lookup_delete_ne; congruence.
  - intros p r Hp Hr. apply Ho in Hp as Hp1. destruct Hp1 as [[Hne Hp1]%lookup_delete_Some _].
    eapply agree_trans; [by eapply D1|by eapply D].
Qed.

Lemma zero_free s l own : pt_inv s l own → own !! 0 = None.
Proof using Type.
  intros Hs. destruct (own !! 0) as [r|] eqn:E; [|done]. apply (pt_page _ _ _ Hs), page_ok_pos in E.
  unfold KERNBASE in E. lia.
Qed.
Lemma freed_none s l own : pt_inv s l own → rooted own → freed 0 s l own s l own.
Proof using Type.
  intros Hs Hro. pose proof (fresh_owner s l own 0) as Hno. pose proof (zero_free s l own Hs) as H0.
  split; [done| | |done|done].
  - intros p r. split; [|by intros [? _]]. intros Hp. split; [done|]. by eapply Hno.
  - intros p. split; [by left|]. intros [?|(r & Hp & Hr)]; [done|]. by destruct (Hno p r).
Qed.
Lemma rooted_delete own p : rooted own → own !! p = Some OtherPage → rooted (delete p own).
Proof using Type.
  intros Hro Hp q root vpn [Hne Hq]%lookup_delete_Some. apply Hro in Hq. unfold is_root in *.
  rewrite lookup_delete_ne; congruence.
Qed.

(** [freeproc] gives back all memory of a process and clears its slot. *)
Lemma freeproc_wp k i q l own :
  procs k !! i = Some q → pt_inv (mach k) l own → rooted own →
  own !! p_trapframe q = Some OtherPage → 0 ≤ p_sz q ≤ TRAPFRAME →
  p_pagetable q = 0 ∨ pspace (mach k) own (p_pagetable q) (p_sz q) (p_trapframe q) →
  wp (freeproc i) (λ _ k', ∃ s' l' own', k' = upd_mach (λ _, s') (upd_procs (<[i := cleared q]>) k) ∧
    reaped (p_trapframe q) (p_pagetable q) (mach k) l own s' l' own') k.
Proof using Type.
  intros Hq Hs Hro Htf Hsz Hpt. unfold freeproc. wp_step. eapply wp_at_idx; [exact Hq|].
  assert (page_ok (p_trapframe q)) as Hok by (by eapply pt_page). pose proof (page_ok_pos _ Hok) as Hpos.
  rewrite (proj2 (Z.eqb_neq (p_trapframe q) 0)) by (unfold KERNBASE in *; lia).
  wp_step. apply wp_zoom. eapply wp_mono; [by apply (kfree_other (mach k) l own (p_trapframe q))|].
  intros _ s1 (Hs1 & L1 & D1). wp_step. eapply wp_set_idx; [exact Hq|]. wp_step.
  set (k1 := upd_procs (λ _, <[i := upd_p_trapframe (λ _, 0) q]> (procs (upd_mach (λ _, s1) k))) (upd_mach (λ _, s1) k)).
  apply wp_mono with (λ _ k', ∃ s' l' own', k' = upd_mach (λ _, s') k1 ∧
    freed (p_pagetable q) s1 (p_trapframe q :: l) (delete (p_trapframe q) own) s' l' own').
  { destruct (decide (p_pagetable q = 0)) as [E|E].
    - rewrite E. cbn [Z.eqb]. wp_step. exists s1, (p_trapframe q :: l), (delete (p_trapframe q) own).
      split; [reflexivity|]. by apply freed_none, rooted_delete.
    - rewrite (proj2 (Z.eqb_neq _ _) E). destruct Hpt as [?|Hps]; [contradiction|]. unfold proc_freepagetable.
      apply wp_zoom. eapply wp_mono; [apply (proc_freepagetable_wp s1 (p_trapframe q :: l) (delete (p_trapframe q) own)
        _ _ (p_trapframe q)); [done|by eapply pspace_kfree|done|done]|].
      intros _ s' (l' & own' & Hf). by exists s', l', own'. }
  intros _ k' (s' & l' & own' & -> & Hf).
  eapply wp_set_idx; [cbn; apply list_lookup_insert_eq; by eapply lookup_lt_Some|].
  exists s', l', own'. split; [|by eapply reaped_both].
  unfold upd_mach, upd_procs, k1; cbn. by rewrite list_insert_insert_eq.
Qed.

Lemma freeproc_empty k i q :
  procs k !! i = Some q → p_trapframe q = 0 → p_pagetable q = 0 →
  wp (freeproc i) (λ _ k', k' = upd_procs (<[i := cleared q]>) k) k.
Proof using Type.
  intros Hq Htf Hpt. unfold freeproc. wp_step. eapply wp_at_idx; [exact Hq|]. rewrite Htf, Hpt. cbn [Z.eqb].
  do 2 wp_step. wp_step. eapply wp_set_idx; [exact Hq|]. do 2 wp_step.
  eapply wp_set_idx; [cbn; apply list_lookup_insert_eq; by eapply lookup_lt_Some|].
  unfold upd_procs; cbn. by rewrite list_insert_insert_eq.
Qed.

(** ** Taking it all back

    A page [tf] has been taken for a trapframe and a table built at [root]; when
    both are freed, the memory is as it was. *)

Lemma unchanged_frame root s l own s' l' own' :
  unchanged s l own s' l' own' → vm_frame root 0 MAXVA s l own s' l' own'.
Proof using Type.
  intros [Hs -> Hl L D]. split; try done.
  - intros p Hp. by rewrite <-Hl.
  - auto.
  - intros p Hp. left. by rewrite Hl.
  - intros r0 va0 Hr0 Hva0 _. by apply L.
Qed.

Section undo.
Context (s : machine) (l1 : list Z) (own : gmap Z role) (tf root : Z).
Hypothesis Hs : pt_inv s (tf :: l1) own.
Hypothesis Hro : rooted own.
Hypothesis Hroot : own !! root = None.
Let own1 := <[tf := OtherPage]> own.

Context (s1 s2 : machine) (l2 : list Z) (own2 : gmap Z role).
Hypothesis Hs1 : pt_inv s1 l1 own1.
Hypothesis Hout : same_outside tf (ram s) (ram s1).
Hypothesis Hf : vm_frame root 0 MAXVA s1 l1 own1 s2 l2 own2.

Lemma undo_own p r : own !! p = Some r → p ≠ tf ∧ own1 !! p = Some r ∧ own2 !! p = Some r ∧ owner r ≠ Some root.
Proof using All.
  destruct (link_fresh s l1 own tf Hs) as (_ & Hfresh & _). intros Hp. assert (p ≠ tf) as Hne by congruence.
  assert (own1 !! p = Some r) as Hp1 by (unfold own1; by rewrite lookup_insert_ne).
  split_and!; [done|done| |by apply (fresh_owner s (tf :: l1) own root p r)]. eapply lookup_weaken; [exact Hp1|apply Hf].
Qed.

Lemma undo_new p r : own2 !! p = Some r → own !! p = Some r ∨ p = tf ∧ r = OtherPage ∨ p ∈ l1 ∧ owner r = Some root.
Proof using All.
  intros Hp. destruct (vf_new _ _ _ _ _ _ _ _ _ Hf p r Hp) as [Hp1|(? & [(? & ? & ->)|(? & -> & _)])]; [|auto..].
  unfold own1 in Hp1. rewrite lookup_insert in Hp1. case_decide; [injection Hp1 as <-|]; auto.
Qed.

Lemma undo_before p r : own !! p = Some r → agree (ram s) (ram s1) p 4096.
Proof using All.
  destruct (link_fresh s l1 own tf Hs) as (Hok & Hfresh & _).
  destruct (same_outside_tables tf (ram s) (ram s1) s (tf :: l1) own Hs Hok Hfresh Hout) as [_ Ha]. apply Ha.
Qed.

Lemma undo_lookup r0 va0 : is_root own r0 → 0 ≤ va0 < MAXVA → lookup_pte (ram s2) r0 va0 = lookup_pte (ram s) r0 va0.
Proof using All.
  intros Hr0 Hva0. destruct (link_fresh s l1 own tf Hs) as (Hok & Hfresh & _).
  destruct (same_outside_tables tf (ram s) (ram s1) s (tf :: l1) own Hs Hok Hfresh Hout) as [Ht _].
  destruct (undo_own _ _ Hr0) as (_ & Hr1 & _ & _).
  rewrite (vf_lookup _ _ _ _ _ _ _ _ _ Hf r0 va0 Hr1 Hva0).
  - by apply (tables_agree_lookup s (tf :: l1) own (ram s1) r0 va0).
  - intros [-> _]. unfold is_root in Hr0. congruence.
Qed.

Lemma reaped_undo s3 l3 own3 : reaped tf root s2 l2 own2 s3 l3 own3 → unchanged s (tf :: l1) own s3 l3 own3.
Proof using All.
  intros [Hs3 Ho Hfr L D].
  assert (∀ p r, own3 !! p = Some r ↔ own !! p = Some r) as Hown.
  { intros p r. rewrite Ho. split.
    - intros (Hp & Hne & Hnr). by destruct (undo_new p r Hp) as [?|[[? _]|[_ ?]]].
    - intros Hp. destruct (undo_own p r Hp) as (? & _ & ? & ?). done. }
  assert (own3 = own) as Heq by (apply map_eq; intros p; apply option_eq; intros r; apply Hown).
  split; [done|done| | |].
  - apply NoDup_Permutation; [by eapply free_nodup|by eapply free_nodup|]. intros p. rewrite Hfr, elem_of_cons. split.
    + intros [Hp|[->|(r & Hp & Hr)]]; [right; by apply Hf|by left|].
      destruct (undo_new p r Hp) as [Hp0|[[? ->]|[? _]]]; [|done|by right].
      by destruct (undo_own p r Hp0) as (_ & _ & _ & ?).
    + intros [->|Hp]; [by right; left|]. destruct (vf_all _ _ _ _ _ _ _ _ _ Hf p Hp) as [?|[r Hr]]; [by left|].
      right. right. exists r. split; [done|]. destruct (undo_new p r Hr) as [Hp0|[[-> _]|[_ ?]]]; [| |done].
      * rewrite (pt_free _ _ _ Hs p) in Hp0; [done|by right].
      * destruct (link_fresh s l1 own tf Hs) as (_ & _ & ?). done.
  - intros r0 va0 Hr0 Hva0. rewrite L; [by apply undo_lookup|by apply undo_own| |done].
    intros ->. unfold is_root in Hr0. congruence.
  - intros p r Hp Hr. destruct (undo_own p r Hp) as (_ & Hp1 & Hp2 & _).
    eapply agree_trans; [by eapply undo_before|]. eapply agree_trans; [by eapply (vf_data _ _ _ _ _ _ _ _ _ Hf)|].
    eapply D; [by apply Hown|done].
Qed.
End undo.

(** ** Writing to a page of the kernel *)

Lemma write_other s l own p f :
  pt_inv s l own → own !! p = Some OtherPage → same_outside p (ram s) (f (ram s)) → bytes_ok (f (ram s)) →
  let s' := set_ram f s in pt_inv s' l own ∧ same_lookups (ram s) (ram s') own ∧
  ∀ q r, own !! q = Some r → q ≠ p → agree (ram s) (ram s') q 4096.
Proof using Type.
  intros Hs Hp Hout Hb s'. destruct (pt_kmem _ _ _ Hs) as [_ Hl Hn Hk].
  assert (page_ok p) as [Hpa _] by (by eapply pt_page).
  assert (∀ q r, own !! q = Some r → q ≠ p → agree (ram s) (ram s') q 4096) as Ha.
  { intros q r Hq Hne. apply (same_outside_page p); [done|done| |done]. by destruct (pt_page _ _ _ Hs _ _ Hq). }
  assert (tables_agree own (ram s) (ram s')) as Ht.
  { intros q a b c Hq. eapply Ha; [exact Hq|]. congruence. }
  split_and!; [|intros r0 va0 Hr0 Hva0; by apply (tables_agree_lookup s l own (ram s') r0 va0)|done].
  eapply pt_inv_pres; [exact Hs| |apply Hs|apply Hs|done|exact Ht]. split; [done| |done|done].
  eapply (fl_rep_outside p); [exact Hl|done|done|done|]. intros Hin. by rewrite (pt_free _ _ _ Hs p Hin) in Hp.
Qed.

Lemma pspace_write s own root sz tf p s' :
  pspace s own root sz tf → 0 ≤ sz ≤ TRAPFRAME → same_lookups (ram s) (ram s') own → own !! p = Some OtherPage →
  pspace s' own root sz tf.
Proof using Type.
  intros Hps Hsz L Hp. destruct (pspace_kfree s own root sz tf p s' Hps Hsz Hp L) as [[Hr Hm Hf Ht Hpg] Htop].
  assert (∀ q r, delete p own !! q = Some r → own !! q = Some r) as Hd by (by intros q r [_ ?]%lookup_delete_Some).
  split; [split|]; try done.
  - by apply Hd.
  - intros va Hva. destruct (Hm va Hva) as (? & ? & ?). split_and!; auto.
  - intros q vpn Hq. apply Hpg. rewrite lookup_delete_ne; congruence.
Qed.
End procmem.
