(* ===== verification/ForkSpec.v ===== *)
(** * fork

    [allocproc] and [fork] of [kernel/proc.c]: the child is a copy of its parent
    in memory of its own, and a [fork] that fails leaves the memory as it was. *)

From S2P Require Import Prelude Riscv Memory CString Kalloc Vm PageTable Mapping UserCopy Uvm UvmFree State Bytes Sched Printf Bio BioSpec Log Fs Console Pipe File Proc ProcMem.

Section fork.
Context {I : Image} {T : Text}.

(** ** Slots *)

(** A slot of the process table that is not in use. *)
Record idle_slot (q : proc) : Prop := {
  id_state : p_state q = UNUSED;
  id_pt : p_pagetable q = 0;
  id_sz : p_sz q = 0;
  id_files : p_ofile q = replicate (Z.to_nat NOFILE) None;
  id_vma : length (p_vma q) = Z.to_nat VMA_MAX;
  id_name : length (p_name q) = 16%nat;
}.

(** A slot that [allocproc] has taken, before and after it has its memory. *)
Definition started (q : proc) (pid : Z) : proc :=
  upd_p_vma_top (λ _, MAXVA - 2 * PGSIZE)
  (upd_p_vma (fmap (λ v, upd_v_refcnt (λ _, 0) (upd_v_valid (λ _, false) v)))
  (upd_p_state (λ _, USED) (upd_p_pid (λ _, pid) q))).
Definition embryo (q : proc) (pid tf pt : Z) : proc :=
  upd_ctx_sp (λ _, p_kstack q + PGSIZE) (upd_ctx_ra (λ _, forkret_addr)
  (upd_p_pagetable (λ _, pt) (upd_p_trapframe (λ _, tf) (started q pid)))).

Lemma idle_cleared q q' :
  idle_slot q → p_ofile q' = p_ofile q → length (p_vma q') = length (p_vma q) → length (p_name q') = length (p_name q) →
  idle_slot (cleared q').
Proof using Type.
  intros [H1 H2 H3 H4 H5 H6] Ho Hv Hn. split; cbn; try done; [congruence|congruence|].
  rewrite length_insert. congruence.
Qed.

(** [k] with a new process table, memory and next pid. *)
Definition with_slot (k : kernel) (s : machine) (i : nat) (q : proc) : kernel :=
  upd_mach (λ _, s) (upd_nextpid (λ n, n + 1) (upd_procs (<[i := q]>) k)).

Lemma slot_slot k s i q s' q' :
  upd_mach (λ _, s') (upd_procs (<[i := q']>) (with_slot k s i q)) = with_slot k s' i q'.
Proof using Type. unfold with_slot, upd_mach, upd_nextpid, upd_procs; cbn. by rewrite list_insert_insert_eq. Qed.

Lemma slot_lookup k s i q q0 : procs k !! i = Some q0 → procs (with_slot k s i q) !! i = Some q.
Proof using Type. intros Hi. cbn. apply list_lookup_insert_eq. by eapply lookup_lt_Some. Qed.

Lemma slot_set k s i q q0 f (Q : unit → kernel → Prop) :
  procs k !! i = Some q0 → Q tt (with_slot k s i (f q)) → wp (set_proc i f) Q (with_slot k s i q).
Proof using Type.
  intros Hi HQ. eapply wp_set_idx; [by eapply slot_lookup|].
  unfold with_slot, upd_mach, upd_nextpid, upd_procs in *; cbn in *. by rewrite list_insert_insert_eq.
Qed.

(** ** allocproc *)

(** The memory that [allocproc] has given to a process: the page [tf], which
    leaves [s1], and a table. *)
Record born (s : machine) (l : list Z) (own : gmap Z role) (tf pt : Z) (s1 : machine) (l1 : list Z)
    (s' : machine) (l' : list Z) (own' : gmap Z role) : Prop := {
  bn_list : l = tf :: l1;
  bn_out : same_outside tf (ram s) (ram s1);
  bn_inv : pt_inv s1 l1 (<[tf := OtherPage]> own);
  bn_pt : own !! pt = None;
  bn_page : page_ok pt;
  bn_table : table s1 l1 (<[tf := OtherPage]> own) pt 0 (proc_top tf) s' l' own';
  bn_len : free_pages l ≤ 6 + free_pages l';
}.

Lemma rooted_insert own p : rooted own → own !! p = None → rooted (<[p := OtherPage]> own).
Proof using Type.
  intros Hro Hp q root vpn Hq. rewrite lookup_insert in Hq. case_decide; [done|]. apply Hro in Hq.
  unfold is_root in *. rewrite lookup_insert_ne; congruence.
Qed.

Lemma take_trapframe s l1 own tf s1 :
  pt_inv s (tf :: l1) own → pt_inv s1 l1 own → same_outside tf (ram s) (ram s1) →
  pt_inv s1 l1 (<[tf := OtherPage]> own).
Proof using Type.
  intros Hs Hs1 Hout. destruct (link_fresh s l1 own tf Hs) as (Hok & Hfresh & Hnin).
  apply (give_role s1); try done. apply (pt_kmem _ _ _ Hs1).
Qed.

Lemma taken_lookup s l1 own tf s1 root va :
  pt_inv s (tf :: l1) own → same_outside tf (ram s) (ram s1) → is_root own root → 0 ≤ va < MAXVA →
  lookup_pte (ram s1) root va = lookup_pte (ram s) root va.
Proof using Type.
  intros Hs Hout Hr Hva. destruct (link_fresh s l1 own tf Hs) as (Hok & Hfresh & _).
  destruct (same_outside_tables tf (ram s) (ram s1) s (tf :: l1) own Hs Hok Hfresh Hout) as [Ht _].
  by apply (tables_agree_lookup s (tf :: l1) own (ram s1) root va).
Qed.

Lemma allocproc_wp k i q l own :
  list_find (λ p, p_state p = UNUSED) (procs k) = Some (i, q) → idle_slot q → pt_inv (mach k) l own → rooted own →
  wp allocproc (λ o k', ∃ s' l' own',
    o = None ∧ k' = with_slot k s' i (cleared (started q (nextpid k))) ∧ unchanged (mach k) l own s' l' own' ∧
      free_pages l < 6 ∨
    ∃ tf pt s1 l1, o = Some i ∧ k' = with_slot k s' i (embryo q (nextpid k) tf pt) ∧
      born (mach k) l own tf pt s1 l1 s' l' own') k.
Proof using Type.
  intros Hfind Hid Hs Hro. pose proof Hfind as (Hi & _ & _)%list_find_Some.
  unfold allocproc. wp_step. wp_step. rewrite Hfind. wp_step. unfold allocpid. wp_steps.
  eapply wp_set_idx; [exact Hi|]. wp_step. apply wp_zoom. fold (started q (nextpid k)).
  eapply wp_mono; [by apply (kalloc_role (mach k) l own)|].
  intros tf s1 [(-> & -> & ->)|(l1 & -> & Hne & Hok & Hfresh & Hnin & Hs1 & Hout)].
  { change (upd_mach _ _) with (with_slot k (mach k) i (started q (nextpid k))).
    wp_step. eapply slot_set; [exact Hi|]. cbn [Z.eqb]. wp_step.
    eapply wp_mono; [apply freeproc_empty; [by eapply slot_lookup|done|apply Hid]|].
    intros _ k' ->. wp_step. exists (mach k), [], own. left. split; [done|]. split; [|by split; [apply unchanged_refl|]].
    apply (slot_slot k (mach k) i _ (mach k)). }
  change (upd_mach _ _) with (with_slot k s1 i (started q (nextpid k))).
  wp_step. eapply slot_set; [exact Hi|]. rewrite (proj2 (Z.eqb_neq _ _) Hne). wp_step.
  pose proof (take_trapframe _ _ _ _ _ Hs Hs1 Hout) as Hs1'. pose proof (rooted_insert own tf Hro Hfresh) as Hro1.
  eapply wp_mono; [eapply (proc_pagetable_wp _ i _ l1 (<[tf := OtherPage]> own)); [by eapply slot_lookup|exact Hs1'|exact Hro1|exact Hok]|].
  cbn [p_trapframe upd_p_trapframe].
  assert (free_pages (tf :: l1) = 1 + free_pages l1) as Hn by (unfold free_pages; cbn [length]; lia).
  intros pt k2 (s2 & l2 & own2 & -> & [(-> & Hun & Hlen)|(Hpt & Hpf & Htb & Hlen)]).
  - change (upd_mach (λ _, s2) (with_slot _ _ _ ?x)) with (with_slot k s2 i x).
    wp_step. eapply slot_set; [exact Hi|]. cbn [Z.eqb]. wp_step. pose proof Hun as [Hs2 -> _ _ _].
    eapply wp_mono; [eapply freeproc_wp; [by eapply slot_lookup|exact Hs2|exact Hro1|apply lookup_insert_eq|..]|].
    + cbn. by rewrite (id_sz _ Hid).
    + by left.
    + intros _ k' (s3 & l3 & own3 & -> & Hrp). wp_step. exists s3, l3, own3. left. split; [done|].
      rewrite slot_slot. split; [done|]. cbn in Hrp. split; [|lia].
      eapply (reaped_undo (mach k) l1 own tf 0); try done; [by eapply zero_free|by eapply unchanged_frame].
  - change (upd_mach (λ _, s2) (with_slot _ _ _ ?x)) with (with_slot k s2 i x).
    wp_step. eapply slot_set; [exact Hi|]. pose proof (page_ok_pos pt Hpt) as Hpos.
    rewrite (proj2 (Z.eqb_neq pt 0)) by (unfold KERNBASE in *; lia). wp_step. eapply slot_set; [exact Hi|].
    wp_step. exists s2, l2, own2. right. exists tf, pt, s1, l1. split; [done|]. split; [done|]. split; try done; [|lia].
    rewrite lookup_insert_ne in Hpf; [done|]. intros ->. by rewrite lookup_insert_eq in Hpf.
Qed.

(** ** Sharing files

    [fork] takes a reference to every file that a mapping or a descriptor of the
    parent refers to. *)

Definition incr : file → file := upd_f_ref (λ r, r + 1).
Definition dups (fs : list nat) (ft : list file) : list file := foldl (λ ft f, alter incr f ft) ft fs.
Definition uses (f : nat) (fs : list nat) : Z := Z.of_nat (length (filter (λ g, g = f) fs)).

Lemma dups_snoc fs f ft : dups (fs ++ [f]) ft = alter incr f (dups fs ft).
Proof using Type. unfold dups. by rewrite foldl_app. Qed.
Lemma dups_app fs gs ft : dups (fs ++ gs) ft = dups gs (dups fs ft).
Proof using Type. unfold dups. by rewrite foldl_app. Qed.

Lemma dups_lookup fs ft f : dups fs ft !! f = upd_f_ref (λ r, r + uses f fs) <$> ft !! f.
Proof using Type.
  induction fs as [|g fs IH] using rev_ind.
  - cbn. destruct (ft !! f) as [[]|]; cbn; [|done]. unfold uses, upd_f_ref; cbn. by rewrite Z.add_0_r.
  - rewrite dups_snoc. unfold uses. rewrite filter_app, length_app, Nat2Z.inj_add. fold (uses f fs).
    destruct (decide (g = f)) as [->|Hne].
    + rewrite list_lookup_alter_eq, IH, filter_cons_True by done. cbn. destruct (ft !! f) as [[]|]; cbn; [|done].
      unfold incr, upd_f_ref; cbn. do 2 f_equal. lia.
    + rewrite list_lookup_alter_ne, IH, filter_cons_False by done. cbn. by rewrite Z.add_0_r.
Qed.

Lemma uses_nonneg f fs : 0 ≤ uses f fs.
Proof using Type. unfold uses. lia. Qed.

Section copy.
Context {A : Type} (sel : proc → list A) (upd : (list A → list A) → proc → proc) (file_of : A → option nat).
Hypothesis upd_upd : ∀ f g p, upd f (upd g p) = upd (λ x, f (g x)) p.
Context (np : nat) (vs : list A) (body : Z → M kernel unit).
Definition pick (v c : A) : A := if file_of v is Some _ then v else c.
Definition dup_step (k : kernel) (j : nat) (v : A) (q : proc) : kernel :=
  match file_of v with
  | None => k
  | Some f => upd_procs (<[np := upd (<[j := v]>) q]>) (upd_ftable (alter incr f) k)
  end.
Hypothesis body_ok : ∀ j v k q, vs !! j = Some v → procs k !! np = Some q →
  (∀ f, file_of v = Some f → ∃ x, ftable k !! f = Some x ∧ 1 ≤ f_ref x) →
  wp (body (Z.of_nat j)) (λ _ k', k' = dup_step k j v q) k.

(** After [n] entries. *)
Definition copied (n : nat) (cs : list A) : list A := zip_with pick (take n vs) (take n cs) ++ drop n cs.
Definition copy_state (k : kernel) (q : proc) (n : nat) : kernel :=
  upd_procs (<[np := upd (λ _, copied n (sel q)) q]>) (upd_ftable (dups (omap file_of (take n vs))) k).

Lemma copied_S n cs v c :
  vs !! n = Some v → cs !! n = Some c →
  copied (S n) cs = if file_of v is Some _ then <[n := v]> (copied n cs) else copied n cs.
Proof using Type.
  intros Hv Hc. unfold copied. pose proof (lookup_lt_Some _ _ _ Hv) as L1. pose proof (lookup_lt_Some _ _ _ Hc) as L2.
  rewrite (take_S_r _ _ _ Hv), (take_S_r _ _ _ Hc), (drop_S _ _ _ Hc).
  rewrite zip_with_app by (rewrite !length_take; lia). cbn [zip_with]. rewrite <-app_assoc. cbn [app].
  set (Z := zip_with _ _ _). assert (length Z = n) as HZ.
  { unfold Z. rewrite length_zip_with, !length_take. lia. }
  unfold pick at 1. destruct (file_of v); [|done]. by rewrite insert_app_r_alt, HZ, Nat.sub_diag by lia.
Qed.

Lemma copy_state_0 k q : upd (λ _, sel q) q = q → procs k !! np = Some q → copy_state k q 0 = k.
Proof using Type.
  intros Hid Hq. unfold copy_state. change (copied 0 (sel q)) with (sel q). rewrite Hid.
  unfold dups, upd_procs, upd_ftable. cbn. rewrite list_insert_id by done. by destruct k.
Qed.

Lemma copy_state_S k q n v :
  vs !! n = Some v → length (sel q) = length vs → procs k !! np = Some q →
  dup_step (copy_state k q n) n v (upd (λ _, copied n (sel q)) q) = copy_state k q (S n).
Proof using upd_upd.
  intros Hv Hlen Hq. assert (is_Some (sel q !! n)) as [c Hc].
  { apply lookup_lt_is_Some. rewrite Hlen. by eapply lookup_lt_Some. }
  unfold dup_step, copy_state. rewrite (copied_S n (sel q) v c Hv Hc), (take_S_r _ _ _ Hv), omap_app. cbn [omap list_omap].
  destruct (file_of v) as [f|]; [|by rewrite app_nil_r]. rewrite upd_upd.
  unfold upd_procs, upd_ftable; cbn. by rewrite list_insert_insert_eq, dups_snoc.
Qed.

Lemma copy_loop k q :
  upd (λ _, sel q) q = q → procs k !! np = Some q → length (sel q) = length vs →
  (∀ f, f ∈ omap file_of vs → ∃ x, ftable k !! f = Some x ∧ 1 ≤ f_ref x) →
  wp (forM (seqZ 0 (Z.of_nat (length vs))) body) (λ _ k', k' =
    upd_procs (<[np := upd (λ _, zip_with pick vs (sel q)) q]>) (upd_ftable (dups (omap file_of vs)) k)) k.
Proof using upd_upd body_ok.
  intros Hid Hq Hlen Hfs.
  eapply wp_mono; [apply (wp_forM _ _ (λ js k', ∃ n, (n ≤ length vs)%nat ∧
    js = seqZ (Z.of_nat n) (Z.of_nat (length vs) - Z.of_nat n) ∧ k' = copy_state k q n))|].
  - exists 0%nat. rewrite copy_state_0, Z.sub_0_r by done. split_and!; [lia|done|done].
  - intros j js k1 (n & Hn & Hjs & ->). destruct (decide (n = length vs)) as [->|Hne].
    { by rewrite Z.sub_diag in Hjs. }
    rewrite seqZ_cons in Hjs by lia. injection Hjs as -> ->.
    destruct (lookup_lt_is_Some_2 vs n) as [v Hv]; [lia|].
    assert (procs (copy_state k q n) !! np = Some (upd (λ _, copied n (sel q)) q)) as Hq1.
    { cbn. apply list_lookup_insert_eq. by eapply lookup_lt_Some. }
    eapply wp_mono; [apply (body_ok n v _ _ Hv Hq1)|].
    { intros f Hf. destruct (Hfs f) as (x & Hx & Hr).
      { apply list_elem_of_omap. exists v. split; [by eapply list_elem_of_lookup_2|done]. }
      cbn. rewrite dups_lookup, Hx. eexists. split; [done|]. cbn.
      pose proof (uses_nonneg f (omap file_of (take n vs))). lia. }
    intros _ k2 ->. rewrite copy_state_S by done. exists (S n). split_and!; [lia| |done]. f_equal; lia.
  - intros _ k' (n & Hn & Hjs & ->). assert (n = length vs) as ->.
    { destruct (decide (n = length vs)); [done|]. rewrite seqZ_cons in Hjs by lia. done. }
    unfold copy_state, copied. rewrite firstn_all, <-Hlen, firstn_all, drop_all, app_nil_r. done.
Qed.
End copy.

(** ** The memory of the child *)

(** The registers that a process had when it entered the kernel, with [a0] set
    to 0. *)
Definition child_regs (tfp tfc : Z) (m : mem) : mem :=
  store64 (store_bytes m tfc (load_bytes m tfp (Z.to_nat TF_SIZE))) (tfc + TF_a 0) (u64 0).

Lemma child_regs_spec tfp tfc m :
  bytes_ok m → same_outside tfc m (child_regs tfp tfc m) ∧ bytes_ok (child_regs tfp tfc m) ∧
  ∀ i, 0 ≤ i < TF_SIZE → load8 (child_regs tfp tfc m) (tfc + i) =
    if decide (TF_a 0 ≤ i < TF_a 0 + 8) then 0 else load8 m (tfp + i).
Proof using Type.
  intros Hb. unfold child_regs, TF_SIZE, TF_a. change (u64 0) with 0. split_and!.
  - intros x Hx. rewrite load8_store64, decide_False by lia.
    rewrite load8_store_bytes, length_load_bytes, decide_False by lia. done.
  - by apply store64_ok, store_bytes_ok.
  - intros i Hi. rewrite load8_store64. case_decide.
    + rewrite decide_True by lia. by rewrite Z.div_0_l by (apply Z.pow_nonzero; lia).
    + rewrite decide_False by lia. rewrite load8_store_bytes, length_load_bytes, decide_True by lia.
      rewrite load_bytes_lookup by lia. cbn [default]. replace (tfp + Z.of_nat _) with (tfp + i) by lia.
      specialize (Hb (tfp + i)). unfold u8. by rewrite Z.mod_small.
Qed.

Record fork_mem (s : machine) (l : list Z) (own : gmap Z role) (ppt ptf sz tf pt : Z)
    (s' : machine) (l' : list Z) (own' : gmap Z role) : Prop := {
  fm_inv : pt_inv s' l' own';
  fm_rooted : rooted own';
  fm_own : own ⊆ own';
  fm_lookup : same_lookups (ram s) (ram s') own;
  fm_data : ∀ p r, own !! p = Some r → (∀ a b c, r ≠ PT a b c) → agree (ram s) (ram s') p 4096;
  fm_fresh : own !! pt = None ∧ own !! tf = None;
  fm_page : own' !! tf = Some OtherPage;
  fm_space : pspace s' own' pt sz tf;
  fm_copy : ∀ va, 0 ≤ va < PGROUNDUP sz →
    PTE_FLAGS (lookup_pte (ram s') pt va) = PTE_FLAGS (lookup_pte (ram s) ppt va) ∧
    user_load (ram s') pt va = user_load (ram s) ppt va;
  fm_regs : ∀ i, 0 ≤ i < TF_SIZE → load8 (ram s') (tf + i) =
    if decide (TF_a 0 ≤ i < TF_a 0 + 8) then 0 else load8 (ram s) (ptf + i);
}.

Section memory.
Context (s : machine) (l : list Z) (own : gmap Z role) (ppt ptf sz tf pt : Z).
Context (s1 : machine) (l1 : list Z) (s2 : machine) (l2 : list Z) (own2 : gmap Z role).
Hypothesis Hs : pt_inv s l own.
Hypothesis Hro : rooted own.
Hypothesis Hroot : is_root own ppt.
Hypothesis Hmap : ∀ va, 0 ≤ va < PGROUNDUP sz → mapped_user s own ppt va.
Hypothesis Hsz : 0 ≤ sz ≤ TRAPFRAME.
Hypothesis Hptf : own !! ptf = Some OtherPage.
Hypothesis Hb : born s l own tf pt s1 l1 s2 l2 own2.

Lemma born_own p r : own !! p = Some r → p ≠ tf ∧ own2 !! p = Some r ∧ ((∀ a b c, r ≠ PT a b c) → agree (ram s) (ram s2) p 4096).
Proof using Hs Hro Hb.
  destruct Hb as [-> Ho Hi Hpt _ [_ Hf _ _] _]. intros Hp.
  destruct (undo_own s l1 own tf pt Hs Hro Hpt s1 s2 l2 own2 Hi Ho Hf p r Hp) as (Hne & Hp1 & Hp2 & _).
  split_and!; [done|done|]. intros Hr. eapply agree_trans; [|by eapply (vf_data _ _ _ _ _ _ _ _ _ Hf)].
  by eapply (undo_before s l1 own tf pt).
Qed.
Lemma born_lookup r0 va0 : is_root own r0 → 0 ≤ va0 < MAXVA → lookup_pte (ram s2) r0 va0 = lookup_pte (ram s) r0 va0.
Proof using Hs Hro Hb.
  destruct Hb as [-> Ho Hi Hpt _ [_ Hf _ _] _]. by apply (undo_lookup s l1 own tf pt Hs Hro Hpt s1 s2 l2 own2 Hi Ho Hf).
Qed.
Lemma born_tf : own !! tf = None ∧ own2 !! tf = Some OtherPage.
Proof using Hs Hb.
  destruct Hb as [-> Ho Hi Hpt _ [_ Hf _ _] _]. destruct (link_fresh s l1 own tf Hs) as (_ & ? & _). split; [done|].
  eapply lookup_weaken; [|apply Hf]. apply lookup_insert_eq.
Qed.
Lemma born_mapped va : 0 ≤ va < PGROUNDUP sz → mapped_user s2 own2 ppt va ∧
  lookup_pte (ram s2) ppt va = lookup_pte (ram s) ppt va ∧ user_load (ram s2) ppt va = user_load (ram s) ppt va.
Proof using All.
  intros Hva. destruct (pgup_bound sz Hsz) as [Hbd _]. pose proof trapframe_max.
  pose proof (born_lookup ppt va Hroot) as L. destruct (Hmap va Hva) as (Hv & Hfl & Hown).
  destruct (born_own _ _ Hown) as (_ & Hown2 & Hd). unfold mapped_user, user_load. rewrite L by lia.
  split_and!; try done. apply Hd; [done|]. pose proof (Z.mod_pos_bound va 4096). lia.
Qed.
Lemma born_copy : wp (uvmcopy ppt pt sz) (λ r s', ∃ l' own', pt_inv s' l' own' ∧
    (r = 0 ∧ aspace s' own' pt sz ∧ vm_frame pt 0 (PGROUNDUP sz) s2 l2 own2 s' l' own' ∧
     (∀ va, 0 ≤ va < PGROUNDUP sz →
        PTE_FLAGS (lookup_pte (ram s') pt va) = PTE_FLAGS (lookup_pte (ram s2) ppt va) ∧
        user_load (ram s') pt va = user_load (ram s2) ppt va) ∨
     r = -1 ∧ aspace s' own' pt 0 ∧ pt_frame pt s2 l2 own2 s' l' own' ∧
       vm_frame pt 0 TRAPFRAME s2 l2 own2 s' l' own' ∧ free_pages l2 < 3 * (PGROUNDUP sz / 4096))) s2.
Proof using All.
  destruct (born_own _ _ Hroot) as (_ & Hr2 & _). pose proof Hb as [_ _ _ Hpt _ [Hs2 _ Ha _] _].
  apply (uvmcopy_wp s2 l2 own2 ppt pt sz); try done.
  - intros ->. unfold is_root in Hroot. congruence.
  - intros va Hva. by apply born_mapped.
Qed.

Context (s3 : machine) (l3 : list Z) (own3 : gmap Z role).
Hypothesis Hs3 : pt_inv s3 l3 own3.

Lemma born_frame hi : 0 ≤ hi ≤ MAXVA → vm_frame pt 0 hi s2 l2 own2 s3 l3 own3 →
  vm_frame pt 0 MAXVA s1 l1 (<[tf := OtherPage]> own) s3 l3 own3.
Proof using Hb.
  intros Hhi Hf. destruct Hb as [_ _ _ _ _ [_ Hf2 _ _] _]. eapply vm_frame_trans; [exact Hf2|].
  eapply vm_frame_widen; [| |exact Hf]; lia.
Qed.

Lemma born_space z hi :
  aspace s3 own3 pt z → vm_frame pt 0 hi s2 l2 own2 s3 l3 own3 → hi ≤ TRAPFRAME → pspace s3 own3 pt z tf.
Proof using Hb.
  intros Ha [_ _ _ _ _ L] Hhi. destruct Hb as [_ _ _ _ _ [_ _ Ha2 Ht] _]. split; [done|].
  assert (0 ≤ TRAPFRAME) by done.
  intros va Hva. rewrite L; [by apply Ht|apply Ha2|lia|lia].
Qed.

Lemma born_forked :
  aspace s3 own3 pt sz → vm_frame pt 0 (PGROUNDUP sz) s2 l2 own2 s3 l3 own3 →
  (∀ va, 0 ≤ va < PGROUNDUP sz →
     PTE_FLAGS (lookup_pte (ram s3) pt va) = PTE_FLAGS (lookup_pte (ram s2) ppt va) ∧
     user_load (ram s3) pt va = user_load (ram s2) ppt va) →
  fork_mem s l own ppt ptf sz tf pt (set_ram (child_regs ptf tf) s3) l3 own3.
Proof using All.
  intros Ha Hf Hc. pose proof Hf as [Ho3 D3 _ _ _ L3]. pose proof Hb as [_ _ _ Hpt _ [_ _ Ha2 _] _].
  destruct (pgup_bound sz Hsz) as [Hbd _]. pose proof trapframe_max as Htm. destruct born_tf as [Htf0 Htf2].
  assert (own3 !! tf = Some OtherPage) as Htf3 by (by eapply lookup_weaken).
  destruct (child_regs_spec ptf tf (ram s3)) as (Hout & Hbo & Hregs); [apply (pt_kmem _ _ _ Hs3)|].
  destruct (write_other s3 l3 own3 tf (child_regs ptf tf) Hs3 Htf3 Hout Hbo) as (Hs4 & L4 & D4).
  set (s4 := set_ram _ _) in *.
  assert (∀ p r, own !! p = Some r → own3 !! p = Some r) as Hsub.
  { intros p r Hp. eapply lookup_weaken; [|exact Ho3]. by apply born_own. }
  assert (∀ p r, own !! p = Some r → (∀ a b c, r ≠ PT a b c) → agree (ram s) (ram s3) p 4096) as D.
  { intros p r Hp Hr. destruct (born_own p r Hp) as (_ & Hp2 & Hd).
    eapply agree_trans; [by apply Hd|by eapply D3]. }
  pose proof (born_space sz _ Ha Hf) as Hps. split.
  - done.
  - eapply (rooted_frame pt); [|apply Ha|by apply (born_frame (PGROUNDUP sz)); [lia|]]. by apply rooted_insert.
  - by apply map_subseteq_spec.
  - intros r0 va0 Hr0 Hva0. rewrite L4 by first [by apply Hsub|done].
    rewrite L3; [by apply born_lookup|by apply born_own|done|]. intros [-> _]. unfold is_root in Hr0. congruence.
  - intros p r Hp Hr. eapply agree_trans; [by eapply D|]. eapply D4; [by apply Hsub|]. congruence.
  - done.
  - done.
  - eapply pspace_write; [apply Hps; lia|done|exact L4|exact Htf3].
  - intros va Hva. destruct (Hc va Hva) as [Hfl Hby]. destruct (born_mapped va Hva) as (_ & <- & <-).
    rewrite <-Hfl, <-Hby. unfold user_load. rewrite L4 by (apply Ha || lia). split; [done|].
    destruct (as_mapped _ _ _ _ Ha va Hva) as (_ & _ & Hown). eapply D4; [exact Hown|congruence|].
    pose proof (Z.mod_pos_bound va 4096). lia.
  - intros i Hi. unfold s4, set_ram; cbn [ram]. rewrite Hregs by done. case_decide; [done|].
    apply (D _ _ Hptf); [done|]. unfold TF_SIZE in Hi. lia.
Qed.
End memory.
End fork.
