(* ===== verification/ForkThm.v ===== *)
(** * The child of a fork

    [fork] of [kernel/proc.c] as a whole, and [wait], which takes a child that
    has ended apart again. *)

From S2P Require Import Prelude Riscv Memory CString Kalloc Vm PageTable Mapping UserCopy Uvm UvmFree State Bytes Sched Printf Bio BioSpec Log Fs Console Pipe File Proc ProcMem ForkSpec.

Section fork.
Context {I : Image} {T : Text} (me : nat).

(** ** Files and mappings *)

Definition vma_file (v : vma) : option nat := if v_valid v then v_f v else None.
Definition fd_file (o : option nat) : option nat := o.

(** The files to which a process holds references. *)
Definition held (p : proc) : list nat := omap vma_file (p_vma p) ++ omap fd_file (p_ofile p).

Lemma filedup_wp f x k (Q : nat → kernel → Prop) :
  ftable k !! f = Some x → 1 ≤ f_ref x → Q f (upd_ftable (alter incr f) k) → wp (filedup f) Q k.
Proof using Type.
  intros Hx Hr HQ. unfold filedup. wp_step. eapply wp_at_idx; [exact Hx|].
  rewrite (proj2 (Z.ltb_ge _ 1)) by lia. wp_step. eapply wp_set_idx; [exact Hx|]. wp_step.
  unfold upd_ftable in *. rewrite (alter_Some _ _ _ _ Hx) in HQ. exact HQ.
Qed.

Definition refs_ok (k : kernel) (fs : list nat) : Prop :=
  ∀ f, f ∈ fs → ∃ x, ftable k !! f = Some x ∧ 1 ≤ f_ref x.

Lemma copy_vmas_wp k np p q :
  procs k !! me = Some p → procs k !! np = Some q →
  length (p_vma p) = Z.to_nat VMA_MAX → length (p_vma q) = Z.to_nat VMA_MAX →
  (∀ v, v ∈ p_vma p → v_valid v = true → is_Some (v_f v)) → refs_ok k (omap vma_file (p_vma p)) →
  wp (copy_vmas me np) (λ _ k', k' =
    upd_procs (<[np := upd_p_vma (λ _, zip_with (pick vma_file) (p_vma p) (p_vma q)) q]>)
      (upd_ftable (dups (omap vma_file (p_vma p))) k)) k.
Proof using Type.
  intros Hp Hq Lp Lq Hv Hfs. unfold copy_vmas. wp_step. eapply wp_at_idx; [exact Hp|].
  replace VMA_MAX with (Z.of_nat (length (p_vma p))) by (by rewrite Lp).
  apply (copy_loop p_vma upd_p_vma vma_file); try done; [|by destruct q|by rewrite Lp, Lq].
  intros j v k1 q1 Hj Hq1 Hf. rewrite Nat2Z.id, Hj. unfold dup_step, vma_file in *.
  destruct (v_valid v) eqn:E; [|by wp_step]. destruct (Hv v) as [f Ef]; [by eapply list_elem_of_lookup_2|done|].
  rewrite Ef in Hf |- *. destruct (Hf f eq_refl) as (x & Hx & Hr). unfold deref. wp_steps.
  eapply filedup_wp; [exact Hx|exact Hr|]. eapply wp_set_idx; [exact Hq1|]. done.
Qed.

Lemma copy_files_wp k np p q :
  procs k !! me = Some p → procs k !! np = Some q →
  length (p_ofile p) = Z.to_nat NOFILE → p_ofile q = replicate (Z.to_nat NOFILE) None →
  refs_ok k (omap fd_file (p_ofile p)) →
  wp (copy_files me np) (λ _ k', k' =
    upd_procs (<[np := upd_p_ofile (λ _, p_ofile p) q]>)
      (upd_ftable (dups (omap fd_file (p_ofile p))) k)) k.
Proof using Type.
  intros Hp Hq Lp Eq Hfs. unfold copy_files. wp_step. eapply wp_at_idx; [exact Hp|].
  replace NOFILE with (Z.of_nat (length (p_ofile p))) by (by rewrite Lp).
  assert (p_ofile p = zip_with (pick fd_file) (p_ofile p) (p_ofile q)) as Hz.
  { rewrite Eq, <-Lp. clear. induction (p_ofile p) as [|[f|] l IH]; [done|cbn; by rewrite <-IH..]. }
  eapply wp_mono; [apply (copy_loop p_ofile upd_p_ofile fd_file ltac:(done) np (p_ofile p)) with (q := q)|
    intros _ k' ->; by rewrite <-Hz]; try done; [|by destruct q|by rewrite Lp, Eq, length_replicate].
  intros j [f|] k1 q1 Hj Hq1 Hf; rewrite Nat2Z.id, Hj; unfold dup_step, fd_file in *; [|by wp_step].
  destruct (Hf f eq_refl) as (x & Hx & Hr). wp_step.
  eapply filedup_wp; [exact Hx|exact Hr|]. eapply wp_set_idx; [exact Hq1|]. done.
Qed.

(** ** The theorem *)

(** What [fork] needs: the invariants of the process table and of the memory. *)
Record fork_ready (k : kernel) (p : proc) (l : list Z) (own : gmap Z role) : Prop := {
  fr_inv : pt_inv (mach k) l own;
  fr_rooted : rooted own;
  fr_me : procs k !! me = Some p;
  fr_state : p_state p ≠ UNUSED;
  fr_root : is_root own (p_pagetable p);
  fr_mapped : ∀ va, 0 ≤ va < PGROUNDUP (p_sz p) → mapped_user (mach k) own (p_pagetable p) va;
  fr_sz : 0 ≤ p_sz p ≤ TRAPFRAME;
  fr_tf : own !! p_trapframe p = Some OtherPage;
  fr_ofile : length (p_ofile p) = Z.to_nat NOFILE;
  fr_vma : length (p_vma p) = Z.to_nat VMA_MAX;
  fr_name : length (p_name p) = 16%nat;
  fr_maps : ∀ v, v ∈ p_vma p → v_valid v = true → is_Some (v_f v);
  fr_files : refs_ok k (held p);
  fr_cwd : ∃ c x, p_cwd p = Some c ∧ itable k !! c = Some x;
  fr_idle : ∀ j q, procs k !! j = Some q → p_state q = UNUSED → idle_slot q;
}.

(** The child [c] of [p], in the slot that held [q]. *)
Record child_of (p q c : proc) (pid : Z) : Prop := {
  ch_state : p_state c = RUNNABLE;
  ch_pid : p_pid c = pid;
  ch_parent : p_parent c = Some me;
  ch_sz : p_sz c = p_sz p;
  ch_killed : p_killed c = p_killed q;
  ch_files : p_ofile c = p_ofile p;
  ch_cwd : p_cwd c = p_cwd p;
  ch_name : cstr (p_name c) = take 15 (cstr (p_name p));
  ch_top : p_vma_top c = p_vma_top p;
  ch_maps : ∀ j v, p_vma p !! j = Some v → ∃ v', p_vma c !! j = Some v' ∧
    v_valid v' = v_valid v ∧ (v_valid v = true → v' = v);
  ch_ctx : ctx_ra c = forkret_addr ∧ ctx_sp c = p_kstack c + PGSIZE ∧ p_kstack c = p_kstack q;
}.

(** [fork] fails without a slot or without memory; it may then have used a pid,
    and a slot has been cleared once more. *)
Definition fork_failed (k : kernel) (p : proc) (l : list Z) (own : gmap Z role) (k' : kernel) : Prop :=
  k' = k ∧ (∀ j q, procs k !! j = Some q → p_state q ≠ UNUSED) ∨
  free_pages l < 6 + 3 * (PGROUNDUP (p_sz p) / 4096) ∧ ∃ s' l' own' i q q', procs k !! i = Some q ∧ idle_slot q ∧ idle_slot q' ∧ k' = with_slot k s' i q' ∧
    unchanged (mach k) l own s' l' own'.

Definition forked (k : kernel) (p : proc) (l : list Z) (own : gmap Z role) (pid : Z) (k' : kernel) : Prop :=
  ∃ i q c w s' l' own', procs k !! i = Some q ∧ idle_slot q ∧ i ≠ me ∧ p_cwd p = Some w ∧ pid = nextpid k ∧
    child_of p q c pid ∧
    fork_mem (mach k) l own (p_pagetable p) (p_trapframe p) (p_sz p) (p_trapframe c) (p_pagetable c) s' l' own' ∧
    k' = with_slot (upd_itable (alter (upd_i_ref (λ r, r + 1)) w) (upd_ftable (dups (held p)) k)) s' i c ∧
    ∀ f, ftable k' !! f = upd_f_ref (λ r, r + uses f (held p)) <$> ftable k !! f.

(** ** The steps of fork *)

Section slot.
Context (i : nat) (q0 : proc).

Lemma slot_ram k s q f (Q : unit → kernel → Prop) :
  Q tt (with_slot k (set_ram f s) i q) → wp (vm (modify (set_ram f))) Q (with_slot k s i q).
Proof using Type. intros HQ. apply wp_zoom, wp_modify. exact HQ. Qed.

Lemma slot_files k s q q' D :
  upd_procs (<[i := q']>) (upd_ftable D (with_slot k s i q)) = with_slot (upd_ftable D k) s i q'.
Proof using Type. unfold with_slot, upd_mach, upd_nextpid, upd_procs, upd_ftable; cbn. by rewrite list_insert_insert_eq. Qed.

Lemma slot_me k s q p : procs k !! me = Some p → i ≠ me → procs (with_slot k s i q) !! me = Some p.
Proof using Type. intros. cbn. by rewrite list_lookup_insert_ne. Qed.

Lemma slot_tf_store k s q off v (Q : unit → kernel → Prop) :
  procs k !! i = Some q0 → Q tt (with_slot k (set_ram (λ m, store64 m (p_trapframe q + off) (u64 v)) s) i q) →
  wp (tf_store i off v) Q (with_slot k s i q).
Proof using Type.
  intros Hi HQ. unfold tf_store. wp_step. eapply wp_at_idx; [by eapply slot_lookup|]. by apply slot_ram.
Qed.

Lemma slot_idup k s q w x (Q : nat → kernel → Prop) :
  itable k !! w = Some x → Q w (with_slot (upd_itable (alter (upd_i_ref (λ r, r + 1)) w) k) s i q) →
  wp (idup w) Q (with_slot k s i q).
Proof using Type.
  intros Hx HQ. unfold idup. wp_step. eapply wp_set_idx; [exact Hx|]. wp_step.
  unfold with_slot, upd_itable in *. rewrite (alter_Some _ _ _ _ Hx) in HQ. exact HQ.
Qed.

Lemma slot_name k s q nm nm' (Q : unit → kernel → Prop) :
  procs k !! i = Some q0 → safestrcpy (p_name q) nm 16 = Some nm' →
  Q tt (with_slot k s i (upd_p_name (λ _, nm') q)) → wp (set_name i nm) Q (with_slot k s i q).
Proof using Type.
  intros Hi Hs HQ. unfold set_name. wp_step. eapply wp_at_idx; [by eapply slot_lookup|]. rewrite Hs. by eapply slot_set.
Qed.
End slot.

Definition the_child (p q : proc) (pid tf pt : Z) (nm : list Z) : proc :=
  let c := upd_p_vma_top (λ _, p_vma_top p) (upd_p_sz (λ _, p_sz p) (embryo q pid tf pt)) in
  upd_p_state (λ _, RUNNABLE) (upd_p_parent (λ _, Some me) (upd_p_name (λ _, nm) (upd_p_cwd (λ _, p_cwd p)
  (upd_p_ofile (λ _, p_ofile p) (upd_p_vma (λ _, zip_with (pick vma_file) (p_vma p) (p_vma c)) c))))).

Lemma the_child_of p q pid tf pt nm :
  length (p_vma p) = Z.to_nat VMA_MAX → (∀ v, v ∈ p_vma p → v_valid v = true → is_Some (v_f v)) →
  idle_slot q → cstr nm = take 15 (cstr (p_name p)) → child_of p q (the_child p q pid tf pt nm) pid.
Proof using Type.
  intros Hlen Hmaps Hid Hnm. split; try done. intros j v Hj. cbn.
  assert (is_Some (p_vma q !! j)) as [w Hw].
  { apply lookup_lt_is_Some. rewrite (id_vma _ Hid), <-Hlen. by eapply lookup_lt_Some. }
  eexists. split; [by rewrite lookup_zip_with, Hj, list_lookup_fmap, Hw|].
  unfold pick, vma_file. destruct (v_valid v) eqn:E; [|done].
  destruct (Hmaps v) as [f Hf]; [by eapply list_elem_of_lookup_2|done|]. by rewrite Hf.
Qed.

Section run.
Context (k : kernel) (p : proc) (l : list Z) (own : gmap Z role) (i : nat) (q : proc).
Hypothesis Hr : fork_ready k p l own.
Hypothesis Hi : procs k !! i = Some q.
Hypothesis Hid : idle_slot q.
Context (tf pt : Z) (s1 : machine) (l1 : list Z) (s2 : machine) (l2 : list Z) (own2 : gmap Z role).
Hypothesis Hb : born (mach k) l own tf pt s1 l1 s2 l2 own2.

Lemma me_not_slot : i ≠ me.
Proof using Hr Hi Hid.
  intros ->. pose proof (fr_state _ _ _ _ Hr) as Hst. rewrite (fr_me _ _ _ _ Hr) in Hi. injection Hi as ->.
  by destruct Hst, Hid.
Qed.

Lemma held_refs : refs_ok k (omap vma_file (p_vma p)) ∧
  refs_ok (upd_ftable (dups (omap vma_file (p_vma p))) k) (omap fd_file (p_ofile p)).
Proof using Hr.
  pose proof (fr_files _ _ _ _ Hr) as Hf. unfold held in Hf. split.
  - intros f Hin. apply Hf, elem_of_app. by left.
  - intros f Hin. destruct (Hf f) as (x & Hx & Hx1); [apply elem_of_app; by right|].
    cbn. rewrite dups_lookup, Hx. eexists. split; [done|]. cbn.
    pose proof (uses_nonneg f (omap vma_file (p_vma p))). lia.
Qed.

Lemma fork_fails s3 l3 own3 :
  pt_inv s3 l3 own3 → aspace s3 own3 pt 0 → vm_frame pt 0 TRAPFRAME s2 l2 own2 s3 l3 own3 →
  free_pages l2 < 3 * (PGROUNDUP (p_sz p) / 4096) →
  wp (freeproc i ;; mret (-1)) (λ r k', r = -1 ∧ fork_failed k p l own k') (with_slot k s3 i (embryo q (nextpid k) tf pt)).
Proof using All.
  intros Hs3 Ha Hf Hlen. destruct (born_tf _ _ _ _ _ _ _ _ _ _ (fr_inv _ _ _ _ Hr) Hb) as [_ Htf].
  pose proof (born_frame _ _ _ _ _ _ _ _ _ _ Hb s3 l3 own3 TRAPFRAME ltac:(done) Hf) as Hf1.
  pose proof Hb as [-> Hout Hinv Hpt Hok _ Hln].
  assert (rooted own3) as Hro3.
  { eapply (rooted_frame pt); [|apply Ha|exact Hf1]. apply rooted_insert; [apply Hr|].
    by destruct (link_fresh _ l1 own tf (fr_inv _ _ _ _ Hr)) as (_ & ? & _). }
  wp_step. eapply wp_mono; [eapply freeproc_wp; [by eapply slot_lookup|exact Hs3|exact Hro3|..]|].
  - eapply lookup_weaken; [exact Htf|apply Hf].
  - cbn. by rewrite (id_sz _ Hid).
  - right. cbn. rewrite (id_sz _ Hid). by eapply born_space.
  - intros _ k' (s4 & l4 & own4 & -> & Hrp). wp_step. split; [done|]. right. split; [lia|]. rewrite slot_slot.
    exists s4, l4, own4, i, q, (cleared (embryo q (nextpid k) tf pt)). split_and!; try done.
    + apply (idle_cleared q); [done|done|cbn; by rewrite length_fmap|done].
    + eapply (reaped_undo (mach k) l1 own tf pt); try done; apply Hr.
Qed.

(** What [fork] does once the memory has been copied. *)
Lemma fork_fills s3 l3 own3 :
  fork_mem (mach k) l own (p_pagetable p) (p_trapframe p) (p_sz p) tf pt
    (set_ram (child_regs (p_trapframe p) tf) s3) l3 own3 →
  let c := embryo q (nextpid k) tf pt in
  wp (set_proc i (upd_p_sz (λ _, p_sz p)) ;;
      vm (modify (set_ram (λ m,
        store_bytes m (p_trapframe c) (load_bytes m (p_trapframe p) (Z.to_nat TF_SIZE))))) ;;
      set_proc i (upd_p_vma_top (λ _, p_vma_top p)) ;;
      copy_vmas me i ;;
      tf_store i (TF_a 0) 0 ;;
      copy_files me i ;;
      w ← deref (p_cwd p);
      w ← idup w;
      set_proc i (upd_p_cwd (λ _, Some w)) ;;
      set_name i (p_name p) ;;
      set_proc i (upd_p_parent (λ _, Some me)) ;;
      set_proc i (upd_p_state (λ _, RUNNABLE)) ;;
      mret (p_pid c)) (forked k p l own) (with_slot k s3 i c).
Proof using Hr Hi Hid.
  intros Hm c. pose proof me_not_slot as Hne. destruct held_refs as [Hf1 Hf2].
  destruct (fr_cwd _ _ _ _ Hr) as (w & x & Ew & Hw). pose proof (fr_me _ _ _ _ Hr) as Hme.
  destruct (safestrcpy_spec (p_name q) (p_name p) 16) as (nm & Hnm & _ & _ & Hcs).
  { rewrite (id_name _ Hid). lia. }
  { left. rewrite (fr_name _ _ _ _ Hr). lia. }
  wp_step. eapply slot_set; [exact Hi|]. wp_step. apply slot_ram. wp_step. eapply slot_set; [exact Hi|]. wp_step.
  eapply wp_mono; [eapply copy_vmas_wp; [by apply slot_me|by eapply slot_lookup|apply Hr| |apply Hr|exact Hf1]|].
  { cbn. rewrite length_fmap. apply Hid. }
  intros _ k1 ->. rewrite slot_files. wp_step. eapply slot_tf_store; [exact Hi|]. wp_step.
  eapply wp_mono; [eapply copy_files_wp; [by apply slot_me|by eapply slot_lookup|apply Hr|apply Hid|exact Hf2]|].
  intros _ k2 ->. rewrite slot_files, Ew. unfold deref. wp_step. wp_step. wp_step. eapply slot_idup; [exact Hw|].
  wp_step. eapply slot_set; [exact Hi|]. wp_step. eapply slot_name; [exact Hi|exact Hnm|].
  wp_step. eapply slot_set; [exact Hi|]. wp_step. eapply slot_set; [exact Hi|]. wp_step. rewrite <-Ew.
  exists i, q, (the_child p q (nextpid k) tf pt nm), w, (set_ram (child_regs (p_trapframe p) tf) s3), l3, own3.
  split; [exact Hi|]. split; [exact Hid|]. split; [exact Hne|]. split; [exact Ew|]. split; [reflexivity|].
  split; [by apply the_child_of; [apply Hr|apply Hr|done|]|]. split; [exact Hm|].
  assert (upd_ftable (dups (omap fd_file (p_ofile p))) (upd_ftable (dups (omap vma_file (p_vma p))) k) =
    upd_ftable (dups (held p)) k) as -> by (unfold upd_ftable, held; cbn; by rewrite dups_app).
  split; [reflexivity|]. intros f. apply dups_lookup.
Qed.
End run.

Lemma fork_wp k p l own :
  fork_ready k p l own →
  wp (fork me) (λ r k', r = -1 ∧ fork_failed k p l own k' ∨ forked k p l own r k') k.
Proof using Type.
  intros Hr. unfold fork. wp_step. eapply wp_at_idx; [apply Hr|]. wp_step.
  destruct (list_find (λ p, p_state p = UNUSED) (procs k)) as [[i q]|] eqn:Hfind.
  2:{ unfold allocproc. wp_steps. rewrite Hfind. wp_steps. left. split; [done|]. left. split; [done|].
      intros j q Hj Hq. apply list_find_None in Hfind. by apply (Forall_lookup_1 _ _ _ _ Hfind Hj). }
  pose proof Hfind as (Hi & Hun & _)%list_find_Some. pose proof (fr_idle _ _ _ _ Hr _ _ Hi Hun) as Hid.
  eapply wp_mono; [apply (allocproc_wp k i q l own); try done; apply Hr|].
  intros o k1 (s2 & l2 & own2 & [(-> & -> & Hu & Hlen)|(tf & pt & s1 & l1 & -> & -> & Hb)]).
  { wp_step. left. split; [done|]. right. split.
    { destruct (pgup_bound (p_sz p)) as [? _]; [apply Hr|]. pose proof (Z.div_pos (PGROUNDUP (p_sz p)) 4096). lia. }
    exists s2, l2, own2, i, q, (cleared (started q (nextpid k))).
    split_and!; try done. apply (idle_cleared q); [done|done|cbn; by rewrite length_fmap|done]. }
  wp_step. eapply wp_at_idx; [by eapply slot_lookup|]. wp_step. apply wp_zoom.
  eapply wp_mono; [apply (born_copy (mach k) l own (p_pagetable p) (p_trapframe p) (p_sz p) tf pt s1 l1 s2 l2 own2);
    try done; apply Hr|].
  intros r s3 (l3 & own3 & Hs3 & [(-> & Ha & Hf & Hc)|(-> & Ha & _ & Hf & Hlen)]); cbn [Z.ltb Z.compare];
    change (upd_mach (λ _, s3) (with_slot k s2 i ?c)) with (with_slot k s3 i c).
  - eapply wp_mono; [eapply (fork_fills k p l own i q Hr Hi Hid tf pt s3 l3 own3)|by right].
    apply (born_forked (mach k) l own (p_pagetable p) (p_trapframe p) (p_sz p) tf pt s1 l1 s2 l2 own2); try done; apply Hr.
  - eapply wp_mono; [by eapply (fork_fails k p l own i q Hr Hi Hid tf pt s1 l1 s2 l2 own2 Hb)|by left].
Qed.

(** C11: [fork] makes a copy.  When it returns the new pid, an unused slot holds a
    runnable child of the caller: in pages of its own it has the caller's memory,
    with the same permissions and bytes at every address below [sz], and the
    caller's registers with 0 for the result; it shares the open files, the
    mapped files and the current directory, and each of these has exactly as many
    references more as the child has uses of it.  The caller and everything else
    is as before.  It fails, with -1, only without an unused slot or with fewer
    free pages than six and three for each page of the caller; then every page is
    back where it was and no reference has been taken. *)
Theorem fork_spec k p l own :
  fork_ready k p l own →
  wp (fork me) (λ r k', r = -1 ∧ fork_failed k p l own k' ∨ forked k p l own r k') k.
Proof using Type. apply fork_wp. Qed.
End fork.

(** ** wait *)

Section wait.
Context {I : Image} {T : Text} `{SleepFuel} (me : nat).

Definition zombie_of (q : proc) : Prop := p_parent q = Some me ∧ p_state q = ZOMBIE.
#[global] Instance zombie_of_dec q : Decision (zombie_of q).
Proof using Type. unfold zombie_of. apply _. Defined.

(** The process [p] that calls [wait], and [q] in slot [j], its first child that
    has ended. *)
Record wait_ready (k : kernel) (p : proc) (j : nat) (q : proc) (l : list Z) (own : gmap Z role) : Prop := {
  wr_inv : pt_inv (mach k) l own;
  wr_rooted : rooted own;
  wr_me : procs k !! me = Some p;
  wr_root : is_root own (p_pagetable p);
  wr_user : user_inv (ram (mach k)) own (p_pagetable p);
  wr_find : list_find zombie_of (procs k) = Some (j, q);
  wr_sz : 0 ≤ p_sz q ≤ TRAPFRAME;
  wr_tf : own !! p_trapframe q = Some OtherPage;
  wr_space : pspace (mach k) own (p_pagetable q) (p_sz q) (p_trapframe q);
}.

(** The bytes that [wait] stores at [addr]. *)
Definition status_bytes (addr : Z) (q : proc) : list Z := if addr =? 0 then [] else le_put 4 (p_xstate q).

Lemma user_upd_frame s s1 l own pt root addr src s' l' own' tf :
  pt_inv s l own → tables_agree own (ram s) (ram s1) → user_upd (ram s) (ram s1) own root addr src →
  reaped tf pt s1 l own s' l' own' → user_upd (ram s) (ram s') own' root addr src.
Proof using Type.
  intros Hs Ht Hu [Hs' Ho _ L D] r0 va0 Hr0 Hva0 Hpg.
  apply Ho in Hr0 as (Hr0 & _ & Hne). apply Ho in Hpg as Hpg0. destruct Hpg0 as (Hpg0 & _ & _).
  rewrite <-(Hu r0 va0 Hr0 Hva0 Hpg0). unfold user_load. rewrite L; [|done| |done].
  2:{ intros ->. by destruct Hne. }
  rewrite (proj2 (tables_agree_lookup s l own (ram s1) r0 va0 Hs Ht Hr0 Hva0)).
  apply (D _ _ Hpg); [done|]. pose proof (Z.mod_pos_bound va0 4096). lia.
Qed.

Lemma wait_copies k p j q l own addr :
  wait_ready k p j q l own → 0 ≤ addr →
  wp (if addr =? 0 then mret 0 else vm (copyout (p_pagetable p) addr (le_put 4 (p_xstate q)) 4)) (λ r k',
    ∃ s', k' = upd_mach (λ _, s') k ∧ copy_frame (mach k) l own (p_pagetable p) s' ∧
    (r = 0 ∧ user_upd (ram (mach k)) (ram s') own (p_pagetable p) addr (status_bytes addr q) ∨
     r = -1 ∧ addr ≠ 0 ∧ ∃ n, 0 ≤ n < 4 ∧ user_writable (ram (mach k)) (p_pagetable p) (addr + n) = false)) k.
Proof using Type.
  intros Hr Ha. unfold status_bytes. case_if E.
  - wp_step. exists (mach k). split; [by destruct k|]. split; [apply copy_frame_refl, Hr|]. left. split; [done|].
    apply user_upd_nil.
  - apply wp_zoom. eapply wp_mono; [apply (copyout_loop 5 (mach k) l own (p_pagetable p) addr (le_put 4 (p_xstate q)));
      [apply Hr|apply Hr|done|rewrite length_le_put; lia|apply le_put_ok|apply Hr]|].
    intros r s' (n & Hf & Hu & Hw & Hres). exists s'. split; [done|]. split; [done|]. rewrite length_le_put in Hres.
    destruct Hres as [[-> ->]|(-> & Hn & Hbad)]; [left|right].
    + split; [done|]. by rewrite (take_ge (le_put 4 (p_xstate q)) 4) in Hu by (by rewrite length_le_put).
    + split; [done|]. split; [done|]. exists (Z.of_nat n). split; [lia|done].
Qed.

(** C12: [wait] of a process with a child that has ended stores the child's exit
    status at [addr], unless that is 0, returns the child's pid, clears its slot
    and puts exactly its pages back on the free list: its trapframe, its memory
    and its page tables.  No other byte of any other process changes.  When the
    status cannot be stored it returns -1 and the child stays. *)
Theorem wait_spec k p j q l own addr :
  wait_ready k p j q l own → 0 ≤ addr →
  wp (wait me addr) (λ r k', ∃ s1, copy_frame (mach k) l own (p_pagetable p) s1 ∧
    (r = p_pid q ∧ (∃ s' l' own', k' = upd_mach (λ _, s') (upd_procs (<[j := cleared q]>) k) ∧
       reaped (p_trapframe q) (p_pagetable q) s1 l own s' l' own' ∧
       user_upd (ram (mach k)) (ram s') own' (p_pagetable p) addr (status_bytes addr q)) ∨
     r = -1 ∧ k' = upd_mach (λ _, s1) k ∧ addr ≠ 0 ∧
       ∃ n, 0 ≤ n < 4 ∧ user_writable (ram (mach k)) (p_pagetable p) (addr + n) = false)) k.
Proof using Type.
  intros Hr Ha. unfold wait. cbn [loopM]. wp_step. unfold wait_body at 1. wp_step.
  eapply wp_at_idx; [apply Hr|]. wp_step. wp_step.
  pose proof (wr_find _ _ _ _ _ _ Hr) as Hfind. pose proof Hfind as (Hj & _ & _)%list_find_Some.
  change (list_find _ (procs k)) with (list_find zombie_of (procs k)). rewrite Hfind. wp_step.
  eapply wp_mono; [by apply (wait_copies k p j q l own addr)|].
  intros r k1 (s1 & -> & Hf & [[-> Hu]|(-> & Hne & Hbad)]); cbn [Z.ltb Z.compare].
  2:{ wp_step. wp_step. exists s1. split; [done|]. by right. }
  destruct Hf as [Hs1 Ht Hd]. wp_step. eapply wp_mono; [eapply freeproc_wp; [exact Hj|exact Hs1|apply Hr|apply Hr|apply Hr|]|].
  { right. apply (pspace_write (mach k) own _ _ _ (p_trapframe q)); [apply Hr|apply Hr| |apply Hr].
    intros r0 va0 Hr0 Hva0. by apply (tables_agree_lookup (mach k) l own (ram s1) r0 va0 (wr_inv _ _ _ _ _ _ Hr)). }
  intros _ k2 (s2 & l2 & own2 & -> & Hrp). wp_step. wp_step. exists s1. split; [done|]. left. split; [done|].
  exists s2, l2, own2. split; [done|]. split; [exact Hrp|]. eapply user_upd_frame; [apply Hr|done|done|exact Hrp].
Qed.

(** Without such a child [wait] fails if there is nothing to wait for or the
    process has been killed, and sleeps otherwise. *)
Lemma wait_none k p addr :
  procs k !! me = Some p → list_find zombie_of (procs k) = None →
  (¬ (∃ j q, procs k !! j = Some q ∧ p_parent q = Some me)) ∨ p_killed p = true → wait me addr k = Done (-1) k.
Proof using Type.
  intros Hp Hz Hno. unfold wait. eapply (loop_eq _ _ _ _ (inr (-1))). unfold wait_body, the_proc, at_idx.
  unfold mbind, M_bind, gets. cbn [obind]. rewrite Hp. cbn [obind mret M_ret].
  change (list_find _ (procs k)) with (list_find zombie_of (procs k)). rewrite Hz.
  destruct (existsb _ (procs k)) eqn:E; [|done]. destruct Hno as [Hno|Hk]; [|by rewrite Hk]. exfalso. apply Hno.
  apply existsb_exists in E as (q & Hq & Hpar%bool_decide_eq_true). apply list_elem_of_In, list_elem_of_lookup in Hq as [j Hj]. eauto.
Qed.
End wait.
