(* ===== verification/Exec.v ===== *)
(** * exec

    [kernel/exec.c] and the structures of [kernel/elf.h]. *)

From S2P Require Import Prelude Riscv Memory CString Kalloc Vm State Bytes Sched Printf Bio Log Fs Console Pipe File Proc.

(** ** elf.h *)

Definition get64 (off : Z) (l : list Z) : Z := le_get (slice (Z.to_nat off) 8 l).

Definition ELF_MAGIC : Z := 0x464C457F.
Definition ELF_PROG_LOAD : Z := 1.
Definition ELFHDR_SIZE : Z := 64.
Definition PROGHDR_SIZE : Z := 56.

Record elfhdr := Elfhdr { elf_magic : Z; elf_entry : Z; elf_phoff : Z; elf_phnum : Z }.
Definition parse_elfhdr (b : list Z) : elfhdr :=
  Elfhdr (get32 0 b) (get64 24 b) (get64 32 b) (get16 56 b).
Record proghdr := Proghdr {
  ph_type : Z; ph_flags : Z; ph_off : Z; ph_vaddr : Z; ph_filesz : Z; ph_memsz : Z }.
Definition parse_proghdr (b : list Z) : proghdr :=
  Proghdr (get32 0 b) (get32 4 b) (get64 8 b) (get64 16 b) (get64 32 b) (get64 40 b).

Definition flags2perm (flags : Z) : Z :=
  let perm := if bit flags 0x1 then PTE_X else 0 in
  if bit flags 0x2 then Z.lor perm PTE_W else perm.

(** The program name: what follows the last slash of the path. *)
Fixpoint last_elem (s last : list Z) : list Z :=
  match s with
  | [] => last
  | c :: s' => if c =? 0 then last else last_elem s' (if c =? slash then s' else last)
  end.

Section exec.
Context {I : Image} {T : Text} `{SleepFuel} (me : nat).

Definition loadseg_body (pagetable va : Z) (ip : nat) (offset sz i : Z) : M kernel (Z + Z) :=
  if i <? sz then
    pa ← vm (walkaddr pagetable (u64 (va + i)));
    if pa =? 0 then panic "loadseg: address should exist"
    else
      let n := if sz - i <? PGSIZE then sz - i else PGSIZE in
      '(r, _) ← readi me ip (DKern pa) (u32 (offset + i)) n;
      if negb (r =? n) then mret (inr (-1)) else mret (inl (u32 (i + PGSIZE)))
  else mret (inr 0).
Definition loadseg (pagetable va : Z) (ip : nat) (offset sz : Z) : M kernel Z :=
  loopM (S (S (Z.to_nat (sz / PGSIZE)))) (loadseg_body pagetable va ip offset sz) 0.

(** Did all segments load, and the size of the image. *)
Definition load_body (pagetable : Z) (ip : nat) (phnum : Z) (st : Z * Z * Z) :
    M kernel (Z * Z * Z + bool * Z) :=
  let '(i, off, sz) := st in
  if i <? phnum then
    '(r, b) ← readi me ip DLocal (u32 off) PROGHDR_SIZE;
    let ph := parse_proghdr b in
    let next sz : M kernel (Z * Z * Z + bool * Z) := mret (inl (i + 1, s32 (off + PROGHDR_SIZE), sz)) in
    if negb (r =? PROGHDR_SIZE) then mret (inr (false, sz))
    else if negb (ph_type ph =? ELF_PROG_LOAD) then next sz
    else if ph_memsz ph <? ph_filesz ph then mret (inr (false, sz))
    else if u64 (ph_vaddr ph + ph_memsz ph) <? ph_vaddr ph then mret (inr (false, sz))
    else if negb (ph_vaddr ph mod PGSIZE =? 0) then mret (inr (false, sz))
    else
      sz1 ← vm (uvmalloc pagetable sz (u64 (ph_vaddr ph + ph_memsz ph)) (flags2perm (ph_flags ph)));
      if sz1 =? 0 then mret (inr (false, sz))
      else
        r ← loadseg pagetable (ph_vaddr ph) ip (u32 (ph_off ph)) (u32 (ph_filesz ph));
        if r <? 0 then mret (inr (false, sz1)) else next sz1
  else mret (inr (true, sz)).

Definition kstrlen (pa : Z) : M kernel (list Z) :=
  m ← gets (λ k, ram (mach k));
  let bytes := load_bytes m pa (Z.to_nat PGSIZE) in
  match strlen bytes with
  | Some n => mret (take (Z.to_nat (n + 1)) bytes)
  | None => fault "strlen"
  end.

(** [argv] without its null pointer; the stack pointer and [ustack]. *)
Fixpoint push_args (pagetable stackbase : Z) (argv : list Z) (sp : Z) (ustack : list Z) :
    M kernel (option (Z * list Z)) :=
  match argv with
  | [] => mret (Some (sp, ustack))
  | a :: argv =>
      if MAXARG <=? Z.of_nat (length ustack) then mret None
      else
        s ← kstrlen a;
        let sp := u64 (sp - Z.of_nat (length s)) in
        let sp := sp - sp mod 16 in
        if sp <? stackbase then mret None
        else
          r ← vm (copyout pagetable sp s (Z.of_nat (length s)));
          if r <? 0 then mret None else push_args pagetable stackbase argv sp (ustack ++ [sp])
  end.

Definition exec_bad (pagetable sz : Z) (ip : option nat) : M kernel Z :=
  (if pagetable =? 0 then mret tt else proc_freepagetable pagetable sz) ;;
  (match ip with Some ip => iunlockput me ip ;; end_op me | None => mret tt end) ;;
  mret (-1).

(** From the allocation of the stack on. *)
Definition exec_stack (path : list Z) (argv : list Z) (entry pagetable sz : Z) : M kernel Z :=
  p ← the_proc me;
  let oldsz := p_sz p in
  let sz := PGROUNDUP sz in
  sz1 ← vm (uvmalloc pagetable sz (u64 (sz + 2 * PGSIZE)) PTE_W);
  if sz1 =? 0 then exec_bad pagetable sz None
  else
    let sz := sz1 in
    vm (uvmclear pagetable (u64 (sz - 2 * PGSIZE))) ;;
    let stackbase := u64 (sz - PGSIZE) in
    o ← push_args pagetable stackbase argv sz [];
    match o with
    | None => exec_bad pagetable sz None
    | Some (sp, ustack) =>
        let argc := Z.of_nat (length ustack) in
        let sp := u64 (sp - (argc + 1) * 8) in
        let sp := sp - sp mod 16 in
        if sp <? stackbase then exec_bad pagetable sz None
        else
          r ← vm (copyout pagetable sp (concat (le_put 8 <$> ustack ++ [0])) ((argc + 1) * 8));
          if r <? 0 then exec_bad pagetable sz None
          else
            tf_store me (TF_a 1) sp ;;
            set_name me (last_elem path path) ;;
            set_proc me (λ p, upd_p_sz (λ _, sz) (upd_p_pagetable (λ _, pagetable) p)) ;;
            tf_store me TF_epc entry ;;
            tf_store me TF_sp sp ;;
            proc_freepagetable (p_pagetable p) oldsz ;;
            mret argc
    end.

Definition exec (path argv : list Z) : M kernel Z :=
  begin_op me ;;
  o ← namei me path;
  match o with
  | None => end_op me ;; mret (-1)
  | Some ip =>
      ilock me (Some ip) ;;
      '(r, b) ← readi me ip DLocal 0 ELFHDR_SIZE;
      let elf := parse_elfhdr b in
      if negb (r =? ELFHDR_SIZE) then exec_bad 0 0 (Some ip)
      else if negb (elf_magic elf =? ELF_MAGIC) then exec_bad 0 0 (Some ip)
      else
        pagetable ← proc_pagetable me;
        if pagetable =? 0 then exec_bad 0 0 (Some ip)
        else
          '(ok, sz) ← loopM (S (Z.to_nat (elf_phnum elf))) (load_body pagetable ip (elf_phnum elf))
                        (0, s32 (elf_phoff elf), 0);
          if negb ok then exec_bad pagetable sz (Some ip)
          else
            iunlockput me ip ;;
            end_op me ;;
            exec_stack path argv (elf_entry elf) pagetable sz
  end.
End exec.
