(* ===== verification/Sysfile.v ===== *)
(** * File system calls

    [kernel/sysfile.c], with [sys_mmap] and [sys_munmap], and how a system call
    gets its arguments, the first half of [kernel/syscall.c].  A system call
    returns the value that goes to [a0] before its conversion to [uint64]. *)

From S2P Require Import Prelude Riscv Memory CString Kalloc Vm State Bytes Sched Printf Bio Log Fs Console Pipe File Proc Exec.

(** ** Arguments of system calls *)

Section args.
Context {I : Image} (me : nat).

(** The status and the value. *)
Definition fetchaddr (addr : Z) : M kernel (Z * Z) :=
  p ← the_proc me;
  if (p_sz p <=? addr) || (p_sz p <? u64 (addr + 8)) then mret (-1, 0)
  else
    '(r, b) ← vm (copyin (p_pagetable p) addr 8);
    if negb (r =? 0) then mret (-1, 0) else mret (0, le_get b).

(** The length and the string, with its NUL. *)
Definition fetchstr (addr max : Z) : M kernel (Z * list Z) :=
  p ← the_proc me;
  '(r, b) ← vm (copyinstr (p_pagetable p) addr (u64 max));
  if r <? 0 then mret (-1, b)
  else match strlen b with Some n => mret (n, b) | None => fault "strlen" end.

Definition argraw (n : Z) : M kernel Z :=
  if (0 <=? n) && (n <=? 5) then tf_load me (TF_a n) else panic "argraw".
Definition argint (n : Z) : M kernel Z := v ← argraw n; mret (s32 v).
Definition argaddr (n : Z) : M kernel Z := argraw n.
Definition argstr (n max : Z) : M kernel (Z * list Z) := a ← argaddr n; fetchstr a max.
End args.

(** ** The system calls *)

Definition name_buf : list Z := replicate (Z.to_nat DIRSIZ) 0.

Section sysfile.
Context {I : Image} {T : Text} `{SleepFuel} (me : nat).

(** The descriptor and its file. *)
Definition argfd (n : Z) : M kernel (option (Z * nat)) :=
  fd ← argint me n;
  if (fd <? 0) || (NOFILE <=? fd) then mret None
  else
    p ← the_proc me;
    match p_ofile p !! Z.to_nat fd with
    | Some (Some f) => mret (Some (fd, f))
    | Some None => mret None
    | None => fault "ofile"
    end.

Definition fdalloc (f : nat) : M kernel Z :=
  p ← the_proc me;
  match list_find (λ o, o = None) (p_ofile p) with
  | Some (fd, _) => set_proc me (upd_p_ofile (insert fd (Some f))) ;; mret (Z.of_nat fd)
  | None => mret (-1)
  end.

Definition sys_dup : M kernel Z :=
  o ← argfd 0;
  match o with
  | None => mret (-1)
  | Some (_, f) => fd ← fdalloc f; if fd <? 0 then mret (-1) else filedup f ;; mret fd
  end.

Definition sys_read : M kernel Z :=
  p ← argaddr me 1;
  n ← argint me 2;
  o ← argfd 0;
  match o with None => mret (-1) | Some (_, f) => fileread me f p n end.

Definition sys_write : M kernel Z :=
  p ← argaddr me 1;
  n ← argint me 2;
  o ← argfd 0;
  match o with None => mret (-1) | Some (_, f) => filewrite me f p n end.

Definition clear_fd (fd : Z) : M kernel unit := set_proc me (upd_p_ofile (insert (Z.to_nat fd) None)).

Definition sys_close : M kernel Z :=
  o ← argfd 0;
  match o with
  | None => mret (-1)
  | Some (fd, f) => clear_fd fd ;; fileclose me f ;; mret 0
  end.

Definition sys_fstat : M kernel Z :=
  st ← argaddr me 1;
  o ← argfd 0;
  match o with None => mret (-1) | Some (_, f) => filestat me f st end.

Definition add_nlink (ip : nat) (d : Z) : M kernel unit := set_inode ip (upd_i_nlink (λ n, s16 (n + d))).

Definition link_bad (ip : nat) : M kernel Z :=
  ilock me (Some ip) ;; add_nlink ip (-1) ;; iupdate me ip ;; iunlockput me ip ;; end_op me ;; mret (-1).

Definition sys_link : M kernel Z :=
  '(r0, old) ← argstr me 0 MAXPATH;
  if r0 <? 0 then mret (-1)
  else
  '(r1, new) ← argstr me 1 MAXPATH;
  if r1 <? 0 then mret (-1)
  else
  begin_op me ;;
  o ← namei me old;
  match o with
  | None => end_op me ;; mret (-1)
  | Some ip =>
      ilock me (Some ip) ;;
      x ← the_inode ip;
      if i_type x =? T_DIR then iunlockput me ip ;; end_op me ;; mret (-1)
      else
        add_nlink ip 1 ;; iupdate me ip ;; iunlock me (Some ip) ;;
        '(o, name) ← nameiparent me new name_buf;
        match o with
        | None => link_bad ip
        | Some dp =>
            ilock me (Some dp) ;;
            d ← the_inode dp;
            x ← the_inode ip;
            r ← (if negb (i_dev d =? i_dev x) then mret (-1) else dirlink me dp name (i_inum x));
            if r <? 0 then iunlockput me dp ;; link_bad ip
            else iunlockput me dp ;; iput me ip ;; end_op me ;; mret 0
        end
  end.

Definition isdirempty (dp : nat) : M kernel bool :=
  x ← the_inode dp;
  loopM (S (Z.to_nat (i_size x / DIRENT_SIZE + 1))) (λ off,
    if off <? i_size x then
      '(r, de) ← readi me dp DLocal off DIRENT_SIZE;
      if negb (r =? DIRENT_SIZE) then panic "isdirempty: readi"
      else if negb (de_inum de =? 0) then mret (inr false)
      else mret (inl (off + DIRENT_SIZE))
    else mret (inr true)) (2 * DIRENT_SIZE).

Definition unlink_bad (dp : nat) : M kernel Z := iunlockput me dp ;; end_op me ;; mret (-1).

Definition sys_unlink : M kernel Z :=
  '(r, path) ← argstr me 0 MAXPATH;
  if r <? 0 then mret (-1)
  else
  begin_op me ;;
  '(o, name) ← nameiparent me path name_buf;
  match o with
  | None => end_op me ;; mret (-1)
  | Some dp =>
      ilock me (Some dp) ;;
      c1 ← namecmp name (bytes_of "." ++ [0]);
      c2 ← (if c1 =? 0 then mret 0 else namecmp name (bytes_of ".." ++ [0]));
      if c2 =? 0 then unlink_bad dp
      else
        o ← dirlookup me dp name;
        match o with
        | None => unlink_bad dp
        | Some (ip, off) =>
            ilock me (Some ip) ;;
            x ← the_inode ip;
            if i_nlink x <? 1 then panic "unlink: nlink < 1"
            else
              empty ← (if i_type x =? T_DIR then isdirempty ip else mret true);
              if negb empty then iunlockput me ip ;; unlink_bad dp
              else
                w ← writei me dp (SLocal (replicate (Z.to_nat DIRENT_SIZE) 0)) off DIRENT_SIZE;
                if negb (w =? DIRENT_SIZE) then panic "unlink: writei"
                else
                  (if i_type x =? T_DIR then add_nlink dp (-1) ;; iupdate me dp else mret tt) ;;
                  iunlockput me dp ;;
                  add_nlink ip (-1) ;; iupdate me ip ;; iunlockput me ip ;;
                  end_op me ;;
                  mret 0
        end
  end.

Definition create_fail (ip dp : nat) : M kernel (option nat) :=
  set_inode ip (upd_i_nlink (λ _, 0)) ;;
  iupdate me ip ;; iunlockput me ip ;; iunlockput me dp ;; mret None.

(** [.] and [..] of a new directory. *)
Definition create_dots (ip dp : nat) : M kernel Z :=
  x ← the_inode ip;
  d ← the_inode dp;
  r ← dirlink me ip (bytes_of "." ++ [0]) (i_inum x);
  if r <? 0 then mret (-1) else dirlink me ip (bytes_of ".." ++ [0]) (i_inum d).

Definition create (path : list Z) (type major minor : Z) : M kernel (option nat) :=
  '(o, name) ← nameiparent me path name_buf;
  match o with
  | None => mret None
  | Some dp =>
      ilock me (Some dp) ;;
      o ← dirlookup me dp name;
      match o with
      | Some (ip, _) =>
          iunlockput me dp ;;
          ilock me (Some ip) ;;
          x ← the_inode ip;
          if (type =? T_FILE) && ((i_type x =? T_FILE) || (i_type x =? T_DEVICE)) then mret (Some ip)
          else iunlockput me ip ;; mret None
      | None =>
          d ← the_inode dp;
          o ← ialloc me (i_dev d) type;
          match o with
          | None => iunlockput me dp ;; mret None
          | Some ip =>
              ilock me (Some ip) ;;
              set_inode ip (λ x, upd_i_nlink (λ _, 1) (upd_i_minor (λ _, minor) (upd_i_major (λ _, major) x))) ;;
              iupdate me ip ;;
              r ← (if type =? T_DIR then create_dots ip dp else mret 0);
              if r <? 0 then create_fail ip dp
              else
                x ← the_inode ip;
                r ← dirlink me dp name (i_inum x);
                if r <? 0 then create_fail ip dp
                else
                  (if type =? T_DIR then add_nlink dp 1 ;; iupdate me dp else mret tt) ;;
                  iunlockput me dp ;;
                  mret (Some ip)
          end
      end
  end.

(** [sys_open] from the inode on: [ip] is locked. *)
Definition open_file (ip : nat) (omode : Z) : M kernel Z :=
  x ← the_inode ip;
  if (i_type x =? T_DEVICE) && ((i_major x <? 0) || (NDEV <=? i_major x)) then
    iunlockput me ip ;; end_op me ;; mret (-1)
  else
    o ← filealloc;
    fd ← match o with Some f => fdalloc f | None => mret (-1) end;
    match o with
    | Some f =>
        if fd <? 0 then fileclose me f ;; iunlockput me ip ;; end_op me ;; mret (-1)
        else
          (if i_type x =? T_DEVICE then
             set_file f (λ y, upd_f_major (λ _, i_major x) (upd_f_type (λ _, FD_DEVICE) y))
           else set_file f (λ y, upd_f_off (λ _, 0) (upd_f_type (λ _, FD_INODE) y))) ;;
          set_file f (λ y,
            upd_f_writable (λ _, bit omode O_WRONLY || bit omode O_RDWR)
            (upd_f_readable (λ _, negb (bit omode O_WRONLY)) (upd_f_ip (λ _, Some ip) y))) ;;
          (if bit omode O_TRUNC && (i_type x =? T_FILE) then itrunc me ip else mret tt) ;;
          iunlock me (Some ip) ;;
          end_op me ;;
          mret fd
    | None => iunlockput me ip ;; end_op me ;; mret (-1)
    end.

Definition sys_open : M kernel Z :=
  omode ← argint me 1;
  '(n, path) ← argstr me 0 MAXPATH;
  if n <? 0 then mret (-1)
  else
  begin_op me ;;
  if bit omode O_CREATE then
    o ← create path T_FILE 0 0;
    match o with None => end_op me ;; mret (-1) | Some ip => open_file ip omode end
  else
    o ← namei me path;
    match o with
    | None => end_op me ;; mret (-1)
    | Some ip =>
        ilock me (Some ip) ;;
        x ← the_inode ip;
        if (i_type x =? T_DIR) && negb (omode =? O_RDONLY) then
          iunlockput me ip ;; end_op me ;; mret (-1)
        else open_file ip omode
    end.

(** The common part of [sys_mkdir] and [sys_mknod]. *)
Definition make_node (type major minor : Z) : M kernel Z :=
  '(r, path) ← argstr me 0 MAXPATH;
  o ← (if r <? 0 then mret None else create path type major minor);
  match o with
  | None => end_op me ;; mret (-1)
  | Some ip => iunlockput me ip ;; end_op me ;; mret 0
  end.
Definition sys_mkdir : M kernel Z := begin_op me ;; make_node T_DIR 0 0.
Definition sys_mknod : M kernel Z :=
  begin_op me ;;
  major ← argint me 1;
  minor ← argint me 2;
  make_node T_DEVICE (s16 major) (s16 minor).

Definition sys_chdir : M kernel Z :=
  begin_op me ;;
  '(r, path) ← argstr me 0 MAXPATH;
  o ← (if r <? 0 then mret None else namei me path);
  match o with
  | None => end_op me ;; mret (-1)
  | Some ip =>
      ilock me (Some ip) ;;
      x ← the_inode ip;
      if negb (i_type x =? T_DIR) then iunlockput me ip ;; end_op me ;; mret (-1)
      else
        iunlock me (Some ip) ;;
        p ← the_proc me;
        c ← deref (p_cwd p);
        iput me c ;;
        end_op me ;;
        set_proc me (upd_p_cwd (λ _, Some ip)) ;;
        mret 0
  end.

(** Did all arguments arrive, and the pages allocated for them. *)
Definition fetch_args_body (uargv : Z) (st : Z * list Z) : M kernel (Z * list Z + bool * list Z) :=
  let '(i, argv) := st in
  if MAXARG <=? i then mret (inr (false, argv))
  else
    '(r, uarg) ← fetchaddr me (u64 (uargv + 8 * i));
    if r <? 0 then mret (inr (false, argv))
    else if uarg =? 0 then mret (inr (true, argv))
    else
      pa ← vm kalloc;
      if pa =? 0 then mret (inr (false, argv))
      else
        '(r, s) ← fetchstr me uarg PGSIZE;
        vm (modify (set_ram (λ m, store_bytes m pa s))) ;;
        if r <? 0 then mret (inr (false, argv ++ [pa])) else mret (inl (i + 1, argv ++ [pa])).

Definition sys_exec : M kernel Z :=
  uargv ← argaddr me 1;
  '(r, path) ← argstr me 0 MAXPATH;
  if r <? 0 then mret (-1)
  else
    '(ok, argv) ← loopM (S (Z.to_nat MAXARG)) (fetch_args_body uargv) (0, []);
    ret ← (if (ok : bool) then exec me path argv else mret (-1));
    forM argv (λ pa, vm (kfree pa)) ;;
    mret ret.

Definition sys_pipe : M kernel Z :=
  fdarray ← argaddr me 0;
  '(r, rf, wf) ← pipealloc me;
  if r <? 0 then mret (-1)
  else
    rf ← deref rf;
    wf ← deref wf;
    fd0 ← fdalloc rf;
    fd1 ← (if fd0 <? 0 then mret (-1) else fdalloc wf);
    if fd1 <? 0 then
      (if 0 <=? fd0 then clear_fd fd0 else mret tt) ;;
      fileclose me rf ;; fileclose me wf ;; mret (-1)
    else
      p ← the_proc me;
      r ← vm (copyout (p_pagetable p) fdarray (le_put 4 fd0) 4);
      r ← (if r <? 0 then mret (-1)
           else vm (copyout (p_pagetable p) (u64 (fdarray + 4)) (le_put 4 fd1) 4));
      if r <? 0 then
        clear_fd fd0 ;; clear_fd fd1 ;; fileclose me rf ;; fileclose me wf ;; mret (-1)
      else mret 0.

(** ** mmap *)

Definition sys_mmap : M kernel Z :=
  addr ← argaddr me 0;
  len ← argint me 1;
  prot ← argint me 2;
  flags ← argint me 3;
  fd ← argint me 4;
  off ← argint me 5;
  p ← the_proc me;
  if fd <? 0 then fault "ofile"
  else
  match p_ofile p !! Z.to_nat fd with
  | None => fault "ofile"
  | Some fp =>
      bad ← (if flags =? MAP_SHARED then
               f ← deref fp; x ← the_file f; mret (negb (f_writable x) && bit prot PROT_WRITE)
             else mret false);
      if (bad : bool) then mret (-1)
      else
        match list_find (λ v, v_valid v = false) (p_vma p) with
        | None => panic "All VMA struct is full!"
        | Some (idx, _) =>
            set_proc me (upd_p_vma (alter (λ v,
              upd_v_f (λ _, fp) (upd_v_prot (λ _, prot) (upd_v_off (λ _, off)
              (upd_v_flags (λ _, flags) (upd_v_len (λ _, len) (upd_v_valid (λ _, true) v)))))) idx)) ;;
            f ← deref fp;
            filedup f ;;
            set_proc me (λ p, upd_p_vma_top (λ a, u64 (a - len)) p) ;;
            set_proc me (λ p, upd_p_vma (alter (upd_v_addr (λ _, p_vma_top p)) idx) p) ;;
            p ← the_proc me;
            mret (p_vma_top p)
        end
  end.

(** The mapping that an address belongs to, as [sys_munmap] and [usertrap] search it. *)
Definition vma_has (a : Z) (v : vma) : Prop :=
  v_addr v ≤ a ∧ a < u64 (v_addr v + v_len v) ∧ v_valid v = true.
#[local] Instance vma_has_dec a v : Decision (vma_has a v).
Proof. unfold vma_has. apply _. Defined.
Definition find_vma (a : Z) (l : list vma) : option nat := fst <$> list_find (vma_has a) l.

Definition sys_munmap : M kernel Z :=
  addr ← argaddr me 0;
  len ← argint me 1;
  p ← the_proc me;
  match find_vma addr (p_vma p) with
  | None => panic "Cannot find a vma struct representing this file!"
  | Some j =>
      v ← deref (p_vma p !! j);
      pa ← vm (walkaddr (p_pagetable p) addr);
      if negb (pa =? 0) then
        (if v_flags v =? MAP_SHARED then f ← deref (v_f v); filewrite me f addr len ;; mret tt
         else mret tt) ;;
        vm (uvmunmap (p_pagetable p) addr (u64 (Z.quot len PGSIZE)) true) ;;
        mret 0
      else
        set_proc me (upd_p_vma (alter (upd_v_refcnt (λ r, u64 (r - 1))) j)) ;;
        (if negb (u64 (v_refcnt v - 1) =? 0) then
           f ← deref (v_f v);
           fileclose me f ;;
           set_proc me (upd_p_vma (alter (upd_v_valid (λ _, false)) j))
         else mret tt) ;;
        mret 0
  end.
End sysfile.
