(* ===== verification/Syscall.v ===== *)
(** * The system call table

    [kernel/sysproc.c] and the dispatch of [kernel/syscall.c]. *)

From S2P Require Import Prelude Riscv Memory CString Kalloc Vm State Bytes Sched Printf Bio Log Fs Console Pipe File Proc Exec Sysfile.

Section sysproc.
Context {I : Image} {T : Text} `{SleepFuel} (me : nat).

Definition sys_exit : M kernel Z := n ← argint me 0; exit me n ;; mret 0.
Definition sys_getpid : M kernel Z := p ← the_proc me; mret (p_pid p).
Definition sys_fork : M kernel Z := fork me.
Definition sys_wait : M kernel Z := p ← argaddr me 0; wait me p.
Definition sys_sbrk : M kernel Z :=
  n ← argint me 0;
  p ← the_proc me;
  r ← growproc me n;
  if r <? 0 then mret (-1) else mret (p_sz p).
Definition sys_sleep : M kernel Z :=
  n ← argint me 0;
  let n := if n <? 0 then 0 else n in
  ticks0 ← gets ticks;
  loopM (S sleep_fuel) (λ _,
    t ← gets ticks;
    if u32 (t - ticks0) <? n then
      k ← killed me;
      if (k : bool) then mret (inr (-1)) else sleep me ChTicks ;; mret (inl tt)
    else mret (inr 0)) tt.
Definition sys_kill : M kernel Z := pid ← argint me 0; kill pid.
Definition sys_uptime : M kernel Z := gets ticks.

(** ** syscall.h and syscall.c *)

Definition syscalls (num : Z) : option (M kernel Z) :=
  ([None; Some sys_fork; Some sys_exit; Some sys_wait; Some (sys_pipe me); Some (sys_read me);
    Some sys_kill; Some (sys_exec me); Some (sys_fstat me); Some (sys_chdir me); Some (sys_dup me);
    Some sys_getpid; Some sys_sbrk; Some sys_sleep; Some sys_uptime; Some (sys_open me);
    Some (sys_write me); Some (sys_mknod me); Some (sys_unlink me); Some (sys_link me);
    Some (sys_mkdir me); Some (sys_close me); Some (sys_mmap me); Some (sys_munmap me)]
   !! Z.to_nat num) ≫= id.

Definition syscall : M kernel unit :=
  a7 ← tf_load me (TF_a 7);
  let num := s32 a7 in
  match (if num >? 0 then syscalls num else None) with
  | Some f => r ← f; tf_store me (TF_a 0) r
  | None =>
      p ← the_proc me;
      printf (line "%d %s: unknown sys call %d") [PInt (p_pid p); PStr (Some (cstr (p_name p))); PInt num] ;;
      tf_store me (TF_a 0) (-1)
  end.
End sysproc.
