(* ===== verification/Trap.v ===== *)
(** * Traps

    [kernel/trap.c], [yield] and [forkret] of [kernel/proc.c], and [main].  The
    registers a handler reads are an argument. *)

From S2P Require Import Prelude Riscv Memory CString Kalloc Vm State Bytes Sched Printf Bio Log Fs Console Pipe File Proc Exec Sysfile Syscall.

Definition SSTATUS_SPP : Z := Z.shiftl 1 8.
Definition SSTATUS_SPIE : Z := Z.shiftl 1 5.
Definition SSTATUS_SIE : Z := Z.shiftl 1 1.
Definition UART0_IRQ : Z := 10.
Definition VIRTIO0_IRQ : Z := 1.

(** The registers of the hart at the trap, and what [plic_claim] returns. *)
Record csrs := Csrs {
  r_sstatus : Z; r_sepc : Z; r_scause : Z; r_stval : Z; r_satp : Z; r_tp : Z; plic_irq : Z }.

(** The registers with which [usertrapret] enters [userret]. *)
Record uret := Uret { u_stvec : Z; u_sstatus : Z; u_sepc : Z; u_satp : Z; u_jump : Z }.

(** [yield]: runnable, and off the CPU until the scheduler picks it again. *)
Definition yield (me : nat) : M kernel unit :=
  set_proc me (upd_p_state (λ _, RUNNABLE)) ;; sleep_on ChNull.

Definition clockintr (cur : option nat) : M kernel unit :=
  modify (upd_ticks (λ t, u32 (t + 1))) ;; wakeup cur ChTicks.

Section trap.
Context {I : Image} {T : Text} `{SleepFuel}.
(** The disk's interrupt handler acts on the driver's own state (see [Virtio]). *)
Context (virtio_disk_intr : M kernel unit).

Definition devintr (cur : option nat) (c : csrs) : M kernel Z :=
  if bit (r_scause c) 0x8000000000000000 && (Z.land (r_scause c) 0xff =? 9) then
    let irq := plic_irq c in
    (if irq =? UART0_IRQ then uartintr cur
     else if irq =? VIRTIO0_IRQ then virtio_disk_intr
     else if irq =? 0 then mret tt
     else printf (line "unexpected interrupt irq=%d") [PInt irq]) ;;
    mret 1
  else if r_scause c =? 0x8000000000000001 then
    (if r_tp c =? 0 then clockintr cur else mret tt) ;;
    mret 2
  else mret 0.

Definition kerneltrap (cur : option nat) (c : csrs) : M kernel unit :=
  if negb (bit (r_sstatus c) SSTATUS_SPP) then panic "kerneltrap: not from supervisor mode"
  else if bit (r_sstatus c) SSTATUS_SIE then panic "kerneltrap: interrupts enabled"
  else
    which_dev ← devintr cur c;
    if which_dev =? 0 then
      printf (line "scause %p") [PPtr (r_scause c)] ;;
      printf (line "sepc=%p stval=%p") [PPtr (r_sepc c); PPtr (r_stval c)] ;;
      panic "kerneltrap"
    else
      match cur with
      | Some me =>
          p ← the_proc me;
          if (which_dev =? 2) && bool_decide (p_state p = RUNNING) then yield me else mret tt
      | None => mret tt
      end.

Section user.
Context (me : nat).

Definition usertrapret (c : csrs) : M kernel uret :=
  p ← the_proc me;
  tf_store me TF_kernel_satp (r_satp c) ;;
  tf_store me TF_kernel_sp (p_kstack p + PGSIZE) ;;
  tf_store me TF_kernel_trap usertrap_addr ;;
  tf_store me TF_kernel_hartid (r_tp c) ;;
  epc ← tf_load me TF_epc;
  mret (Uret (TRAMPOLINE + (uservec - trampoline))
          (Z.lor (Z.land (r_sstatus c) (Z.lnot SSTATUS_SPP)) SSTATUS_SPIE)
          epc (MAKE_SATP (p_pagetable p)) (TRAMPOLINE + (userret - trampoline))).

(** A load page fault: [false] when the address is in no mapping. *)
Definition load_fault (target_va : Z) : M kernel bool :=
  p ← the_proc me;
  match find_vma target_va (p_vma p) with
  | None => mret false
  | Some j =>
      v ← deref (p_vma p !! j);
      pa ← vm kalloc;
      if pa =? 0 then fault "memset"
      else
        vm (modify (set_ram (memset pa 0 PGSIZE))) ;;
        r ← vm (mappages (p_pagetable p) target_va PGSIZE pa
                  (Z.lor (Z.lor PTE_U PTE_V) (Z.shiftl (v_prot v) 1)));
        if r <? 0 then panic "Cannot map a virtual page for the file!"
        else
          set_proc me (upd_p_vma (alter (upd_v_refcnt (λ r, u64 (r + 1))) j)) ;;
          f ← deref (v_f v);
          x ← the_file f;
          ilock me (f_ip x) ;;
          ip ← deref (f_ip x);
          readi me ip (DKern pa) (u32 (target_va - v_addr v)) PGSIZE ;;
          iunlock me (f_ip x) ;;
          mret true
  end.

Definition unexpected_scause (c : csrs) : M kernel unit :=
  p ← the_proc me;
  printf (line "usertrap(): unexpected scause %p pid=%d") [PPtr (r_scause c); PInt (p_pid p)] ;;
  printf (line "            sepc=%p stval=%p") [PPtr (r_sepc c); PPtr (r_stval c)] ;;
  setkilled me.

(** [if(killed(p)) exit(-1);] *)
Definition exit_if_killed : M kernel unit :=
  k ← killed me; if (k : bool) then exit me (-1) else mret tt.

(** What a trap does before its end: the [which_dev] of the code. *)
Definition usertrap_handle (c : csrs) : M kernel Z :=
  if r_scause c =? 8 then
    exit_if_killed ;;
    epc ← tf_load me TF_epc;
    tf_store me TF_epc (epc + 4) ;;
    syscall me ;;
    mret 0
  else if r_scause c =? 13 then
    ok ← load_fault (r_stval c);
    (if (ok : bool) then mret tt
     else
       printf (line "Unable to find the VMA struct that the file belongs to!") [] ;;
       unexpected_scause c) ;;
    mret 0
  else
    which_dev ← devintr (Some me) c;
    if which_dev =? 0 then unexpected_scause c ;; mret 0 else mret which_dev.

Definition usertrap (c : csrs) : M kernel uret :=
  if bit (r_sstatus c) SSTATUS_SPP then panic "usertrap: not from user mode"
  else
    tf_store me TF_epc (r_sepc c) ;;
    which_dev ← usertrap_handle c;
    exit_if_killed ;;
    (if which_dev =? 2 then yield me else mret tt) ;;
    usertrapret c.

(** [first]: is it the first process to run. *)
Definition forkret (first : bool) (c : csrs) : M kernel uret :=
  (if (first : bool) then fsinit me ROOTDEV else mret tt) ;; usertrapret c.
End user.
End trap.

(** ** main *)

(** What hart 0 does before the scheduler; the result is [kernel_pagetable]. *)
Definition main_boot {I : Image} {T : Text} `{SleepFuel} : M kernel Z :=
  printf (line "") [] ;;
  printf (line "xv6 kernel is booting") [] ;;
  printf (line "") [] ;;
  vm kinit ;;
  kpgtbl ← vm kvmmake;
  procinit ;;
  binit ;;
  iinit ;;
  userinit ;;
  mret kpgtbl.
