(* ===== verification/Mmap.v ===== *)
(** * Memory-mapped files

    [sys_mmap] and [sys_munmap] of [kernel/sysfile.c] and the page-fault case of
    [usertrap] in [kernel/trap.c]: what the mappings of a process are, and what
    a fault and an unmapping do to them. *)

From S2P Require Import Prelude Riscv Memory CString Kalloc Vm PageTable Mapping UserCopy Uvm State Bytes Printf PrintfSpec Sched Bio BioSpec Cache Log LogSpec Crash Txn Fs FsBlock FsFile FsInode FsWrite Console Pipe File Proc Exec Sysfile Syscall Trap.

Lemma proc_ext (a b : proc) :
  p_state a = p_state b → p_chan a = p_chan b → p_killed a = p_killed b → p_xstate a = p_xstate b → p_pid a = p_pid b → p_parent a = p_parent
  b → p_kstack a = p_kstack b → p_sz a = p_sz b → p_pagetable a = p_pagetable b → p_trapframe a = p_trapframe b → ctx_ra a = ctx_ra b → ctx_sp
  a = ctx_sp b → p_ofile a = p_ofile b → p_cwd a = p_cwd b → p_name a = p_name b → p_vma a = p_vma b → p_vma_top a = p_vma_top b → a = b.
Proof. destruct a, b. cbn. intros. by subst. Qed.
Lemma kernel_ext (a b : kernel) :
  mach a = mach b → procs a = procs b → initproc a = initproc b → nextpid a = nextpid b → ftable a = ftable b → pipes a = pipes b → itable a =
  itable b → bcache a = bcache b → klog a = klog b → sb a = sb b → kdisk a = kdisk b → ticks a = ticks b → cons a = cons b → uart a = uart b →
  a = b.
Proof. destruct a, b. cbn. intros. by subst. Qed.

(** ** The mappings of a process *)

Definition vma_end (v : vma) : Z := v_addr v + v_len v.

(** The mappings lie between [vma_top_addr] and the trapframe and do not overlap. *)
Record vmas_ok (p : proc) : Prop := {
  vo_len : length (p_vma p) = Z.to_nat VMA_MAX;
  vo_top : 0 ≤ p_vma_top p ≤ TRAPFRAME;
  vo_in : ∀ i v, p_vma p !! i = Some v → v_valid v = true → p_vma_top p ≤ v_addr v ∧ 0 < v_len v ∧ vma_end v ≤ TRAPFRAME;
  vo_disj : ∀ i j v w, p_vma p !! i = Some v → p_vma p !! j = Some w → i ≠ j → v_valid v = true → v_valid w = true →
    vma_end v ≤ v_addr w ∨ vma_end w ≤ v_addr v;
}.

Section mmap.
Context {I : Image} {T : Text} `{SleepFuel} (me : nat).

(** System call argument [n] of process [p]. *)
Definition arg (k : kernel) (p : proc) (n : Z) : Z := load64 (ram (mach k)) (p_trapframe p + TF_a n).

Lemma argraw_wp k p n (Q : Z → kernel → Prop) :
  procs k !! me = Some p → 0 ≤ n ≤ 5 → Q (arg k p n) k → wp (argraw me n) Q k.
Proof.
  intros Hp Hn HQ. unfold argraw. rewrite (proj2 (Z.leb_le 0 n)), (proj2 (Z.leb_le n 5)) by lia. cbn [andb].
  unfold tf_load. wp_step. eapply wp_at_idx; [exact Hp|]. apply wp_zoom, wp_gets. cbn. by destruct k.
Qed.
Lemma argint_wp k p n (Q : Z → kernel → Prop) :
  procs k !! me = Some p → 0 ≤ n ≤ 5 → Q (s32 (arg k p n)) k → wp (argint me n) Q k.
Proof. intros Hp Hn HQ. unfold argint. wp_step. eapply argraw_wp; [done..|]. by wp_step. Qed.

(** The mapping that [sys_mmap] makes in slot [idx]. *)
Definition new_vma (v : vma) (addr len prot flags off : Z) (f : nat) : vma :=
  Vma true addr len prot flags off (Some f) (v_refcnt v).
Definition mapped (p : proc) (idx : nat) (v : vma) : proc :=
  upd_p_vma (<[idx := v]>) (upd_p_vma_top (λ _, v_addr v) p).

Lemma mapped_ok p idx v0 v :
  vmas_ok p → p_vma p !! idx = Some v0 → 0 < v_len v → 0 ≤ v_addr v → vma_end v = p_vma_top p → vmas_ok (mapped p idx v).
Proof.
  intros [H1 H2 H3 H4] Hi Hl Ha He. pose proof He as He'. unfold vma_end in He'. split; cbn.
  - by rewrite length_insert.
  - lia.
  - intros i w Hw Hv. apply list_lookup_insert_Some in Hw as [(_ & <- & _)|[_ Hw]]; [lia|]. destruct (H3 i w Hw Hv). lia.
  - assert (∀ i w, p_vma p !! i = Some w → v_valid w = true → vma_end v ≤ v_addr w) as Hb.
    { intros i w Hw Hv. destruct (H3 i w Hw Hv). lia. }
    intros i j u w Hu Hw Hne Vu Vw. apply list_lookup_insert_Some in Hu as [(<- & <- & _)|[_ Hu]], Hw as [(<- & <- & _)|[_ Hw]]; [done| | |eauto].
    + left. eauto.
    + right. eauto.
Qed.

(** C14: [sys_mmap] of [len > 0] bytes of an open file, with a free slot and the
    permission to write if the mapping is shared and writable: it takes the bytes
    just below the lowest mapping, records the mapping in the first free slot,
    holds a reference to the file, and the mappings stay disjoint. *)
Theorem sys_mmap_spec k p len prot flags fd off f x idx v0 :
  procs k !! me = Some p → vmas_ok p →
  s32 (arg k p 1) = len → s32 (arg k p 2) = prot → s32 (arg k p 3) = flags → s32 (arg k p 4) = fd → s32 (arg k p 5) = off →
  0 < len ≤ p_vma_top p → 0 ≤ fd → p_ofile p !! Z.to_nat fd = Some (Some f) → ftable k !! f = Some x → 1 ≤ f_ref x →
  (flags = MAP_SHARED → f_writable x = true ∨ bit prot PROT_WRITE = false) →
  list_find (λ v, v_valid v = false) (p_vma p) = Some (idx, v0) →
  let v := new_vma v0 (p_vma_top p - len) len prot flags off f in
  sys_mmap me k = Done (p_vma_top p - len) (upd_ftable (<[f := upd_f_ref (λ r, r + 1) x]>) (upd_procs (<[me := mapped p idx v]>) k)) ∧
  vmas_ok (mapped p idx v) ∧ v_len v = len ∧ v_f v = Some f.
Proof.
  intros Hp Hv E1 E2 E3 E4 E5 Hlen Hfd Hof Hx Hr Hw Hfind v.
  assert (wp (sys_mmap me) (λ r k', r = p_vma_top p - len ∧
    k' = upd_ftable (<[f := upd_f_ref (λ r, r + 1) x]>) (upd_procs (<[me := mapped p idx v]>) k)) k) as Hwp.
  { unfold sys_mmap. wp_step. eapply argraw_wp; [done|lia|]. do 5 (wp_step; eapply argint_wp; [done|lia|]). rewrite E1, E2, E3, E4, E5.
    wp_step. eapply wp_at_idx; [exact Hp|]. rewrite (proj2 (Z.ltb_ge fd 0)), Hof by lia. wp_step.
    assert (wp (if flags =? MAP_SHARED then f ← deref (Some f); x ← the_file f; mret (negb (f_writable x) && bit prot PROT_WRITE) else mret false)
      (λ b k1, b = false ∧ k1 = k) k) as Hbad.
    { case_if E; [|by wp_step]. unfold deref. wp_steps. eapply wp_at_idx; [exact Hx|]. wp_step. split; [|done].
      destruct (Hw E) as [->| ->]; [done|apply andb_false_r]. }
    eapply wp_mono; [exact Hbad|]. intros b k1 [-> ->]. cbv iota. rewrite Hfind.
    apply list_find_Some in Hfind as (Hi & _ & _).
    wp_step. eapply wp_set_idx; [exact Hp|]. unfold deref. wp_steps. unfold filedup. wp_step. eapply wp_at_idx; [exact Hx|].
    rewrite (proj2 (Z.ltb_ge _ 1)) by lia. wp_step. eapply wp_set_idx; [exact Hx|]. wp_steps.
    assert (∀ q, <[me := q]> (procs k) !! me = Some q) as Hme by (intros q; apply list_lookup_insert_eq; by eapply lookup_lt_Some).
    eapply wp_set_idx; [apply Hme|]. wp_step. eapply wp_set_idx; [cbn; rewrite list_insert_insert_eq; apply Hme|]. wp_step.
    eapply wp_at_idx; [cbn; rewrite !list_insert_insert_eq; apply Hme|]. wp_step. cbn [p_vma_top upd_p_vma upd_p_vma_top].
    assert (u64 (p_vma_top p - len) = p_vma_top p - len) as Hu.
    { apply u64_id. destruct (vo_top _ Hv). change TRAPFRAME with (2 ^ 38 - 8192) in *. lia. }
    split; [exact Hu|]. apply kernel_ext; try reflexivity. cbn. rewrite !list_insert_insert_eq. f_equal.
    apply proc_ext; try reflexivity; cbn; [|exact Hu]. rewrite Hu.
    rewrite (alter_Some _ _ _ _ Hi), (alter_Some _ _ _ _ (list_lookup_insert_eq _ _ _ (lookup_lt_Some _ _ _ Hi))). apply list_insert_insert_eq. }
  apply wp_elim in Hwp as (r & k' & Hrun & -> & ->). split_and!; [done| |done|done]. apply list_find_Some in Hfind as (Hi & _ & _).
  eapply mapped_ok; [done|exact Hi|cbn; lia..|unfold vma_end; cbn; lia].
Qed.
End mmap.

(** ** Page faults

    The page that a load fault allocates, maps and fills. *)

Definition fault_perm (v : vma) : Z := Z.lor (Z.lor PTE_U PTE_V) (Z.shiftl (v_prot v) 1).
Lemma fault_perm_bound v : 0 ≤ v_prot v < 8 → 0 ≤ fault_perm v < 1024.
Proof.
  intros Hv. apply (lor_bound _ _ 10); [lia|change (Z.lor PTE_U PTE_V) with 17; lia|]. rewrite Z.shiftl_mul_pow2 by lia. lia.
Qed.

Section fault_page.
Context {I : Image}.

(** Writing into a user page. *)
Lemma user_page_store s l own root vpn q s' :
  pt_inv s l own → own !! q = Some (UPage root vpn) → same_outside q (ram s) (ram s') → bytes_ok (ram s') →
  freelist s' = freelist s → pt_inv s' l own ∧ same_lookups (ram s) (ram s') own.
Proof using Type.
  intros Hs Hq Hout Hb Hfl. assert (page_ok q) as Hqok by (by eapply pt_page).
  assert (tables_agree own (ram s) (ram s')) as Ht.
  { intros p a b c Hp. assert (page_ok p) as [Hpa _] by (by eapply pt_page).
    apply (same_outside_page q); [done|apply Hqok|done|congruence]. }
  assert (q ∉ l) as Hql by (intros Hin; rewrite (pt_free _ _ _ Hs q Hin) in Hq; done).
  destruct (pt_kmem _ _ _ Hs) as [_ Hkl Hkn Hkp]. split.
  - eapply pt_inv_pres; [done| |apply Hs|apply Hs|done|done].
    split; [done| |done|done]. rewrite Hfl. eapply fl_rep_outside; try done. apply Hqok.
  - intros r0 va0 Hr0 Hva0. by apply (tables_agree_lookup s l own (ram s') r0 va0).
Qed.

Lemma fill_page init s l own root va perm s1 l1 own1 q bytes :
  new_page init s l own root va perm s1 l1 own1 q → own !! q = None → (length bytes ≤ 4096)%nat →
  new_page (λ q m, store_bytes (init q m) q bytes) s l own root va perm
    (set_ram (λ m, store_bytes m q bytes) s1) l1 own1 q.
Proof using Type.
  intros [Hi Hf Hr Hl Hp Hn Hc (m1 & Hm1 & Ho1 & Ha1)] Hfresh Hlen.
  assert (same_outside q (ram s1) (store_bytes (ram s1) q bytes)) as Hout.
  { intros x Hx. rewrite load8_store_bytes, decide_False by lia. done. }
  destruct (user_page_store s1 l1 own1 root (va / 4096) q (set_ram (λ m, store_bytes m q bytes) s1)) as [Hi2 Hl2];
    [done|done|exact Hout|apply store_bytes_ok, Hi|done|].
  pose proof (vf_own _ _ _ _ _ _ _ _ _ Hf) as Hsub.
  split; [done| |done| |done|done|done|].
  - destruct Hf as [Fo Fd Ff Fn Fa Fl]. split; try done.
    + intros p r Hpr Hnt. eapply agree_trans; [by eapply Fd|]. assert (page_ok p) as [Hpa _].
      { eapply pt_page; [exact Hi|]. by eapply lookup_weaken. }
      apply (same_outside_page q); [exact Hout|apply Hp|done|congruence].
    + intros r0 va0 Hr0 Hva0 Hne. rewrite Hl2; [by apply Fl| |done]. by eapply lookup_weaken.
  - intros r0 va0 Hr0 Hva0. rewrite Hl2; [by apply Hl|by eapply lookup_weaken|done].
  - exists m1. split_and!; [done|done|]. intros x Hx. cbn [ram set_ram]. rewrite !load8_store_bytes.
    case_decide; [done|]. by apply Ha1.
Qed.

Definition zero_page (q : Z) (m : mem) : mem := memset q 0 PGSIZE m.

(** With three free pages the fault gets its page and its page tables. *)
Lemma fault_page_wp {A} k l own root va perm (m : Z → M kernel A) (Q : A → kernel → Prop) :
  pt_inv (mach k) l own → is_root own root → va mod 4096 = 0 → 0 ≤ va → va + 4096 ≤ MAXVA → 0 ≤ perm < 1024 →
  bit (lookup_pte (ram (mach k)) root va) PTE_V = false → (3 ≤ length l)%nat →
  (∀ q s' l' own', new_page zero_page (mach k) l own root va perm s' l' own' q → own !! q = None →
     wp (m q) Q (upd_mach (λ _, s') k)) →
  wp (pa ← vm kalloc;
      if pa =? 0 then fault "memset"
      else
        vm (modify (set_ram (memset pa 0 PGSIZE))) ;;
        r ← vm (mappages root va PGSIZE pa perm);
        if r <? 0 then panic "Cannot map a virtual page for the file!" else m pa) Q k.
Proof using Type.
  intros Hs Hr Hal Hva Hmax Hperm Hinv Hlen HQ. unfold vm. wp_step. apply wp_zoom. eapply wp_mono; [by apply kalloc_role|].
  intros q s1 [(_ & -> & _)|(l1 & -> & Hne & Hq & Hfresh & Hql & Hs1 & Hout)]; [cbn in Hlen; lia|].
  rewrite (proj2 (Z.eqb_neq _ _) Hne). wp_step. apply wp_zoom, wp_modify. cbn [mach upd_mach].
  destruct (new_page_fill zero_page (λ q m _ _, memset_page_out q m) (λ q m, memset_ok q 0 PGSIZE m) (mach k) l1 own q s1 root va
    Hs Hq Hfresh Hql Hs1 Hout Hal) as (Hs2 & Hout2 & Hlk2 & Hf2).
  fold (zero_page q). set (s2 := set_ram (zero_page q) s1) in *. set (own2 := <[q := _]> own) in *.
  assert (is_root own2 root) as Hr2 by (unfold is_root, own2; rewrite lookup_insert_ne; congruence).
  pose proof (page_ok_pos q Hq) as Hqpos. unfold PHYSTOP, KERNBASE in Hqpos.
  wp_step. apply wp_zoom. cbn [mach upd_mach]. eapply wp_mono; [apply (mappages_wp s2 l1 own2 root va PGSIZE q perm)|];
    [exact Hs2|exact Hr2|exact Hal|exact Hva|reflexivity|reflexivity|exact Hmax|apply Hq|lia|unfold PGSIZE; lia|exact Hperm| |].
  { unfold PGSIZE. intros va0 Hva0. rewrite Hlk2 by (exact Hr || lia). rewrite <-Hinv. f_equal. apply lookup_page. Z.div_mod_to_equations. lia. }
  change (PGSIZE / 4096) with 1. intros r s3 (l3 & own3 & n & Hs3 & Hf3 & Hm & Hres).
  destruct Hres as [(-> & -> & Hl0)|(-> & Hn & _ & Hl0)]; [|unfold free_pages in Hl0; cbn in Hlen; lia].
  change (0 <? 0) with false. cbv iota. cbn [upd_mach mach]. eapply HQ; [|exact Hfresh].
  apply (new_page_mapped zero_page (mach k) l1 own q s1 root va perm s3 l3 own3); assumption.
Qed.
End fault_page.

(** [m] panics with [msg]. *)
Definition panics {S A} (m : M S A) (msg : string) (s : S) : Prop := ∃ s', m s = Panic msg s'.
Lemma panics_now {S A} msg (s : S) : panics (panic (A := A) msg) msg s.
Proof. by exists s. Qed.
Lemma panics_bind {S A B} (m : M S A) (f : A → M S B) msg s : wp m (λ a, panics (f a) msg) s → panics (m ≫= f) msg s.
Proof. unfold wp, panics, mbind, M_bind. destruct (m s); [done|done..]. Qed.
Lemma panics_bind_now {S A B} (m : M S A) (f : A → M S B) msg s : panics m msg s → panics (m ≫= f) msg s.
Proof. intros [s' E]. exists s'. unfold mbind, M_bind. by rewrite E. Qed.
Lemma panics_zoom {S T A} (g : T → S) (p : S → T → T) (m : M S A) msg t : panics m msg (g t) → panics (zoom g p m) msg t.
Proof. intros [s' E]. unfold panics, zoom. rewrite E. by eexists. Qed.

Section fault.
Context {I : Image} {T : Text} `{SleepFuel} (me : nat) (pid : Z) (S : superblock).

(** A load at [va] by process [p] falls into mapping [j], of the file of entry
    [i] of the inode table, which nobody has locked. *)
Record fault_at (k : kernel) (p : proc) (va : Z) (j : nat) (v : vma) (i : nat) (ip : inode) : Prop := {
  fa_proc : procs k !! me = Some p;
  fa_find : find_vma va (p_vma p) = Some j;
  fa_vma : p_vma p !! j = Some v;
  fa_ok : vmas_ok p;
  fa_len : v_len v < 2 ^ 31;
  fa_prot : 0 ≤ v_prot v < 8;
  fa_file : ∃ f x, v_f v = Some f ∧ ftable k !! f = Some x ∧ f_ip x = Some i;
  fa_inode : itable k !! i = Some ip;
  fa_ref : 1 ≤ i_ref ip;
  fa_lock : sl_locked (i_lock ip) = false;
  fa_dev : i_dev ip = ROOTDEV;
  fa_sb : sb k = S;
}.

Lemma find_vma_range a l j v : find_vma a l = Some j → l !! j = Some v → vma_has a v.
Proof using Type.
  unfold find_vma. intros Hf Hj. destruct (list_find (vma_has a) l) as [[j' v']|] eqn:E; [|done]. injection Hf as <-.
  apply list_find_Some in E as (Hj' & Hv & _). cbn in Hj. congruence.
Qed.
Lemma fault_range k p va j v i ip : fault_at k p va j v i ip →
  0 ≤ v_addr v ∧ v_addr v ≤ va ∧ va < v_addr v + v_len v ∧ v_addr v + v_len v ≤ TRAPFRAME ∧ va - v_addr v < 2 ^ 31.
Proof using Type.
  intros Hf. destruct (find_vma_range _ _ _ _ (fa_find _ _ _ _ _ _ _ Hf) (fa_vma _ _ _ _ _ _ _ Hf)) as (H1 & H2 & H3).
  destruct (vo_in _ (fa_ok _ _ _ _ _ _ _ Hf) _ _ (fa_vma _ _ _ _ _ _ _ Hf) H3) as (H4 & H5 & H6).
  pose proof (vo_top _ (fa_ok _ _ _ _ _ _ _ Hf)) as H7. pose proof (fa_len _ _ _ _ _ _ _ Hf). unfold vma_end in *.
  change TRAPFRAME with (2 ^ 38 - 8192) in *. rewrite u64_id in H2 by lia. lia.
Qed.

Lemma cache_read_mach D k held s : cache_read me pid D k held → cache_read me pid D (upd_mach (λ _, s) k) held.
Proof using Type. intros ([[l Hl] C Hm] & HD). split; [|done]. split; [exists l; by apply (dll_bcache k)|done|done]. Qed.
Lemma cache_read_proc D k held p f :
  procs k !! me = Some p → p_pid (f p) = p_pid p → cache_read me pid D k held →
  cache_read me pid D (upd_procs (λ _, <[me := f p]> (procs k)) k) held.
Proof using Type.
  intros Hp Hf ([[l Hl] C (q & Hq & Hpid)] & HD). split; [|done]. split; [exists l; by apply (dll_bcache k)|done|].
  exists (f p). cbn. split; [apply list_lookup_insert_eq; by eapply lookup_lt_Some|]. rewrite Hf. congruence.
Qed.
Lemma file_ok_lock V ip lk : file_ok S V ip → file_ok S V (upd_i_lock (λ _, lk) ip).
Proof using Type. intros []. by split. Qed.

Lemma loaded_ref V ip : i_ref (loaded S V ip) = i_ref ip.
Proof using Type. unfold loaded. by destruct (i_valid ip). Qed.

(** The process after the fault. *)
Definition faulted (p : proc) (j : nat) : proc := upd_p_vma (alter (upd_v_refcnt (λ r, u64 (r + 1))) j) p.

Lemma load_fault_wp k p va j v i ip l own (Q : bool → kernel → Prop) :
  let V := disk_block (kdisk k) in let ip' := loaded S V ip in
  let root := p_pagetable p in let off := va - v_addr v in let data := fbytes V ip' off (avail ip' off PGSIZE) in
  cache me pid k ∅ ∅ V → fault_at k p va j v i ip → i_type ip' ≠ 0 → file_ok S V ip' → whole V ip' →
  pt_inv (mach k) l own → is_root own root → va mod 4096 = 0 → bit (lookup_pte (ram (mach k)) root va) PTE_V = false →
  (3 ≤ length l)%nat →
  (∀ k' q l' own' s', new_page zero_page (mach k) l own root va (fault_perm v) s' l' own' q → own !! q = None →
     cache_read me pid (kdisk k) k' ∅ →
     bframe (seti i (upd_i_lock (λ _, Sleeplock false 0) ip') (upd_mach (λ _, set_ram (λ m, store_bytes m q data) s')
       (upd_procs (<[me := faulted p j]>) k))) k' → Q true k') →
  wp (load_fault me va) Q k.
Proof.
  intros V ip' root off data HC Hf Hty Hok Hw Hpt Hr Hal Hun Hlen HQ.
  destruct (fault_range _ _ _ _ _ _ _ Hf) as (Ha & Hva & Hvl & Htf & Hoff).
  destruct (fa_file _ _ _ _ _ _ _ Hf) as (f & x & Hvf & Hx & Hip).
  unfold load_fault. wp_step. eapply wp_at_idx; [apply Hf|]. rewrite (fa_find _ _ _ _ _ _ _ Hf), (fa_vma _ _ _ _ _ _ _ Hf).
  wp_step. cbn [deref]. wp_step. eapply fault_page_wp; [exact Hpt|exact Hr|exact Hal|lia| | |exact Hun|exact Hlen|].
  { change MAXVA with (2 ^ 38). change TRAPFRAME with (2 ^ 38 - 8192) in Htf. pose proof (Z.div_mod va 4096 ltac:(done)). Z.div_mod_to_equations. lia. }
  { apply fault_perm_bound, Hf. }
  intros q s' l' own' Hnew Hfresh. fold (fault_perm v) in Hnew. pose proof (np_page _ _ _ _ _ _ _ _ _ _ _ Hnew) as Hq.
  pose proof (page_ok_pos q Hq) as Hqpos. unfold PHYSTOP, KERNBASE in Hqpos.
  assert (cache_read me pid (kdisk k) (upd_mach (λ _, s') k) ∅) as P1 by (apply cache_read_mach; by split).
  wp_step. eapply wp_set_idx; [apply Hf|]. fold (faulted p j). eapply (cache_read_proc _ _ _ p (λ p, faulted p j)) in P1; [|apply Hf|done].
  set (k1 := upd_procs _ (upd_mach _ k)) in *. rewrite Hvf. wp_step. cbn [deref]. wp_step. wp_step. eapply wp_at_idx; [exact Hx|].
  rewrite Hip. wp_step. eapply (ilock_wp me pid S (cache_read me pid (kdisk k)) V); [exact P1|apply Hf..|done|].
  intros k2 F2 P2. wp_step. cbn [deref]. wp_step. rewrite u32_id by lia. fold off.
  assert (itable k2 !! i = Some (locked pid S V ip)) as Hi2.
  { rewrite (bframe_itable _ _ F2). eapply lookup_seti. apply Hf. }
  wp_step. eapply (readi_wp me pid S (cache_read me pid (kdisk k)) V); [exact P2|exact Hi2|by apply file_ok_lock|done|lia|done| | |].
  { unfold PGSIZE. lia. }
  { unfold avail, PGSIZE. cbn. lia. }
  intros k3 F3 P3. change (avail (locked pid S V ip) off PGSIZE) with (avail ip' off PGSIZE) in F3.
  change (fbytes V (locked pid S V ip) off (avail ip' off PGSIZE)) with data in F3.
  assert (itable k3 !! i = Some (locked pid S V ip)) as Hi3 by (by rewrite (bframe_itable _ _ F3)).
  wp_step. eapply (iunlock_wp me pid (cache_read me pid (kdisk k)) V); [exact P3|exact Hi3|cbn; rewrite loaded_ref; apply Hf|done|].
  intros k4 F4 P4. wp_step. eapply HQ; [exact Hnew|exact Hfresh|exact P4|].
  eapply bframe_kput in F2. eapply (bframe_seti _ _ i (upd_i_lock (λ _, Sleeplock false 0) ip')) in F2, F3.
  change (upd_i_lock (λ _, Sleeplock false 0) (locked pid S V ip)) with (upd_i_lock (λ _, Sleeplock false 0) ip') in F4.
  etrans; [|exact F4]. etrans; [|exact F3]. eapply (eq_ind _ (λ k0, bframe k0 _) F2).
  unfold seti, k1, kput. apply kernel_ext; try reflexivity. cbn. by rewrite list_insert_insert_eq.
Qed.
(** What the page table at [root] gives a load at [a]. *)
Definition user_load (m : mem) (root a : Z) : Z := load8 m (PTE2PA (lookup_pte m root a) + a mod 4096).

(** The mapped page as the process sees it. *)
Lemma new_page_user data s l own root va perm s' l' own' q a :
  is_root own root → va mod 4096 = 0 → 0 ≤ va → va + 4096 ≤ MAXVA → 0 ≤ perm < 1024 →
  new_page (λ q m, store_bytes (zero_page q m) q data) s l own root va perm s' l' own' q → va ≤ a < va + 4096 →
  PTE_FLAGS (lookup_pte (ram s') root a) = Z.lor perm PTE_V ∧
  user_load (ram s') root a = if decide (Z.to_nat (a - va) < length data)%nat then u8 (default 0 (data !! Z.to_nat (a - va))) else 0.
Proof using Type.
  intros Hr Hal Hva Hmax Hperm [_ _ _ Hl Hq _ _ (m1 & _ & _ & Ha)] Hin. unfold user_load.
  rewrite Hl, decide_True; [|split; [done|clear - Hal Hin; Z.div_mod_to_equations; lia]|done|lia].
  pose proof (page_ok_pos q Hq) as Hqpos. unfold PHYSTOP, KERNBASE in Hqpos. destruct Hq as [Hqa _].
  rewrite mk_pte_pa, mk_pte_flags by (done || lia). split; [done|].
  replace (a mod 4096) with (a - va) by (clear - Hal Hin; Z.div_mod_to_equations; lia).
  rewrite Ha by lia. rewrite load8_store_bytes. replace (q + (a - va) - q) with (a - va) by lia.
  destruct (decide (q ≤ q + (a - va) < q + Z.of_nat (length data))) as [Hd|Hd].
  - rewrite decide_True by lia. done.
  - rewrite decide_False by lia. unfold zero_page. rewrite load8_memset, decide_True; [done|unfold PGSIZE; lia|done].
Qed.

(** A load at an address of a mapping that is not the start of a page panics,
    so a process can stop the machine by reading byte 1 of a mapping first. *)
Theorem load_fault_unaligned k p j va :
  procs k !! me = Some p → find_vma va (p_vma p) = Some j → va mod 4096 ≠ 0 → freelist (mach k) ≠ 0 →
  panics (load_fault me va) "mappages: va not aligned" k.
Proof using Type.
  intros Hp Hf Hal Hfl. unfold load_fault. apply panics_bind. eapply wp_at_idx; [exact Hp|]. rewrite Hf.
  assert (is_Some (p_vma p !! j)) as [v ->].
  { unfold find_vma in Hf. destruct (list_find _ _) as [[j' v]|] eqn:E; [|done]. injection Hf as <-.
    apply list_find_Some in E as (E & _). rewrite E. by eexists. }
  apply panics_bind. cbn [deref]. wp_step. apply panics_bind. unfold vm at 1. apply wp_zoom. unfold kalloc. wp_step. wp_step.
  rewrite (proj2 (Z.eqb_neq _ 0) Hfl). cbn [negb]. wp_steps. rewrite (proj2 (Z.eqb_neq _ 0) Hfl).
  apply panics_bind. unfold vm at 1. apply wp_zoom, wp_modify. apply panics_bind_now, panics_zoom. unfold mappages, PGSIZE.
  rewrite (proj2 (Z.eqb_neq _ 0) Hal). apply panics_now.
Qed.

(** C13: A load fault in a mapping of an unlocked file, with three free pages.  When
    the address is the start of a page, the page is mapped with the permissions of
    the mapping, the process sees the bytes of the file from [va - v_addr v] on
    and zeros after its end, and every other mapping, the disk and the open files
    stay as they were.  At any other address of the mapping the kernel panics. *)
Theorem load_fault_spec k p va j v i ip l own :
  let V := disk_block (kdisk k) in let ip' := loaded S V ip in let root := p_pagetable p in
  cache me pid k ∅ ∅ V → fault_at k p va j v i ip → i_type ip' ≠ 0 → file_ok S V ip' → whole V ip' →
  pt_inv (mach k) l own → is_root own root → bit (lookup_pte (ram (mach k)) root va) PTE_V = false →
  (3 ≤ length l)%nat →
  (va mod 4096 = 0 → ∃ k' l' own', load_fault me va k = Done true k' ∧ pt_inv (mach k') l' own' ∧
    (∀ a, va ≤ a < va + 4096 →
       PTE_FLAGS (lookup_pte (ram (mach k')) root a) = Z.lor (fault_perm v) PTE_V ∧
       user_load (ram (mach k')) root a =
         if decide (a - v_addr v < i_size ip') then u8 (fbyte V ip' (a - v_addr v)) else 0) ∧
    vm_frame root va (va + 4096) (mach k) l own (mach k') l' own' ∧
    cache me pid k' ∅ ∅ V ∧ kdisk k' = kdisk k ∧ ftable k' = ftable k ∧
    itable k' = <[i := upd_i_lock (λ _, Sleeplock false 0) ip']> (itable k) ∧
    Forall2 woken (<[me := faulted p j]> (procs k)) (procs k')) ∧
  (va mod 4096 ≠ 0 → panics (load_fault me va) "mappages: va not aligned" k).
Proof.
  intros V ip' root HC Hf Hty Hok Hw Hpt Hr Hun Hlen. split; intros Hal.
  2:{ eapply load_fault_unaligned; [apply Hf|apply Hf|done|]. destruct (pt_kmem _ _ _ Hpt) as [_ Hl _ Hpg]. destruct l as [|q l]; [cbn in Hlen; lia|].
      destruct Hl as [-> _]. apply Forall_cons in Hpg as [Hq _]. pose proof (page_ok_pos _ Hq). unfold KERNBASE in *. lia. }
  set (off := va - v_addr v).
  destruct (fault_range _ _ _ _ _ _ _ Hf) as (Ha & Hva & Hvl & Htf & Hoff).
  assert (va + 4096 ≤ MAXVA) as Hmax.
  { change MAXVA with (2 ^ 38). change TRAPFRAME with (2 ^ 38 - 8192) in Htf. clear - Hal Hvl Htf. Z.div_mod_to_equations. lia. }
  set (data := fbytes V ip' off (avail ip' off PGSIZE)).
  assert (length data = Z.to_nat (avail ip' off PGSIZE)) as Hdl by (apply length_fbytes; unfold avail; lia).
  assert (length data ≤ 4096)%nat as Hd4 by (rewrite Hdl; unfold avail, PGSIZE; lia).
  assert (wp (load_fault me va) (λ r k', ∃ q l' own', r = true ∧
    new_page (λ q m, store_bytes (zero_page q m) q data) (mach k) l own root va (fault_perm v) (mach k') l' own' q ∧
    cache me pid k' ∅ ∅ V ∧ kdisk k' = kdisk k ∧ ftable k' = ftable k ∧
    itable k' = <[i := upd_i_lock (λ _, Sleeplock false 0) ip']> (itable k) ∧
    Forall2 woken (<[me := faulted p j]> (procs k)) (procs k')) k) as Hwp.
  { eapply load_fault_wp; [done..|]. intros k' q l' own' s' Hnew Hfresh [HC' HD'] F. exists q, l', own'. split; [done|].
    split; [rewrite (bframe_mach _ _ F); apply fill_page; [done|done|exact Hd4]|].
    split_and!; [done|done|by rewrite (bf_rest _ _ F)|by rewrite (bframe_itable _ _ F)|exact (bf_procs _ _ F)]. }
  apply wp_elim in Hwp as (r & k' & Hrun & q & l' & own' & -> & Hnew & HR). exists k', l', own'.
  split; [done|]. split; [apply Hnew|]. split; [|split; [apply Hnew|done]]. intros a Hin.
  destruct (new_page_user _ _ _ _ _ _ _ _ _ _ _ a Hr Hal ltac:(lia) Hmax (fault_perm_bound v (fa_prot _ _ _ _ _ _ _ Hf)) Hnew Hin) as [-> ->].
  split; [done|]. rewrite Hdl. replace (a - v_addr v) with (off + (a - va)) by (unfold off; lia). unfold avail, PGSIZE in *.
  destruct (decide (off + (a - va) < i_size ip')).
  - rewrite decide_True by lia. unfold data. rewrite fbytes_lookup; [done|unfold avail, PGSIZE; lia].
  - rewrite decide_False by lia. done.
Qed.
End fault.

(** ** Where mapping goes wrong *)

Section limits.
Context {I : Image} {T : Text} `{SleepFuel} (me : nat) (virtio_disk_intr : M kernel unit).

(** With all mappings in use [mmap] panics. *)
Theorem sys_mmap_full k p :
  procs k !! me = Some p → Forall (λ v, v_valid v = true) (p_vma p) →
  0 ≤ s32 (arg k p 4) < Z.of_nat (length (p_ofile p)) → s32 (arg k p 3) = MAP_PRIVATE →
  panics (sys_mmap me) "All VMA struct is full!" k.
Proof using Type.
  intros Hp Hv Hfd Hfl. unfold sys_mmap. apply panics_bind. eapply argraw_wp; [done|lia|].
  do 5 (apply panics_bind; eapply argint_wp; [done|lia|]). apply panics_bind. eapply wp_at_idx; [exact Hp|].
  rewrite (proj2 (Z.ltb_ge _ 0)) by lia. destruct (lookup_lt_is_Some_2 (p_ofile p) (Z.to_nat (s32 (arg k p 4)))) as [fp ->]; [lia|].
  rewrite Hfl. change (MAP_PRIVATE =? MAP_SHARED) with false. cbv iota. apply panics_bind. wp_step.
  rewrite (proj2 (list_find_None _ _)); [apply panics_now|]. eapply Forall_impl; [exact Hv|]. by intros v ->.
Qed.

(** C37: [munmap] of resident pages of a private mapping removes exactly these
    pages and gives them back to the allocator; it changes nothing of the process,
    whose mapping stays in use, even when it unmaps all of it. *)
Theorem sys_munmap_resident k p addr n j v l own :
  procs k !! me = Some p → arg k p 0 = addr → s32 (arg k p 1) = 4096 * n → find_vma addr (p_vma p) = Some j →
  p_vma p !! j = Some v → v_flags v ≠ MAP_SHARED → pt_inv (mach k) l own → is_root own (p_pagetable p) →
  addr mod 4096 = 0 → 0 ≤ addr → 1 ≤ n → addr + 4096 * n ≤ MAXVA →
  (∀ va0, addr ≤ va0 < addr + 4096 * n → mapped_user (mach k) own (p_pagetable p) va0) →
  bit (lookup_pte (ram (mach k)) (p_pagetable p) addr) PTE_U = true →
  ∃ s', sys_munmap me k = Done 0 (upd_mach (λ _, s') k) ∧
    let ps := leaf_pages (ram (mach k)) (p_pagetable p) addr (Z.to_nat n) in
    pt_inv s' (reverse ps ++ l) (del_all ps own) ∧
    unmap_range (ram (mach k)) (ram s') own (p_pagetable p) addr n ∧ data_kept own ps (ram (mach k)) (ram s').
Proof using Type.
  intros Hp Ha Hl Hf Hv Hfl Hpt Hr Hal H0 Hn Hmax Hmap Hu. rewrite MAXVA_val in Hmax.
  destruct (Hmap addr) as (HV & _ & Hown); [lia|]. pose proof (page_ok_pos _ (pt_page _ _ _ Hpt _ _ Hown)) as Hq.
  assert (wp (sys_munmap me) (λ r k', ∃ s', r = 0 ∧ k' = upd_mach (λ _, s') k ∧
    let ps := leaf_pages (ram (mach k)) (p_pagetable p) addr (Z.to_nat n) in
    pt_inv s' (reverse ps ++ l) (del_all ps own) ∧
    unmap_range (ram (mach k)) (ram s') own (p_pagetable p) addr n ∧ data_kept own ps (ram (mach k)) (ram s')) k) as Hwp.
  { unfold sys_munmap. wp_step. eapply argraw_wp; [done|lia|]. rewrite Ha. wp_step. eapply argint_wp; [done|lia|].
    wp_step. eapply wp_at_idx; [exact Hp|]. rewrite Hf, Hl, Hv. wp_step. cbn [deref]. wp_step. wp_step. unfold vm at 1. apply wp_zoom.
    eapply wp_intro; [by eapply walkaddr_eq|]. rewrite MAXVA_val, (proj2 (Z.leb_gt (2 ^ 38) addr)) by lia. unfold leaf_pa. rewrite HV, Hu. cbn [andb].
    rewrite (proj2 (Z.eqb_neq (PTE2PA _) 0)) by (unfold KERNBASE in Hq; lia). cbn [negb]. rewrite (proj2 (Z.eqb_neq _ _) Hfl).
    replace (upd_mach (λ _, mach k) k) with k by (by destruct k).
    wp_step. wp_step. wp_step. unfold vm. apply wp_zoom.
    assert (u64 (Z.quot (4096 * n) PGSIZE) = n) as ->.
    { unfold PGSIZE. rewrite Z.mul_comm, Z.quot_mul by lia. apply u64_id. lia. }
    eapply wp_mono; [eapply uvmunmap_wp; [exact Hpt|done..|lia|rewrite MAXVA_val; lia|exact Hmap]|].
    intros [] s' Hs'. wp_step. by exists s'. }
  apply wp_elim in Hwp as (r & k' & Hrun & s' & -> & -> & HR). by exists s'.
Qed.

(** C40: When the page at [addr] is not resident and the mapping has taken one
    fault, [munmap] sets the count of the mapping to 0, but the mapping stays in
    use and the file open. *)
Theorem sys_munmap_leak k p addr j v l own :
  procs k !! me = Some p → arg k p 0 = addr → find_vma addr (p_vma p) = Some j → p_vma p !! j = Some v → v_refcnt v = 1 →
  pt_inv (mach k) l own → is_root own (p_pagetable p) → 0 ≤ addr →
  bit (lookup_pte (ram (mach k)) (p_pagetable p) addr) PTE_V = false →
  let v' := upd_v_refcnt (λ _, 0) v in
  sys_munmap me k = Done 0 (upd_procs (<[me := upd_p_vma (<[j := v']>) p]>) k) ∧ v_valid v' = true.
Proof using Type.
  intros Hp Ha Hf Hv Hrc Hpt Hr H0 HV v'. split.
  2:{ unfold find_vma in Hf. destruct (list_find _ _) as [[j' w]|] eqn:E; [|done]. injection Hf as <-.
      apply list_find_Some in E as (E & (_ & _ & Hval) & _). cbn in Hv. rewrite E in Hv. by injection Hv as <-. }
  assert (wp (sys_munmap me) (λ r k', r = 0 ∧ k' = upd_procs (<[me := upd_p_vma (<[j := v']>) p]>) k) k) as Hwp.
  { unfold sys_munmap. wp_step. eapply argraw_wp; [done|lia|]. rewrite Ha. wp_step. eapply argint_wp; [done|lia|].
    wp_step. eapply wp_at_idx; [exact Hp|]. rewrite Hf, Hv. wp_step. cbn [deref]. wp_step. wp_step. unfold vm at 1. apply wp_zoom.
    eapply wp_intro; [by eapply walkaddr_eq|]. unfold leaf_pa. rewrite HV. cbn [andb].
    replace (if MAXVA <=? addr then 0 else 0) with 0 by (by destruct (_ <=? _)). change (negb (0 =? 0)) with false. cbv iota.
    wp_step. eapply wp_set_idx; [exact Hp|]. rewrite Hrc. change (negb (u64 (1 - 1) =? 0)) with false. cbv iota. wp_steps.
    split; [done|]. apply kernel_ext; try reflexivity. cbn. f_equal. apply proc_ext; try reflexivity. cbn.
    rewrite (alter_Some _ _ _ _ Hv). f_equal. unfold v'. destruct v. cbn in *. by subst. }
  apply wp_elim in Hwp as (r & k' & Hrun & -> & ->). done.
Qed.

(** A store to a mapping, whatever its permissions, kills the process: the
    trap handler has no case for store faults. *)
Theorem store_fault_kills k p c :
  procs k !! me = Some p → r_scause c = 15 → - 2 ^ 31 ≤ p_pid p < 2 ^ 31 →
  ∃ u, usertrap_handle virtio_disk_intr me c k = Done 0 (upd_procs (<[me := upd_p_killed (λ _, true) p]>) (upd_uart (λ _, u) k)).
Proof using Type.
  intros Hp Hc Hpid.
  assert (wp (usertrap_handle virtio_disk_intr me c) (λ r k', ∃ u, r = 0 ∧
    k' = upd_procs (<[me := upd_p_killed (λ _, true) p]>) (upd_uart (λ _, u) k)) k) as Hwp.
  { assert (devintr virtio_disk_intr (Some me) c = mret 0) as E by (unfold devintr; by rewrite Hc).
    unfold usertrap_handle. rewrite E, Hc. change (15 =? 8) with false. change (15 =? 13) with false. cbv iota.
    wp_steps. change (0 =? 0) with true. cbv iota. wp_step. unfold unexpected_scause. wp_steps. eapply wp_at_idx; [exact Hp|].
    wp_step. eapply prints_wp; [eapply printf_prints; [..|reflexivity]|].
    { by apply (bool_decide_unpack _). }
    { apply Forall_cons. split; [done|]. by apply Forall_singleton. }
    intros u. wp_step. eapply prints_wp; [eapply printf_prints; [..|reflexivity]|].
    { by apply (bool_decide_unpack _). }
    { repeat constructor. }
    intros u'. eapply wp_set_idx; [exact Hp|]. wp_step. exists u'. by destruct k. }
  apply wp_elim in Hwp as (r & k' & Hrun & u & -> & ->). by exists u.
Qed.
End limits.
