(* ===== verification/MmapExamples.v ===== *)
(** * A concrete process with mappings

    A process of the demonstration machine with an open file, and the theorems
    of [Mmap] and [PrintfSpec] applied to it. *)

From S2P Require Import Prelude Riscv Memory CString Kalloc Vm PageTable Mapping UserCopy Uvm UvmFree VmExamples State Bytes Printf PrintfSpec Sched Bio BioSpec Cache Log LogSpec Crash Txn Fs FsBlock FsFile FsInode FsWrite FsExamples Console Pipe File Proc Exec Sysfile Syscall Trap Mmap.

#[global] Instance demo_text : Text := {|
  forkret_addr := 0x80001000; usertrap_addr := 0x80001100; kernelvec_addr := 0x80001200;
  uservec := 0x80007000; userret := 0x80007090 |}.

(** The trapframe, and the arguments of a system call in it. *)
Definition map_tf : Z := 0x87FE0000.
Fixpoint put_args (i : Z) (args : list Z) (m : mem) : mem :=
  match args with [] => m | v :: args => store64 (put_args (i + 1) args m) (map_tf + TF_a i) v end.
Definition with_args (args : list Z) (s : machine) : machine := set_ram (put_args 0 args) s.

Definition free_vma : vma := Vma false 0 0 0 0 0 None 0.
(** A private mapping of a page of file 0, that may be read. *)
Definition map_vma (addr rc : Z) : vma := Vma true addr 4096 PROT_READ MAP_PRIVATE 0 (Some 0%nat) rc.
Definition map_file : file := File FD_INODE 1 true false 0 (Some 0%nat) 0 0.
Definition map_inode : inode := upd_i_lock (λ _, Sleeplock false 0) demo_inode.
Definition map_p (vs : list vma) (top : Z) : proc :=
  Proc RUNNING ChNull false 0 7 None 0 0 demo_root map_tf 0 0 (Some 0%nat :: replicate 15 None) None [] vs top.
Definition map_on (k : kernel) (s : machine) (p : proc) : kernel :=
  upd_mach (λ _, s) (upd_procs (λ _, [p]) (upd_ftable (λ _, [map_file]) (seti 0 map_inode k))).
Definition map_k : machine → proc → kernel := map_on demo_boot.

Definition map_top : Z := TRAPFRAME - 4096.
Definition map_p1 (addr rc : Z) : proc := map_p (map_vma addr rc :: replicate 15 free_vma) map_top.

Lemma map_on_cache k s p : p_pid p = 7 → cache 0 7 k ∅ ∅ (disk_block (kdisk k)) →
  cache 0 7 (map_on k s p) ∅ ∅ (disk_block (kdisk (map_on k s p))).
Proof.
  intros Hp [[l Hl] C _]. split; [exists l; by apply (dll_bcache k)|exact C|]. by exists p.
Qed.
Lemma map_cache s p : p_pid p = 7 → cache 0 7 (map_k s p) ∅ ∅ (disk_block (kdisk (map_k s p))).
Proof. intros Hp. exact (map_on_cache demo_boot s p Hp (id_cache _ _ _ _ demo_idle)). Qed.
Lemma map_on_V k s p : disk_block (kdisk (map_on k s p)) = disk_block (kdisk k).
Proof. done. Qed.
Lemma map_V s p : disk_block (kdisk (map_k s p)) = demo_V.
Proof. exact (map_on_V demo_boot s p). Qed.

(** ** The arguments leave the page tables alone *)

Lemma put_args_out args i m x : 0 ≤ i → i + Z.of_nat (length args) ≤ 400 → x < map_tf ∨ map_tf + 4096 ≤ x →
  load8 (put_args i args m) x = load8 m x.
Proof.
  revert i. induction args as [|v args IH]; intros i Hi Hl Hx; [done|]. cbn [put_args length] in *.
  rewrite load8_store64_ne by (unfold TF_a; lia). apply IH; lia.
Qed.
Lemma put_args_ok args i m : bytes_ok m → bytes_ok (put_args i args m).
Proof. revert i. induction args as [|v args IH]; intros i Hm; [done|]. cbn [put_args]. apply store64_ok. by apply IH. Qed.

Lemma with_args_inv args s l own : (length args ≤ 6)%nat → pt_inv s l own →
  pt_inv (with_args args s) l own ∧ same_lookups (ram s) (ram (with_args args s)) own.
Proof.
  intros Hl Hs. assert (∀ p, page_ok p → p ≠ map_tf ∧ p mod 4096 = 0) as Hpg.
  { intros p [Hp Hr]. split; [|done]. intros ->. change end_ with 0x87FF0000 in Hr. unfold map_tf in Hr. lia. }
  assert (same_outside map_tf (ram s) (ram (with_args args s))) as Hout by (intros x Hx; apply put_args_out; lia).
  assert (tables_agree own (ram s) (ram (with_args args s))) as Ht.
  { intros p a b c Hp. destruct (Hpg p) as [Hne Hal]; [by eapply pt_page|]. apply (same_outside_page map_tf); done. }
  destruct (pt_kmem _ _ _ Hs) as [Hb Hkl Hkn Hkp]. split.
  - eapply pt_inv_pres; [done| |apply Hs|apply Hs|done|done]. split; [by apply put_args_ok| |done|done].
    eapply fl_rep_outside; [exact Hkl|exact Hout|done|exact Hkp|].
    intros Hin. rewrite Forall_forall in Hkp. by destruct (Hpg _ (Hkp _ Hin)).
  - intros r0 va0 Hr0 Hva0. by apply (tables_agree_lookup s l own _ r0 va0).
Qed.

(** ** The process *)

Lemma free_invalid n i v : replicate n free_vma !! i = Some v → v_valid v = true → False.
Proof. by intros [-> _]%lookup_replicate. Qed.
Lemma map_vmas_ok rc : vmas_ok (map_p1 map_top rc).
Proof.
  split; [reflexivity|vm_compute; split; discriminate|..].
  - intros [|i] v Hv Hval; [injection Hv as <-; vm_compute; split_and!; congruence|]. by destruct (free_invalid 15 i v).
  - intros [|i] [|j] v w Hv Hw Hne Vv Vw; [done|by destruct (free_invalid 15 j w)|by destruct (free_invalid 15 i v)..].
Qed.
Lemma map_free_ok : vmas_ok (map_p (replicate 16 free_vma) TRAPFRAME).
Proof.
  split; [reflexivity|vm_compute; split; discriminate|..].
  - intros i v Hv Hval. cbn [p_vma map_p] in Hv. apply lookup_replicate in Hv as [-> _]. done.
  - intros i j v w Hv Hw Hne Vv Vw. cbn [p_vma map_p] in Hv. apply lookup_replicate in Hv as [-> _]. done.
Qed.
Lemma map_fault : fault_at 0 demo_sb (map_k demo_vm (map_p1 map_top 0)) (map_p1 map_top 0) map_top 0 (map_vma map_top 0) 0 map_inode.
Proof.
  split; [reflexivity|vm_compute; reflexivity|reflexivity|apply map_vmas_ok|done|done|exists 0%nat, map_file; done|vm_compute; reflexivity|done..|].
  vm_compute. reflexivity.
Qed.

(** ** Witnesses *)

Lemma load_fault_spec_witness :
  ∃ k', load_fault 0 map_top (map_k demo_vm (map_p1 map_top 0)) = Done true k' ∧
    user_load (ram (mach k')) demo_root (map_top + 1) = 101.
Proof.
  destruct (load_fault_spec 0 7 demo_sb (map_k demo_vm (map_p1 map_top 0)) (map_p1 map_top 0) map_top 0 (map_vma map_top 0) 0 map_inode
    demo_free demo_own) as [Hm _].
  - apply map_cache. reflexivity.
  - exact map_fault.
  - vm_compute. discriminate.
  - rewrite map_V. apply file_ok_lock. exact demo_file.
  - rewrite map_V. exact demo_whole.
  - exact demo_vm_inv.
  - reflexivity.
  - change (ram (mach (map_k demo_vm (map_p1 map_top 0)))) with (ram demo_vm).
    change (p_pagetable (map_p1 map_top 0)) with demo_root. rewrite demo_vm_lookup. reflexivity.
  - cbn. lia.
  - destruct Hm as (k' & l' & own' & Hr & _ & Hd & _); [vm_compute; reflexivity|]. exists k'. split; [exact Hr|]. destruct (Hd (map_top + 1)) as [_ E]; [lia|].
    change (p_pagetable (map_p1 map_top 0)) with demo_root in E. rewrite E, map_V. vm_compute. reflexivity.
Defined.

Definition mmap_k : kernel := map_k (with_args [0; 4096; PROT_READ; MAP_PRIVATE; 0; 0] demo_vm) (map_p (replicate 16 free_vma) TRAPFRAME).
Lemma sys_mmap_spec_witness : ∃ k', sys_mmap 0 mmap_k = Done map_top k'.
Proof.
  destruct (sys_mmap_spec 0 mmap_k (map_p (replicate 16 free_vma) TRAPFRAME) 4096 PROT_READ MAP_PRIVATE 0 0 0 map_file 0 free_vma)
    as (Hr & _); [vm_compute; reflexivity|exact map_free_ok|vm_compute; reflexivity..|vm_compute; split; congruence|lia|
      vm_compute; reflexivity|vm_compute; reflexivity|cbn; lia|discriminate|vm_compute; reflexivity|].
  eexists. exact Hr.
Defined.

Lemma sys_mmap_full_witness :
  panics (sys_mmap 0) "All VMA struct is full!"
    (map_k (with_args [0; 4096; PROT_READ; MAP_PRIVATE; 0; 0] demo_vm) (map_p (replicate 16 (map_vma map_top 0)) map_top)).
Proof.
  apply (sys_mmap_full 0 _ (map_p (replicate 16 (map_vma map_top 0)) map_top));
    [vm_compute; reflexivity|by apply Forall_replicate|vm_compute; split; congruence|vm_compute; reflexivity].
Defined.

Lemma load_fault_unaligned_witness :
  panics (load_fault 0 (map_top + 1)) "mappages: va not aligned" (map_k demo_vm (map_p1 map_top 0)).
Proof.
  apply (load_fault_unaligned 0 _ (map_p1 map_top 0) 0); [reflexivity|vm_compute; reflexivity|vm_compute; discriminate|vm_compute; discriminate].
Defined.

Lemma store_fault_kills_witness :
  ∃ k', usertrap_handle (mret tt) 0 (Csrs 0 0 15 map_top 0 0 0) (map_k demo_vm (map_p1 map_top 0)) = Done 0 k'.
Proof.
  destruct (store_fault_kills 0 (mret tt) (map_k demo_vm (map_p1 map_top 0)) (map_p1 map_top 0) (Csrs 0 0 15 map_top 0 0 0)) as [u Hr];
    [reflexivity|reflexivity|vm_compute; split; congruence|].
  eexists. exact Hr.
Defined.

Lemma sys_munmap_leak_witness :
  ∃ k', sys_munmap 0 (map_k (with_args [map_top; 4096] demo_vm) (map_p1 map_top 1)) = Done 0 k'.
Proof.
  destruct (with_args_inv [map_top; 4096] demo_vm demo_free demo_own ltac:(cbn; lia) demo_vm_inv) as [Hi Hl].
  destruct (sys_munmap_leak 0 (map_k (with_args [map_top; 4096] demo_vm) (map_p1 map_top 1)) (map_p1 map_top 1) map_top 0
    (map_vma map_top 1) demo_free demo_own) as [Hr _].
  - reflexivity.
  - vm_compute. reflexivity.
  - vm_compute. reflexivity.
  - reflexivity.
  - reflexivity.
  - exact Hi.
  - reflexivity.
  - vm_compute. discriminate.
  - vm_compute. reflexivity.
  - eexists. exact Hr.
Defined.

Lemma sys_munmap_resident_witness :
  ∃ s', sys_munmap 0 (map_k (with_args [0; 4096] demo_proc) (map_p1 0 1)) =
    Done 0 (upd_mach (λ _, s') (map_k (with_args [0; 4096] demo_proc) (map_p1 0 1))).
Proof.
  destruct demo_proc_facts as (l & own & Hd).
  destruct (with_args_inv [0; 4096] demo_proc l own ltac:(cbn; lia) (df_inv _ _ Hd)) as [Hi Hl].
  pose proof (as_root _ _ _ _ (df_aspace _ _ Hd)) as Hroot.
  destruct (sys_munmap_resident 0 (map_k (with_args [0; 4096] demo_proc) (map_p1 0 1)) (map_p1 0 1) 0 1 0
    (map_vma 0 1) l own) as (s' & Hr & _).
  - reflexivity.
  - vm_compute. reflexivity.
  - vm_compute. reflexivity.
  - vm_compute. reflexivity.
  - reflexivity.
  - discriminate.
  - exact Hi.
  - exact Hroot.
  - reflexivity.
  - lia.
  - lia.
  - vm_compute. discriminate.
  - intros va0 Hva0. unfold mapped_user. change (mach (map_k (with_args [0; 4096] demo_proc) (map_p1 0 1))) with (with_args [0; 4096] demo_proc).
    change (p_pagetable (map_p1 0 1)) with demo_root. rewrite Hl; [|exact Hroot|change MAXVA with (2 ^ 38); lia].
    apply (as_mapped _ _ _ _ (df_aspace _ _ Hd)). change (PGROUNDUP 8192) with 8192. lia.
  - change (mach (map_k (with_args [0; 4096] demo_proc) (map_p1 0 1))) with (with_args [0; 4096] demo_proc).
    change (p_pagetable (map_p1 0 1)) with demo_root. rewrite Hl; [|exact Hroot|change MAXVA with (2 ^ 38); lia].
    unfold bit. rewrite (land_flags (lookup_pte (ram demo_proc) demo_root 0) PTE_U ltac:(by vm_compute)), (df_flags _ _ Hd 0 ltac:(lia)). reflexivity.
  - exists s'. exact Hr.
Defined.

Lemma printf_spec_witness :
  ∃ k', printf "pid=%d sz=0x%x %s" [PInt (-123); PInt 4096; PStr (Some (bytes_of "sh"))] demo_boot = Done tt k'.
Proof.
  destruct (printf_spec "pid=%d sz=0x%x %s" [PInt (-123); PInt 4096; PStr (Some (bytes_of "sh"))] (bytes_of "pid=-123 sz=0x1000 sh")
    demo_boot) as [(full & Hr) _].
  - apply (bool_decide_unpack _). by vm_compute.
  - apply Forall_cons_2; [cbn; lia|]. apply Forall_cons_2; [cbn; lia|]. apply Forall_singleton, (bool_decide_unpack _). by vm_compute.
  - vm_compute. reflexivity.
  - eexists. exact Hr.
Defined.
