(* ===== verification/ForkExamples.v ===== *)
(** * A process that forks and waits

    The theorems of [ForkThm] on a machine with one process, which has a file
    open and mapped. *)

From S2P Require Import Prelude Riscv Memory CString Kalloc Vm PageTable Mapping UserCopy Uvm UvmFree VmExamples State Bytes Printf Sched Bio BioSpec Cache Log LogSpec Crash Txn Fs FsBlock FsFile FsInode FsWrite FsExamples Console Pipe File Proc ProcMem ForkSpec ForkThm Exec Sysfile Syscall Trap Mmap MmapExamples.

(** ** The process *)

Definition fork_tf : Z := final_value (kalloc demo_proc) 0.
Definition fork_vm : machine := final_state (kalloc demo_proc) demo_vm.
Definition fork_p : proc :=
  Proc RUNNING ChNull false 0 1 None 0 8192 demo_root fork_tf 0 0 (Some 0%nat :: Some 0%nat :: replicate 14 None)
    (Some 0%nat) (115 :: 104 :: replicate 14 0) (map_vma map_top 0 :: replicate 15 free_vma) map_top.
Definition fork_q : proc :=
  Proc UNUSED ChNull false 0 0 None 4096 0 0 0 0 0 (replicate 16 None) None (replicate 16 0) (replicate 16 free_vma) 0.
Definition fork_file : file := File FD_INODE 3 true false 0 (Some 0%nat) 0 0.
Definition fork_k : kernel :=
  upd_mach (λ _, fork_vm) (upd_procs (λ _, [fork_p; fork_q])
    (upd_ftable (λ _, [fork_file]) (upd_itable (λ _, [map_inode]) demo_boot))).
Definition fork_pid : Z := final_value (fork 0 fork_k) 0.
Definition fork_k' : kernel := final_state (fork 0 fork_k) fork_k.

Lemma fork_values : (fork_tf =? 0) = false ∧ (fork_pid =? -1) = false.
Proof. by vm_compute. Qed.
Lemma fork_eqs : fork_tf = final_value (kalloc demo_proc) 0 ∧ fork_vm = final_state (kalloc demo_proc) demo_vm ∧
  fork_pid = final_value (fork 0 fork_k) 0 ∧ fork_k' = final_state (fork 0 fork_k) fork_k.
Proof. done. Qed.
#[global] Opaque fork_tf fork_vm fork_pid fork_k'.

Record fork_facts (l : list Z) (own : gmap Z role) : Prop := {
  ff_inv : pt_inv fork_vm l own;
  ff_rooted : rooted own;
  ff_root : is_root own demo_root;
  ff_mapped : ∀ va, 0 ≤ va < 8192 → mapped_user fork_vm own demo_root va;
  ff_user : user_inv (ram fork_vm) own demo_root;
  ff_tf : own !! fork_tf = Some OtherPage;
}.

Lemma fork_vm_facts : ∃ l own, fork_facts l own.
Proof.
  destruct demo_proc_facts as (l & own & [Hs Ha _ _ Hro]).
  destruct fork_eqs as (E1 & E2 & _). destruct fork_values as [Hv _]. apply Z.eqb_neq in Hv.
  pose proof (wp_final _ _ demo_proc 0 demo_vm (kalloc_role demo_proc l own Hs)) as H.
  rewrite <-E1, <-E2 in H. destruct H as [(H0 & _)|(l1 & -> & _ & Hok & Hfresh & _ & Hs1 & Hout)]; [by destruct (Hv H0)|].
  exists l1, (<[fork_tf := OtherPage]> own).
  assert (∀ p r, own !! p = Some r → <[fork_tf := OtherPage]> own !! p = Some r) as Hsub.
  { intros p r Hp. rewrite lookup_insert_ne; [done|]. congruence. }
  assert (∀ va, 0 ≤ va < MAXVA → lookup_pte (ram fork_vm) demo_root va = lookup_pte (ram demo_proc) demo_root va) as L.
  { intros va Hva. apply (taken_lookup demo_proc l1 own fork_tf); [done|done|apply Ha|done]. }
  split.
  - by eapply take_trapframe.
  - by apply rooted_insert.
  - apply Hsub, Ha.
  - intros va Hva. destruct (as_mapped _ _ _ _ Ha va Hva) as (H1 & H2 & H3). unfold mapped_user.
    rewrite L by (change MAXVA with (2 ^ 38); lia). split_and!; [done|done|by apply Hsub].
  - intros va Hva Hrd. pose proof (readable_max _ _ _ Hrd) as Hm. unfold user_readable in Hrd.
    rewrite (L va (conj Hva Hm)) in Hrd |- *. apply Hsub. by apply (aspace_user_inv _ _ _ _ Ha).
  - apply lookup_insert_eq.
Qed.

Lemma fork_q_idle : idle_slot fork_q.
Proof. by split. Qed.

Lemma fork_k_ready l own : fork_facts l own → fork_ready 0 fork_k fork_p l own.
Proof.
  intros [Hs Hro Hr Hm Hu Ht]. split; try done.
  - intros v Hv Hval. cbn [p_vma fork_p] in Hv. apply elem_of_cons in Hv as [->|Hv]; [by exists 0%nat|].
    apply elem_of_replicate in Hv as [-> _]. done.
  - intros f Hf. assert (f = 0%nat) as ->.
    { revert Hf. vm_compute. set_solver. }
    exists fork_file. split; [done|]. by vm_compute.
  - by exists 0%nat, map_inode.
  - intros j q Hj Hq. destruct j as [|[|j]]; [by injection Hj as <-|injection Hj as <-; apply fork_q_idle|done].
Qed.

(** ** Its child ends *)

Definition ended (c : proc) : proc := upd_p_state (λ _, ZOMBIE) (upd_p_xstate (λ _, 7) c).
Definition wait_k : kernel := upd_procs (alter ended 1%nat) fork_k'.

Lemma fork_k_procs : procs fork_k = [fork_p; fork_q].
Proof. reflexivity. Qed.
Lemma procs_tables f g k : procs (upd_itable f (upd_ftable g k)) = procs k.
Proof. reflexivity. Qed.
Lemma ended_parts k' k s p q c : k' = with_slot k s 1 c → procs k = [p; q] →
  mach (upd_procs (alter ended 1%nat) k') = s ∧ procs (upd_procs (alter ended 1%nat) k') = [p; ended c].
Proof. intros -> Hp. split; [reflexivity|]. cbn [procs upd_procs with_slot upd_mach upd_nextpid]. by rewrite Hp. Qed.

Lemma ended_ready s l own p q c pid tf s' l' own' kw :
  mach kw = s' → procs kw = [p; ended c] → p_parent p = None → child_of 0 p q c pid →
  fork_mem s l own (p_pagetable p) tf (p_sz p) (p_trapframe c) (p_pagetable c) s' l' own' →
  is_root own (p_pagetable p) → user_inv (ram s) own (p_pagetable p) → 0 ≤ p_sz p ≤ TRAPFRAME →
  wait_ready 0 kw p 1 (ended c) l' own'.
Proof.
  intros Em Ep Hpar Hc [M1 M2 M3 M4 M5 _ M7 M8 _ _] Hr0 Hu Hsz.
  pose proof (ch_sz _ _ _ _ _ Hc) as Hcs. split; rewrite ?Em, ?Ep; try done.
  - by eapply lookup_weaken.
  - intros va Hva Hrd. pose proof (readable_max _ _ _ Hrd) as Hmx. unfold user_readable in Hrd.
    rewrite (M4 _ va Hr0 (conj Hva Hmx)) in Hrd |- *. eapply lookup_weaken; [|exact M3]. by apply Hu.
  - apply list_find_Some. split; [done|]. split; [split; [apply Hc|done]|].
    intros [|j] y Hy Hlt; [injection Hy as <-|lia]. intros [? _]. congruence.
  - cbn. by rewrite Hcs.
  - cbn. by rewrite Hcs.
Qed.

Lemma wait_k_ready : ∃ q l own, wait_ready 0 wait_k fork_p 1 q l own ∧ p_xstate q = 7.
Proof.
  destruct fork_vm_facts as (l & own & Hf). pose proof (fork_k_ready l own Hf) as Hr.
  pose proof (wp_final _ _ fork_k 0 fork_k (fork_wp 0 fork_k fork_p l own Hr)) as H.
  destruct fork_eqs as (_ & _ & E3 & E4). rewrite <-E3, <-E4 in H. destruct fork_values as [_ Hv].
  destruct H as [[Hn _]|(i & q & c & w & s & l' & own' & Hi & _ & Hne & _ & _ & Hc & Hm & Hk & _)]; [rewrite Hn in Hv; discriminate Hv|].
  rewrite fork_k_procs in Hi.
  assert (i = 1%nat) as -> by (destruct i as [|[|i]]; [exfalso; exact (Hne eq_refl)|reflexivity|discriminate Hi]).
  destruct (ended_parts _ _ _ _ _ _ Hk (eq_trans (procs_tables _ _ _) fork_k_procs)) as [Em Ep].
  exists (ended c), l', own'. split; [|reflexivity].
  exact (ended_ready _ _ _ _ _ _ _ _ _ _ _ wait_k Em Ep eq_refl Hc Hm (ff_root _ _ Hf) (ff_user _ _ Hf) (fr_sz _ _ _ _ _ Hr)).
Qed.

(** ** The theorems at work *)

Lemma fork_spec_witness : ∃ l own, fork_ready 0 fork_k fork_p l own ∧ forked 0 fork_k fork_p l own fork_pid fork_k'.
Proof.
  destruct fork_vm_facts as (l & own & Hf). pose proof (fork_k_ready l own Hf) as Hr. exists l, own. split; [exact Hr|].
  pose proof (wp_final _ _ fork_k 0 fork_k (fork_spec 0 fork_k fork_p l own Hr)) as H.
  destruct fork_eqs as (_ & _ & E3 & E4). rewrite <-E3, <-E4 in H. destruct H as [[Hn _]|H]; [|exact H].
  destruct fork_values as [_ Hv]. rewrite Hn in Hv. discriminate Hv.
Defined.

Lemma wait_spec_witness : ∃ q l own, wait_ready 0 wait_k fork_p 1 q l own ∧
  wp (wait (H := 0%nat) 0 4000) (λ r k', r = -1 ∨ r = p_pid q ∧ procs k' = <[1%nat := cleared q]> (procs wait_k)) wait_k.
Proof.
  destruct wait_k_ready as (q & l & own & Hr & _). exists q, l, own. split; [exact Hr|].
  eapply wp_mono; [apply (wait_spec (H := 0%nat) 0 wait_k fork_p 1 q l own 4000 Hr); lia|].
  intros r k' (s1 & _ & [(-> & s' & l' & own' & -> & _)|(-> & _)]); [right; done|by left].
Defined.
