(* ===== verification/Ulib.v ===== *)
(** * The user library ([user/ulib.c])

    The routines of [ulib.c] on the arrays and the memory of [CString], and the
    system calls that the user programs use for input and output: a descriptor
    to read from is a stream of bytes, of which a [read] returns some. *)

From S2P Require Import Prelude Memory Bytes CString.

(** ** Strings and memory *)

(** [strcpy(s, t)]: the array [s] afterwards. *)
Fixpoint strcpy (s t : list Z) : option (list Z) :=
  match s, t with
  | _ :: s', c :: t' => if c =? 0 then Some (0 :: s') else cons c <$> strcpy s' t'
  | _, _ => None
  end.

Fixpoint strcmp (p q : list Z) : option Z :=
  match p, q with
  | a :: p', b :: q' => if negb (a =? 0) && (a =? b) then strcmp p' q' else Some (a - b)
  | _, _ => None
  end.

Fixpoint strlen (s : list Z) : option Z :=
  match s with
  | [] => None
  | c :: s' => if c =? 0 then Some 0 else Z.succ <$> strlen s'
  end.

(** The index of the first [c], [Some None] when the string has none. *)
Fixpoint strchr (s : list Z) (c : Z) : option (option nat) :=
  match s with
  | [] => None
  | x :: s' => if x =? 0 then Some None else if x =? c then Some (Some O) else option_map (option_map S) (strchr s' c)
  end.

(** [int n] wraps around, as the machine does. *)
Fixpoint atoi_loop (s : list Z) (n : Z) : option Z :=
  match s with
  | [] => None
  | c :: s' => if (48 <=? c) && (c <=? 57) then atoi_loop s' (s32 (n * 10 + c - 48)) else Some n
  end.
Definition atoi (s : list Z) : option Z := atoi_loop s 0.

Definition memset (dst c n : Z) (m : mem) : mem := memset_loop (Z.to_nat n) dst c m.
Definition memmove (vdst vsrc n : Z) (m : mem) : mem :=
  if vdst <? vsrc then memmove_fwd (Z.to_nat n) vdst vsrc m
  else memmove_bwd (Z.to_nat n) (vdst + n) (vsrc + n) m.
Definition memcmp (s1 s2 n : Z) (m : mem) : Z := memcmp_loop (Z.to_nat n) s1 s2 m.
Definition memcpy (dst src n : Z) (m : mem) : mem := memmove dst src n m.

(** ** System calls of a filter

    [streams] gives the bytes still to come on each descriptor; [written] the
    bytes written, with the descriptor they went to. *)
Record uio := Uio { streams : gmap Z (list Z); nreads : nat; written : list (Z * list Z) }.

(** How many of [n] bytes that are there the [i]-th [read] returns. *)
Class Reads := {
  short : nat → nat → nat;
  short_ok i n : (0 < n)%nat → (1 ≤ short i n ≤ n)%nat;
}.

Section io.
Context `{Reads}.
Definition stream (fd : Z) (u : uio) : list Z := default [] (streams u !! fd).
Definition arrives (fd n : Z) (u : uio) : nat :=
  let k := Nat.min (Z.to_nat n) (length (stream fd u)) in if decide (k = O) then O else short (nreads u) k.
Definition read (fd n : Z) : M uio (list Z) := λ u,
  match streams u !! fd with
  | None => Done [] u
  | Some l => Done (take (arrives fd n u) l) (Uio (<[fd := drop (arrives fd n u) l]> (streams u)) (S (nreads u)) (written u))
  end.
Definition write (fd : Z) (bytes : list Z) : M uio unit := λ u,
  Done tt (Uio (streams u) (nreads u) (written u ++ [(fd, bytes)])).

(** [gets]: the index and the array. *)
Definition gets_body (max : Z) (st : Z * list Z) : M uio (Z * list Z + Z * list Z) :=
  let '(i, buf) := st in
  if i + 1 <? max then
    c ← read 0 1;
    match c with
    | [] => mret (inr (i, buf))
    | c :: _ =>
        if (i <? 0) || (Z.of_nat (length buf) <=? i) then fault "gets"
        else
          let buf := <[Z.to_nat i := c]> buf in
          if (c =? 10) || (c =? 13) then mret (inr (i + 1, buf)) else mret (inl (i + 1, buf))
    end
  else mret (inr (i, buf)).
Definition gets_line (buf : list Z) (max : Z) : M uio (list Z) :=
  '(i, buf) ← loopM (S (Z.to_nat max)) (gets_body max) (0, buf);
  if Z.of_nat (length buf) <=? i then fault "gets" else mret (<[Z.to_nat i := 0]> buf).
End io.

(** What has been written to a descriptor. *)
Definition output (fd : Z) (u : uio) : list Z := concat (snd <$> filter (λ w, w.1 = fd) (written u)).

(** A loop whose measure is one of the state. *)
Lemma wp_loop_st {S A B} (body : A → M S (A + B)) (I : A → S → Prop) (meas : S → nat) (Q : B → S → Prop) fuel a s :
  (meas s < fuel)%nat → I a s →
  (∀ a s, I a s → wp (body a) (λ r s', match r with inl a' => I a' s' ∧ (meas s' < meas s)%nat | inr b => Q b s' end) s) →
  wp (loopM fuel body a) Q s.
Proof.
  intros Hf HI Hb. revert a s Hf HI. induction fuel as [|fuel IH]; intros a s Hf HI; [lia|].
  simpl. apply wp_bind. eapply wp_mono; [by apply Hb|]. intros [a'|b] s'; simpl; [|by apply wp_ret].
  intros [HI' Hm]. apply IH; [lia|done].
Qed.

(** ** The string routines *)

Lemma strchr_none l c r : 0 ∉ l → c ∉ l → strchr (l ++ 0 :: r) c = Some None.
Proof.
  intros H0 Hc. induction l as [|x l IH]; cbn [app strchr]; [done|].
  rewrite (proj2 (Z.eqb_neq x 0)), (proj2 (Z.eqb_neq x c)) by set_solver. rewrite IH by set_solver. done.
Qed.
Lemma strchr_some l c r : 0 ∉ l → c ∉ l → c ≠ 0 → strchr (l ++ c :: r) c = Some (Some (length l)).
Proof.
  intros H0 Hc Hz. induction l as [|x l IH]; cbn [app strchr length].
  - by rewrite (proj2 (Z.eqb_neq c 0)), Z.eqb_refl.
  - rewrite (proj2 (Z.eqb_neq x 0)), (proj2 (Z.eqb_neq x c)) by set_solver. rewrite IH by set_solver. done.
Qed.

Lemma load8_umemmove dst src n m x :
  bytes_ok m → 0 ≤ n →
  load8 (memmove dst src n m) x = if decide (dst ≤ x < dst + n) then load8 m (src + (x - dst)) else load8 m x.
Proof.
  intros Hm Hn. unfold memmove. destruct (Z.ltb_spec dst src).
  - rewrite memmove_fwd_load8 by (try done; lia). by rewrite Z2Nat.id.
  - rewrite memmove_bwd_load8 by (try done; lia). rewrite Z2Nat.id by done. repeat case_decide; try lia; f_equal; lia.
Qed.

(** The value of a decimal numeral, and the digits of a number. *)
Definition decimal (l : list Z) (n : Z) : Z := foldl (λ n c, n * 10 + (c - 48)) n l.
Lemma s32_step n c : s32 (s32 n * 10 + c) = s32 (n * 10 + c).
Proof. unfold s32. change (2 ^ 31) with 2147483648. change (2 ^ 32) with 4294967296. Z.div_mod_to_equations. lia. Qed.

(** C33: [atoi] of a numeral gives its value modulo 2^32, as an [int], and stops at
    the first character that is no digit. *)
Theorem atoi_spec l c r :
  Forall (λ c, 48 ≤ c ≤ 57) l → ¬ (48 ≤ c ≤ 57) → atoi (l ++ c :: r) = Some (s32 (decimal l 0)).
Proof.
  intros Hl Hc. unfold atoi. change 0 with (s32 0) at 1. generalize 0. induction Hl as [|d l Hd Hl IH]; intros n; cbn [app atoi_loop].
  - by case_if E; [lia|].
  - rewrite (proj2 (Z.leb_le 48 d)), (proj2 (Z.leb_le d 57)) by lia. cbn [andb]. rewrite <-Z.add_sub_assoc, s32_step. apply IH.
Qed.

Lemma atoi_spec_witness : atoi ([50; 51; 49] ++ 0 :: []) = Some 231.
Proof. rewrite (atoi_spec [50; 51; 49] 0 []); [reflexivity|repeat constructor; lia|lia]. Defined.
