(* ===== verification/Umalloc.v ===== *)
(** * The user memory allocator ([user/umalloc.c])

    The allocator of Kernighan and Ritchie on a memory of bytes.  A [Header] is
    16 bytes, the pointer first and the size, in headers, at offset 8; [base] is
    the address of the static header and [heap0] the end of the program, where
    the heap starts.  [sbrk] moves the end of the process, as [sys_sbrk] does;
    whether memory is there is a parameter. *)

From S2P Require Import Prelude Memory.

Record ust := Ust { u_mem : mem; u_freep : Z; u_brk : Z }.
Definition set_mem (f : mem → mem) (s : ust) : ust := Ust (f (u_mem s)) (u_freep s) (u_brk s).

(** [sbrk_ok b n]: the process of size [b] can grow by [n]. *)
Class Sbrk := {
  sbrk_ok : Z → Z → bool;
  sbrk_bound b n : sbrk_ok b n = true → b + n ≤ 2 ^ 31;
}.

Definition HSIZE : Z := 16.

Section umalloc.
Context `{Sbrk} (base heap0 : Z).

(** A header must be inside the memory of the process. *)
Definition valid (a : Z) (s : ust) : bool := (a =? base) || (heap0 <=? a) && (a + HSIZE <=? u_brk s).
Definition hptr (a : Z) : M ust Z := s ← get; if valid a s then mret (load64 (u_mem s) a) else fault "header".
Definition hsize (a : Z) : M ust Z := s ← get; if valid a s then mret (load32 (u_mem s) (a + 8)) else fault "header".
Definition set_ptr (a p : Z) : M ust unit := s ← get; if valid a s then put (set_mem (λ m, store64 m a p) s) else fault "header".
Definition set_size (a n : Z) : M ust unit := s ← get; if valid a s then put (set_mem (λ m, store32 m (a + 8) n) s) else fault "header".
Definition set_freep (p : Z) : M ust unit := modify (λ s, Ust (u_mem s) p (u_brk s)).

Definition sbrk (n : Z) : M ust Z := s ← get;
  if sbrk_ok (u_brk s) n then put (Ust (u_mem s) (u_freep s) (u_brk s + n)) ;; mret (u_brk s) else mret (-1).

Definition free_search (bp p : Z) : M ust (Z + Z) :=
  nx ← hptr p;
  if (p <? bp) && (bp <? nx) then mret (inr p)
  else if (nx <=? p) && ((p <? bp) || (bp <? nx)) then mret (inr p)
  else mret (inl nx).
Definition free (ap : Z) : M ust unit :=
  let bp := ap - HSIZE in
  s ← get;
  p ← loopM (S (S (Z.to_nat (u_brk s / HSIZE)))) (free_search bp) (u_freep s);
  n ← hsize bp;
  nx ← hptr p;
  (if bp + HSIZE * n =? nx then
     k ← hsize nx;
     set_size bp (u32 (n + k)) ;;
     q ← hptr nx;
     set_ptr bp q
   else set_ptr bp nx) ;;
  k ← hsize p;
  (if p + HSIZE * k =? bp then
     n ← hsize bp;
     set_size p (u32 (k + n)) ;;
     q ← hptr bp;
     set_ptr p q
   else set_ptr p bp) ;;
  set_freep p.

(** [nu * sizeof(Header)] is passed as an [int]. *)
Definition morecore (nu : Z) : M ust Z :=
  let nu := if nu <? 4096 then 4096 else nu in
  p ← sbrk (s32 (nu * HSIZE));
  if p =? -1 then mret 0
  else
    set_size p nu ;;
    free (p + HSIZE) ;;
    gets u_freep.

Definition malloc_round (nunits : Z) (st : Z * Z) : M ust (Z * Z + Z) :=
  let '(prevp, p) := st in
  n ← hsize p;
  if nunits <=? n then
    p ← (if n =? nunits then
           q ← hptr p;
           set_ptr prevp q ;;
           mret p
         else
           set_size p (u32 (n - nunits)) ;;
           k ← hsize p;
           let p := p + HSIZE * k in
           set_size p nunits ;;
           mret p);
    set_freep prevp ;;
    mret (inr (p + HSIZE))
  else
    f ← gets u_freep;
    if p =? f then
      p ← morecore nunits;
      if p =? 0 then mret (inr 0)
      else
        q ← hptr p;
        mret (inl (p, q))
    else
      q ← hptr p;
      mret (inl (p, q)).
Definition malloc (nbytes : Z) : M ust Z :=
  let nunits := u32 ((nbytes + HSIZE - 1) / HSIZE + 1) in
  f ← gets u_freep;
  prevp ← (if f =? 0 then set_ptr base base ;; set_freep base ;; set_size base 0 ;; mret base else mret f);
  p ← hptr prevp;
  s ← get;
  loopM (4 + 2 * Z.to_nat (u_brk s / HSIZE)) (malloc_round nunits) (prevp, p).

(** ** The free list

    [lseg m p l q]: the headers from [p] on are the blocks of [l], the last one
    points to [q].  The list is sorted by address and blocks that touch have
    been joined. *)
Definition ptr_at (m : mem) (a : Z) : Z := load64 m a.
Definition size_at (m : mem) (a : Z) : Z := load32 m (a + 8).
Fixpoint lseg (m : mem) (p : Z) (l : list (Z * Z)) (q : Z) : Prop :=
  match l with
  | [] => p = q
  | b :: l => p = b.1 ∧ size_at m b.1 = b.2 ∧ lseg m (ptr_at m b.1) l q
  end.
Fixpoint chain (lo hi : Z) (l : list (Z * Z)) : Prop :=
  match l with
  | [] => True
  | b :: l => lo < b.1 ∧ 1 ≤ b.2 ∧ b.1 + HSIZE * b.2 ≤ hi ∧ chain (b.1 + HSIZE * b.2) hi l
  end.
Definition apart (a n b k : Z) : Prop := a + HSIZE * n ≤ b ∨ b + HSIZE * k ≤ a.
(** The bytes of a list of blocks. *)
Definition covers (l : list (Z * Z)) (x : Z) : Prop := ∃ b, b ∈ l ∧ b.1 ≤ x < b.1 + HSIZE * b.2.

(** The heap: free blocks [fl], and [A] the size of each block in use. *)
Record heap (fl : list (Z * Z)) (A : gmap Z Z) (s : ust) : Prop := {
  hp_list : lseg (u_mem s) base ((base, 0) :: fl) base;
  hp_chain : chain (heap0 - 1) (u_brk s) fl;
  hp_freep : u_freep s ∈ base :: fl.*1;
  hp_used a n : A !! a = Some n → size_at (u_mem s) a = n ∧ 1 ≤ n ∧ heap0 ≤ a ∧ a + HSIZE * n ≤ u_brk s;
  hp_free a n b : A !! a = Some n → b ∈ fl → apart a n b.1 b.2;
  hp_apart a n b k : A !! a = Some n → A !! b = Some k → a ≠ b → apart a n b k;
  hp_brk : heap0 ≤ u_brk s ≤ 2 ^ 31;
}.

(** ** Headers *)

Lemma store_ptr m a p : 0 ≤ p < 2 ^ 64 → ptr_at (store64 m a p) a = p ∧ size_at (store64 m a p) a = size_at m a.
Proof using Type.
  intros Hp. split; [by apply load64_store64|]. unfold size_at, load32, store64. apply load_store_le_disj. lia.
Qed.
Lemma store_size m a n : 0 ≤ n < 2 ^ 32 → size_at (store32 m (a + 8) n) a = n ∧ ptr_at (store32 m (a + 8) n) a = ptr_at m a.
Proof using Type.
  intros Hn. unfold size_at, ptr_at, load32, load64, store32. split; [|apply load_store_le_disj; lia].
  rewrite load_store_le. by apply Z.mod_small.
Qed.

(** [m'] is [m] but for the header at [a]. *)
Definition frame (m m' : mem) (a : Z) : Prop := ∀ x, x < a ∨ a + HSIZE ≤ x → load8 m' x = load8 m x.
Lemma frame_store_ptr m a p : frame m (store64 m a p) a.
Proof using Type. intros x Hx. unfold HSIZE in Hx. apply load8_store64_ne. lia. Qed.
Lemma frame_store_size m a n : frame m (store32 m (a + 8) n) a.
Proof using Type. intros x Hx. unfold store32, HSIZE in *. rewrite load8_store_le, decide_False; [done|lia]. Qed.
Lemma frame_trans m m1 m2 a : frame m m1 a → frame m1 m2 a → frame m m2 a.
Proof using Type. intros H1 H2 x Hx. by rewrite H2, H1. Qed.
Lemma frame_hdr m m' a b : frame m m' a → a + HSIZE ≤ b ∨ b + HSIZE ≤ a → ptr_at m' b = ptr_at m b ∧ size_at m' b = size_at m b.
Proof using Type.
  intros Hf Hb. unfold HSIZE in *. split; apply load_le_agree; intros x Hx; apply Hf; unfold HSIZE; lia.
Qed.

Definition inside (a : Z) (s : ust) : Prop := a = base ∨ heap0 ≤ a ∧ a + HSIZE ≤ u_brk s.
Lemma valid_inside a s : inside a s → valid a s = true.
Proof using Type.
  unfold inside, valid. intros [->|[H1 H2]]; [by rewrite Z.eqb_refl|]. apply orb_true_iff. right.
  apply andb_true_iff. by rewrite !Z.leb_le.
Qed.
Lemma hptr_wp a s (Q : Z → ust → Prop) : inside a s → Q (ptr_at (u_mem s) a) s → wp (hptr a) Q s.
Proof using Type. intros Ha HQ. unfold hptr. wp_steps. rewrite valid_inside by done. by wp_steps. Qed.
Lemma hsize_wp a s (Q : Z → ust → Prop) : inside a s → Q (size_at (u_mem s) a) s → wp (hsize a) Q s.
Proof using Type. intros Ha HQ. unfold hsize. wp_steps. rewrite valid_inside by done. by wp_steps. Qed.
Lemma set_ptr_wp a p s (Q : unit → ust → Prop) : inside a s → Q tt (set_mem (λ m, store64 m a p) s) → wp (set_ptr a p) Q s.
Proof using Type. intros Ha HQ. unfold set_ptr. wp_steps. rewrite valid_inside by done. by wp_steps. Qed.
Lemma set_size_wp a n s (Q : unit → ust → Prop) : inside a s → Q tt (set_mem (λ m, store32 m (a + 8) n) s) → wp (set_size a n) Q s.
Proof using Type. intros Ha HQ. unfold set_size. wp_steps. rewrite valid_inside by done. by wp_steps. Qed.

(** ** Lists *)

Lemma lseg_app m p l1 l2 q : lseg m p (l1 ++ l2) q ↔ ∃ r, lseg m p l1 r ∧ lseg m r l2 q.
Proof using Type.
  revert p. induction l1 as [|b l1 IH]; intros p; cbn; [naive_solver|]. rewrite IH. naive_solver.
Qed.
Lemma lseg_frame m m' a p l q : frame m m' a → Forall (λ b, a + HSIZE ≤ b.1 ∨ b.1 + HSIZE ≤ a) l → lseg m p l q → lseg m' p l q.
Proof using Type.
  intros Hf Hl. revert p. induction Hl as [|b l Hb Hl IH]; intros p; cbn [lseg]; [done|]. intros (-> & Hs & Hr).
  destruct (frame_hdr _ _ _ b.1 Hf Hb) as [-> ->]. auto.
Qed.
Lemma lseg_next m l i b : lseg m base l base → l !! i = Some b →
  size_at m b.1 = b.2 ∧ ptr_at m b.1 = default base (fst <$> l !! S i).
Proof using Type.
  intros Hl Hi. rewrite <-(take_drop_middle l i b Hi) in Hl. apply lseg_app in Hl as (r & _ & Hl). cbn [lseg] in Hl.
  destruct Hl as (_ & Hs & Hn). split; [done|]. rewrite <-(Nat.add_0_r (S i)), <-lookup_drop. destruct (drop (S i) l); cbn in *; naive_solver.
Qed.

Lemma chain_app lo hi l1 l2 : chain lo hi (l1 ++ l2) ↔
  chain lo hi l1 ∧ chain (default lo ((λ b, b.1 + HSIZE * b.2) <$> last l1)) hi l2.
Proof using Type.
  revert lo. induction l1 as [|b l1 IH]; intros lo; cbn [app chain]; [cbn; tauto|]. rewrite IH.
  replace (default lo _) with (default (b.1 + HSIZE * b.2) ((λ b, b.1 + HSIZE * b.2) <$> last l1)).
  - tauto.
  - rewrite last_cons. by destruct (last l1).
Qed.
Lemma chain_in lo hi l b : chain lo hi l → b ∈ l → lo < b.1 ∧ 1 ≤ b.2 ∧ b.1 + HSIZE * b.2 ≤ hi.
Proof using Type.
  revert lo. induction l as [|c l IH]; intros lo; cbn [chain]; [set_solver|]. intros (H1 & H2 & H3 & H4) [->|Hb]%elem_of_cons; [done|].
  destruct (IH _ H4 Hb) as (? & ? & ?). unfold HSIZE in *. split_and!; lia.
Qed.
Lemma chain_lower lo lo' hi l : chain lo hi l → lo' ≤ lo → chain lo' hi l.
Proof using Type. destruct l as [|b l]; cbn [chain]; [done|]. intros (H1 & H2 & H3 & H4) Hle. split_and!; [lia|done|done|done]. Qed.
Lemma chain_mono lo hi hi' l : chain lo hi l → hi ≤ hi' → chain lo hi' l.
Proof using Type. revert lo. induction l as [|b l IH]; intros lo; cbn [chain]; [done|]. intros (H1 & H2 & H3 & H4) Hle. split_and!; [done|done|lia|by apply IH]. Qed.
Lemma chain_length lo hi l : chain lo hi l → lo ≤ hi → lo + HSIZE * Z.of_nat (length l) ≤ hi.
Proof using Type.
  revert lo. induction l as [|b l IH]; intros lo; cbn [chain length]; [lia|]. intros (H1 & H2 & H3 & H4) _. specialize (IH _ H4 H3). unfold HSIZE in *. lia.
Qed.
(** Where a block that is apart from the others goes. *)
Lemma chain_split lo hi l a n : chain lo hi l → 1 ≤ n → (∀ b, b ∈ l → apart a n b.1 b.2) →
  ∃ l1 l2, l = l1 ++ l2 ∧ Forall (λ b, b.1 + HSIZE * b.2 ≤ a) l1 ∧ Forall (λ b, a + HSIZE * n ≤ b.1) l2.
Proof using Type.
  revert lo. induction l as [|b l IH]; intros lo Hc Hn Hap; [by exists [], []|]. destruct Hc as (H1 & H2 & H3 & H4).
  destruct (Hap b) as [Hb|Hb]; [left| |].
  - exists [], (b :: l). split_and!; [done|done|]. constructor; [done|]. rewrite Forall_forall. intros c Hc.
    destruct (chain_in _ _ _ _ H4 Hc) as (? & ? & ?). unfold HSIZE in *. lia.
  - destruct (IH _ H4 Hn) as (l1 & l2 & -> & G1 & G2); [intros c Hc; apply Hap; by right|]. exists (b :: l1), l2. split_and!; [done|by constructor|done].
Qed.
Lemma covers_cons b l x : covers (b :: l) x ↔ b.1 ≤ x < b.1 + HSIZE * b.2 ∨ covers l x.
Proof using Type. unfold covers. set_solver. Qed.
Lemma covers_app l1 l2 x : covers (l1 ++ l2) x ↔ covers l1 x ∨ covers l2 x.
Proof using Type. unfold covers. set_solver. Qed.


Context (Hbase : 0 < base ∧ base + HSIZE ≤ heap0).

Definition nodes (fl : list (Z * Z)) : list (Z * Z) := (base, 0) :: fl.

Lemma chain_lt lo hi l i j b c : chain lo hi l → l !! i = Some b → l !! j = Some c → (i < j)%nat → b.1 + HSIZE * b.2 < c.1.
Proof using Type.
  intros Hc Hi Hj Hij. rewrite <-(take_drop_middle l i b Hi) in Hc. apply chain_app in Hc as [_ (_ & _ & _ & Hc)].
  assert (c ∈ drop (S i) l) as Hin.
  { apply list_elem_of_lookup. exists (j - S i)%nat. rewrite lookup_drop. replace (S i + (j - S i))%nat with j by lia. done. }
  by apply (chain_in _ _ _ _ Hc) in Hin as [? _].
Qed.
Lemma nodes_lt hi fl i j b c : chain (heap0 - 1) hi fl → nodes fl !! i = Some b → nodes fl !! j = Some c → (i < j)%nat →
  b.1 + HSIZE ≤ c.1 ∧ b.1 + HSIZE * b.2 < c.1.
Proof using Hbase.
  intros Hc Hi Hj Hij. destruct j as [|j]; [lia|]. cbn in Hj. destruct i as [|i].
  - injection Hi as <-. apply list_elem_of_lookup_2 in Hj. destruct (chain_in _ _ _ _ Hc Hj) as (? & _ & _). cbn. unfold HSIZE in *. lia.
  - cbn in Hi. pose proof (chain_lt _ _ _ _ _ _ _ Hc Hi Hj ltac:(lia)). apply list_elem_of_lookup_2 in Hi.
    destruct (chain_in _ _ _ _ Hc Hi) as (_ & ? & _). unfold HSIZE in *. lia.
Qed.
Lemma heap_inside fl A s b : heap fl A s → b ∈ nodes fl → inside b.1 s.
Proof using Type.
  intros Hh [->|Hb]%elem_of_cons; [by left|]. right. destruct (chain_in _ _ _ _ (hp_chain _ _ _ Hh) Hb) as (? & ? & ?). unfold HSIZE in *. lia.
Qed.

(** The search of [free] ends at the last node before the block. *)
Lemma free_search_wp fl A s l1 l2 bp n (p : Z * Z) fuel x (Q : Z → ust → Prop) :
  heap fl A s → fl = l1 ++ l2 → 1 ≤ n → heap0 ≤ bp →
  Forall (λ b, b.1 + HSIZE * b.2 ≤ bp) l1 → Forall (λ b, bp + HSIZE * n ≤ b.1) l2 → nodes fl !! length l1 = Some p →
  x ∈ (nodes fl).*1 → (length fl < fuel)%nat → Q p.1 s → wp (loopM fuel (free_search bp) x) Q s.
Proof using Hbase.
  intros Hh Hfl Hn Hbp H1 H2 Hp Hx Hfuel HQ. set (N := nodes fl) in *. set (t := length l1) in *.
  apply list_elem_of_fmap in Hx as (b & -> & Hb). apply list_elem_of_lookup in Hb as [i Hi].
  assert (∀ i b, N !! i = Some b → (i ≤ t)%nat → b.1 < bp) as Hlow.
  { intros [|j] c Hc Hj; [injection Hc as <-; cbn; unfold HSIZE in *; lia|]. change (fl !! j = Some c) in Hc. rewrite Hfl, lookup_app_l in Hc by (unfold t in Hj; lia).
    pose proof (hp_chain _ _ _ Hh) as Hch. rewrite Hfl in Hch. apply chain_app in Hch as [Hch _]. apply list_elem_of_lookup_2 in Hc.
    destruct (chain_in _ _ _ _ Hch Hc) as (_ & ? & _). rewrite Forall_forall in H1. specialize (H1 _ Hc). unfold HSIZE in *. lia. }
  assert (∀ i b, N !! i = Some b → (t < i)%nat → bp < b.1) as Hhigh.
  { intros [|j] c Hc Hj; [lia|]. change (fl !! j = Some c) in Hc. rewrite Hfl, lookup_app_r in Hc by (unfold t in Hj; lia). apply list_elem_of_lookup_2 in Hc.
    rewrite Forall_forall in H2. specialize (H2 _ Hc). unfold HSIZE in *. lia. }
  set (dist := λ i, if decide (i ≤ t)%nat then (t - i)%nat else (length N - i + t)%nat).
  assert (t < length N)%nat as Ht by (apply lookup_lt_Some in Hp; done).
  assert (∀ fuel i b, N !! i = Some b → (dist i < fuel)%nat → wp (loopM fuel (free_search bp) b.1) Q s) as Hloop.
  2:{ eapply Hloop; [exact Hi|]. unfold dist. change (length N) with (S (length fl)) in *. apply lookup_lt_Some in Hi. case_decide; lia. }
  clear Hi Hfuel i b fuel. induction fuel as [|fuel IH]; intros i b Hi Hd; [lia|]. cbn [loopM]. wp_step. unfold free_search.
  destruct (lseg_next _ _ _ _ (hp_list _ _ _ Hh) Hi) as [_ Hnx]. fold (nodes fl) N in Hnx.
  wp_step. apply hptr_wp; [by eapply heap_inside, list_elem_of_lookup_2|]. rewrite Hnx. clear Hnx.
  destruct (N !! S i) as [c|] eqn:Hc.
  - change (default base (fst <$> Some c)) with c.1. pose proof (nodes_lt _ _ _ _ _ _ (hp_chain _ _ _ Hh) Hi Hc ltac:(lia)) as [Hlt _].
    unfold HSIZE in Hlt. rewrite (proj2 (Z.leb_gt c.1 b.1)) by lia. cbn [andb]. destruct (decide (i = t)) as [->|Hit].
    + rewrite Hp in Hi. injection Hi as <-. rewrite (proj2 (Z.ltb_lt p.1 bp)), (proj2 (Z.ltb_lt bp c.1)) by eauto. by wp_steps.
    + assert ((b.1 <? bp) && (bp <? c.1) = false) as ->.
      { apply andb_false_iff. rewrite !Z.ltb_ge. destruct (decide (i < t)%nat); [right|left]; [apply Z.lt_le_incl, (Hlow (S i)); [done|lia]|].
        apply Z.lt_le_incl, (Hhigh i); [done|lia]. }
      wp_steps. eapply IH; [exact Hc|]. apply lookup_lt_Some in Hc. unfold dist in *. repeat case_decide; lia.
  - change (default base (fst <$> None)) with base. assert (S i = length N) as Hl.
    { apply lookup_ge_None in Hc. apply lookup_lt_Some in Hi. lia. }
    assert (base < bp) as Hbb by (unfold HSIZE in *; lia). assert (base ≤ b.1) as Hle.
    { destruct i as [|i]; [by injection Hi as <-|]. destruct (nodes_lt _ _ 0 (S i) (base, 0) b (hp_chain _ _ _ Hh) eq_refl Hi ltac:(lia)) as [Hq _]. cbn in Hq. unfold HSIZE in *. lia. }
    rewrite (proj2 (Z.ltb_ge bp base)) by lia. rewrite andb_false_r, orb_false_r. rewrite (proj2 (Z.leb_le base b.1)) by done. cbn [andb].
    destruct (decide (i = t)) as [->|Hit].
    + rewrite Hp in Hi. injection Hi as <-. rewrite (proj2 (Z.ltb_lt p.1 bp)) by eauto. by wp_steps.
    + assert (t < i)%nat as Hti by lia. rewrite (proj2 (Z.ltb_ge b.1 bp)) by (apply Z.lt_le_incl; eauto). wp_steps.
      eapply (IH 0%nat (base, 0)); [done|]. unfold dist in *. repeat case_decide; lia.
Qed.

(** [free] joins the block with the one after it. *)
Lemma join_next_wp s bp n lo R nx (Q : unit → ust → Prop) :
  heap0 ≤ bp → bp + HSIZE * n ≤ u_brk s → u_brk s ≤ 2 ^ 31 → 1 ≤ n → size_at (u_mem s) bp = n → lseg (u_mem s) nx R base →
  Forall (λ b, bp + HSIZE * n ≤ b.1) R → chain lo (u_brk s) R →
  (∀ m' n' R', frame (u_mem s) m' bp → size_at m' bp = n' → lseg m' (ptr_at m' bp) R' base → n ≤ n' → bp + HSIZE * n' ≤ u_brk s →
     chain (bp + HSIZE * n') (u_brk s) R' → (∀ x, covers ((bp, n') :: R') x ↔ covers ((bp, n) :: R) x) → (length R' ≤ length R)%nat →
     Q tt (set_mem (λ _, m') s)) →
  wp (if bp + HSIZE * n =? nx then k ← hsize nx; set_size bp (u32 (n + k)) ;; q ← hptr nx; set_ptr bp q else set_ptr bp nx) Q s.
Proof using Hbase.
  intros Hlo Hhi Hbrk Hn Hsz HR Hge Hch HQ. unfold HSIZE in *. assert (inside bp s) as Hin by (right; unfold HSIZE; lia).
  destruct (Z.eqb_spec (bp + 16 * n) nx) as [E|E].
  - destruct R as [|[b k] R]; cbn [lseg fst snd] in HR; [lia|]. destruct HR as (-> & Hk & HR). destruct Hch as (_ & Hk1 & Hkb & Hch). cbn [fst snd] in *.
    assert (inside b s) as Hinb by (right; unfold HSIZE in *; lia). wp_step. apply hsize_wp; [done|]. rewrite Hk.
    wp_step. apply set_size_wp; [done|]. rewrite u32_id by (unfold HSIZE in *; lia). set (m1 := store32 (u_mem s) (bp + 8) (n + k)).
    destruct (store_size (u_mem s) bp (n + k)) as [S1 P1]; [unfold HSIZE in *; lia|]. fold m1 in S1, P1.
    pose proof (frame_store_size (u_mem s) bp (n + k)) as F1. fold m1 in F1.
    wp_step. apply hptr_wp; [exact Hinb|]. cbn [u_mem set_mem]. fold m1.
    destruct (frame_hdr _ _ _ b F1) as [Pb Sb]; [left; unfold HSIZE; lia|]. rewrite Pb. apply set_ptr_wp; [exact Hin|].
    assert (0 ≤ ptr_at (u_mem s) b < 2 ^ 64) as Hb64.
    { destruct R as [|[c j] R]; cbn [lseg fst] in HR; [rewrite HR; unfold HSIZE in *; lia|]. destruct HR as (-> & _). destruct Hch as (? & ? & ? & _). cbn in *. unfold HSIZE in *. lia. }
    destruct (store_ptr m1 bp (ptr_at (u_mem s) b) Hb64) as [P2 S2]. pose proof (frame_store_ptr m1 bp (ptr_at (u_mem s) b)) as F2.
    assert (frame (u_mem s) (store64 m1 bp (ptr_at (u_mem s) b)) bp) as F by (by eapply frame_trans).
    apply (HQ (store64 m1 bp (ptr_at (u_mem s) b)) (n + k) R); [exact F|by rewrite S2| |lia|unfold HSIZE in *; lia| | |cbn; lia].
    + rewrite P2. eapply lseg_frame; [exact F| |exact HR]. rewrite Forall_forall. intros c Hc. left. destruct (chain_in _ _ _ _ Hch Hc). unfold HSIZE in *. lia.
    + replace (bp + 16 * (n + k)) with (b + HSIZE * k) by (unfold HSIZE; lia). done.
    + intros x. rewrite !covers_cons. cbn [fst snd]. unfold HSIZE.
      assert (bp ≤ x < bp + 16 * (n + k) ↔ bp ≤ x < bp + 16 * n ∨ b ≤ x < b + 16 * k) by lia. tauto.
  - apply set_ptr_wp; [exact Hin|].
    assert (0 ≤ nx < 2 ^ 64 ∧ (R = [] ∨ bp + 16 * n < nx)) as [Hx64 HRx].
    { destruct R as [|[c j] R]; cbn [lseg fst] in HR; [subst nx; unfold HSIZE in *; split; [lia|by left]|]. destruct HR as (-> & _).
      destruct Hch as (? & ? & ? & _). apply Forall_cons in Hge as [Hge _]. cbn in *. unfold HSIZE in *. lia. }
    destruct (store_ptr (u_mem s) bp nx Hx64) as [P2 S2]. pose proof (frame_store_ptr (u_mem s) bp nx) as F.
    apply (HQ (store64 (u_mem s) bp nx) n R); [exact F|congruence| |lia|done| |done|lia].
    + rewrite P2. eapply lseg_frame; [exact F| |exact HR]. eapply Forall_impl; [exact Hge|]. cbn. intros c Hc. left. unfold HSIZE. lia.
    + destruct R as [|[c j] R]; [done|]. destruct HRx as [?|HRx]; [done|]. destruct HR as (-> & _). destruct Hch as (? & ? & ? & ?). cbn in *. unfold HSIZE in *. by split_and!.
Qed.

(** [free] joins the block with the node before it. *)
Definition joined (p k bp n : Z) (R : list (Z * Z)) : list (Z * Z) :=
  if decide (p + HSIZE * k = bp) then (p, k + n) :: R else (p, k) :: (bp, n) :: R.
Lemma join_prev_wp s N1 p k bp n R (Q : unit → ust → Prop) :
  inside p s → heap0 ≤ bp → 1 ≤ n → 0 ≤ k → bp + HSIZE * n ≤ u_brk s → u_brk s ≤ 2 ^ 31 → p + HSIZE ≤ bp → p + HSIZE * k ≤ bp → 0 < p →
  lseg (u_mem s) base N1 p → size_at (u_mem s) p = k → size_at (u_mem s) bp = n → lseg (u_mem s) (ptr_at (u_mem s) bp) R base →
  Forall (λ b, b.1 + HSIZE ≤ p) N1 → chain (bp + HSIZE * n) (u_brk s) R →
  (∀ m', frame (u_mem s) m' p → lseg m' base (N1 ++ joined p k bp n R) base → Q tt (Ust m' p (u_brk s))) →
  wp (k ← hsize p;
      (if p + HSIZE * k =? bp then n ← hsize bp; set_size p (u32 (k + n)) ;; q ← hptr bp; set_ptr p q else set_ptr p bp) ;;
      set_freep p) Q s.
Proof using Hbase.
  intros Hin Hlo Hn Hk Hhi Hbrk Hp16 Hpk Hp0 HN1 Sp Sb HR HF1 Hch HQ.
  assert (inside bp s) as Hinb by (right; unfold HSIZE in *; lia).
  assert (Forall (λ b, p + HSIZE ≤ b.1 ∨ b.1 + HSIZE ≤ p) R) as HFR.
  { rewrite Forall_forall. intros c Hc. destruct (chain_in _ _ _ _ Hch Hc). left. unfold HSIZE in *. lia. }
  assert (Forall (λ b, p + HSIZE ≤ b.1 ∨ b.1 + HSIZE ≤ p) N1) as HF1' by (eapply Forall_impl; [exact HF1|]; cbn; tauto).
  wp_step. apply hsize_wp; [done|]. rewrite Sp. wp_step. unfold joined in HQ. destruct (Z.eqb_spec (p + HSIZE * k) bp) as [E|E].
  - rewrite decide_True in HQ by done. wp_step. apply hsize_wp; [done|]. rewrite Sb. wp_step. apply set_size_wp; [done|].
    rewrite u32_id by (unfold HSIZE in *; destruct Hin as [->|[? ?]]; lia). set (m1 := store32 (u_mem s) (p + 8) (k + n)).
    destruct (store_size (u_mem s) p (k + n)) as [S1 P1]; [unfold HSIZE in *; lia|]. fold m1 in S1, P1.
    pose proof (frame_store_size (u_mem s) p (k + n)) as F1. fold m1 in F1.
    wp_step. apply hptr_wp; [exact Hinb|]. cbn [u_mem set_mem]. fold m1.
    destruct (frame_hdr _ _ _ bp F1) as [Pb _]; [left; done|]. rewrite Pb. apply set_ptr_wp; [exact Hin|]. unfold set_freep. wp_step.
    set (q := ptr_at (u_mem s) bp) in *. assert (0 ≤ q < 2 ^ 64) as Hq.
    { destruct R as [|[c j] R]; cbn [lseg fst] in HR; [rewrite HR; unfold HSIZE in *; lia|]. destruct HR as (-> & _). destruct Hch as (? & ? & ? & _). cbn in *. unfold HSIZE in *. lia. }
    destruct (store_ptr m1 p q Hq) as [P2 S2]. assert (frame (u_mem s) (store64 m1 p q) p) as F by (eapply frame_trans; [exact F1|apply frame_store_ptr]).
    apply (HQ (store64 m1 p q)); [exact F|]. apply lseg_app. exists p. split; [by eapply lseg_frame|]. cbn [lseg fst snd]. rewrite P2, S2, S1.
    split_and!; [done|done|by eapply lseg_frame].
  - rewrite decide_False in HQ by done. apply set_ptr_wp; [done|]. unfold set_freep. wp_step.
    destruct (store_ptr (u_mem s) p bp) as [P2 S2]; [unfold HSIZE in *; lia|]. pose proof (frame_store_ptr (u_mem s) p bp) as F.
    apply (HQ (store64 (u_mem s) p bp)); [exact F|]. apply lseg_app. exists p. split; [by eapply lseg_frame|].
    destruct (frame_hdr _ _ _ bp F) as [Pb Sb']; [left; done|]. cbn [lseg fst snd]. rewrite P2, S2, Pb, Sb'.
    split_and!; [done|done|done|done|by eapply lseg_frame].
Qed.

(** The list after [free] is again a sorted list of joined blocks. *)
Lemma joined_nodes hi fl l1 l2 bp n R p k :
  chain (heap0 - 1) hi fl → fl = l1 ++ l2 → nodes fl !! length l1 = Some (p, k) → heap0 ≤ bp → 1 ≤ n → bp + HSIZE * n ≤ hi →
  Forall (λ b, b.1 + HSIZE * b.2 ≤ bp) l1 → chain (bp + HSIZE * n) hi R →
  ∃ fl', take (length l1) (nodes fl) ++ joined p k bp n R = nodes fl' ∧ chain (heap0 - 1) hi fl' ∧
    (∀ x, covers fl' x ↔ covers l1 x ∨ covers ((bp, n) :: R) x).
Proof using Hbase.
  intros Hch -> Hp Hlo Hn Hhi Hl1 HR. apply chain_app in Hch as [Hch _]. unfold joined.
  destruct l1 as [|pk l1' _] using rev_ind.
  - injection Hp as <- <-. rewrite decide_False by (unfold HSIZE in *; lia). exists ((bp, n) :: R). split_and!; [done| |].
    + cbn [chain fst snd]. split_and!; [lia|done|done|done].
    + intros x. split; [by right|]. by intros [(? & ?%elem_of_nil & _)|?].
  - assert (pk = (p, k)) as ->.
    { change (nodes ((l1' ++ [pk]) ++ l2)) with ((base, 0) :: (l1' ++ [pk]) ++ l2) in Hp. rewrite length_app in Hp. cbn [length] in Hp.
      rewrite Nat.add_1_r in Hp. rewrite lookup_cons_ne_0 in Hp by done. cbn [Nat.pred] in Hp. rewrite <-app_assoc, lookup_app_r, Nat.sub_diag in Hp by done. by injection Hp as ->. }
    assert (take (length (l1' ++ [(p, k)])) (nodes ((l1' ++ [(p, k)]) ++ l2)) = (base, 0) :: l1') as ->.
    { rewrite length_app, Nat.add_1_r. unfold nodes. cbn [length app take firstn]. by rewrite <-app_assoc, take_app_length. }
    apply Forall_app in Hl1 as [_ Hpk]. apply Forall_cons in Hpk as [Hpk _]. cbn [fst snd] in Hpk.
    apply chain_app in Hch as [Hch (Hlp & Hk & _ & _)]. cbn [fst snd] in *. case_decide as E.
    + exists (l1' ++ (p, k + n) :: R). split_and!; [done| |].
      * apply chain_app. split; [done|]. cbn [chain fst snd]. replace (p + HSIZE * (k + n)) with (bp + HSIZE * n) by (unfold HSIZE in *; lia).
        split_and!; [done|lia|done|done].
      * intros x. rewrite !covers_app, !covers_cons. cbn [fst snd].
        assert (p ≤ x < p + HSIZE * (k + n) ↔ p ≤ x < p + HSIZE * k ∨ bp ≤ x < bp + HSIZE * n) by (unfold HSIZE in *; lia).
        assert (¬ covers [] x) by (by intros (? & ?%elem_of_nil & _)). tauto.
    + exists (l1' ++ (p, k) :: (bp, n) :: R). split_and!; [done| |].
      * apply chain_app. split; [done|]. cbn [chain fst snd]. split_and!; [done|done|unfold HSIZE in *; lia|lia|done|done|done].
      * intros x. rewrite !covers_app, !covers_cons. assert (¬ covers [] x) by (by intros (? & ?%elem_of_nil & _)). tauto.
Qed.

Lemma apart_spec a n b k : 1 ≤ n → 1 ≤ k → apart a n b k ↔ ∀ x, a ≤ x < a + HSIZE * n → ¬ (b ≤ x < b + HSIZE * k).
Proof using Type.
  intros Hn Hk. unfold apart, HSIZE. split; [lia|]. intros Hx. destruct (decide (a + 16 * n ≤ b)); [by left|]. right.
  destruct (decide (b ≤ a)) as [Hba|Hba]; [specialize (Hx a); lia|specialize (Hx b); lia].
Qed.
Lemma heap_used_free fl A s a n x : heap fl A s → A !! a = Some n → a ≤ x < a + HSIZE * n → ¬ covers fl x.
Proof using Type.
  intros Hh Ha Hx (b & Hb & Hbx). destruct (hp_used _ _ _ Hh _ _ Ha) as (_ & Hn & _). destruct (chain_in _ _ _ _ (hp_chain _ _ _ Hh) Hb) as (_ & Hk & _).
  destruct (proj1 (apart_spec a n b.1 b.2 Hn Hk) (hp_free _ _ _ Hh _ _ _ Ha Hb) x); done.
Qed.

(** The list of the nodes around the place of a block. *)
Lemma heap_place fl A s bp n : heap fl A s → A !! bp = Some n →
  ∃ l1 l2 p k, fl = l1 ++ l2 ∧ nodes fl !! length l1 = Some (p, k) ∧ nodes fl = take (length l1) (nodes fl) ++ (p, k) :: l2 ∧
    Forall (λ b, b.1 + HSIZE * b.2 ≤ bp) l1 ∧ Forall (λ b, bp + HSIZE * n ≤ b.1) l2 ∧
    0 ≤ k ∧ p + HSIZE * k ≤ bp ∧ p + HSIZE ≤ bp ∧ 0 < p.
Proof using Hbase.
  intros Hh Ha. destruct (hp_used _ _ _ Hh _ _ Ha) as (_ & Hn & Hlo & Hhi).
  destruct (chain_split _ _ _ bp n (hp_chain _ _ _ Hh) Hn) as (l1 & l2 & Hfl & H1 & H2); [intros b; by apply (hp_free _ _ _ Hh)|].
  destruct (nodes fl !! length l1) as [[p k]|] eqn:Hp.
  2:{ apply lookup_ge_None in Hp. rewrite Hfl in Hp. unfold nodes in Hp. cbn in Hp. rewrite length_app in Hp. lia. }
  exists l1, l2, p, k. split_and!; [done|done| |done|done|..].
  1:{ rewrite <-(take_drop_middle (nodes fl) (length l1) (p, k) Hp) at 1. do 2 f_equal. rewrite Hfl. unfold nodes. cbn [drop skipn]. apply drop_app_length. }
  all: destruct l1 as [|pk l1' _] using rev_ind; [injection Hp as <- <-; unfold HSIZE in *; lia|].
  all: assert ((p, k) ∈ l1' ++ [pk]) as Hin.
  1,3,5,7: apply list_elem_of_lookup; exists (length l1'); rewrite Hfl in Hp; rewrite length_app, Nat.add_1_r in Hp; unfold nodes in Hp;
    rewrite lookup_cons_ne_0 in Hp by done; cbn [Nat.pred] in Hp; rewrite lookup_app_l in Hp by (rewrite length_app; cbn; lia); exact Hp.
  all: pose proof (hp_chain _ _ _ Hh) as Hch; rewrite Hfl in Hch; apply chain_app in Hch as [Hch _];
    destruct (chain_in _ _ _ _ Hch Hin) as (G1 & G2 & _); rewrite Forall_forall in H1; specialize (H1 _ Hin); cbn [fst snd] in *; unfold HSIZE in *; lia.
Qed.
Lemma place_sorted fl A s t p k :
  heap fl A s → nodes fl !! t = Some (p, k) → Forall (λ b, b.1 + HSIZE ≤ p) (take t (nodes fl)).
Proof using Hbase.
  intros Hh Hp. rewrite Forall_lookup. intros i b Hi. apply lookup_take_Some in Hi as [Hi Hlt].
  by destruct (nodes_lt _ _ _ _ _ _ (hp_chain _ _ _ Hh) Hi Hp Hlt) as [? _].
Qed.

(** A used block is away from the header of a node. *)
Lemma used_node fl A s a n b : heap fl A s → A !! a = Some n → b ∈ nodes fl → b.1 + HSIZE ≤ a ∨ a + HSIZE * n ≤ b.1.
Proof using Hbase.
  intros Hh Ha. destruct (hp_used _ _ _ Hh _ _ Ha) as (_ & Hn & Hlo & _). intros [->|Hb]%elem_of_cons; [cbn; unfold HSIZE in *; lia|].
  destruct (chain_in _ _ _ _ (hp_chain _ _ _ Hh) Hb) as (_ & ? & _). destruct (hp_free _ _ _ Hh _ _ _ Ha Hb); unfold HSIZE in *; lia.
Qed.

Lemma free_wp fl A s bp n (Q : unit → ust → Prop) :
  heap fl A s → A !! bp = Some n →
  (∀ fl' s' N1 R', heap fl' (delete bp A) s' → u_brk s' = u_brk s → (∀ x, covers fl' x ↔ covers fl x ∨ bp ≤ x < bp + HSIZE * n) →
     (∀ a k x, delete bp A !! a = Some k → a ≤ x < a + HSIZE * k → load8 (u_mem s') x = load8 (u_mem s) x) →
     (length fl' ≤ S (length fl))%nat → (∃ k n', nodes fl' = N1 ++ joined (u_freep s') k bp n' R' ∧ n ≤ n' ∧ 0 ≤ k) → Q tt s') →
  wp (free (bp + HSIZE)) Q s.
Proof using Hbase.
  intros Hh Ha HQ. destruct (hp_used _ _ _ Hh _ _ Ha) as (Hsz & Hn & Hlo & Hhi). pose proof (hp_brk _ _ _ Hh) as Hbrk.
  destruct (heap_place fl A s bp n Hh Ha) as (l1 & l2 & p & k & Hfl & Hp & HN & H1 & H2 & Hk & Hpk & Hp16 & Hp0).
  pose proof (place_sorted _ _ _ _ _ _ Hh Hp) as HF1. set (N1 := take (length l1) (nodes fl)) in *.
  pose proof (hp_list _ _ _ Hh) as HL. fold (nodes fl) in HL. rewrite HN in HL. apply lseg_app in HL as (r & HL1 & Hr & Sp & HL2). cbn [fst snd] in *. subst r.
  unfold free. replace (bp + HSIZE - HSIZE) with bp by lia. wp_steps.
  eapply (free_search_wp fl A s l1 l2 bp n (p, k)); [done|done|done|done|done|done|done|apply (hp_freep _ _ _ Hh)| |].
  { pose proof (chain_length _ _ _ (hp_chain _ _ _ Hh) ltac:(lia)) as Hlen. unfold HSIZE in *. clear - Hlen Hbase. Z.div_mod_to_equations. lia. }
  cbn [fst]. assert (inside bp s) as Hinb by (right; unfold HSIZE in *; lia).
  assert ((p, k) ∈ nodes fl) as Hpin by (by eapply list_elem_of_lookup_2).
  pose proof (heap_inside _ _ _ _ Hh Hpin) as Hinp. cbn [fst] in Hinp.
  wp_step. apply hsize_wp; [done|]. rewrite Hsz. wp_step. apply hptr_wp; [done|]. wp_step.
  pose proof (hp_chain _ _ _ Hh) as Hch. rewrite Hfl in Hch. apply chain_app in Hch as [_ Hch2].
  eapply (join_next_wp s bp n _ l2); [done|done|lia|done|done|exact HL2|done|exact Hch2|].
  intros m1 n' R' F1 S1 L1 Hnn Hhi' Hch' Hcov Hsub.
  destruct (frame_hdr _ _ _ p F1) as [P1 Sp1]; [by right|].
  eapply (join_prev_wp (set_mem (λ _, m1) s) N1 p k bp n' R'); cbn [u_mem set_mem u_brk];
    [exact Hinp|done|lia|done|done|lia|done|done|done| |congruence|done|done|done|done|].
  { eapply lseg_frame; [exact F1| |exact HL1]. eapply Forall_impl; [exact HF1|]. cbn. intros b Hb. right. unfold HSIZE in *. lia. }
  intros m2 F2 L2.
  destruct (joined_nodes (u_brk s) fl l1 l2 bp n' R' p k) as (fl' & HN' & Hchf & Hcf); [apply (hp_chain _ _ _ Hh)|done|done|done|lia|done|done|done|].
  assert (∀ x, covers fl' x ↔ covers fl x ∨ bp ≤ x < bp + HSIZE * n) as Hcov'.
  { intros x. rewrite Hcf, Hcov, Hfl, covers_app, covers_cons. cbn [fst snd]. tauto. }
  assert (∀ a q x, delete bp A !! a = Some q → a ≤ x < a + HSIZE * q → load8 m2 x = load8 (u_mem s) x) as Hkeep.
  { intros a q x Hq Hx. apply lookup_delete_Some in Hq as [Hne Hq]. rewrite F2, F1; [done| |].
    - destruct (hp_apart _ _ _ Hh _ _ _ _ Hq Ha ltac:(done)); unfold HSIZE in *; lia.
    - destruct (used_node _ _ _ _ _ _ Hh Hq Hpin); cbn in *; unfold HSIZE in *; lia. }
  eapply (HQ fl' _ N1 R'); [|done|exact Hcov'|exact Hkeep| |exists k, n'; by rewrite <-HN'].
  all: fold N1 in HN'.
  2:{ apply (f_equal length) in HN, HN'. rewrite length_app in HN, HN'. unfold joined, nodes in *. cbn [length] in *. case_decide; cbn [length] in *; lia. }
  split; cbn [u_mem u_brk u_freep].
  - by rewrite HN' in L2.
  - done.
  - change (base :: fl'.*1) with (nodes fl').*1. rewrite <-HN', fmap_app. apply elem_of_app. right. unfold joined. case_decide; left.
  - intros a q Hq. pose proof (Hkeep a q) as Hk2. specialize (λ x, Hk2 x Hq). apply lookup_delete_Some in Hq as [Hne Hq]. destruct (hp_used _ _ _ Hh _ _ Hq) as (Hs & Hrest).
    split; [|done]. rewrite <-Hs. apply load_le_agree. intros x Hx. apply Hk2. unfold HSIZE in *. lia.
  - intros a q b Hq Hb. pose proof Hq as [Hne Hq']%lookup_delete_Some. destruct (hp_used _ _ _ Hh _ _ Hq') as (_ & Hq1 & _).
    destruct (chain_in _ _ _ _ Hchf Hb) as (_ & Hb1 & _). apply apart_spec; [done|done|]. intros x Hx Hbx.
    assert (covers fl' x) as Hc by (by exists b). apply Hcov' in Hc as [Hc|Hc]; [by eapply heap_used_free|].
    pose proof (proj1 (apart_spec a q bp n Hq1 Hn) (hp_apart _ _ _ Hh _ _ _ _ Hq' Ha ltac:(done)) x Hx). done.
  - intros a q b j [Hne Hq]%lookup_delete_Some [Hne' Hj]%lookup_delete_Some. by apply (hp_apart _ _ _ Hh).
  - done.
Qed.

(** ** malloc *)

(** The bytes of the blocks in use stay. *)
Definition kept (A : gmap Z Z) (s s' : ust) : Prop :=
  ∀ a k x, A !! a = Some k → a ≤ x < a + HSIZE * k → load8 (u_mem s') x = load8 (u_mem s) x.

(** The system does not give the memory that [morecore] asks for. *)
Definition refuses (s : ust) (nu : Z) : Prop := sbrk_ok (u_brk s) ((if nu <? 4096 then 4096 else nu) * HSIZE) = false.
Lemma morecore_wp fl A s nu (Q : Z → ust → Prop) :
  heap fl A s → 1 ≤ nu → nu * HSIZE < 2 ^ 31 → (refuses s nu → Q 0 s) →
  (∀ fl' s' N1 R' bp k n', heap fl' A s' → kept A s s' → u_brk s ≤ u_brk s' → (length fl' ≤ S (length fl))%nat → (∀ x, covers fl' x ↔ covers fl x ∨ u_brk s ≤ x < u_brk s') →
     nodes fl' = N1 ++ joined (u_freep s') k bp n' R' → nu ≤ n' → 0 ≤ k → Q (u_freep s') s') →
  wp (morecore nu) Q s.
Proof using Hbase.
  intros Hh Hn Hsm H0 HQ. unfold morecore. set (n := if nu <? 4096 then 4096 else nu).
  assert (nu ≤ n ∧ n * HSIZE < 2 ^ 31) as [Hnn Hnb] by (unfold n, HSIZE in *; destruct (Z.ltb_spec nu 4096); lia).
  rewrite s32_id by (unfold HSIZE in *; lia). unfold sbrk. wp_steps. pose proof (hp_brk _ _ _ Hh) as Hbrk.
  destruct (sbrk_ok (u_brk s) (n * HSIZE)) eqn:Hok; [|wp_steps; by apply H0]. apply sbrk_bound in Hok. wp_steps. set (b := u_brk s) in *.
  rewrite (proj2 (Z.eqb_neq b (-1))) by (unfold HSIZE in *; lia). wp_step.
  apply set_size_wp; [right; cbn; unfold HSIZE in *; lia|]. cbn [u_mem u_freep u_brk]. set (s1 := set_mem _ _).
  destruct (store_size (u_mem s) b n) as [S1 _]; [unfold HSIZE in *; lia|]. pose proof (frame_store_size (u_mem s) b n) as F1.
  assert (∀ a k, A !! a = Some k → a + HSIZE * k ≤ b) as HA by (intros a k Hk; apply (hp_used _ _ _ Hh _ _ Hk)).
  assert (∀ c, c ∈ fl → c.1 + HSIZE * c.2 ≤ b) as Hf by (intros c Hc; apply (chain_in _ _ _ _ (hp_chain _ _ _ Hh) Hc)).
  assert (A !! b = None) as Hb0.
  { destruct (A !! b) as [k|] eqn:E; [|done]. pose proof (HA _ _ E). destruct (hp_used _ _ _ Hh _ _ E) as (_ & ? & _). unfold HSIZE in *. lia. }
  assert (heap fl (<[b := n]> A) s1) as Hh1.
  { split; cbn [u_mem set_mem u_brk u_freep s1].
    - eapply lseg_frame; [exact F1| |apply (hp_list _ _ _ Hh)]. constructor; [cbn; unfold HSIZE in *; lia|]. rewrite Forall_forall. intros c Hc.
      right. specialize (Hf c Hc). destruct (chain_in _ _ _ _ (hp_chain _ _ _ Hh) Hc) as (_ & ? & _). unfold HSIZE in *. lia.
    - eapply chain_mono; [apply (hp_chain _ _ _ Hh)|]. unfold HSIZE in *. lia.
    - apply (hp_freep _ _ _ Hh).
    - intros a k [[<- <-]|[Hne Hk]]%lookup_insert_Some; [split_and!; [done|lia|lia|unfold HSIZE; lia]|].
      destruct (hp_used _ _ _ Hh _ _ Hk) as (Hs & Hk1 & Hlo & Hhi). split_and!; [|done|done|unfold HSIZE in *; lia]. rewrite <-Hs.
      apply (frame_hdr _ _ _ a F1). right. unfold HSIZE in *. lia.
    - intros a k c [[<- <-]|[Hne Hk]]%lookup_insert_Some Hc; [right; by apply Hf|by apply (hp_free _ _ _ Hh)].
    - intros a k c j [[<- <-]|[Hne Hk]]%lookup_insert_Some [[<- <-]|[Hne' Hj]]%lookup_insert_Some Hac; [done|right; by apply HA|left; by apply HA|by apply (hp_apart _ _ _ Hh)].
    - unfold HSIZE in *. lia. }
  wp_step. eapply (free_wp fl _ s1 b n); [exact Hh1|by rewrite lookup_insert_eq|].
  intros fl' s' N1 R' Hh' Hb' Hcov Hkeep Hlen (k & n' & HN & Hn' & Hk). wp_step. rewrite delete_insert_id in * by done.
  cbn [u_brk set_mem s1] in Hb'. eapply (HQ fl' s' N1 R' b k n'); [done| |unfold HSIZE in *; lia|done| |done|lia|done].
  - intros a q x Hq Hx. rewrite (Hkeep a q x Hq Hx). apply F1. left. specialize (HA _ _ Hq). lia.
  - intros x. rewrite Hcov, Hb'. replace (HSIZE * n) with (n * HSIZE) by lia. done.
Qed.

(** A new block of [n] headers, and what [malloc] of [n] headers returns. *)
Definition took (fl : list (Z * Z)) (A : gmap Z Z) (s : ust) (n r : Z) (s' : ust) : Prop :=
  kept A s s' ∧ u_brk s ≤ u_brk s' ∧ ∃ fl' a, r = a + HSIZE ∧ A !! a = None ∧ heap fl' (<[a := n]> A) s' ∧
    ∀ x, covers fl' x ∨ a ≤ x < a + HSIZE * n ↔ covers fl x ∨ u_brk s ≤ x < u_brk s'.
Definition got (fl : list (Z * Z)) (A : gmap Z Z) (s : ust) (n r : Z) (s' : ust) : Prop :=
  r = 0 ∧ s' = s ∧ Forall (λ b, b.2 < n) fl ∧ refuses s n ∨ took fl A s n r s'.

(** The part of the list around a node that is taken or cut. *)
Lemma around fl A s L pv kp a k R :
  heap fl A s → nodes fl = L ++ (pv, kp) :: (a, k) :: R →
  ∃ L', fl = L' ++ (a, k) :: R ∧ nodes L' = L ++ [(pv, kp)] ∧ pv + HSIZE ≤ a ∧
    Forall (λ b, b.1 + HSIZE ≤ pv) L ∧ Forall (λ b, a + HSIZE * k ≤ b.1) R ∧ 1 ≤ k ∧ heap0 ≤ a ∧ a + HSIZE * k ≤ u_brk s.
Proof using Hbase.
  intros Hh HN. assert (∃ L', fl = L' ++ (a, k) :: R ∧ nodes L' = L ++ [(pv, kp)]) as (L' & -> & HL').
  { destruct L as [|b L]; [injection HN as <- <- ->; by exists []|]. injection HN as <- ->. exists (L ++ [(pv, kp)]). by rewrite <-app_assoc. }
  exists L'. pose proof (hp_chain _ _ _ Hh) as Hch. pose proof Hch as [_ (Hlo & Hk & Hhi & HR)]%chain_app. cbn [fst snd] in *.
  assert (nodes (L' ++ (a, k) :: R) !! length L = Some (pv, kp)) as Hp by (rewrite HN; by apply list_lookup_middle).
  assert (nodes (L' ++ (a, k) :: R) !! S (length L) = Some (a, k)) as Ha.
  { rewrite HN, (cons_middle (pv, kp)), app_assoc. apply list_lookup_middle. rewrite length_app. cbn. lia. }
  destruct (nodes_lt _ _ _ _ _ _ Hch Hp Ha ltac:(lia)) as [Hpa _]. cbn [fst] in Hpa.
  destruct (chain_in _ _ _ (a, k) Hch) as (Ha1 & _ & _); [set_solver|]. cbn [fst] in Ha1.
  split_and!; [done|done|done| | |done|lia|done].
  - rewrite <-(take_app_length L ((pv, kp) :: (a, k) :: R)), <-HN. by eapply place_sorted.
  - rewrite Forall_forall. intros b Hb. destruct (chain_in _ _ _ _ HR Hb) as [? _]. lia.
Qed.

Lemma heap_take fl A s fl' a n s' :
  heap fl A s → lseg (u_mem s') base (nodes fl') base → chain (heap0 - 1) (u_brk s) fl' → u_freep s' ∈ (nodes fl').*1 → u_brk s' = u_brk s →
  1 ≤ n → heap0 ≤ a → a + HSIZE * n ≤ u_brk s → size_at (u_mem s') a = n →
  (∀ x, covers fl x ↔ covers fl' x ∨ a ≤ x < a + HSIZE * n) → (∀ x, a ≤ x < a + HSIZE * n → ¬ covers fl' x) → kept A s s' →
  A !! a = None ∧ heap fl' (<[a := n]> A) s'.
Proof using Type.
  intros Hh HL Hch Hf Hb Hn Hlo Hhi Hsz Hcov Hdis Hk.
  assert (∀ c q, A !! c = Some q → apart c q a n) as HA.
  { intros c q Hq. destruct (hp_used _ _ _ Hh _ _ Hq) as (_ & Hq1 & _). apply apart_spec; [done|done|]. intros x Hx Hax.
    eapply heap_used_free; [exact Hh|exact Hq|exact Hx|]. apply Hcov. by right. }
  assert (A !! a = None) as Ha0.
  { destruct (A !! a) as [q|] eqn:E; [|done]. destruct (hp_used _ _ _ Hh _ _ E) as (_ & ? & _). destruct (HA _ _ E); unfold HSIZE in *; lia. }
  split; [done|]. split.
  - done.
  - by rewrite Hb.
  - done.
  - rewrite Hb. intros c q [[<- <-]|[Hne Hq]]%lookup_insert_Some; [done|]. destruct (hp_used _ _ _ Hh _ _ Hq) as (Hs & Hrest). split; [|done].
    rewrite <-Hs. apply load_le_agree. intros x Hx. apply (Hk c q); [done|]. unfold HSIZE in *. lia.
  - intros c q b Hq Hb2. destruct (chain_in _ _ _ _ Hch Hb2) as (_ & Hb1 & _). apply lookup_insert_Some in Hq as [[<- <-]|[Hne Hq]].
    + apply apart_spec; [done|done|]. intros x Hx Hbx. apply (Hdis x Hx). by exists b.
    + destruct (hp_used _ _ _ Hh _ _ Hq) as (_ & Hq1 & _). apply apart_spec; [done|done|]. intros x Hx Hbx.
      eapply heap_used_free; [exact Hh|exact Hq|exact Hx|]. apply Hcov. left. by exists b.
  - intros c q b j [[<- <-]|[Hne Hq]]%lookup_insert_Some [[<- <-]|[Hne' Hj]]%lookup_insert_Some Hcb; [done| |by apply HA|by apply (hp_apart _ _ _ Hh)].
    destruct (HA _ _ Hj); [by right|by left].
  - rewrite Hb. apply (hp_brk _ _ _ Hh).
Qed.

(** What lies before and after a node. *)
Lemma around_list fl A s L pv kp a k R : heap fl A s → nodes fl = L ++ (pv, kp) :: (a, k) :: R →
  lseg (u_mem s) base L pv ∧ size_at (u_mem s) pv = kp ∧ ptr_at (u_mem s) pv = a ∧ size_at (u_mem s) a = k ∧
  lseg (u_mem s) (ptr_at (u_mem s) a) R base ∧ 0 ≤ ptr_at (u_mem s) a < 2 ^ 64 ∧ inside pv s ∧ inside a s.
Proof using Hbase.
  intros Hh HN. pose proof (hp_list _ _ _ Hh) as HL. fold (nodes fl) in HL. rewrite HN in HL.
  apply lseg_app in HL as (r & HL1 & Hr & Sp & Hpv & Sa & HL2). cbn [fst snd] in *. subst r.
  assert ((a, k) ∈ nodes fl ∧ (pv, kp) ∈ nodes fl) as [Hain Hpin] by (rewrite HN; set_solver).
  split_and!; try done; [| |by apply (heap_inside _ _ _ _ Hh Hpin)|by apply (heap_inside _ _ _ _ Hh Hain)].
  all: pose proof (hp_brk _ _ _ Hh) as Hbrk; destruct R as [|[c j] R]; cbn [lseg fst] in HL2; [rewrite HL2; unfold HSIZE in *; lia|].
  all: destruct HL2 as (-> & _); assert ((c, j) ∈ nodes fl) as Hc by (rewrite HN; set_solver).
  all: destruct (heap_inside _ _ _ _ Hh Hc) as [Hcb|Hcb]; cbn in Hcb; unfold HSIZE in *; lia.
Qed.
Lemma left_apart fl A s L' a k R x : heap fl A s → fl = L' ++ (a, k) :: R → a ≤ x → ¬ covers L' x.
Proof using Type.
  intros Hh -> Hx (b & Hb & Hbx). apply list_elem_of_lookup in Hb as [i Hi].
  assert (b.1 + HSIZE * b.2 < a); [|lia].
  apply (chain_lt _ _ _ i (length L') b (a, k) (hp_chain _ _ _ Hh)); [by apply lookup_app_l_Some|by apply list_lookup_middle|by eapply lookup_lt_Some].
Qed.
Lemma right_apart R x y : Forall (λ b, y ≤ b.1) R → x < y → ¬ covers R x.
Proof using Type. intros HF Hx (b & Hb & Hbx). rewrite Forall_forall in HF. specialize (HF _ Hb). lia. Qed.
Lemma nodes_app L' L pv R : nodes L' = L ++ [pv] → nodes (L' ++ R) = L ++ pv :: R.
Proof using Type. intros HL. unfold nodes in *. by rewrite app_comm_cons, HL, <-app_assoc. Qed.

(** A block of the right size is taken off the list. *)
Lemma take_exact fl A s L pv kp a n R :
  heap fl A s → nodes fl = L ++ (pv, kp) :: (a, n) :: R →
  took fl A s n (a + HSIZE) (Ust (store64 (u_mem s) pv (ptr_at (u_mem s) a)) pv (u_brk s)).
Proof using Hbase.
  intros Hh HN. destruct (around _ _ _ _ _ _ _ _ _ Hh HN) as (L' & Hfl & HL' & Hpa & HFL & HFR & Hn & Hlo & Hhi).
  destruct (around_list _ _ _ _ _ _ _ _ _ Hh HN) as (HL1 & Sp & Hpv & Sa & HL2 & Hq & _ & _).
  pose proof (hp_chain _ _ _ Hh) as Hch. rewrite Hfl in Hch. apply chain_app in Hch as [HchL (Hla & _ & _ & HchR)]. cbn [fst snd] in *.
  set (q := ptr_at (u_mem s) a) in *. destruct (store_ptr (u_mem s) pv q Hq) as [P2 S2]. pose proof (frame_store_ptr (u_mem s) pv q) as F.
  assert (kept A s (Ust (store64 (u_mem s) pv q) pv (u_brk s))) as Hkept.
  { intros c j x Hj Hx. apply F. destruct (used_node _ _ _ _ _ (pv, kp) Hh Hj); [rewrite HN; set_solver|cbn in *; unfold HSIZE in *; lia..]. }
  assert (∀ x, covers fl x ↔ covers (L' ++ R) x ∨ a ≤ x < a + HSIZE * n) as Hcov.
  { intros x. rewrite Hfl, !covers_app, covers_cons. cbn [fst snd]. tauto. }
  split; [done|]. split; [cbn; lia|]. exists (L' ++ R), a. split; [done|].
  destruct (heap_take fl A s (L' ++ R) a n (Ust (store64 (u_mem s) pv q) pv (u_brk s))) as [HA Hh']; try done.
  - rewrite (nodes_app _ _ _ _ HL'). cbn [u_mem]. apply lseg_app. exists pv. cbn [lseg fst snd]. rewrite P2, S2. split_and!; [|done|done|].
    + eapply lseg_frame; [exact F| |exact HL1]. eapply Forall_impl; [exact HFL|]. cbn. tauto.
    + eapply lseg_frame; [exact F| |exact HL2]. eapply Forall_impl; [exact HFR|]. cbn. intros b Hb. left. unfold HSIZE in *. lia.
  - apply chain_app. split; [done|]. eapply chain_lower; [exact HchR|]. unfold HSIZE in *. lia.
  - rewrite (nodes_app _ _ _ _ HL'), fmap_app. apply elem_of_app. right. left.
  - cbn [u_mem]. rewrite <-Sa. apply (frame_hdr _ _ _ a F). by left.
  - intros x Hx. rewrite covers_app. intros [Hc|Hc]; [by eapply left_apart; [exact Hh|exact Hfl| |exact Hc]; lia|by eapply right_apart; [exact HFR| |exact Hc]; lia].
  - split_and!; [done|done|]. intros x. cbn [u_brk]. rewrite Hcov. split; [tauto|]. intros [?|?]; [tauto|lia].
Qed.

(** A larger block gives its end. *)
Lemma take_end fl A s L pv kp a k n R m1 :
  heap fl A s → nodes fl = L ++ (pv, kp) :: (a, k) :: R → 1 ≤ n → n < k → m1 = store32 (u_mem s) (a + 8) (k - n) →
  took fl A s n (a + HSIZE * (k - n) + HSIZE) (Ust (store32 m1 (a + HSIZE * (k - n) + 8) n) pv (u_brk s)).
Proof using Hbase.
  intros Hh HN Hn1 Hnk Hm1. destruct (around _ _ _ _ _ _ _ _ _ Hh HN) as (L' & Hfl & HL' & Hpa & HFL & HFR & Hk & Hlo & Hhi).
  destruct (around_list _ _ _ _ _ _ _ _ _ Hh HN) as (HL1 & Sp & Hpv & Sa & HL2 & Hq & _ & _). pose proof (hp_brk _ _ _ Hh) as Hbrk.
  pose proof (hp_chain _ _ _ Hh) as Hch. rewrite Hfl in Hch. apply chain_app in Hch as [HchL (Hla & _ & _ & HchR)]. cbn [fst snd] in *.
  set (b := a + HSIZE * (k - n)). set (m2 := store32 m1 (b + 8) n).
  destruct (store_size (u_mem s) a (k - n)) as [S1 P1]; [unfold HSIZE in *; lia|]. destruct (store_size m1 b n) as [S2 _]; [unfold HSIZE in *; lia|].
  pose proof (frame_store_size (u_mem s) a (k - n)) as F1. pose proof (frame_store_size m1 b n) as F2. rewrite <-Hm1 in *. fold m2 in S2, F2.
  assert (a + HSIZE ≤ b ∧ b + HSIZE * n = a + HSIZE * k) as [Hab Hbk] by (unfold b, HSIZE; lia).
  assert (∀ l p q, Forall (λ c, c.1 + HSIZE ≤ a ∨ a + HSIZE * k ≤ c.1) l → lseg (u_mem s) p l q → lseg m2 p l q) as Hlseg.
  { intros l p q HF Hl. eapply (lseg_frame m1 m2 b); [exact F2| |eapply (lseg_frame (u_mem s) m1 a); [exact F1| |exact Hl]].
    all: eapply Forall_impl; [exact HF|]; cbn; intros c Hc; unfold HSIZE in *; lia. }
  assert (kept A s (Ust m2 pv (u_brk s))) as Hkept.
  { intros c j x Hj Hx. cbn [u_mem]. assert (x < a ∨ a + HSIZE * k ≤ x).
    { destruct (hp_free _ _ _ Hh _ _ (a, k) Hj); [rewrite Hfl; set_solver|cbn in *; lia..]. }
    rewrite F2, F1; [done|unfold HSIZE in *; lia..]. }
  assert (∀ x, covers fl x ↔ covers (L' ++ (a, k - n) :: R) x ∨ b ≤ x < b + HSIZE * n) as Hcov.
  { intros x. rewrite Hfl, !covers_app, !covers_cons. cbn [fst snd].
    assert (a ≤ x < a + HSIZE * k ↔ a ≤ x < a + HSIZE * (k - n) ∨ b ≤ x < b + HSIZE * n) by (unfold b, HSIZE in *; lia). tauto. }
  split; [done|]. split; [cbn; lia|]. exists (L' ++ (a, k - n) :: R), b. split; [done|].
  destruct (heap_take fl A s (L' ++ (a, k - n) :: R) b n (Ust m2 pv (u_brk s))) as [HA Hh']; try done; try (unfold HSIZE in *; lia).
  - rewrite (nodes_app _ _ _ _ HL'). cbn [u_mem]. apply lseg_app. exists pv. cbn [lseg fst snd].
    assert (frame (u_mem s) m1 a) as F1' by done.
    destruct (frame_hdr _ _ _ a F2) as [Pa2 Sa2]; [by right|].
    destruct (frame_hdr _ _ _ pv F2) as [Pp2 Sp2]; [right; unfold HSIZE in *; lia|]. destruct (frame_hdr _ _ _ pv F1) as [Pp1 Sp1]; [by right|].
    rewrite Pa2, Sa2, Pp2, Sp2, Pp1, Sp1, S1, P1, Hpv. split_and!; [|done|done|done|done|].
    + apply Hlseg; [|exact HL1]. eapply Forall_impl; [exact HFL|]. cbn. unfold HSIZE in *. lia.
    + apply Hlseg; [|exact HL2]. eapply Forall_impl; [exact HFR|]. cbn. tauto.
  - apply chain_app. split; [done|]. cbn [chain fst snd]. split_and!; [done|lia|unfold HSIZE in *; lia|]. eapply chain_lower; [exact HchR|]. unfold HSIZE in *. lia.
  - rewrite (nodes_app _ _ _ _ HL'), fmap_app. apply elem_of_app. right. left.
  - intros x Hx. rewrite covers_app, covers_cons. cbn [fst snd]. intros [Hc|[Hc|Hc]]; [|unfold b, HSIZE in *; lia|].
    + eapply left_apart; [exact Hh|exact Hfl| |exact Hc]. unfold HSIZE in *. lia.
    + eapply right_apart; [exact HFR| |exact Hc]. lia.
  - split_and!; [done|done|]. intros x. cbn [u_brk]. rewrite Hcov. split; [tauto|]. intros [?|?]; [tauto|lia].
Qed.

Lemma take_wp fl A s L pv kp a k R n (Q : Z * Z + Z → ust → Prop) :
  heap fl A s → nodes fl = L ++ (pv, kp) :: (a, k) :: R → 1 ≤ n → n ≤ k →
  (∀ r s', took fl A s n r s' → Q (inr r) s') → wp (malloc_round n (pv, a)) Q s.
Proof using Hbase.
  intros Hh HN Hn Hnk HQ. destruct (around _ _ _ _ _ _ _ _ _ Hh HN) as (_ & _ & _ & _ & _ & _ & Hk & Hlo & Hhi).
  destruct (around_list _ _ _ _ _ _ _ _ _ Hh HN) as (_ & _ & _ & Sa & _ & _ & Hip & Hia). pose proof (hp_brk _ _ _ Hh) as Hbrk.
  unfold malloc_round. wp_step. apply hsize_wp; [done|]. rewrite Sa, (proj2 (Z.leb_le n k)) by done. wp_step.
  destruct (Z.eqb_spec k n) as [->|Hne].
  - wp_step. apply hptr_wp; [done|]. wp_step. apply set_ptr_wp; [done|]. unfold set_freep. wp_steps. apply HQ.
    exact (take_exact fl A s L pv kp a n R Hh HN).
  - wp_step. apply set_size_wp; [done|]. rewrite u32_id by (unfold HSIZE in *; lia). wp_step. apply hsize_wp; [exact Hia|]. cbn [u_mem set_mem].
    destruct (store_size (u_mem s) a (k - n)) as [S1 _]; [unfold HSIZE in *; lia|]. rewrite S1.
    wp_step. apply set_size_wp; [right; cbn; unfold HSIZE in *; lia|]. unfold set_freep. wp_steps. apply HQ.
    assert (n < k) as Hlt by lia. exact (take_end fl A s L pv kp a k n R _ Hh HN Hn Hlt eq_refl).
Qed.

(** ** Once around the list, from [freep] back to it *)

Definition around_list_of (L R : list (Z * Z)) (f : Z * Z) : list (Z * Z) := (f :: R) ++ L ++ [f].
Section cycle.
Context (fl : list (Z * Z)) (A : gmap Z Z) (s : ust) (Hh : heap fl A s).
Context (L R : list (Z * Z)) (f : Z * Z) (HN : nodes fl = L ++ f :: R).
Notation C := (around_list_of L R f).

(** The place of a node of the cycle in the list. *)
Lemma cycle_low j : (j ≤ length R)%nat → C !! j = nodes fl !! (length L + j)%nat.
Proof using HN.
  intros Hj. unfold around_list_of. rewrite lookup_app_l by (cbn; lia). rewrite HN, lookup_app_r by lia. f_equal. lia.
Qed.
Lemma cycle_high j : (length R < j)%nat → (j ≤ length R + length L + 1)%nat → C !! j = nodes fl !! (j - length R - 1)%nat.
Proof using HN.
  intros Hj Hj'. unfold around_list_of. rewrite lookup_app_r by (cbn; lia). cbn [length]. replace (j - S (length R))%nat with (j - length R - 1)%nat by lia.
  rewrite HN, (cons_middle f L R), app_assoc. rewrite (lookup_app_l (L ++ [f]) R); [done|]. rewrite length_app. cbn. lia.
Qed.
Lemma cycle_length : length C = (length R + length L + 2)%nat.
Proof using Type. unfold around_list_of. rewrite !length_app. cbn. lia. Qed.

Lemma cycle_next j b c : C !! j = Some b → C !! S j = Some c →
  ptr_at (u_mem s) b.1 = c.1 ∧ (c = (base, 0) ∨ ∃ L2 R2, nodes fl = L2 ++ b :: c :: R2).
Proof using Hh HN.
  intros Hb Hc. pose proof (lookup_lt_Some _ _ _ Hc) as Hj. rewrite cycle_length in Hj.
  assert (∀ i, nodes fl !! i = Some b → nodes fl !! S i = Some c → ptr_at (u_mem s) b.1 = c.1 ∧ (c = (base, 0) ∨ ∃ L2 R2, nodes fl = L2 ++ b :: c :: R2)) as Hadj.
  { intros i Hi Hi'. destruct (lseg_next _ _ _ _ (hp_list _ _ _ Hh) Hi) as [_ Hp]. fold (nodes fl) in Hp. rewrite Hi' in Hp. split; [done|right].
    exists (take i (nodes fl)), (drop (S (S i)) (nodes fl)). rewrite <-(drop_S _ c (S i)), <-(drop_S _ b i), take_drop by done. done. }
  assert (length (nodes fl) = length L + length R + 1)%nat as HlN by (rewrite HN, length_app; cbn; lia).
  destruct (decide (S j ≤ length R)%nat).
  - rewrite cycle_low in Hb, Hc by lia. rewrite Nat.add_succ_r in Hc. by eapply Hadj.
  - destruct (decide (j = length R)) as [->|].
    + rewrite cycle_low in Hb by lia. rewrite cycle_high in Hc by lia. replace (S (length R) - length R - 1)%nat with 0%nat in Hc by lia.
      injection Hc as <-. split; [|by left]. destruct (lseg_next _ _ _ _ (hp_list _ _ _ Hh) Hb) as [_ Hp]. fold (nodes fl) in Hp.
      rewrite Hp, lookup_ge_None_2 by lia. done.
    + rewrite cycle_high in Hb, Hc by lia. eapply (Hadj (j - length R - 1)%nat); [done|]. by replace (S (j - length R - 1))%nat with (S j - length R - 1)%nat by lia.
Qed.
Lemma cycle_inner j b : C !! j = Some b → (0 < j < length R + length L + 1)%nat → b.1 ≠ f.1.
Proof using Hh HN Hbase.
  intros Hb Hj. assert (nodes fl !! length L = Some f) as Hf by (rewrite HN; by apply list_lookup_middle).
  destruct (decide (j ≤ length R)%nat).
  - rewrite cycle_low in Hb by done. destruct (nodes_lt _ _ _ _ _ _ (hp_chain _ _ _ Hh) Hf Hb ltac:(lia)) as [? _]. unfold HSIZE in *. lia.
  - rewrite cycle_high in Hb by lia. destruct (nodes_lt _ _ _ _ _ _ (hp_chain _ _ _ Hh) Hb Hf ltac:(lia)) as [? _]. unfold HSIZE in *. lia.
Qed.
Lemma cycle_last : C !! (length R + length L + 1)%nat = Some f.
Proof using Type.
  unfold around_list_of. rewrite app_assoc. apply list_lookup_middle. rewrite length_app. cbn. lia.
Qed.
Lemma cycle_forall (P : Z * Z → Prop) : (∀ i d, (0 < i)%nat → C !! i = Some d → P d) → Forall P ((L ++ [f]) ++ R).
Proof using Type.
  clear Hbase Hh HN. intros HP. apply Forall_forall. intros d Hd. assert (∃ i, (R ++ L ++ [f]) !! i = Some d) as [i Hi] by (apply list_elem_of_lookup; set_solver).
  apply (HP (S i)); [lia|done].
Qed.
End cycle.

(** [malloc] goes round once; [F] is what is left to do when nothing fits. *)
Lemma round_wp fl A s L R f n F (Q : Z → ust → Prop) :
  heap fl A s → nodes fl = L ++ f :: R → f.1 = u_freep s → 1 ≤ n → (∀ r s', took fl A s n r s' → Q r s') →
  (Forall (λ b, b.2 < n) (nodes fl) → ∀ fuel, (F ≤ fuel)%nat →
     wp (p ← morecore n; if p =? 0 then mret (inr 0) else q ← hptr p; mret (inl (p, q)))
       (λ r s', match r with inl a => wp (loopM fuel (malloc_round n) a) Q s' | inr r => Q r s' end) s) →
  ∀ fuel j b c, around_list_of L R f !! j = Some b → around_list_of L R f !! S j = Some c →
    (∀ i d, (0 < i ≤ j)%nat → around_list_of L R f !! i = Some d → d.2 < n) → (length fl + 1 - j + F ≤ fuel)%nat → wp (loopM fuel (malloc_round n) (b.1, c.1)) Q s.
Proof using Hbase.
  intros Hh HN Hf Hn Htook Hmiss. assert (length fl = length R + length L)%nat as Hlen.
  { apply (f_equal length) in HN. rewrite length_app in HN. cbn in HN. lia. }
  induction fuel as [|fuel IH]; intros j b c Hb Hc Hsmall Hfuel; pose proof (lookup_lt_Some _ _ _ Hc) as Hj; rewrite cycle_length in Hj; [lia|].
  destruct (cycle_next fl A s Hh L R f HN j b c Hb Hc) as [_ Hadj].
  assert (∃ i, nodes fl !! i = Some c) as [i Hi].
  { destruct (decide (S j ≤ length R)%nat); [exists (length L + S j)%nat; by rewrite <-(cycle_low fl L R f HN)|].
    exists (S j - length R - 1)%nat. rewrite <-(cycle_high fl L R f HN); [done|lia..]. }
  destruct (lseg_next _ _ _ _ (hp_list _ _ _ Hh) Hi) as [Hsz _]. assert (inside c.1 s) as Hin by (by eapply heap_inside, list_elem_of_lookup_2).
  cbn [loopM]. wp_step. destruct (decide (n ≤ c.2)) as [Hfit|Hfit].
  - destruct Hadj as [->|(L2 & R2 & HN2)]; [cbn in Hfit; lia|]. destruct b as [pv kp], c as [a k]. cbn [fst snd] in *.
    eapply take_wp; [exact Hh|exact HN2|done|done|]. intros r s' Hr. wp_step. by apply Htook.
  - unfold malloc_round at 1. wp_step. apply hsize_wp; [done|]. rewrite Hsz, (proj2 (Z.leb_gt n c.2)) by lia. wp_steps. rewrite <-Hf.
    destruct (decide (S j = length R + length L + 1)%nat) as [Hl|Hl].
    + assert (Forall (λ b, b.2 < n) (nodes fl)) as Hall.
      { rewrite HN, (cons_middle f L R), app_assoc. apply (cycle_forall L R f). intros i' d Hi' Hd. destruct (decide (i' ≤ j)%nat); [apply (Hsmall i'); [lia|done]|].
        pose proof (lookup_lt_Some _ _ _ Hd) as Hd'. rewrite cycle_length in Hd'. replace i' with (S j) in Hd by lia. simplify_eq. lia. }
      rewrite Hl, cycle_last in Hc. injection Hc as <-. rewrite Z.eqb_refl. eapply wp_mono; [apply (Hmiss Hall fuel); lia|].
      intros [a|r] s' Hr; [done|by wp_step].
    + rewrite (proj2 (Z.eqb_neq c.1 f.1)) by (eapply (cycle_inner fl A s Hh L R f HN); [exact Hc|lia]).
      destruct (around_list_of L R f !! S (S j)) as [d|] eqn:Hd; [|apply lookup_ge_None in Hd; rewrite cycle_length in Hd; lia].
      wp_step. apply hptr_wp; [done|]. destruct (cycle_next fl A s Hh L R f HN (S j) c d Hc Hd) as [-> _]. wp_step.
      eapply IH; [exact Hc|exact Hd| |lia]. intros i' e Hi' He. destruct (decide (i' ≤ j)%nat); [apply (Hsmall i'); [lia|done]|].
      replace i' with (S j) in He by lia. simplify_eq. lia.
Qed.

Lemma took_more fl A s fl1 s1 n r s' :
  kept A s s1 → u_brk s ≤ u_brk s1 → (∀ x, covers fl1 x ↔ covers fl x ∨ u_brk s ≤ x < u_brk s1) →
  took fl1 A s1 n r s' → took fl A s n r s'.
Proof using Type.
  clear Hbase. intros Hk Hb Hc (Hk' & Hb' & fl' & a & Hr & Ha & Hh & Hc'). split; [|split; [lia|]].
  - intros c q x Hq Hx. by rewrite (Hk' c q), (Hk c q).
  - exists fl', a. split_and!; [done|done|done|]. intros x. rewrite Hc', Hc. split; [|intros [?|?]; [tauto|]; destruct (decide (x < u_brk s1)); [left; right; lia|right; lia]].
    intros [[?|?]|?]; [tauto|right; lia|right; lia].
Qed.

(** Headers for a request of [nbytes]. *)
Definition units (nbytes : Z) : Z := (nbytes + HSIZE - 1) / HSIZE + 1.
Lemma units_enough nbytes : 0 ≤ nbytes → nbytes ≤ HSIZE * (units nbytes - 1) ∧ 1 ≤ units nbytes.
Proof using Type. intros Hn. unfold units, HSIZE. clear - Hn. Z.div_mod_to_equations. lia. Qed.

Lemma scan_start fl A s L R f : heap fl A s → nodes fl = L ++ f :: R →
  ∃ c, around_list_of L R f !! 0%nat = Some f ∧ around_list_of L R f !! 1%nat = Some c ∧ ptr_at (u_mem s) f.1 = c.1.
Proof using Hbase.
  intros Hh HN. destruct (around_list_of L R f !! 1%nat) as [c|] eqn:Hc; [|apply lookup_ge_None in Hc; rewrite cycle_length in Hc; lia].
  exists c. split_and!; [done|done|]. by destruct (cycle_next fl A s Hh L R f HN 0 f c eq_refl Hc).
Qed.

(** When nothing fits, [morecore] brings a block that does. *)
Lemma miss_wp fl A s n fuel (Q : Z → ust → Prop) :
  heap fl A s → 1 ≤ n → n * HSIZE < 2 ^ 31 → (length fl + 2 ≤ fuel)%nat → Forall (λ b, b.2 < n) fl → (∀ r s', got fl A s n r s' → Q r s') →
  wp (p ← morecore n; if p =? 0 then mret (inr 0) else q ← hptr p; mret (inl (p, q)))
    (λ r s', match r with inl a => wp (loopM fuel (malloc_round n) a) Q s' | inr r => Q r s' end) s.
Proof using Hbase.
  intros Hh Hn Hsm Hfuel Hall HQ. wp_step. eapply morecore_wp; [exact Hh|done|done|intros Hno; wp_steps; apply HQ; by left|].
  intros fl' s' N1 R' bp k n' Hh' Hk Hb Hlen Hcov HN Hnn Hk0.
  assert (∃ f R, nodes fl' = N1 ++ f :: R ∧ f.1 = u_freep s' ∧ (n ≤ f.2 ∨ ∃ R2, R = (bp, n') :: R2)) as (f & R & HNf & Hf & Hfit).
  { unfold joined in HN. case_decide; eexists _, _; (split; [exact HN|]); cbn; (split; [done|]); [left; lia|right; eauto]. }
  assert (inside (u_freep s') s') as Hin by (rewrite <-Hf; eapply heap_inside; [exact Hh'|rewrite HNf; set_solver]).
  rewrite (proj2 (Z.eqb_neq (u_freep s') 0)).
  2:{ destruct Hin as [->|[? _]]; unfold HSIZE in *; lia. }
  assert (∀ r s2, took fl' A s' n r s2 → Q r s2) as HQ'.
  { intros r s2 Hr. apply HQ. right. by eapply took_more. }
  wp_step. apply hptr_wp; [done|]. wp_step. destruct (scan_start fl' A s' N1 R f Hh' HNf) as (c & Hc0 & Hc1 & Hp). rewrite <-Hf, Hp.
  destruct Hfit as [Hfit|(R2 & ->)].
  - eapply (round_wp fl' A s' N1 R f n 0); [done|done|done|done|done| |exact Hc0|exact Hc1|lia|lia].
    intros HF. rewrite HNf, Forall_app, Forall_cons in HF. lia.
  - destruct fuel as [|fuel]; [lia|]. cbn [loopM]. wp_step. unfold around_list_of in Hc1. cbn in Hc1. injection Hc1 as <-. destruct f as [pv kp]. cbn [fst] in *.
    eapply take_wp; [exact Hh'|exact HNf|done|lia|]. intros r s2 Hr. wp_step. by apply HQ'.
Qed.

Lemma malloc_search_wp fl A s n (Q : Z → ust → Prop) :
  heap fl A s → 1 ≤ n → n * HSIZE < 2 ^ 31 → (∀ r s', got fl A s n r s' → Q r s') →
  wp (p ← hptr (u_freep s); s' ← get; loopM (4 + 2 * Z.to_nat (u_brk s' / HSIZE)) (malloc_round n) (u_freep s, p)) Q s.
Proof using Hbase.
  intros Hh Hn Hsm HQ. pose proof (hp_freep _ _ _ Hh) as Hf. change (base :: fl.*1) with (nodes fl).*1 in Hf. apply list_elem_of_fmap in Hf as (f & Hf & Hin).
  pose proof (heap_inside _ _ _ _ Hh Hin) as Hins. rewrite <-Hf in Hins.
  wp_steps. apply hptr_wp; [done|]. wp_steps. apply list_elem_of_split in Hin as (L & R & HN).
  destruct (scan_start fl A s L R f Hh HN) as (c & Hc0 & Hc1 & Hp). rewrite Hf, Hp.
  assert (length fl ≤ Z.to_nat (u_brk s / HSIZE))%nat as Hlen.
  { pose proof (chain_length _ _ _ (hp_chain _ _ _ Hh) ltac:(pose proof (hp_brk _ _ _ Hh); lia)) as Hlen. unfold HSIZE in *. clear - Hlen Hbase. Z.div_mod_to_equations. lia. }
  eapply (round_wp fl A s L R f _ (length fl + 2)); [done|done|done|done| | |exact Hc0|exact Hc1|lia|lia].
  - intros r s' Hr. apply HQ. by right.
  - intros [_ HF]%Forall_cons fuel Hfuel. apply (miss_wp fl A); [exact Hh|exact Hn|exact Hsm|exact Hfuel|exact HF|exact HQ].
Qed.

(** [malloc] on a heap, and the first call, which makes the list of no blocks. *)
Definition ready (fl : list (Z * Z)) (A : gmap Z Z) (s : ust) : Prop :=
  heap fl A s ∨ u_freep s = 0 ∧ fl = [] ∧ A = ∅ ∧ heap0 ≤ u_brk s ≤ 2 ^ 31.
Lemma malloc_wp fl A s nbytes (Q : Z → ust → Prop) :
  ready fl A s → 0 ≤ nbytes → units nbytes * HSIZE < 2 ^ 31 →
  (∀ s0 r s', heap fl A s0 → kept A s s0 → u_brk s0 = u_brk s → got fl A s0 (units nbytes) r s' → Q r s') → wp (malloc nbytes) Q s.
Proof using Hbase.
  intros Hr Hn Hsm HQ. destruct (units_enough nbytes Hn) as [_ Hu]. unfold malloc. fold (units nbytes). rewrite u32_id by (unfold HSIZE in *; lia).
  wp_steps. destruct Hr as [Hh|(Hf & -> & -> & Hbrk)].
  - rewrite (proj2 (Z.eqb_neq (u_freep s) 0)).
    2:{ pose proof (hp_freep _ _ _ Hh) as [->|Hf]%elem_of_cons; [lia|]. apply list_elem_of_fmap in Hf as (b & -> & Hb).
      destruct (chain_in _ _ _ _ (hp_chain _ _ _ Hh) Hb) as (? & _). unfold HSIZE in *. lia. }
    wp_step. apply (malloc_search_wp fl A s); [done|done|done|]. intros r s' Hr. by eapply HQ.
  - rewrite Hf. change (0 =? 0) with true. cbv iota. wp_step. apply set_ptr_wp; [by left|]. unfold set_freep. wp_steps.
    apply set_size_wp; [by left|]. wp_step. set (s0 := set_mem (λ m, store32 m (base + 8) 0) _). assert (heap [] ∅ s0) as Hh.
    { split; cbn [u_mem u_freep u_brk s0 set_mem]; try done; [|set_solver]. cbn [lseg fst snd].
      destruct (store_size (store64 (u_mem s) base base) base 0) as [S1 P1]; [lia|]. rewrite S1, P1. split_and!; [done|done|].
      apply (store_ptr (u_mem s) base base). unfold HSIZE in *. lia. }
    apply (malloc_search_wp [] ∅ s0); [done|done|done|]. intros r s' Hr. by eapply (HQ s0).
Qed.
End umalloc.

(** ** Theorems *)

(** C28: for a request of less than 2 GB less two headers (2^31 - 32 bytes; for more
    the arithmetic may wrap around, see [malloc_wraps]), [malloc] returns 0, when no
    free block is large enough and the system has no more memory to give, or a pointer to a block that
    holds the bytes asked for and does not meet any block in use; the blocks in
    use keep their contents, and no memory is lost: what was free, and what was
    taken from the system, is the new block or free. *)
Theorem malloc_spec `{Sbrk} base heap0 fl A s nbytes :
  0 < base ∧ base + HSIZE ≤ heap0 → ready base heap0 fl A s → 0 ≤ nbytes → nbytes < 2 ^ 31 - 2 * HSIZE →
  ∃ r s', malloc base heap0 nbytes s = Done r s' ∧ kept A s s' ∧ u_brk s ≤ u_brk s' ∧
    (r = 0 ∧ heap base heap0 fl A s' ∧ Forall (λ b, b.2 < units nbytes) fl ∧ refuses s (units nbytes) ∨
     ∃ fl' a n, r = a + HSIZE ∧ A !! a = None ∧ heap base heap0 fl' (<[a := n]> A) s' ∧ r + nbytes ≤ a + HSIZE * n ∧
       ∀ x, covers fl' x ∨ a ≤ x < a + HSIZE * n ↔ covers fl x ∨ u_brk s ≤ x < u_brk s').
Proof.
  intros Hb Hr Hn Hsm. destruct (units_enough nbytes Hn) as [Hen _].
  assert (wp (malloc base heap0 nbytes) (λ r s', kept A s s' ∧ u_brk s ≤ u_brk s' ∧
    (r = 0 ∧ heap base heap0 fl A s' ∧ Forall (λ b, b.2 < units nbytes) fl ∧ refuses s (units nbytes) ∨
     ∃ fl' a n, r = a + HSIZE ∧ A !! a = None ∧ heap base heap0 fl' (<[a := n]> A) s' ∧ r + nbytes ≤ a + HSIZE * n ∧
       ∀ x, covers fl' x ∨ a ≤ x < a + HSIZE * n ↔ covers fl x ∨ u_brk s ≤ x < u_brk s')) s) as Hwp.
  { eapply malloc_wp; [done|exact Hr|done| |].
    - unfold units, HSIZE in *. clear - Hsm. Z.div_mod_to_equations. lia.
    - intros s0 r s' Hh Hk Hbrk [(-> & -> & Hall & Hno)|(Hk' & Hb' & fl' & a & -> & Ha & Hh' & Hc)].
      { split_and!; [done|lia|left; split_and!; [done|done|done|]]. unfold refuses in *. by rewrite <-Hbrk. }
     
      rewrite Hbrk in *. split_and!; [|done|right].
      + intros c q x Hq Hx. by rewrite (Hk' c q), (Hk c q).
      + exists fl', a, (units nbytes). split_and!; [done|done|done|unfold HSIZE in *; lia|done]. }
  apply wp_elim in Hwp as (r & s' & Hrun & HR). by exists r, s'.
Qed.

(** [free] of a block in use returns, gives exactly its bytes back to the free
    list, and touches no other block in use. *)
Theorem free_spec `{Sbrk} base heap0 fl A s a n :
  0 < base ∧ base + HSIZE ≤ heap0 → heap base heap0 fl A s → A !! a = Some n →
  ∃ fl' s', free base heap0 (a + HSIZE) s = Done tt s' ∧ heap base heap0 fl' (delete a A) s' ∧ kept (delete a A) s s' ∧
    ∀ x, covers fl' x ↔ covers fl x ∨ a ≤ x < a + HSIZE * n.
Proof.
  intros Hb Hh Ha. assert (wp (free base heap0 (a + HSIZE)) (λ _ s', ∃ fl', heap base heap0 fl' (delete a A) s' ∧ kept (delete a A) s s' ∧
    ∀ x, covers fl' x ↔ covers fl x ∨ a ≤ x < a + HSIZE * n) s) as Hwp.
  { eapply free_wp; [done|exact Hh|exact Ha|]. intros fl' s' _ _ Hh' _ Hc Hk _ _. by exists fl'. }
  apply wp_elim in Hwp as ([] & s' & Hrun & fl' & HR). by exists fl', s'.
Qed.

(** ** A process of two pages on a machine with 128 MB *)

Definition demo_sbrk : Sbrk.
Proof.
  refine {| sbrk_ok := λ b n, (0 <=? b + n) && (b + n <=? 2 ^ 27) |}. intros b n E. bsimpl. lia.
Defined.
Definition demo_ust : ust := Ust ∅ 0 8192.
Lemma demo_ready : ready 4096 8192 [] ∅ demo_ust.
Proof. right. split_and!; [done|done|done|cbn; lia..]. Qed.

(** A request close to 4 GB: the product passed to [sbrk] wraps around to 0, so
    no memory is added and [malloc] stores a header outside the process instead
    of returning 0. *)
Theorem malloc_wraps :
  malloc (H := demo_sbrk) 4096 8192 (2 ^ 32 - 16) demo_ust =
  Fault "header" (Ust (store32 (store64 ∅ 4096 4096) 4104 0) 4096 8192).
Proof. vm_compute. reflexivity. Qed.

Lemma malloc_spec_witness : ∃ r s', malloc (H := demo_sbrk) 4096 8192 100 demo_ust = Done r s' ∧ r = 73616.
Proof.
  destruct (malloc_spec (H := demo_sbrk) 4096 8192 [] ∅ demo_ust 100) as (r & s' & Hr & _);
    [unfold HSIZE; lia|exact demo_ready|lia|unfold HSIZE; lia|].
  exists r, s'. split; [exact Hr|]. revert Hr. vm_compute. congruence.
Defined.

Lemma free_spec_witness :
  ∃ s' s'', malloc (H := demo_sbrk) 4096 8192 100 demo_ust = Done 73616 s' ∧ free 4096 8192 73616 s' = Done tt s''.
Proof.
  assert (∃ s' fl n, malloc (H := demo_sbrk) 4096 8192 100 demo_ust = Done 73616 s' ∧ heap 4096 8192 fl {[73600 := n]} s') as (s' & fl & n & Hm & Hh).
  { assert (wp (malloc (H := demo_sbrk) 4096 8192 100) (λ r s', ∃ fl a n, r = a + HSIZE ∧ r = 73616 ∧ heap 4096 8192 fl {[a := n]} s') demo_ust) as Hwp.
    { eapply wp_mono; [apply (wp_and _ (λ r _, r = 73616) (λ r s', r = 0 ∨ ∃ fl a n, r = a + HSIZE ∧ heap 4096 8192 fl {[a := n]} s'))|].
      - vm_compute. reflexivity.
      - eapply malloc_wp; [unfold HSIZE; lia|exact demo_ready|lia|vm_compute; reflexivity|].
        intros s0 r s' _ _ _ [[-> _]|(_ & _ & fl & a & -> & _ & Hh & _)]; [by left|right]. eauto.
      - intros r s' [-> [?|(fl & a & n & Ha & Hh)]]; [done|]. exists fl, a, n. done. }
    apply wp_elim in Hwp as (r & s' & Hm & fl & a & n & Ha & -> & Hh). assert (a = 73600) as -> by (unfold HSIZE in Ha; lia).
    exists s', fl, n. exact (conj Hm Hh). }
  destruct (free_spec (H := demo_sbrk) 4096 8192 fl {[73600 := n]} s' 73600 n) as (fl' & s'' & Hf & _);
    [unfold HSIZE; lia|exact Hh|apply lookup_singleton_eq|]. exists s', s''. exact (conj Hm Hf).
Defined.
