(* ===== verification/Grep.v ===== *)
(** * grep ([user/grep.c])

    The matcher of Kernighan and Pike, against the language of a pattern, and
    the filter, which reads its input in pieces of any size.  A string is the
    array of its characters from the pointer on; [None] is an access beyond it. *)

From S2P Require Import Prelude Memory Bytes CString Ulib.

Definition chr_star : Z := 42.
Definition chr_dot : Z := 46.
Definition chr_caret : Z := 94.
Definition chr_dollar : Z := 36.
Definition chr_nl : Z := 10.

(** ** The matcher *)

(** [here] is [matchhere(re, _)]. *)
Fixpoint matchstar (here : list Z → option bool) (c : Z) (text : list Z) : option bool :=
  b ← here text;
  if (b : bool) then Some true
  else
    match text with
    | [] => None
    | t :: text' => if negb (t =? 0) && ((t =? c) || (c =? chr_dot)) then matchstar here c text' else Some false
    end.

Fixpoint matchhere (re text : list Z) : option bool :=
  match re with
  | [] => None
  | r0 :: re1 =>
      if r0 =? 0 then Some true
      else
        match re1 with
        | [] => None
        | r1 :: re2 =>
            if r1 =? chr_star then matchstar (matchhere re2) r0 text
            else
              match text with
              | [] => None
              | t :: text' =>
                  if (r0 =? chr_dollar) && (r1 =? 0) then Some (t =? 0)
                  else if negb (t =? 0) && ((r0 =? chr_dot) || (r0 =? t)) then matchhere re1 text'
                  else Some false
              end
        end
  end.

Fixpoint match_any (re text : list Z) : option bool :=
  b ← matchhere re text;
  if (b : bool) then Some true
  else
    match text with
    | [] => None
    | t :: text' => if negb (t =? 0) then match_any re text' else Some false
    end.
Definition match_re (re text : list Z) : option bool :=
  match re with
  | [] => None
  | r0 :: re1 => if r0 =? chr_caret then matchhere re1 text else match_any re text
  end.

(** ** The filter *)

Definition BUFSIZE : Z := 1024.
Record gst := Gst { g_buf : list Z; g_io : uio }.
Definition io {A} (m : M uio A) : M gst A := zoom g_io (λ u s, Gst (g_buf s) u) m.
Definition put_char (i c : Z) : M gst unit :=
  s ← get;
  if (i <? 0) || (Z.of_nat (length (g_buf s)) <=? i) then fault "buf" else put (Gst (<[Z.to_nat i := c]> (g_buf s)) (g_io s)).

Section grep.
Context `{Reads}.

(** [while((q = strchr(p, '\n')) != 0)]: [p] as an index of [buf]. *)
Definition grep_line (pattern : list Z) (p : Z) : M gst (Z + Z) :=
  s ← get;
  match strchr (drop (Z.to_nat p) (g_buf s)) chr_nl with
  | None => fault "strchr"
  | Some None => mret (inr p)
  | Some (Some d) =>
      let q := p + Z.of_nat d in
      put_char q 0 ;;
      s ← get;
      match match_re pattern (drop (Z.to_nat p) (g_buf s)) with
      | None => fault "match"
      | Some b =>
          (if (b : bool) then
             put_char q chr_nl ;;
             s ← get;
             io (write 1 (slice (Z.to_nat p) (Z.to_nat (q + 1 - p)) (g_buf s)))
           else mret tt) ;;
          mret (inl (q + 1))
      end
  end.

Definition grep_chunk (pattern : list Z) (fd m : Z) : M gst (Z + unit) :=
  bytes ← io (read fd (BUFSIZE - m - 1));
  let n := Z.of_nat (length bytes) in
  if 0 <? n then
    modify (λ s, Gst (splice (Z.to_nat m) bytes (g_buf s)) (g_io s)) ;;
    let m := m + n in
    put_char m 0 ;;
    p ← loopM (S (Z.to_nat BUFSIZE)) (grep_line pattern) 0;
    if 0 <? m then
      let m := m - p in
      modify (λ s, Gst (splice 0 (slice (Z.to_nat p) (Z.to_nat m) (g_buf s)) (g_buf s)) (g_io s)) ;;
      mret (inl m)
    else mret (inl m)
  else mret (inr tt).

Definition grep (pattern : list Z) (fd : Z) : M gst unit :=
  s ← get;
  loopM (S (length (stream fd (g_io s)))) (grep_chunk pattern fd) 0.
End grep.

(** ** The language of a pattern *)

Inductive item := One (c : Z) | Star (c : Z).

(** The items of a pattern without its [^], and whether it ends in [$]. *)
Fixpoint items (re : list Z) : list item * bool :=
  match re with
  | [] => ([], false)
  | c :: re1 =>
      match re1 with
      | r1 :: re2 => if r1 =? chr_star then (Star c :: (items re2).1, (items re2).2)
                     else (One c :: (items re1).1, (items re1).2)
      | [] => if c =? chr_dollar then ([], true) else ([One c], false)
      end
  end.

Definition stands_for (c d : Z) : Prop := c = chr_dot ∨ c = d.
Definition item_matches (it : item) (w : list Z) : Prop :=
  match it with
  | One c => ∃ d, w = [d] ∧ stands_for c d
  | Star c => Forall (stands_for c) w
  end.
(** [w] is the concatenation of words that match the items in turn. *)
Inductive matches : list item → list Z → Prop :=
| matches_nil : matches [] []
| matches_cons it its u v : item_matches it u → matches its v → matches (it :: its) (u ++ v).

(** The pattern matches a part of [text] that starts at the beginning after
    [^] and stops at the end before [$]. *)
Definition here (re text : list Z) : Prop :=
  ∃ w post, text = w ++ post ∧ matches (items re).1 w ∧ ((items re).2 = true → post = []).
Definition found (re text : list Z) : Prop :=
  match re with
  | c :: re' => if c =? chr_caret then here re' text else ∃ pre post, text = pre ++ post ∧ here re post
  | [] => True
  end.

(** ** The matcher is right *)

Lemma matches_one c its w : matches (One c :: its) w ↔ ∃ d w', w = d :: w' ∧ stands_for c d ∧ matches its w'.
Proof.
  split.
  - inversion 1 as [|it its' u v Hu Hv]; subst. destruct Hu as (d & -> & Hd). by exists d, v.
  - intros (d & w' & -> & Hd & Hw). apply (matches_cons (One c) its [d] w'); [by exists d|done].
Qed.
Lemma matches_star c its w : matches (Star c :: its) w ↔ ∃ u v, w = u ++ v ∧ Forall (stands_for c) u ∧ matches its v.
Proof.
  split.
  - inversion 1; subst. eauto.
  - intros (u & v & -> & Hu & Hv). by constructor.
Qed.

Definition nz (l : list Z) : Prop := Forall (λ c, c ≠ 0) l.

(** Zero or more characters that [c] stands for, then what [P] accepts. *)
Lemma matchstar_spec h (P : list Z → Prop) c text r :
  nz text → (∀ l, nz l → ∃ b : bool, h (l ++ 0 :: r) = Some b ∧ (b = true ↔ P l)) →
  ∃ b : bool, matchstar h c (text ++ 0 :: r) = Some b ∧ (b = true ↔ ∃ u v, text = u ++ v ∧ Forall (stands_for c) u ∧ P v).
Proof.
  intros Hnz Hh. induction Hnz as [|t text Ht Hnz IH].
  - destruct (Hh [] ltac:(constructor)) as (b & Hb & HP). cbn [app matchstar] in *. rewrite Hb. cbn [mbind option_bind].
    destruct b; eexists; (split; [done|]); split; try done.
    + intros _. exists [], []. split_and!; [done|constructor|by apply HP].
    + intros (u & v & E & _ & Hv). symmetry in E. apply app_eq_nil in E as [-> ->]. by apply HP.
  - destruct (Hh (t :: text) ltac:(by constructor)) as (b & Hb & HP). cbn [app matchstar] in *. rewrite Hb. cbn [mbind option_bind].
    destruct b.
    { eexists. split; [done|]. split; [intros _|done]. exists [], (t :: text). split_and!; [done|constructor|by apply HP]. }
    rewrite (proj2 (Z.eqb_neq t 0)) by done. cbn [negb andb]. destruct ((t =? c) || (c =? chr_dot)) eqn:E.
    + destruct IH as (b & Hr & HQ). exists b. split; [done|]. rewrite HQ. split.
      * intros (u & v & -> & Hu & Hv). exists (t :: u), v. split_and!; [done| |done]. constructor; [|done].
        apply orb_true_iff in E as [E|E]; apply Z.eqb_eq in E; [by right|by left].
      * intros ([|t' u] & v & Eq & Hu & Hv); [cbn in Eq; subst v; by apply HP in Hv|]. injection Eq as <- ->.
        inversion Hu; subst. eauto.
    + eexists. split; [done|]. split; [done|]. intros ([|t' u] & v & Eq & Hu & Hv); [cbn in Eq; subst v; by apply HP in Hv|].
      injection Eq as <- ->. inversion Hu as [|?? Hs]; subst. apply orb_false_elim in E as [E1 E2]. bsimpl. destruct Hs; congruence.
Qed.

(** [here] by cases of the pattern, as the code takes them. *)
Lemma here_nil text : here [] text.
Proof. exists [], text. split_and!; [done|constructor|done]. Qed.
Lemma here_dollar text : here [chr_dollar] text ↔ text = [].
Proof.
  unfold here. cbn. split.
  - intros (w & post & -> & Hw & Hp). inversion Hw; subst. by rewrite Hp.
  - intros ->. exists [], []. split_and!; [done|constructor|done].
Qed.
Lemma here_star c re text :
  here (c :: chr_star :: re) text ↔ ∃ u v, text = u ++ v ∧ Forall (stands_for c) u ∧ here re v.
Proof.
  unfold here. cbn [items]. rewrite Z.eqb_refl. cbn [fst snd]. split.
  - intros (w & post & -> & Hw & Hp). apply matches_star in Hw as (u & v & -> & Hu & Hv). exists u, (v ++ post).
    rewrite app_assoc. split_and!; [done|done|]. eauto.
  - intros (u & v & -> & Hu & w & post & -> & Hw & Hp). exists (u ++ w), post. rewrite app_assoc. split_and!; [done| |done].
    apply matches_star. eauto.
Qed.
Lemma here_one c re text :
  match re with [] => c ≠ chr_dollar | r1 :: _ => r1 ≠ chr_star end →
  here (c :: re) text ↔ ∃ d text', text = d :: text' ∧ stands_for c d ∧ here re text'.
Proof.
  intros Hc. assert (items (c :: re) = (One c :: (items re).1, (items re).2)) as E.
  { cbn. destruct re as [|r1 re]; [by rewrite (proj2 (Z.eqb_neq c chr_dollar))|by rewrite (proj2 (Z.eqb_neq r1 chr_star))]. }
  unfold here. rewrite E. cbn [fst snd]. split.
  - intros (w & post & -> & Hw & Hp). apply matches_one in Hw as (d & w' & -> & Hd & Hw). exists d, (w' ++ post). split_and!; [done|done|]. eauto.
  - intros (d & text' & -> & Hd & w & post & -> & Hw & Hp). exists (d :: w), post. split_and!; [done| |done]. apply matches_one. eauto.
Qed.

Lemma stands_for_spec c t : ((c =? chr_dot) || (c =? t)) = true ↔ stands_for c t.
Proof. unfold stands_for. by rewrite orb_true_iff, !Z.eqb_eq. Qed.

(** A single character against the rest of the text. *)
Lemma match_one_spec c re text rt (next : list Z → option bool) :
  nz text → match re with [] => c ≠ chr_dollar | r1 :: _ => r1 ≠ chr_star end →
  (∀ l, nz l → ∃ b : bool, next (l ++ 0 :: rt) = Some b ∧ (b = true ↔ here re l)) →
  ∃ b : bool, match text ++ 0 :: rt with
    | [] => None
    | t :: text' => if negb (t =? 0) && ((c =? chr_dot) || (c =? t)) then next text' else Some false
    end = Some b ∧ (b = true ↔ here (c :: re) text).
Proof.
  intros Ht Hc Hn. setoid_rewrite (here_one c re text Hc). destruct Ht as [|t text Ht0 Ht]; cbn [app].
  - exists false. split; [done|]. split; [done|]. by intros (? & ? & ? & _).
  - rewrite (proj2 (Z.eqb_neq t 0)) by done. cbn [negb andb]. pose proof (stands_for_spec c t) as Hs.
    destruct ((c =? chr_dot) || (c =? t)).
    + destruct (Hn text Ht) as (b & Hb & HP). exists b. split; [done|]. rewrite HP. split.
      * intros Hh. exists t, text. split_and!; [done|by apply Hs|done].
      * intros (d & text' & Eq & _ & Hh). by injection Eq as <- <-.
    + exists false. split; [done|]. split; [done|]. intros (d & text' & Eq & Hd & _). injection Eq as <- _. by apply Hs.
Qed.

Lemma matchhere_spec re rr text rt :
  nz re → nz text → ∃ b : bool, matchhere (re ++ 0 :: rr) (text ++ 0 :: rt) = Some b ∧ (b = true ↔ here re text).
Proof.
  intros Hre. revert text. remember (length re) as n eqn:Hn. revert re Hre Hn.
  induction n as [n IH] using lt_wf_ind. intros re Hre Hn text Ht. destruct Hre as [|r0 re1 Hr0 Hre1].
  { exists true. split; [done|]. split; [|done]. intros _. apply here_nil. }
  cbn [app matchhere]. rewrite (proj2 (Z.eqb_neq r0 0)) by done. destruct Hre1 as [|r1 re2 Hr1 Hre2].
  - cbn [app]. change (0 =? chr_star) with false. change (0 =? 0) with true. rewrite andb_true_r. cbv iota.
    destruct (Z.eqb_spec r0 chr_dollar) as [->|Hd].
    + destruct Ht as [|t text Ht0 Ht]; cbn [app]; eexists; (split; [done|]); rewrite here_dollar; [done|].
      by rewrite (proj2 (Z.eqb_neq t 0)).
    + apply (match_one_spec r0 [] text rt (λ l, matchhere (0 :: rr) l)); [done|done|]. intros l Hl. exists true. split; [done|]. split; [|done].
      intros _. apply here_nil.
  - cbn [app]. destruct (Z.eqb_spec r1 chr_star) as [->|Hs].
    + setoid_rewrite here_star. apply matchstar_spec; [done|]. intros l Hl. apply (IH (length re2)); [cbn in Hn; lia|done..].
    + rewrite (proj2 (Z.eqb_neq r1 0)), andb_false_r by done.
      apply (match_one_spec r0 (r1 :: re2) text rt (λ l, matchhere (r1 :: re2 ++ 0 :: rr) l)); [done|done|].
      intros l Hl. apply (IH (length (r1 :: re2)) ltac:(cbn in *; lia) (r1 :: re2)); [by constructor|done|done].
Qed.

Lemma match_any_spec re rr text rt :
  nz re → nz text →
  ∃ b : bool, match_any (re ++ 0 :: rr) (text ++ 0 :: rt) = Some b ∧ (b = true ↔ ∃ pre post, text = pre ++ post ∧ here re post).
Proof.
  intros Hre Ht. induction Ht as [|t text Ht0 Ht IH].
  - destruct (matchhere_spec re rr [] rt Hre ltac:(constructor)) as (b & Hb & HP). cbn [app match_any] in *. rewrite Hb. cbn [mbind option_bind].
    destruct b; eexists; (split; [done|]); split; try done.
    + intros _. exists [], []. split; [done|by apply HP].
    + intros (u & v & E & Hv). symmetry in E. apply app_eq_nil in E as [-> ->]. by apply HP.
  - destruct (matchhere_spec re rr (t :: text) rt Hre ltac:(by constructor)) as (b & Hb & HP). cbn [app match_any] in *. rewrite Hb. cbn [mbind option_bind].
    destruct b.
    { eexists. split; [done|]. split; [intros _|done]. exists [], (t :: text). split; [done|by apply HP]. }
    rewrite (proj2 (Z.eqb_neq t 0)) by done. cbn [negb]. destruct IH as (b & Hr & HQ). exists b. split; [done|]. rewrite HQ. split.
    + intros (u & v & -> & Hv). by exists (t :: u), v.
    + intros ([|t' u] & v & Eq & Hv); [cbn in Eq; subst v; by apply HP in Hv|]. injection Eq as <- ->. eauto.
Qed.

Lemma match_re_spec re rr text rt :
  nz re → nz text → ∃ b : bool, match_re (re ++ 0 :: rr) (text ++ 0 :: rt) = Some b ∧ (b = true ↔ found re text).
Proof.
  intros Hre Ht. destruct Hre as [|c re Hc Hre]; cbn [app].
  - unfold match_re. change (0 =? chr_caret) with false. cbv iota. destruct (match_any_spec [] rr text rt) as (b & Hb & HP); [constructor|done|].
    exists b. split; [done|]. rewrite HP. split; [done|]. intros _. exists [], text. split; [done|apply here_nil].
  - unfold match_re, found. destruct (c =? chr_caret); [by apply matchhere_spec|]. apply (match_any_spec (c :: re)); [by constructor|done].
Qed.

(** ** The filter is right *)

Lemma here_cases c re text : here (c :: re) text ↔
  match re with
  | [] => if c =? chr_dollar then text = [] else ∃ d text', text = d :: text' ∧ stands_for c d ∧ here [] text'
  | r1 :: re2 =>
      if r1 =? chr_star then ∃ u v, text = u ++ v ∧ Forall (stands_for c) u ∧ here re2 v
      else ∃ d text', text = d :: text' ∧ stands_for c d ∧ here re text'
  end.
Proof.
  destruct re as [|r1 re2].
  - destruct (Z.eqb_spec c chr_dollar) as [->|]; [apply here_dollar|by apply here_one].
  - destruct (Z.eqb_spec r1 chr_star) as [->|]; [apply here_star|by apply here_one].
Qed.

#[global] Instance stands_for_dec c d : Decision (stands_for c d).
Proof. unfold stands_for. apply _. Defined.
Definition dec_of_iff {P : Prop} (Q : Prop) (H : Q ↔ P) (d : Decision Q) : Decision P :=
  match d with left p => left (proj1 H p) | right n => right (λ q, n (proj2 H q)) end.
Lemma split_dec (P Q : list Z → Prop) text : (∀ l, Decision (P l)) → (∀ l, Decision (Q l)) → Decision (∃ u v, text = u ++ v ∧ P u ∧ Q v).
Proof.
  intros HP HQ. refine (cast_if (decide (Exists (λ k, P (take k text) ∧ Q (drop k text)) (seq 0 (S (length text))))));
    rewrite Exists_exists in *.
  - destruct e as (k & _ & H1 & H2). exists (take k text), (drop k text). by rewrite take_drop.
  - intros (u & v & -> & Hu & Hv). destruct n. exists (length u). split; [apply elem_of_seq; rewrite length_app; lia|].
    by rewrite take_app_length, drop_app_length.
Defined.
Lemma cons_dec (P : Z → Prop) (Q : list Z → Prop) text :
  (∀ d, Decision (P d)) → (∀ l, Decision (Q l)) → Decision (∃ d text', text = d :: text' ∧ P d ∧ Q text').
Proof.
  intros HP HQ. destruct text as [|d l]; [right; by intros (? & ? & ? & _)|].
  refine (cast_if (decide (P d ∧ Q l))); [naive_solver|]. intros (d' & l' & E & H). injection E as <- <-. done.
Defined.
Definition here_fuel (n : nat) : ∀ re text, (length re ≤ n)%nat → Decision (here re text).
Proof.
  induction n as [|n IH]; intros [|c re] text Hn; try (left; apply here_nil); [cbn in Hn; lia|].
  eapply dec_of_iff; [symmetry; apply here_cases|]. destruct re as [|r1 re2].
  - destruct (c =? chr_dollar); [apply _|]. apply cons_dec; [apply _|]. intros l. left. apply here_nil.
  - destruct (r1 =? chr_star); [apply split_dec|apply cons_dec]; try apply _; intros l; apply IH; cbn in *; lia.
Defined.
#[global] Instance here_dec re text : Decision (here re text) := here_fuel (length re) re text (le_n _).
#[global] Instance found_dec re text : Decision (found re text).
Proof.
  unfold found. destruct re as [|c re]; [apply _|]. destruct (c =? chr_caret); [apply _|].
  apply (dec_of_iff (∃ u v, text = u ++ v ∧ True ∧ here (c :: re) v)); [naive_solver|]. apply split_dec; apply _.
Defined.

(** The lines of a text that end in a newline, and what follows them. *)
Fixpoint split_lines (l : list Z) : list (list Z) * list Z :=
  match l with
  | [] => ([], [])
  | c :: l =>
      let r := split_lines l in
      if c =? chr_nl then ([] :: r.1, r.2)
      else match r.1 with [] => ([], c :: r.2) | a :: ls => ((c :: a) :: ls, r.2) end
  end.
(** The lines before the first one that does not fit in the buffer. *)
Fixpoint fitting (ls : list (list Z)) : list (list Z) :=
  match ls with
  | [] => []
  | a :: ls => if Z.of_nat (length a) <? BUFSIZE - 1 then a :: fitting ls else []
  end.
(** Those of them that match, each with its newline. *)
Definition report (pattern l : list Z) : list Z :=
  concat ((λ a, a ++ [chr_nl]) <$> filter (found pattern) (fitting (split_lines l).1)).

Lemma split_lines_none l : chr_nl ∉ l → split_lines l = ([], l).
Proof.
  induction l as [|c l IH]; [done|]. intros Hn. cbn. rewrite (proj2 (Z.eqb_neq c chr_nl)) by set_solver. rewrite IH by set_solver. done.
Qed.
Lemma split_lines_app a l : chr_nl ∉ a → split_lines (a ++ chr_nl :: l) = (a :: (split_lines l).1, (split_lines l).2).
Proof.
  induction a as [|c a IH]; [done|]. intros Hn. cbn [app split_lines]. rewrite (proj2 (Z.eqb_neq c chr_nl)) by set_solver.
  rewrite IH by set_solver. done.
Qed.
Lemma report_app pattern a l : chr_nl ∉ a → Z.of_nat (length a) < BUFSIZE - 1 →
  report pattern (a ++ chr_nl :: l) = (if decide (found pattern a) then a ++ [chr_nl] else []) ++ report pattern l.
Proof.
  intros Ha Hl. unfold report. rewrite split_lines_app by done. cbn [fst fitting]. rewrite (proj2 (Z.ltb_lt _ _)) by done.
  rewrite filter_cons. by case_decide.
Qed.
Lemma report_none pattern l : chr_nl ∉ l → report pattern l = [].
Proof. intros Hl. unfold report. by rewrite split_lines_none. Qed.
Lemma split_lines_rest l : chr_nl ∉ (split_lines l).2.
Proof.
  induction l as [|c l IH]; cbn; [set_solver|]. destruct (Z.eqb_spec c chr_nl); [done|]. destruct (split_lines l).1; cbn; set_solver.
Qed.
Lemma split_lines_sub l c : c ∈ (split_lines l).2 → c ∈ l.
Proof.
  induction l as [|x l IH]; cbn; [done|]. destruct (x =? chr_nl); [set_solver|]. destruct (split_lines l).1; cbn; set_solver.
Qed.
Lemma split_lines_more l l' : split_lines (l ++ l') =
  ((split_lines l).1 ++ (split_lines ((split_lines l).2 ++ l')).1, (split_lines ((split_lines l).2 ++ l')).2).
Proof.
  induction l as [|c l IH]; [apply surjective_pairing|]. cbn [app split_lines]. rewrite IH. cbn [fst snd].
  destruct (Z.eqb_spec c chr_nl) as [->|Hc]; [done|]. destruct (split_lines l).1 as [|a ls] eqn:E; [|done]. cbn [app fst snd split_lines].
  rewrite (proj2 (Z.eqb_neq c chr_nl)) by done. apply surjective_pairing.
Qed.
Lemma split_lines_length l : Forall (λ a, (length a < length l)%nat) (split_lines l).1.
Proof.
  induction l as [|c l IH]; cbn; [constructor|]. destruct (c =? chr_nl); cbn.
  - constructor; [cbn; lia|]. eapply Forall_impl; [exact IH|]. cbn. lia.
  - destruct (split_lines l).1 as [|a ls]; cbn; [constructor|]. apply Forall_cons in IH as [IH1 IH2]. constructor; [cbn; lia|].
    eapply Forall_impl; [exact IH2|]. cbn. lia.
Qed.
Lemma fitting_app ls ls' : Forall (λ a, Z.of_nat (length a) < BUFSIZE - 1) ls → fitting (ls ++ ls') = ls ++ fitting ls'.
Proof. induction 1 as [|a ls Ha Hls IH]; cbn [app fitting]; [done|]. rewrite (proj2 (Z.ltb_lt _ _)) by done. by rewrite IH. Qed.
Lemma report_more pattern l l' : Z.of_nat (length l) < BUFSIZE → report pattern (l ++ l') = report pattern l ++ report pattern ((split_lines l).2 ++ l').
Proof.
  intros Hl. unfold report. rewrite (split_lines_more l l'). cbn [fst].
  assert (Forall (λ a, Z.of_nat (length a) < BUFSIZE - 1) (split_lines l).1) as Hf.
  { eapply Forall_impl; [apply split_lines_length|]. cbn. lia. }
  rewrite fitting_app by done. rewrite <-(app_nil_r (split_lines l).1) at 2. rewrite fitting_app by done.
  by rewrite app_nil_r, filter_app, fmap_app, concat_app.
Qed.
Lemma first_line l : chr_nl ∈ l → ∃ a l', l = a ++ chr_nl :: l' ∧ chr_nl ∉ a.
Proof. intros Hl. by apply list_elem_of_split_l in Hl. Qed.

(** [u'] is [u] after [t] was written to descriptor 1. *)
Definition emits (t : list Z) (u u' : uio) : Prop :=
  streams u' = streams u ∧ nreads u' = nreads u ∧ ∀ fd, output fd u' = output fd u ++ (if decide (fd = 1) then t else []).
Lemma emits_nil u : emits [] u u.
Proof. split_and!; [done|done|]. intros fd. case_decide; by rewrite app_nil_r. Qed.
Lemma emits_app t t' u u' u'' : emits t u u' → emits t' u' u'' → emits (t ++ t') u u''.
Proof.
  intros (H1 & H2 & H3) (G1 & G2 & G3). split_and!; [congruence|congruence|]. intros fd. rewrite G3, H3. case_decide; by rewrite <-app_assoc.
Qed.
Lemma emits_write t u : emits t u (Uio (streams u) (nreads u) (written u ++ [(1, t)])).
Proof.
  split_and!; [done|done|]. intros fd. unfold output. cbn. rewrite filter_app, fmap_app, concat_app. f_equal.
  rewrite filter_cons. cbn. repeat case_decide; cbn; rewrite ?app_nil_r; congruence.
Qed.

Lemma put_char_wp i c s (Q : unit → gst → Prop) :
  0 ≤ i < Z.of_nat (length (g_buf s)) → Q tt (Gst (<[Z.to_nat i := c]> (g_buf s)) (g_io s)) → wp (put_char i c) Q s.
Proof. intros Hi HQ. unfold put_char. wp_steps. case_if E; [apply orb_true_iff in E as [?|?]; bsimpl; lia|]. by wp_step. Qed.

Section filter.
Context `{Reads} (pattern junk0 : list Z) (Hpat : nz pattern).
Notation pat := (pattern ++ 0 :: junk0).

(** The part of the buffer from [p] on holds [r]. *)
Definition holds_text (p : Z) (r : list Z) (buf : list Z) : Prop :=
  ∃ pre junk, buf = pre ++ r ++ 0 :: junk ∧ 0 ≤ p ∧ length pre = Z.to_nat p.

Lemma insert_at {A} (pre : list A) x y l n : n = length pre → <[n := y]> (pre ++ x :: l) = pre ++ y :: l.
Proof. intros ->. by rewrite insert_app_r_alt, Nat.sub_diag by lia. Qed.

(** One line. *)
Lemma grep_line_wp p a l s (Q : Z + Z → gst → Prop) :
  nz a → chr_nl ∉ a → holds_text p (a ++ chr_nl :: l) (g_buf s) →
  (∀ s', holds_text (p + Z.of_nat (length a) + 1) l (g_buf s') → length (g_buf s') = length (g_buf s) →
     emits (if decide (found pattern a) then a ++ [chr_nl] else []) (g_io s) (g_io s') → Q (inl (p + Z.of_nat (length a) + 1)) s') →
  wp (grep_line pat p) Q s.
Proof using Hpat.
  intros Ha Hn (pre & junk & Hb & Hp & Hl) HQ. unfold grep_line. wp_steps. destruct s as [buf u]. cbn [g_buf g_io] in *.
  assert (drop (Z.to_nat p) buf = (a ++ chr_nl :: l) ++ 0 :: junk) as Hd by (rewrite Hb, <-Hl; apply drop_app_length).
  rewrite Hd, <-app_assoc. cbn [app]. rewrite strchr_some; [|by intros H0; unfold nz in Ha; rewrite Forall_forall in Ha; apply (Ha 0)|done|done].
  assert (∀ x, <[Z.to_nat (p + Z.of_nat (length a)) := x]> buf = (pre ++ a) ++ x :: l ++ 0 :: junk) as Hins.
  { intros x. rewrite Hb, <-app_assoc. cbn [app]. rewrite app_assoc. apply insert_at. rewrite length_app. lia. }
  assert (Z.of_nat (length buf) = p + Z.of_nat (length a) + 1 + Z.of_nat (length l) + 1 + Z.of_nat (length junk)) as Hlen.
  { rewrite Hb, !length_app. cbn [length]. lia. }
  wp_step. apply put_char_wp; [cbn; lia|]. wp_steps. cbn [g_buf g_io]. rewrite Hins.
  rewrite <-app_assoc, <-Hl, drop_app_length. destruct (match_re_spec pattern junk0 a (l ++ 0 :: junk) Hpat Ha) as (b & -> & Hb').
  assert (holds_text (p + Z.of_nat (length a) + 1) l ((pre ++ a) ++ (if b then chr_nl else 0) :: l ++ 0 :: junk)) as Hh.
  { exists (pre ++ a ++ [if b then chr_nl else 0]), junk. split_and!; [by rewrite <-!app_assoc|lia|]. rewrite !length_app. cbn. lia. }
  destruct b.
  - rewrite decide_True in HQ by (by apply Hb'). wp_steps. apply put_char_wp; cbn [g_buf g_io].
    { rewrite !length_app. cbn [length]. rewrite length_app. lia. }
    wp_steps. apply wp_zoom. cbn [g_buf g_io]. rewrite app_assoc, insert_at by (rewrite length_app; lia).
    replace (slice (length pre) (Z.to_nat (p + Z.of_nat (length a) + 1 - p)) ((pre ++ a) ++ chr_nl :: l ++ 0 :: junk)) with (a ++ [chr_nl]).
    2:{ unfold slice. rewrite <-app_assoc, drop_app_length. replace (Z.to_nat _) with (length (a ++ [chr_nl])) by (rewrite length_app; cbn; lia).
      change (chr_nl :: l ++ 0 :: junk) with ([chr_nl] ++ l ++ 0 :: junk). by rewrite app_assoc, take_app_length. }
    unfold write, wp. wp_steps. apply HQ; [done| |apply emits_write]. cbn [g_buf]. rewrite <-(Hins chr_nl). by rewrite length_insert.
  - rewrite decide_False in HQ by (intros Hf; by apply Hb' in Hf). wp_steps. rewrite app_assoc. apply HQ; [done| |apply emits_nil].
    cbn [g_buf]. rewrite <-(Hins 0). by rewrite length_insert.
Qed.

(** All the lines in the buffer. *)
Lemma grep_lines_wp p r s (Q : Z → gst → Prop) :
  nz r → holds_text p r (g_buf s) → Z.of_nat (length r) < BUFSIZE →
  (∀ p' s', holds_text p' (split_lines r).2 (g_buf s') → p' + Z.of_nat (length (split_lines r).2) = p + Z.of_nat (length r) →
     length (g_buf s') = length (g_buf s) → emits (report pattern r) (g_io s) (g_io s') → Q p' s') →
  wp (loopM (S (Z.to_nat BUFSIZE)) (grep_line pat) p) Q s.
Proof using Hpat.
  intros Hr Hh Hlen HQ. set (top := p + Z.of_nat (length r)).
  eapply (wp_loop _ (λ p1 s1, ∃ r1 t, nz r1 ∧ holds_text p1 r1 (g_buf s1) ∧ p1 + Z.of_nat (length r1) = top ∧ Z.of_nat (length r1) < BUFSIZE ∧ length (g_buf s1) = length (g_buf s) ∧
    emits t (g_io s) (g_io s1) ∧ t ++ report pattern r1 = report pattern r ∧ (split_lines r1).2 = (split_lines r).2) (λ p1, Z.to_nat (top - p1))).
  { unfold top. lia. }
  { exists r, []. split_and!; [done|done|done|done|done|apply emits_nil|done|done]. }
  intros p1 s1 (r1 & t & H1 & H2 & H3 & H8 & H4 & H5 & H6 & H7). destruct (decide (chr_nl ∈ r1)) as [Hin|Hin].
  - destruct (first_line r1 Hin) as (a & l & -> & Ha). apply Forall_app in H1 as [Hza Hzl]. apply Forall_cons in Hzl as [_ Hzl].
    eapply grep_line_wp; [exact Hza|exact Ha|exact H2|]. intros s2 G2 G4 G5. rewrite length_app in H3, H8. cbn [length] in H3, H8.
    rewrite report_app in H6 by (done || lia). rewrite split_lines_app in H7 by done. split; [|lia]. exists l, (t ++ if decide (found pattern a) then a ++ [chr_nl] else []).
    split_and!; [done|done|lia|lia|congruence|by eapply emits_app|by rewrite <-app_assoc|done].
  - unfold grep_line. wp_steps. pose proof H2 as (pre & junk & Hb & Hp & Hl).
    assert (drop (Z.to_nat p1) (g_buf s1) = r1 ++ 0 :: junk) as -> by (rewrite Hb, <-Hl; apply drop_app_length).
    rewrite strchr_none; [|by intros H0; unfold nz in H1; rewrite Forall_forall in H1; apply (H1 0)|done]. wp_steps.
    rewrite split_lines_none in H7 by done. cbn in H7. rewrite report_none, app_nil_r in H6 by done. subst t.
    apply HQ; rewrite <-?H7; [done|lia|done|done].
Qed.

(** The buffer starts with the unfinished line [r]. *)
Definition told (t : list Z) (u u' : uio) : Prop := ∀ fd, output fd u' = output fd u ++ (if decide (fd = 1) then t else []).
Definition pending (u0 : uio) (fd : Z) (input : list Z) (m : Z) (s : gst) : Prop :=
  ∃ r rest junk t, g_buf s = r ++ junk ∧ m = Z.of_nat (length r) ∧ length (g_buf s) = Z.to_nat BUFSIZE ∧ m < BUFSIZE ∧
    chr_nl ∉ r ∧ nz (r ++ rest) ∧ streams (g_io s) !! fd = Some rest ∧ told t u0 (g_io s) ∧
    t ++ report pattern (r ++ rest) = report pattern input.

Lemma told_emits t t' u u1 u2 : told t u u1 → emits t' u1 u2 → told (t ++ t') u u2.
Proof. intros H1 (_ & _ & H2) fd. rewrite H2, H1. case_decide; by rewrite <-app_assoc. Qed.

(** A line that does not fit has no newline in the buffer and none after it. *)
Lemma no_more r rest :
  chr_nl ∉ r →
  rest = [] ∨ Z.of_nat (length r) = BUFSIZE - 1 → report pattern (r ++ rest) = [].
Proof using Type.
  clear Hpat. intros Hr Hc. destruct (decide (chr_nl ∈ rest)) as [Hin|Hin]; [|apply report_none; set_solver].
  destruct Hc as [->|Hl]; [set_solver|]. destruct (first_line rest Hin) as (a & l & -> & Ha).
  unfold report. rewrite app_assoc, split_lines_app by set_solver. cbn [fst fitting]. by rewrite (proj2 (Z.ltb_ge _ _)) by (rewrite length_app; lia).
Qed.

Lemma read_wp fd n u rest (Q : list Z → uio → Prop) :
  streams u !! fd = Some rest →
  (∀ k u', (k ≤ Z.to_nat n)%nat → (k = 0%nat → n ≤ 0 ∨ rest = []) → streams u' !! fd = Some (drop k rest) → (∀ fd, output fd u' = output fd u) →
     (k ≤ length rest)%nat → Q (take k rest) u') → wp (read fd n) Q u.
Proof using Type.
  intros Hu HQ. unfold read, wp. rewrite Hu. unfold arrives, stream. rewrite Hu. change (default [] (Some rest)) with rest.
  set (c := Nat.min (Z.to_nat n) (length rest)). assert (c = 0%nat → n ≤ 0 ∨ rest = []) as Hz.
  { intros Hc. destruct rest; [by right|]. left. unfold c in Hc. cbn in Hc. lia. }
  case_decide as E.
  - apply HQ; [lia|by intros _; apply Hz|apply lookup_insert_eq|done|lia].
  - assert (1 ≤ short (nreads u) c ≤ c)%nat as Hs by (apply short_ok; lia). unfold c in Hs at 3. apply HQ; [lia|lia|apply lookup_insert_eq|done|lia].
Qed.

(** One round of the outer loop. *)
Lemma grep_chunk_wp u0 fd input m s :
  pending u0 fd input m s → wp (grep_chunk pat fd m) (λ r s', match r with
    | inl m' => pending u0 fd input m' s' ∧ (length (stream fd (g_io s')) < length (stream fd (g_io s)))%nat
    | inr _ => told (report pattern input) u0 (g_io s')
    end) s.
Proof using Hpat.
  intros (r & rest & junk & t & Hb & -> & Hlen & Hm & Hnl & Hnz & Hst & Ht & Hrep). unfold grep_chunk. wp_step. apply wp_zoom.
  eapply read_wp; [exact Hst|]. intros k u' Hk Hk0 Hst' Hout Hkr. rewrite length_take, Nat.min_l by done.
  assert (told t u0 u') as Ht' by (intros fd'; by rewrite Hout). cbn [g_buf].
  destruct (Z.ltb_spec 0 (Z.of_nat k)) as [Hpos|Hz].
  2:{ wp_step. cbn [g_io]. rewrite <-Hrep, no_more, app_nil_r; [done|done|]. destruct Hk0; [lia|right; lia|by left]. }
  set (x := r ++ take k rest). assert (length x = length r + k)%nat as Hx by (unfold x; rewrite length_app, length_take; lia).
  assert (r ++ rest = x ++ drop k rest) as Hsplit by (unfold x; by rewrite <-app_assoc, take_drop).
  rewrite Hsplit in *. apply Forall_app in Hnz as [Hnx Hnd]. wp_steps. cbn [g_buf g_io].
  rewrite Hb in Hlen. assert (length junk = Z.to_nat BUFSIZE - length r)%nat as Hlj by (rewrite length_app in Hlen; lia).
  assert (splice (Z.to_nat (Z.of_nat (length r))) (take k rest) (g_buf s) = x ++ drop k junk) as ->.
  { rewrite Hb. unfold splice. rewrite Nat2Z.id, take_app_length, length_take, Nat.min_l, drop_app_add by done. unfold x. by rewrite <-app_assoc. }
  destruct (drop k junk) as [|j0 junk'] eqn:Hj.
  { apply (f_equal length) in Hj. rewrite length_drop in Hj. cbn in Hj. lia. }
  assert (length (x ++ j0 :: junk') = Z.to_nat BUFSIZE) as Hl2.
  { rewrite <-Hj, length_app, length_drop, Hx. lia. }
  apply put_char_wp; [cbn; rewrite Hl2; lia|]. cbn [g_buf g_io]. rewrite insert_at by lia.
  wp_step. eapply (grep_lines_wp 0 x); [done|exists [], junk'; by split_and!|unfold BUFSIZE in *; lia|].
  cbn [g_buf g_io]. intros p' s' (pre & junk2 & Hb' & Hp' & Hpre) Hlp Hl' He. set (y := (split_lines x).2) in *.
  rewrite (proj2 (Z.ltb_lt 0 _)) by lia. wp_steps. cbn [g_io]. rewrite length_app in Hl', Hl2. cbn [length] in Hl', Hl2.
  destruct He as (He1 & He2 & He3). split.
  2:{ unfold stream. rewrite He1, Hst, Hst'. cbn. rewrite length_drop. lia. }
  assert (slice (Z.to_nat p') (Z.to_nat (Z.of_nat (length r) + Z.of_nat k - p')) (g_buf s') = y) as Hy.
  { unfold slice. rewrite Hb', <-Hpre, drop_app_length. replace (Z.to_nat _) with (length y) by lia. apply take_app_length. }
  exists y, (drop k rest), (drop (length y) (g_buf s')), (t ++ report pattern x). cbn [g_buf g_io]. rewrite Hy. split_and!.
  - done.
  - lia.
  - rewrite length_splice; lia.
  - lia.
  - apply split_lines_rest.
  - apply Forall_app. split; [|done]. unfold nz in Hnx. rewrite Forall_forall in Hnx |- *. intros c Hc. by apply Hnx, split_lines_sub.
  - by rewrite He1.
  - by eapply told_emits.
  - rewrite <-app_assoc, <-report_more by lia. done.
Qed.
End filter.

(** ** Theorems *)

(** C32: [match] decides, without reading beyond the end of either string, whether
    the pattern describes a part of the text. *)
Theorem match_correct re rr text rt :
  nz re → nz text → ∃ b : bool, match_re (re ++ 0 :: rr) (text ++ 0 :: rt) = Some b ∧ (b = true ↔ found re text).
Proof. apply match_re_spec. Qed.

(** C31: However the input arrives, [grep] ends, stays inside its buffer, and writes
    the matching lines up to the first one that does not fit in the buffer. *)
Theorem grep_spec `{Reads} pattern junk fd input s :
  nz pattern → nz input → length (g_buf s) = Z.to_nat BUFSIZE → streams (g_io s) !! fd = Some input →
  ∃ s', grep (pattern ++ 0 :: junk) fd s = Done tt s' ∧
    output 1 (g_io s') = output 1 (g_io s) ++ report pattern input ∧
    ∀ fd', fd' ≠ 1 → output fd' (g_io s') = output fd' (g_io s).
Proof.
  intros Hp Hi Hb Hs.
  assert (wp (grep (pattern ++ 0 :: junk) fd) (λ _ s', told (report pattern input) (g_io s) (g_io s')) s) as Hwp.
  { unfold grep. wp_steps. eapply (wp_loop_st _ (pending pattern (g_io s) fd input) (λ s', length (stream fd (g_io s')))); [lia| |].
    - exists [], input, (g_buf s), []. split_and!; try done; [set_solver|]. intros fd'. case_decide; by rewrite app_nil_r.
    - intros m s1 Hm. by apply grep_chunk_wp. }
  apply wp_elim in Hwp as ([] & s' & Hrun & Ht). exists s'. split_and!; [done| |].
  - by rewrite Ht, decide_True.
  - intros fd' Hfd. by rewrite Ht, decide_False, app_nil_r.
Qed.

(** ** The pattern [b.*d$] on three lines that arrive byte by byte *)

Definition demo_reads : Reads.
Proof. refine {| short := λ _ _, 1%nat |}. intros _ n Hn. lia. Defined.
Definition demo_pattern : list Z := [98; 46; 42; 100; 36].
Definition demo_input : list Z := [97; 98; 99; 100; 10; 98; 120; 10; 98; 100; 10].
Definition demo_gst : gst := Gst (replicate 1024 0) (Uio {[0 := demo_input]} 0 []).

Lemma match_correct_witness : ∃ b : bool, match_re (demo_pattern ++ [0]) ([97; 98; 99; 100] ++ [0]) = Some b ∧ b = true.
Proof.
  destruct (match_correct demo_pattern [] [97; 98; 99; 100] []) as (b & Hb & _); [by repeat constructor..|].
  exists b. split; [exact Hb|]. revert Hb. vm_compute. congruence.
Defined.

Lemma grep_spec_witness :
  ∃ s', grep (H := demo_reads) (demo_pattern ++ [0]) 0 demo_gst = Done tt s' ∧ output 1 (g_io s') = [97; 98; 99; 100; 10; 98; 100; 10].
Proof.
  destruct (grep_spec (H := demo_reads) demo_pattern [] 0 demo_input demo_gst) as (s' & Hr & Ho & _);
    [by repeat constructor..|vm_compute; reflexivity|vm_compute; reflexivity|].
  exists s'. split; [exact Hr|]. rewrite Ho. vm_compute. reflexivity.
Defined.
