(* ===== verification/Uprintf.v ===== *)
(** * Formatted output of the user programs ([user/printf.c])

    Every character is a [write] of its own.  [vprintf] is compared with [text],
    which gives the characters that a format and its arguments stand for. *)

From S2P Require Import Prelude Riscv Memory CString State Printf PrintfSpec Bytes Ulib.

Definition digits : list Z := bytes_of "0123456789ABCDEF".
Definition digit (d : Z) : Z := default 0 (digits !! Z.to_nat d).

Definition putc (fd c : Z) : M uio unit := write fd [u8 c].

(** The digits that [do ... while] stores in [buf], least significant first. *)
Fixpoint digits_of (fuel : nat) (x base : Z) : list Z :=
  match fuel with
  | O => []
  | S f => digit (x mod base) :: (if x / base =? 0 then [] else digits_of f (x / base) base)
  end.
Definition int_digits (xx base : Z) (sgn : bool) : list Z :=
  let neg := sgn && (xx <? 0) in
  let x := u32 (if neg then - xx else xx) in
  digits_of 32 x base ++ (if neg then [chr "-"] else []).
Definition printint (fd xx base : Z) (sgn : bool) : M uio unit :=
  let buf := int_digits xx base sgn in
  if 16 <? Z.of_nat (length buf) then fault "printint: buf" else forM (reverse buf) (putc fd).

Definition printptr (fd x : Z) : M uio unit :=
  putc fd (chr "0") ;; putc fd (chr "x") ;;
  forM (seqZ 0 16) (λ i, putc fd (digit (Z.shiftr (u64 (Z.shiftl x (4 * i))) 60))).

(** [fmt] without its terminating NUL; [state] tells whether a [%] came before.
    The [uint64] of [%l] is passed on as an [int]. *)
Fixpoint vprintf (fd : Z) (fmt : list Z) (state : bool) (ap : list parg) : M uio unit :=
  match fmt with
  | [] => mret tt
  | c :: fmt =>
      if negb state then
        if c =? chr "%" then vprintf fd fmt true ap else putc fd c ;; vprintf fd fmt false ap
      else if c =? chr "d" then
        match ap with
        | PInt n :: ap => printint fd n 10 true ;; vprintf fd fmt false ap
        | _ => fault "vprintf: argument" end
      else if c =? chr "l" then
        match ap with
        | PPtr n :: ap => printint fd (s32 n) 10 false ;; vprintf fd fmt false ap
        | _ => fault "vprintf: argument" end
      else if c =? chr "x" then
        match ap with
        | PInt n :: ap => printint fd n 16 false ;; vprintf fd fmt false ap
        | _ => fault "vprintf: argument" end
      else if c =? chr "p" then
        match ap with
        | PPtr n :: ap => printptr fd n ;; vprintf fd fmt false ap
        | _ => fault "vprintf: argument" end
      else if c =? chr "s" then
        match ap with
        | PStr s :: ap => forM (default (bytes_of "(null)") s) (putc fd) ;; vprintf fd fmt false ap
        | _ => fault "vprintf: argument" end
      else if c =? chr "c" then
        match ap with
        | PInt n :: ap => putc fd n ;; vprintf fd fmt false ap
        | _ => fault "vprintf: argument" end
      else if c =? chr "%" then putc fd c ;; vprintf fd fmt false ap
      else putc fd (chr "%") ;; putc fd c ;; vprintf fd fmt false ap
  end.
Definition fprintf (fd : Z) (fmt : string) (ap : list parg) : M uio unit := vprintf fd (bytes_of fmt) false ap.
Definition printf (fmt : string) (ap : list parg) : M uio unit := vprintf 1 (bytes_of fmt) false ap.

(** ** What it prints *)

Definition int_text (n base : Z) (sgn : bool) : list Z := reverse (int_digits n base sgn).
Definition ptr_text (n : Z) : list Z :=
  [chr "0"; chr "x"] ++ ((λ i, digit (Z.shiftr (u64 (Z.shiftl n (4 * i))) 60)) <$> seqZ 0 16).
(** The text of one argument under a conversion, and that of an unknown conversion. *)
Definition conversion (c : Z) (a : option parg) : option (list Z) :=
  match a with
  | Some (PInt n) =>
      if c =? chr "d" then Some (int_text n 10 true) else if c =? chr "x" then Some (int_text n 16 false)
      else if c =? chr "c" then Some [u8 n] else None
  | Some (PPtr n) => if c =? chr "l" then Some (int_text (s32 n) 10 false) else if c =? chr "p" then Some (ptr_text n) else None
  | Some (PStr s) => if c =? chr "s" then Some (default (bytes_of "(null)") s) else None
  | None => None
  end.
Definition converts (c : Z) : bool := bool_decide (c ∈ bytes_of "dlxpsc").
Fixpoint text (fmt : list Z) (ap : list parg) : option (list Z) :=
  match fmt with
  | [] => Some []
  | c :: fmt =>
      if negb (c =? chr "%") then (c ::.) <$> text fmt ap
      else
        match fmt with
        | [] => Some []
        | c :: fmt =>
            if converts c then
              t ← conversion c (head ap);
              (t ++.) <$> text fmt (tail ap)
            else ((if c =? chr "%" then [c] else [chr "%"; c]) ++.) <$> text fmt ap
        end
  end.

(** The value of an upper case numeral. *)
Definition digit_val (c : Z) : Z := if c <? chr "A" then c - chr "0" else c - chr "A" + 10.
Definition numeral (base : Z) (l : list Z) : Z := foldl (λ n c, n * base + digit_val c) 0 l.
Definition read_int (base : Z) (l : list Z) : Z :=
  match l with c :: l' => if c =? chr "-" then - numeral base l' else numeral base l | [] => 0 end.

(** [m] writes [l] to [fd], a byte at a time, and does nothing else. *)
Definition says (fd : Z) (m : M uio unit) (l : list Z) : Prop :=
  ∀ u, m u = Done tt (Uio (streams u) (nreads u) (written u ++ ((λ c, (fd, [c])) <$> l))).

Lemma says_nil fd : says fd (mret tt) [].
Proof. intros [s n w]. cbn. by rewrite app_nil_r. Qed.
Lemma says_app fd (m1 m2 : M uio unit) l1 l2 : says fd m1 l1 → says fd m2 l2 → says fd (m1 ;; m2) (l1 ++ l2).
Proof. intros H1 H2 u. unfold mbind, M_bind. rewrite H1. cbn [obind]. rewrite H2. cbn. by rewrite fmap_app, app_assoc. Qed.
Lemma says_putc fd c : says fd (putc fd c) [u8 c].
Proof. by intros u. Qed.
Lemma says_byte fd c : is_byte c → says fd (putc fd c) [c].
Proof. intros Hc. rewrite <-(u8_id c) at 2 by done. apply says_putc. Qed.
Lemma says_forM {A} fd (l : list A) (f : A → Z) (m : A → M uio unit) :
  (∀ x, x ∈ l → says fd (m x) [f x]) → says fd (forM l m) (f <$> l).
Proof.
  induction l as [|x l IH]; intros Hm; [apply says_nil|]. cbn [forM fmap list_fmap]. change (f x :: ?l) with ([f x] ++ l).
  apply says_app; [apply Hm; left|]. apply IH. intros y Hy. apply Hm. by right.
Qed.
Lemma says_bytes fd l : Forall is_byte l → says fd (forM l (putc fd)) l.
Proof.
  intros Hl. rewrite <-(list_fmap_id l) at 2. apply says_forM. intros c Hc. rewrite Forall_forall in Hl. by apply says_byte, Hl.
Qed.

(** ** Numerals

    The digits are those of the kernel's [printf] in upper case. *)

Definition up (c : Z) : Z := if c <? chr "a" then c else c - 32.
Definition digit_like (c : Z) : Prop := digit_val (up c) = PrintfSpec.digit_val c ∧ is_byte (up c) ∧ up c ≠ chr "-".
Lemma digit_up d : 0 ≤ d < 16 → digit d = up (Printf.digit d) ∧ digit_like (Printf.digit d).
Proof.
  intros Hd. assert (d ∈ seqZ 0 16) as Hin by (apply elem_of_seqZ; lia). clear Hd. revert d Hin. apply Forall_forall.
  unfold digit_like, is_byte. apply (bool_decide_unpack _). by vm_compute.
Qed.
Lemma digits_of_up fuel x base : 2 ≤ base ≤ 16 →
  digits_of fuel x base = up <$> Printf.digits_of fuel x base ∧ Forall digit_like (Printf.digits_of fuel x base).
Proof.
  intros Hb. revert x. induction fuel as [|fuel IH]; intros x; [done|]. cbn [digits_of Printf.digits_of fmap list_fmap].
  pose proof (Z.mod_pos_bound x base ltac:(lia)). destruct (digit_up (x mod base)) as [-> Hd]; [lia|]. destruct (IH (x / base)) as [E Hf].
  destruct (_ =? 0); [split; [done|by apply Forall_singleton]|]. rewrite E. split; [done|by apply Forall_cons].
Qed.
Lemma numeral_up base l : Forall digit_like l → numeral base (up <$> l) = PrintfSpec.numeral base l.
Proof.
  unfold numeral, PrintfSpec.numeral. generalize 0. induction l as [|c l IH]; intros n Hl; [done|]. apply Forall_cons in Hl as [[E _] Hl]. cbn [fmap list_fmap foldl]. rewrite E. by apply IH.
Qed.

(** The text of an [int], read back; without a sign it is taken modulo 2^32. *)
Lemma int_text_value n base sgn : base = 10 ∨ base = 16 → - 2 ^ 31 ≤ n < 2 ^ 31 →
  read_int base (int_text n base sgn) = (if sgn then n else u32 n) ∧ (length (int_digits n base sgn) ≤ 16)%nat ∧ Forall is_byte (int_text n base sgn).
Proof.
  intros Hb Hn. unfold int_text, int_digits. set (neg := sgn && (n <? 0)). set (x := u32 _). assert (2 ≤ base ≤ 16) as Hb16 by (destruct Hb; lia).
  assert ((if neg then - x else x) = if sgn then n else u32 n) as Hx.
  { unfold x, neg. destruct sgn; cbn [andb]; [|done]. destruct (Z.ltb_spec n 0); rewrite u32_id by lia; lia. }
  assert (0 ≤ x < base ^ Z.of_nat 10) as Hr.
  { pose proof (u32_bound (if neg then - n else n)). fold x in H. change (2 ^ 32) with 4294967296 in H.
    destruct Hb as [-> | ->]; change (10 ^ Z.of_nat 10) with 10000000000; change (16 ^ Z.of_nat 10) with 1099511627776; lia. }
  destruct (digits_of_spec base Hb16 10 32 x Hr) as [Hnum Hlen]; [lia|]. destruct (digits_of_up 32 x base Hb16) as [-> Hd].
  set (ds := Printf.digits_of 32 x base) in *. clearbody ds. rewrite reverse_app, <-fmap_reverse. apply Forall_reverse in Hd.
  rewrite <-length_reverse in Hlen. rewrite length_app, length_fmap, <-(length_reverse ds). set (rs := reverse ds) in *. clearbody rs.
  rewrite <-Hx, <-Hnum. split_and!.
  - destruct neg; cbn [reverse app].
    + change (reverse [chr "-"] ++ ?l) with (chr "-" :: l). cbn [read_int]. by rewrite Z.eqb_refl, numeral_up.
    + change (reverse [] ++ ?l) with l. rewrite <-numeral_up by done. destruct rs as [|c l]; cbn [length] in Hlen; [lia|].
      apply Forall_cons in Hd as [(_ & _ & Hc) _]. cbn [fmap list_fmap read_int]. by rewrite (proj2 (Z.eqb_neq _ _)).
  - destruct neg; cbn [length]; lia.
  - apply Forall_app. split; [by destruct neg; [apply (bool_decide_unpack _); vm_compute|]|]. apply Forall_fmap. eapply Forall_impl; [exact Hd|]. by intros c (_ & ? & _).
Qed.

Lemma says_int fd n base sgn : base = 10 ∨ base = 16 → - 2 ^ 31 ≤ n < 2 ^ 31 → says fd (printint fd n base sgn) (int_text n base sgn).
Proof.
  intros Hb Hn. destruct (int_text_value n base sgn Hb Hn) as (_ & Hl & Hby). unfold printint.
  destruct (Z.ltb_spec 16 (Z.of_nat (length (int_digits n base sgn)))); [lia|]. by apply says_bytes.
Qed.
Lemma says_ptr fd n : says fd (printptr fd n) (ptr_text n).
Proof.
  unfold printptr, ptr_text. change ([chr "0"; chr "x"] ++ ?l) with ([chr "0"] ++ [chr "x"] ++ l).
  do 2 (apply says_app; [by apply says_byte|]). apply (says_forM _ _ (λ i, digit (Z.shiftr (u64 (Z.shiftl n (4 * i))) 60))).
  intros i _. apply says_byte. set (d := Z.shiftr _ 60). assert (0 ≤ d < 16) as Hd.
  { pose proof (u64_bound (Z.shiftl n (4 * i))) as Hu. unfold d. rewrite Z.shiftr_div_pow2 by lia.
    split; [apply Z.div_pos; lia|]. apply Z.div_lt_upper_bound; [lia|]. change (2 ^ 60 * 16) with (2 ^ 64). lia. }
  destruct (digit_up d Hd) as [-> (_ & Hb & _)]. done.
Qed.

(** Comparisons of a known character with literals. *)
Ltac eval_chr :=
  repeat match goal with
  | |- context [Z.eqb ?a (chr ?s)] => let b := eval vm_compute in (Z.eqb a (chr s)) in change (Z.eqb a (chr s)) with b
  | H : context [Z.eqb ?a (chr ?s)] |- _ => let b := eval vm_compute in (Z.eqb a (chr s)) in change (Z.eqb a (chr s)) with b in H
  end; cbv iota in *.

(** One conversion. *)
Lemma vprintf_conv fd c fmt ap t l :
  Forall arg_ok ap → converts c = true → conversion c (head ap) = Some t → says fd (vprintf fd fmt false (tail ap)) l →
  says fd (vprintf fd (c :: fmt) true ap) (t ++ l).
Proof.
  intros Ha Hc Ht Hl. apply bool_decide_eq_true in Hc. change (bytes_of "dlxpsc") with [100; 108; 120; 112; 115; 99] in Hc.
  cbn [vprintf negb]. destruct ap as [|a ap]; [done|]. apply Forall_cons in Ha as [Ha _]. cbn [head tail] in *.
  repeat (apply elem_of_cons in Hc as [->|Hc]); [..|by apply elem_of_nil in Hc]; destruct a as [n|n|s]; cbn [conversion] in Ht; eval_chr;
    try discriminate Ht; injection Ht as <-; (apply says_app; [|exact Hl]).
  - apply says_int; [tauto|exact Ha].
  - apply says_int; [tauto|apply s32_bound].
  - apply says_int; [tauto|exact Ha].
  - apply says_ptr.
  - apply says_bytes. destruct s; [exact Ha|]. by apply (bool_decide_unpack _).
  - apply says_putc.
Qed.
Lemma vprintf_plain fd c fmt ap l : is_byte c → converts c = false → says fd (vprintf fd fmt false ap) l →
  says fd (vprintf fd (c :: fmt) true ap) ((if c =? chr "%" then [c] else [chr "%"; c]) ++ l).
Proof.
  intros Hb Hc Hl. apply bool_decide_eq_false in Hc. cbn [vprintf negb].
  repeat (case_match; bsimpl; subst; [exfalso; apply Hc, (bool_decide_unpack _); by vm_compute|]).
  case_match; bsimpl; subst; [by apply says_app; [apply says_byte|]|].
  change ([chr "%"; c] ++ l) with ([chr "%"] ++ [c] ++ l). by do 2 (apply says_app; [by apply says_byte|]).
Qed.

Lemma vprintf_says fd fmt ap l : Forall is_byte fmt → Forall arg_ok ap → text fmt ap = Some l → says fd (vprintf fd fmt false ap) l.
Proof.
  remember (length fmt) as n eqn:Hn. assert (length fmt ≤ n)%nat as Hle by lia. clear Hn. revert fmt Hle ap l.
  induction n as [|n IH]; intros [|c fmt] Hle ap l Hf Ha; cbn [length] in Hle; [| lia | |]; [intros [= <-]; apply says_nil..|].
  apply Forall_cons in Hf as [Hc Hf]. cbn [text vprintf negb]. destruct (c =? chr "%") eqn:E; cbn [negb].
  2:{ intros (l' & Hr & ->)%fmap_Some. change (c :: l') with ([c] ++ l'). apply says_app; [by apply says_byte|]. apply IH; [lia|done..]. }
  destruct fmt as [|d fmt]; [intros [= <-]; apply says_nil|]. apply Forall_cons in Hf as [Hd Hf]. cbn [length] in Hle.
  destruct (converts d) eqn:Ed.
  - intros (t & Ht & (l' & Hr & ->)%fmap_Some)%bind_Some. apply vprintf_conv; [done|done|done|]. apply IH; [lia|done| |done]. by destruct Ha.
  - intros (l' & Hr & ->)%fmap_Some. apply vprintf_plain; [done|done|]. apply IH; [lia|done..].
Qed.

Lemma output_says fd fd' (w : list (Z * list Z)) l st n :
  output fd' (Uio st n (w ++ ((λ c, (fd, [c])) <$> l))) = output fd' (Uio st n w) ++ (if decide (fd = fd') then l else []).
Proof.
  unfold output. cbn [written]. rewrite filter_app, fmap_app, concat_app. f_equal. induction l as [|c l IH]; [by case_decide|].
  cbn [fmap list_fmap]. rewrite filter_cons. cbn [fst]. case_decide; [|exact IH]. cbn [fmap list_fmap concat snd]. by rewrite IH.
Qed.

(** [fprintf] writes the text of its format and arguments to the descriptor and
    nothing else; an [int] under [%d] is printed as a numeral whose value it is,
    one under [%x], and the number under [%l], modulo 2^32. *)
Lemma fprintf_wp fd fmt ap l u :
  Forall is_byte (bytes_of fmt) → Forall arg_ok ap → text (bytes_of fmt) ap = Some l →
  ∃ u', fprintf fd fmt ap u = Done tt u' ∧ streams u' = streams u ∧ nreads u' = nreads u ∧
    ∀ fd', output fd' u' = output fd' u ++ (if decide (fd = fd') then l else []).
Proof.
  intros Hf Ha Ht. eexists. split; [by apply vprintf_says|]. split_and!; [done|done|]. intros fd'. destruct u. apply output_says.
Qed.
