(* ===== verification/Sh.v ===== *)
(** * The shell ([user/sh.c])

    The line that is parsed is an array of characters, a [char *] into it an
    index and a null pointer [None]; the command tree is a heap of nodes, one
    constructor per [struct], and a [struct cmd *] the address of a node, 0 when
    null.  A message of [panic] goes to descriptor 2 and the process ends. *)

From S2P Require Import Prelude Riscv Memory CString State Printf PrintfSpec Bytes Ulib Uprintf.

Inductive node :=
| Execcmd (argv eargv : list (option nat))
| Redircmd (cmd : Z) (file efile : nat) (mode fd : Z)
| Pipecmd (left right : Z)
| Listcmd (left right : Z)
| Backcmd (cmd : Z).

Definition MAXARGS : nat := 10.

Record shst := Sh { sh_buf : list Z; sh_heap : gmap Z node; sh_count : nat; sh_io : uio }.
Definition upd_sh_buf (f : list Z → list Z) (k : shst) : shst := Sh (f (sh_buf k)) (sh_heap k) (sh_count k) (sh_io k).
Definition upd_sh_heap (f : gmap Z node → gmap Z node) (k : shst) : shst := Sh (sh_buf k) (f (sh_heap k)) (sh_count k) (sh_io k).

(** The address that the [i]-th [malloc] returns.  The shell frees nothing, so
    the blocks are all different; that there is memory for them is assumed. *)
Class Malloc := {
  malloc : nat → Z;
  malloc_inj : Inj (=) (=) malloc;
  malloc_null i : malloc i ≠ 0;
}.

Section sh.
Context `{Malloc}.

Definition io {A} (m : M uio A) : M shst A := zoom sh_io (λ u k, Sh (sh_buf k) (sh_heap k) (sh_count k) u) m.
Definition exit {A} : M shst A := λ k, Exited k.
Definition panic {A} (s : string) : M shst A := io (fprintf 2 (line "%s") [PStr (Some (bytes_of s))]) ;; exit.

(** ** Constructors *)

Definition new (n : node) : M shst Z :=
  k ← get;
  put (Sh (sh_buf k) (<[malloc (sh_count k) := n]> (sh_heap k)) (S (sh_count k)) (sh_io k)) ;;
  mret (malloc (sh_count k)).
Definition execcmd : M shst Z := new (Execcmd (replicate MAXARGS None) (replicate MAXARGS None)).
Definition redircmd (subcmd : Z) (file efile : nat) (mode fd : Z) : M shst Z := new (Redircmd subcmd file efile mode fd).
Definition pipecmd (left right : Z) : M shst Z := new (Pipecmd left right).
Definition listcmd (left right : Z) : M shst Z := new (Listcmd left right).
Definition backcmd (subcmd : Z) : M shst Z := new (Backcmd subcmd).

(** ** Tokens *)

Definition char_at (s : nat) : M shst Z :=
  buf ← gets sh_buf;
  match buf !! s with Some c => mret c | None => fault "sh: text" end.
Definition set_char (s : nat) (c : Z) : M shst unit :=
  buf ← gets sh_buf;
  if decide (s < length buf)%nat then modify (upd_sh_buf (<[s := c]>)) else fault "sh: text".

Definition whitespace : list Z := [32; 9; 13; 10; 11].
Definition symbols : list Z := bytes_of "<|>&;()".
Definition occurs (set : list Z) (c : Z) : bool := match strchr (set ++ [0]) c with Some (Some _) => true | _ => false end.

(** [while(s < es && p( *s)) s++]. *)
Definition skip_body (p : Z → bool) (es s : nat) : M shst (nat + nat) :=
  if decide (s < es)%nat then
    c ← char_at s;
    mret (if p c then inl (S s) else inr s)
  else mret (inr s).
Definition skip (p : Z → bool) (es s : nat) : M shst nat := loopM (S es) (skip_body p es) s.
Definition skip_blanks (es s : nat) : M shst nat := skip (occurs whitespace) es s.

(** The [switch] of [gettoken]: the token at [q] and where it ends. *)
Definition switch_token (es q : nat) : M shst (Z * nat) :=
  c ← char_at q;
  if c =? 0 then mret (c, q)
  else if (c =? chr "|") || (c =? chr "(") || (c =? chr ")") || (c =? chr ";") || (c =? chr "&") || (c =? chr "<") then mret (c, S q)
  else if c =? chr ">" then
    c' ← char_at (S q);
    mret (if c' =? chr ">" then (chr "+", S (S q)) else (c, S q))
  else
    eq ← skip (λ c, negb (occurs whitespace c) && negb (occurs symbols c)) es q;
    mret (chr "a", eq).
(** The token, where it starts and ends, and where the next one is looked for. *)
Definition gettoken (es s : nat) : M shst (Z * nat * nat * nat) :=
  q ← skip_blanks es s;
  '(ret, eq) ← switch_token es q;
  s ← skip_blanks es eq;
  mret (ret, q, eq, s).

Definition peek (es : nat) (toks : list Z) (s : nat) : M shst (bool * nat) :=
  s ← skip_blanks es s;
  c ← char_at s;
  mret (negb (c =? 0) && occurs toks c, s).

(** ** Parsing

    [ps] is threaded: every routine returns it with its result. *)

Definition redirs_body (es : nat) (st : Z * nat) : M shst (Z * nat + Z * nat) :=
  let '(cmd, s) := st in
  '(more, s) ← peek es (bytes_of "<>") s;
  if negb more then mret (inr (cmd, s))
  else
    '(tok, _, _, s) ← gettoken es s;
    '(t, q, eq, s) ← gettoken es s;
    if negb (t =? chr "a") then panic "missing file for redirection"
    else
      cmd ← (if tok =? chr "<" then redircmd cmd q eq O_RDONLY 0
             else if tok =? chr ">" then redircmd cmd q eq (Z.lor (Z.lor O_WRONLY O_CREATE) O_TRUNC) 1
             else if tok =? chr "+" then redircmd cmd q eq (Z.lor O_WRONLY O_CREATE) 1
             else mret cmd);
      mret (inl (cmd, s)).
Definition parseredirs (es : nat) (cmd : Z) (s : nat) : M shst (Z * nat) := loopM (S es) (redirs_body es) (cmd, s).

(** [cmd->argv[argc] = q; cmd->eargv[argc] = eq]. *)
Definition set_arg (cmd : Z) (argc : nat) (q eq : option nat) : M shst unit :=
  h ← gets sh_heap;
  match h !! cmd with
  | Some (Execcmd argv eargv) =>
      if decide (argc < MAXARGS)%nat then modify (upd_sh_heap (<[cmd := Execcmd (<[argc := q]> argv) (<[argc := eq]> eargv)]>))
      else fault "sh: argv"
  | _ => fault "sh: node"
  end.
Definition args_body (es : nat) (cmd : Z) (st : nat * Z * nat) : M shst (nat * Z * nat + nat * Z * nat) :=
  let '(argc, ret, s) := st in
  '(stop, s) ← peek es (bytes_of "|)&;") s;
  if (stop : bool) then mret (inr (argc, ret, s))
  else
    '(tok, q, eq, s) ← gettoken es s;
    if tok =? 0 then mret (inr (argc, ret, s))
    else if negb (tok =? chr "a") then panic "syntax"
    else
      set_arg cmd argc (Some q) (Some eq) ;;
      if decide (MAXARGS ≤ S argc)%nat then panic "too many args"
      else
        '(ret, s) ← parseredirs es ret s;
        mret (inl (S argc, ret, s)).

Definition amp_body (es : nat) (st : Z * nat) : M shst (Z * nat + Z * nat) :=
  let '(cmd, s) := st in
  '(more, s) ← peek es (bytes_of "&") s;
  if negb more then mret (inr (cmd, s))
  else
    '(_, _, _, s) ← gettoken es s;
    cmd ← backcmd cmd;
    mret (inl (cmd, s)).

Fixpoint parseline (fuel es s : nat) : M shst (Z * nat) :=
  match fuel with
  | O => out_of_fuel
  | S fuel =>
      '(cmd, s) ← parsepipe fuel es s;
      '(cmd, s) ← loopM (S es) (amp_body es) (cmd, s);
      '(more, s) ← peek es (bytes_of ";") s;
      if negb more then mret (cmd, s)
      else
        '(_, _, _, s) ← gettoken es s;
        '(rest, s) ← parseline fuel es s;
        cmd ← listcmd cmd rest;
        mret (cmd, s)
  end
with parsepipe (fuel es s : nat) : M shst (Z * nat) :=
  match fuel with
  | O => out_of_fuel
  | S fuel =>
      '(cmd, s) ← parseexec fuel es s;
      '(more, s) ← peek es (bytes_of "|") s;
      if negb more then mret (cmd, s)
      else
        '(_, _, _, s) ← gettoken es s;
        '(rest, s) ← parsepipe fuel es s;
        cmd ← pipecmd cmd rest;
        mret (cmd, s)
  end
with parseexec (fuel es s : nat) : M shst (Z * nat) :=
  match fuel with
  | O => out_of_fuel
  | S fuel =>
      '(block, s) ← peek es (bytes_of "(") s;
      if (block : bool) then parseblock fuel es s
      else
        cmd ← execcmd;
        '(ret, s) ← parseredirs es cmd s;
        '(argc, ret, s) ← loopM (S es) (args_body es cmd) (O, ret, s);
        set_arg cmd argc None None ;;
        mret (ret, s)
  end
with parseblock (fuel es s : nat) : M shst (Z * nat) :=
  match fuel with
  | O => out_of_fuel
  | S fuel =>
      '(block, s) ← peek es (bytes_of "(") s;
      if negb block then panic "parseblock"
      else
        '(_, _, _, s) ← gettoken es s;
        '(cmd, s) ← parseline fuel es s;
        '(closed, s) ← peek es (bytes_of ")") s;
        if negb closed then panic "syntax - missing )"
        else
          '(_, _, _, s) ← gettoken es s;
          parseredirs es cmd s
  end.

(** ** NUL termination *)

(** [for(i=0; ecmd->argv[i]; i++) *ecmd->eargv[i] = 0]. *)
Definition nul_args (argv eargv : list (option nat)) : M shst unit :=
  loopM (S MAXARGS) (λ i,
    match argv !! i with
    | Some (Some _) =>
        match eargv !! i with Some (Some e) => set_char e 0 ;; mret (inl (S i)) | _ => fault "sh: eargv" end
    | Some None => mret (inr tt)
    | None => fault "sh: argv"
    end) O.
Fixpoint nulterminate (fuel : nat) (cmd : Z) : M shst Z :=
  match fuel with
  | O => out_of_fuel
  | S fuel =>
      if cmd =? 0 then mret 0
      else
        h ← gets sh_heap;
        match h !! cmd with
        | Some (Execcmd argv eargv) => nul_args argv eargv ;; mret cmd
        | Some (Redircmd sub _ efile _ _) => nulterminate fuel sub ;; set_char efile 0 ;; mret cmd
        | Some (Pipecmd l r) => nulterminate fuel l ;; nulterminate fuel r ;; mret cmd
        | Some (Listcmd l r) => nulterminate fuel l ;; nulterminate fuel r ;; mret cmd
        | Some (Backcmd sub) => nulterminate fuel sub ;; mret cmd
        | None => fault "sh: node"
        end
  end.

(** A line of [n] characters needs at most [4 * n + 4] nested calls. *)
Definition parse_fuel (es : nat) : nat := 4 * es + 4.
Definition parsecmd (s : nat) : M shst Z :=
  buf ← gets sh_buf;
  match strlen (drop s buf) with
  | None => fault "sh: text"
  | Some len =>
      let es := (s + Z.to_nat len)%nat in
      '(cmd, s) ← parseline (parse_fuel es) es s;
      '(_, s) ← peek es [] s;
      if decide (s ≠ es) then
        buf ← gets sh_buf;
        io (fprintf 2 (line "leftovers: %s") [PStr (Some (take (es - s) (drop s buf)))]) ;;
        panic "syntax"
      else
        nulterminate (S es) cmd ;;
        mret cmd
  end.
End sh.
