(* ===== verification/ShGrammar.v ===== *)
(** * The language of the shell

    Tokens, and the grammar of a command line:
<<
      line   ::= pipe "&"* [ ";" line ]
      pipe   ::= exec [ "|" pipe ]
      exec   ::= "(" line ")" redir*  |  ( word | redir )*
      redir  ::= ( "<" | ">" | ">>" ) word
>>
    with at most nine words in a command.  [pline] is a parser on tokens that
    answers exactly when the grammar derives the tokens. *)

From S2P Require Import Prelude Riscv Memory CString State Printf Bytes Ulib Sh.

(** A [>>] is the symbol [+]. *)
Inductive token := Word (w : list Z) | Sym (c : Z).
#[global] Instance token_eq_dec : EqDecision token.
Proof. solve_decision. Defined.

Definition blank (c : Z) : bool := occurs whitespace c.
Definition symbol (c : Z) : bool := occurs symbols c.
Definition word_char (c : Z) : bool := negb (blank c) && negb (symbol c).

Definition flush (w : list Z) : list token := match w with [] => [] | _ => [Word w] end.
(** The tokens of [s] after the characters [w] of a word. *)
Fixpoint lex (w s : list Z) : list token :=
  match s with
  | [] => flush w
  | c :: s1 =>
      if blank c then flush w ++ lex [] s1
      else if symbol c then
        flush w ++
        match s1 with
        | c' :: s2 => if (c =? chr ">") && (c' =? chr ">") then Sym (chr "+") :: lex [] s2 else Sym c :: lex [] s1
        | [] => [Sym c]
        end
      else lex (w ++ [c]) s1
  end.

(** ** Commands *)

Record redir := Rd { r_file : list Z; r_mode : Z; r_fd : Z }.
Inductive cmd :=
| Exec (args : list (list Z))
| Redir (c : cmd) (r : redir)
| Pipe (c1 c2 : cmd)
| List (c1 c2 : cmd)
| Back (c : cmd).

Definition redir_of (tok : Z) (w : list Z) : option redir :=
  if tok =? chr "<" then Some (Rd w O_RDONLY 0)
  else if tok =? chr ">" then Some (Rd w (Z.lor (Z.lor O_WRONLY O_CREATE) O_TRUNC) 1)
  else if tok =? chr "+" then Some (Rd w (Z.lor O_WRONLY O_CREATE) 1)
  else None.
(** The first redirection is the innermost. *)
Definition wrap (c : cmd) (rs : list redir) : cmd := foldl Redir c rs.
Definition backs (n : nat) (c : cmd) : cmd := Nat.iter n Back c.

Inductive redirs : list token → list redir → Prop :=
| rd_nil : redirs [] []
| rd_cons x w r ts rs : redir_of x w = Some r → redirs ts rs → redirs (Sym x :: Word w :: ts) (r :: rs).
Inductive items : list token → list (list Z) → list redir → Prop :=
| it_nil : items [] [] []
| it_word w ts ws rs : items ts ws rs → items (Word w :: ts) (w :: ws) rs
| it_redir x w r ts ws rs : redir_of x w = Some r → items ts ws rs → items (Sym x :: Word w :: ts) ws (r :: rs).

Inductive gline : list token → cmd → Prop :=
| gl_end ts n c : gpipe ts c → gline (ts ++ replicate n (Sym (chr "&"))) (backs n c)
| gl_semi ts n c ts' c' : gpipe ts c → gline ts' c' →
    gline (ts ++ replicate n (Sym (chr "&")) ++ Sym (chr ";") :: ts') (List (backs n c) c')
with gpipe : list token → cmd → Prop :=
| gp_end ts c : gexec ts c → gpipe ts c
| gp_bar ts c ts' c' : gexec ts c → gpipe ts' c' → gpipe (ts ++ Sym (chr "|") :: ts') (Pipe c c')
with gexec : list token → cmd → Prop :=
| ge_items ts ws rs : items ts ws rs → (length ws < MAXARGS)%nat → gexec ts (wrap (Exec ws) rs)
| ge_block ts c ts' rs : gline ts c → redirs ts' rs →
    gexec (Sym (chr "(") :: ts ++ Sym (chr ")") :: ts') (wrap c rs).

Scheme gline_mut := Minimality for gline Sort Prop
with gpipe_mut := Minimality for gpipe Sort Prop
with gexec_mut := Minimality for gexec Sort Prop.
Combined Scheme grammar_ind from gline_mut, gpipe_mut, gexec_mut.

(** ** A parser on tokens *)

Inductive res (A : Type) := Ok (a : A) (ts : list token) | Err (msg : string) | Stuck.
Arguments Ok {A} a ts.
Arguments Err {A} msg.
Arguments Stuck {A}.
Definition rbind {A B} (r : res A) (f : A → list token → res B) : res B :=
  match r with Ok a ts => f a ts | Err m => Err m | Stuck => Stuck end.

Fixpoint predirs (ts : list token) : res (list redir) :=
  match ts with
  | Sym x :: ts1 =>
      match redir_of x [] with
      | None => Ok [] ts
      | Some _ =>
          match ts1 with
          | Word w :: ts2 => rbind (predirs ts2) (λ rs ts, match redir_of x w with Some r => Ok (r :: rs) ts | None => Stuck end)
          | _ => Err "missing file for redirection"
          end
      end
  | _ => Ok [] ts
  end.
Definition stops (x : Z) : bool := occurs (bytes_of "|)&;") x.
Fixpoint pitems (argc : nat) (ts : list token) : res (list (list Z) * list redir) :=
  match ts with
  | [] => Ok ([], []) []
  | Word w :: ts1 =>
      if decide (MAXARGS ≤ S argc)%nat then Err "too many args"
      else rbind (pitems (S argc) ts1) (λ x ts, Ok (w :: x.1, x.2) ts)
  | Sym x :: ts1 =>
      match redir_of x [] with
      | None => if stops x then Ok ([], []) ts else Err "syntax"
      | Some _ =>
          match ts1 with
          | Word w :: ts2 => rbind (pitems argc ts2) (λ y ts, match redir_of x w with Some r => Ok (y.1, r :: y.2) ts | None => Stuck end)
          | _ => Err "missing file for redirection"
          end
      end
  end.
Fixpoint pamps (c : cmd) (ts : list token) : cmd * list token :=
  match ts with
  | Sym x :: ts1 => if x =? chr "&" then pamps (Back c) ts1 else (c, ts)
  | _ => (c, ts)
  end.

(** Whether the next token is the symbol [x]. *)
Definition next (x : Z) (ts : list token) : bool := match ts with Sym y :: _ => y =? x | _ => false end.

Fixpoint pline (fuel : nat) (ts : list token) : res cmd :=
  match fuel with
  | O => Stuck
  | S fuel =>
      rbind (ppipe fuel ts) (λ c ts,
      let '(c, ts) := pamps c ts in
      if next (chr ";") ts then rbind (pline fuel (tail ts)) (λ c' ts, Ok (List c c') ts) else Ok c ts)
  end
with ppipe (fuel : nat) (ts : list token) : res cmd :=
  match fuel with
  | O => Stuck
  | S fuel =>
      rbind (pexec fuel ts) (λ c ts,
      if next (chr "|") ts then rbind (ppipe fuel (tail ts)) (λ c' ts, Ok (Pipe c c') ts) else Ok c ts)
  end
with pexec (fuel : nat) (ts : list token) : res cmd :=
  match fuel with
  | O => Stuck
  | S fuel =>
      if next (chr "(") ts then pblock fuel ts
      else rbind (pitems 0 ts) (λ x ts, Ok (wrap (Exec x.1) x.2) ts)
  end
with pblock (fuel : nat) (ts : list token) : res cmd :=
  match fuel with
  | O => Stuck
  | S fuel =>
      rbind (pline fuel (tail ts)) (λ c ts,
      if next (chr ")") ts then rbind (predirs (tail ts)) (λ rs ts, Ok (wrap c rs) ts) else Err "syntax - missing )")
  end.

(** ** The parser ends *)

Lemma redir_of_any x w w' : is_Some (redir_of x w) → is_Some (redir_of x w').
Proof. unfold redir_of. intros [r Hr]. repeat case_match; by eauto. Qed.
Lemma redir_of_none x w w' : redir_of x w = None → redir_of x w' = None.
Proof. rewrite !eq_None_not_Some. intros Hn Hs. by eapply Hn, redir_of_any. Qed.

(** The parser answers and leaves a part of the tokens. *)
Definition answers {A} (r : res A) (n : nat) : Prop :=
  match r with Ok _ ts => (length ts ≤ n)%nat | Err _ => True | Stuck => False end.
Lemma answers_bind {A B} (r : res A) (f : A → list token → res B) n n' :
  answers r n → (∀ a ts, (length ts ≤ n)%nat → answers (f a ts) n') → answers (rbind r f) n'.
Proof. destruct r; cbn; auto. Qed.
Lemma answers_le {A} (r : res A) n n' : answers r n → (n ≤ n')%nat → answers r n'.
Proof. destruct r; cbn; [lia|done|done]. Qed.

Lemma predirs_answers ts : answers (predirs ts) (length ts).
Proof.
  remember (length ts) as n eqn:Hn. assert (length ts ≤ n)%nat as Hle by lia. clear Hn. revert ts Hle.
  induction n as [|n IH]; intros [|[w|x] ts] Hle; cbn [length] in Hle; try lia; cbn [predirs]; try (cbn; lia).
  destruct (redir_of x []) eqn:E; [|cbn; lia]. destruct ts as [|[w|] ts]; cbn [length] in Hle; [done| |done].
  eapply answers_bind; [eapply (answers_le _ n); [apply IH; lia|done]|]. intros rs ts' Hl.
  destruct (redir_of_any x [] w) as [? ->]; [by eexists|]. cbn. lia.
Qed.
Lemma pitems_answers argc ts : answers (pitems argc ts) (length ts).
Proof.
  remember (length ts) as n eqn:Hn. assert (length ts ≤ n)%nat as Hle by lia. clear Hn. revert argc ts Hle.
  induction n as [|n IH]; intros argc [|[w|x] ts] Hle; cbn [length] in Hle; try lia; cbn [pitems]; try (cbn; lia).
  - case_decide; [done|]. eapply answers_bind; [apply IH; lia|]. intros y ts' Hl. cbn. lia.
  - destruct (redir_of x []) eqn:E; [|by destruct (stops x); cbn; [lia|]]. destruct ts as [|[w|] ts]; cbn [length] in Hle; [done| |done].
    eapply answers_bind; [apply IH; lia|]. intros rs ts' Hl. destruct (redir_of_any x [] w) as [? ->]; [by eexists|]. cbn. lia.
Qed.
Lemma pamps_length c ts : (length (pamps c ts).2 ≤ length ts)%nat.
Proof. revert c. induction ts as [|[w|x] ts IH]; intros c; cbn; [lia|lia|]. case_match; cbn; [etrans; [apply IH|lia]|lia]. Qed.
Lemma next_cons x ts : next x ts = true → ∃ ts', ts = Sym x :: ts'.
Proof. destruct ts as [|[w|y] ts]; cbn; [done|done|]. intros ->%Z.eqb_eq. by eexists. Qed.

Lemma parser_answers n :
  (∀ ts, (4 * length ts + 4 ≤ n)%nat → answers (pline n ts) (length ts)) ∧
  (∀ ts, (4 * length ts + 3 ≤ n)%nat → answers (ppipe n ts) (length ts)) ∧
  (∀ ts, (4 * length ts + 2 ≤ n)%nat → answers (pexec n ts) (length ts)) ∧
  (∀ ts, next (chr "(") ts = true → (4 * length ts + 1 ≤ n)%nat → answers (pblock n ts) (length ts)).
Proof.
  induction n as [|n (IHl & IHp & IHe & IHb)]; [split_and!; intros; lia|]. split_and!; intros ts.
  - intros Hn. cbn [pline]. eapply answers_bind; [apply IHp; lia|]. intros c ts1 Hl1. pose proof (pamps_length c ts1). destruct (pamps c ts1) as [c2 ts2].
    cbn [snd] in *. destruct (next _ ts2) eqn:E; [|cbn; lia]. apply next_cons in E as [ts3 ->]. cbn [tail length] in *.
    eapply answers_bind; [apply IHl; lia|]. intros c' ts' Hl. cbn. lia.
  - intros Hn. cbn [ppipe]. eapply answers_bind; [apply IHe; lia|]. intros c ts1 Hl1. destruct (next _ ts1) eqn:E; [|cbn; lia].
    apply next_cons in E as [ts3 ->]. cbn [tail length] in *. eapply answers_bind; [apply IHp; lia|]. intros c' ts' Hl. cbn. lia.
  - intros Hn. cbn [pexec]. destruct (next _ ts) eqn:E; [apply IHb; [done|lia]|]. eapply answers_bind; [apply pitems_answers|]. intros x ts' Hl. cbn. lia.
  - intros (ts' & ->)%next_cons Hn. cbn [pblock tail length] in *. eapply answers_bind; [apply IHl; lia|]. intros c ts1 Hl1. destruct (next _ ts1) eqn:E; [|done].
    apply next_cons in E as [ts3 ->]. cbn [tail length] in *. eapply answers_bind; [apply predirs_answers|]. intros rs ts4 Hl4. cbn. lia.
Qed.

(** ** The parser finds only what the grammar derives *)

Lemma rbind_ok {A B} (r : res A) (f : A → list token → res B) b ts : rbind r f = Ok b ts → ∃ a ts', r = Ok a ts' ∧ f a ts' = Ok b ts.
Proof. destruct r; cbn; [by eauto|done|done]. Qed.

Lemma predirs_sound ts rs ts' : predirs ts = Ok rs ts' → ∃ ts1, ts = ts1 ++ ts' ∧ redirs ts1 rs.
Proof.
  remember (length ts) as n eqn:Hn. assert (length ts ≤ n)%nat as Hle by lia. clear Hn. revert ts rs ts' Hle.
  induction n as [|n IH]; intros [|[w|x] ts] rs ts' Hle; cbn [length] in Hle; try lia; cbn [predirs]; try (intros [= <- <-]; exists []; split; [done|constructor]).
  destruct (redir_of x []) eqn:E; [|intros [= <- <-]; exists []; split; [done|constructor]]. destruct ts as [|[w|] ts]; cbn [length] in Hle; [done| |done].
  intros (rs1 & ts1 & (ts2 & -> & Hr)%IH & H2)%rbind_ok; [|lia]. destruct (redir_of x w) eqn:Er; [|done]. injection H2 as <- <-.
  exists (Sym x :: Word w :: ts2). split; [done|]. by constructor.
Qed.
Lemma pitems_sound argc ts ws rs ts' : pitems argc ts = Ok (ws, rs) ts' → ∃ ts1, ts = ts1 ++ ts' ∧ items ts1 ws rs ∧ (argc < MAXARGS → argc + length ws < MAXARGS)%nat.
Proof.
  remember (length ts) as n eqn:Hn. assert (length ts ≤ n)%nat as Hle by lia. clear Hn. revert argc ts ws rs ts' Hle.
  induction n as [|n IH]; intros argc [|[w|x] ts] ws rs ts' Hle; cbn [length] in Hle; try lia; cbn [pitems].
  1,2: intros [= <- <- <-]; exists []; split_and!; [done|constructor|cbn; lia].
  - case_decide; [done|]. intros ([ws1 rs1] & ts1 & (ts2 & -> & Hr & Hl)%IH & H2)%rbind_ok; [|lia]. injection H2 as <- <- <-.
    exists (Word w :: ts2). split_and!; [done|by constructor|cbn; lia].
  - destruct (redir_of x []) eqn:E.
    + destruct ts as [|[w|] ts]; cbn [length] in Hle; [done| |done].
      intros ([ws1 rs1] & ts1 & (ts2 & -> & Hr & Hl)%IH & H2)%rbind_ok; [|lia]. destruct (redir_of x w) eqn:Er; [|done]. injection H2 as <- <- <-.
      exists (Sym x :: Word w :: ts2). split_and!; [done|by constructor|cbn; lia].
    + destruct (stops x); [|done]. intros [= <- <- <-]. exists []. split_and!; [done|constructor|cbn; lia].
Qed.
Lemma pamps_sound c ts c' ts' : pamps c ts = (c', ts') → ∃ n, ts = replicate n (Sym (chr "&")) ++ ts' ∧ c' = backs n c.
Proof.
  revert c. induction ts as [|[w|x] ts IH]; intros c; cbn [pamps]; try (intros [= <- <-]; by exists O).
  destruct (x =? chr "&") eqn:E; [|intros [= <- <-]; by exists O]. apply Z.eqb_eq in E as ->. intros (n & -> & ->)%IH. exists (S n). split; [done|].
  unfold backs. by rewrite Nat.iter_succ_r.
Qed.

Lemma parser_sound n :
  (∀ ts c ts', pline n ts = Ok c ts' → ∃ ts1, ts = ts1 ++ ts' ∧ gline ts1 c) ∧
  (∀ ts c ts', ppipe n ts = Ok c ts' → ∃ ts1, ts = ts1 ++ ts' ∧ gpipe ts1 c) ∧
  (∀ ts c ts', pexec n ts = Ok c ts' → ∃ ts1, ts = ts1 ++ ts' ∧ gexec ts1 c) ∧
  (∀ ts c ts', next (chr "(") ts = true → pblock n ts = Ok c ts' → ∃ ts1, ts = ts1 ++ ts' ∧ gexec ts1 c).
Proof.
  induction n as [|n (IHl & IHp & IHe & IHb)]; [by split_and!|]. split_and!; intros ts c ts'; cbn [pline ppipe pexec pblock].
  - intros (c1 & ts1 & (u & -> & Hp)%IHp & H2)%rbind_ok. destruct (pamps c1 ts1) as [c2 ts2] eqn:Ea. apply pamps_sound in Ea as (m & -> & ->).
    destruct (next _ ts2) eqn:E.
    + apply next_cons in E as [ts3 ->]. apply rbind_ok in H2 as (c3 & ts4 & (u' & Eu & Hl)%IHl & [= <- <-]). cbn [tail] in Eu. subst ts3.
      eexists. split; [|by apply gl_semi]. by rewrite <-!app_assoc.
    + injection H2 as <- <-. eexists. split; [|by apply gl_end]. by rewrite <-app_assoc.
  - intros (c1 & ts1 & (u & -> & Hp)%IHe & H2)%rbind_ok. destruct (next _ ts1) eqn:E.
    + apply next_cons in E as [ts3 ->]. apply rbind_ok in H2 as (c3 & ts4 & (u' & Eu & Hl)%IHp & [= <- <-]). cbn [tail] in Eu. subst ts3.
      eexists. split; [|by apply gp_bar]. by rewrite <-!app_assoc.
    + injection H2 as <- <-. eexists. split; [done|by apply gp_end].
  - destruct (next _ ts) eqn:E; [by apply IHb|]. intros ([ws rs] & ts1 & (u & -> & Hi & Hl)%pitems_sound & [= <- <-])%rbind_ok.
    eexists. split; [done|]. apply ge_items; [done|]. apply Hl. unfold MAXARGS. lia.
  - intros (ts0 & ->)%next_cons. cbn [tail]. intros (c1 & ts1 & (u & -> & Hp)%IHl & H2)%rbind_ok. destruct (next _ ts1) eqn:E; [|done].
    apply next_cons in E as [ts3 ->]. cbn [tail] in H2. apply rbind_ok in H2 as (rs & ts4 & (u' & -> & Hr)%predirs_sound & [= <- <-]).
    eexists. split; [|by apply ge_block]. cbn. by rewrite <-!app_assoc.
Qed.

(** ** The parser finds all that the grammar derives *)

(** What may come after a part of a line. *)
Definition follow (X : string) (ts : list token) : Prop :=
  match ts with [] => True | Sym x :: _ => x ∈ bytes_of X | Word _ :: _ => False end.
Lemma follow_weaken X Y ts : bytes_of X ⊆ bytes_of Y → follow X ts → follow Y ts.
Proof. destruct ts as [|[w|x] ts]; cbn; auto. Qed.
Lemma follow_sym X x ts : bool_decide (x ∈ bytes_of X) = true → follow X (Sym x :: ts).
Proof. by intros ?%bool_decide_eq_true. Qed.
(** Evaluate a test for all characters of a literal. *)
Lemma follow_test X (P : Z → bool) ts : follow X ts → forallb P (bytes_of X) = true → match ts with [] => True | Sym x :: _ => P x = true | Word _ :: _ => False end.
Proof. destruct ts as [|[w|x] ts]; cbn; [done|done|]. intros Hx Hf. rewrite forallb_forall in Hf. by apply Hf, list_elem_of_In. Qed.
Lemma follow_next X ts x : follow X ts → forallb (λ y, negb (y =? x)) (bytes_of X) = true → next x ts = false.
Proof. intros Hf Ht. pose proof (follow_test _ _ _ Hf Ht) as Hx. destruct ts as [|[w|y] ts]; cbn in *; [done|done|]. by apply negb_true_iff. Qed.

Definition not_redir (x : Z) : bool := match redir_of x [] with None => true | Some _ => false end.
Lemma predirs_complete ts rs ts' : redirs ts rs → follow "|)&;" ts' → predirs (ts ++ ts') = Ok rs ts'.
Proof.
  intros Hr Hf. induction Hr as [|x w r ts rs Hx Hr IH]; cbn [app].
  - pose proof (follow_test _ not_redir _ Hf ltac:(by vm_compute)) as Ht. destruct ts' as [|[w|x] ts']; [done|done|]. cbn [predirs]. unfold not_redir in Ht. by case_match.
  - cbn [predirs]. destruct (redir_of x []) eqn:E; [by rewrite IH, Hx|]. by rewrite (redir_of_none x [] w E) in Hx.
Qed.
Lemma pitems_complete argc ts ws rs ts' : items ts ws rs → follow "|)&;" ts' → (argc + length ws < MAXARGS)%nat → pitems argc (ts ++ ts') = Ok (ws, rs) ts'.
Proof.
  intros Hr Hf. revert argc. induction Hr as [|w ts ws rs Hr IH|x w r ts ws rs Hx Hr IH]; intros argc Hl; cbn [app length] in *.
  - pose proof (follow_test _ (λ x, not_redir x && stops x) _ Hf ltac:(by vm_compute)) as Ht. destruct ts' as [|[w|x] ts']; [done|done|]. cbn [pitems].
    apply andb_prop in Ht as [Ht ->]. unfold not_redir in Ht. by case_match.
  - cbn [pitems]. rewrite decide_False by lia. rewrite IH by lia. done.
  - cbn [pitems]. destruct (redir_of x []) eqn:E; [by rewrite IH, Hx|]. by rewrite (redir_of_none x [] w E) in Hx.
Qed.
Lemma pamps_complete c n ts : next (chr "&") ts = false → pamps c (replicate n (Sym (chr "&")) ++ ts) = (backs n c, ts).
Proof.
  intros Hn. revert c. induction n as [|n IH]; intros c; cbn [replicate app].
  - destruct ts as [|[w|x] ts]; cbn [pamps next] in *; [done|done|]. by rewrite Hn.
  - cbn [pamps]. change (chr "&" =? chr "&") with true. cbv iota. rewrite IH. unfold backs. by rewrite Nat.iter_succ_r.
Qed.
Lemma items_next ts ws rs ts' : items ts ws rs → follow "|)&;" ts' → next (chr "(") (ts ++ ts') = false.
Proof.
  destruct 1 as [|w ts ws rs _|x w r ts ws rs Hx _]; intros Hf; cbn [app]; [by eapply follow_next; [|vm_compute]|done|].
  cbn [next]. apply Z.eqb_neq. intros ->. done.
Qed.

(** With fuel enough for an answer. *)
Lemma rbind_answer {A B} (r : res A) (f : A → list token → res B) a ts : (r ≠ Stuck → r = Ok a ts) → rbind r f ≠ Stuck → rbind r f = f a ts ∧ f a ts ≠ Stuck.
Proof. destruct r; cbn; intros Hr Hn; [by injection (Hr ltac:(done)) as -> ->|by specialize (Hr ltac:(done))|done]. Qed.

Lemma parser_complete :
  (∀ ts c, gline ts c → ∀ n ts', follow ")" ts' → pline n (ts ++ ts') ≠ Stuck → pline n (ts ++ ts') = Ok c ts') ∧
  (∀ ts c, gpipe ts c → ∀ n ts', follow ")&;" ts' → ppipe n (ts ++ ts') ≠ Stuck → ppipe n (ts ++ ts') = Ok c ts') ∧
  (∀ ts c, gexec ts c → ∀ n ts', follow "|)&;" ts' → pexec n (ts ++ ts') ≠ Stuck → pexec n (ts ++ ts') = Ok c ts').
Proof.
  apply grammar_ind.
  - intros ts m c _ IH [|n] ts' Hf; [done|]. cbn [pline]. intros Hn. rewrite <-app_assoc in *.
    eapply rbind_answer in Hn as [-> _]; [|apply IH; destruct m; [by eapply follow_weaken; [|exact Hf]; apply (bool_decide_unpack _)|by apply follow_sym]].
    rewrite pamps_complete by (by eapply follow_next; [|vm_compute]). by rewrite (follow_next ")" ts') by (by vm_compute).
  - intros ts m c ts2 c2 _ IH _ IH2 [|n] ts' Hf; [done|]. cbn [pline]. intros Hn. rewrite <-!app_assoc in *. cbn [app] in *.
    eapply rbind_answer in Hn as [-> Hn]; [|apply IH; destruct m; by apply follow_sym].
    rewrite pamps_complete in * by done. cbn [next tail] in *. change (chr ";" =? chr ";") with true in *. cbv iota in *.
    eapply rbind_answer in Hn as [-> _]; [done|]. by apply IH2.
  - intros ts c _ IH [|n] ts' Hf; [done|]. cbn [ppipe]. intros Hn.
    eapply rbind_answer in Hn as [-> _]; [|apply IH; by eapply follow_weaken; [|exact Hf]; apply (bool_decide_unpack _)].
    by rewrite (follow_next ")&;" ts') by (by vm_compute).
  - intros ts c ts2 c2 _ IH _ IH2 [|n] ts' Hf; [done|]. cbn [ppipe]. intros Hn. rewrite <-app_assoc in *. cbn [app] in *.
    eapply rbind_answer in Hn as [-> Hn]; [|apply IH; by apply follow_sym]. cbn [next tail] in *. change (chr "|" =? chr "|") with true in *. cbv iota in *.
    eapply rbind_answer in Hn as [-> _]; [done|]. by apply IH2.
  - intros ts ws rs Hi Hl [|n] ts' Hf; [done|]. cbn [pexec]. rewrite (items_next ts ws rs) by done. intros _. by rewrite (pitems_complete 0 ts ws rs).
  - intros ts c ts2 rs _ IH Hr [|[|n]] ts' Hf; cbn [pexec]; [done|by cbn|]. cbn [app next]. change (chr "(" =? chr "(") with true. cbv iota. cbn [pblock tail]. intros Hn.
    rewrite <-app_assoc in *. cbn [app] in *. eapply rbind_answer in Hn as [-> Hn]; [|apply IH; by apply follow_sym].
    cbn [next tail]. change (chr ")" =? chr ")") with true. cbv iota. by rewrite (predirs_complete _ rs).
Qed.

(** The parser decides the grammar. *)
Lemma pline_gline n ts c : (4 * length ts + 4 ≤ n)%nat → pline n ts = Ok c [] ↔ gline ts c.
Proof.
  intros Hn. split.
  - intros (ts1 & -> & Hg)%(proj1 (parser_sound n)). by rewrite app_nil_r.
  - intros Hg. pose proof (proj1 (parser_answers n) ts Hn) as Ha. pose proof (proj1 parser_complete ts c Hg n [] I) as Hc. rewrite app_nil_r in Hc.
    apply Hc. intros E. by rewrite E in Ha.
Qed.
