(* ===== verification/ShParse.v ===== *)
(** * The shell's parser accepts the grammar

    The routines of [Sh] on a line of text, against the parser on tokens of
    [ShGrammar]: they build a heap of nodes that represents the command it
    finds, and end with the message it gives. *)

From S2P Require Import Prelude Riscv Memory CString State Printf PrintfSpec Bytes Ulib Uprintf Sh ShGrammar.

(** ** Characters *)

Lemma occurs_spec set c : 0 ∉ set → occurs set c = bool_decide (c ∈ set ∧ c ≠ 0).
Proof.
  intros H0. unfold occurs. destruct (decide (c ∈ set ∧ c ≠ 0)) as [[Hc Hz]|Hn].
  - rewrite bool_decide_true by done. apply list_elem_of_split_l in Hc as (l1 & l2 & -> & Hl1). rewrite <-app_assoc. cbn [app].
    rewrite strchr_some by set_solver. done.
  - rewrite bool_decide_false by done. destruct (decide (c = 0)) as [->|]; [|rewrite strchr_none by set_solver; done].
    clear Hn. induction set as [|x set IH]; [done|]. cbn [app strchr]. rewrite (proj2 (Z.eqb_neq x 0)) by set_solver.
    specialize (IH ltac:(set_solver)). by destruct (strchr (set ++ [0]) 0) as [[]|].
Qed.
Lemma symbols_zero : 0 ∉ symbols.
Proof. by apply (bool_decide_unpack _). Qed.
Lemma symbol_spec c : symbol c = true ↔ c ∈ symbols.
Proof. unfold symbol. rewrite occurs_spec, bool_decide_eq_true by apply symbols_zero. pose proof symbols_zero. split; [tauto|]. intros Hc. split; [done|]. by intros ->. Qed.
Lemma blank_symbol c : symbol c = true → blank c = false.
Proof.
  rewrite symbol_spec. intros Hc. apply (proj1 (Forall_forall (λ c, blank c = false) symbols)); [|done]. apply (bool_decide_unpack _). by vm_compute.
Qed.

(** ** Tokens *)

Lemma lex_word w acc s : Forall (λ c, word_char c = true) w → lex acc (w ++ s) = lex (acc ++ w) s.
Proof.
  revert acc. induction w as [|c w IH]; intros acc Hw; [by rewrite app_nil_r|]. apply Forall_cons in Hw as [Hc Hw]. cbn [app lex].
  unfold word_char in Hc. apply andb_prop in Hc as [->%negb_true_iff ->%negb_true_iff]. rewrite IH by done. by rewrite <-app_assoc.
Qed.
(** A word ends here. *)
Definition stop (s : list Z) : Prop := match s with [] => True | c :: _ => word_char c = false end.
Lemma lex_stop w s : stop s → lex w s = flush w ++ lex [] s.
Proof.
  destruct s as [|c s]; intros Hs; [by rewrite app_nil_r|]. cbn [stop lex] in *. unfold word_char in Hs. destruct (blank c); [done|]. destruct (symbol c); [done|]. done.
Qed.
Lemma lex_words w s : Forall (λ c, word_char c = true) w → w ≠ [] → stop s → lex [] (w ++ s) = Word w :: lex [] s.
Proof. intros Hw Hne Hs. rewrite lex_word by done. cbn [app]. rewrite lex_stop by done. by destruct w. Qed.
Lemma lex_blanks w s : Forall (λ c, blank c = true) w → lex [] (w ++ s) = lex [] s.
Proof. induction 1 as [|c w Hc Hw IH]; [done|]. cbn [app lex]. by rewrite Hc. Qed.
Lemma lex_symbol c s : symbol c = true → lex [] (c :: s) =
  if (c =? chr ">") && bool_decide (head s = Some (chr ">")) then Sym (chr "+") :: lex [] (tail s) else Sym c :: lex [] s.
Proof.
  intros Hc. cbn [lex]. rewrite (blank_symbol c Hc), Hc. cbn [flush app]. destruct s as [|d s]; [by rewrite andb_false_r|]. cbn [head tail].
  destruct (c =? chr ">"); [|done]. cbn [andb]. destruct (Z.eqb_spec d (chr ">")) as [->|Hd]; [by rewrite bool_decide_true|by rewrite bool_decide_false by congruence].
Qed.
Lemma lex_acc w s : w ≠ [] → ∃ w' ts, lex w s = Word w' :: ts.
Proof.
  revert w. induction s as [|d s IH]; intros w Hw; cbn [lex]; [by destruct w; eauto|].
  destruct (blank d); [destruct w; by eauto|]. destruct (symbol d); [destruct w; by eauto|]. apply IH. by destruct w.
Qed.
Lemma lex_head c s : blank c = false → lex [] (c :: s) ≠ [].
Proof.
  intros Hb. destruct (symbol c) eqn:Es; [rewrite lex_symbol by done; by case_match|]. cbn [lex]. rewrite Hb, Es. by destruct (lex_acc ([] ++ [c]) s) as (? & ? & ->).
Qed.

(** ** Scanning *)

Section text.
Context `{Malloc} (txt junk : list Z) (Htxt : 0 ∉ txt).
Notation es := (length txt).

Definition tokens (s : nat) : list token := lex [] (drop s txt).
(** The word [w] lies between [q] and [e]. *)
Record word_at (q e : nat) (w : list Z) : Prop := {
  wa_end : e = (q + length w)%nat;
  wa_in : (e ≤ es)%nat;
  wa_text : take (length w) (drop q txt) = w;
  wa_chars : Forall (λ c, word_char c = true) w;
  wa_stop : stop (drop e txt);
}.
Definition loaded (k : shst) : Prop := sh_buf k = txt ++ 0 :: junk.

Lemma char_in k s c rest : loaded k → drop s txt = c :: rest → char_at s k = Done c k ∧ (s < es)%nat ∧ drop (S s) txt = rest ∧ c ≠ 0.
Proof using Htxt.
  intros Hk Hd. assert (txt !! s = Some c) as Hs by (by rewrite <-(Nat.add_0_r s), <-lookup_drop, Hd). split_and!.
  - unfold char_at, mbind, M_bind, gets. cbn [obind]. rewrite Hk, lookup_app_l by (by eapply lookup_lt_Some). by rewrite Hs.
  - by eapply lookup_lt_Some.
  - change (S s) with (1 + s)%nat. rewrite Nat.add_comm, <-drop_drop, Hd. done.
  - intros ->. apply Htxt. by eapply list_elem_of_lookup_2.
Qed.
Lemma char_end k : loaded k → char_at es k = Done 0 k.
Proof using Type. intros Hk. unfold char_at, mbind, M_bind, gets. cbn [obind]. rewrite Hk, lookup_app_r by done. by rewrite Nat.sub_diag. Qed.
Lemma drop_end s : (s ≤ es)%nat → drop s txt = [] → s = es.
Proof using Type. intros Hs Hd. apply (f_equal length) in Hd. rewrite length_drop in Hd. cbn in Hd. lia. Qed.

(** The characters from [s] to [s'] are the longest run that satisfies [p]. *)
Record run (p : Z → bool) (s s' : nat) (w : list Z) : Prop := {
  rn_drop : drop s txt = w ++ drop s' txt;
  rn_all : Forall (λ c, p c = true) w;
  rn_end : s' = (s + length w)%nat;
  rn_in : (s' ≤ es)%nat;
  rn_stop : match drop s' txt with [] => True | c :: _ => p c = false end;
}.
Lemma skip_wp p s k : loaded k → (s ≤ es)%nat → wp (skip p es s) (λ s' k', k' = k ∧ ∃ w, run p s s' w) k.
Proof using Htxt.
  intros Hk Hs. unfold skip. apply (wp_loop _ (λ s1 k', k' = k ∧ (s1 ≤ es)%nat ∧ ∃ w, drop s txt = w ++ drop s1 txt ∧ Forall (λ c, p c = true) w ∧ s1 = (s + length w)%nat) (λ s1, es - s1)%nat).
  - lia.
  - split_and!; [done|done|]. exists []. split_and!; [done|constructor|cbn; lia].
  - intros s1 k1 (-> & Hs1 & w & Hd & Hw & El). unfold skip_body. case_decide as Hlt.
    + destruct (drop s1 txt) as [|c rest] eqn:Ed; [apply drop_end in Ed; [lia|done]|]. destruct (char_in k s1 c rest Hk Ed) as (Ec & _ & Ed' & _).
      wp_step. eapply wp_intro; [exact Ec|]. wp_step. destruct (p c) eqn:Ep.
      * split; [|lia]. split_and!; [done|lia|]. exists (w ++ [c]). rewrite Ed'. split_and!; [by rewrite <-app_assoc|by apply Forall_app; split; [|apply Forall_singleton]|rewrite length_app; cbn; lia].
      * split; [done|]. exists w. split; [by rewrite Ed|done|done|done|by rewrite Ed].
    + wp_step. split; [done|]. exists w. assert (drop s1 txt = []) as E by (apply drop_ge; lia). split; [done|done|done|done|by rewrite E].
Qed.
(** At a character that is not blank, or at the end. *)
Definition poised (s : nat) : Prop := (s ≤ es)%nat ∧ match drop s txt with [] => True | c :: _ => blank c = false end.
Lemma skip_blanks_wp s k : loaded k → (s ≤ es)%nat →
  wp (skip_blanks es s) (λ s' k', k' = k ∧ (s ≤ s')%nat ∧ poised s' ∧ tokens s' = tokens s) k.
Proof using Htxt.
  intros Hk Hs. eapply wp_mono; [by apply skip_wp|]. intros s' k' (-> & w & R). split; [done|]. split; [rewrite (rn_end _ _ _ _ R); lia|]. split; [split; apply R|].
  unfold tokens. rewrite (rn_drop _ _ _ _ R). by rewrite lex_blanks by apply R.
Qed.

(** The character that a symbol starts with. *)
Definition sym_char (x : Z) : Z := if x =? chr "+" then chr ">" else x.
Definition next_in (toks : list Z) (ts : list token) : bool := match ts with Sym x :: _ => occurs toks (sym_char x) | _ => false end.


Lemma peek_token_wp toks s k : loaded k → (s ≤ es)%nat → 0 ∉ toks → forallb symbol toks = true →
  wp (peek es toks s) (λ r k', k' = k ∧ r.1 = next_in toks (tokens s) ∧ (s ≤ r.2)%nat ∧ poised r.2 ∧ tokens r.2 = tokens s) k.
Proof using Htxt.
  intros Hk Hs H0 Ht. unfold peek. wp_step. eapply wp_mono; [by apply skip_blanks_wp|]. intros q k' (-> & Hq & [Hqe Hp] & E). rewrite <-E.
  wp_step. assert (∀ c, symbol c = false → occurs toks c = false) as Hns.
  { intros c Hc. rewrite occurs_spec by done. apply bool_decide_eq_false. intros [Hin _]. rewrite forallb_forall in Ht. rewrite Ht in Hc by (by apply list_elem_of_In). done. }
  destruct (drop q txt) as [|c rest] eqn:Ed.
  - pose proof (drop_end q Hqe Ed) as ->. eapply wp_intro; [by apply char_end|]. wp_step. cbn [fst snd]. split; [done|]. split; [unfold tokens; by rewrite Ed|].
    split; [done|]. split; [split; [done|by rewrite Ed]|done].
  - destruct (char_in k q c rest Hk Ed) as (Ec & Hlt & Ed' & Hz). eapply wp_intro; [exact Ec|]. wp_step. rewrite (proj2 (Z.eqb_neq c 0)) by done. cbn [fst snd].
    split; [done|]. split; [|split; [done|]; split; [split; [done|by rewrite Ed]|done]]. cbn [negb andb]. unfold tokens. rewrite Ed. destruct (symbol c) eqn:Es.
    + rewrite lex_symbol by done. destruct (Z.eqb_spec c (chr ">")) as [->|Hne]; cbn [andb]; [by case_match|]. cbn [next_in]. unfold sym_char.
      destruct (Z.eqb_spec c (chr "+")) as [->|]; [discriminate Es|done].
    + rewrite Hns by done. cbn [lex]. rewrite Hp, Es. by destruct (lex_acc ([] ++ [c]) rest) as (? & ? & ->).
Qed.

(** The tests of [gettoken]. *)
Lemma switch_symbol c : c ∈ symbols → c = chr ">" ∨
  (c =? 0) = false ∧ ((c =? chr "|") || (c =? chr "(") || (c =? chr ")") || (c =? chr ";") || (c =? chr "&") || (c =? chr "<")) = true ∧ (c =? chr ">") = false.
Proof using Type.
  intros Hc. destruct (decide (c = chr ">")) as [->|Hne]; [by left|right]. change symbols with [60; 124; 62; 38; 59; 40; 41] in Hc.
  repeat (apply elem_of_cons in Hc as [->|Hc]; [by vm_compute + by destruct Hne|]). by apply elem_of_nil in Hc.
Qed.
Lemma switch_other c : c ∉ symbols →
  ((c =? chr "|") || (c =? chr "(") || (c =? chr ")") || (c =? chr ";") || (c =? chr "&") || (c =? chr "<")) = false ∧ (c =? chr ">") = false.
Proof using Type.
  intros Hc. assert (∀ s, chr s ∈ symbols → (c =? chr s) = false) as Hn by (intros s Hs; apply Z.eqb_neq; by intros ->).
  rewrite !Hn by (by apply (bool_decide_unpack _)). done.
Qed.

(** What [gettoken] returns for the tokens that are left. *)
Definition got (s : nat) (ts : list token) (ret : Z) (q e s' : nat) : Prop :=
  (s' ≤ es)%nat ∧
  match ts with
  | [] => ret = 0 ∧ tokens s' = []
  | Sym x :: ts' => ret = x ∧ tokens s' = ts' ∧ (s < s')%nat
  | Word w :: ts' => ret = chr "a" ∧ word_at q e w ∧ tokens s' = ts' ∧ (s < s')%nat
  end.

Lemma switch_wp q k : loaded k → poised q →
  wp (switch_token es q) (λ r k', k' = k ∧ (r.2 ≤ es)%nat ∧
    match tokens q with
    | [] => r.1 = 0 ∧ tokens r.2 = []
    | Sym x :: ts' => r.1 = x ∧ tokens r.2 = ts' ∧ (q < r.2)%nat
    | Word w :: ts' => r.1 = chr "a" ∧ word_at q r.2 w ∧ tokens r.2 = ts' ∧ (q < r.2)%nat
    end) k.
Proof using Htxt.
  intros Hk [Hq Hp]. unfold switch_token. wp_step. unfold tokens at 1. destruct (drop q txt) as [|c rest] eqn:Ed.
  { rewrite (drop_end q Hq Ed). eapply wp_intro; [by apply char_end|]. change (0 =? 0) with true. cbv iota. wp_step. cbn [fst snd lex flush].
    split_and!; [done|lia|done|]. unfold tokens. by rewrite drop_all. }
  destruct (char_in k q c rest Hk Ed) as (Ec & Hlt & Ed' & Hz). eapply wp_intro; [exact Ec|]. rewrite (proj2 (Z.eqb_neq c 0)) by done.
  destruct (symbol c) eqn:Es.
  - rewrite lex_symbol by done. apply symbol_spec in Es. destruct (switch_symbol c Es) as [->|(_ & -> & ->)].
    + change (((chr ">" =? chr "|") || _ || _ || _ || _ || _)) with false. change (chr ">" =? chr ">") with true. cbv iota. cbn [andb]. destruct rest as [|d rest].
      * pose proof (drop_end (S q) ltac:(lia) Ed') as Eq. rewrite Eq. wp_step. eapply wp_intro; [by apply char_end|]. wp_step.
        change (0 =? chr ">") with false. cbv iota. cbn [fst snd head]. rewrite bool_decide_false by done. split_and!; [done|lia|done| |lia].
        unfold tokens. by rewrite drop_all.
      * destruct (char_in k (S q) d rest Hk Ed') as (Ec' & Hlt' & Ed'' & _). wp_step. eapply wp_intro; [exact Ec'|]. wp_step. cbn [head].
        destruct (Z.eqb_spec d (chr ">")) as [->|Hd]; cbn [fst snd tail]; [rewrite bool_decide_true by done|rewrite bool_decide_false by congruence];
          unfold tokens; (split_and!; [done|lia|done| |lia]); [by rewrite Ed''|by rewrite Ed'].
    + cbn [andb]. wp_step. cbn [fst snd]. unfold tokens. by split_and!; [done|lia|done|rewrite Ed'|lia].
  - assert (c ∉ symbols) as Hns by (rewrite <-symbol_spec; congruence). destruct (switch_other c Hns) as [-> ->]. wp_step.
    eapply wp_mono; [by apply (skip_wp word_char)|]. intros e k' (-> & w & [R1 R2 R3 R4 R5]). wp_step. cbn [fst snd].
    assert (w ≠ []) as Hw.
    { intros ->. cbn in R1. rewrite Nat.add_0_r in R3. rewrite R3, Ed in R5. unfold word_char in R5. by rewrite Hp, Es in R5. }
    rewrite <-Ed, R1. rewrite lex_words by done. split_and!; [done|done|done| |done|destruct w; cbn in *; [done|lia]].
    split; [done|done|by rewrite R1, take_app_length|done|done].
Qed.

Lemma gettoken_wp s k : loaded k → (s ≤ es)%nat → wp (gettoken es s) (λ r k', k' = k ∧ got s (tokens s) r.1.1.1 r.1.1.2 r.1.2 r.2) k.
Proof using Htxt.
  intros Hk Hs. unfold gettoken. wp_step. eapply wp_mono; [by apply skip_blanks_wp|]. intros q k' (-> & Hsq & Hp & Et). rewrite <-Et.
  wp_step. eapply wp_mono; [by apply switch_wp|]. intros [ret e] k' (-> & He & Hm). cbn [fst snd] in *.
  wp_step. eapply wp_mono; [by apply skip_blanks_wp|]. intros s' k' (-> & Hes & [Hs' _] & Et'). wp_step. cbn [fst snd]. split; [done|]. split; [done|].
  rewrite Et'. destruct (tokens q) as [|[w|x] ts]; [done| |]; intuition lia.
Qed.
End text.
