(* ===== verification/ShTree.v ===== *)
(** * The command tree that the shell builds

    Heaps of nodes as commands; [parseline] and the routines it calls build
    the command that the parser on tokens finds. *)

From S2P Require Import Prelude Riscv Memory CString State Printf PrintfSpec Bytes Ulib Uprintf Sh ShGrammar ShParse.

(** ** Representation *)

(** The arrays of an [execcmd] with the words [ws]; [W q e w] says that the word
    [w] is at [q] and ends at [e]. *)
Record args_rep (W : nat → nat → list Z → Prop) (argv eargv : list (option nat)) (ws : list (list Z)) : Prop := {
  ar_argv : length argv = MAXARGS;
  ar_eargv : length eargv = MAXARGS;
  ar_words : ∀ i w, ws !! i = Some w → ∃ q e, argv !! i = Some (Some q) ∧ eargv !! i = Some (Some e) ∧ W q e w;
  ar_null : ∀ i, (length ws ≤ i < MAXARGS)%nat → argv !! i = Some None;
}.
Fixpoint rep (W : nat → nat → list Z → Prop) (h : gmap Z node) (p : Z) (c : cmd) : Prop :=
  p ≠ 0 ∧
  match c with
  | Exec ws => (length ws < MAXARGS)%nat ∧ ∃ argv eargv, h !! p = Some (Execcmd argv eargv) ∧ args_rep W argv eargv ws
  | Redir c r => ∃ sub q e, h !! p = Some (Redircmd sub q e (r_mode r) (r_fd r)) ∧ W q e (r_file r) ∧ rep W h sub c
  | ShGrammar.Pipe c1 c2 => ∃ p1 p2, h !! p = Some (Pipecmd p1 p2) ∧ rep W h p1 c1 ∧ rep W h p2 c2
  | ShGrammar.List c1 c2 => ∃ p1 p2, h !! p = Some (Listcmd p1 p2) ∧ rep W h p1 c1 ∧ rep W h p2 c2
  | Back c => ∃ sub, h !! p = Some (Backcmd sub) ∧ rep W h sub c
  end.

Lemma args_rep_mono (W W' : nat → nat → list Z → Prop) argv eargv ws :
  (∀ q e w, W q e w → W' q e w) → args_rep W argv eargv ws → args_rep W' argv eargv ws.
Proof. intros HW [H1 H2 H3 H4]. split; [done|done| |done]. intros i w (q & e & ? & ? & ?)%H3. exists q, e. split_and!; [done|done|by apply HW]. Qed.
Lemma rep_mono (W W' : nat → nat → list Z → Prop) h h' p c :
  (∀ q e w, W q e w → W' q e w) → h ⊆ h' → rep W h p c → rep W' h' p c.
Proof.
  intros HW Hh. assert (∀ p n, h !! p = Some n → h' !! p = Some n) as Hl by (intros; by eapply lookup_weaken). revert p.
  induction c as [ws|c IH r|c1 IH1 c2 IH2|c1 IH1 c2 IH2|c IH]; intros p; cbn [rep]; intros [Hp Hc]; (split; [done|]).
  - destruct Hc as (Hn & argv & eargv & Hq & Ha). split; [done|]. exists argv, eargv. split; [by apply Hl|by eapply args_rep_mono].
  - destruct Hc as (sub & q & e & Hq & Hw & Hs). exists sub, q, e. split_and!; [by apply Hl|by apply HW|by apply IH].
  - destruct Hc as (p1 & p2 & Hq & Hs1 & Hs2). exists p1, p2. split_and!; [by apply Hl|by apply IH1|by apply IH2].
  - destruct Hc as (p1 & p2 & Hq & Hs1 & Hs2). exists p1, p2. split_and!; [by apply Hl|by apply IH1|by apply IH2].
  - destruct Hc as (sub & Hq & Hs). exists sub. split; [by apply Hl|by apply IH].
Qed.

(** [p'] is [p] with the redirections [rs] around it. *)
Inductive chain (W : nat → nat → list Z → Prop) (h : gmap Z node) (p : Z) : list redir → Z → Prop :=
| ch_nil : chain W h p [] p
| ch_snoc rs r sub p' q e : chain W h p rs sub → p' ≠ 0 → h !! p' = Some (Redircmd sub q e (r_mode r) (r_fd r)) → W q e (r_file r) →
    chain W h p (rs ++ [r]) p'.
Lemma chain_rep W h p rs p' c : rep W h p c → chain W h p rs p' → rep W h p' (wrap c rs).
Proof.
  intros Hc. induction 1 as [|rs r sub p' q e _ IH Hp Hq Hw]; [done|]. unfold wrap. rewrite foldl_app. cbn. split; [done|]. by exists sub, q, e.
Qed.
Lemma redirs_chain_app W h p rs p' rs' p'' : chain W h p rs p' → chain W h p' rs' p'' → chain W h p (rs ++ rs') p''.
Proof.
  intros H1. induction 1 as [|rs' r sub p'' q e _ IH Hp Hq Hw]; [by rewrite app_nil_r|]. rewrite app_assoc. by eapply ch_snoc.
Qed.
(** Growing the heap, and changing an [execcmd]. *)
Lemma redirs_chain_mono W h h' p rs p' : (∀ p n, (∀ a b, n ≠ Execcmd a b) → h !! p = Some n → h' !! p = Some n) → chain W h p rs p' → chain W h' p rs p'.
Proof. intros Hh. induction 1; econstructor; eauto. Qed.

(** ** Running the parser *)

(** [m] run from [k] ends as [r] does: with a value related by [Q], or with the
    message of [r] on descriptor 2 of [u]. *)
Definition said (u : uio) (msg : string) (u' : uio) : Prop :=
  streams u' = streams u ∧ ∀ fd, output fd u' = output fd u ++ (if decide (2 = fd) then bytes_of (line msg) else []).
Definition sim {A B} (u : uio) (r : res B) (m : M shst A) (Q : A → B → list token → shst → Prop) (k : shst) : Prop :=
  match m k with
  | Done a k' => ∃ b ts, r = Ok b ts ∧ Q a b ts k'
  | Exited k' => ∃ msg, r = Err msg ∧ said u msg (sh_io k')
  | _ => r = Stuck
  end.

Lemma sim_bind {A B A' B'} u (r : res B) (m : M shst A) (Q : A → B → list token → shst → Prop) (f : B → list token → res B') (g : A → M shst A') Q' k :
  sim u r m Q k → (∀ a b ts k', r = Ok b ts → Q a b ts k' → sim u (f b ts) (g a) Q' k') → sim u (rbind r f) (m ≫= g) Q' k.
Proof.
  unfold sim, mbind, M_bind. intros Hm Hf. destruct (m k); cbn [obind]; try (by rewrite Hm).
  - destruct Hm as (b & ts & -> & Hq). by apply Hf.
  - destruct Hm as (msg & -> & Hs). by exists msg.
Qed.
Lemma sim_wp {A B A'} u (r : res B) (m : M shst A) P (g : A → M shst A') (Q : A' → B → list token → shst → Prop) k :
  wp m P k → (∀ a k', P a k' → sim u r (g a) Q k') → sim u r (m ≫= g) Q k.
Proof. intros (a & k' & E & HP)%wp_elim Hf. unfold sim, mbind, M_bind. rewrite E. cbn [obind]. by apply Hf. Qed.
Lemma sim_rbind {A B B'} u (r : res B) (m : M shst A) (Q : A → B → list token → shst → Prop) (f : B → list token → res B') Q' k :
  sim u r m Q k → (∀ a b ts k', Q a b ts k' → ∃ b' ts', f b ts = Ok b' ts' ∧ Q' a b' ts' k') → sim u (rbind r f) m Q' k.
Proof.
  unfold sim. intros Hm Hf. destruct (m k); try (by rewrite Hm); destruct Hm as (x & ? & Hm); [|by subst; exists x].
  destruct Hm as [-> HQ]. by apply Hf.
Qed.
Lemma sim_assoc {A B C A'} u (r : res B) (m : M shst A) (g : A → M shst C) (h : C → M shst A') (Q : A' → B → list token → shst → Prop) k :
  sim u r (m ≫= λ x, g x ≫= h) Q k → sim u r ((m ≫= g) ≫= h) Q k.
Proof. unfold sim, mbind, M_bind. by destruct (m k). Qed.
Lemma sim_ret_bind {A B A'} u (r : res B) (a : A) (g : A → M shst A') (Q : A' → B → list token → shst → Prop) k :
  sim u r (g a) Q k → sim u r (mret a ≫= g) Q k.
Proof. done. Qed.
Lemma sim_ret {A B} u (a : A) (b : B) ts (Q : A → B → list token → shst → Prop) k : Q a b ts k → sim u (Ok b ts) (mret a) Q k.
Proof. intros HQ. exists b, ts. done. Qed.
Lemma sim_mono {A B} u (r : res B) (m : M shst A) (Q Q' : A → B → list token → shst → Prop) k :
  sim u r m Q k → (∀ a b ts k', Q a b ts k' → Q' a b ts k') → sim u r m Q' k.
Proof. unfold sim. destruct (m k); try done. intros (b & ts & -> & HQ) HQ'. exists b, ts. split; [done|by apply HQ']. Qed.
Lemma fprintf_io fd fmt ap l k : Forall is_byte (bytes_of fmt) → Forall arg_ok ap → text (bytes_of fmt) ap = Some l →
  ∃ u', io (fprintf fd fmt ap) k = Done tt (Sh (sh_buf k) (sh_heap k) (sh_count k) u') ∧ streams u' = streams (sh_io k) ∧
    ∀ fd', output fd' u' = output fd' (sh_io k) ++ (if decide (fd = fd') then l else []).
Proof.
  intros Hf Ha Ht. destruct (fprintf_wp fd fmt ap l (sh_io k) Hf Ha Ht) as (u' & E & H1 & _ & H2). exists u'. split; [|done]. unfold io, zoom. by rewrite E.
Qed.
Lemma panic_said {A} s k : ∃ k', Sh.panic (A := A) s k = Exited k' ∧ said (sh_io k) s (sh_io k').
Proof.
  destruct (fprintf_io 2 (line "%s") [PStr (Some (bytes_of s))] (bytes_of (line s)) k) as (u' & E & Hs & Ho).
  { apply bytes_of_ok. }
  { apply Forall_singleton. apply bytes_of_ok. }
  { rewrite (bytes_of_line s). reflexivity. }
  eexists. split; [unfold Sh.panic, mbind, M_bind; by rewrite E|]. done.
Qed.
Lemma sim_panic {A B C} u s (g : C → M shst A) (Q : A → B → list token → shst → Prop) k : sh_io k = u → sim u (Err s) (Sh.panic s ≫= g) Q k.
Proof. intros <-. destruct (panic_said (A := C) s k) as (k' & E & Hs). unfold sim, mbind, M_bind. rewrite E. by exists s. Qed.

Definition plain (t : token) : Prop := match t with Sym x => x ∈ chr "+" :: symbols | Word _ => True end.
Lemma lex_plain w s : Forall plain (lex w s).
Proof.
  assert (∀ w, Forall plain (flush w)) as Hf by (intros []; repeat constructor).
  remember (length s) as n eqn:Hn. assert (length s ≤ n)%nat as Hle by lia. clear Hn. revert w s Hle.
  induction n as [|n IH]; intros w [|c s] Hle; cbn [length] in Hle; try lia; cbn [lex]; try apply Hf.
  destruct (blank c); [apply Forall_app; split; [apply Hf|apply IH; lia]|]. destruct (symbol c) eqn:Es; [|apply IH; lia].
  apply symbol_spec in Es. apply Forall_app. split; [apply Hf|]. assert (plain (Sym c)) by by right.
  destruct s as [|c' s]; [by apply Forall_singleton|]. cbn [length] in Hle. destruct (_ && _); (apply Forall_cons; split; [done || by left|apply IH; cbn [length]; lia]).
Qed.
Lemma plain_sym x : plain (Sym x) → x ≠ chr "a" ∧ x ≠ 0.
Proof.
  cbn. revert x. apply Forall_forall. apply (bool_decide_unpack _). by vm_compute.
Qed.
Lemma redir_next x w : is_Some (redir_of x w) ↔ occurs (bytes_of "<>") (sym_char x) = true.
Proof.
  rewrite occurs_spec by (by apply (bool_decide_unpack _)). rewrite bool_decide_eq_true. change (bytes_of "<>") with [60; 62]. unfold redir_of, sym_char.
  change (chr "<") with 60. change (chr ">") with 62. change (chr "+") with 43. destruct (Z.eqb_spec x 60); [subst; cbn; set_solver|].
  destruct (Z.eqb_spec x 62); [subst; cbn; set_solver|]. destruct (Z.eqb_spec x 43); [set_solver|]. split; [by intros [? ?]|set_solver].
Qed.

Section tree.
Context `{Malloc} (txt junk : list Z) (Htxt : 0 ∉ txt) (u : uio).
Notation es := (length txt).
Notation tokens := (tokens txt).
Notation word_at := (word_at txt).

Record ready (k : shst) : Prop := {
  rd_loaded : loaded txt junk k;
  rd_io : sh_io k = u;
  rd_fresh : ∀ i, (sh_count k ≤ i)%nat → sh_heap k !! malloc i = None;
}.

Lemma new_wp n k (Q : Z → shst → Prop) : ready k →
  (∀ p k', ready k' → sh_heap k ⊆ sh_heap k' → p ≠ 0 → sh_heap k !! p = None → sh_heap k' !! p = Some n → Q p k') → wp (new n) Q k.
Proof using Type.
  intros [H1 H2 H3] HQ. unfold new. wp_steps. apply HQ; cbn.
  - split; [done|done|]. cbn. intros i Hi. rewrite lookup_insert_ne; [apply H3; lia|]. intros E%malloc_inj. lia.
  - apply insert_subseteq. apply H3. lia.
  - apply malloc_null.
  - apply H3. lia.
  - apply lookup_insert_eq.
Qed.

Lemma gettoken_sim {A B} s k (r : res B) (g : Z * nat * nat * nat → M shst A) (Q : A → B → list token → shst → Prop) :
  ready k → (s ≤ es)%nat → (∀ ret q e s', got txt s (tokens s) ret q e s' → sim u r (g (ret, q, e, s')) Q k) → sim u r (gettoken es s ≫= g) Q k.
Proof using Htxt. intros Hk Hs Hg. eapply sim_wp; [exact (gettoken_wp txt junk Htxt s k (rd_loaded _ Hk) Hs)|]. intros [[[ret q] e] s'] k' [-> Hgot]. by apply Hg. Qed.
Lemma peek_sim {A B} toks s k (r : res B) (g : bool * nat → M shst A) (Q : A → B → list token → shst → Prop) :
  ready k → (s ≤ es)%nat → 0 ∉ bytes_of toks → forallb symbol (bytes_of toks) = true →
  (∀ s', (s ≤ s' ≤ es)%nat → poised txt s' → tokens s' = tokens s → sim u r (g (next_in (bytes_of toks) (tokens s), s')) Q k) → sim u r (peek es (bytes_of toks) s ≫= g) Q k.
Proof using Htxt.
  intros Hk Hs H0 Ht Hg. eapply sim_wp; [exact (peek_token_wp txt junk Htxt (bytes_of toks) s k (rd_loaded _ Hk) Hs H0 Ht)|]. intros [b s'] k' (-> & Hb & Hle & Hp & E). cbn [fst snd] in *. subst b. apply Hg; [destruct Hp; lia|done|done].
Qed.

(** ** Redirections *)

Lemma redircmd_wp p x w r q e k (Q : Z → shst → Prop) : redir_of x w = Some r → wp (redircmd p q e (r_mode r) (r_fd r)) Q k →
  wp (if x =? chr "<" then redircmd p q e O_RDONLY 0
      else if x =? chr ">" then redircmd p q e (Z.lor (Z.lor O_WRONLY O_CREATE) O_TRUNC) 1
      else if x =? chr "+" then redircmd p q e (Z.lor O_WRONLY O_CREATE) 1 else mret p) Q k.
Proof using Type. unfold redir_of. intros Hr. repeat case_match; simplify_eq/=; done. Qed.
Lemma redir_file x w r : redir_of x w = Some r → r_file r = w.
Proof using Type. unfold redir_of. intros Hr. repeat case_match; by simplify_eq/=. Qed.

Lemma predirs_none ts : next_in (bytes_of "<>") ts = false → predirs ts = Ok [] ts.
Proof using Type.
  destruct ts as [|[w|x] ts]; cbn [next_in predirs]; [done|done|]. intros Hn. destruct (redir_of x []) eqn:E; [|done].
  by rewrite (proj1 (redir_next x [])) in Hn.
Qed.
Lemma predirs_some ts : next_in (bytes_of "<>") ts = true → ∃ x ts1, ts = Sym x :: ts1 ∧ (∀ w, is_Some (redir_of x w)).
Proof using Type.
  destruct ts as [|[w|x] ts]; cbn [next_in]; [done|done|]. intros Hn. exists x, ts. split; [done|]. intros w. by apply redir_next.
Qed.

Lemma redirs_loop f : ∀ s p k, ready k → (s ≤ es)%nat → (es - s < f)%nat →
  sim u (predirs (tokens s)) (loopM f (redirs_body es) (p, s))
    (λ x rs ts k', ready k' ∧ sh_heap k ⊆ sh_heap k' ∧ chain word_at (sh_heap k') p rs x.1 ∧ (s ≤ x.2 ≤ es)%nat ∧ tokens x.2 = ts) k.
Proof using Htxt.
  induction f as [|f IH]; intros s p k Hk Hs Hf; [lia|]. cbn [loopM]. unfold redirs_body at 1. apply sim_assoc.
  apply peek_sim; [done|done|by apply (bool_decide_unpack _)|by vm_compute|]. intros s1 Hs1 Hp1 Et1. cbv beta iota. destruct (next_in _ (tokens s)) eqn:En; cbn [negb].
  2:{ rewrite predirs_none by done. apply sim_ret_bind, sim_ret. cbn [fst snd]. split_and!; [done|done|constructor|lia|lia|done]. }
  destruct (predirs_some _ En) as (x & ts1 & Ets & Hx). rewrite Ets. cbn [predirs]. destruct (Hx []) as [r0 ->]. apply sim_assoc, gettoken_sim; [done|lia|].
  rewrite Et1, Ets. intros ret q0 e0 s2 (Hs2 & -> & Et2 & Hlt). cbv beta iota. apply sim_assoc, gettoken_sim; [done|lia|]. rewrite Et2.
  intros t q e s3 (Hs3 & Hg). cbv beta iota. pose proof (lex_plain [] (drop s2 txt)) as Hpl. change (lex [] (drop s2 txt)) with (tokens s2) in Hpl. rewrite Et2 in Hpl.
  destruct ts1 as [|[w|y] ts1].
  - destruct Hg as [-> _]. change (negb (0 =? chr "a")) with true. by apply sim_panic, Hk.
  - destruct Hg as (-> & Hw & Et3 & Hlt3). change (negb (chr "a" =? chr "a")) with false. cbv iota. destruct (Hx w) as [r Hr].
    apply sim_assoc. eapply sim_wp; [eapply redircmd_wp; [exact Hr|]; apply (new_wp _ k (λ p1 k1, ready k1 ∧ sh_heap k ⊆ sh_heap k1 ∧ chain word_at (sh_heap k1) p [r] p1)); [done|]|].
    { intros p1 k1 Hk1 Hsub Hp _ Hl. split_and!; [done|done|]. apply (ch_snoc _ _ _ [] r p p1 q e); [constructor|done|done|]. by rewrite (redir_file _ _ _ Hr). }
    intros p1 k1 (Hk1 & Hsub & Hc). apply sim_ret_bind. cbv beta iota. rewrite <-Et3. eapply sim_rbind; [apply (IH s3 p1 k1); [done|lia|lia]|].
    intros [p2 s4] rs ts k' (H1 & H2 & H3 & H4 & H5). rewrite Hr. eexists _, _. split; [done|]. cbn [fst snd] in *. split; [done|]. split; [by etrans|]. split; [|split; [lia|done]].
    change (r :: rs) with ([r] ++ rs). eapply redirs_chain_app; [|exact H3]. eapply redirs_chain_mono; [|exact Hc]. intros p0 n _ Hp0. by eapply lookup_weaken.
  - destruct Hg as (-> & _ & _). apply Forall_cons in Hpl as [Hy _]. destruct (plain_sym y Hy) as [Hya _]. rewrite (proj2 (Z.eqb_neq y (chr "a"))) by done. by apply sim_panic, Hk.
Qed.
Lemma parseredirs_sim s p k : ready k → (s ≤ es)%nat →
  sim u (predirs (tokens s)) (parseredirs es p s)
    (λ x rs ts k', ready k' ∧ sh_heap k ⊆ sh_heap k' ∧ chain word_at (sh_heap k') p rs x.1 ∧ (s ≤ x.2 ≤ es)%nat ∧ tokens x.2 = ts) k.
Proof using Htxt. intros Hk Hs. apply redirs_loop; [done|done|lia]. Qed.

(** ** Simple commands *)

Lemma set_arg_wp cmd argv eargv argc q e k (Q : unit → shst → Prop) : sh_heap k !! cmd = Some (Execcmd argv eargv) → (argc < MAXARGS)%nat →
  Q tt (upd_sh_heap (<[cmd := Execcmd (<[argc := q]> argv) (<[argc := e]> eargv)]>) k) → wp (set_arg cmd argc q e) Q k.
Proof using Type. intros Hl Ha HQ. unfold set_arg. wp_steps. rewrite Hl, decide_True by done. by wp_step. Qed.
Lemma ready_set k cmd n : ready k → is_Some (sh_heap k !! cmd) → ready (upd_sh_heap (<[cmd := n]>) k).
Proof using Type.
  intros [H1 H2 H3] [n0 Hn0]. split; [done|done|]. cbn. intros i Hi. rewrite lookup_insert_ne; [by apply H3|]. intros ->. by rewrite H3 in Hn0.
Qed.
Lemma args_rep_snoc W argv eargv ws q e w : args_rep W argv eargv ws → (length ws < MAXARGS)%nat → W q e w →
  args_rep W (<[length ws := Some q]> argv) (<[length ws := Some e]> eargv) (ws ++ [w]).
Proof using Type.
  intros [H1 H2 H3 H4] Hl Hw. split; [by rewrite length_insert|by rewrite length_insert| |].
  - intros i w0 [Hi|[Hi E]]%lookup_app_Some.
    + apply lookup_lt_Some in Hi as Hlt. rewrite !list_lookup_insert_ne by lia. by apply H3.
    + apply list_lookup_singleton_Some in E as [E <-]. replace i with (length ws) by lia. exists q, e. rewrite !list_lookup_insert_eq by lia. done.
  - intros i Hi. rewrite length_app in Hi. cbn in Hi. rewrite list_lookup_insert_ne by lia. apply H4. lia.
Qed.
Lemma args_rep_nil W : args_rep W (replicate MAXARGS None) (replicate MAXARGS None) [].
Proof using Type. split; [by rewrite length_replicate|by rewrite length_replicate|done|]. intros i Hi. apply lookup_replicate_2. lia. Qed.
(** [cmd->argv[argc] = 0; cmd->eargv[argc] = 0]. *)
Lemma args_rep_end W argv eargv ws : args_rep W argv eargv ws → args_rep W (<[length ws := None]> argv) (<[length ws := None]> eargv) ws.
Proof using Type.
  intros [H1 H2 H3 H4]. split; [by rewrite length_insert|by rewrite length_insert| |].
  - intros i w Hi. apply lookup_lt_Some in Hi as Hlt. rewrite !list_lookup_insert_ne by lia. by apply H3.
  - intros i Hi. destruct (decide (i = length ws)) as [->|]; [by rewrite list_lookup_insert_eq by lia|]. rewrite list_lookup_insert_ne by lia. by apply H4.
Qed.

Lemma rbind_assoc {A B C} (r : res A) (f : A → list token → res B) (g : B → list token → res C) :
  rbind (rbind r f) g = rbind r (λ a ts, rbind (f a ts) g).
Proof using Type. by destruct r. Qed.
Lemma rbind_ext {A B} (r : res A) (f g : A → list token → res B) : (∀ a ts, f a ts = g a ts) → rbind r f = rbind r g.
Proof using Type. destruct r; cbn; auto. Qed.
Lemma pitems_split argc ts : pitems argc ts = rbind (predirs ts) (λ rs ts, rbind (pitems argc ts) (λ x ts, Ok (x.1, rs ++ x.2) ts)).
Proof using Type.
  remember (length ts) as n eqn:Hn. assert (length ts ≤ n)%nat as Hle by lia. clear Hn. revert ts Hle.
  assert (∀ ts, pitems argc ts = rbind (pitems argc ts) (λ x ts, Ok (x.1, [] ++ x.2) ts)) as Hid by (intros ts; by destruct (pitems argc ts) as [[]| |]).
  induction n as [|n IH]; intros [|[w|x] ts] Hle; cbn [length] in Hle; try lia; try (cbn [predirs rbind]; apply Hid).
  cbn [predirs]. destruct (redir_of x []) eqn:E; [|cbn [rbind]; apply Hid]. cbn [pitems]. rewrite E. destruct ts as [|[w|] ts]; cbn [length] in Hle; [done| |done].
  rewrite IH by lia. rewrite !rbind_assoc. apply rbind_ext. intros rs ts1. destruct (redir_of x w) as [r1|] eqn:Er.
  - cbn [rbind]. rewrite rbind_assoc. apply rbind_ext. done.
  - by destruct (redir_of_any x [] w) as [? ?]; [by eexists|congruence].
Qed.
Lemma predirs_stop ts rs ts' : predirs ts = Ok rs ts' → next_in (bytes_of "<>") ts' = false.
Proof using Type.
  remember (length ts) as n eqn:Hn. assert (length ts ≤ n)%nat as Hle by lia. clear Hn. revert ts rs Hle.
  induction n as [|n IH]; intros [|[w|x] ts] rs Hle; cbn [length] in Hle; try lia; cbn [predirs]; try (by intros [= <- <-]).
  destruct (redir_of x []) eqn:E.
  - destruct ts as [|[w|] ts]; cbn [length] in Hle; [done| |done]. intros (rs1 & ts1 & H1 & H2)%rbind_ok. destruct (redir_of x w); [|done]. injection H2 as <- <-.
    eapply IH; [|exact H1]. lia.
  - intros [= <- <-]. cbn [next_in]. apply not_true_iff_false. intros [? ?]%(redir_next x []). congruence.
Qed.

(** The state of the loop over the arguments. *)
Definition args_post (cmd ret : Z) (ws : list (list Z)) (h : gmap Z node) (x : nat * Z * nat) (y : list (list Z) * list redir) (ts : list token) (k' : shst) : Prop :=
  ready k' ∧ delete cmd h ⊆ sh_heap k' ∧ chain word_at (sh_heap k') ret y.2 x.1.2 ∧ (x.2 ≤ es)%nat ∧ tokens x.2 = ts ∧
  x.1.1 = length (ws ++ y.1) ∧ (length (ws ++ y.1) < MAXARGS)%nat ∧
  ∃ argv eargv, sh_heap k' !! cmd = Some (Execcmd argv eargv) ∧ args_rep word_at argv eargv (ws ++ y.1).
Lemma chain_but cmd argv eargv h h' p rs p' : h !! cmd = Some (Execcmd argv eargv) → delete cmd h ⊆ h' → chain word_at h p rs p' → chain word_at h' p rs p'.
Proof using Type.
  intros Hc Hs. apply redirs_chain_mono. intros p0 n Hn Hp0. eapply lookup_weaken; [|exact Hs]. rewrite lookup_delete_ne; [done|]. intros ->. rewrite Hc in Hp0. simplify_eq. by eapply Hn.
Qed.
Lemma stops_next x : redir_of x [] = None → occurs (bytes_of "|)&;") (sym_char x) = stops x.
Proof using Type.
  intros Hr. unfold sym_char, stops. destruct (Z.eqb_spec x (chr "+")) as [->|]; [discriminate Hr|done].
Qed.

Lemma args_loop cmd f : ∀ s ret ws k argv eargv, ready k → (s ≤ es)%nat → (es - s < f)%nat → next_in (bytes_of "<>") (tokens s) = false →
  sh_heap k !! cmd = Some (Execcmd argv eargv) → args_rep word_at argv eargv ws → (length ws < MAXARGS)%nat →
  sim u (pitems (length ws) (tokens s)) (loopM f (args_body es cmd) (length ws, ret, s)) (args_post cmd ret ws (sh_heap k)) k.
Proof using Htxt.
  induction f as [|f IH]; intros s ret ws k argv eargv Hk Hs Hf Hn Hc Har Hl; [lia|]. cbn [loopM]. unfold args_body at 1. apply sim_assoc.
  apply peek_sim; [done|done|by apply (bool_decide_unpack _)|by vm_compute|]. intros s1 Hs1 Hp1 Et1. cbv beta iota.
  assert (∀ ts s2, (s2 ≤ es)%nat → tokens s2 = ts → sim u (Ok ([], []) ts) (mret (length ws, ret, s2)) (args_post cmd ret ws (sh_heap k)) k) as Hend.
  { intros ts s2 Hs2 Et2. apply sim_ret. unfold args_post. cbn [fst snd]. rewrite app_nil_r.
    split_and!; [done|apply delete_subseteq|constructor|done|done|done|done|by exists argv, eargv]. }
  pose proof (lex_plain [] (drop s txt)) as Hpl. change (lex [] (drop s txt)) with (tokens s) in Hpl. rewrite <-Et1 in Hpl.
  destruct (tokens s) as [|[w|x] ts] eqn:Ets; cbn [next_in].
  - apply sim_assoc, gettoken_sim; [done|lia|]. rewrite Et1. intros t q e s2 (Hs2 & -> & Et2). cbv beta iota. change (0 =? 0) with true. cbv iota.
    apply sim_ret_bind. by apply Hend.
  - apply sim_assoc, gettoken_sim; [done|lia|]. rewrite Et1. intros t q e s2 (Hs2 & -> & Hw & Et2 & Hlt). cbv beta iota.
    change (chr "a" =? 0) with false. change (negb (chr "a" =? chr "a")) with false. cbv iota. apply sim_assoc.
    eapply sim_wp; [apply (set_arg_wp cmd argv eargv (length ws) (Some q) (Some e) k (λ _ k1, k1 = upd_sh_heap (<[cmd := Execcmd (<[length ws := Some q]> argv) (<[length ws := Some e]> eargv)]>) k)); done|].
    intros _ k1 ->. cbn [pitems]. case_decide as Hmax; [by apply sim_panic, Hk|]. apply sim_assoc.
    set (k1 := upd_sh_heap _ k). assert (ready k1) as Hk1 by (apply ready_set; [done|by eexists]). rewrite <-Et2, pitems_split, rbind_assoc.
    eapply sim_bind; [by apply parseredirs_sim|]. intros [ret1 s3] rs ts1 k2 Epr (Hk2 & Hsub & Hch & Hs3 & Et3). cbn [fst snd] in *.
    apply sim_ret_bind. cbv beta iota. rewrite <-Et3 in *. rewrite rbind_assoc.
    assert (sh_heap k2 !! cmd = Some (Execcmd (<[length ws := Some q]> argv) (<[length ws := Some e]> eargv))) as Hc2
      by (eapply lookup_weaken; [apply lookup_insert_eq|exact Hsub]).
    pose proof (IH s3 ret1 (ws ++ [w]) k2 _ _ Hk2 (proj2 Hs3) ltac:(lia) (predirs_stop _ _ _ Epr) Hc2 (args_rep_snoc _ _ _ _ _ _ _ Har Hl Hw)) as IH'.
    rewrite length_app in IH'. cbn [length] in IH'. rewrite Nat.add_1_r in IH'. eapply sim_rbind; [apply IH'; lia|].
    intros [[argc ret2] s4] [ws' rs'] ts' k3 (P1 & P2 & P3 & P4 & P5 & P6 & P7 & P8). cbn [fst snd rbind] in *. eexists _, _. split; [done|]. unfold args_post. cbn [fst snd].
    rewrite <-app_assoc in P6, P7, P8. split_and!; [done| | |done|done|done|done|done].
    + etrans; [|exact P2]. rewrite <-(delete_insert_eq (sh_heap k) cmd (Execcmd (<[length ws := Some q]> argv) (<[length ws := Some e]> eargv))). by apply delete_mono.
    + eapply redirs_chain_app; [|exact P3]. by eapply chain_but.
  - cbn [next_in] in Hn. cbn [pitems]. destruct (redir_of x []) eqn:Er; [by rewrite (proj1 (redir_next x [])) in Hn by (by eexists)|].
    rewrite stops_next by done. destruct (stops x); [apply sim_ret_bind; apply Hend; [lia|done]|].
    apply sim_assoc, gettoken_sim; [done|lia|]. rewrite Et1 in *. intros t q e s2 (Hs2 & -> & _). cbv beta iota.
    apply Forall_cons in Hpl as [[Hya Hy0]%plain_sym _]. rewrite (proj2 (Z.eqb_neq x 0)), (proj2 (Z.eqb_neq x (chr "a"))) by done. by apply sim_panic, Hk.
Qed.

(** ** Lines *)

(** A command has been built and the tokens [ts] are left. *)
Definition built (k : shst) (x : Z * nat) (c : cmd) (ts : list token) (k' : shst) : Prop :=
  ready k' ∧ sh_heap k ⊆ sh_heap k' ∧ rep word_at (sh_heap k') x.1 c ∧ (x.2 ≤ es)%nat ∧ tokens x.2 = ts.

Lemma next_in_one s x ts : chr s = x → bytes_of s = [x] → bool_decide (x ∈ symbols ∧ x ≠ chr ">") = true → next_in (bytes_of s) ts = next x ts.
Proof using Htxt.
  intros _ -> [Hx Hne]%bool_decide_eq_true. destruct ts as [|[w|y] ts]; [done|done|]. cbn [next_in next]. assert (x ≠ 0 ∧ x ≠ chr "+") as [Hz Hp].
  { clear Hne. revert x Hx. apply Forall_forall. apply (bool_decide_unpack _). by vm_compute. }
  rewrite occurs_spec by set_solver. unfold sym_char. apply eq_true_iff_eq. rewrite bool_decide_eq_true, Z.eqb_eq, list_elem_of_singleton.
  destruct (Z.eqb_spec y (chr "+")); naive_solver.
Qed.
Ltac next_one := match goal with |- context [next_in (bytes_of ?s) ?ts] => rewrite (next_in_one s (chr s) ts eq_refl eq_refl) by (by vm_compute) end.

(** A node over what has been built. *)
Lemma build k k1 (n : node) (c : cmd) s : ready k1 → sh_heap k ⊆ sh_heap k1 → (s ≤ es)%nat →
  (∀ h p, sh_heap k1 ⊆ h → p ≠ 0 → h !! p = Some n → rep word_at h p c) →
  sim u (Ok c (tokens s)) (p ← new n; mret (p, s)) (built k) k1.
Proof using Type.
  intros Hk1 Hsub Hs Hrep. eapply sim_wp; [apply (new_wp n k1 (λ p k2, ready k2 ∧ sh_heap k1 ⊆ sh_heap k2 ∧ rep word_at (sh_heap k2) p c)); [done|]|].
  - intros p k2 Hk2 Hsub2 Hp _ Hl. split_and!; [done|done|by apply Hrep].
  - intros p k2 (Hk2 & Hsub2 & Hr). apply sim_ret. cbn. split_and!; [done|by etrans|done|done|done].
Qed.
Lemma rep_grow h h' p c : rep word_at h p c → h ⊆ h' → rep word_at h' p c.
Proof using Type. intros Hr Hs. by eapply rep_mono; [|exact Hs|exact Hr]. Qed.

Lemma amp_loop f : ∀ s p c k, ready k → (s ≤ es)%nat → (es - s < f)%nat → rep word_at (sh_heap k) p c →
  sim u (Ok (pamps c (tokens s)).1 (pamps c (tokens s)).2) (loopM f (amp_body es) (p, s)) (built k) k.
Proof using Htxt.
  induction f as [|f IH]; intros s p c k Hk Hs Hf Hr; [lia|]. cbn [loopM]. unfold amp_body at 1. apply sim_assoc.
  apply peek_sim; [done|done|by apply (bool_decide_unpack _)|by vm_compute|]. intros s1 Hs1 Hp1 Et1. cbv beta iota. next_one.
  destruct (next _ (tokens s)) eqn:En; cbn [negb].
  - apply next_cons in En as [ts Ets]. rewrite Ets. cbn [pamps]. rewrite Z.eqb_refl. apply sim_assoc, gettoken_sim; [done|lia|].
    rewrite Et1, Ets. intros ret q e s2 (Hs2 & _ & Et2 & Hlt). cbv beta iota. apply sim_assoc.
    eapply sim_wp; [apply (new_wp (Backcmd p) k (λ p1 k1, ready k1 ∧ sh_heap k ⊆ sh_heap k1 ∧ rep word_at (sh_heap k1) p1 (Back c))); [done|]|].
    { intros p1 k1 Hk1 Hsub Hp _ Hl. split_and!; [done|done|]. split; [done|]. exists p. split; [done|by eapply rep_grow]. }
    intros p1 k1 (Hk1 & Hsub & Hr1). apply sim_ret_bind. cbv beta iota. rewrite <-Et2. eapply sim_mono; [apply IH; [done|lia|lia|done]|].
    intros x c' ts' k' (? & ? & ?). split; [done|]. split; [by etrans|done].
  - apply sim_ret_bind. assert (pamps c (tokens s) = (c, tokens s)) as ->.
    { destruct (tokens s) as [|[w|x] ts]; [done|done|]. cbn [next pamps] in *. by rewrite En. }
    apply sim_ret. cbn [fst snd]. split_and!; [done|done|done|cbn; lia|done].
Qed.

(** The four routines with the fuel [n] do as the parser on tokens does. *)
Definition line_sim (n : nat) : Prop := ∀ s k, ready k → (s ≤ es)%nat → sim u (pline n (tokens s)) (parseline n es s) (built k) k.
Definition pipe_sim (n : nat) : Prop := ∀ s k, ready k → (s ≤ es)%nat → sim u (ppipe n (tokens s)) (parsepipe n es s) (built k) k.
Definition exec_sim (n : nat) : Prop := ∀ s k, ready k → (s ≤ es)%nat → sim u (pexec n (tokens s)) (parseexec n es s) (built k) k.
Definition block_sim (n : nat) : Prop := ∀ s k, ready k → (s ≤ es)%nat → next (chr "(") (tokens s) = true →
  sim u (pblock n (tokens s)) (parseblock n es s) (built k) k.

Lemma line_step n : line_sim n → pipe_sim n → line_sim (S n).
Proof using Htxt.
  intros IHl IHp s k Hk Hs. cbn [pline parseline]. eapply sim_bind; [by apply IHp|]. intros [p s1] c ts k1 _ (Hk1 & Hsub1 & Hr1 & Hs1 & <-). cbn [fst snd] in *.
  pose proof (amp_loop (S es) s1 p c k1 Hk1 Hs1 ltac:(lia) Hr1) as Ha. destruct (pamps c (tokens s1)) as [c2 ts2]. cbn [fst snd] in Ha.
  change (if next (chr ";") ts2 then _ else _) with (rbind (Ok c2 ts2) (λ c ts, if next (chr ";") ts then rbind (pline n (tail ts)) (λ c' ts, Ok (ShGrammar.List c c') ts) else Ok c ts)).
  eapply sim_bind; [exact Ha|]. intros [p2 s2] c3 ts3 k2 _ (Hk2 & Hsub2 & Hr2 & Hs2 & <-). cbn [fst snd] in *.
  apply peek_sim; [done|done|by apply (bool_decide_unpack _)|by vm_compute|]. intros s3 Hs3 Hp3 Et3. cbv beta iota. next_one. assert (sh_heap k ⊆ sh_heap k2) as Hsub by (by etrans).
  destruct (next _ (tokens s2)) eqn:En; cbn [negb]; [|by apply sim_ret; split_and!; [done|done|done|cbn; lia|]].
  apply next_cons in En as [ts Ets]. rewrite Ets in *. apply gettoken_sim; [done|lia|]. rewrite Et3. intros ret q e s4 (Hs4 & _ & Et4 & _). cbv beta iota. cbn [tail]. rewrite <-Et4.
  eapply sim_bind; [by apply IHl|]. intros [p5 s5] c5 ts5 k5 _ (Hk5 & Hsub5 & Hr5 & Hs5 & <-). cbn [fst snd] in *. apply build; [done|by etrans|done|].
  intros h p0 Hh Hp0 Hl. split; [done|]. exists p2, p5. split_and!; [done|eapply rep_grow; [exact Hr2|by etrans]|by eapply rep_grow].
Qed.
Lemma pipe_step n : pipe_sim n → exec_sim n → pipe_sim (S n).
Proof using Htxt.
  intros IHp IHe s k Hk Hs. cbn [ppipe parsepipe]. eapply sim_bind; [by apply IHe|]. intros [p2 s2] c ts k2 _ (Hk2 & Hsub & Hr2 & Hs2 & <-). cbn [fst snd] in *.
  apply peek_sim; [done|done|by apply (bool_decide_unpack _)|by vm_compute|]. intros s3 Hs3 Hp3 Et3. cbv beta iota. next_one.
  destruct (next _ (tokens s2)) eqn:En; cbn [negb]; [|by apply sim_ret; split_and!; [done|done|done|cbn; lia|]].
  apply next_cons in En as [ts Ets]. rewrite Ets in *. apply gettoken_sim; [done|lia|]. rewrite Et3. intros ret q e s4 (Hs4 & _ & Et4 & _). cbv beta iota. cbn [tail]. rewrite <-Et4.
  eapply sim_bind; [by apply IHp|]. intros [p5 s5] c5 ts5 k5 _ (Hk5 & Hsub5 & Hr5 & Hs5 & <-). cbn [fst snd] in *. apply build; [done|by etrans|done|].
  intros h p0 Hh Hp0 Hl. split; [done|]. exists p2, p5. split_and!; [done|eapply rep_grow; [exact Hr2|by etrans]|by eapply rep_grow].
Qed.
Lemma block_step n : line_sim n → block_sim (S n).
Proof using Htxt.
  intros IHl s k Hk Hs Hn. cbn [pblock parseblock]. apply peek_sim; [done|done|by apply (bool_decide_unpack _)|by vm_compute|]. intros s1 Hs1 Hp1 Et1. cbv beta iota. next_one.
  rewrite Hn. cbn [negb]. apply next_cons in Hn as [ts Ets]. rewrite Ets in *. cbn [tail]. apply gettoken_sim; [done|lia|]. rewrite Et1. intros ret q e s2 (Hs2 & _ & Et2 & _). cbv beta iota.
  rewrite <-Et2. eapply sim_bind; [by apply IHl|]. intros [p s3] c ts3 k3 _ (Hk3 & Hsub3 & Hr3 & Hs3 & <-). cbn [fst snd] in *.
  apply peek_sim; [done|done|by apply (bool_decide_unpack _)|by vm_compute|]. intros s4 Hs4 Hp4 Et4. cbv beta iota. next_one.
  destruct (next _ (tokens s3)) eqn:En; cbn [negb].
  2:{ unfold sim. destruct (panic_said (A := Z * nat) "syntax - missing )" k3) as (k' & -> & Hsaid). rewrite (rd_io _ Hk3) in Hsaid. by eexists. }
  apply next_cons in En as [ts4 Ets4]. rewrite Ets4 in *. cbn [tail]. apply gettoken_sim; [done|lia|]. rewrite Et4. intros ret' q' e' s5 (Hs5 & _ & Et5 & _). cbv beta iota.
  rewrite <-Et5. eapply sim_rbind; [by apply parseredirs_sim|]. intros [p6 s6] rs ts6 k6 (H1 & H2 & H3 & H4 & H5). eexists _, _. split; [done|].
  split; [done|]. split; [by etrans|]. split; [|split; [apply H4|done]]. eapply chain_rep; [|exact H3]. by eapply rep_grow.
Qed.
Lemma exec_step n : block_sim n → exec_sim (S n).
Proof using Htxt.
  intros IHb s k Hk Hs. cbn [pexec parseexec]. apply peek_sim; [done|done|by apply (bool_decide_unpack _)|by vm_compute|]. intros s1 Hs1 Hp1 Et1. cbv beta iota. next_one.
  rewrite <-Et1. destruct (next _ (tokens s1)) eqn:En; [apply IHb; [done|lia|done]|].
  eapply sim_wp; [apply (new_wp _ k (λ p k1, ready k1 ∧ sh_heap k ⊆ sh_heap k1 ∧ p ≠ 0 ∧ sh_heap k !! p = None ∧ sh_heap k1 !! p = Some (Execcmd (replicate MAXARGS None) (replicate MAXARGS None)))); [done|]|].
  { intros p k1 H1 H2 H3 H4 H5. done. }
  intros cmd k1 (Hk1 & Hsub1 & Hc0 & Hfresh & Hc). rewrite pitems_split, rbind_assoc. eapply sim_bind; [apply parseredirs_sim; [done|lia]|].
  intros [ret s2] rs ts2 k2 Epr (Hk2 & Hsub2 & Hch & Hs2 & Et2). cbn [fst snd] in *. subst ts2. rewrite rbind_assoc.
  assert (sh_heap k2 !! cmd = Some (Execcmd (replicate MAXARGS None) (replicate MAXARGS None))) as Hc2 by (by eapply lookup_weaken).
  pose proof (args_loop cmd (S es) s2 ret [] k2 _ _ Hk2 (proj2 Hs2) ltac:(lia) (predirs_stop _ _ _ Epr) Hc2 (args_rep_nil _) ltac:(cbn; unfold MAXARGS; lia)) as Ha.
  eapply sim_bind; [exact Ha|]. intros [[argc ret3] s3] [ws rs3] ts3 k3 _ (Hk3 & Hsub3 & Hch3 & Hs3 & Et3 & Eargc & Hlen & argv & eargv & Hc3 & Har). cbn [fst snd app] in *. subst argc.
  eapply sim_wp; [apply (set_arg_wp cmd argv eargv (length ws) None None k3 (λ _ k4, k4 = upd_sh_heap (<[cmd := Execcmd (<[length ws := None]> argv) (<[length ws := None]> eargv)]>) k3)); done|].
  intros _ k4 ->. cbn [rbind]. apply sim_ret. cbn [fst snd]. split; [apply ready_set; [done|by eexists]|]. cbn [sh_heap upd_sh_heap].
  assert (delete cmd (sh_heap k3) ⊆ <[cmd := Execcmd (<[length ws := None]> argv) (<[length ws := None]> eargv)]> (sh_heap k3)) as Hins
    by (rewrite <-insert_delete_eq; apply insert_subseteq, lookup_delete_eq).
  split; [|split; [|done]].
  - etrans; [|exact Hins]. apply map_subseteq_spec. intros p0 n0 Hp0. assert (p0 ≠ cmd) as Hne by congruence. rewrite lookup_delete_ne by done.
    eapply lookup_weaken; [|exact Hsub3]. rewrite lookup_delete_ne by done. eapply lookup_weaken; [exact Hp0|by etrans].
  - eapply chain_rep; [split; [done|]; split; [done|]; eexists _, _; split; [apply lookup_insert_eq|by apply args_rep_end]|].
    eapply redirs_chain_app; [|eapply chain_but; [exact Hc3|exact Hins|exact Hch3]]. eapply chain_but; [exact Hc3|exact Hins|]. by eapply chain_but; [exact Hc2| |exact Hch].
Qed.

Lemma parser_sim n : line_sim n ∧ pipe_sim n ∧ exec_sim n ∧ block_sim n.
Proof using Htxt.
  induction n as [|n (IHl & IHp & IHe & IHb)]; [by split_and!|]. split_and!; [by apply line_step|by apply pipe_step|by apply exec_step|by apply block_step].
Qed.
End tree.
