(* ===== verification/ShThm.v ===== *)
(** * The shell parses its language

    [nulterminate] ends every word of a command with a NUL and damages no
    other; with [ShTree], [parsecmd] accepts exactly the lines of the grammar. *)

From S2P Require Import Prelude Riscv Memory CString State Printf PrintfSpec Bytes Ulib Uprintf Sh ShGrammar ShParse ShTree.

Fixpoint depth (c : cmd) : nat :=
  match c with
  | Exec _ => 1
  | Redir c _ | Back c => S (depth c)
  | ShGrammar.Pipe c1 c2 | ShGrammar.List c1 c2 => S (depth c1 `max` depth c2)
  end.

(** A C string at [q]. *)
Definition cstr (buf : list Z) (q : nat) (w : list Z) : Prop :=
  0 ∉ w ∧ take (length w) (drop q buf) = w ∧ buf !! (q + length w)%nat = Some 0.

(** ** How deep a command is *)

Lemma depth_wrap c rs : depth (wrap c rs) = (depth c + length rs)%nat.
Proof. unfold wrap. revert c. induction rs as [|r rs IH]; intros c; cbn; [lia|]. rewrite IH. cbn. lia. Qed.
Lemma depth_backs n c : depth (backs n c) = (n + depth c)%nat.
Proof. unfold backs. induction n as [|n IH]; [done|]. rewrite Nat.iter_succ. cbn [depth]. by rewrite IH. Qed.
Lemma redirs_length ts rs : redirs ts rs → (length rs ≤ length ts)%nat.
Proof. induction 1; cbn; lia. Qed.
Lemma items_length ts ws rs : items ts ws rs → (length rs ≤ length ts)%nat.
Proof. induction 1; cbn; lia. Qed.
Lemma grammar_depth :
  (∀ ts c, gline ts c → (depth c ≤ length ts + 1)%nat) ∧ (∀ ts c, gpipe ts c → (depth c ≤ length ts + 1)%nat) ∧
  (∀ ts c, gexec ts c → (depth c ≤ length ts + 1)%nat).
Proof.
  apply grammar_ind; intros; repeat (rewrite ?length_app, ?length_replicate; cbn [length depth]); rewrite ?depth_wrap, ?depth_backs; cbn [depth]; try lia.
  - apply items_length in H. lia.
  - apply redirs_length in H1. lia.
Qed.
Lemma lex_length w s : (length (lex w s) ≤ length s + length w)%nat.
Proof.
  assert (∀ w, (length (flush w) ≤ length w)%nat) as Hf by (intros []; cbn; lia).
  remember (length s) as n eqn:Hn. assert (length s ≤ n)%nat as Hle by lia. clear Hn. revert w s Hle.
  induction n as [|n IH]; intros w [|c s] Hle; cbn [length] in Hle; try lia; cbn [lex]; try (specialize (Hf w); lia).
  specialize (Hf w). pose proof (IH [] s ltac:(lia)) as H0. cbn [length] in H0. destruct (blank c); [rewrite length_app; lia|].
  destruct (symbol c); [|pose proof (IH (w ++ [c]) s ltac:(lia)) as H1; rewrite length_app in H1; cbn in H1; lia]. rewrite length_app.
  destruct s as [|c' s]; [cbn; lia|]. pose proof (IH [] s ltac:(cbn in Hle; lia)) as H2. cbn [length] in *. destruct (_ && _); cbn [length]; lia.
Qed.

(** ** NUL termination *)

Section nul.
Context `{Malloc} (txt junk : list Z) (Htxt : 0 ∉ txt).
Notation es := (length txt).
Notation word_at := (word_at txt).

(** The characters of words are still there. *)
Record kept (buf : list Z) : Prop := {
  kp_length : length buf = length (txt ++ 0 :: junk);
  kp_words : ∀ i c, txt !! i = Some c → word_char c = true → buf !! i = Some c;
}.
Definition ended (buf : list Z) (q e : nat) (w : list Z) : Prop := word_at q e w ∧ buf !! e = Some 0.
Definition zeros (buf buf' : list Z) : Prop := ∀ i, buf !! i = Some 0 → buf' !! i = Some 0.
Lemma ended_zeros buf buf' q e w : zeros buf buf' → ended buf q e w → ended buf' q e w.
Proof using Type. intros Hz [H1 H2]. split; [done|by apply Hz]. Qed.

(** [k'] is [k] with more NULs in the text. *)
Record clipped (k k' : shst) : Prop := {
  cl_kept : kept (sh_buf k');
  cl_zeros : zeros (sh_buf k) (sh_buf k');
  cl_heap : sh_heap k' = sh_heap k;
  cl_io : sh_io k' = sh_io k;
  cl_count : sh_count k' = sh_count k;
}.
Lemma clipped_refl k : kept (sh_buf k) → clipped k k.
Proof using Type. intros Hk. split; [done|by intros i|done|done|done]. Qed.
Lemma clipped_trans k k1 k2 : clipped k k1 → clipped k1 k2 → clipped k k2.
Proof using Type. intros [? Hz ? ? ?] [? Hz' ? ? ?]. split; [done| |congruence..]. intros i Hi. by apply Hz', Hz. Qed.

Lemma set_nul_wp q e w k (Q : unit → shst → Prop) : kept (sh_buf k) → word_at q e w →
  (∀ k', clipped k k' → sh_buf k' !! e = Some 0 → Q tt k') → wp (set_char e 0) Q k.
Proof using Type.
  intros [Hl Hw] [_ We _ _ Ws] HQ. unfold set_char. wp_steps. assert (e < length (sh_buf k))%nat as Hlt by (rewrite Hl, length_app; cbn; lia).
  rewrite decide_True by done. wp_step. apply HQ; cbn.
  - split; cbn; [split|..]; try done.
    + by rewrite length_insert.
    + intros i c Hi Hc. rewrite list_lookup_insert_ne; [by apply Hw|]. intros <-. assert (drop e txt = c :: drop (S e) txt) as Ed by (by apply drop_S).
      rewrite Ed in Ws. cbn in Ws. congruence.
    + intros i Hi. destruct (decide (i = e)) as [->|]; [by rewrite list_lookup_insert_eq|by rewrite list_lookup_insert_ne].
  - by rewrite list_lookup_insert_eq.
Qed.

Lemma nul_args_wp argv eargv ws k (Q : unit → shst → Prop) : kept (sh_buf k) → args_rep word_at argv eargv ws → (length ws < MAXARGS)%nat →
  (∀ k', clipped k k' → args_rep (ended (sh_buf k')) argv eargv ws → Q tt k') → wp (nul_args argv eargv) Q k.
Proof using Type.
  intros Hk [H1 H2 H3 H4] Hl HQ. unfold nul_args.
  apply (wp_loop _ (λ i k', clipped k k' ∧ (i ≤ length ws)%nat ∧ ∀ j w, (j < i)%nat → ws !! j = Some w → ∃ q e, argv !! j = Some (Some q) ∧ eargv !! j = Some (Some e) ∧ ended (sh_buf k') q e w)
    (λ i, length ws - i)%nat); [lia|split_and!; [by apply clipped_refl|lia|intros; lia]|].
  intros i k1 (Hc & Hi & Hd). destruct (decide (i = length ws)) as [->|Hne].
  - rewrite H4 by lia. wp_step. apply HQ; [done|]. split; [done|done| |done]. intros j w Hj. apply Hd; [|done]. by apply lookup_lt_Some in Hj.
  - destruct (lookup_lt_is_Some_2 ws i) as [w Hw]; [lia|]. destruct (H3 i w Hw) as (q & e & -> & He & Hat). rewrite He. wp_step.
    eapply set_nul_wp; [apply Hc|exact Hat|]. intros k2 Hc2 Hz. wp_step. split; [|lia]. split; [by eapply clipped_trans|]. split; [lia|].
    intros j w0 Hj Hw0. destruct (decide (j = i)) as [->|].
    + rewrite Hw in Hw0. injection Hw0 as <-. destruct (H3 i w Hw) as (q' & e' & Hq' & He' & Hat'). exists q', e'. split_and!; [done|done|]. split; [done|]. congruence.
    + destruct (Hd j w0) as (q' & e' & Hq' & He' & Hat'); [lia|done|]. exists q', e'. split_and!; [done|done|]. eapply ended_zeros; [apply Hc2|done].
Qed.

Lemma nulterminate_wp c : ∀ n p k (Q : Z → shst → Prop), (depth c ≤ n)%nat → rep word_at (sh_heap k) p c → kept (sh_buf k) →
  (∀ k', clipped k k' → rep (ended (sh_buf k')) (sh_heap k') p c → Q p k') → wp (nulterminate n p) Q k.
Proof using Type.
  assert (∀ k k' p c, clipped k k' → rep (ended (sh_buf k)) (sh_heap k) p c → rep (ended (sh_buf k')) (sh_heap k') p c) as Hmono.
  { intros k k' p c0 Hc Hr. rewrite (cl_heap _ _ Hc). eapply rep_mono; [|done|exact Hr]. intros q e w. apply ended_zeros, Hc. }
  induction c as [ws|c IH r|c1 IH1 c2 IH2|c1 IH1 c2 IH2|c IH]; intros n p k Q Hn [Hp Hc] Hk HQ; cbn [depth] in Hn; (destruct n as [|n]; [lia|]);
    cbn [nulterminate]; rewrite (proj2 (Z.eqb_neq p 0)) by done; wp_step; wp_step.
  - destruct Hc as (Hl & argv & eargv & E & Ha). rewrite E. wp_step. eapply nul_args_wp; [done|done|done|]. intros k' Hc' Ha'. wp_step. apply HQ; [done|].
    split; [done|]. split; [done|]. exists argv, eargv. by rewrite (cl_heap _ _ Hc').
  - destruct Hc as (sub & q & e & E & Hw & Hr). rewrite E. wp_step. apply (IH n sub); [lia|done|done|]. intros k1 C1 R1. wp_step.
    eapply set_nul_wp; [apply C1|exact Hw|]. intros k2 C2 Hz. wp_step. pose proof (clipped_trans _ _ _ C1 C2) as C. apply HQ; [done|].
    split; [done|]. exists sub, q, e. rewrite (cl_heap _ _ C) at 1. split; [done|]. split; [by split|exact (Hmono k1 k2 sub c C2 R1)].
  - destruct Hc as (p1 & p2 & E & Hr1 & Hr2). rewrite E. wp_step. apply (IH1 n p1); [lia|done|done|]. intros k1 C1 R1. wp_step.
    apply (IH2 n p2); [lia|by rewrite (cl_heap _ _ C1)|apply C1|]. intros k2 C2 R2. wp_step. pose proof (clipped_trans _ _ _ C1 C2) as C. apply HQ; [done|].
    split; [done|]. exists p1, p2. rewrite (cl_heap _ _ C) at 1. split; [done|]. split; [exact (Hmono k1 k2 p1 c1 C2 R1)|done].
  - destruct Hc as (p1 & p2 & E & Hr1 & Hr2). rewrite E. wp_step. apply (IH1 n p1); [lia|done|done|]. intros k1 C1 R1. wp_step.
    apply (IH2 n p2); [lia|by rewrite (cl_heap _ _ C1)|apply C1|]. intros k2 C2 R2. wp_step. pose proof (clipped_trans _ _ _ C1 C2) as C. apply HQ; [done|].
    split; [done|]. exists p1, p2. rewrite (cl_heap _ _ C) at 1. split; [done|]. split; [exact (Hmono k1 k2 p1 c1 C2 R1)|done].
  - destruct Hc as (sub & E & Hr). rewrite E. wp_step. apply (IH n sub); [lia|done|done|]. intros k1 C1 R1. wp_step. apply HQ; [done|].
    split; [done|]. exists sub. by rewrite (cl_heap _ _ C1) at 1.
Qed.

(** Words that have ended are strings. *)
Lemma ended_cstr buf q e w : kept buf → ended buf q e w → cstr buf q w.
Proof using Htxt.
  intros Hk [[We Wi Wt Wc Ws] Hz]. assert (∀ j c, w !! j = Some c → txt !! (q + j)%nat = Some c) as Hl.
  { intros j c Hj. rewrite <-lookup_drop. rewrite <-Wt in Hj. by apply lookup_take_Some in Hj as [? _]. }
  split; [|split; [|by rewrite <-We]].
  - intros (j & Hj)%list_elem_of_lookup. apply Htxt. eapply list_elem_of_lookup_2. by apply Hl.
  - apply list_eq. intros j. destruct (w !! j) as [c|] eqn:Ej.
    + apply lookup_lt_Some in Ej as Hlt. rewrite lookup_take_lt, lookup_drop by done. apply (kp_words _ Hk); [by apply Hl|]. by eapply (proj1 (Forall_lookup _ _) Wc).
    + apply lookup_ge_None_1 in Ej. rewrite lookup_take_ge by done. done.
Qed.
End nul.

(** ** [parsecmd] *)

Lemma strlen_text l junk : 0 ∉ l → strlen (l ++ 0 :: junk) = Some (Z.of_nat (length l)).
Proof.
  induction l as [|c l IH]; intros Hl; [done|]. cbn [app strlen length]. rewrite (proj2 (Z.eqb_neq c 0)) by set_solver. rewrite IH by set_solver. cbn. f_equal. lia.
Qed.

(** A message on descriptor 2. *)
Definition complains (u u' : uio) : Prop :=
  streams u' = streams u ∧ ∃ m, m ≠ [] ∧ ∀ fd, output fd u' = output fd u ++ (if decide (2 = fd) then m else []).
Lemma said_complains u msg u' : said u msg u' → complains u u'.
Proof. intros [H1 H2]. split; [done|]. exists (bytes_of (line msg)). split; [|done]. rewrite bytes_of_line. by destruct (bytes_of msg). Qed.

Section parsecmd.
Context `{Malloc} (txt junk : list Z) (Htxt : 0 ∉ txt) (Hbytes : Forall is_byte txt).
Notation es := (length txt).

(** The line goes on where it should end. *)
Lemma leftovers_exit s k : loaded txt junk k → (s ≤ es)%nat → ∃ k',
  (buf ← gets sh_buf; io (fprintf 2 (line "leftovers: %s") [PStr (Some (take (es - s) (drop s buf)))]) ;; Sh.panic (A := Z) "syntax") k = Exited k' ∧
  complains (sh_io k) (sh_io k').
Proof using Hbytes.
  intros Hk Hs. rewrite (bind_done _ _ _ (sh_buf k) k) by done. rewrite Hk, drop_app_le, take_app_length' by (rewrite ?length_drop; done).
  destruct (fprintf_io 2 (line "leftovers: %s") [PStr (Some (drop s txt))] (bytes_of "leftovers: " ++ drop s txt ++ [10]) k) as (u1 & E & Hst & Ho).
  { apply bytes_of_ok. }
  { apply Forall_singleton. by apply Forall_drop. }
  { reflexivity. }
  rewrite (bind_done _ _ _ _ _ E). destruct (panic_said (A := Z) "syntax" (Sh (sh_buf k) (sh_heap k) (sh_count k) u1)) as (k' & E' & Hst' & Ho').
  exists k'. split; [exact E'|]. cbn [sh_io] in *. split; [congruence|]. exists ((bytes_of "leftovers: " ++ drop s txt ++ [10]) ++ bytes_of (line "syntax")).
  split; [done|]. intros fd. rewrite Ho', Ho, <-app_assoc. by case_decide.
Qed.

Lemma parsecmd_cases k : loaded txt junk k → (∀ i, (sh_count k ≤ i)%nat → sh_heap k !! malloc i = None) →
  (∃ c p k', pline (parse_fuel es) (lex [] txt) = Ok c [] ∧ parsecmd 0 k = Done p k' ∧
     rep (λ q _ w, cstr (sh_buf k') q w) (sh_heap k') p c ∧ sh_heap k ⊆ sh_heap k' ∧ sh_io k' = sh_io k) ∨
  (∃ k', (∀ c, pline (parse_fuel es) (lex [] txt) ≠ Ok c []) ∧ parsecmd 0 k = Exited k' ∧ complains (sh_io k) (sh_io k')).
Proof using Htxt Hbytes.
  intros Hk Hfr. assert (ready txt junk (sh_io k) k) as Hrd by by split. assert (pline (parse_fuel es) (lex [] txt) ≠ Stuck) as Hns.
  { pose proof (lex_length [] txt) as Hl. cbn [length] in Hl. intros E. pose proof (proj1 (parser_answers (parse_fuel es)) (lex [] txt) ltac:(unfold parse_fuel; lia)) as Ha. by rewrite E in Ha. }
  unfold parsecmd. rewrite (bind_done _ _ _ (sh_buf k) k) by done. rewrite drop_0, Hk, strlen_text by done. rewrite Nat2Z.id, Nat.add_0_l.
  pose proof (proj1 (parser_sim txt junk Htxt (sh_io k) (parse_fuel es)) 0%nat k Hrd ltac:(lia)) as Hsim. unfold sim in Hsim. change (tokens txt 0) with (lex [] txt) in Hsim.
  destruct (parseline (parse_fuel es) es 0 k) as [[p s1] k1| | |k1| |] eqn:Ep; try done.
  2:{ destruct Hsim as (msg & Er & Hsaid). right. exists k1. split; [intros c; by rewrite Er|]. split; [|by eapply said_complains].
      unfold mbind, M_bind. by rewrite Ep. }
  destruct Hsim as (c & ts & Er & Hk1 & Hsub & Hrep & Hs1 & Et). cbn [fst snd] in *. rewrite (bind_done _ _ _ _ _ Ep). cbv beta iota.
  pose proof (peek_token_wp txt junk Htxt [] s1 k1 (rd_loaded _ _ _ _ Hk1) Hs1 ltac:(set_solver) eq_refl) as ([b s2] & k2 & Ek & -> & _ & _ & [Hs2 Hp2] & Et2)%wp_elim.
  cbn [fst snd] in *. rewrite (bind_done _ _ _ _ _ Ek). cbv beta iota. case_decide as Hend.
  - right. destruct (leftovers_exit s2 k1 (rd_loaded _ _ _ _ Hk1) Hs2) as (k' & E & Hcomp). exists k'. rewrite (rd_io _ _ _ _ Hk1) in Hcomp. split; [|done].
    intros c' Ec'. rewrite Ec' in Er. injection Er as _ <-. rewrite Et in Et2. unfold tokens in Et2. destruct (drop s2 txt) as [|d rest] eqn:Ed.
    + apply Hend. by apply drop_end.
    + by apply (lex_head d rest).
  - subst s2. left. assert (ts = []) as -> by (rewrite <-Et, <-Et2; unfold tokens; by rewrite drop_all).
    assert (depth c ≤ S es)%nat as Hd.
    { apply (proj1 (parser_sound _)) in Er as (ts1 & E1 & Hg). rewrite app_nil_r in E1. subst ts1. pose proof (proj1 grammar_depth _ _ Hg). pose proof (lex_length [] txt) as Hl. cbn [length] in Hl. lia. }
    assert (kept txt junk (sh_buf k1)) as Hkept.
    { rewrite (rd_loaded _ _ _ _ Hk1). split; [done|]. intros i d Hi _. by apply lookup_app_l_Some. }
    assert (wp (nulterminate (S es) p) (λ _ k', clipped txt junk k1 k' ∧ rep (ended txt (sh_buf k')) (sh_heap k') p c) k1) as (r & k' & En & Hcl & Hr')%wp_elim by (by eapply nulterminate_wp).
    exists c, p, k'. split; [done|]. split; [by rewrite (bind_done _ _ _ _ _ En)|]. split; [|rewrite (cl_heap _ _ _ _ Hcl), (cl_io _ _ _ _ Hcl), (rd_io _ _ _ _ Hk1); done].
    eapply rep_mono; [|done|exact Hr']. intros q e w. eapply ended_cstr; [exact Htxt|apply Hcl].
Qed.
End parsecmd.

(** No block that [malloc] will return is in use. *)
Definition unused `{Malloc} (k : shst) : Prop := ∀ i, (sh_count k ≤ i)%nat → sh_heap k !! malloc i = None.

(** C17: [parsecmd] accepts exactly the lines of the grammar.  On any line it
    either returns a tree of nodes that represents the command that the grammar
    derives from the tokens of the line, with every argument and file name a C
    string, or the grammar derives nothing and it ends the process with a
    message on descriptor 2; it reads and writes nothing outside of its line. *)
Theorem parsecmd_spec `{Malloc} txt junk k :
  0 ∉ txt → Forall is_byte txt → sh_buf k = txt ++ 0 :: junk → unused k →
  (∃ c p k', gline (lex [] txt) c ∧ parsecmd 0 k = Done p k' ∧
     rep (λ q _ w, cstr (sh_buf k') q w) (sh_heap k') p c ∧ sh_heap k ⊆ sh_heap k' ∧ sh_io k' = sh_io k) ∨
  (∃ k', (∀ c, ¬ gline (lex [] txt) c) ∧ parsecmd 0 k = Exited k' ∧ complains (sh_io k) (sh_io k')).
Proof.
  intros H0 Hb Hk Hu. assert (∀ c, pline (parse_fuel (length txt)) (lex [] txt) = Ok c [] ↔ gline (lex [] txt) c) as Hg.
  { intros c. apply pline_gline. pose proof (lex_length [] txt) as Hl. cbn [length] in Hl. unfold parse_fuel. lia. }
  destruct (parsecmd_cases txt junk H0 Hb k Hk Hu) as [(c & p & k' & Hp & Hr)|(k' & Hn & Hr)].
  - left. exists c, p, k'. split; [by apply Hg|done].
  - right. exists k'. split; [|done]. intros c Hc. by apply (Hn c), Hg.
Qed.
