(* ===== verification/ShPrint.v ===== *)
(** * Printing and parsing commands

    Every command has a text, with parentheses where the grammar needs them,
    and the shell parses that text as the command. *)

From S2P Require Import Prelude Riscv Memory CString State Printf PrintfSpec Bytes Ulib Uprintf Sh ShGrammar ShParse ShTree ShThm.

(** ** Tokens and their text *)

Definition token_text (t : token) : list Z :=
  match t with Word w => w | Sym x => if x =? chr "+" then bytes_of ">>" else [x] end.
(** A blank after every token. *)
Definition text_of (ts : list token) : list Z := concat ((λ t, token_text t ++ [32]) <$> ts).

Definition good_word (w : list Z) : Prop := w ≠ [] ∧ Forall (λ c, word_char c = true ∧ c ≠ 0 ∧ is_byte c) w.
Definition good_token (t : token) : Prop := match t with Word w => good_word w | Sym x => x ∈ chr "+" :: symbols end.

(** ** Commands and their tokens *)

(** The symbol of a redirection. *)
Definition redir_sym (r : redir) : Z :=
  if r_fd r =? 0 then chr "<" else if r_mode r =? Z.lor O_WRONLY O_CREATE then chr "+" else chr ">".
(** [lvl] tells what may stand without parentheses: 0 a redirection, 1 a pipe, 2
    a background command, 3 a list. *)
Definition paren (b : bool) (ts : list token) : list token := if b then Sym (chr "(") :: ts ++ [Sym (chr ")")] else ts.
Fixpoint print (lvl : nat) (c : cmd) : list token :=
  match c with
  | Exec ws => Word <$> ws
  | Redir c r => print 0 c ++ [Sym (redir_sym r); Word (r_file r)]
  | ShGrammar.Pipe c1 c2 => paren (lvl <? 1)%nat (print 0 c1 ++ Sym (chr "|") :: print 1 c2)
  | Back c => paren (lvl <? 2)%nat (print 2 c ++ [Sym (chr "&")])
  | ShGrammar.List c1 c2 => paren (lvl <? 3)%nat (print 2 c1 ++ Sym (chr ";") :: print 3 c2)
  end.
Definition command_text (c : cmd) : list Z := text_of (print 3 c).

(** A command that can be typed. *)
Fixpoint typable (c : cmd) : Prop :=
  match c with
  | Exec ws => (length ws < MAXARGS)%nat ∧ Forall good_word ws
  | Redir c r => typable c ∧ redir_of (redir_sym r) (r_file r) = Some r ∧ good_word (r_file r)
  | ShGrammar.Pipe c1 c2 | ShGrammar.List c1 c2 => typable c1 ∧ typable c2
  | Back c => typable c
  end.

(** ** Lexing the text *)

Lemma text_of_lex ts : Forall good_token ts → lex [] (text_of ts) = ts.
Proof.
  unfold text_of. induction 1 as [|t ts Ht Hts IH]; [done|]. cbn [fmap list_fmap concat]. rewrite <-app_assoc. cbn [app].
  assert (lex [] (32 :: concat ((λ t, token_text t ++ [32]) <$> ts)) = ts) as Hb by exact IH. destruct t as [w|x]; cbn [token_text].
  - destruct Ht as [Hne Hw]. rewrite lex_words; [by rewrite Hb| |done|done]. eapply Forall_impl; [exact Hw|]. naive_solver.
  - apply elem_of_cons in Ht as [->|Hx].
    + change (chr "+" =? chr "+") with true. cbv iota. change (bytes_of ">>" ++ ?l) with (chr ">" :: chr ">" :: l). rewrite lex_symbol by done. cbn [head tail].
      change ((chr ">" =? chr ">") && bool_decide (Some (chr ">") = Some (chr ">"))) with true. cbv iota. by rewrite Hb.
    + assert (x ≠ chr "+") as Hne by (intros ->; revert Hx; apply (bool_decide_unpack _); by vm_compute). rewrite (proj2 (Z.eqb_neq x _)) by done. cbn [app].
      rewrite lex_symbol by (by apply symbol_spec). cbn [head tail]. rewrite bool_decide_false by done. rewrite andb_false_r. by rewrite Hb.
Qed.
Lemma text_of_chars ts : Forall good_token ts → Forall (λ c, c ≠ 0 ∧ is_byte c) (text_of ts).
Proof.
  assert (∀ x, x ∈ chr "+" :: symbols → x ≠ 0 ∧ is_byte x) as Hs.
  { apply Forall_forall. unfold is_byte. apply (bool_decide_unpack _). by vm_compute. }
  unfold text_of. induction 1 as [|t ts Ht Hts IH]; [constructor|]. cbn [fmap list_fmap concat]. apply Forall_app. split; [|done]. apply Forall_app. split; [|by repeat constructor].
  destruct t as [w|x]; cbn [token_text]; [eapply Forall_impl; [apply Ht|]; naive_solver|].
  destruct (x =? chr "+"); [apply (bool_decide_unpack _); unfold is_byte; by vm_compute|]. apply Forall_singleton. by apply Hs.
Qed.

(** ** The grammar derives the tokens *)

Lemma items_snoc ts ws rs x w r : items ts ws rs → redir_of x w = Some r → items (ts ++ [Sym x; Word w]) ws (rs ++ [r]).
Proof. induction 1; intros Hr; cbn; repeat (econstructor; eauto). Qed.
Lemma redirs_snoc ts rs x w r : redirs ts rs → redir_of x w = Some r → redirs (ts ++ [Sym x; Word w]) (rs ++ [r]).
Proof. induction 1; intros Hr; cbn; repeat (econstructor; eauto). Qed.
Lemma gexec_redir ts c x w r : gexec ts c → redir_of x w = Some r → gexec (ts ++ [Sym x; Word w]) (Redir c r).
Proof.
  destruct 1 as [ts ws rs Hi Hl|ts c ts' rs Hg Hr]; intros Hx.
  - replace (Redir (wrap (Exec ws) rs) r) with (wrap (Exec ws) (rs ++ [r])) by (unfold wrap; by rewrite foldl_app). apply ge_items; [by apply items_snoc|done].
  - replace (Redir (wrap c rs) r) with (wrap c (rs ++ [r])) by (unfold wrap; by rewrite foldl_app). cbn. rewrite <-app_assoc. cbn. apply ge_block; [done|by apply redirs_snoc].
Qed.
Lemma gexec_paren ts c : gline ts c → gexec (Sym (chr "(") :: ts ++ [Sym (chr ")")]) c.
Proof. intros Hg. apply (ge_block ts c [] []); [done|constructor]. Qed.
(** A command with its [&]s. *)
Definition gamp (ts : list token) (c : cmd) : Prop := ∃ ts' n c', gpipe ts' c' ∧ ts = ts' ++ replicate n (Sym (chr "&")) ∧ c = backs n c'.
Lemma gamp_pipe ts c : gpipe ts c → gamp ts c.
Proof. intros Hg. exists ts, O, c. split_and!; [done|by rewrite app_nil_r|done]. Qed.
Lemma gamp_line ts c : gamp ts c → gline ts c.
Proof. intros (ts' & n & c' & Hg & -> & ->). by apply gl_end. Qed.
Lemma gamp_back ts c : gamp ts c → gamp (ts ++ [Sym (chr "&")]) (Back c).
Proof.
  intros (ts' & n & c' & Hg & -> & ->). exists ts', (S n), c'. split_and!; [done| |by unfold backs; rewrite Nat.iter_succ].
  by rewrite <-app_assoc, <-replicate_cons_app.
Qed.
Lemma gamp_semi ts c ts' c' : gamp ts c → gline ts' c' → gline (ts ++ Sym (chr ";") :: ts') (ShGrammar.List c c').
Proof. intros (ts1 & n & c1 & Hg & -> & ->) Hl. rewrite <-app_assoc. by apply gl_semi. Qed.

Lemma items_words ws : items (Word <$> ws) ws [].
Proof. induction ws; cbn; constructor; done. Qed.

Lemma print_derives c : typable c → gexec (print 0 c) c ∧ gpipe (print 1 c) c ∧ gamp (print 2 c) c ∧ gline (print 3 c) c.
Proof.
  assert (∀ ts c, gexec ts c → gexec ts c ∧ gpipe ts c ∧ gamp ts c ∧ gline ts c) as H0.
  { intros ts c0 He. assert (gpipe ts c0) by by apply gp_end. split_and!; [done|done|by apply gamp_pipe|by apply gamp_line, gamp_pipe]. }
  assert (∀ ts c, gpipe ts c → gamp ts c ∧ gline ts c) as H1 by (intros; split; [by apply gamp_pipe|by apply gamp_line, gamp_pipe]).
  induction c as [ws|c IH r|c1 IH1 c2 IH2|c1 IH1 c2 IH2|c IH]; cbn [typable]; intros Ht; cbn [print Nat.ltb Nat.leb paren].
  - apply H0, (ge_items _ ws []); [apply items_words|apply Ht].
  - destruct Ht as (Ht & Hr & _). apply H0, gexec_redir; [by apply IH|done].
  - destruct (IH1 (proj1 Ht)) as (E1 & _), (IH2 (proj2 Ht)) as (_ & P2 & _). pose proof (gp_bar _ _ _ _ E1 P2) as Hp. destruct (H1 _ _ Hp).
    split_and!; [by apply gexec_paren|done|done|done].
  - destruct (IH1 (proj1 Ht)) as (_ & _ & A1 & _), (IH2 (proj2 Ht)) as (_ & _ & _ & L2). pose proof (gamp_semi _ _ _ _ A1 L2) as Hl. apply gexec_paren in Hl as He.
    destruct (H0 _ _ He) as (_ & ? & ? & _). done.
  - destruct (IH Ht) as (_ & _ & A & _). apply gamp_back in A. pose proof (gexec_paren _ _ (gamp_line _ _ A)) as He. destruct (H0 _ _ He) as (_ & ? & _). split_and!; [done|done|done|by apply gamp_line].
Qed.
Lemma print_good lvl c : typable c → Forall good_token (print lvl c).
Proof.
  assert (∀ x, bool_decide (x ∈ chr "+" :: symbols) = true → good_token (Sym x)) as Hs by (intros x ?%bool_decide_eq_true; done).
  assert (∀ b ts, Forall good_token ts → Forall good_token (paren b ts)) as Hp.
  { intros [] ts Hts; [|done]. apply Forall_cons. split; [by apply Hs|]. apply Forall_app. split; [done|]. apply Forall_singleton. by apply Hs. }
  revert lvl. induction c as [ws|c IH r|c1 IH1 c2 IH2|c1 IH1 c2 IH2|c IH]; intros lvl; cbn [typable print].
  - intros [_ Hw]. by apply Forall_fmap.
  - intros (Ht & Hr & Hw). apply Forall_app. split; [by apply IH|]. repeat (apply Forall_cons; split); [|done|done]. cbn. unfold redir_sym. repeat case_match; by apply (bool_decide_unpack _).
  - intros [H1 H2]. apply Hp, Forall_app. split; [by apply IH1|]. apply Forall_cons. split; [by apply Hs|by apply IH2].
  - intros [H1 H2]. apply Hp, Forall_app. split; [by apply IH1|]. apply Forall_cons. split; [by apply Hs|by apply IH2].
  - intros Ht. apply Hp, Forall_app. split; [by apply IH|]. apply Forall_singleton. by apply Hs.
Qed.

(** C20: a command that can be typed is parsed back from its text: [parsecmd] of the
    tokens of the command, separated by blanks and with parentheses where the
    grammar needs them, builds that command. *)
Theorem parsecmd_print `{Malloc} c junk k :
  typable c → sh_buf k = command_text c ++ 0 :: junk → unused k →
  ∃ p k', parsecmd 0 k = Done p k' ∧ rep (λ q _ w, cstr (sh_buf k') q w) (sh_heap k') p c.
Proof.
  intros Ht Hk Hu. pose proof (print_good 3 c Ht) as Hg. pose proof (text_of_chars _ Hg) as Hc. pose proof (text_of_lex _ Hg) as Hlex.
  assert (pline (parse_fuel (length (command_text c))) (print 3 c) = Ok c []) as Hp.
  { apply pline_gline; [|by apply print_derives]. pose proof (lex_length [] (command_text c)) as Hl. unfold command_text in Hl at 1. rewrite Hlex in Hl. cbn [length] in Hl. unfold parse_fuel. lia. }
  assert (0 ∉ command_text c ∧ Forall is_byte (command_text c)) as [H0 Hb].
  { split; [|eapply Forall_impl; [exact Hc|]; naive_solver]. intros Hz. rewrite Forall_forall in Hc. by destruct (Hc 0 Hz). }
  destruct (parsecmd_cases _ junk H0 Hb k Hk Hu) as [(c' & p & k' & Hp' & Hrun & Hr & _)|(k' & Hn & _)]; unfold command_text in *; rewrite Hlex in *.
  - rewrite Hp in Hp'. injection Hp' as <-. by exists p, k'.
  - by destruct (Hn c).
Qed.

(** ** A line *)

#[global] Program Instance bump : Malloc := {| malloc i := 0x4000 + 176 * Z.of_nat i |}.
Next Obligation. intros i j Hij. lia. Qed.
Next Obligation. intros i. lia. Qed.

(** [(cat < in | wc >> out ; ls -l) &]. *)
Definition demo_line : list Z := bytes_of "(cat < in | wc >>out ; ls -l) &".
Definition demo_cmd : cmd :=
  Back (ShGrammar.List
    (ShGrammar.Pipe (Redir (Exec [bytes_of "cat"]) (Rd (bytes_of "in") O_RDONLY 0))
                    (Redir (Exec [bytes_of "wc"]) (Rd (bytes_of "out") (Z.lor O_WRONLY O_CREATE) 1)))
    (Exec [bytes_of "ls"; bytes_of "-l"])).
Definition demo_sh (l : list Z) : shst := Sh (l ++ 0 :: replicate 10 0) ∅ 0 (Uio ∅ 0 []).

Lemma demo_unused l : unused (demo_sh l).
Proof. intros i _. done. Qed.
Lemma demo_typable : typable demo_cmd.
Proof. unfold demo_cmd. cbn [typable]. unfold good_word, is_byte, MAXARGS. split_and!; solve [reflexivity|apply (bool_decide_unpack _); by vm_compute]. Qed.

Lemma parsecmd_spec_witness :
  (∃ c p k', gline (lex [] demo_line) c ∧ parsecmd 0 (demo_sh demo_line) = Done p k' ∧ rep (λ q _ w, cstr (sh_buf k') q w) (sh_heap k') p c) ∧
  (∃ k', (∀ c, ¬ gline (lex [] (bytes_of "ls & wc")) c) ∧ parsecmd 0 (demo_sh (bytes_of "ls & wc")) = Exited k').
Proof.
  split.
  - destruct (parsecmd_spec demo_line (replicate 10 0) (demo_sh demo_line)) as [(c & p & k' & H1 & H2 & H3 & _)|(k' & _ & H2 & _)].
    + apply (bool_decide_unpack _). by vm_compute.
    + unfold is_byte. apply (bool_decide_unpack _). by vm_compute.
    + reflexivity.
    + apply demo_unused.
    + exists c, p, k'. exact (conj H1 (conj H2 H3)).
    + exfalso. assert (returns (parsecmd 0 (demo_sh demo_line)) = true) as Hr by by vm_compute. rewrite H2 in Hr. discriminate Hr.
  - destruct (parsecmd_spec (bytes_of "ls & wc") (replicate 10 0) (demo_sh (bytes_of "ls & wc"))) as [(c & p & k' & _ & H2 & _)|(k' & H1 & H2 & _)].
    + apply (bool_decide_unpack _). by vm_compute.
    + unfold is_byte. apply (bool_decide_unpack _). by vm_compute.
    + reflexivity.
    + apply demo_unused.
    + exfalso. assert (returns (parsecmd 0 (demo_sh (bytes_of "ls & wc"))) = false) as Hr by by vm_compute. rewrite H2 in Hr. discriminate Hr.
    + exists k'. exact (conj H1 H2).
Defined.
Lemma parsecmd_print_witness : ∃ p k', parsecmd 0 (demo_sh (command_text demo_cmd)) = Done p k' ∧ rep (λ q _ w, cstr (sh_buf k') q w) (sh_heap k') p demo_cmd.
Proof. apply (parsecmd_print demo_cmd (replicate 10 0)); [exact demo_typable|reflexivity|apply demo_unused]. Defined.
