(* ===== verification/ShRun.v ===== *)
(** * The shell runs commands

    [runcmd] of [user/sh.c] as the tree of the system calls that a process
    makes, a machine of processes that make them in any order, and what a command
    is meant to start: which programs, and with which open files. *)

From S2P Require Import Prelude Riscv Memory CString State Printf PrintfSpec Bytes Ulib Uprintf Sh ShGrammar ShParse ShTree ShThm.

(** ** System calls *)

(** What a process does next; a system call with a result goes on with it. *)
Inductive prog :=
| Exit (status : Z)
| Execv (path : list Z) (argv : list (list Z)) (failed : prog)
| Close (fd : Z) (k : prog)
| Open (path : list Z) (mode : Z) (k : Z → prog)
| Dup (fd : Z) (k : Z → prog)
| MkPipe (k : option (Z * Z) → prog)
| Fork (k : Z → prog)
| Wait (k : prog)
| Say (fd : Z) (text : list Z) (k : prog)
| Crash (why : string).

(** The string at [q]. *)
Definition string_at (buf : list Z) (q : nat) : option (list Z) :=
  n ← strlen (drop q buf);
  Some (take (Z.to_nat n) (drop q buf)).
(** The strings of a null-terminated array of pointers. *)
Fixpoint strings_at (buf : list Z) (argv : list (option nat)) : option (list (list Z)) :=
  match argv with
  | [] => None
  | None :: _ => Some []
  | Some q :: argv =>
      w ← string_at buf q;
      ws ← strings_at buf argv;
      Some (w :: ws)
  end.

Definition panic (s : string) : prog := Say 2 (bytes_of (line s)) (Exit 1).
Definition fork1 (k : Z → prog) : prog := Fork (λ pid, if pid =? -1 then panic "fork" else k pid).

Fixpoint runcmd (fuel : nat) (h : gmap Z node) (buf : list Z) (cmd : Z) : prog :=
  match fuel with
  | O => Crash "fuel"
  | S fuel =>
      if cmd =? 0 then Exit 1
      else
        match h !! cmd with
        | None => Crash "node"
        | Some (Execcmd argv _) =>
            match strings_at buf argv with
            | None => Crash "argv"
            | Some [] => Exit 1
            | Some (path :: args) =>
                Execv path (path :: args) (Say 2 (bytes_of "exec " ++ path ++ bytes_of (line " failed")) (Exit 0))
            end
        | Some (Redircmd sub file _ mode fd) =>
            match string_at buf file with
            | None => Crash "file"
            | Some path =>
                Close fd (Open path mode (λ r,
                  if r <? 0 then Say 2 (bytes_of "open " ++ path ++ bytes_of (line " failed")) (Exit 1)
                  else runcmd fuel h buf sub))
            end
        | Some (Listcmd l r) =>
            fork1 (λ pid, if pid =? 0 then runcmd fuel h buf l else Wait (runcmd fuel h buf r))
        | Some (Pipecmd l r) =>
            MkPipe (λ p,
              match p with
              | None => panic "pipe"
              | Some (p0, p1) =>
                  fork1 (λ pid, if pid =? 0 then Close 1 (Dup p1 (λ _, Close p0 (Close p1 (runcmd fuel h buf l)))) else
                  fork1 (λ pid, if pid =? 0 then Close 0 (Dup p0 (λ _, Close p0 (Close p1 (runcmd fuel h buf r)))) else
                  Close p0 (Close p1 (Wait (Wait (Exit 0))))))
              end)
        | Some (Backcmd sub) => fork1 (λ pid, if pid =? 0 then runcmd fuel h buf sub else Exit 0)
        end
  end.

(** ** Open files *)

(** A process is named by its place in the tree of forks, a pipe by the process
    that made it and the number of its children at that time. *)
Definition name : Type := list nat.
Inductive fobj :=
| Inherited (fd : Z)
| OpenFile (path : list Z) (mode : Z)
| PipeRead (id : name * nat)
| PipeWrite (id : name * nat).
Notation fdtable := (gmap Z fobj).

(** The lowest descriptor that is free, as [fdalloc] finds it. *)
Definition lowest (t : fdtable) : option Z := snd <$> list_find (λ fd, t !! fd = None) (seqZ 0 NOFILE).
Definition do_open (o : fobj) (t : fdtable) : option (Z * fdtable) :=
  fd ← lowest t;
  Some (fd, <[fd := o]> t).
Definition do_dup (fd : Z) (t : fdtable) : option (Z * fdtable) :=
  o ← t !! fd;
  do_open o t.
Definition do_pipe (id : name * nat) (t : fdtable) : option (Z * Z * fdtable) :=
  '(p0, t) ← do_open (PipeRead id) t;
  '(p1, t) ← do_open (PipeWrite id) t;
  Some (p0, p1, t).

(** A program that was started: its arguments and its open files. *)
Definition launch : Type := list (list Z) * fdtable.

(** ** What a command means *)

(** The programs that the process [n], with [i] children so far, starts for [c]. *)
Fixpoint launches (n : name) (i : nat) (c : cmd) (t : fdtable) : list launch :=
  match c with
  | Exec [] => []
  | Exec ws => [(ws, t)]
  | Redir c r => launches n i c (<[r_fd r := OpenFile (r_file r) (r_mode r)]> t)
  | ShGrammar.Pipe c1 c2 =>
      launches (n ++ [i]) 0 c1 (<[1 := PipeWrite (n, i)]> t) ++ launches (n ++ [S i]) 0 c2 (<[0 := PipeRead (n, i)]> t)
  | ShGrammar.List c1 c2 => launches (n ++ [i]) 0 c1 t ++ launches n (S i) c2 t
  | Back c => launches (n ++ [i]) 0 c t
  end.

(** The programs that a process is going to start when no system call fails. *)
Fixpoint expect (n : name) (i : nat) (t : fdtable) (c : prog) : list launch :=
  match c with
  | Exit _ | Crash _ => []
  | Execv _ argv _ => [(argv, t)]
  | Close fd k => expect n i (delete fd t) k
  | Open path mode k => match do_open (OpenFile path mode) t with Some (fd, t) => expect n i t (k fd) | None => [] end
  | Dup fd k => match do_dup fd t with Some (fd, t) => expect n i t (k fd) | None => expect n i t (k (-1)) end
  | MkPipe k => match do_pipe (n, i) t with Some (p0, p1, t) => expect n i t (k (Some (p0, p1))) | None => [] end
  | Fork k => expect (n ++ [i]) 0 t (k 0) ++ expect n (S i) t (k 1)
  | Wait k | Say _ _ k => expect n i t k
  end.

(** ** Processes *)

Inductive status := Live (c : prog) | Program (argv : list (list Z)) | Zombie (st : Z).
Record task := Task { t_name : name; t_kids : nat; t_fds : fdtable; t_parent : nat; t_status : status }.
Record tasks := Tasks { table : gmap nat task; started : list launch; said : list (Z * list Z) }.

(** The task goes on with [c], and with other open files. *)
Definition goes (P : task) (t : fdtable) (c : prog) : task := Task (t_name P) (t_kids P) t (t_parent P) (Live c).
(** [exit] closes the files and leaves the children to process 1. *)
Definition dies (P : task) (st : Z) : task := Task (t_name P) (t_kids P) ∅ (t_parent P) (Zombie st).
Definition orphan (p : nat) (P : task) : task :=
  Task (t_name P) (t_kids P) (t_fds P) (if decide (t_parent P = p) then 1%nat else t_parent P) (t_status P).
Definition exits (p : nat) (P : task) (st : Z) (m : gmap nat task) : gmap nat task := <[p := dies P st]> (orphan p <$> m).

(** A step of a process, with [false] when a system call fails. *)
Inductive step (s : tasks) : bool → tasks → Prop :=
| st_exit p P st : table s !! p = Some P → t_status P = Live (Exit st) → step s true (Tasks (exits p P st (table s)) (started s) (said s))
| st_ends p P argv st : table s !! p = Some P → t_status P = Program argv → step s true (Tasks (exits p P st (table s)) (started s) (said s))
| st_exec p P path argv k : table s !! p = Some P → t_status P = Live (Execv path argv k) →
    step s true (Tasks (<[p := Task (t_name P) (t_kids P) (t_fds P) (t_parent P) (Program argv)]> (table s)) (started s ++ [(argv, t_fds P)]) (said s))
| st_exec_fails p P path argv k : table s !! p = Some P → t_status P = Live (Execv path argv k) →
    step s false (Tasks (<[p := goes P (t_fds P) k]> (table s)) (started s) (said s))
| st_close p P fd k : table s !! p = Some P → t_status P = Live (Close fd k) →
    step s true (Tasks (<[p := goes P (delete fd (t_fds P)) k]> (table s)) (started s) (said s))
| st_open p P path mode k fd t : table s !! p = Some P → t_status P = Live (Open path mode k) → do_open (OpenFile path mode) (t_fds P) = Some (fd, t) →
    step s true (Tasks (<[p := goes P t (k fd)]> (table s)) (started s) (said s))
| st_open_fails p P path mode k : table s !! p = Some P → t_status P = Live (Open path mode k) →
    step s false (Tasks (<[p := goes P (t_fds P) (k (-1))]> (table s)) (started s) (said s))
| st_dup p P fd k fd' t : table s !! p = Some P → t_status P = Live (Dup fd k) → default (-1, t_fds P) (do_dup fd (t_fds P)) = (fd', t) →
    step s true (Tasks (<[p := goes P t (k fd')]> (table s)) (started s) (said s))
| st_pipe p P k p0 p1 t : table s !! p = Some P → t_status P = Live (MkPipe k) → do_pipe (t_name P, t_kids P) (t_fds P) = Some (p0, p1, t) →
    step s true (Tasks (<[p := goes P t (k (Some (p0, p1)))]> (table s)) (started s) (said s))
| st_pipe_fails p P k : table s !! p = Some P → t_status P = Live (MkPipe k) →
    step s false (Tasks (<[p := goes P (t_fds P) (k None)]> (table s)) (started s) (said s))
| st_fork p P k q : table s !! p = Some P → t_status P = Live (Fork k) → table s !! q = None → (1 < q)%nat →
    step s true (Tasks (<[q := Task (t_name P ++ [t_kids P]) 0 (t_fds P) p (Live (k 0))]>
      (<[p := Task (t_name P) (S (t_kids P)) (t_fds P) (t_parent P) (Live (k (Z.of_nat q)))]> (table s))) (started s) (said s))
| st_fork_fails p P k : table s !! p = Some P → t_status P = Live (Fork k) →
    step s false (Tasks (<[p := goes P (t_fds P) (k (-1))]> (table s)) (started s) (said s))
| st_wait p P k q Q st : table s !! p = Some P → t_status P = Live (Wait k) → table s !! q = Some Q → t_parent Q = p → t_status Q = Zombie st →
    step s true (Tasks (delete q (<[p := goes P (t_fds P) k]> (table s))) (started s) (said s))
| st_wait_none p P k : table s !! p = Some P → t_status P = Live (Wait k) → (∀ q Q, table s !! q = Some Q → t_parent Q ≠ p) →
    step s true (Tasks (<[p := goes P (t_fds P) k]> (table s)) (started s) (said s))
| st_say p P fd text k : table s !! p = Some P → t_status P = Live (Say fd text k) →
    step s true (Tasks (<[p := goes P (t_fds P) k]> (table s)) (started s) (said s ++ [(fd, text)])).

(** Any number of steps; [ok] tells whether all system calls succeeded. *)
Inductive steps : bool → tasks → tasks → Prop :=
| sts_nil s : steps true s s
| sts_snoc b ok s s1 s2 : steps b s s1 → step s1 ok s2 → steps (b && ok) s s2.

(** Process [p] about to do [c]. *)
Definition alone (p : nat) (t : fdtable) (c : prog) : tasks := Tasks {[p := Task [] 0 t 1 (Live c)]} [] [].

(** ** No program is lost or started twice *)

(** A process that only reports an error. *)
Fixpoint silent (c : prog) : Prop := match c with Exit _ => True | Say _ _ k => silent k | _ => False end.
(** A process that gives up when a system call fails, and does the same whatever the number of its child. *)
Fixpoint careful (c : prog) : Prop :=
  match c with
  | Exit _ | Crash _ => True
  | Execv _ _ k => silent k
  | Close _ k | Wait k | Say _ _ k => careful k
  | Open _ _ k => silent (k (-1)) ∧ ∀ fd, 0 ≤ fd → careful (k fd)
  | Dup _ k => ∀ fd, careful (k fd)
  | MkPipe k => silent (k None) ∧ ∀ p, careful (k (Some p))
  | Fork k => silent (k (-1)) ∧ careful (k 0) ∧ careful (k 1) ∧ ∀ pid, 0 < pid → k pid = k 1
  end.
Lemma silent_careful c : silent c → careful c.
Proof. induction c; cbn; auto; done. Qed.
Lemma silent_expect c n i t : silent c → expect n i t c = [].
Proof. induction c; cbn; auto; done. Qed.

Definition expects_task (P : task) : list launch := match t_status P with Live c => expect (t_name P) (t_kids P) (t_fds P) c | _ => [] end.
Definition expects (m : gmap nat task) : list launch := concat (expects_task ∘ snd <$> map_to_list m).
Definition all_careful (m : gmap nat task) : Prop := map_Forall (λ _ P, match t_status P with Live c => careful c | _ => True end) m.

Lemma concat_perm {A} (l l' : list (list A)) : l ≡ₚ l' → concat l ≡ₚ concat l'.
Proof. induction 1; cbn; [done|by f_equiv|by rewrite !app_assoc, (Permutation_app_comm y x)|by etrans]. Qed.
Lemma expects_new m p P : m !! p = None → expects (<[p := P]> m) ≡ₚ expects_task P ++ expects m.
Proof. intros Hp. unfold expects. rewrite concat_perm; [|apply fmap_Permutation, map_to_list_insert, Hp]. done. Qed.
Lemma expects_at m p P : m !! p = Some P → expects m ≡ₚ expects_task P ++ expects (delete p m).
Proof. intros Hp. rewrite <-(insert_delete_id m p P Hp) at 1. apply expects_new, lookup_delete_eq. Qed.
Lemma expects_insert m p P : expects (<[p := P]> m) ≡ₚ expects_task P ++ expects (delete p m).
Proof. rewrite <-insert_delete_eq. apply expects_new, lookup_delete_eq. Qed.
Lemma expects_orphan p m : expects (orphan p <$> m) = expects m.
Proof. unfold expects. rewrite map_to_list_fmap, <-list_fmap_compose. done. Qed.
Lemma orphan_careful p m : all_careful m → all_careful (orphan p <$> m).
Proof. intros Hm. apply map_Forall_fmap. by eapply map_Forall_impl; [exact Hm|]. Qed.
Lemma expects_exits m p P st : m !! p = Some P → expects_task P = [] → expects (exits p P st m) ≡ₚ expects m.
Proof.
  intros Hp He. unfold exits. rewrite expects_insert, (expects_at m p P Hp), He. cbn. by rewrite <-fmap_delete, expects_orphan.
Qed.

(** What is started and what is still to be started, with [Q] the steps that fail. *)
Definition balance (ok : bool) (s s' : tasks) : Prop :=
  if ok then started s' ++ expects (table s') ≡ₚ started s ++ expects (table s) else started s' ++ expects (table s') ⊆+ started s ++ expects (table s).

(** A process goes on as expected, or gives up. *)
Lemma goes_balance s p P P' out : table s !! p = Some P → expects_task P' = expects_task P → balance true s (Tasks (<[p := P']> (table s)) (started s) out).
Proof. intros Hp He. cbn. by rewrite expects_insert, (expects_at (table s) p P Hp), He. Qed.
Lemma gives_up s p P P' out : table s !! p = Some P → expects_task P' = [] → balance false s (Tasks (<[p := P']> (table s)) (started s) out).
Proof.
  intros Hp He. cbn. rewrite expects_insert, (expects_at (table s) p P Hp), He. cbn. apply submseteq_skips_l, submseteq_inserts_l. done.
Qed.

Lemma lowest_nonneg t fd : lowest t = Some fd → 0 ≤ fd.
Proof.
  unfold lowest. intros ([j x] & (Hj & _)%list_find_Some & ->)%fmap_Some. apply lookup_seqZ in Hj as [-> ?]. cbn. lia.
Qed.
Lemma step_balance s ok s' : all_careful (table s) → step s ok s' → all_careful (table s') ∧ balance ok s s'.
Proof.
  intros Hc Hst. assert (∀ p P c, table s !! p = Some P → t_status P = Live c → careful c ∧ expects_task P = expect (t_name P) (t_kids P) (t_fds P) c) as Hlive.
  { intros p P c Hp Hs. split; [specialize (Hc p P Hp); cbn in Hc; by rewrite Hs in Hc|]. unfold expects_task. by rewrite Hs. }
  assert (∀ p P, match t_status P with Live c => careful c | _ => True end → all_careful (<[p := P]> (table s))) as Hins by (intros; by apply map_Forall_insert_2).
  destruct Hst as [p P st Hp Hs|p P argv st Hp Hs|p P path argv k Hp Hs|p P path argv k Hp Hs|p P fd k Hp Hs|p P path mode k fd t Hp Hs Ho|p P path mode k Hp Hs|p P fd k fd' t Hp Hs Ho
    |p P k p0 p1 t Hp Hs Ho|p P k Hp Hs|p P k q Hp Hs Hq Hq0|p P k Hp Hs|p P k q Q st Hp Hs Hq Hpar Hz|p P k Hp Hs Hno|p P fd text k Hp Hs]; cbn [table];
    try (destruct (Hlive p P _ Hp Hs) as [Hcar He]; cbn [careful expect] in Hcar, He).
  - split; [apply map_Forall_insert_2; [done|by apply orphan_careful]|]. cbn. by rewrite (expects_exits _ _ _ _ Hp).
  - split; [apply map_Forall_insert_2; [done|by apply orphan_careful]|]. cbn. rewrite (expects_exits _ _ _ _ Hp); [done|]. unfold expects_task. by rewrite Hs.
  - split; [by apply Hins|]. cbn. rewrite expects_insert, (expects_at (table s) p P Hp), He. cbn. by rewrite <-app_assoc.
  - split; [by apply Hins, silent_careful|]. apply (gives_up s p P); [done|]. by apply silent_expect.
  - split; [by apply Hins|]. by apply (goes_balance s p P).
  - destruct Hcar as [_ Hk]. rewrite Ho in He. split; [apply Hins, Hk; unfold do_open in Ho; apply bind_Some in Ho as (fd' & Hfd & [= -> _]); by eapply lowest_nonneg|]. by apply (goes_balance s p P).
  - destruct Hcar as [Hk _]. split; [by apply Hins, silent_careful|]. apply (gives_up s p P); [done|]. by apply silent_expect.
  - split; [apply Hins, Hcar|]. apply (goes_balance s p P); [done|]. rewrite He. by destruct (do_dup fd (t_fds P)) as [[]|]; cbn in Ho; simplify_eq.
  - destruct Hcar as [_ Hk]. rewrite Ho in He. split; [apply Hins, Hk|]. by apply (goes_balance s p P).
  - destruct Hcar as [Hk _]. split; [by apply Hins, silent_careful|]. apply (gives_up s p P); [done|]. by apply silent_expect.
  - destruct Hcar as (_ & H0 & H1 & Hk). rewrite (Hk (Z.of_nat q)) by lia. split; [apply map_Forall_insert_2; [done|by apply Hins]|]. cbn.
    rewrite expects_new, expects_insert, (expects_at (table s) p P Hp), He by (by rewrite lookup_insert_ne by congruence). cbn. by rewrite <-app_assoc.
  - destruct Hcar as [Hk _]. split; [by apply Hins, silent_careful|]. apply (gives_up s p P); [done|]. by apply silent_expect.
  - assert (p ≠ q) as Hne by (intros ->; congruence). split; [by apply map_Forall_delete, Hins|]. cbn.
    pose proof (goes_balance s p P (goes P (t_fds P) k) (said s) Hp ltac:(done)) as Hb. cbn in Hb. rewrite <-Hb.
    rewrite (expects_at (<[p := _]> _) q Q) by (by rewrite lookup_insert_ne). assert (expects_task Q = []) as -> by (unfold expects_task; by rewrite Hz). done.
  - split; [by apply Hins|]. by apply (goes_balance s p P).
  - split; [by apply Hins|]. by apply (goes_balance s p P).
Qed.
Lemma steps_balance b s s' : all_careful (table s) → steps b s s' → all_careful (table s') ∧ balance b s s'.
Proof.
  intros Hc. induction 1 as [s|b ok s s1 s2 _ IH Hst]; [split; [done|by cbn]|]. destruct (IH Hc) as [Hc1 Hb1]. destruct (step_balance _ _ _ Hc1 Hst) as [Hc2 Hb2]. split; [done|].
  destruct b, ok; cbn in *; [by etrans|by rewrite Hb2, Hb1|by rewrite Hb2|by etrans].
Qed.

(** ** [runcmd] starts what the command means *)

Lemma runcmd_careful fuel h buf p : careful (runcmd fuel h buf p).
Proof.
  revert p. induction fuel as [|fuel IH]; intros p; [done|]. cbn [runcmd]. destruct (p =? 0); [done|]. destruct (h !! p) as [[argv eargv|sub file efile mode fd|l r|l r|sub]|]; [..|done].
  - by destruct (strings_at buf argv) as [[|path args]|].
  - destruct (string_at buf file) as [path|]; [|done]. cbn. split; [done|]. intros r Hr. destruct (Z.ltb_spec r 0); [lia|apply IH].
  - cbn. split; [done|]. intros [p0 p1]. cbn. split; [done|]. split; [intros _; apply IH|]. split; [|intros pid Hpid; by destruct pid].
    split; [done|]. split; [intros _; apply IH|]. split; [done|]. intros pid Hpid. by destruct pid.
  - cbn. split_and!; [done|apply IH|apply IH|intros pid Hpid; by destruct pid].
  - cbn. split_and!; [done|apply IH|done|intros pid Hpid; by destruct pid].
Qed.

Lemma string_at_cstr buf q w : cstr buf q w → string_at buf q = Some w.
Proof.
  intros (H0 & Ht & Hz). unfold string_at. assert (drop q buf = w ++ 0 :: drop (S (q + length w)) buf) as ->.
  { rewrite <-(take_drop (length w) (drop q buf)), Ht. f_equal. rewrite drop_drop. by apply drop_S. }
  rewrite strlen_text by done. cbn. by rewrite Nat2Z.id, take_app_length.
Qed.
Lemma strings_at_rep buf argv ws :
  (∀ i w, ws !! i = Some w → ∃ q, argv !! i = Some (Some q) ∧ cstr buf q w) → argv !! length ws = Some None → strings_at buf argv = Some ws.
Proof.
  revert argv. induction ws as [|w ws IH]; intros argv Hw Hn; [by destruct argv as [|[]]|]. destruct (Hw 0%nat w) as (q & Hq & Hc); [done|].
  destruct argv as [|a argv]; [done|]. injection Hq as ->. cbn [strings_at]. rewrite (string_at_cstr _ _ _ Hc). cbn. rewrite (IH argv); [done| |done]. intros i w0 Hi. by apply (Hw (S i)).
Qed.

(** Input and output are open, and nothing else. *)
Definition stdio (t : fdtable) : Prop := ∀ fd, is_Some (t !! fd) ↔ 0 ≤ fd ≤ 2.
Lemma stdio_none t fd : stdio t → ¬ 0 ≤ fd ≤ 2 → t !! fd = None.
Proof. intros Ht Hfd. apply eq_None_not_Some. by intros ?%Ht. Qed.
Lemma stdio_insert t fd o : stdio t → 0 ≤ fd ≤ 2 → stdio (<[fd := o]> t).
Proof. intros Ht Hfd fd'. destruct (decide (fd = fd')) as [->|]; [rewrite lookup_insert_eq; split; [done|by eexists]|by rewrite lookup_insert_ne]. Qed.
Lemma lowest_is t fd : 0 ≤ fd < NOFILE → (∀ j, 0 ≤ j < fd → is_Some (t !! j)) → t !! fd = None → lowest t = Some fd.
Proof.
  intros Hfd Hlow Hn. unfold lowest. apply fmap_Some. exists (Z.to_nat fd, fd). split; [|done]. apply list_find_Some. split_and!; [|done|].
  - apply lookup_seqZ. lia.
  - intros j y Hj Hlt Hy. apply lookup_seqZ in Hj as [-> ?]. destruct (Hlow (0 + Z.of_nat j)) as [? ?]; [lia|congruence].
Qed.
Lemma do_open_is o t fd : 0 ≤ fd < NOFILE → (∀ j, 0 ≤ j < fd → is_Some (t !! j)) → t !! fd = None → do_open o t = Some (fd, <[fd := o]> t).
Proof. intros H1 H2 H3. unfold do_open. by rewrite (lowest_is t fd). Qed.

(** Closing a standard descriptor makes it the one that is opened next. *)
Lemma reopen o t fd : stdio t → fd = 0 ∨ fd = 1 → do_open o (delete fd t) = Some (fd, <[fd := o]> t).
Proof.
  intros Ht Hfd. rewrite (do_open_is o _ fd); [by rewrite insert_delete_eq|unfold NOFILE; lia| |apply lookup_delete_eq].
  intros j Hj. rewrite lookup_delete_ne by lia. apply Ht. lia.
Qed.
Lemma pipe_fds id t : stdio t → do_pipe id t = Some (3, 4, <[4 := PipeWrite id]> (<[3 := PipeRead id]> t)).
Proof.
  intros Ht. assert (∀ j, 0 ≤ j < 3 → is_Some (t !! j)) as Hlow.
  { intros j Hj. apply Ht. lia. }
  unfold do_pipe. rewrite (do_open_is _ t 3); [|unfold NOFILE; lia|done|apply stdio_none; [done|lia]]. cbn.
  rewrite (do_open_is _ _ 4); [done|unfold NOFILE; lia| |by rewrite lookup_insert_ne by done; apply stdio_none; [done|lia]].
  intros j Hj. destruct (decide (j = 3)) as [->|]; [rewrite lookup_insert_eq; by eexists|]. rewrite lookup_insert_ne by done. apply Hlow. lia.
Qed.
(** A child of a pipeline: one end replaces [fd], both others are closed. *)
Lemma pipe_child id t fd (e : Z) o : stdio t → (fd = 0 ∨ fd = 1) → (e = 3 ∧ o = PipeRead id ∨ e = 4 ∧ o = PipeWrite id) →
  ∃ t', do_dup e (delete fd (<[4 := PipeWrite id]> (<[3 := PipeRead id]> t))) = Some (fd, t') ∧ delete 4 (delete 3 t') = <[fd := o]> t.
Proof.
  intros Ht Hfd He. set (t2 := <[4 := PipeWrite id]> (<[3 := PipeRead id]> t)). assert (delete fd t2 !! e = Some o) as Hl.
  { unfold t2. destruct He as [[-> ->]|[-> ->]]; rewrite lookup_delete_ne by lia; by simplify_map_eq. }
  unfold do_dup. rewrite Hl. cbn. rewrite (do_open_is o _ fd); [|unfold NOFILE; lia| |apply lookup_delete_eq].
  - eexists. split; [done|]. apply map_eq. intros j. pose proof (stdio_none t 3 Ht ltac:(lia)). pose proof (stdio_none t 4 Ht ltac:(lia)). unfold t2.
    destruct (decide (j = 4)) as [->|]; [rewrite lookup_delete_eq, lookup_insert_ne by lia; done|]. rewrite lookup_delete_ne by done.
    destruct (decide (j = 3)) as [->|]; [rewrite lookup_delete_eq, lookup_insert_ne by lia; done|]. rewrite lookup_delete_ne by done.
    destruct (decide (j = fd)) as [->|]; [by rewrite !lookup_insert_eq|]. by rewrite !lookup_insert_ne, lookup_delete_ne, !lookup_insert_ne by done.
  - intros j Hj. rewrite lookup_delete_ne by lia. unfold t2. rewrite !lookup_insert_ne by lia. apply Ht. lia.
Qed.

(** Redirections of standard input and output only. *)
Fixpoint standard (c : cmd) : Prop :=
  match c with
  | Exec _ => True
  | Redir c r => (r_fd r = 0 ∨ r_fd r = 1) ∧ standard c
  | ShGrammar.Pipe c1 c2 | ShGrammar.List c1 c2 => standard c1 ∧ standard c2
  | Back c => standard c
  end.

(** The results of [fork] in the child and in the parent. *)
Ltac eval_pids :=
  change (0 =? -1) with false; change (1 =? -1) with false; change (0 =? 0) with true; change (1 =? 0) with false; cbv iota; cbn [expect].

Lemma runcmd_expect c : ∀ fuel h buf p n i t, (depth c ≤ fuel)%nat → rep (λ q _ w, cstr buf q w) h p c → standard c → stdio t →
  expect n i t (runcmd fuel h buf p) = launches n i c t.
Proof.
  induction c as [ws|c IH r|c1 IH1 c2 IH2|c1 IH1 c2 IH2|c IH]; intros fuel h buf p n i t Hf [Hp Hr] Hs Ht; cbn [depth] in Hf; (destruct fuel as [|fuel]; [lia|]);
    cbn [runcmd]; rewrite (proj2 (Z.eqb_neq p 0)) by done.
  - destruct Hr as (Hl & argv & eargv & -> & [_ _ Ha Hn]). rewrite (strings_at_rep buf argv ws); [by destruct ws| |apply Hn; lia].
    intros j w (q & e & Hq & _ & Hc)%Ha. by exists q.
  - destruct Hr as (sub & q & e & -> & Hw & Hr), Hs as [Hfd Hs]. rewrite (string_at_cstr _ _ _ Hw). cbn [expect]. rewrite reopen by done.
    destruct (Z.ltb_spec (r_fd r) 0); [lia|]. cbn [launches]. apply IH; [lia|done|done|]. apply stdio_insert; [done|lia].
  - destruct Hr as (p1 & p2 & -> & Hr1 & Hr2), Hs as [Hs1 Hs2]. cbn [expect]. rewrite pipe_fds by done. unfold fork1. cbn [expect launches].
    eval_pids.
    eval_pids. rewrite app_nil_r.
    destruct (pipe_child (n, i) t 1 4 _ Ht ltac:(tauto) (or_intror (conj eq_refl eq_refl))) as (tw & -> & ->).
    destruct (pipe_child (n, i) t 0 3 _ Ht ltac:(tauto) (or_introl (conj eq_refl eq_refl))) as (tr & -> & ->).
    rewrite IH1, IH2; [done|lia|done|done|apply stdio_insert; [done|lia]|lia|done|done|apply stdio_insert; [done|lia]].
  - destruct Hr as (p1 & p2 & -> & Hr1 & Hr2), Hs as [Hs1 Hs2]. unfold fork1. cbn [expect launches].
    eval_pids. rewrite IH1, IH2; by (done || lia).
  - destruct Hr as (sub & -> & Hr). unfold fork1. cbn [expect launches].
    eval_pids. rewrite app_nil_r. apply IH; by (done || lia).
Qed.

Lemma redirs_standard ts rs c : redirs ts rs → standard c → standard (wrap c rs).
Proof.
  intros Hr. revert c. induction Hr as [|x w r ts rs Hx Hr IH]; intros c Hc; [done|]. apply IH. split; [|done].
  unfold redir_of in Hx. repeat case_match; simplify_eq/=; tauto.
Qed.
Lemma items_standard ts ws rs c : items ts ws rs → standard c → standard (wrap c rs).
Proof.
  intros Hr. revert c. induction Hr as [| |x w r ts ws rs Hx Hr IH]; intros c Hc; [done|auto|]. apply IH. split; [|done].
  unfold redir_of in Hx. repeat case_match; simplify_eq/=; tauto.
Qed.
Lemma backs_standard n c : standard c → standard (backs n c).
Proof. unfold backs. intros Hc. induction n as [|n IH]; [done|]. by rewrite Nat.iter_succ. Qed.
Lemma grammar_standard :
  (∀ ts c, gline ts c → standard c) ∧ (∀ ts c, gpipe ts c → standard c) ∧ (∀ ts c, gexec ts c → standard c).
Proof.
  apply grammar_ind; intros; try done.
  - by apply backs_standard.
  - split; [by apply backs_standard|done].
  - by eapply items_standard.
  - by eapply redirs_standard.
Qed.

(** Nothing is left to do. *)
Definition finished (s : tasks) : Prop := map_Forall (λ _ P, match t_status P with Live _ => False | _ => True end) (table s).
Lemma finished_expects s : finished s → expects (table s) = [].
Proof.
  intros Hf. unfold expects. assert (Forall (λ x, expects_task x.2 = []) (map_to_list (table s))) as Ha.
  { apply Forall_forall. intros [p P] Hp%elem_of_map_to_list. specialize (Hf p P Hp). unfold expects_task. cbn in *. by destruct (t_status P). }
  induction Ha as [|x l Hx Hl IH]; [done|]. cbn. by rewrite Hx.
Qed.
Lemma runs_balance fuel h buf p c t b s q : (depth c ≤ fuel)%nat → rep (λ q _ w, cstr buf q w) h p c → standard c → stdio t →
  steps b (alone q t (runcmd fuel h buf p)) s → balance b (Tasks ∅ (launches [] 0 c t) []) s ∧ (finished s → b = true → started s ≡ₚ launches [] 0 c t).
Proof.
  intros Hd Hr Hs Ht Hst. apply steps_balance in Hst as [_ Hb]; [|apply map_Forall_singleton; apply runcmd_careful].
  assert (expects (table (alone q t (runcmd fuel h buf p))) = launches [] 0 c t) as He.
  { unfold expects, alone. cbn [table]. rewrite map_to_list_singleton. cbn. rewrite app_nil_r. by apply runcmd_expect. }
  assert (balance b (Tasks ∅ (launches [] 0 c t) []) s) as Hb'.
  { unfold balance in *. rewrite He in Hb. change (expects (table (Tasks ∅ _ _))) with (@nil launch). rewrite app_nil_r. by destruct b. }
  split; [done|]. intros Hf ->. unfold balance in Hb. rewrite (finished_expects s Hf), app_nil_r in Hb. rewrite He in Hb. done.
Qed.
