(* ===== verification/ShProc.v ===== *)
(** * The processes of a command line

    A run of [runcmd] never gets stuck and never goes on for ever; with the parser
    before it, the line starts the programs that its command means. *)

From S2P Require Import Prelude Riscv Memory CString State Printf PrintfSpec Bytes Ulib Uprintf Sh ShGrammar ShParse ShTree ShThm ShPrint ShRun.

(** ** How long a process can go on *)

Fixpoint size (c : prog) : nat :=
  match c with
  | Exit _ | Crash _ => 1
  | Execv _ _ k => 2 + size k
  | Close _ k | Wait k | Say _ _ k => S (size k)
  | Open _ _ k => S (size (k (-1)) + size (k 0))
  | Dup _ k => S (size (k 0))
  | MkPipe k => S (size (k None) + size (k (Some (0, 0))))
  | Fork k => S (size (k (-1)) + size (k 0) + size (k 1))
  end.
(** The length does not depend on descriptors and process numbers, and nothing crashes. *)
Fixpoint orderly (c : prog) : Prop :=
  match c with
  | Exit _ => True
  | Crash _ => False
  | Execv _ _ k | Close _ k | Wait k | Say _ _ k => orderly k
  | Open _ _ k => orderly (k (-1)) ∧ ∀ fd, 0 ≤ fd → orderly (k fd) ∧ size (k fd) = size (k 0)
  | Dup _ k => ∀ fd, orderly (k fd) ∧ size (k fd) = size (k 0)
  | MkPipe k => orderly (k None) ∧ ∀ p, orderly (k (Some p)) ∧ size (k (Some p)) = size (k (Some (0, 0)))
  | Fork k => orderly (k (-1)) ∧ orderly (k 0) ∧ ∀ pid, 0 < pid → orderly (k pid) ∧ size (k pid) = size (k 1)
  end.

Definition weight (P : task) : nat := match t_status P with Live c => size c | Program _ => 1 | Zombie _ => 0 end.
Definition total (m : gmap nat task) : nat := sum_list (weight ∘ snd <$> map_to_list m).
Definition all_orderly (m : gmap nat task) : Prop := map_Forall (λ _ P, match t_status P with Live c => orderly c | _ => True end) m.

Lemma sum_list_perm (l l' : list nat) : l ≡ₚ l' → sum_list l = sum_list l'.
Proof. induction 1; cbn; lia. Qed.
Lemma total_new m p P : m !! p = None → total (<[p := P]> m) = (weight P + total m)%nat.
Proof. intros Hp. unfold total. rewrite (sum_list_perm _ _ (fmap_Permutation _ _ _ (map_to_list_insert _ _ P Hp))). done. Qed.
Lemma total_at m p P : m !! p = Some P → total m = (weight P + total (delete p m))%nat.
Proof. intros Hp. rewrite <-(insert_delete_id m p P Hp) at 1. apply total_new, lookup_delete_eq. Qed.
Lemma total_insert m p P P' : m !! p = Some P → (weight P' < weight P)%nat → (total (<[p := P']> m) < total m)%nat.
Proof. intros Hp Hw. rewrite <-insert_delete_eq, total_new, (total_at m p P Hp) by apply lookup_delete_eq. lia. Qed.
Lemma total_orphan p m : total (orphan p <$> m) = total m.
Proof. unfold total. rewrite map_to_list_fmap, <-list_fmap_compose. done. Qed.
Lemma total_exits m p P st : m !! p = Some P → (0 < weight P)%nat → (total (exits p P st m) < total m)%nat.
Proof. intros Hp Hw. unfold exits. rewrite <-(total_orphan p m). eapply total_insert; [by rewrite lookup_fmap, Hp|done]. Qed.
Lemma orphan_orderly p m : all_orderly m → all_orderly (orphan p <$> m).
Proof. intros Hm. apply map_Forall_fmap. by eapply map_Forall_impl; [exact Hm|]. Qed.

(** Every step takes something off. *)
Lemma step_less s ok s' : all_orderly (table s) → step s ok s' → all_orderly (table s') ∧ (total (table s') < total (table s))%nat.
Proof.
  intros Hc Hst. assert (∀ p P c, table s !! p = Some P → t_status P = Live c → orderly c ∧ weight P = size c) as Hlive.
  { intros p P c Hp Hs. split; [specialize (Hc p P Hp); cbn in Hc; by rewrite Hs in Hc|]. unfold weight. by rewrite Hs. }
  assert (∀ p P P' out new, table s !! p = Some P → match t_status P' with Live c => orderly c | _ => True end → (weight P' < weight P)%nat →
    all_orderly (table (Tasks (<[p := P']> (table s)) new out)) ∧ (total (table (Tasks (<[p := P']> (table s)) new out)) < total (table s))%nat) as Hins.
  { intros p P P' out new Hp Ho Hw. split; [by apply map_Forall_insert_2|by apply (total_insert _ p P)]. }
  assert (∀ p P st out new, table s !! p = Some P → (0 < weight P)%nat →
    all_orderly (table (Tasks (exits p P st (table s)) new out)) ∧ (total (table (Tasks (exits p P st (table s)) new out)) < total (table s))%nat) as Hex.
  { intros p P st out new Hp Hw. split; [apply map_Forall_insert_2; [done|by apply orphan_orderly]|by apply total_exits]. }
  destruct Hst as [p P st Hp Hs|p P argv st Hp Hs|p P path argv k Hp Hs|p P path argv k Hp Hs|p P fd k Hp Hs|p P path mode k fd t Hp Hs Ho|p P path mode k Hp Hs|p P fd k fd' t Hp Hs Ho
    |p P k p0 p1 t Hp Hs Ho|p P k Hp Hs|p P k q Hp Hs Hq Hq0|p P k Hp Hs|p P k q Q st Hp Hs Hq Hpar Hz|p P k Hp Hs Hno|p P fd text k Hp Hs];
    try (destruct (Hlive p P _ Hp Hs) as [Hcar He]; cbn [orderly size] in Hcar, He).
  - apply Hex; [done|lia].
  - apply Hex; [done|]. unfold weight. rewrite Hs. lia.
  - apply (Hins p P); [done|done|]. cbn. lia.
  - apply (Hins p P); [done|done|]. cbn. lia.
  - apply (Hins p P); [done|done|]. cbn. lia.
  - assert (0 ≤ fd) as Hfd by (unfold do_open in Ho; apply bind_Some in Ho as (fd' & Hfd & [= -> _]); by eapply lowest_nonneg).
    destruct Hcar as [_ Hk]. destruct (Hk fd Hfd) as [Ho' Hsz]. apply (Hins p P); [done|done|]. cbn. lia.
  - destruct Hcar as [Hk _]. apply (Hins p P); [done|done|]. cbn. lia.
  - destruct (Hcar fd') as [Ho' Hsz]. apply (Hins p P); [done|done|]. cbn. lia.
  - destruct Hcar as [_ Hk]. destruct (Hk (p0, p1)) as [Ho' Hsz]. apply (Hins p P); [done|done|]. cbn. lia.
  - destruct Hcar as [Hk _]. apply (Hins p P); [done|done|]. cbn. lia.
  - destruct Hcar as (_ & H0 & Hk). destruct (Hk (Z.of_nat q) ltac:(lia)) as [H1 Hsz]. cbn [table]. split; [do 2 (apply map_Forall_insert_2; [done|]); exact Hc|].
    rewrite total_new by (rewrite lookup_insert_ne by congruence; done). rewrite <-insert_delete_eq, total_new, (total_at (table s) p P Hp) by apply lookup_delete_eq.
    unfold weight at 1 2. cbn. lia.
  - destruct Hcar as [Hk _]. apply (Hins p P); [done|done|]. cbn. lia.
  - assert (p ≠ q) as Hne by (intros ->; congruence). destruct (Hins p P (goes P (t_fds P) k) [] [] Hp ltac:(done) ltac:(cbn; lia)) as [Ho Ht]. cbn [table] in *. split; [by apply map_Forall_delete|].
    rewrite (total_at (<[p := _]> _) q Q) in Ht by (by rewrite lookup_insert_ne). lia.
  - apply (Hins p P); [done|done|]. cbn. lia.
  - apply (Hins p P); [done|done|]. cbn. lia.
Qed.

(** ** Nobody waits for ever *)

Definition alive (P : task) : Prop := match t_status P with Zombie _ => False | _ => True end.
(** A parent is process 1, which is not one of ours, or it is alive and has a shorter name. *)
Definition has_parent (m : gmap nat task) (Q : task) : Prop :=
  t_parent Q = 1%nat ∨ ∃ P, m !! t_parent Q = Some P ∧ alive P ∧ (length (t_name P) < length (t_name Q))%nat.
Definition family (m : gmap nat task) : Prop := m !! 1%nat = None ∧ map_Forall (λ _ Q, has_parent m Q) m.

(** A process that goes on keeps its name and its children. *)
Lemma family_goes m p P P' : family m → m !! p = Some P → alive P' → t_name P' = t_name P → t_parent P' = t_parent P → family (<[p := P']> m).
Proof.
  intros [H1 Hf] Hp Ha Hn Hpar. assert (p ≠ 1%nat) as Hne by congruence. split; [by rewrite lookup_insert_ne|].
  assert (∀ Q, has_parent m Q → has_parent (<[p := P']> m) Q) as Hmono.
  { intros Q [HQ|(R & HR & Hal & Hlen)]; [by left|right]. destruct (decide (t_parent Q = p)) as [E|Hd]; [|exists R; by rewrite lookup_insert_ne].
    exists P'. rewrite E in HR. rewrite E, lookup_insert_eq, Hn. by simplify_eq. }
  apply map_Forall_insert_2; [|eapply map_Forall_impl; [exact Hf|]; intros q Q; apply Hmono].
  apply Hmono. specialize (Hf p P Hp). cbn in Hf. unfold has_parent in *. by rewrite Hn, Hpar.
Qed.
Lemma family_exits m p P st : family m → m !! p = Some P → family (exits p P st m).
Proof.
  intros [H1 Hf] Hp. assert (p ≠ 1%nat) as Hne by congruence. unfold exits. split; [by rewrite lookup_insert_ne, lookup_fmap, H1|].
  intros q Q Hq. assert (∃ Q0, m !! q = Some Q0 ∧ t_name Q = t_name Q0 ∧ (t_parent Q = t_parent Q0 ∧ t_parent Q0 ≠ p ∨ t_parent Q = 1%nat)) as (Q0 & Hq0 & Hn & Hpar).
  { destruct (decide (p = q)) as [<-|Hd].
    - rewrite lookup_insert_eq in Hq. simplify_eq/=. exists P. split; [done|]. split; [done|]. left. split; [done|]. intros E. destruct (Hf p P Hp) as [?|(R & HR & _ & Hlen)]; [congruence|].
      rewrite E, Hp in HR. simplify_eq. lia.
    - rewrite lookup_insert_ne, lookup_fmap in Hq by done. apply fmap_Some in Hq as (Q0 & HQ0 & ->). exists Q0. split; [done|]. split; [done|]. cbn. case_decide; [by right|by left]. }
  destruct Hpar as [[Hpar Hnp]|Hpar]; [|by left]. destruct (Hf q Q0 Hq0) as [?|(R & HR & Hal & Hlen)]; [left; congruence|right]. exists (orphan p R). rewrite Hpar, lookup_insert_ne, lookup_fmap, HR by done.
  split; [done|]. by rewrite Hn.
Qed.
Lemma family_delete m q Q : family m → m !! q = Some Q → ¬ alive Q → family (delete q m).
Proof.
  intros [H1 Hf] Hq Hz. split; [by apply lookup_delete_None; right|]. intros r R [Hne Hr]%lookup_delete_Some. destruct (Hf r R Hr) as [?|(P & HP & Hal & Hlen)]; [by left|right].
  exists P. rewrite lookup_delete_ne; [done|]. intros E. rewrite <-E, Hq in HP. by simplify_eq.
Qed.
Lemma family_fork m p P q i fds c : family m → m !! p = Some P → alive P → m !! q = None → q ≠ 1%nat → family (<[q := Task (t_name P ++ [i]) 0 fds p (Live c)]> m).
Proof.
  intros [H1 Hf] Hp Ha Hq Hq1. split; [by rewrite lookup_insert_ne|]. assert (p ≠ q) as Hne by congruence. apply map_Forall_insert_2.
  - right. exists P. cbn. rewrite lookup_insert_ne, length_app by done. split; [done|]. split; [done|]. cbn. lia.
  - eapply map_Forall_impl; [exact Hf|]. intros r R [?|(S & HS & HR)]; [by left|right]. exists S. rewrite lookup_insert_ne; [done|congruence].
Qed.
Lemma step_family s ok s' : family (table s) → step s ok s' → family (table s').
Proof.
  intros Hf Hst. destruct Hst as [p P st Hp Hs|p P argv st Hp Hs|p P path argv k Hp Hs|p P path argv k Hp Hs|p P fd k Hp Hs|p P path mode k fd t Hp Hs Ho|p P path mode k Hp Hs|p P fd k fd' t Hp Hs Ho
    |p P k p0 p1 t Hp Hs Ho|p P k Hp Hs|p P k q Hp Hs Hq Hq0|p P k Hp Hs|p P k q Q st Hp Hs Hq Hpar Hz|p P k Hp Hs Hno|p P fd text k Hp Hs]; cbn [table];
    try solve [by apply family_exits|by eapply family_goes].
  - set (P1 := Task (t_name P) _ _ _ _). apply (family_fork _ p P1 q); [by eapply family_goes|by rewrite lookup_insert_eq|done|by rewrite lookup_insert_ne by congruence|lia].
  - apply (family_delete _ q Q); [by eapply family_goes|rewrite lookup_insert_ne by congruence; done|]. unfold alive. rewrite Hz. tauto.
Qed.

Lemma names_bound (m : gmap nat task) : ∃ N, map_Forall (λ _ Q, length (t_name Q) ≤ N)%nat m.
Proof.
  induction m as [|q Q m Hq [N IH]] using map_ind; [exists 0%nat; apply map_Forall_empty|]. exists (Nat.max N (length (t_name Q))). apply map_Forall_insert_2; [lia|].
  eapply map_Forall_impl; [exact IH|]. cbn. lia.
Qed.
(** A process that is alive can go on, or one of its children can. *)
Lemma task_progress s p P : all_orderly (table s) → family (table s) → table s !! p = Some P → alive P → ∃ ok s', step s ok s'.
Proof.
  intros Ho [H1 Hf]. destruct (names_bound (table s)) as [N HN]. remember (N - length (t_name P))%nat as n eqn:En. revert p P En.
  induction (lt_wf n) as [n _ IH]. intros p P -> Hp Ha. unfold alive in Ha. destruct (t_status P) as [c|argv|st] eqn:Hs; [|eexists _, _; exact (st_ends s p P argv 0 Hp Hs)|done].
  destruct c as [st|path argv k|fd k|path mode k|fd k|k|k|k|fd text k|why].
  - by eexists _, _; eapply st_exit.
  - by eexists _, _; eapply st_exec.
  - by eexists _, _; eapply st_close.
  - by eexists _, _; eapply st_open_fails.
  - destruct (default (-1, t_fds P) (do_dup fd (t_fds P))) as [fd' t] eqn:E. by eexists _, _; eapply st_dup.
  - by eexists _, _; eapply st_pipe_fails.
  - by eexists _, _; eapply st_fork_fails.
  - destruct (decide (filter (λ x, t_parent x.2 = p) (table s) = ∅)) as [He|(q & Q & [Hq Hpar]%map_lookup_filter_Some)%map_choose].
    + eexists _, _. eapply st_wait_none; [done|done|]. intros q Q Hq Hpar. assert (filter (λ x, t_parent x.2 = p) (table s) !! q = Some Q) as Hl by by apply map_lookup_filter_Some.
      rewrite He in Hl. done.
    + cbn in Hpar. destruct (t_status Q) as [c|argv|st] eqn:HQ; [| |eexists _, _; exact (st_wait s p P k q Q st Hp Hs Hq Hpar HQ)].
      all: destruct (Hf q Q Hq) as [?|(P' & HP' & _ & Hlen)]; [congruence|]; rewrite Hpar, Hp in HP'; injection HP' as <-; specialize (HN q Q Hq); cbn in HN;
        apply (IH (N - length (t_name Q))%nat ltac:(lia) q Q eq_refl Hq); unfold alive; by rewrite HQ.
  - by eexists _, _; eapply st_say.
  - specialize (Ho p P Hp). cbn in Ho. by rewrite Hs in Ho.
Qed.

(** ** [runcmd] *)

(** The calls of [fork]: the child, the parent, and the failure. *)
Lemma fork1_orderly (k : Z → prog) : orderly (k 0) → orderly (k 1) → (∀ pid, 0 < pid → k pid = k 1) → orderly (fork1 k).
Proof. intros H0 H1 Hk. cbn. split; [done|]. split; [done|]. intros pid Hpid. rewrite (proj2 (Z.eqb_neq pid (-1))), (Hk pid) by lia. done. Qed.
Lemma runcmd_orderly c : ∀ fuel h buf p, (depth c ≤ fuel)%nat → rep (λ q _ w, cstr buf q w) h p c → orderly (runcmd fuel h buf p).
Proof.
  induction c as [ws|c IH r|c1 IH1 c2 IH2|c1 IH1 c2 IH2|c IH]; intros fuel h buf p Hf [Hp Hr]; cbn [depth] in Hf; (destruct fuel as [|fuel]; [lia|]);
    cbn [runcmd]; rewrite (proj2 (Z.eqb_neq p 0)) by done.
  - destruct Hr as (Hl & argv & eargv & -> & [_ _ Ha Hn]). rewrite (strings_at_rep buf argv ws); [by destruct ws| |apply Hn; lia].
    intros j w (q & e & Hq & _ & Hc)%Ha. by exists q.
  - destruct Hr as (sub & q & e & -> & Hw & Hr). rewrite (string_at_cstr _ _ _ Hw). cbn [orderly]. split; [done|]. intros fd Hfd. rewrite (proj2 (Z.ltb_ge fd 0)) by done.
    split; [|done]. apply IH; [lia|done].
  - destruct Hr as (p1 & p2 & -> & Hr1 & Hr2). pose proof (IH1 fuel h buf p1 ltac:(lia) Hr1) as Ho1. pose proof (IH2 fuel h buf p2 ltac:(lia) Hr2) as Ho2.
    cbn [orderly]. split; [done|]. intros [p0 p3]. split; [|done]. apply fork1_orderly; [done|apply fork1_orderly|]; [done|done| |]; by intros [].
  - destruct Hr as (p1 & p2 & -> & Hr1 & Hr2). apply fork1_orderly; [by apply IH1; [lia|]|by apply IH2; [lia|]|by intros []].
  - destruct Hr as (sub & -> & Hr). apply fork1_orderly; [by apply IH; [lia|]|done|by intros []].
Qed.

(** ** Command lines *)

(** One step of some process. *)
Definition goes_on (s s' : tasks) : Prop := ∃ ok, step s ok s'.
Lemma steps_safe b s s' : all_orderly (table s) → family (table s) → steps b s s' → all_orderly (table s') ∧ family (table s').
Proof. intros Ho Hf. induction 1 as [s|b ok s s1 s2 _ IH Hst]; [done|]. destruct (IH Ho Hf) as [Ho1 Hf1]. split; [by eapply step_less|by eapply step_family]. Qed.
Lemma run_bound n s s' : all_orderly (table s) → nsteps goes_on n s s' → (n + total (table s') ≤ total (table s))%nat.
Proof. intros Ho Hn. induction Hn as [s|n s s1 s2 [ok Hst] Hn IH]; [lia|]. destruct (step_less _ _ _ Ho Hst) as [Ho1 Hlt]. specialize (IH Ho1). lia. Qed.

(** A line of the grammar, parsed. *)
Lemma parsed `{Malloc} txt junk k c : 0 ∉ txt → Forall is_byte txt → sh_buf k = txt ++ 0 :: junk → unused k → gline (lex [] txt) c →
  ∃ p k', parsecmd 0 k = Done p k' ∧ rep (λ q _ w, cstr (sh_buf k') q w) (sh_heap k') p c ∧ (depth c ≤ S (length txt))%nat ∧ standard c.
Proof.
  intros H0 Hb Hk Hu Hg. pose proof (lex_length [] txt) as Hl. cbn [length] in Hl. assert (pline (parse_fuel (length txt)) (lex [] txt) = Ok c []) as Hp by (apply pline_gline; [unfold parse_fuel; lia|done]).
  destruct (parsecmd_cases txt junk H0 Hb k Hk Hu) as [(c' & p & k' & Hp' & Hrun & Hr & _)|(k' & Hn & _)]; [|by destruct (Hn c)].
  rewrite Hp in Hp'. injection Hp' as <-. exists p, k'. split; [done|]. split; [done|]. split; [|by apply (proj1 grammar_standard _ _ Hg)]. pose proof (proj1 grammar_depth _ _ Hg). lia.
Qed.

(** C18: a line starts the programs that its command means.  The shell's child
    parses a line of the grammar and runs the tree; whatever the order in which
    the processes that it forks make their calls, and whichever of these fail,
    every program is started with the arguments and the open files that the
    command gives it, none twice and no other; when no call fails and nothing is
    left to do, all of them were. *)
Theorem sh_runs `{Malloc} txt junk k c t q :
  0 ∉ txt → Forall is_byte txt → sh_buf k = txt ++ 0 :: junk → unused k → gline (lex [] txt) c → stdio t →
  ∃ p k', parsecmd 0 k = Done p k' ∧ ∀ b s, steps b (alone q t (runcmd (S (length txt)) (sh_heap k') (sh_buf k') p)) s →
    started s ⊆+ launches [] 0 c t ∧ (b = true → finished s → started s ≡ₚ launches [] 0 c t).
Proof.
  intros H0 Hb Hk Hu Hg Ht. destruct (parsed txt junk k c H0 Hb Hk Hu Hg) as (p & k' & Hp & Hr & Hd & Hs). exists p, k'. split; [done|]. intros b s Hst.
  destruct (runs_balance _ _ _ _ _ _ _ _ _ Hd Hr Hs Ht Hst) as [Hbal Hfin]. split; [|auto]. unfold balance in Hbal. cbn [started table] in Hbal.
  change (expects ∅) with (@nil launch) in Hbal. rewrite app_nil_r in Hbal. trans (started s ++ expects (table s)); [by apply submseteq_inserts_r|]. destruct b; [by rewrite Hbal|done].
Qed.

(** C19: the processes of a line get done.  No process of a run of the tree of a
    line crashes or is left waiting for ever: as long as one of them has something
    to do, some process can make a step, and the number of the steps is bounded,
    whatever fails. *)
Theorem sh_ends `{Malloc} txt junk k c t q :
  0 ∉ txt → Forall is_byte txt → sh_buf k = txt ++ 0 :: junk → unused k → gline (lex [] txt) c → (1 < q)%nat →
  ∃ p k', parsecmd 0 k = Done p k' ∧ let start := alone q t (runcmd (S (length txt)) (sh_heap k') (sh_buf k') p) in
    (∀ b s, steps b start s → ¬ finished s → ∃ s', goes_on s s') ∧
    ∃ bound, ∀ n s, nsteps goes_on n start s → (n ≤ bound)%nat.
Proof.
  intros H0 Hb Hk Hu Hg Hq. destruct (parsed txt junk k c H0 Hb Hk Hu Hg) as (p & k' & Hp & Hr & Hd & _). exists p, k'. split; [done|]. intros start.
  assert (all_orderly (table start)) as Ho by (apply map_Forall_singleton; by eapply runcmd_orderly).
  assert (family (table start)) as Hf by (split; [apply lookup_singleton_ne; lia|apply map_Forall_singleton; by left]). split.
  - intros b s Hst Hn. destruct (steps_safe _ _ _ Ho Hf Hst) as [Hos Hfs]. apply map_not_Forall in Hn as (r & R & HR & HnR); [|intros ? P; destruct (t_status P); apply _].
    destruct (task_progress s r R Hos Hfs HR) as (ok & s' & Hs'); [unfold alive; destruct (t_status R); tauto|]. exists s'. by exists ok.
  - exists (total (table start)). intros n s Hn. apply run_bound in Hn; [lia|done].
Qed.

(** C21: the tree of a line is well typed.  Whatever the line is, [parsecmd] ends
    the process with a message or returns a tree in which every pointer is to a
    node of the type that [runcmd] takes it for, and every string and every
    argument list ends: no process of a run of the tree follows a bad pointer,
    reads past the end of a string or list, or meets a node of no type. *)
Theorem sh_type_safe `{Malloc} txt junk k t q :
  0 ∉ txt → Forall is_byte txt → sh_buf k = txt ++ 0 :: junk → unused k → (1 < q)%nat →
  (∃ k', parsecmd 0 k = Exited k' ∧ complains (sh_io k) (sh_io k')) ∨
  ∃ p k', parsecmd 0 k = Done p k' ∧ ∀ b s, steps b (alone q t (runcmd (S (length txt)) (sh_heap k') (sh_buf k') p)) s →
    ∀ r R why, table s !! r = Some R → t_status R ≠ Live (Crash why).
Proof.
  intros H0 Hb Hk Hu Hq. destruct (parsecmd_cases txt junk H0 Hb k Hk Hu) as [(c & p & k' & Hp & Hrun & Hr & _)|(k' & _ & Hrun & Hc)]; [right|left; by exists k'].
  exists p, k'. split; [done|]. intros b s Hst r R why HR Hcr. pose proof (lex_length [] txt) as Hl. cbn [length] in Hl.
  assert (gline (lex [] txt) c) as Hg by (apply (pline_gline (parse_fuel (length txt))); [unfold parse_fuel; lia|done]). pose proof (proj1 grammar_depth _ _ Hg) as Hd.
  eapply steps_safe in Hst as [Ho _]; [|apply map_Forall_singleton; eapply runcmd_orderly; [|exact Hr]; lia|split; [apply lookup_singleton_ne; lia|apply map_Forall_singleton; by left]].
  specialize (Ho r R HR). cbn in Ho. by rewrite Hcr in Ho.
Qed.

(** ** A line *)

Definition demo_fds : gmap Z fobj := {[0 := Inherited 0; 1 := Inherited 1; 2 := Inherited 2]}.
Lemma demo_stdio : stdio demo_fds.
Proof.
  intros fd. unfold demo_fds. split.
  - intros [o Ho]. apply lookup_insert_Some in Ho as [[<- _]|[_ Ho]]; [lia|]. apply lookup_insert_Some in Ho as [[<- _]|[_ Ho]]; [lia|]. apply lookup_singleton_Some in Ho as [<- _]. lia.
  - intros Hfd. assert (fd = 0 ∨ fd = 1 ∨ fd = 2) as [->|[->| ->]] by lia; by eexists.
Qed.
Lemma demo_derives : gline (lex [] demo_line) demo_cmd.
Proof. apply (pline_gline (parse_fuel (length demo_line))); [apply (bool_decide_unpack _); by vm_compute|by vm_compute]. Qed.
Lemma demo_nonzero : 0 ∉ demo_line.
Proof. apply (bool_decide_unpack _). by vm_compute. Qed.
Lemma demo_bytes : Forall is_byte demo_line.
Proof. unfold is_byte. apply (bool_decide_unpack _). by vm_compute. Qed.

(** [cat] reads the file and writes the pipe, [wc] reads the pipe and writes the file. *)
Lemma sh_runs_witness :
  launches [] 0 demo_cmd demo_fds =
    [([bytes_of "cat"], <[0 := OpenFile (bytes_of "in") O_RDONLY]> (<[1 := PipeWrite ([0; 0]%nat, 0%nat)]> demo_fds));
     ([bytes_of "wc"], <[1 := OpenFile (bytes_of "out") (Z.lor O_WRONLY O_CREATE)]> (<[0 := PipeRead ([0; 0]%nat, 0%nat)]> demo_fds));
     ([bytes_of "ls"; bytes_of "-l"], demo_fds)] ∧
  ∃ p k', parsecmd 0 (demo_sh demo_line) = Done p k' ∧ ∀ b s, steps b (alone 3 demo_fds (runcmd (S (length demo_line)) (sh_heap k') (sh_buf k') p)) s →
    started s ⊆+ launches [] 0 demo_cmd demo_fds ∧ (b = true → finished s → started s ≡ₚ launches [] 0 demo_cmd demo_fds).
Proof.
  split; [reflexivity|]. apply (sh_runs demo_line (replicate 10 0)); [exact demo_nonzero|exact demo_bytes|reflexivity|apply demo_unused|exact demo_derives|exact demo_stdio].
Defined.
Lemma sh_ends_witness : ∃ p k', parsecmd 0 (demo_sh demo_line) = Done p k' ∧
  ∃ bound, ∀ n s, nsteps goes_on n (alone 3 demo_fds (runcmd (S (length demo_line)) (sh_heap k') (sh_buf k') p)) s → (n ≤ bound)%nat.
Proof.
  destruct (sh_ends demo_line (replicate 10 0) (demo_sh demo_line) demo_cmd demo_fds 3) as (p & k' & Hp & _ & Hb); [exact demo_nonzero|exact demo_bytes|reflexivity|apply demo_unused|exact demo_derives|lia|].
  exists p, k'. exact (conj Hp Hb).
Defined.
Lemma sh_type_safe_witness : ∃ p k', parsecmd 0 (demo_sh demo_line) = Done p k' ∧
  ∀ b s, steps b (alone 3 demo_fds (runcmd (S (length demo_line)) (sh_heap k') (sh_buf k') p)) s → ∀ r R why, table s !! r = Some R → t_status R ≠ Live (Crash why).
Proof.
  destruct (sh_type_safe demo_line (replicate 10 0) (demo_sh demo_line) demo_fds 3) as [(k' & H2 & _)|H]; [exact demo_nonzero|exact demo_bytes|reflexivity|apply demo_unused|lia| |exact H].
  exfalso. assert (returns (parsecmd 0 (demo_sh demo_line)) = true) as Hr by by vm_compute. rewrite H2 in Hr. discriminate Hr.
Defined.
