(* ===== verification/ShMain.v ===== *)
(** * The main program of the shell

    [getcmd] and the loop of [main]: the lines of the input become commands, or
    changes of directory, and the commands start the programs they mean. *)

From S2P Require Import Prelude Riscv Memory CString State Printf PrintfSpec Bytes Ulib Uprintf Sh ShGrammar ShParse ShTree ShThm ShRun.

(** What the shell does with a line: [chdir] with its argument, or [fork] of a
    child that parses and runs the text, and [wait]. *)
Inductive action := Chdir (path : list Z) | Run (text : list Z) | Wait.
Record mst := Mst { m_io : uio; m_buf : list Z; m_actions : list action }.

(** The size of the line buffer of [main]. *)
Definition LINESIZE : Z := 100.
(** Whether [chdir] of a path succeeds, and a [fork] after [n] actions. *)
Class Calls := { cd_ok : list Z → bool; fork_ok : nat → bool }.

(** [while((fd = open("console", O_RDWR)) >= 0) if(fd >= 3){ close(fd); break; }]. *)
Fixpoint open_console (fuel : nat) (k : prog) : prog :=
  match fuel with
  | O => Crash "fuel"
  | S fuel => Open (bytes_of "console") O_RDWR (λ fd, if fd <? 0 then k else if 3 <=? fd then Close fd k else open_console fuel k)
  end.

Section main.
Context `{Reads} `{Calls}.

Definition mio {A} (m : M uio A) : M mst A := zoom m_io (λ u s, Mst u (m_buf s) (m_actions s)) m.
Definition set_buf (b : list Z) : M mst unit := modify (λ s, Mst (m_io s) b (m_actions s)).
Definition act (a : action) : M mst unit := modify (λ s, Mst (m_io s) (m_buf s) (m_actions s ++ [a])).

Definition getcmd : M mst Z :=
  mio (write 2 (bytes_of "$ ")) ;;
  b ← mio (gets_line (replicate (Z.to_nat LINESIZE) 0) LINESIZE);
  set_buf b ;;
  mret (if default 0 (b !! 0%nat) =? 0 then -1 else 0).

(** The result of the loop is the status of [exit]. *)
Definition main_body (_ : unit) : M mst (unit + Z) :=
  r ← getcmd;
  if r <? 0 then mret (inr 0)
  else
    b ← gets m_buf;
    if (default 0 (b !! 0%nat) =? chr "c") && (default 0 (b !! 1%nat) =? chr "d") && (default 0 (b !! 2%nat) =? chr " ") then
      match strlen b with
      | None => fault "sh: text"
      | Some n =>
          let b := <[Z.to_nat (n - 1) := 0]> b in
          set_buf b ;;
          match string_at b 3 with
          | None => fault "sh: text"
          | Some path =>
              act (Chdir path) ;;
              (if cd_ok path then mret tt else mio (fprintf 2 (line "cannot cd %s") [PStr (Some path)])) ;;
              mret (inl tt)
          end
      end
    else
      match string_at b 0 with
      | None => fault "sh: text"
      | Some text =>
          n ← gets (length ∘ m_actions);
          if fork_ok n then act (Run text) ;; act Wait ;; mret (inl tt)
          else mio (fprintf 2 (line "%s") [PStr (Some (bytes_of "fork"))]) ;; mret (inr 1)
      end.
(** Every line takes at least one byte of the input. *)
Definition main : M mst Z :=
  s ← get;
  loopM (S (length (stream 0 (m_io s)))) main_body tt.
End main.

(** ** Lines *)

Definition newline (c : Z) : bool := (c =? 10) || (c =? 13).
(** What one call of [gets] takes, at most [n] characters, and what it leaves. *)
Fixpoint upto (n : nat) (l : list Z) : list Z * list Z :=
  match n, l with
  | S n, c :: l => if newline c then ([c], l) else let '(a, r) := upto n l in (c :: a, r)
  | _, _ => ([], l)
  end.
Definition is_cd (a : list Z) : bool := bool_decide (take 3 a = bytes_of "cd ").
(** The last character of a line is cut off before [chdir]. *)
Definition action_of (a : list Z) : action := if is_cd a then Chdir (drop 3 (take (length a - 1) a)) else Run a.
(** What the input [l] asks for. *)
Fixpoint script (fuel : nat) (l : list Z) : list action :=
  match fuel with
  | O => []
  | S fuel => match upto 99 l with ([], _) => [] | (a, rest) => action_of a :: script fuel rest end
  end.
(** The shell does what it is asked for, in order, and waits for each child, until
    a [fork] fails; [n] actions came before.  The result is the exit status. *)
Fixpoint obey `{Calls} (n : nat) (todo : list action) : Z * list action :=
  match todo with
  | [] => (0, [])
  | Run text :: todo =>
      if fork_ok n then let '(r, l) := obey (n + 2) todo in (r, Run text :: Wait :: l) else (1, [])
  | a :: todo => let '(r, l) := obey (n + 1) todo in (r, a :: l)
  end.
(** What a line that ends in a newline asks for. *)
Definition line_action (l : list Z) : action := if is_cd l then Chdir (drop 3 l) else Run (l ++ [10]).

Lemma upto_app n l : (upto n l).1 ++ (upto n l).2 = l.
Proof.
  revert l. induction n as [|n IH]; intros [|c l]; [done|done|done|]. cbn. destruct (newline c); [done|]. specialize (IH l). destruct (upto n l). cbn in *. by rewrite IH.
Qed.
Lemma upto_length n l : (length (upto n l).1 ≤ n)%nat.
Proof. revert l. induction n as [|n IH]; intros [|c l]; cbn; [lia|lia|lia|]. destruct (newline c); cbn; [lia|]. specialize (IH l). destruct (upto n l). cbn in *. lia. Qed.
Lemma upto_nil n l : (upto (S n) l).1 = [] → l = [].
Proof. destruct l as [|c l]; [done|]. cbn. destruct (newline c); [done|]. by destruct (upto n l). Qed.

(** ** [main] opens the console *)

(** From any number of open descriptors below 3 to input, output and errors. *)
Lemma open_console_stdio m t : (m ≤ 3)%nat → (∀ fd, is_Some (t !! fd) ↔ 0 ≤ fd < Z.of_nat m) →
  ∃ t', stdio t' ∧ ∀ k n i, expect n i t (open_console 4 k) = expect n i t' k.
Proof.
  assert (∀ f m t, (m ≤ 3)%nat → (3 - m < f)%nat → (∀ fd, is_Some (t !! fd) ↔ 0 ≤ fd < Z.of_nat m) →
    ∃ t', stdio t' ∧ ∀ k n i, expect n i t (open_console f k) = expect n i t' k) as Hgen; [|intros; by apply (Hgen 4%nat m); [|lia|]].
  intros f. induction f as [|f IH]; intros m0 t0 Hm Hf Ht; [lia|]. set (o := OpenFile (bytes_of "console") O_RDWR).
  assert (t0 !! Z.of_nat m0 = None) as Hnone by (apply eq_None_not_Some; rewrite Ht; lia).
  assert (do_open o t0 = Some (Z.of_nat m0, <[Z.of_nat m0 := o]> t0)) as Ho.
  { apply do_open_is; [unfold NOFILE; lia| |done]. intros j Hj. apply Ht. lia. }
  cbn [open_console]. destruct (decide (m0 = 3%nat)) as [->|Hne].
  - exists t0. split; [intros fd; rewrite Ht; lia|]. intros k n i. cbn [expect]. fold o. rewrite Ho. change (Z.of_nat 3) with 3 in *. change (3 <? 0) with false. change (3 <=? 3) with true. cbv iota. cbn [expect].
    by rewrite delete_insert_id.
  - destruct (IH (S m0) (<[Z.of_nat m0 := o]> t0) ltac:(lia) ltac:(lia)) as (t' & Ht' & He).
    { intros fd. destruct (decide (Z.of_nat m0 = fd)) as [<-|Hd]; [rewrite lookup_insert_eq; split; [lia|by eexists]|]. rewrite lookup_insert_ne, Ht by done. lia. }
    exists t'. split; [done|]. intros k n i. cbn [expect]. fold o. rewrite Ho. rewrite (proj2 (Z.ltb_ge _ _)), (proj2 (Z.leb_gt _ _)) by lia. apply He.
Qed.

(** ** [gets] *)

Section gets.
Context `{Reads}.

Lemma read_one_wp c l u (Q : list Z → uio → Prop) : streams u !! 0 = Some (c :: l) →
  Q [c] (Uio (<[0 := l]> (streams u)) (S (nreads u)) (written u)) → wp (read 0 1) Q u.
Proof using Type.
  intros Hs HQ. assert (arrives 0 1 u = 1%nat) as Ha.
  { unfold arrives, stream. rewrite Hs. cbv zeta. replace (Nat.min (Z.to_nat 1) (length (default [] (Some (c :: l))))) with 1%nat by (cbn; lia).
    rewrite decide_False by lia. pose proof (short_ok (nreads u) 1 ltac:(lia)). lia. }
  unfold wp, read. by rewrite Hs, Ha.
Qed.
Lemma read_end_wp u (Q : list Z → uio → Prop) : default [] (streams u !! 0) = [] →
  (∀ u', default [] (streams u' !! 0) = [] → written u' = written u → Q [] u') → wp (read 0 1) Q u.
Proof using Type.
  intros Hs HQ. unfold wp, read. destruct (streams u !! 0) as [l|] eqn:E; [|apply HQ; [by rewrite E|done]]. cbn in Hs. subst l.
  rewrite take_nil, drop_nil. apply HQ; [cbn [streams]; by rewrite lookup_insert_eq|done].
Qed.

(** The loop from the [i]-th character on, [pre] read before. *)
Lemma gets_loop_wp buf max f : ∀ pre u, length buf = S max → (length pre ≤ max)%nat → (max - length pre < f)%nat →
  wp (loopM f (gets_body (Z.of_nat (S max))) (Z.of_nat (length pre), pre ++ drop (length pre) buf))
    (λ x u', x = (Z.of_nat (length (pre ++ (upto (max - length pre) (stream 0 u)).1)),
                  (pre ++ (upto (max - length pre) (stream 0 u)).1) ++ drop (length (pre ++ (upto (max - length pre) (stream 0 u)).1)) buf) ∧
      stream 0 u' = (upto (max - length pre) (stream 0 u)).2 ∧ written u' = written u) u.
Proof using Type.
  induction f as [|f IH]; intros pre u Hb Hp Hf; [lia|]. cbn [loopM]. wp_step. unfold gets_body at 1. destruct (Z.ltb_spec (Z.of_nat (length pre) + 1) (Z.of_nat (S max))).
  2:{ replace (max - length pre)%nat with 0%nat by lia. wp_steps. assert (∀ l, upto 0 l = ([], l)) as -> by by intros []. cbn [fst snd]. by rewrite app_nil_r. }
  destruct (max - length pre)%nat as [|m] eqn:Em; [lia|]. wp_step. destruct (stream 0 u) as [|c l] eqn:Es.
  - apply read_end_wp; [exact Es|]. intros u' Hs' Hw'. wp_steps. cbn [upto fst snd]. rewrite app_nil_r. split_and!; [done|exact Hs'|done].
  - assert (streams u !! 0 = Some (c :: l)) as Hs by (unfold stream in Es; destruct (streams u !! 0); [by cbn in Es; subst|done]). eapply read_one_wp; [exact Hs|].
    set (u1 := Uio _ _ _). assert (stream 0 u1 = l) as Es1 by (unfold stream, u1; cbn; by rewrite lookup_insert_eq).
    rewrite (proj2 (Z.ltb_ge (Z.of_nat (length pre)) 0)), (proj2 (Z.leb_gt _ (Z.of_nat (length pre)))) by (rewrite ?length_app, ?length_drop; lia). cbn [orb]. rewrite Nat2Z.id.
    assert (<[length pre := c]> (pre ++ drop (length pre) buf) = (pre ++ [c]) ++ drop (length (pre ++ [c])) buf) as Ei.
    { destruct (drop (length pre) buf) as [|d rest] eqn:Ed; [apply (f_equal length) in Ed; rewrite length_drop in Ed; cbn in Ed; lia|].
      rewrite insert_app_r_alt, Nat.sub_diag by done. cbn. rewrite length_app, <-app_assoc. cbn. f_equal. f_equal. by rewrite <-drop_drop, Ed. }
    rewrite Ei. assert (Z.of_nat (length pre) + 1 = Z.of_nat (length (pre ++ [c]))) as -> by (rewrite length_app; cbn; lia).
    cbn [upto]. unfold newline. destruct ((c =? 10) || (c =? 13)); wp_step; cbv beta iota.
    + wp_step. cbn [fst snd]. done.
    + eapply wp_mono; [apply (IH (pre ++ [c]) u1); [done|rewrite length_app; cbn; lia|rewrite length_app; cbn; lia]|].
      intros x u' Hx. replace (max - length (pre ++ [c]))%nat with m in Hx by (rewrite length_app; cbn; lia). rewrite Es1 in Hx. destruct (upto m l) as [a r]. cbn [fst snd] in *.
      replace ((pre ++ [c]) ++ a) with (pre ++ c :: a) in Hx by (by rewrite <-app_assoc). exact Hx.
Qed.

(** The line, a NUL, and the buffer as it was. *)
Lemma gets_line_wp buf max u : length buf = S max →
  wp (gets_line buf (Z.of_nat (S max))) (λ b u', b = (upto max (stream 0 u)).1 ++ 0 :: drop (S (length (upto max (stream 0 u)).1)) buf ∧
    stream 0 u' = (upto max (stream 0 u)).2 ∧ written u' = written u) u.
Proof using Type.
  intros Hb. unfold gets_line. wp_step.
  set (res := upto max (stream 0 u)). eapply (wp_mono _ (λ x u', x = (Z.of_nat (length res.1), res.1 ++ drop (length res.1) buf) ∧ stream 0 u' = res.2 ∧ written u' = written u)).
  2:{ intros x u' (-> & H1 & H2). cbn [fst snd]. pose proof (upto_length max (stream 0 u)) as Hl. fold res in Hl.
      rewrite (proj2 (Z.leb_gt _ _)) by (rewrite length_app, length_drop; lia). wp_step. split; [|done]. rewrite Nat2Z.id.
      destruct (drop (length res.1) buf) as [|d rest] eqn:Ed; [apply (f_equal length) in Ed; rewrite length_drop in Ed; cbn in Ed; lia|].
      rewrite insert_app_r_alt, Nat.sub_diag by done. cbn. f_equal. f_equal. change (S (length res.1)) with (1 + length res.1)%nat. by rewrite Nat.add_comm, <-drop_drop, Ed. }
  pose proof (gets_loop_wp buf max (S (Z.to_nat (Z.of_nat (S max)))) [] u Hb ltac:(cbn; lia) ltac:(cbn; lia)) as Hl. cbn [length app] in Hl.
  rewrite Nat.sub_0_r, drop_0 in Hl. exact Hl.
Qed.
End gets.

(** ** The loop of [main] *)

Section main_spec.
Context `{Reads} `{Calls}.

Lemma getcmd_wp s (Q : Z → mst → Prop) :
  (∀ u', let '(a, rest) := upto 99 (stream 0 (m_io s)) in
     stream 0 u' = rest → Q (if default 0 (head a) =? 0 then -1 else 0) (Mst u' (a ++ replicate (100 - length a) 0) (m_actions s))) → wp getcmd Q s.
Proof using Type.
  intros HQ. unfold getcmd. wp_step. apply wp_zoom. eapply wp_intro; [reflexivity|]. wp_step. apply wp_zoom. change LINESIZE with (Z.of_nat 100). change (Z.to_nat (Z.of_nat 100)) with 100%nat.
  match goal with |- wp _ _ ?x => assert (stream 0 x = stream 0 (m_io s)) as E by done end.
  eapply wp_mono; [by apply (gets_line_wp (replicate 100 0) 99)|]. intros b u' (-> & Hs & _). rewrite !E in Hs. rewrite !E. clear E. pose proof (upto_length 99 (stream 0 (m_io s))) as Hlen. specialize (HQ u'). destruct (upto 99 (stream 0 (m_io s))) as [a rest]. cbn [fst snd] in *.
  unfold set_buf. wp_steps. cbn [m_io m_buf m_actions]. rewrite drop_replicate. change (0 :: replicate ?n 0) with (replicate (S n) 0) in *.
  replace (S (100 - S (length a))) with (100 - length a)%nat by lia. specialize (HQ Hs).
  replace (default 0 ((a ++ replicate (100 - length a) 0) !! 0%nat)) with (default 0 (head a)); [exact HQ|].
  destruct a as [|c a]; [done|done].
Qed.

Lemma string_text l junk : 0 ∉ l → string_at (l ++ 0 :: junk) 0 = Some l.
Proof using Type. intros Hl. apply string_at_cstr. split; [done|]. rewrite drop_0, take_app_length, lookup_app_r, Nat.add_0_l, Nat.sub_diag by lia. done. Qed.
Lemma strlen_pad l n : 0 ∉ l → (0 < n)%nat → strlen (l ++ replicate n 0) = Some (Z.of_nat (length l)).
Proof using Type. intros Hl Hn. destruct n as [|n]; [lia|]. by apply strlen_text. Qed.
Lemma is_cd_test a n : (default 0 ((a ++ replicate n 0) !! 0%nat) =? chr "c") && (default 0 ((a ++ replicate n 0) !! 1%nat) =? chr "d") && (default 0 ((a ++ replicate n 0) !! 2%nat) =? chr " ") = is_cd a.
Proof using Type.
  assert (∀ i, (length a ≤ i)%nat → default 0 ((a ++ replicate n 0) !! i) = 0) as Hz.
  { intros i Hi. rewrite lookup_app_r by done. destruct (replicate n 0 !! (i - length a)%nat) as [z|] eqn:E; [|done]. by apply lookup_replicate in E as [-> _]. }
  unfold is_cd. change (bytes_of "cd ") with [99; 100; 32]. change (chr "c") with 99. change (chr "d") with 100. change (chr " ") with 32.
  destruct a as [|x [|y [|z a]]].
  1-3: rewrite (Hz 2%nat) by (cbn; lia); change (0 =? 32) with false; rewrite andb_false_r; symmetry; by apply bool_decide_eq_false.
  cbn. rewrite take_0. apply eq_true_iff_eq. rewrite !andb_true_iff, !Z.eqb_eq, bool_decide_eq_true. naive_solver.
Qed.
(** [buf[strlen(buf)-1] = 0], and the string at [buf+3]. *)
Lemma chopped a n : 0 ∉ a → (3 ≤ length a)%nat → (0 < n)%nat →
  string_at (<[(length a - 1)%nat := 0]> (a ++ replicate n 0)) 3 = Some (drop 3 (take (length a - 1) a)).
Proof using Type.
  intros Hz0 Ha Hn. destruct (decide (a = [])) as [->|Hne]; [cbn in Ha; lia|]. apply exists_last in Hne as (a' & c & ->). rewrite length_app in *. cbn [length] in *.
  rewrite Nat.add_sub, take_app_length, <-app_assoc, insert_app_r_alt, Nat.sub_diag by done. cbn [app insert list_insert]. unfold string_at at 1.
  destruct (decide (3 ≤ length a')%nat) as [Hl|Hl].
  - rewrite drop_app_le by done. pose proof (string_text (drop 3 a') (replicate n 0)) as Hs. unfold string_at in Hs. rewrite drop_0 in Hs. apply Hs.
    intros Hz. apply Hz0, elem_of_app. left. rewrite <-(take_drop 3 a'). apply elem_of_app. by right.
  - destruct a' as [|x [|y [|z a']]]; cbn in Ha, Hl; try lia. destruct n; [lia|]. done.
Qed.

(** A message leaves the rest of the input as it is. *)
Lemma say_wp fmt ap l s (Q : unit → mst → Prop) : Forall is_byte (bytes_of fmt) → Forall arg_ok ap → text (bytes_of fmt) ap = Some l →
  (∀ u', stream 0 u' = stream 0 (m_io s) → Q tt (Mst u' (m_buf s) (m_actions s))) → wp (mio (fprintf 2 fmt ap)) Q s.
Proof using Type.
  intros Hf Ha Ht HQ. apply wp_zoom. destruct (fprintf_wp 2 fmt ap l (m_io s) Hf Ha Ht) as (u' & E & Hs & _). eapply wp_intro; [exact E|]. apply HQ. unfold stream. by rewrite Hs.
Qed.

(** The state between two lines: [l] is still to be read. *)
Definition obeyed (todo : list action) (s : mst) (r : Z) (s' : mst) : Prop :=
  let '(status, l) := obey (length (m_actions s)) todo in
  r = status ∧ m_actions s' = m_actions s ++ l ∧ (status = 0 → stream 0 (m_io s') = []).
Lemma main_loop f : ∀ l s, stream 0 (m_io s) = l → 0 ∉ l → Forall is_byte l → (length l < f)%nat →
  wp (loopM f main_body tt) (obeyed (script f l) s) s.
Proof using Type.
  induction f as [|f IH]; intros l s Hl Hz Hb Hf; [lia|]. cbn [loopM script]. wp_step. unfold main_body at 1. wp_step. apply getcmd_wp. intros u'. rewrite Hl.
  pose proof (upto_app 99 l) as Happ. pose proof (upto_length 99 l) as Hlen. pose proof (upto_nil 98 l) as Hnil. destruct (upto 99 l) as [a rest]. cbn [fst snd] in *. intros Hs.
  destruct a as [|c a0] eqn:Ea.
  { cbn [head default]. change (0 =? 0) with true. cbv iota. change (-1 <? 0) with true. cbv iota. wp_steps. unfold obeyed. cbn [obey m_actions m_io]. rewrite app_nil_r. split; [done|]. split; [done|]. intros _. rewrite Hs. cbn in Happ. rewrite Happ. by apply Hnil. }
  rewrite <-Ea in *. assert (0 ∉ a ∧ 0 ∉ rest) as [Hza Hzr] by (rewrite <-Happ in Hz; set_solver). rewrite <-Happ in Hb. apply Forall_app in Hb as [Hba Hbr].
  assert (length rest < f)%nat as Hlr by (rewrite <-Happ, length_app, Ea in Hf; cbn in Hf; lia).
  assert (default 0 (head a) =? 0 = false) as -> by (apply Z.eqb_neq; rewrite Ea in *; cbn; set_solver). change (0 <? 0) with false. cbv iota. wp_step. wp_step. cbn [m_buf].
  assert (∀ x w u1 b, stream 0 u1 = rest → x = action_of a → w = (if is_cd a then [] else [Wait]) → (is_cd a = false → fork_ok (length (m_actions s)) = true) →
    wp (loopM f main_body tt) (obeyed (action_of a :: script f rest) s) (Mst u1 b (m_actions s ++ x :: w))) as Hnext.
  { intros x w u1 b Hu1 -> -> Hfk. eapply wp_mono; [by apply (IH rest)|]. unfold obeyed. cbn [m_actions]. intros r s'. unfold action_of. rewrite length_app. destruct (is_cd a).
    - cbn [length obey]. destruct (obey _ _) as [st l']. intros (-> & Hact & Hst). split_and!; [done| |done]. by rewrite Hact, <-app_assoc.
    - cbn [length obey]. rewrite Hfk by done. destruct (obey _ _) as [st l']. intros (-> & Hact & Hst). split_and!; [done| |done]. by rewrite Hact, <-app_assoc. }
  replace (match a with [] => [] | _ :: _ => action_of a :: script f rest end) with (action_of a :: script f rest) by (by rewrite Ea).
  rewrite is_cd_test. unfold action_of in Hnext at 1. destruct (is_cd a) eqn:Ecd.
  - assert (3 ≤ length a)%nat as H3.
    { apply bool_decide_eq_true in Ecd. apply (f_equal length) in Ecd. rewrite length_take in Ecd. change (length (bytes_of "cd ")) with 3%nat in Ecd. lia. }
    rewrite strlen_pad by (done || lia). replace (Z.to_nat (Z.of_nat (length a) - 1)) with (length a - 1)%nat by lia. unfold set_buf. wp_step. wp_step. rewrite chopped by (done || lia).
    unfold act. wp_step. wp_step. set (path := drop 3 _) in *. wp_step. cbn [m_io m_buf m_actions]. destruct (cd_ok path).
    + wp_steps. by apply (Hnext _ []).
    + eapply (say_wp _ _ (bytes_of "cannot cd " ++ path ++ [10])); [apply bytes_of_ok| |reflexivity|].
      { apply Forall_singleton. by apply Forall_drop, Forall_take. }
      intros u2 Hu2. wp_steps. cbn [m_io m_buf m_actions] in *. apply (Hnext _ []); [congruence|done..].
  - replace (100 - length a)%nat with (S (99 - length a)) by lia. cbn [replicate]. rewrite string_text by done. wp_step. wp_step. cbn [compose m_actions]. destruct (fork_ok (length (m_actions s))) eqn:Efk.
    + unfold act. wp_steps. cbn [m_io m_buf m_actions]. rewrite <-app_assoc. by apply (Hnext _ [Wait]).
    + wp_step. eapply (say_wp _ _ (bytes_of "fork" ++ [10])); [apply bytes_of_ok|apply Forall_singleton; apply bytes_of_ok|reflexivity|].
      intros u2 Hu2. wp_steps. unfold obeyed, action_of. rewrite Ecd. cbn [obey]. rewrite Efk. cbn [m_actions]. by rewrite app_nil_r.
Qed.

(** Lines of at most 98 characters are taken one by one. *)
Lemma upto_line n l rest : Forall (λ c, newline c = false) l → (length l < n)%nat → upto n (l ++ 10 :: rest) = (l ++ [10], rest).
Proof using Type. intros Hl. revert n. induction Hl as [|c l Hc Hl IH]; intros [|n] Hn; cbn in *; [lia|done|lia|]. rewrite Hc, IH by lia. done. Qed.
Lemma upto_last n l : Forall (λ c, newline c = false) l → (length l ≤ n)%nat → upto n l = (l, []).
Proof using Type. intros Hl. revert n. induction Hl as [|c l Hc Hl IH]; intros [|n] Hn; cbn in *; [done|done|lia|]. rewrite Hc, IH by lia. done. Qed.
Lemma action_of_line l : action_of (l ++ [10]) = line_action l.
Proof using Type.
  unfold action_of, line_action. rewrite length_app. cbn [length]. rewrite Nat.add_sub, take_app_length. replace (is_cd (l ++ [10])) with (is_cd l); [done|].
  unfold is_cd. apply bool_decide_ext. change (bytes_of "cd ") with [99; 100; 32]. destruct l as [|x [|y [|z l]]]; done.
Qed.
Lemma script_lines f lines last : Forall (λ l, Forall (λ c, newline c = false) l ∧ (length l ≤ 98)%nat) (last :: lines) → (length lines < f)%nat →
  (length lines + 1 < f)%nat ∨ last = [] → script f (concat ((λ l, l ++ [10]) <$> lines) ++ last) = (line_action <$> lines) ++ (if decide (last = []) then [] else [action_of last]).
Proof using Type.
  intros [[Hla Hlen] Hl]%Forall_cons Hf Hor. revert f Hf Hor. induction Hl as [|l lines [Hc Hn] Hl IH]; intros f Hf Hor; (destruct f as [|f]; [cbn in *; lia|]).
  - cbn [fmap list_fmap concat app script]. rewrite upto_last by (done || lia). case_decide as Hd; [by subst|]. destruct last as [|c0 l0]; [done|]. f_equal. destruct f as [|f]; [done|]. done.
  - cbn [fmap list_fmap concat script length] in *. rewrite <-!app_assoc. cbn [app]. rewrite upto_line by (done || lia). destruct (l ++ [10]) as [|c0 l0] eqn:E; [by destruct l|]. rewrite <-E, action_of_line, IH; [done|lia|]. destruct Hor; [left; lia|by right].
Qed.
Lemma lines_length lines : (length lines ≤ length (concat ((λ l, l ++ [10%Z]) <$> lines)))%nat.
Proof using Type. induction lines as [|l ls IH]; cbn; [lia|]. rewrite !length_app. cbn. lia. Qed.
End main_spec.

(** C22: the loop of [main] does what its input says, line by line.  For input
    without NULs whose lines have at most 98 characters, it calls [chdir] with
    what follows [cd ] in the lines that start so, and for each other line it
    forks a child that runs the line and waits, in the order of the lines; it
    takes all input and exits with 0.  When a [fork] fails it has done all before
    that line, and exits with 1.  A last line without its newline is a line too,
    but a [cd] there loses the last character of its directory. *)
Theorem main_spec `{Reads} `{Calls} lines last s :
  Forall (λ l, (length l ≤ 98)%nat ∧ Forall (λ c, is_byte c ∧ c ≠ 0 ∧ c ≠ 10 ∧ c ≠ 13) l) (last :: lines) →
  stream 0 (m_io s) = concat ((λ l, l ++ [10]) <$> lines) ++ last →
  ∃ status acts s', main s = Done status s' ∧ m_actions s' = m_actions s ++ acts ∧
    (status = 0 → stream 0 (m_io s') = []) ∧
    obey (length (m_actions s)) ((line_action <$> lines) ++
      (if decide (last = []) then [] else [if is_cd last then Chdir (drop 3 (take (length last - 1) last)) else Run last])) = (status, acts).
Proof.
  intros Hl Hs. assert (Forall (λ c, c ≠ 0 ∧ is_byte c) (stream 0 (m_io s))) as Hok.
  { rewrite Hs. apply Forall_cons in Hl as [[_ Hlast] Hl]. apply Forall_app. split; [|by eapply Forall_impl; [exact Hlast|]; naive_solver].
    clear Hs. induction Hl as [|l ls [_ Hc] _ IH]; [done|]. cbn. apply Forall_app. split; [|done]. apply Forall_app. split; [by eapply Forall_impl; [exact Hc|]; naive_solver|]. by repeat constructor. }
  assert (0 ∉ stream 0 (m_io s) ∧ Forall is_byte (stream 0 (m_io s))) as [Hz Hb].
  { rewrite Forall_forall in Hok. split; [intros Hin; by destruct (Hok 0 Hin)|]. apply Forall_forall. intros c Hc. apply Hok, Hc. }
  pose proof (main_loop (S (length (stream 0 (m_io s)))) _ s eq_refl Hz Hb ltac:(lia)) as (r & s' & Hrun & Hob)%wp_elim.
  revert Hob. set (f := S _). assert (f = S (length (stream 0 (m_io s)))) as Hf by done. clearbody f. rewrite Hs in Hf |- *. rewrite length_app in Hf. rewrite script_lines.
  { unfold obeyed. intros Hob. destruct (obey _ _) as [st acts] eqn:E. destruct Hob as (-> & Hact & Hst). exists st, acts, s'. split_and!; [|done..]. change (loopM (S (length (stream 0 (m_io s)))) main_body tt s = Done st s'). exact Hrun. }
  - eapply Forall_impl; [exact Hl|]. intros l [Hn Hc]. split; [|done]. eapply Forall_impl; [exact Hc|]. intros c (_ & _ & H10 & H13). unfold newline. by rewrite !(proj2 (Z.eqb_neq _ _)).
  - pose proof (lines_length lines). lia.
  - destruct (decide (last = [])) as [->|Hne]; [by right|left]. assert (0 < length last)%nat by (destruct last; [done|cbn; lia]). pose proof (lines_length lines). lia.
Qed.

(** ** A session *)

Definition demo_calls : Calls := {| cd_ok path := bool_decide (path = bytes_of "home"); fork_ok n := Nat.ltb n 4 |}.
Definition demo_reads1 : Reads.
Proof. refine {| short _ _ := 1%nat |}. intros; lia. Defined.
Definition demo_mst : mst :=
  Mst (Uio {[0 := bytes_of (line "ls") ++ bytes_of (line "cd home") ++ bytes_of "cd home"]} 0 []) [] [].
(** The fork of the third command fails. *)
Definition demo_mst2 : mst :=
  Mst (Uio {[0 := bytes_of (line "ls") ++ bytes_of (line "ls") ++ bytes_of (line "ls") ++ bytes_of (line "ls")]} 0 []) [] [].

Lemma main_spec_witness :
  (∃ s', @main demo_reads1 demo_calls demo_mst = Done 0 s' ∧
     m_actions s' = [Run (bytes_of (line "ls")); Wait; Chdir (bytes_of "home"); Chdir (bytes_of "hom")]) ∧
  ∃ s', @main demo_reads1 demo_calls demo_mst2 = Done 1 s' ∧
     m_actions s' = [Run (bytes_of (line "ls")); Wait; Run (bytes_of (line "ls")); Wait].
Proof.
  split.
  - destruct (@main_spec demo_reads1 demo_calls [bytes_of "ls"; bytes_of "cd home"] (bytes_of "cd home") demo_mst) as (st & acts & s' & H1 & H2 & _ & H3).
    + unfold is_byte. apply (bool_decide_unpack _). by vm_compute.
    + reflexivity.
    + vm_compute in H3. injection H3 as <- <-. exists s'. exact (conj H1 H2).
  - destruct (@main_spec demo_reads1 demo_calls (replicate 4 (bytes_of "ls")) [] demo_mst2) as (st & acts & s' & H1 & H2 & _ & H3).
    + unfold is_byte. apply (bool_decide_unpack _). by vm_compute.
    + reflexivity.
    + vm_compute in H3. injection H3 as <- <-. exists s'. exact (conj H1 H2).
Defined.
