(* ===== verification/Uprogs.v ===== *)
(** * The small user programs

    [user/cat.c], [user/wc.c], [user/echo.c], [user/kill.c], [user/ln.c],
    [user/mkdir.c], [user/rm.c] and the main program of [user/grep.c], on the
    system calls that they make.  A main program gets its arguments without their
    NUL and gives the status of its [exit]. *)

From S2P Require Import Prelude Riscv Memory CString State Printf PrintfSpec Bytes Ulib Grep Uprintf.

(** The system calls with an effect on the file system or on other processes. *)
Inductive call := Kill (pid : Z) | Link (old new : list Z) | Mkdir (path : list Z) | Unlink (path : list Z).
(** [p_buf] is the static array of [grep]. *)
Record pst := Pst { p_io : uio; p_files : gmap (list Z) (list Z); p_calls : list call; p_buf : list Z }.

(** Whether the [i]-th [write] is taken, and what the [i]-th other call returns. *)
Class Kernel := { write_ok : nat → bool; call_result : nat → call → Z }.

Section programs.
Context `{Reads} `{Kernel}.

(** ** System calls *)

Definition io {A} (m : M uio A) : M pst A := zoom p_io (λ u s, Pst u (p_files s) (p_calls s) (p_buf s)) m.
(** The lowest descriptor that is free; 0, 1 and 2 are in use. *)
Definition free_fd (u : uio) : option Z := snd <$> list_find (λ fd, streams u !! fd = None) (seqZ 3 (NOFILE - 3)).
Definition open_read (path : list Z) : M pst Z :=
  s ← get;
  match p_files s !! path, free_fd (p_io s) with
  | Some data, Some fd => io (modify (λ u, Uio (<[fd := data]> (streams u)) (nreads u) (written u))) ;; mret fd
  | _, _ => mret (-1)
  end.
Definition close (fd : Z) : M pst unit := io (modify (λ u, Uio (delete fd (streams u)) (nreads u) (written u))).
(** [None] when the descriptor is not open for reading. *)
Definition read_fd (fd n : Z) : M pst (option (list Z)) :=
  s ← get;
  match streams (p_io s) !! fd with
  | None => mret None
  | Some _ => l ← io (read fd n); mret (Some l)
  end.
Definition write_fd (fd : Z) (bytes : list Z) : M pst bool :=
  s ← get;
  if write_ok (length (written (p_io s))) then io (write fd bytes) ;; mret true else mret false.
Definition sys_call (c : call) : M pst Z :=
  s ← get;
  put (Pst (p_io s) (p_files s) (p_calls s ++ [c]) (p_buf s)) ;;
  mret (call_result (length (p_calls s)) c).

(** ** The loop over the files

    [f] is given the descriptor and the name; it returns, or exits with a status. *)

Fixpoint each_file (cannot : list Z → M pst unit) (f : Z → list Z → M pst (option Z)) (argv : list (list Z)) : M pst Z :=
  match argv with
  | [] => mret 0
  | a :: argv =>
      fd ← open_read a;
      if fd <? 0 then cannot a ;; mret 1
      else
        r ← f fd a;
        match r with Some status => mret status | None => close fd ;; each_file cannot f argv end
  end.
(** Standard input when there are no files. *)
Definition filter_main (cannot : list Z → M pst unit) (f : Z → list Z → M pst (option Z)) (argv : list (list Z)) : M pst Z :=
  match argv with
  | [] => r ← f 0 []; mret (default 0 r)
  | _ => each_file cannot f argv
  end.

(** ** cat *)

Definition cat_body (fd : Z) (_ : unit) : M pst (unit + option Z) :=
  r ← read_fd fd 512;
  match r with
  | None => io (fprintf 2 (line "cat: read error") []) ;; mret (inr (Some 1))
  | Some [] => mret (inr None)
  | Some buf =>
      ok ← write_fd 1 buf;
      if (ok : bool) then mret (inl tt) else io (fprintf 2 (line "cat: write error") []) ;; mret (inr (Some 1))
  end.
Definition cat (fd : Z) : M pst (option Z) :=
  s ← get;
  loopM (S (length (stream fd (p_io s)))) (cat_body fd) tt.
Definition cat_main (argv : list (list Z)) : M pst Z :=
  filter_main (λ a, io (fprintf 2 (line "cat: cannot open %s") [PStr (Some a)])) (λ fd _, cat fd) argv.

(** ** wc *)

Definition blanks : list Z := [32; 13; 9; 10; 11].
Definition is_blank (c : Z) : bool := match strchr (blanks ++ [0]) c with Some (Some _) => true | _ => false end.
Record wcst := Wc { wc_l : Z; wc_w : Z; wc_c : Z; wc_inword : bool }.
Definition wc_char (t : wcst) (c : Z) : wcst :=
  let l := if c =? 10 then s32 (wc_l t + 1) else wc_l t in
  let n := s32 (wc_c t + 1) in
  if is_blank c then Wc l (wc_w t) n false
  else if negb (wc_inword t) then Wc l (s32 (wc_w t + 1)) n true
  else Wc l (wc_w t) n true.
Definition wc_body (fd : Z) (t : wcst) : M pst (wcst + option wcst) :=
  r ← read_fd fd 512;
  match r with
  | None => mret (inr None)
  | Some [] => mret (inr (Some t))
  | Some buf => mret (inl (foldl wc_char t buf))
  end.
Definition wc (fd : Z) (name : list Z) : M pst (option Z) :=
  s ← get;
  r ← loopM (S (length (stream fd (p_io s)))) (wc_body fd) (Wc 0 0 0 false);
  match r with
  | None => io (printf (line "wc: read error") []) ;; mret (Some 1)
  | Some t => io (printf (line "%d %d %d %s") [PInt (wc_l t); PInt (wc_w t); PInt (wc_c t); PStr (Some name)]) ;; mret None
  end.
Definition wc_main (argv : list (list Z)) : M pst Z :=
  filter_main (λ a, io (printf (line "wc: cannot open %s") [PStr (Some a)])) wc argv.

(** ** grep *)

Definition grep_fd (pattern : list Z) (fd : Z) (_ : list Z) : M pst (option Z) :=
  zoom (λ s, Gst (p_buf s) (p_io s)) (λ g s, Pst (g_io g) (p_files s) (p_calls s) (g_buf g)) (grep (pattern ++ [0]) fd) ;;
  mret None.
Definition grep_main (argv : list (list Z)) : M pst Z :=
  match argv with
  | [] => io (fprintf 2 (line "usage: grep pattern [file ...]") []) ;; mret 1
  | pattern :: files => filter_main (λ a, io (printf (line "grep: cannot open %s") [PStr (Some a)])) (grep_fd pattern) files
  end.

(** ** echo *)

Fixpoint echo_loop (argv : list (list Z)) : M pst unit :=
  match argv with
  | [] => mret tt
  | a :: argv =>
      write_fd 1 a ;;
      match argv with [] => write_fd 1 [10] | _ => write_fd 1 [32] end ;;
      echo_loop argv
  end.
Definition echo_main (argv : list (list Z)) : M pst Z := echo_loop argv ;; mret 0.

(** ** kill, ln, mkdir, rm *)

Definition kill_main (argv : list (list Z)) : M pst Z :=
  match argv with
  | [] => io (fprintf 2 (line "usage: kill pid...") []) ;; mret 1
  | _ => forM argv (λ a, match atoi (a ++ [0]) with Some pid => sys_call (Kill pid) ;; mret tt | None => fault "atoi" end) ;; mret 0
  end.
Definition ln_main (argv : list (list Z)) : M pst Z :=
  match argv with
  | [old; new] =>
      r ← sys_call (Link old new);
      (if r <? 0 then io (fprintf 2 (line "link %s %s: failed") [PStr (Some old); PStr (Some new)]) else mret tt) ;;
      mret 0
  | _ => io (fprintf 2 (line "Usage: ln old new") []) ;; mret 1
  end.
(** The loop of [mkdir] and [rm], which stops at the first failure. *)
Fixpoint each_call (c : list Z → call) (fmt : string) (argv : list (list Z)) : M pst unit :=
  match argv with
  | [] => mret tt
  | a :: argv =>
      r ← sys_call (c a);
      if r <? 0 then io (fprintf 2 fmt [PStr (Some a)]) else each_call c fmt argv
  end.
Definition mkdir_main (argv : list (list Z)) : M pst Z :=
  match argv with
  | [] => io (fprintf 2 (line "Usage: mkdir files...") []) ;; mret 1
  | _ => each_call Mkdir (line "mkdir: %s failed to create") argv ;; mret 0
  end.
Definition rm_main (argv : list (list Z)) : M pst Z :=
  match argv with
  | [] => io (fprintf 2 (line "Usage: rm files...") []) ;; mret 1
  | _ => each_call Unlink (line "rm: %s failed to delete") argv ;; mret 0
  end.
End programs.

(** ** What they print *)

(** The files that are read, up to the first that is missing. *)
Fixpoint gather (files : gmap (list Z) (list Z)) (argv : list (list Z)) : list (list Z * list Z) * option (list Z) :=
  match argv with
  | [] => ([], None)
  | a :: argv =>
      match files !! a with
      | None => ([], Some a)
      | Some data => let '(l, missing) := gather files argv in ((a, data) :: l, missing)
      end
  end.
Definition status_of (missing : option (list Z)) : Z := match missing with Some _ => 1 | None => 0 end.
(** [t] is written to [fd], and nothing else; files are not changed, nor are other calls made. *)
Definition adds (fd : Z) (t : list Z) (s s' : pst) : Prop :=
  p_files s' = p_files s ∧ p_calls s' = p_calls s ∧ ∀ fd', output fd' (p_io s') = output fd' (p_io s) ++ (if decide (fd = fd') then t else []).
Lemma adds_nil fd s s' : p_files s' = p_files s → p_calls s' = p_calls s → written (p_io s') = written (p_io s) → adds fd [] s s'.
Proof. intros H1 H2 H3. split; [done|]. split; [done|]. intros fd'. unfold output. rewrite H3. case_decide; by rewrite app_nil_r. Qed.
Lemma adds_app fd t1 t2 s s1 s2 : adds fd t1 s s1 → adds fd t2 s1 s2 → adds fd (t1 ++ t2) s s2.
Proof. intros (A1 & A2 & A3) (B1 & B2 & B3). split; [congruence|]. split; [congruence|]. intros fd'. rewrite B3, A3, <-app_assoc. by case_decide. Qed.

(** *** Counting *)

Definition lines_in (l : list Z) : Z := Z.of_nat (length (filter (λ c, c = 10) l)).
Definition blank (c : Z) : Prop := c ∈ blanks.
(** A word starts at every character that is no blank and follows none but a blank. *)
Definition starts_word (l : list Z) (i : nat) : Prop :=
  match l !! i with
  | Some c => ¬ blank c ∧ match i with O => True | S j => match l !! j with Some d => blank d | None => True end end
  | None => False
  end.
#[global] Instance blank_dec c : Decision (blank c).
Proof. unfold blank. apply _. Defined.
#[global] Instance starts_word_dec l i : Decision (starts_word l i).
Proof. unfold starts_word. destruct (l !! i), i as [|j]; try destruct (l !! j); apply _. Defined.
Definition words_in (l : list Z) : Z := Z.of_nat (length (filter (starts_word l) (seq 0 (length l)))).
(** The line that [wc] prints. *)
Definition counts (data name : list Z) : list Z :=
  int_text (lines_in data) 10 true ++ [32] ++ int_text (words_in data) 10 true ++ [32] ++ int_text (Z.of_nat (length data)) 10 true ++ [32] ++ name ++ [10].

Lemma text_counts a b c name : text (bytes_of (line "%d %d %d %s")) [PInt a; PInt b; PInt c; PStr (Some name)] =
  Some (int_text a 10 true ++ [32] ++ int_text b 10 true ++ [32] ++ int_text c 10 true ++ [32] ++ name ++ [10]).
Proof. reflexivity. Qed.
Lemma printf_fprintf fmt ap : printf fmt ap = fprintf 1 fmt ap.
Proof. reflexivity. Qed.
Lemma is_blank_spec c : is_blank c = bool_decide (blank c).
Proof.
  unfold is_blank. destruct (decide (blank c)) as [Hb|Hb].
  - rewrite bool_decide_true by done. unfold blank, blanks in Hb. repeat (apply elem_of_cons in Hb as [->|Hb]; [done|]). by apply elem_of_nil in Hb.
  - rewrite bool_decide_false by done. rewrite strchr_none; [done|by vm_compute; set_solver|done].
Qed.
Lemma lines_snoc l c : lines_in (l ++ [c]) = lines_in l + (if decide (c = 10) then 1 else 0).
Proof. unfold lines_in. rewrite filter_app, length_app, filter_cons, filter_nil. case_decide; cbn; lia. Qed.
Lemma lines_le l : 0 ≤ lines_in l ≤ Z.of_nat (length l).
Proof. unfold lines_in. pose proof (length_filter (λ c, c = 10) l). lia. Qed.
Lemma words_le l : 0 ≤ words_in l ≤ Z.of_nat (length l).
Proof. unfold words_in. pose proof (length_filter (starts_word l) (seq 0 (length l))). rewrite length_seq in *. lia. Qed.
Lemma filter_same {A} (P Q : A → Prop) `{!∀ x, Decision (P x), !∀ x, Decision (Q x)} (l : list A) : (∀ x, x ∈ l → P x ↔ Q x) → filter P l = filter Q l.
Proof.
  induction l as [|x l IH]; intros Hl; [done|]. rewrite !filter_cons, IH by (intros y Hy; apply Hl; by right). specialize (Hl x ltac:(left)). repeat case_decide; tauto.
Qed.
Definition in_word (l : list Z) : bool := match last l with Some c => bool_decide (¬ blank c) | None => false end.
Lemma words_snoc l c : words_in (l ++ [c]) = words_in l + (if bool_decide (blank c) || in_word l then 0 else 1).
Proof.
  unfold words_in. rewrite length_app, seq_app, filter_app, length_app, Nat2Z.inj_add. f_equal.
  - do 2 f_equal. apply filter_same. intros i [_ Hi]%elem_of_seq. unfold starts_word. rewrite lookup_app_l by lia. destruct i as [|j]; [done|]. by rewrite lookup_app_l by lia.
  - cbn [seq length Nat.add]. rewrite filter_cons, filter_nil. assert (starts_word (l ++ [c]) (length l) ↔ (bool_decide (blank c) || in_word l = false)) as Hiff.
    { unfold starts_word. rewrite lookup_app_r, Nat.sub_diag by done. cbn. unfold in_word. rewrite last_lookup. destruct l as [|d l'] eqn:El.
      - cbn. rewrite orb_false_r, bool_decide_eq_false. tauto.
      - rewrite <-El. assert (length l = S (pred (length l))) as Hn by (rewrite El; done). rewrite Hn at 1. rewrite lookup_app_l by lia.
        destruct (lookup_lt_is_Some_2 l (pred (length l))) as [x Hx]; [lia|]. rewrite Hx. rewrite orb_false_iff, bool_decide_eq_false, bool_decide_eq_false. split; [intros [? ?]; split; tauto|intros [? Hd]; split; [done|]; by apply dec_stable]. }
    case_decide as Hd.
    + by rewrite (proj1 Hiff Hd).
    + destruct (bool_decide (blank c) || in_word l); [done|]. destruct Hd. by apply Hiff.
Qed.
Lemma wc_counts l : Z.of_nat (length l) < 2 ^ 31 →
  let t := foldl wc_char (Wc 0 0 0 false) l in wc_l t = lines_in l ∧ wc_w t = words_in l ∧ wc_c t = Z.of_nat (length l).
Proof.
  intros Hl. cut (foldl wc_char (Wc 0 0 0 false) l = Wc (lines_in l) (words_in l) (Z.of_nat (length l)) (in_word l)); [by intros ->|].
  induction l as [|c l IH] using rev_ind; [done|]. rewrite length_app in *. cbn [length] in *. rewrite foldl_app, IH by lia. cbn [foldl]. unfold wc_char. cbn [wc_l wc_w wc_c wc_inword].
  rewrite is_blank_spec, lines_snoc, words_snoc. assert (in_word (l ++ [c]) = negb (bool_decide (blank c))) as ->.
  { unfold in_word. rewrite last_snoc. by rewrite bool_decide_not. }
  pose proof (lines_le l). pose proof (words_le l). rewrite !s32_id by lia. rewrite Nat2Z.inj_add. change (Z.of_nat 1) with 1.
  destruct (Z.eqb_spec c 10); [rewrite decide_True by done|rewrite decide_False by done]; (case_bool_decide; [|destruct (in_word l)]); cbn [orb negb]; f_equal; lia.
Qed.

Section specs.
Context `{Reads} `{Kernel}.

Lemma says_wp fd fmt ap t s (Q : unit → pst → Prop) : Forall arg_ok ap → text (bytes_of fmt) ap = Some t →
  (∀ s', streams (p_io s') = streams (p_io s) → adds fd t s s' → Q tt s') → wp (io (fprintf fd fmt ap)) Q s.
Proof using Type.
  intros Ha Ht HQ. apply wp_zoom. destruct (fprintf_wp fd fmt ap t (p_io s) (bytes_of_ok _) Ha Ht) as (u' & E & Hs & _ & Ho). eapply wp_intro; [exact E|]. by apply HQ.
Qed.

(** *** The loop over the files *)

Section each.
Context (cannot : list Z → M pst unit) (f : Z → list Z → M pst (option Z)) (cfd : Z) (complaint : list Z → list Z) (emit : list Z → list Z → list Z) (good : list Z → Prop).
Context (Hcannot : ∀ a s, Forall is_byte a → wp (cannot a) (λ _ s', adds cfd (complaint a) s s') s).
Context (Hf : ∀ fd a data s, Forall is_byte a → good data → streams (p_io s) !! fd = Some data →
  wp (f fd a) (λ r s', r = None ∧ streams (p_io s') = <[fd := []]> (streams (p_io s)) ∧ adds 1 (emit a data) s s') s).

Lemma each_file_wp argv s : Forall (Forall is_byte) argv → is_Some (free_fd (p_io s)) → (∀ a data, p_files s !! a = Some data → good data) →
  wp (each_file cannot f argv) (λ r s', r = status_of (gather (p_files s) argv).2 ∧
    ∃ s1, adds 1 (concat ((λ x, emit x.1 x.2) <$> (gather (p_files s) argv).1)) s s1 ∧ adds cfd (default [] (complaint <$> (gather (p_files s) argv).2)) s1 s') s.
Proof using Hcannot Hf.
  intros Hargv [fd Hfd] Hgood. revert s Hfd Hgood. induction Hargv as [|a argv Ha Hargv IH]; intros s Hfd Hgood; cbn [each_file gather].
  { wp_step. split; [done|]. exists s. split; by apply adds_nil. }
  wp_step. unfold open_read. wp_step. wp_step. destruct (p_files s !! a) as [data|] eqn:Ea.
  2:{ wp_steps. change (-1 <? 0) with true. cbv iota. wp_step. eapply wp_mono; [by apply Hcannot|]. intros [] s' Hs'. wp_step. split; [done|]. exists s. split; [by apply adds_nil|done]. }
  assert (fd <? 0 = false ∧ streams (p_io s) !! fd = None) as [Hneg Hnone].
  { apply fmap_Some in Hfd as ([i x] & (Hi & Hx & _)%list_find_Some & ->). apply lookup_seqZ in Hi as [-> _]. cbn [snd]. split; [apply Z.ltb_ge; lia|exact Hx]. }
  rewrite Hfd. wp_step. apply wp_zoom. wp_step. wp_step. rewrite Hneg. set (s1 := Pst _ _ _ _). wp_step.
  eapply wp_mono; [apply (Hf fd a data s1); [done|by eapply Hgood|unfold s1; cbn; apply lookup_insert_eq]|]. intros r s2 (-> & Hst & Hadd). unfold close. wp_step. apply wp_zoom. wp_step. set (s3 := Pst _ _ _ _).
  assert (streams (p_io s3) = streams (p_io s)) as Hs3 by (unfold s3; cbn; rewrite Hst; unfold s1; cbn; rewrite insert_insert_eq; by apply delete_insert_id).
  assert (adds 1 (emit a data) s s3) as Hadd3 by exact Hadd. assert (p_files s3 = p_files s) as Hfiles by apply Hadd3.
  eapply wp_mono; [apply (IH s3); [unfold free_fd; by rewrite Hs3|by rewrite Hfiles]|]. intros r s' (-> & s4 & H4 & H5). rewrite Hfiles in *.
  destruct (gather (p_files s) argv) as [l missing]. cbn [fst snd] in *. split; [done|]. exists s4. split; [|done]. cbn [fmap list_fmap concat fst snd]. by eapply adds_app.
Qed.
End each.

(** *** cat *)

(** The next piece of the input. *)
Definition taken (fd : Z) (rest : list Z) (s : pst) : pst :=
  Pst (Uio (<[fd := rest]> (streams (p_io s))) (S (nreads (p_io s))) (written (p_io s))) (p_files s) (p_calls s) (p_buf s).
Lemma read_fd_wp fd s rest (Q : option (list Z) → pst → Prop) : streams (p_io s) !! fd = Some rest →
  (rest = [] → Q (Some []) (taken fd [] s)) → (∀ c piece rest', rest = (c :: piece) ++ rest' → Q (Some (c :: piece)) (taken fd rest' s)) → wp (read_fd fd 512) Q s.
Proof using Type.
  intros Hs HQ0 HQ. unfold read_fd. wp_step. wp_step. rewrite Hs. wp_step. apply wp_zoom. unfold wp, read. rewrite Hs. unfold arrives, stream. rewrite Hs.
  change (default [] (Some rest)) with rest. destruct rest as [|c rest].
  - rewrite take_nil, drop_nil. by apply HQ0.
  - assert (0 < Z.to_nat 512)%nat as Hw by lia. set (n := Nat.min (Z.to_nat 512) (length (c :: rest))). assert (0 < n)%nat as Hn by (unfold n; cbn [length]; lia). clearbody n. cbv zeta. rewrite decide_False by lia. pose proof (short_ok (nreads (p_io s)) n Hn) as Hk.
    destruct (short (nreads (p_io s)) n) as [|k]; [lia|]. cbn [take drop]. apply (HQ c (take k rest) (drop k rest)). cbn. by rewrite take_drop.
Qed.
Lemma stream_of fd s rest : streams (p_io s) !! fd = Some rest → stream fd (p_io s) = rest.
Proof using Type. intros Hs. unfold stream. by rewrite Hs. Qed.

Lemma cat_wp fd data s : (∀ i, write_ok i = true) → streams (p_io s) !! fd = Some data →
  wp (cat fd) (λ r s', r = None ∧ streams (p_io s') = <[fd := []]> (streams (p_io s)) ∧ adds 1 data s s') s.
Proof using Type.
  intros Hok Hs. unfold cat. wp_step. wp_step. rewrite (stream_of fd s data Hs).
  apply (wp_loop_st _ (λ _ s1, ∃ before rest, data = before ++ rest ∧ streams (p_io s1) = <[fd := rest]> (streams (p_io s)) ∧ adds 1 before s s1) (λ s1, length (stream fd (p_io s1)))).
  - rewrite (stream_of fd s data Hs). lia.
  - exists [], data. split; [done|]. split; [by rewrite insert_id|by apply adds_nil].
  - intros [] s1 (before & rest & -> & Hs1 & Ha). assert (streams (p_io s1) !! fd = Some rest) as Hl by (rewrite Hs1; apply lookup_insert_eq). unfold cat_body. wp_step. apply (read_fd_wp fd s1 rest); [done| |].
    + intros ->. wp_step. split; [done|]. rewrite app_nil_r. split; [unfold taken; cbn; by rewrite Hs1, insert_insert_eq|]. exact Ha.
    + intros c piece rest' ->. unfold write_fd. wp_step. wp_step. wp_step. rewrite Hok. wp_step. apply wp_zoom. eapply wp_intro; [reflexivity|]. wp_step. wp_step. split.
      * exists (before ++ c :: piece), rest'. split; [by rewrite <-app_assoc|]. split; [cbn; by rewrite Hs1, insert_insert_eq|]. eapply adds_app; [exact Ha|].
        split; [done|]. split; [done|]. intros fd'. unfold output. cbn [p_io written taken]. rewrite filter_app, fmap_app, concat_app, filter_cons, filter_nil. cbn [fst]. case_decide; cbn; by rewrite ?app_nil_r.
      * rewrite (stream_of fd s1 _ Hl). unfold stream. cbn. rewrite lookup_insert_eq. cbn. rewrite length_app. lia.
Qed.

(** *** wc *)

Lemma wc_wp fd name data s : Forall is_byte name → Z.of_nat (length data) < 2 ^ 31 → streams (p_io s) !! fd = Some data →
  wp (wc fd name) (λ r s', r = None ∧ streams (p_io s') = <[fd := []]> (streams (p_io s)) ∧ adds 1 (counts data name) s s') s.
Proof using Type.
  intros Hname Hlen Hs. unfold wc. wp_step. wp_step. wp_step. rewrite (stream_of fd s data Hs).
  apply (wp_loop_st _ (λ t s1, ∃ before rest, data = before ++ rest ∧ t = foldl wc_char (Wc 0 0 0 false) before ∧ streams (p_io s1) = <[fd := rest]> (streams (p_io s)) ∧ adds 1 [] s s1)
    (λ s1, length (stream fd (p_io s1)))).
  - rewrite (stream_of fd s data Hs). lia.
  - exists [], data. split; [done|]. split; [done|]. split; [by rewrite insert_id|by apply adds_nil].
  - intros t s1 (before & rest & -> & -> & Hs1 & Ha). assert (streams (p_io s1) !! fd = Some rest) as Hl by (rewrite Hs1; apply lookup_insert_eq). unfold wc_body. wp_step. apply (read_fd_wp fd s1 rest); [done| |].
    + intros ->. wp_step. rewrite app_nil_r in *. destruct (wc_counts before Hlen) as (H1 & H2 & H3). wp_step.
      rewrite printf_fprintf. eapply (says_wp 1 _ _ (counts before name)).
      * repeat constructor; cbn [arg_ok default]; try done.
        all: rewrite ?H1, ?H2, ?H3; pose proof (lines_le before); pose proof (words_le before); lia.
      * rewrite H1, H2, H3. apply text_counts.
      * intros s' Hst Hadd. wp_step. split; [done|]. split; [rewrite Hst; cbn; by rewrite Hs1, insert_insert_eq|]. rewrite <-(app_nil_l (counts before name)). by eapply adds_app.
    + intros c piece rest' ->. wp_step. split.
      * exists (before ++ c :: piece), rest'. split; [by rewrite <-app_assoc|]. split; [by rewrite foldl_app|]. split; [cbn; by rewrite Hs1, insert_insert_eq|]. exact Ha.
      * rewrite (stream_of fd s1 _ Hl). unfold stream. cbn. rewrite lookup_insert_eq. cbn. rewrite length_app. lia.
Qed.

(** *** echo, mkdir, rm *)

Lemma write_fd_wp fd t s (Q : bool → pst → Prop) : (∀ i, write_ok i = true) → (∀ s', adds fd t s s' → Q true s') → wp (write_fd fd t) Q s.
Proof using Type.
  intros Hok HQ. unfold write_fd. wp_step. wp_step. rewrite Hok. wp_step. apply wp_zoom. eapply wp_intro; [reflexivity|]. wp_step. apply HQ. split; [done|]. split; [done|].
  intros fd'. unfold output. cbn [p_io written]. rewrite filter_app, fmap_app, concat_app, filter_cons, filter_nil. cbn [fst]. case_decide; cbn; by rewrite ?app_nil_r.
Qed.
(** The arguments with a space between them, and a newline. *)
Definition echoed (argv : list (list Z)) : list Z := match argv with [] => [] | a :: argv => a ++ concat ((λ b, 32 :: b) <$> argv) ++ [10] end.
Lemma echo_wp argv s : (∀ i, write_ok i = true) → wp (echo_main argv) (λ r s', r = 0 ∧ adds 1 (echoed argv) s s') s.
Proof using Type.
  intros Hok. unfold echo_main. wp_step. eapply (wp_mono _ (λ _ s', adds 1 (echoed argv) s s')); [|intros [] s' Hs'; by wp_step].
  revert s. induction argv as [|a argv IH]; intros s; cbn [echo_loop]; [wp_step; by apply adds_nil|]. wp_step. apply write_fd_wp; [done|]. intros s1 H1. wp_step. destruct argv as [|b argv].
  - apply write_fd_wp; [done|]. intros s2 H2. cbn [echo_loop]. wp_step. by eapply adds_app.
  - apply write_fd_wp; [done|]. intros s2 H2. eapply wp_mono; [apply IH|]. intros [] s' H3. cbn [echoed fmap list_fmap concat]. eapply adds_app; [exact H1|]. rewrite <-app_assoc. cbn [app].
    change (32 :: b ++ ?l) with ([32] ++ b ++ l). eapply adds_app; [exact H2|exact H3].
Qed.

(** [n] calls have been made before. *)
Fixpoint until_failure (n : nat) (cs : list call) : list call :=
  match cs with
  | [] => []
  | c :: cs => c :: (if call_result n c <? 0 then [] else until_failure (S n) cs)
  end.
Lemma each_call_wp c fmt0 argv s : Forall (Forall is_byte) argv → (∀ a, is_Some (text (bytes_of fmt0) [PStr (Some a)])) →
  wp (each_call c fmt0 argv) (λ _ s', p_calls s' = p_calls s ++ until_failure (length (p_calls s)) (c <$> argv)) s.
Proof using Type.
  intros Hb Ht. revert s. induction Hb as [|a argv Ha Hb IH]; intros s; cbn [each_call fmap list_fmap until_failure]; [wp_step; by rewrite app_nil_r|].
  wp_step. unfold sys_call. wp_steps. destruct (call_result (length (p_calls s)) (c a) <? 0).
  - destruct (Ht a) as [t E]. eapply says_wp; [by apply Forall_singleton|exact E|]. intros s' _ (_ & Hc & _). by rewrite Hc.
  - eapply wp_mono; [apply IH|]. intros [] s' ->. cbn [p_calls]. rewrite length_app, <-app_assoc. cbn. by rewrite Nat.add_comm.
Qed.
End specs.

(** ** Theorems *)

(** C30: [cat] copies.  With no arguments it writes its input, otherwise the files
    one after the other, to descriptor 1, every byte once and in order, however the
    reads cut them; at a file that it cannot open it stops with a message and
    status 1. *)
Theorem cat_spec `{Reads} `{Kernel} argv s input : (∀ i, write_ok i = true) → Forall (Forall is_byte) argv → is_Some (free_fd (p_io s)) → streams (p_io s) !! 0 = Some input →
  let '(files, missing) := gather (p_files s) argv in
  ∃ s', cat_main argv s = Done (status_of missing) s' ∧
    output 1 (p_io s') = output 1 (p_io s) ++ (if decide (argv = []) then input else concat (snd <$> files)) ∧
    output 2 (p_io s') = output 2 (p_io s) ++ default [] ((λ a, bytes_of "cat: cannot open " ++ a ++ [10]) <$> missing).
Proof.
  intros Hok Hb Hfd Hin. unfold cat_main. destruct argv as [|a argv].
  - cbn [gather filter_main]. pose proof (cat_wp 0 input s Hok Hin) as (r & s' & E & -> & _ & Ha)%wp_elim. exists s'. rewrite (bind_done _ _ _ _ _ E). split; [done|].
    destruct Ha as (_ & _ & Ho). rewrite decide_True by done. split; rewrite Ho; by repeat case_decide.
  - assert (wp (cat_main (a :: argv)) (λ r s', r = status_of (gather (p_files s) (a :: argv)).2 ∧ ∃ s1, adds 1 (concat (snd <$> (gather (p_files s) (a :: argv)).1)) s s1 ∧
      adds 2 (default [] ((λ a, bytes_of "cat: cannot open " ++ a ++ [10]) <$> (gather (p_files s) (a :: argv)).2)) s1 s') s) as Hw.
    { unfold cat_main, filter_main. apply (each_file_wp _ _ 2 (λ a, bytes_of "cat: cannot open " ++ a ++ [10]) (λ _ d, d) (λ _, True)); [| |done|done|done].
      - intros b s0 Hbb. eapply says_wp; [by apply Forall_singleton|reflexivity|by intros].
      - intros fd b data s0 _ _ Hs0. by apply cat_wp. }
    destruct (gather (p_files s) (a :: argv)) as [files missing]. cbn [fst snd] in Hw. apply wp_elim in Hw as (r & s' & E & -> & s1 & (_ & _ & H1) & (_ & _ & H2)).
    exists s'. split; [exact E|]. rewrite decide_False by done. split; rewrite H2, H1; repeat case_decide; try done; by rewrite ?app_nil_r.
Qed.

(** C29: [wc] counts.  For each file, or for its input, of less than 2^31 bytes, it
    prints the number of its newlines, of its words and of its bytes, as numerals
    that read back as these numbers, and the name. *)
Theorem wc_spec `{Reads} argv s input : Forall (Forall is_byte) argv → is_Some (free_fd (p_io s)) → streams (p_io s) !! 0 = Some input →
  Z.of_nat (length input) < 2 ^ 31 → (∀ a data, p_files s !! a = Some data → Z.of_nat (length data) < 2 ^ 31) →
  let '(files, missing) := gather (p_files s) argv in
  (∃ s', wc_main argv s = Done (status_of missing) s' ∧
    output 1 (p_io s') = output 1 (p_io s) ++ (if decide (argv = []) then counts input [] else concat ((λ x, counts x.2 x.1) <$> files)) ++
      default [] ((λ a, bytes_of "wc: cannot open " ++ a ++ [10]) <$> missing)) ∧
  ∀ n, 0 ≤ n < 2 ^ 31 → read_int 10 (int_text n 10 true) = n.
Proof.
  intros Hb Hfd Hin Hlen Hfiles. assert (∀ n, 0 ≤ n < 2 ^ 31 → read_int 10 (int_text n 10 true) = n) as Hnum by (intros n Hn; apply (int_text_value n 10 true); [by left|lia]).
  destruct argv as [|a argv].
  - split; [|done]. unfold wc_main. cbn [filter_main]. pose proof (wc_wp 0 [] input s ltac:(done) Hlen Hin) as (r & s' & E & -> & _ & Ha)%wp_elim. exists s'. rewrite (bind_done _ _ _ _ _ E). split; [done|].
    destruct Ha as (_ & _ & Ho). by rewrite decide_True, Ho, decide_True, app_nil_r by done.
  - assert (wp (wc_main (a :: argv)) (λ r s', r = status_of (gather (p_files s) (a :: argv)).2 ∧ ∃ s1, adds 1 (concat ((λ x, counts x.2 x.1) <$> (gather (p_files s) (a :: argv)).1)) s s1 ∧
      adds 1 (default [] ((λ a, bytes_of "wc: cannot open " ++ a ++ [10]) <$> (gather (p_files s) (a :: argv)).2)) s1 s') s) as Hw.
    { unfold wc_main, filter_main. apply (each_file_wp _ _ 1 (λ a, bytes_of "wc: cannot open " ++ a ++ [10]) (λ a d, counts d a) (λ d, Z.of_nat (length d) < 2 ^ 31)); [| |done|done|done].
      - intros b s0 Hbb. rewrite printf_fprintf. eapply says_wp; [by apply Forall_singleton|reflexivity|by intros].
      - intros fd b data s0 Hbb Hd Hs0. by apply wc_wp. }
    destruct (gather (p_files s) (a :: argv)) as [files missing]. cbn [fst snd] in Hw. apply wp_elim in Hw as (r & s' & E & -> & s1 & (_ & _ & H1) & (_ & _ & H2)).
    split; [|done]. exists s'. split; [exact E|]. rewrite decide_False by done. by rewrite H2, H1, !decide_True, <-app_assoc by done.
Qed.

(** ** Two files and a missing one *)

Definition demo_kernel : Kernel := {| write_ok _ := true; call_result _ _ := 0 |}.
Definition demo_pst : pst :=
  Pst (Uio {[0 := []]} 0 []) {[bytes_of "a" := bytes_of (line "to be or") ++ bytes_of (line " not  to be"); bytes_of "b" := bytes_of "x"]} [] [].
Definition demo_args : list (list Z) := [bytes_of "a"; bytes_of "b"; bytes_of "c"].
Lemma demo_args_bytes : Forall (Forall is_byte) demo_args.
Proof. unfold demo_args. repeat (constructor; [apply bytes_of_ok|]). constructor. Qed.

Lemma cat_spec_witness : ∃ s', @cat_main demo_reads demo_kernel demo_args demo_pst = Done 1 s' ∧
  output 1 (p_io s') = bytes_of (line "to be or") ++ bytes_of (line " not  to be") ++ bytes_of "x".
Proof.
  destruct (@cat_spec demo_reads demo_kernel demo_args demo_pst [] ltac:(done) demo_args_bytes ltac:(by eexists) ltac:(reflexivity)) as (s' & E & H1 & _). exists s'. exact (conj E H1).
Defined.
Lemma wc_spec_witness : ∃ s', @wc_main demo_reads demo_args demo_pst = Done 1 s' ∧
  output 1 (p_io s') = bytes_of (line "2 6 21 a") ++ bytes_of (line "0 1 1 b") ++ bytes_of (line "wc: cannot open c").
Proof.
  destruct (@wc_spec demo_reads demo_args demo_pst [] demo_args_bytes) as [(s' & E & H1) _].
  - by eexists.
  - reflexivity.
  - cbn. lia.
  - intros a data. unfold demo_pst. cbn [p_files]. intros [[_ <-]|[_ [_ <-]%lookup_singleton_Some]]%lookup_insert_Some; by vm_compute.
  - exists s'. split; [exact E|]. rewrite H1. by vm_compute.
Defined.
