(* ===== verification/Uls.v ===== *)
(** * ls and init

    [user/ls.c], which prints what [stat] says of a file or of the entries of a
    directory, and [user/init.c], which keeps a shell running. *)

From S2P Require Import Prelude Riscv Memory CString State Printf PrintfSpec Bytes Ulib Grep Uprintf Uprogs Sh ShGrammar ShParse ShTree ShThm ShRun.

(** ** ls *)

(** The type, inode number and size that [fstat] and [stat] report. *)
Class Stats := stat_of : list Z → option (Z * Z * Z).

(** [for(p=path+strlen(path); p >= path && *p != '/'; p--); p++], from [p = path + i]. *)
Fixpoint after_slash (path : list Z) (i : nat) : nat :=
  if default 0 (path !! i) =? chr "/" then S i
  else match i with O => O | S i => after_slash path i end.
Definition fmtname (path : list Z) : list Z :=
  let p := drop (after_slash path (length path)) path in
  if DIRSIZ <=? Z.of_nat (length p) then p else p ++ replicate (Z.to_nat DIRSIZ - length p) 32.

Section ls.
Context `{Reads} `{Stats}.

(** [de.name] up to its first NUL, at most [DIRSIZ] characters. *)
Definition ls_body (path : list Z) (fd : Z) (_ : unit) : M pst (unit + unit) :=
  r ← read_fd fd DIRENT_SIZE;
  match r with
  | Some de =>
      if negb (Z.of_nat (length de) =? DIRENT_SIZE) then mret (inr tt)
      else if le_get (take 2 de) =? 0 then mret (inl tt)
      else
        let buf := path ++ [chr "/"] ++ CString.cstr (drop 2 de) in
        match stat_of buf with
        | None => Uprogs.io (printf (line "ls: cannot stat %s") [PStr (Some buf)])
        | Some (type, ino, size) =>
            Uprogs.io (printf (line "%s %d %d %d") [PStr (Some (fmtname buf)); PInt type; PInt (s32 ino); PInt (s32 size)])
        end ;;
        mret (inl tt)
  | None => mret (inr tt)
  end.
Definition ls (path : list Z) : M pst unit :=
  fd ← open_read path;
  if fd <? 0 then Uprogs.io (fprintf 2 (line "ls: cannot open %s") [PStr (Some path)])
  else
    match stat_of path with
    | None => Uprogs.io (fprintf 2 (line "ls: cannot stat %s") [PStr (Some path)]) ;; close fd
    | Some (type, ino, size) =>
        (if (type =? T_DEVICE) || (type =? T_FILE) then
           Uprogs.io (printf (line "%s %d %d %l") [PStr (Some (fmtname path)); PInt type; PInt (s32 ino); PPtr size])
         else if type =? T_DIR then
           if 512 <? Z.of_nat (length path) + 1 + DIRSIZ + 1 then Uprogs.io (printf (line "ls: path too long") [])
           else
             s ← get;
             loopM (S (length (stream fd (p_io s)))) (ls_body path fd) tt
         else mret tt) ;;
        close fd
    end.
Definition ls_main (argv : list (list Z)) : M pst Z :=
  match argv with
  | [] => ls (bytes_of ".") ;; mret 0
  | _ => forM argv ls ;; mret 0
  end.
End ls.

Lemma after_slash_end dir base i : chr "/" ∉ base → (length dir ≤ i ≤ length dir + S (length base))%nat →
  after_slash (dir ++ chr "/" :: base) i = S (length dir).
Proof.
  intros Hb. induction i as [|i IH]; intros Hi; cbn [after_slash].
  - assert (dir = []) as -> by (destruct dir; [done|cbn in Hi; lia]). done.
  - destruct (decide (length dir = S i)) as [E|Hne].
    + rewrite lookup_app_r, E, Nat.sub_diag by lia. cbn. done.
    + rewrite lookup_app_r by lia. destruct (S i - length dir)%nat as [|j] eqn:Ej; [lia|]. cbn [lookup list_lookup].
      replace (default 0 (base !! j) =? chr "/") with false; [apply IH; lia|]. symmetry. apply Z.eqb_neq. destruct (base !! j) as [c|] eqn:Ec; [|done].
      cbn. intros ->. apply Hb. by eapply list_elem_of_lookup_2.
Qed.
(** The last element of a path, padded with blanks. *)
Lemma fmtname_base dir base : chr "/" ∉ base → (length base ≤ 14)%nat → fmtname (dir ++ chr "/" :: base) = base ++ replicate (14 - length base) 32.
Proof.
  intros Hb Hl. unfold fmtname. rewrite after_slash_end by (try done; rewrite length_app; cbn; lia). change (chr "/" :: base) with ([chr "/"] ++ base). rewrite app_assoc, drop_app_length' by (rewrite length_app; cbn; lia).
  change (Z.to_nat DIRSIZ) with 14%nat. destruct (Z.leb_spec DIRSIZ (Z.of_nat (length base))); [|done]. change DIRSIZ with 14 in *. replace (14 - length base)%nat with 0%nat by lia. by rewrite app_nil_r.
Qed.

(** ** init *)

(** The system call that [init] makes next, and the child before its [exec]. *)
Inductive initpc := OpenConsole | MakeConsole | ReopenConsole | DupOut | DupErr | ForkShell | ExecShell | WaitFor (pid : Z) | Stopped.
(** [i_shells] are the shells that were started and have not been waited for. *)
Record initst := Init { i_pc : initpc; i_fds : gmap Z fobj; i_shells : list Z; i_said : list Z }.
Definition console_file : fobj := OpenFile (bytes_of "console") O_RDWR.
(** Descriptor 0 is duplicated when it is open. *)
Definition dup0 (r : Z) (t : gmap Z fobj) : gmap Z fobj := match t !! 0 with Some o => if r <? 0 then t else <[r := o]> t | None => t end.

(** [r] is the result of the system call. *)
Definition init_step (s : initst) (r : Z) : initst :=
  let say (m : string) := i_said s ++ bytes_of (line m) in
  let opened := if r <? 0 then i_fds s else <[r := console_file]> (i_fds s) in
  match i_pc s with
  | OpenConsole => if r <? 0 then Init MakeConsole (i_fds s) (i_shells s) (i_said s) else Init DupOut opened (i_shells s) (i_said s)
  | MakeConsole => Init ReopenConsole (i_fds s) (i_shells s) (i_said s)
  | ReopenConsole => Init DupOut opened (i_shells s) (i_said s)
  | DupOut => Init DupErr (dup0 r (i_fds s)) (i_shells s) (i_said s)
  | DupErr => Init ForkShell (dup0 r (i_fds s)) (i_shells s) (say "init: starting sh")
  | ForkShell =>
      if r <? 0 then Init Stopped (i_fds s) (i_shells s) (say "init: fork failed")
      else if r =? 0 then Init ExecShell (i_fds s) (i_shells s) (i_said s)
      else Init (WaitFor r) (i_fds s) (i_shells s ++ [r]) (i_said s)
  | ExecShell => Init Stopped (i_fds s) (i_shells s) (say "init: exec sh failed")
  | WaitFor pid =>
      if r =? pid then Init ForkShell (i_fds s) (filter (λ p, p ≠ r) (i_shells s)) (say "init: starting sh")
      else if r <? 0 then Init Stopped (i_fds s) (i_shells s) (say "init: wait returned an error")
      else Init (WaitFor pid) (i_fds s) (filter (λ p, p ≠ r) (i_shells s)) (i_said s)
  | Stopped => s
  end.
Definition init_start : initst := Init OpenConsole ∅ [] [].

(** As long as [fork] and [wait] do not fail, [init] waits for the one shell that
    there is, whatever other processes it reaps, or starts one when there is none. *)
Definition one_shell (s : initst) : Prop :=
  match i_pc s with
  | WaitFor pid => i_shells s = [pid]
  | Stopped => False
  | _ => i_shells s = []
  end.
Lemma init_one_shell rs s : one_shell s → i_pc s ≠ ExecShell → Forall (λ r, 0 < r) rs → one_shell (foldl init_step s rs).
Proof.
  intros Hs Hpc Hrs. revert s Hs Hpc. induction Hrs as [|r rs Hr Hrs IH]; intros s Hs Hpc; [done|]. cbn [foldl].
  assert (one_shell (init_step s r) ∧ i_pc (init_step s r) ≠ ExecShell) as [H1 H2]; [|by apply IH].
  destruct s as [pc fds shells said]. unfold one_shell, init_step in *. cbn [i_pc i_shells i_fds i_said] in *. rewrite (proj2 (Z.ltb_ge r 0)), ?(proj2 (Z.eqb_neq r 0)) by lia.
  destruct pc; try done; try (split; [exact Hs|done]).
  - by rewrite Hs.
  - subst shells. destruct (Z.eqb_spec r pid) as [->|Hne]; (split; [|done]); cbn [i_pc i_shells]; rewrite filter_cons, filter_nil; [by rewrite decide_False by tauto|by rewrite decide_True by congruence].
Qed.
(** With the first descriptors that are free, the console is input, output and errors. *)
Lemma init_stdio s : s = foldl init_step init_start [0; 1; 2] ∨ s = foldl init_step init_start [-1; 0; 0; 1; 2] → i_pc s = ForkShell ∧ stdio (i_fds s).
Proof.
  intros Hs. assert (i_pc s = ForkShell ∧ i_fds s = <[2 := console_file]> (<[1 := console_file]> {[0 := console_file]})) as [-> ->] by (destruct Hs as [-> | ->]; split; reflexivity).
  split; [done|]. intros fd. rewrite !lookup_insert_is_Some, lookup_singleton_is_Some. lia.
Qed.
